(* ===== verification/_CoqProject ===== *)
-Q . S2P
Prelude.v
Crc32.v
BlockHash.v
Sha2.v
Sha1.v
Md5.v
Lmb.v
Cstring.v
Qsort.v
Rbtree.v
Hashtable.v
HashtableMap.v
EnvText.v
EnvAttr.v
EnvVars.v
Command.v
EnvFlags.v
Nand.v
Fdt.v
FdtTree.v
FdtQuery.v
FdtRw.v
FdtParts.v
FdtEdit.v
FdtOpen.v
FdtPaths.v
Vsprintf.v
FdtSupport.v
EnvStore.v
Hash.v
Image.v
Fit.v
FitSample.v
FitSig.v
Bootm.v
BootImages.v
BootmRun.v
Atags.v
Handover.v
LinuxBoot.v
Ubi.v
UbiIo.v
UbiWl.v
UbiEba.v
UbiWlSpec.v
UbiWorks.v
UbiEbaSpec.v
UbiSpec.v
UbiFlash.v
Meraki.v
