(* ===== verification/Prelude.v ===== *)
(** * Verification of the U-Boot boot loader of the MS120

    The program is U-Boot 2013.01 as built for the Meraki MS120 switch
    (src/U-boot.MS120, board ac3_customer0, include/configs/msys.h): 32-bit
    little-endian ARM, [char] unsigned, verified boot of FIT images with ECDSA
    keys, environment in a hash table, images and an upgrade counter in UBI
    volumes on NAND flash.

    ** How the program works

    The shell runs [bootcmd]: it attaches the UBI partition, tries the image
    in the volume part.new while the upgrade counter allows it
    ([meraki_check_upgrade]), reads an image to memory and calls [bootm].
    [bootm] recognises the image format, looks up the configuration and the
    kernel in the flattened device tree the image is, verifies the signature
    of the configuration with the keys of the boot loader's own tree, checks
    the hashes of the kernel, moves it to its load address and jumps.  Settings
    come from the environment, which is loaded from the NAND flash (a release
    build takes the one compiled in) and saved there behind a CRC-32; memory
    for the kernel is handed out by the logical memory blocks.

    ** The files

    Each file models one part; its definitions carry the names of the C
    functions and are translated statement by statement.

    - Prelude: machine words ([wrap], [signed]), bytes, memory as lists,
      notation, the hint databases [word] and [zbits], shared lemmas.
    - Crc32: lib/crc32.c.  BlockHash: what the block hashes share.
      Sha2: lib/sha256.c, lib/sha512.c.  Sha1: lib/sha1.c.  Md5: lib/md5.c.
    - Hash: the table of algorithms of common/hash.c and [hash_calculate] of
      lib/rsa/rsa-checksum.c.
    - Lmb: lib/lmb.c.
    - Cstring: lib/string.c, lib/ctype.c.  Qsort: lib/qsort.c.  Vsprintf:
      lib/vsprintf.c.
    - Hashtable, HashtableMap, EnvText: lib/hashtable.c (operations;
      refinement of a finite map; export and import as text).
    - EnvAttr: common/env_attr.c.  EnvVars: reading variables
      (common/cmd_nvedit.c, common/env_common.c).  EnvFlags:
      common/env_flags.c, common/env_callback.c, as the hooks of the table.
    - Command: the command table of common/command.c.  Nand: reading, writing
      and erasing around bad blocks (drivers/mtd/nand/nand_util.c).  EnvStore:
      loading and saving the environment and the commands on it
      (common/env_common.c, env_nand.c, env_nowhere.c, cmd_nvedit.c).
    - Fdt, FdtTree, FdtQuery: lib/libfdt (fdt.c, fdt_ro.c, fdt_wip.c) on any
      blob of bytes, and on blobs that encode a tree.  FdtRw: fdt_rw.c.
      FdtParts gives a blob by its parts ([dtb], [flat], [wf]); FdtEdit,
      FdtOpen: what the edits do to it (properties and nodes; reservations and
      the move to a buffer).  FdtPaths: trees with names, edits at a path
      ([holds_tree], [edit_at]).  FdtSupport: common/fdt_support.c, as edits of
      such a tree.
    - Image: image headers, tables of codes and image specifications of
      common/image.c.  Fit: the FIT part of common/image.c.  FitSample: a
      signed sample image.  FitSig: common/image-sig.c and
      lib/ecdsa/ecdsa-verify.c.  Bootm: [boot_get_kernel] of
      common/cmd_bootm.c.  BootmRun: the rest of [bootm] there, from
      [bootm_start] to the jump, and its subcommands.  BootImages: ramdisk and
      device tree in common/image.c, found, checked and moved.  Atags and
      Handover: arch/arm/lib/bootm.c, the tags or the tree for Linux and the
      jump.  LinuxBoot: Handover as the operating system of BootmRun, [bootm]
      from its argument to the registers of the kernel.
    - Rbtree: lib/rbtree.c.  UBI from the flash up (drivers/mtd/ubi): UbiIo:
      io.c, the layout of build.c and the checksum, over the class [Mtd] of the
      flash driver; UbiWl: wl.c, with [ubi_eba_copy_leb]; UbiEba: eba.c and
      writing the volume table (vtbl.c).  UbiWlSpec and UbiWorks: the invariant
      of trees, tables and flash ([wl_ok], [dev_ok]) and the works that keep
      it; UbiEbaSpec: what the calls do to the contents of volumes ([leb]).
    - Ubi: upd.c, misc.c, volume creation of vmt.c there and the command
      common/cmd_ubi.c.  UbiSpec: what volumes keep.  UbiFlash: the calls of
      UbiEba as the layer below volumes, with its laws, and volumes on a chip.
      Meraki: common/cmd_meraki.c.

    ** How C is modelled

    Unsigned integers are [Z] values with the wrap-around of their width
    written out; signed ones go through [signed] where they can overflow.  A
    pointer is an offset into the list of bytes that is the memory from some
    object on; reading or writing outside gives [None], so a theorem that a
    function returns [Some] includes that it stays inside its buffers.  A
    function that fails returns its error code.  Memory that C leaves
    uninitialised is an argument ([junk], [stack], [buf]).  Loops that are not
    structural have fuel: the length of the input plus a constant where every
    iteration consumes input, else the bound stated at the loop; [None] from
    lack of fuel is excluded by the theorems that state a result.  The works of
    wear levelling start each other; the levels they need are bounded by the
    erase counters left and the bit flips the chip will still report
    ([UbiWorks.plenty]).

    Components meet at type classes: the hooks of the environment table
    ([Hashtable]), the laws of a hash algorithm ([Hash.HashAlgoOk]), the
    elliptic-curve library ([FitSig.Mbedtls]), the erase-block layer of UBI
    ([Ubi.UbiEba] with the laws [UbiSpec.UbiEbaOk], which [UbiFlash.flash_eba_ok]
    proves of the calls of UbiEba), the flash driver ([UbiIo.Mtd] with the laws [UbiIo.MtdOk]: programmed bytes are
    read back or an error is reported, nothing else changes),
    the NAND driver ([Nand.NandInfo] with the laws [Nand.NandOk]), the
    environment, decompressors and operating systems of [bootm]
    ([BootmRun.BootServices], with the instance [LinuxBoot.linux_services]),
    the place of [gd] in the state of the hooks ([EnvStore.EnvGd]).

    ** What the theorems show

    - Verified boot: [boot_get_kernel] with verification on accepts a kernel
      only as a legacy image with right checksums, by the name of an image, or
      through a configuration with an accepted signature; hashes are right for
      the bytes booted.  [fit_config_verify] accepts only what the library
      accepted, for the digest of the listed regions.  [bootm] starts exactly
      the kernel that was accepted, loaded where it belongs, or returns an
      error; its subcommands keep their order in any session.  The examples
      next to the theorems show what this does not cover.
    - Upgrades: a UBI volume gives back what was written, on any chip that
      keeps its laws, and writing it touches no other volume; a failed update
      locks the volume; the new image is tried at most five times.
    - UBI on the flash: the layout and the headers; whatever wear levelling,
      scrubbing and bad blocks do, every call comes back and every erase block
      keeps its contents; what was written is read; the volume table is never
      lost in both copies.  Red-black trees stay balanced, ordered and complete.
    - From [bootm] to the kernel: the kernel that [bootm] enters is the one it
      verified, with the tree and the ramdisk as below ([bootm_boots_linux]).
    - Handing over to Linux: [do_bootm_linux] with a ramdisk and a tree enters
      the kernel with a tree that says what the image's tree says plus command
      line, memory, MAC address and ramdisk, in memory that was free, and
      changes no other memory; a ramdisk comes from a checked image; the list
      of tags reads back as meant.
    - Device trees: no read outside a blob and termination for any bytes;
      lookup of nodes, properties and paths on encoded trees; setting
      properties, adding and removing nodes and reservations and moving the
      tree are the edits they are named for, or report that there is no room.
    - Hashes and checksums equal the standards' definitions, however the data
      is cut; CRC-32 finds every burst of up to four bytes.
    - Memory blocks: allocation, freeing and the invariant of the tables.
    - Environment: the table implements a finite map under its veto and
      change hooks; export and import are inverse; attribute lists, flags and
      the reading of variables; [setenv] is an update of the map; what
      [saveenv] wrote is loaded after a reset, bad blocks or not, and a damaged
      copy is replaced by the default environment.
    - NAND: what was written around bad blocks is read back.  Commands: the
      first exact match or the only abbreviation is found.
    - C library: sorting, searching, copying, printing and reading numbers.

    Findings are recorded where the code departs from this; each has an
    example that computes it.

    ** Not modelled

    The elliptic-curve arithmetic (lib/mbedtls), the shell (common/hush.c),
    console and commands other than those named, network, USB, file systems,
    decompression, sequential writing of device trees (fdt_sw.c, not called),
    the fix-ups of other boards, the clean-up before the jump to the kernel,
    the NAND driver, attaching UBI (scan.c and what the other parts do with its
    result), the start-up and board code, the device drivers and the Marvell
    hardware library: I/O, third-party code, or parts for later.  Host tools
    are not part of the boot loader.

    ** Plan

    Next: attaching UBI (scan.c and the initialisation of the other parts from
    what it finds), so that what was written is there after a reset; [EnvStore] as the environment of
    [BootmRun.BootServices], the shell, the network checksum and TFTP. *)

From Stdlib Require Export ZArith Lia Bool Btauto Sorting.Sorted.
From stdpp Require Export base tactics numbers list strings sets.

#[global] Open Scope Z_scope.

(** ** Machine words

    A [w]-bit unsigned C integer is a [Z] in [[0, 2^w)]; every C
    operation that can leave the range is followed by [wrap]. *)

Definition wrap (w z : Z) : Z := z mod 2 ^ w.

Definition in_word (w z : Z) : Prop := 0 <= z < 2 ^ w.

Declare Scope word_scope.
Delimit Scope word_scope with word.

Abbreviation u8 z := (wrap 8 z).
Abbreviation u16 z := (wrap 16 z).
Abbreviation u32 z := (wrap 32 z).
Abbreviation u64 z := (wrap 64 z).
Abbreviation byte z := (in_word 8 z).
Abbreviation bytes l := (Forall (in_word 8) l).

(** Conversion to [int] and to [s64]. *)
Definition signed (w z : Z) : Z := let z := wrap w z in if z <? 2 ^ (w - 1) then z else z - 2 ^ w.

Abbreviation s32 z := (signed 32 z).
Abbreviation s64 z := (signed 64 z).

Infix "^^" := Z.lxor (at level 50, left associativity) : word_scope.
Infix ".&" := Z.land (at level 40, left associativity) : word_scope.
Infix ".|" := Z.lor (at level 50, left associativity) : word_scope.
Infix ".>>" := Z.shiftr (at level 38, left associativity) : word_scope.
Infix ".<<" := Z.shiftl (at level 38, left associativity) : word_scope.

#[global] Open Scope word_scope.

#[global] Instance in_word_dec w z : Decision (in_word w z).
Proof. unfold in_word. apply _. Defined.

Create HintDb word.
Create Rewrite HintDb zbits.

(** *** Bitwise reasoning *)

Lemma testbit_above w z i : in_word w z -> w <= i -> Z.testbit z i = false.
Proof.
  intros [H0 H1] Hi. destruct (Z.lt_ge_cases i 0).
  - by rewrite Z.testbit_neg_r.
  - destruct (decide (0 <= w)).
    + rewrite <- (Z.mod_small z (2 ^ w)) by lia.
      by rewrite Z.mod_pow2_bits_high by lia.
    + rewrite Z.pow_neg_r in H1 by lia. lia.
Qed.

(** A non-negative number whose bits vanish from [w] on is a [w]-bit word. *)
Lemma in_word_bits w z :
  0 <= w -> 0 <= z -> (forall i, w <= i -> Z.testbit z i = false) -> in_word w z.
Proof.
  intros Hw Hz Hb. split; [done|].
  destruct (Z.eq_dec z 0) as [->|]; [apply Z.pow_pos_nonneg; lia|].
  apply Z.log2_lt_pow2; [lia|].
  apply Z.nle_gt. intros Hle. specialize (Hb _ Hle).
  rewrite Z.bit_log2 in Hb by lia. done.
Qed.

Lemma wrap_in_word w z : 0 <= w -> in_word w (wrap w z).
Proof. intros. apply Z.mod_pos_bound, Z.pow_pos_nonneg; lia. Qed.

Lemma wrap_small w z : in_word w z -> wrap w z = z.
Proof. intros [??]. by apply Z.mod_small. Qed.

Lemma s32_small z : - 2 ^ 31 <= z < 2 ^ 31 -> s32 z = z.
Proof.
  intros Hz. unfold signed, wrap. change (32 - 1) with 31. destruct (Z.ltb_spec (z mod 2 ^ 32) (2 ^ 31)) as [H|H];
    Z.div_mod_to_equations; lia.
Qed.

Lemma u32_small z : 0 <= z < 2 ^ 32 -> u32 z = z.
Proof. intros Hz. unfold wrap. by apply Z.mod_small. Qed.

Lemma s32_range z : - 2 ^ 31 <= s32 z < 2 ^ 31.
Proof.
  unfold signed, wrap. change (32 - 1) with 31. destruct (Z.ltb_spec (z mod 2 ^ 32) (2 ^ 31)); Z.div_mod_to_equations; lia.
Qed.

Lemma wrap_wrap w z : wrap w (wrap w z) = wrap w z.
Proof. unfold wrap. by rewrite Z.mod_mod_divide by (exists 1; lia). Qed.

Lemma wrap_land_ones w z : 0 <= w -> wrap w z = z .& Z.ones w.
Proof. intros. by rewrite Z.land_ones. Qed.

Lemma wrap_add_l w a b : wrap w (wrap w a + b) = wrap w (a + b).
Proof. unfold wrap. by rewrite Zplus_mod_idemp_l. Qed.

Lemma wrap_add_r w a b : wrap w (a + wrap w b) = wrap w (a + b).
Proof. unfold wrap. by rewrite Zplus_mod_idemp_r. Qed.

Lemma wrap_testbit w z i :
  0 <= w -> 0 <= i -> Z.testbit (wrap w z) i = (i <? w) && Z.testbit z i.
Proof.
  intros. unfold wrap. destruct (Z.ltb_spec i w).
  - by rewrite Z.mod_pow2_bits_low.
  - by rewrite Z.mod_pow2_bits_high by lia.
Qed.

Lemma in_word_lxor w a b : 0 <= w -> in_word w a -> in_word w b -> in_word w (a ^^ b).
Proof.
  intros Hw Ha Hb. apply in_word_bits; [done| |].
  - apply Z.lxor_nonneg. destruct Ha, Hb; lia.
  - intros i Hi. rewrite Z.lxor_spec, !(testbit_above w) by done. done.
Qed.

Lemma in_word_lor w a b : 0 <= w -> in_word w a -> in_word w b -> in_word w (a .| b).
Proof.
  intros Hw Ha Hb. apply in_word_bits; [done| |].
  - apply Z.lor_nonneg. destruct Ha, Hb; lia.
  - intros i Hi. rewrite Z.lor_spec, !(testbit_above w) by done. done.
Qed.

Lemma in_word_land_l w a b : 0 <= w -> in_word w a -> in_word w (a .& b).
Proof.
  intros Hw Ha. apply in_word_bits; [done| |].
  - apply Z.land_nonneg. destruct Ha; lia.
  - intros i Hi. rewrite Z.land_spec, (testbit_above w a) by done. done.
Qed.

Lemma in_word_shiftr w a n : 0 <= w -> 0 <= n -> in_word w a -> in_word w (a .>> n).
Proof.
  intros Hw Hn Ha. apply in_word_bits; [done| |].
  - apply Z.shiftr_nonneg. destruct Ha; lia.
  - intros i Hi. rewrite Z.shiftr_spec by lia. apply (testbit_above w); [done|lia].
Qed.

Lemma in_word_weaken w w' a : w <= w' -> in_word w a -> in_word w' a.
Proof.
  intros Hw [Ha Hb]. split; [done|].
  destruct (decide (0 <= w)).
  - pose proof (Z.pow_le_mono_r 2 w w'); lia.
  - rewrite Z.pow_neg_r in Hb by lia. lia.
Qed.

#[export] Hint Resolve wrap_in_word in_word_lxor in_word_lor in_word_land_l
  in_word_shiftr : word.
#[export] Hint Extern 1 (_ <= _)%Z => lia : word.
#[export] Hint Extern 1 (in_word _ _) => (unfold in_word; lia) : word.

(** [zbits] proves an equality of integers bit by bit: it rewrites the
    bitwise operators with their specifications and decides the rest
    by case analysis on the index comparisons. *)
#[export] Hint Rewrite Z.lxor_spec Z.lor_spec Z.land_spec Z.ldiff_spec Z.lnot_spec
  Z.bits_0 Z.sub_add Z.add_simpl_r andb_false_r andb_true_r
  andb_false_l andb_true_l orb_false_l orb_false_r xorb_false_l xorb_false_r wrap_testbit Z.shiftr_spec Z.shiftl_spec Z.testbit_ones_nonneg
  using lia : zbits.

Ltac zbits_step :=
  match goal with
  | |- context [?a <? ?b] => destruct (Z.ltb_spec a b)
  | |- context [Z.testbit _ ?i] =>
      lazymatch i with
      | context [_ - _] => rewrite (Z.testbit_neg_r _ i) by lia
      end
  | Hw : in_word ?w ?z |- context [Z.testbit ?z ?i] =>
      rewrite (testbit_above w z i Hw) by lia
  | |- context [Z.testbit _ (?i - ?k)] =>
      assert_fails (assert (k <= i) by lia); destruct (Z.lt_ge_cases i k)
  | Hw : in_word ?w ?z |- context [Z.testbit ?z ?i] =>
      assert_fails (assert (i < w) by lia); destruct (Z.lt_ge_cases i w)
  end.

Ltac zbits :=
  apply Z.bits_inj'; intros ?i ?Hi;
  repeat (autorewrite with zbits; repeat zbits_step);
  try btauto; try solve [f_equal; lia | repeat f_equal; lia].

(** ** Byte order *)

(** The integer whose little-endian bytes are [l]. *)
Fixpoint le_combine (l : list Z) : Z :=
  match l with
  | [] => 0
  | x :: l => x .| (le_combine l .<< 8)
  end.

Lemma le_combine_nonneg l : bytes l -> 0 <= le_combine l.
Proof.
  induction 1 as [|x l [Hx _] _ IH]; simpl; [lia|].
  apply Z.lor_nonneg. split; [done|]. by apply Z.shiftl_nonneg.
Qed.

Lemma le_combine_lxor x y : byte x -> x .| (y .<< 8) = x ^^ (y .<< 8).
Proof. intros. zbits. Qed.

Lemma le_combine_bound l : bytes l -> in_word (8 * Z.of_nat (length l)) (le_combine l).
Proof.
  induction 1 as [|x l Hx Hl IH]; [split; simpl; lia|].
  apply in_word_bits; [lia|by apply le_combine_nonneg; constructor|].
  intros i Hi. cbn [le_combine length] in *. rewrite Z.lor_spec, Z.shiftl_spec by lia.
  rewrite (testbit_above 8 x), (testbit_above _ _ _ IH) by (done || lia). done.
Qed.

Lemma le_combine_inj l l' :
  bytes l -> bytes l' -> length l = length l' -> le_combine l = le_combine l' -> l = l'.
Proof.
  intros Hl. revert l'. induction Hl as [|x l Hx Hl IH]; intros [|x' l'] Hl' Hlen Heq;
    try done. inversion Hl' as [|? ? Hx' Ht']; subst. cbn [le_combine] in Heq. f_equal.
  - apply (f_equal (wrap 8)) in Heq.
    assert (Hlow : forall a b, byte a -> wrap 8 (a .| (b .<< 8)) = a) by (intros; zbits).
    by rewrite !Hlow in Heq.
  - apply IH; [done|by simpl in Hlen; lia|].
    apply (f_equal (fun z => z .>> 8)) in Heq.
    assert (Hhigh : forall a b, byte a -> (a .| (b .<< 8)) .>> 8 = b) by (intros; zbits).
    by rewrite !Hhigh in Heq.
Qed.

(** [n] bytes of [z], least significant first. *)
Definition le_bytes (n : nat) (z : Z) : list Z :=
  map (fun i => u8 (z .>> (8 * Z.of_nat i))) (seq 0 n).

Lemma length_le_bytes n z : length (le_bytes n z) = n.
Proof. unfold le_bytes. by rewrite length_map, length_seq. Qed.

Lemma le_bytes_bytes n z : bytes (le_bytes n z).
Proof. apply List.Forall_map, Forall_forall. intros. auto with word. Qed.

Lemma le_combine_le_bytes n z : le_combine (le_bytes n z) = wrap (8 * Z.of_nat n) z.
Proof.
  revert z. induction n as [|n IH]; intros z; [unfold wrap; by rewrite Z.mod_1_r|].
  assert (E : le_bytes (S n) z = u8 z :: le_bytes n (z .>> 8)).
  { unfold le_bytes. cbn [seq map]. f_equal. rewrite <- seq_shift, map_map. apply map_ext. intros i.
    rewrite Z.shiftr_shiftr by lia. do 2 f_equal. lia. }
  rewrite E. cbn [le_combine]. rewrite IH. replace (8 * Z.of_nat (S n)) with (8 * Z.of_nat n + 8) by lia. zbits.
Qed.

(** [n] bytes of [z], most significant first. *)
Fixpoint be_bytes (n : nat) (z : Z) : list Z :=
  match n with
  | O => []
  | S n => u8 (z .>> (8 * Z.of_nat n)) :: be_bytes n z
  end.

(** The integer whose big-endian bytes are [l]. *)
Definition be_combine (l : list Z) : Z := fold_left (fun acc x => acc * 256 + x) l 0.

Lemma length_be_bytes n z : length (be_bytes n z) = n.
Proof. induction n; simpl; congruence. Qed.

Lemma be_bytes_bytes n z : bytes (be_bytes n z).
Proof. induction n; simpl; constructor; auto with word. Qed.

Lemma be_bytes_wrap n w z :
  8 * Z.of_nat n <= w -> be_bytes n (wrap w z) = be_bytes n z.
Proof.
  induction n as [|n IH]; intros Hw; [done|]. cbn [be_bytes].
  rewrite IH by lia. f_equal. zbits.
Qed.

Lemma be_bytes_app n m z :
  be_bytes (n + m) z = be_bytes n (z .>> (8 * Z.of_nat m)) ++ be_bytes m z.
Proof.
  induction n as [|n IH]; [done|]. cbn [be_bytes Nat.add app]. rewrite IH. do 2 f_equal.
  rewrite Z.shiftr_shiftr by lia. f_equal. lia.
Qed.

(** ** Buffers *)

(** [memcpy(dst + off, src, length src)]. *)
Definition memcpy (dst : list Z) (off : nat) (src : list Z) : list Z :=
  take off dst ++ src ++ drop (off + length src) dst.

Lemma length_memcpy dst off src :
  (off + length src <= length dst)%nat -> length (memcpy dst off src) = length dst.
Proof. intros. unfold memcpy. rewrite !length_app, length_take, length_drop. lia. Qed.

Lemma take_memcpy dst off src :
  (off <= length dst)%nat ->
  take (off + length src) (memcpy dst off src) = take off dst ++ src.
Proof.
  intros. unfold memcpy. rewrite app_assoc, take_app_le by
    (rewrite length_app, length_take; lia).
  apply take_ge. rewrite length_app, length_take. lia.
Qed.

Lemma memcpy_full dst off src :
  (off + length src = length dst)%nat -> memcpy dst off src = take off dst ++ src.
Proof.
  intros. rewrite <- take_memcpy by lia. rewrite take_ge; [done|].
  rewrite length_memcpy; lia.
Qed.

Lemma memcpy_nil dst off : memcpy dst off [] = dst.
Proof. unfold memcpy. cbn [length app]. by rewrite Nat.add_0_r, take_drop. Qed.

Lemma memcpy_memcpy dst off a b :
  (off <= length dst)%nat -> memcpy (memcpy dst off a) (off + length a) b = memcpy dst off (a ++ b).
Proof.
  intros Ho. unfold memcpy at 1 3. rewrite take_memcpy by done. rewrite <- !app_assoc, length_app.
  do 3 f_equal. unfold memcpy. rewrite app_assoc, drop_app_ge by (rewrite length_app, length_take; lia).
  rewrite drop_drop. f_equal. rewrite length_app, length_take. lia.
Qed.

(** Memory, or the cells of a chip, as a function of the address. *)
Definition load (m : Z -> Z) (addr : Z) (n : nat) : list Z := map (fun i => m (addr + Z.of_nat i)) (seq 0 n).

Definition store (m : Z -> Z) (addr : Z) (l : list Z) : Z -> Z :=
  fun a => if (addr <=? a) && (a <? addr + Z.of_nat (length l)) then nth (Z.to_nat (a - addr)) l 0 else m a.

Lemma load_length m a n : length (load m a n) = n.
Proof. unfold load. by rewrite length_map, length_seq. Qed.

Lemma load_app m a n k : load m a (n + k) = load m a n ++ load m (a + Z.of_nat n) k.
Proof.
  unfold load. rewrite seq_app, map_app. f_equal. rewrite Nat.add_0_l, <- (Nat.add_0_r n) at 1.
  rewrite <- (fmap_add_seq n 0 k). unfold fmap. rewrite map_map. apply map_ext. intros i. f_equal. lia.
Qed.

Lemma load_ext m m' a n :
  (forall x, a <= x < a + Z.of_nat n -> m x = m' x) -> load m a n = load m' a n.
Proof. intros H. unfold load. apply map_ext_in. intros i Hi%in_seq. apply H. lia. Qed.

Lemma store_bytes m a l : (forall x, in_word 8 (m x)) -> bytes l -> forall x, in_word 8 (store m a l x).
Proof.
  intros Hm Hl x. unfold store. destruct (_ && _); [|done].
  destruct (nth_in_or_default (Z.to_nat (x - a)) l 0) as [Hi| ->]; [|done].
  rewrite Forall_forall in Hl. apply Hl. by apply list_elem_of_In.
Qed.

Lemma store_out m a l x : x < a \/ a + Z.of_nat (length l) <= x -> store m a l x = m x.
Proof.
  intros H. unfold store. destruct (Z.leb_spec a x), (Z.ltb_spec x (a + Z.of_nat (length l))); try done; lia.
Qed.

Lemma load_store m a l : load (store m a l) a (length l) = l.
Proof.
  apply (list_eq_same_length _ _ (length l)); [|by rewrite load_length|].
  { done. }
  intros i x y Hi Hx Hy. unfold load in Hx. rewrite list_lookup_fmap in Hx.
  rewrite lookup_seq_lt in Hx by done. injection Hx as <-. unfold store. cbn.
  destruct (Z.leb_spec a (a + Z.of_nat i)); [|lia].
  destruct (Z.ltb_spec (a + Z.of_nat i) (a + Z.of_nat (length l))); [|lia]. cbn [andb].
  replace (Z.to_nat (a + Z.of_nat i - a)) with i by lia. by apply nth_lookup_Some with (d := 0) in Hy.
Qed.

(** ** Lists *)

Lemma fold_left_map {A B C} (f : A -> B -> A) (g : C -> B) l a :
  fold_left f (map g l) a = fold_left (fun a x => f a (g x)) l a.
Proof. revert a. induction l; simpl; auto. Qed.

Lemma fold_left_ext {A B} (f g : A -> B -> A) l a :
  (forall a x, x ∈ l -> f a x = g a x) -> fold_left f l a = fold_left g l a.
Proof.
  revert a. induction l as [|x l IH]; intros a H; [done|]. simpl.
  rewrite H by constructor. apply IH. intros. apply H. by constructor.
Qed.

Lemma be_combine_step acc y : byte y -> acc * 256 + y = (acc .<< 8) .| y.
Proof.
  intros Hy. change 256 with (2 ^ 8). rewrite <- Z.shiftl_mul_pow2 by lia.
  rewrite Z.add_nocarry_lxor by zbits. zbits.
Qed.

Lemma be_combine_app l1 l2 :
  be_combine (l1 ++ l2) = fold_left (fun acc x => acc * 256 + x) l2 (be_combine l1).
Proof. apply fold_left_app. Qed.

Lemma be_combine_snoc l x : be_combine (l ++ [x]) = be_combine l * 256 + x.
Proof. apply be_combine_app. Qed.

Lemma be_combine_word l : bytes l -> in_word (8 * Z.of_nat (length l)) (be_combine l).
Proof.
  induction l as [|x l IH] using rev_ind; intros Hl; [done|].
  apply Forall_app in Hl as [Hl Hx]. rewrite Forall_singleton in Hx.
  specialize (IH Hl). rewrite be_combine_snoc, length_app. cbn [length].
  replace (8 * Z.of_nat (length l + 1)) with (8 * Z.of_nat (length l) + 8) by lia.
  unfold in_word in *. rewrite Z.pow_add_r by lia. change (2 ^ 8) with 256 in *. lia.
Qed.

Lemma be_bytes_snoc n z : be_bytes (S n) z = be_bytes n (z .>> 8) ++ [u8 z].
Proof. replace (S n) with (n + 1)%nat by lia. by rewrite be_bytes_app. Qed.

(** Encoding and decoding in network byte order are inverse. *)
Lemma be_combine_bytes n z : be_combine (be_bytes n z) = wrap (8 * Z.of_nat n) z.
Proof.
  revert z. induction n as [|n IH]; intros z.
  - unfold wrap. simpl. by rewrite Z.mod_1_r.
  - rewrite be_bytes_snoc, be_combine_snoc, IH, be_combine_step by auto with word.
    replace (8 * Z.of_nat (S n)) with (8 * Z.of_nat n + 8) by lia. zbits.
Qed.

Lemma be_bytes_combine l : bytes l -> be_bytes (length l) (be_combine l) = l.
Proof.
  induction l as [|x l IH] using rev_ind; intros Hl; [done|].
  apply Forall_app in Hl as [Hl Hx]. rewrite Forall_singleton in Hx.
  rewrite length_app, Nat.add_comm, be_combine_snoc. cbn [length Nat.add].
  rewrite be_bytes_snoc, be_combine_step by done.
  assert (Hh : ((be_combine l .<< 8) .| x) .>> 8 = be_combine l) by zbits.
  assert (Hlo : u8 ((be_combine l .<< 8) .| x) = x) by zbits.
  by rewrite Hh, Hlo, IH.
Qed.

Lemma nth_drop {A} (l : list A) i j d : nth (i + j) l d = nth j (drop i l) d.
Proof. revert l. induction i; intros [|x l]; simpl; try done. by destruct j. Qed.

Lemma insert_middle {A} (l1 l2 : list A) x y :
  <[length l1 := y]> (l1 ++ x :: l2) = l1 ++ y :: l2.
Proof. by rewrite insert_app_r_alt, Nat.sub_diag by lia. Qed.

Lemma StronglySorted_app_iff {A} (R : A -> A -> Prop) l1 l2 :
  StronglySorted R (l1 ++ l2) <->
  StronglySorted R l1 /\ StronglySorted R l2 /\ (forall x y, x ∈ l1 -> y ∈ l2 -> R x y).
Proof.
  induction l1 as [|x l1 IH]; simpl.
  - split; [|by intros (_ & ? & _)]. intros H. repeat split; [constructor|done|].
    by intros ? ? ?%not_elem_of_nil.
  - split.
    + intros [H1 H2]%StronglySorted_inv. apply IH in H1 as (Ha & Hb & Hc).
      apply Forall_app in H2 as [H2 H3]. repeat split; [by constructor|done|].
      intros y z [->|Hy]%elem_of_cons Hz; [|by apply Hc].
      rewrite Forall_forall in H3. auto.
    + intros (H1 & H2 & H3). apply StronglySorted_inv in H1 as [H1 H1'].
      constructor.
      * apply IH. repeat split; [done..|]. intros. apply H3; [by right|done].
      * apply Forall_app. split; [done|]. apply Forall_forall. intros. apply H3; [by left|done].
Qed.

Lemma StronglySorted_cons_iff {A} (R : A -> A -> Prop) x l :
  StronglySorted R (x :: l) <-> StronglySorted R l /\ Forall (R x) l.
Proof. split; [apply StronglySorted_inv|intros [? ?]; by constructor]. Qed.

Lemma StronglySorted_impl {A} (R R' : A -> A -> Prop) l :
  (forall x y, x ∈ l -> y ∈ l -> R x y -> R' x y) -> StronglySorted R l -> StronglySorted R' l.
Proof.
  intros H Hs. induction Hs as [|x l Hs IH Hx]; constructor.
  - apply IH. intros. apply H; [by right..|done].
  - rewrite Forall_forall in Hx |- *. intros y Hy. apply H; [by left|by right|auto].
Qed.
