(* ===== verification/Crc32.v ===== *)
(** * CRC-32 (lib/crc32.c)

    The checksum that guards the saved environment and the legacy image
    headers.  [crc32_no_comp] is the code's routine: a byte loop up to a
    word boundary, a loop that consumes four bytes per turn through a
    32-bit little-endian load, and a byte loop for the rest.  The
    reference is the bit-serial division by the CRC-32 polynomial. *)

From S2P Require Import Prelude.

Module Crc32.

(** The table is the [#else] branch of [DYNAMIC_CRC_TABLE]; [tole] is the
    identity on the little-endian target. *)
Definition crc_table : list Z :=
  [0x00000000; 0x77073096; 0xee0e612c; 0x990951ba; 0x076dc419; 0x706af48f;
   0xe963a535; 0x9e6495a3; 0x0edb8832; 0x79dcb8a4; 0xe0d5e91e; 0x97d2d988;
   0x09b64c2b; 0x7eb17cbd; 0xe7b82d07; 0x90bf1d91; 0x1db71064; 0x6ab020f2;
   0xf3b97148; 0x84be41de; 0x1adad47d; 0x6ddde4eb; 0xf4d4b551; 0x83d385c7;
   0x136c9856; 0x646ba8c0; 0xfd62f97a; 0x8a65c9ec; 0x14015c4f; 0x63066cd9;
   0xfa0f3d63; 0x8d080df5; 0x3b6e20c8; 0x4c69105e; 0xd56041e4; 0xa2677172;
   0x3c03e4d1; 0x4b04d447; 0xd20d85fd; 0xa50ab56b; 0x35b5a8fa; 0x42b2986c;
   0xdbbbc9d6; 0xacbcf940; 0x32d86ce3; 0x45df5c75; 0xdcd60dcf; 0xabd13d59;
   0x26d930ac; 0x51de003a; 0xc8d75180; 0xbfd06116; 0x21b4f4b5; 0x56b3c423;
   0xcfba9599; 0xb8bda50f; 0x2802b89e; 0x5f058808; 0xc60cd9b2; 0xb10be924;
   0x2f6f7c87; 0x58684c11; 0xc1611dab; 0xb6662d3d; 0x76dc4190; 0x01db7106;
   0x98d220bc; 0xefd5102a; 0x71b18589; 0x06b6b51f; 0x9fbfe4a5; 0xe8b8d433;
   0x7807c9a2; 0x0f00f934; 0x9609a88e; 0xe10e9818; 0x7f6a0dbb; 0x086d3d2d;
   0x91646c97; 0xe6635c01; 0x6b6b51f4; 0x1c6c6162; 0x856530d8; 0xf262004e;
   0x6c0695ed; 0x1b01a57b; 0x8208f4c1; 0xf50fc457; 0x65b0d9c6; 0x12b7e950;
   0x8bbeb8ea; 0xfcb9887c; 0x62dd1ddf; 0x15da2d49; 0x8cd37cf3; 0xfbd44c65;
   0x4db26158; 0x3ab551ce; 0xa3bc0074; 0xd4bb30e2; 0x4adfa541; 0x3dd895d7;
   0xa4d1c46d; 0xd3d6f4fb; 0x4369e96a; 0x346ed9fc; 0xad678846; 0xda60b8d0;
   0x44042d73; 0x33031de5; 0xaa0a4c5f; 0xdd0d7cc9; 0x5005713c; 0x270241aa;
   0xbe0b1010; 0xc90c2086; 0x5768b525; 0x206f85b3; 0xb966d409; 0xce61e49f;
   0x5edef90e; 0x29d9c998; 0xb0d09822; 0xc7d7a8b4; 0x59b33d17; 0x2eb40d81;
   0xb7bd5c3b; 0xc0ba6cad; 0xedb88320; 0x9abfb3b6; 0x03b6e20c; 0x74b1d29a;
   0xead54739; 0x9dd277af; 0x04db2615; 0x73dc1683; 0xe3630b12; 0x94643b84;
   0x0d6d6a3e; 0x7a6a5aa8; 0xe40ecf0b; 0x9309ff9d; 0x0a00ae27; 0x7d079eb1;
   0xf00f9344; 0x8708a3d2; 0x1e01f268; 0x6906c2fe; 0xf762575d; 0x806567cb;
   0x196c3671; 0x6e6b06e7; 0xfed41b76; 0x89d32be0; 0x10da7a5a; 0x67dd4acc;
   0xf9b9df6f; 0x8ebeeff9; 0x17b7be43; 0x60b08ed5; 0xd6d6a3e8; 0xa1d1937e;
   0x38d8c2c4; 0x4fdff252; 0xd1bb67f1; 0xa6bc5767; 0x3fb506dd; 0x48b2364b;
   0xd80d2bda; 0xaf0a1b4c; 0x36034af6; 0x41047a60; 0xdf60efc3; 0xa867df55;
   0x316e8eef; 0x4669be79; 0xcb61b38c; 0xbc66831a; 0x256fd2a0; 0x5268e236;
   0xcc0c7795; 0xbb0b4703; 0x220216b9; 0x5505262f; 0xc5ba3bbe; 0xb2bd0b28;
   0x2bb45a92; 0x5cb36a04; 0xc2d7ffa7; 0xb5d0cf31; 0x2cd99e8b; 0x5bdeae1d;
   0x9b64c2b0; 0xec63f226; 0x756aa39c; 0x026d930a; 0x9c0906a9; 0xeb0e363f;
   0x72076785; 0x05005713; 0x95bf4a82; 0xe2b87a14; 0x7bb12bae; 0x0cb61b38;
   0x92d28e9b; 0xe5d5be0d; 0x7cdcefb7; 0x0bdbdf21; 0x86d3d2d4; 0xf1d4e242;
   0x68ddb3f8; 0x1fda836e; 0x81be16cd; 0xf6b9265b; 0x6fb077e1; 0x18b74777;
   0x88085ae6; 0xff0f6a70; 0x66063bca; 0x11010b5c; 0x8f659eff; 0xf862ae69;
   0x616bffd3; 0x166ccf45; 0xa00ae278; 0xd70dd2ee; 0x4e048354; 0x3903b3c2;
   0xa7672661; 0xd06016f7; 0x4969474d; 0x3e6e77db; 0xaed16a4a; 0xd9d65adc;
   0x40df0b66; 0x37d83bf0; 0xa9bcae53; 0xdebb9ec5; 0x47b2cf7f; 0x30b5ffe9;
   0xbdbdf21c; 0xcabac28a; 0x53b39330; 0x24b4a3a6; 0xbad03605; 0xcdd70693;
   0x54de5729; 0x23d967bf; 0xb3667a2e; 0xc4614ab8; 0x5d681b02; 0x2a6f2b94;
   0xb40bbe37; 0xc30c8ea1; 0x5a05df1b; 0x2d02ef8d].

(** [make_crc_table] of the [DYNAMIC_CRC_TABLE] build: the exclusive-or
    pattern from the list of exponents, then eight shift steps per byte. *)
Definition crc_exponents : list Z := [0; 1; 2; 4; 5; 7; 8; 10; 11; 12; 16; 22; 23; 26].

Definition crc_poly : Z :=
  fold_left (fun poly n => poly .| (1 .<< (31 - n))) crc_exponents 0.

Definition crc_bit (c : Z) : Z :=
  if Z.testbit c 0 then crc_poly ^^ (c .>> 1) else c .>> 1.

Definition make_crc_table : list Z :=
  map (fun n => Nat.iter 8 crc_bit (Z.of_nat n)) (seq 0 256).

(** ** The code *)

Definition DO_CRC (crc x : Z) : Z :=
  nth (Z.to_nat ((crc ^^ x) .& 255)) crc_table 0 ^^ (crc .>> 8).

(** [do { DO_CRC( *p++ ); } while ((--len) && ((long)p) & 3)]: the register
    and the bytes left; [p] is the address of the next byte. *)
Fixpoint crc_align (crc p : Z) (buf : list Z) : Z * list Z :=
  match buf with
  | [] => (crc, [])
  | x :: rest =>
      let crc := DO_CRC crc x in
      let p := p + 1 in
      if (match rest with [] => false | _ => true end) && negb (p .& 3 =? 0)
      then crc_align crc p rest
      else (crc, rest)
  end.

(** The 32-bit load of the four bytes at [b]. *)
Definition load_le32 (a b c d : Z) : Z :=
  a .| (b .<< 8) .| (c .<< 16) .| (d .<< 24).

(** [for (--b; len; --len)], [n] words. *)
Fixpoint crc_words (n : nat) (crc : Z) (buf : list Z) : Z * list Z :=
  match n, buf with
  | S n, a :: b :: c :: d :: rest =>
      let crc := crc ^^ load_le32 a b c d in
      crc_words n (DO_CRC (DO_CRC (DO_CRC (DO_CRC crc 0) 0) 0) 0) rest
  | _, _ => (crc, buf)
  end.

(** The last [rem_len] bytes. *)
Definition crc_tail (crc : Z) (buf : list Z) : Z := fold_left DO_CRC buf crc.

(** [crc32_no_comp(crc, buf, len)] with [buf] at address [addr] and
    [len = length buf]. *)
Definition crc32_no_comp (crc addr : Z) (buf : list Z) : Z :=
  let '(crc, buf) :=
    if negb (addr .& 3 =? 0) && negb (Z.of_nat (length buf) =? 0)
    then crc_align crc addr buf else (crc, buf) in
  let len := length buf in
  let rem_len := Nat.modulo len 4 in
  let '(crc, buf) := crc_words (Nat.div len 4) crc buf in
  crc_tail crc (take rem_len buf).

Definition crc32 (crc addr : Z) (p : list Z) : Z :=
  crc32_no_comp (crc ^^ 0xffffffff) addr p ^^ 0xffffffff.

(** [crc32_wd] in a build with a watchdog: the buffer is fed in pieces of
    [chunk_sz] bytes ([fuel] bounds the turns; one per byte is enough for a
    positive [chunk_sz]). *)
Fixpoint crc32_wd_loop (fuel : nat) (crc addr : Z) (chunk_sz : nat) (buf : list Z) : Z :=
  match fuel, buf with
  | S fuel, _ :: _ =>
      let chunk := Nat.min (length buf) chunk_sz in
      crc32_wd_loop fuel (crc32 crc addr (take chunk buf))
        (addr + Z.of_nat chunk) chunk_sz (drop chunk buf)
  | _, _ => crc
  end.

Definition crc32_wd (crc addr : Z) (buf : list Z) (chunk_sz : nat) : Z :=
  crc32_wd_loop (length buf) crc addr chunk_sz buf.

(** [crc32_wd_buf]: the checksum stored in memory order. *)
Definition crc32_wd_buf (addr : Z) (input : list Z) (chunk_sz : nat) : list Z :=
  let crc := crc32_wd 0 addr input chunk_sz in
  [u8 crc; u8 (crc .>> 8); u8 (crc .>> 16); u8 (crc .>> 24)].

(** ** The reference: bit-serial division *)

Definition crc_byte_spec (c x : Z) : Z := Nat.iter 8 crc_bit (c ^^ x).

Definition crc_spec (crc : Z) (msg : list Z) : Z := fold_left crc_byte_spec msg crc.

Lemma crc_table_ok : crc_table = make_crc_table.
Proof. vm_compute. reflexivity. Qed.

Lemma crc_poly_word : in_word 32 crc_poly.
Proof. vm_compute. split; congruence. Qed.

Lemma crc_bit_word c : in_word 32 c -> in_word 32 (crc_bit c).
Proof.
  intros Hc. unfold crc_bit. pose proof crc_poly_word.
  destruct (Z.testbit c 0); eauto with word.
Qed.

(** The register step is linear over exclusive or. *)
Lemma crc_bit_lxor a b : crc_bit (a ^^ b) = crc_bit a ^^ crc_bit b.
Proof.
  unfold crc_bit. rewrite Z.lxor_spec, Z.shiftr_lxor.
  destruct (Z.testbit a 0), (Z.testbit b 0); simpl; generalize crc_poly; intros; zbits.
Qed.

Lemma iter_crc_bit_lxor n a b :
  Nat.iter n crc_bit (a ^^ b) = Nat.iter n crc_bit a ^^ Nat.iter n crc_bit b.
Proof. induction n as [|n IH]; simpl; [done|]. by rewrite IH, crc_bit_lxor. Qed.

(** Bits that are not shifted out pass through unchanged. *)
Lemma iter_crc_bit_shiftl n y k :
  0 <= y -> Z.of_nat n <= k -> Nat.iter n crc_bit (y .<< k) = y .<< (k - Z.of_nat n).
Proof.
  intros Hy. revert k. induction n as [|n IH]; intros k Hk; [simpl; f_equal; lia|].
  change (Nat.iter (S n) crc_bit (y .<< k)) with (crc_bit (Nat.iter n crc_bit (y .<< k))).
  rewrite IH by lia. unfold crc_bit.
  rewrite Z.shiftl_spec, (Z.testbit_neg_r _ (0 - _)) by lia.
  zbits.
Qed.

Lemma nth_crc_table x :
  byte x -> nth (Z.to_nat x) crc_table 0 = Nat.iter 8 crc_bit x.
Proof.
  intros [H0 H1]. rewrite crc_table_ok. unfold make_crc_table.
  erewrite nth_indep; [|rewrite length_map, length_seq; lia].
  rewrite (map_nth (fun n => Nat.iter 8 crc_bit (Z.of_nat n)) _ 0%nat).
  rewrite seq_nth by lia. do 2 f_equal. lia.
Qed.

(** Table lookup and shift compute the same register as eight serial steps. *)
Lemma DO_CRC_spec crc x :
  0 <= crc -> byte x -> DO_CRC crc x = crc_byte_spec crc x.
Proof.
  intros Hc Hx. unfold DO_CRC, crc_byte_spec. set (c := crc ^^ x).
  assert (Hc8 : c .>> 8 = crc .>> 8).
  { unfold c. zbits. }
  assert (Hnn : 0 <= c) by (apply Z.lxor_nonneg; destruct Hx; lia).
  assert (Hb : byte (c .& 255)).
  { change 255 with (Z.ones 8). rewrite Z.land_ones by lia. apply Z.mod_pos_bound; lia. }
  rewrite nth_crc_table by done. rewrite <- Hc8.
  replace c with ((c .& 255) ^^ ((c .>> 8) .<< 8)) at 3.
  - rewrite iter_crc_bit_lxor, (iter_crc_bit_shiftl 8 (c .>> 8) 8);
      [|by apply Z.shiftr_nonneg|lia].
    reflexivity.
  - change 255 with (Z.ones 8). clearbody c. zbits.
Qed.

Lemma iter_crc_bit_word n c : in_word 32 c -> in_word 32 (Nat.iter n crc_bit c).
Proof. intros. induction n; simpl; auto using crc_bit_word. Qed.

Lemma crc_byte_spec_word c x :
  in_word 32 c -> byte x -> in_word 32 (crc_byte_spec c x).
Proof.
  intros. apply iter_crc_bit_word. pose proof (in_word_weaken 8 32 x). eauto with word.
Qed.

Lemma crc_spec_word msg c : in_word 32 c -> bytes msg -> in_word 32 (crc_spec c msg).
Proof.
  revert c. induction msg as [|x msg IH]; intros c Hc Hm; [done|].
  inversion Hm; subst. apply IH; [by apply crc_byte_spec_word|done].
Qed.

Lemma crc_spec_app c m1 m2 : crc_spec c (m1 ++ m2) = crc_spec (crc_spec c m1) m2.
Proof. apply fold_left_app. Qed.

Lemma crc_tail_spec msg c : in_word 32 c -> bytes msg -> crc_tail c msg = crc_spec c msg.
Proof.
  revert c. induction msg as [|x msg IH]; intros c Hc Hm; [done|].
  inversion Hm; subst. unfold crc_tail, crc_spec in *. simpl.
  rewrite DO_CRC_spec by (try done; destruct Hc; done).
  apply IH; [by apply crc_byte_spec_word|done].
Qed.

Lemma crc_align_spec buf c p :
  in_word 32 c -> bytes buf ->
  exists done rest, crc_align c p buf = (crc_spec c done, rest) /\ buf = done ++ rest.
Proof.
  revert c p. induction buf as [|x buf IH]; intros c p Hc Hb; [by exists [], []|].
  inversion Hb; subst. simpl. rewrite DO_CRC_spec by (try done; destruct Hc; done).
  case_match; [|by exists [x], buf].
  destruct (IH (crc_byte_spec c x) (p + 1)) as (dn & rest & -> & ->);
    [by apply crc_byte_spec_word|done|].
  by exists (x :: dn), rest.
Qed.

(** Byte steps over a buffer are serial steps on the register with the whole
    little-endian buffer xor-ed in: what a byte contributes above its own
    eight bits is shifted down to the steps that follow. *)
Lemma crc_spec_le w c :
  bytes w -> crc_spec c w = Nat.iter (length w * 8) crc_bit (c ^^ le_combine w).
Proof.
  intros Hw. revert c. induction Hw as [|x w Hx Hw IH]; intros c.
  - by rewrite Z.lxor_0_r.
  - change (crc_spec c (x :: w)) with (crc_spec (crc_byte_spec c x) w). rewrite IH.
    cbn [length le_combine]. rewrite Nat.mul_succ_l, Nat.iter_add.
    f_equal. rewrite le_combine_lxor by done. unfold crc_byte_spec.
    rewrite <- Z.lxor_assoc, (iter_crc_bit_lxor 8 (c ^^ x)).
    by rewrite (iter_crc_bit_shiftl 8) by (by apply le_combine_nonneg || lia).
Qed.

Lemma crc_word_step crc a b c d :
  in_word 32 crc -> byte a -> byte b -> byte c -> byte d ->
  crc_byte_spec (crc_byte_spec (crc_byte_spec (crc_byte_spec
    (crc ^^ load_le32 a b c d) 0) 0) 0) 0
  = crc_spec crc [a; b; c; d].
Proof.
  intros. rewrite crc_spec_le by by rewrite !Forall_cons.
  unfold crc_byte_spec. rewrite !Z.lxor_0_r, <- !Nat.iter_add.
  cbn [length Nat.mul Nat.add]. generalize 32%nat as n. intros n.
  f_equal. f_equal. unfold load_le32. cbn [le_combine].
  by rewrite !Z.shiftl_lor, !Z.shiftl_shiftl, Z.shiftl_0_l, Z.lor_0_r, !Z.lor_assoc by lia.
Qed.

Lemma crc_words_spec n buf c :
  in_word 32 c -> bytes buf -> (4 * n <= length buf)%nat ->
  crc_words n c buf = (crc_spec c (take (4 * n) buf), drop (4 * n) buf).
Proof.
  revert buf c. induction n as [|n IH]; intros buf c Hc Hb Hl; [done|].
  destruct buf as [|a [|b [|x [|d rest]]]]; simpl in Hl; try lia.
  repeat match goal with H : Forall _ (_ :: _) |- _ => inversion H; clear H; subst end.
  replace (4 * S n)%nat with (S (S (S (S (4 * n))))) by lia.
  cbn [crc_words take drop].
  assert (Hl32 : in_word 32 (c ^^ load_le32 a b x d)).
  { unfold load_le32. repeat (apply in_word_lxor || apply in_word_lor); try done;
      unfold in_word in *; rewrite ?Z.shiftl_mul_pow2 by lia; lia. }
  assert (Hnn : forall r, in_word 32 r -> DO_CRC r 0 = crc_byte_spec r 0).
  { intros r [Hr _]. by apply DO_CRC_spec. }
  assert (Hw : forall r, in_word 32 r -> in_word 32 (DO_CRC r 0)).
  { intros r Hr. rewrite Hnn by done. by apply crc_byte_spec_word. }
  rewrite !Hnn by auto 10. rewrite crc_word_step by done.
  change (a :: b :: x :: d :: take (4 * n) rest) with ([a; b; x; d] ++ take (4 * n) rest).
  rewrite crc_spec_app. apply IH; [|done|lia].
  apply crc_spec_word; [done|]. by rewrite !Forall_cons.
Qed.


Lemma crc32_no_comp_spec crc addr buf :
  in_word 32 crc -> bytes buf -> crc32_no_comp crc addr buf = crc_spec crc buf.
Proof.
  intros Hc Hb. unfold crc32_no_comp.
  assert (exists dn rest, (if negb (addr .& 3 =? 0) && negb (Z.of_nat (length buf) =? 0)
      then crc_align crc addr buf else (crc, buf)) = (crc_spec crc dn, rest)
      /\ buf = dn ++ rest) as (dn & rest & -> & ->).
  { case_match; [by apply crc_align_spec|]. by exists [], buf. }
  apply Forall_app in Hb as [Hd Hr].
  pose proof (Nat.div_mod_eq (length rest) 4) as Hdm.
  rewrite crc_words_spec by (try apply crc_spec_word; done || lia).
  assert (Htl : take (length rest mod 4) (drop (4 * (length rest / 4)) rest)
                = drop (4 * (length rest / 4)) rest).
  { apply take_ge. rewrite length_drop. lia. }
  rewrite Htl, crc_tail_spec.
  - by rewrite <- crc_spec_app, take_drop, <- crc_spec_app.
  - by repeat (apply crc_spec_word; [|by auto using Forall_take]).
  - by apply Forall_drop.
Qed.

(** C36: for every alignment of the buffer, the table-driven, word-at-a-time
    [crc32] computes the complemented bit-serial CRC-32 remainder of the
    whole buffer. *)
Theorem crc32_correct crc addr buf :
  in_word 32 crc -> bytes buf ->
  crc32 crc addr buf = crc_spec (crc ^^ 0xffffffff) buf ^^ 0xffffffff.
Proof.
  intros Hc Hb. unfold crc32. rewrite crc32_no_comp_spec; [done| |done].
  apply in_word_lxor; [lia|done|split; lia].
Qed.

Lemma lxor_ones32_twice z : z ^^ 0xffffffff ^^ 0xffffffff = z.
Proof. by rewrite Z.lxor_assoc, Z.lxor_nilpotent, Z.lxor_0_r. Qed.

Lemma crc32_raw crc addr buf :
  in_word 32 crc -> bytes buf ->
  crc32 crc addr buf = crc_spec (crc ^^ 0xffffffff) buf ^^ 0xffffffff
  /\ in_word 32 (crc32 crc addr buf).
Proof.
  intros Hc Hb. assert (Hm : in_word 32 0xffffffff) by (split; lia).
  unfold crc32. rewrite crc32_no_comp_spec by auto with word.
  split; [done|]. apply in_word_lxor; [lia| |done]. apply crc_spec_word; auto with word.
Qed.

(** Feeding a buffer in two calls, each at any address, is feeding it in one. *)
Lemma crc32_app crc addr addr' addr'' m1 m2 :
  in_word 32 crc -> bytes m1 -> bytes m2 ->
  crc32 (crc32 crc addr' m1) addr'' m2 = crc32 crc addr (m1 ++ m2).
Proof.
  intros Hc H1 H2. destruct (crc32_raw crc addr' m1) as [E1 W1]; [done..|].
  destruct (crc32_raw _ addr'' m2 W1) as [-> _]; [done|].
  destruct (crc32_raw crc addr (m1 ++ m2)) as [-> _]; [done|by apply Forall_app_2|].
  by rewrite E1, crc_spec_app, lxor_ones32_twice.
Qed.

Lemma crc32_wd_loop_spec fuel crc addr addr' chunk_sz buf :
  in_word 32 crc -> bytes buf -> (0 < chunk_sz)%nat -> (length buf <= fuel)%nat ->
  crc32_wd_loop fuel crc addr chunk_sz buf = crc32 crc addr' buf.
Proof.
  revert crc addr buf. induction fuel as [|fuel IH]; intros crc addr buf Hc Hb Hz Hf.
  - destruct buf; simpl in *; [|lia]. destruct (crc32_raw crc addr' []) as [-> _]; [done..|].
    simpl. by rewrite lxor_ones32_twice.
  - destruct buf as [|x buf].
    { destruct (crc32_raw crc addr' []) as [-> _]; [done..|].
      simpl. by rewrite lxor_ones32_twice. }
    cbn [crc32_wd_loop]. set (n := Nat.min _ _).
    assert (Hn : (0 < n)%nat) by (unfold n; cbn [length]; lia). clearbody n.
    rewrite IH.
    + rewrite (crc32_app crc addr') by auto using Forall_take, Forall_drop.
      by rewrite take_drop.
    + by apply crc32_raw; [|apply Forall_take].
    + by apply Forall_drop.
    + done.
    + rewrite length_drop. cbn [length] in *. lia.
Qed.

(** The watchdog build, which feeds [crc32] in pieces of [chunk_sz]
    bytes, and the plain build agree; the loop ends for every non-zero
    piece size. *)
Theorem crc32_wd_correct crc addr buf chunk_sz :
  in_word 32 crc -> bytes buf -> (0 < chunk_sz)%nat ->
  crc32_wd crc addr buf chunk_sz = crc32 crc addr buf.
Proof. intros. by apply crc32_wd_loop_spec. Qed.

(** ** Error detection *)

Lemma crc_poly_top : Z.testbit crc_poly 31 = true.
Proof. reflexivity. Qed.

(** Bit 31 of the new register is the bit shifted out, so the step can be undone. *)
Lemma crc_bit_inj a b :
  in_word 32 a -> in_word 32 b -> crc_bit a = crc_bit b -> a = b.
Proof.
  intros Ha Hb Heq.
  assert (Htop : forall c, in_word 32 c -> Z.testbit (crc_bit c) 31 = Z.testbit c 0).
  { intros c Hc. unfold crc_bit.
    destruct (Z.testbit c 0); rewrite ?Z.lxor_spec, Z.shiftr_spec, ?crc_poly_top by lia;
      by rewrite (testbit_above 32 c) by (done || lia). }
  assert (H0 : Z.testbit a 0 = Z.testbit b 0) by (rewrite <- !Htop by done; congruence).
  assert (Hs : a .>> 1 = b .>> 1).
  { unfold crc_bit in Heq. rewrite H0 in Heq. destruct (Z.testbit b 0); [|done].
    apply (f_equal (Z.lxor crc_poly)) in Heq.
    by rewrite <- !Z.lxor_assoc, Z.lxor_nilpotent, !Z.lxor_0_l in Heq. }
  apply Z.bits_inj'. intros i Hi. destruct (decide (i = 0)) as [->|]; [done|].
  apply (f_equal (fun z => Z.testbit z (i - 1))) in Hs.
  rewrite !Z.shiftr_spec in Hs by lia. by replace (i - 1 + 1) with i in Hs by lia.
Qed.

Lemma iter_crc_bit_inj n c d :
  in_word 32 c -> in_word 32 d -> Nat.iter n crc_bit c = Nat.iter n crc_bit d -> c = d.
Proof.
  intros Hc Hd. induction n as [|n IH]; intros Heq; [done|].
  apply IH. apply crc_bit_inj; auto using iter_crc_bit_word.
Qed.

Lemma crc_byte_spec_inj a b x :
  in_word 32 a -> in_word 32 b -> byte x ->
  crc_byte_spec a x = crc_byte_spec b x -> a = b.
Proof.
  intros Ha Hb Hx. unfold crc_byte_spec.
  pose proof (in_word_weaken 8 32 x ltac:(lia) Hx) as Hx'.
  intros Heq%iter_crc_bit_inj; [|auto with word..].
  apply (f_equal (fun z => z ^^ x)) in Heq.
  by rewrite !Z.lxor_assoc, Z.lxor_nilpotent, !Z.lxor_0_r in Heq.
Qed.

Lemma crc_spec_inj msg a b :
  in_word 32 a -> in_word 32 b -> bytes msg -> crc_spec a msg = crc_spec b msg -> a = b.
Proof.
  revert a b. induction msg as [|x msg IH]; intros a b Ha Hb Hm Heq; [done|].
  inversion Hm; subst. apply crc_byte_spec_inj with x; try done.
  apply IH; auto using crc_byte_spec_word.
Qed.

Lemma crc32_window crc addr addr' pre w w' post :
  in_word 32 crc -> bytes pre -> bytes w -> bytes w' -> bytes post ->
  length w = length w' -> (length w <= 4)%nat ->
  crc32 crc addr (pre ++ w ++ post) = crc32 crc addr' (pre ++ w' ++ post) -> w = w'.
Proof.
  intros Hc Hp Hw Hw' Hq Hlen H4. assert (in_word 32 0xffffffff) by (split; lia).
  destruct (crc32_raw crc addr (pre ++ w ++ post)) as [-> _]; auto using Forall_app_2.
  destruct (crc32_raw crc addr' (pre ++ w' ++ post)) as [-> _]; auto using Forall_app_2.
  intros Heq%(f_equal (fun z => z ^^ 0xffffffff)).
  rewrite !lxor_ones32_twice, !crc_spec_app in Heq.
  assert (Hr : in_word 32 (crc_spec (crc ^^ 0xffffffff) pre))
    by (apply crc_spec_word; auto with word).
  set (r := crc_spec _ pre) in *. clearbody r.
  apply crc_spec_inj in Heq; auto using crc_spec_word.
  rewrite !crc_spec_le, <- Hlen in Heq by done.
  pose proof (le_combine_bound w Hw). pose proof (le_combine_bound w' Hw').
  apply iter_crc_bit_inj in Heq.
  - apply (f_equal (Z.lxor r)) in Heq.
    rewrite <- !Z.lxor_assoc, Z.lxor_nilpotent, !Z.lxor_0_l in Heq.
    by apply le_combine_inj.
  - apply in_word_lxor; [lia|done|]. eapply in_word_weaken; [|done]. lia.
  - apply in_word_lxor; [lia|done|]. eapply in_word_weaken; [|done]. lia.
Qed.

(** No error confined to four consecutive bytes goes unnoticed: two
    buffers that differ only inside a window of at most four bytes have
    different checksums. *)
Theorem crc32_detects_burst crc addr addr' pre w w' post :
  in_word 32 crc -> bytes pre -> bytes w -> bytes w' -> bytes post ->
  length w = length w' -> (length w <= 4)%nat ->
  crc32 crc addr (pre ++ w ++ post) = crc32 crc addr' (pre ++ w' ++ post) -> w = w'.
Proof. apply crc32_window. Qed.

Lemma crc32_correct_witness :
  crc32 0 1 [49; 50; 51; 52; 53; 54; 55; 56; 57]
  = crc_spec (0 ^^ 0xffffffff) [49; 50; 51; 52; 53; 54; 55; 56; 57] ^^ 0xffffffff
  /\ crc32 0 1 [49; 50; 51; 52; 53; 54; 55; 56; 57] = 0xcbf43926.
Proof.
  split; [|vm_compute; reflexivity].
  apply (crc32_correct 0 1 [49; 50; 51; 52; 53; 54; 55; 56; 57]);
    [split; lia|repeat constructor; lia].
Defined.

Lemma crc32_wd_correct_witness :
  crc32_wd 0 2 [1; 2; 3; 4; 5; 6; 7] 3 = crc32 0 2 [1; 2; 3; 4; 5; 6; 7].
Proof.
  apply (crc32_wd_correct 0 2 [1; 2; 3; 4; 5; 6; 7] 3);
    [split; lia|repeat constructor; lia|lia].
Defined.

Lemma crc32_detects_burst_witness :
  crc32 0 0 ([1] ++ [2; 3] ++ [4]) <> crc32 0 0 ([1] ++ [7; 3] ++ [4]).
Proof.
  intros H. assert (E : [2; 3] = [7; 3]); [|discriminate E].
  apply (crc32_detects_burst 0 0 0 [1] [2; 3] [7; 3] [4]);
    [split; lia|repeat constructor; lia..|reflexivity|simpl; lia|exact H].
Defined.

End Crc32.
