(* ===== verification/BlockHash.v ===== *)
(** * Streaming of block hashes

    sha1_update, sha256_update and sha512_update (lib/sha1.c, lib/sha256.c,
    lib/sha512.c) are the same algorithm at different block sizes and counter
    widths: a two-word byte counter, a block buffer that keeps the bytes of an
    incomplete block, and a loop that compresses complete blocks straight from
    the input.  The section below is that algorithm over an arbitrary
    compression function; its theorems say that after any sequence of updates
    the context stands for the concatenation of everything fed in, and that
    the finishing step hashes the padded message of FIPS 180. *)

From S2P Require Import Prelude.

Record hash_ctx (St : Type) := HashCtx {
  total0 : Z;             (* total[0] *)
  total1 : Z;             (* total[1] *)
  state : St;
  buffer : list Z;
}.
Arguments HashCtx {St}.
Arguments total0 {St}.
Arguments total1 {St}.
Arguments state {St}.
Arguments buffer {St}.

(** What the streaming code needs of a hash's parameters: [B] the block size in
    bytes, [k] its logarithm, [w] the width of a counter word; the two
    length words fit a block. *)
Class BlockParams (B : nat) (k w : Z) : Prop := {
  bp_size : Z.of_nat B = 2 ^ k;
  bp_log : 0 <= k <= w;
  bp_width : w = 8 * Z.of_nat (Z.to_nat (w / 8));
  bp_lenb : (0 < Z.to_nat (w / 8))%nat;
  bp_room : (2 * Z.to_nat (w / 8) < B)%nat;
  bp_count : Z.of_nat B < 2 ^ w;
}.

(** SHA-1 and SHA-256; SHA-384 and SHA-512. *)
#[export] Instance block_params_64 : BlockParams 64 6 32.
Proof. split; vm_compute; intuition (congruence || lia). Qed.

#[export] Instance block_params_128 : BlockParams 128 7 64.
Proof. split; vm_compute; intuition (congruence || lia). Qed.

Section BlockHash.
Context {St : Type} (process : St -> list Z -> St).
Context (B : nat) (k w : Z) `{BP : !BlockParams B k w}.

Let HB : Z.of_nat B = 2 ^ k := bp_size.
Let Hk : 0 <= k <= w := bp_log.

Implicit Types (ctx : hash_ctx St) (m input : list Z) (st : St).

(** [while (length >= B) { process(ctx, input); ... }] *)
Fixpoint process_loop (fuel : nat) st input : St * list Z :=
  match fuel with
  | O => (st, input)
  | S fuel =>
      if (B <=? length input)%nat
      then process_loop fuel (process st (take B input)) (drop B input)
      else (st, input)
  end.

Definition block_update ctx input : hash_ctx St :=
  let len := Z.of_nat (length input) in
  if len =? 0 then ctx else
  let left_ := Z.to_nat (total0 ctx .& (Z.of_nat B - 1)) in
  let fill := (B - left_)%nat in
  let t0 := wrap w (total0 ctx + len) in
  let t1 := if t0 <? len then wrap w (total1 ctx + 1) else total1 ctx in
  let '(st, buf, input, left_) :=
    if negb (left_ =? 0)%nat && (fill <=? length input)%nat then
      let buf := memcpy (buffer ctx) left_ (take fill input) in
      (process (state ctx) buf, buf, drop fill input, 0%nat)
    else (state ctx, buffer ctx, input, left_) in
  let '(st, input) := process_loop (length input) st input in
  let buf := if (0 <? length input)%nat then memcpy buf left_ input else buf in
  HashCtx t0 t1 st buf.

(** The padding and length block of the finish step; [lenb] is the number of
    bytes of the message length field, [padding] the 0x80 00 00 ... table. *)
Definition block_finish (padding : list Z) ctx : hash_ctx St :=
  let lenb := Z.to_nat (w / 8) in
  let high := (total0 ctx .>> (w - 3)) .| wrap w (total1 ctx .<< 3) in
  let low := wrap w (total0 ctx .<< 3) in
  let msglen := be_bytes lenb high ++ be_bytes lenb low in
  let last := Z.to_nat (total0 ctx .& (Z.of_nat B - 1)) in
  let padn := if (last <? B - 2 * lenb)%nat then (B - 2 * lenb - last)%nat
              else (2 * B - 2 * lenb - last)%nat in
  block_update (block_update ctx (take padn padding)) msglen.

(** ** What a context stands for *)

Fixpoint blocks (n : nat) (m : list Z) : list (list Z) :=
  match n with
  | O => []
  | S n => take B m :: blocks n (drop B m)
  end.

Definition nblocks m : nat := (length m / B)%nat.

(** The chaining value after all complete blocks of [m]. *)
Definition absorb st m : St := fold_left process (blocks (nblocks m) m) st.

Definition leftover m : list Z := drop (B * nblocks m) m.

(** [ctx] is the context of a computation started in [st0] that has been fed [m]. *)
Definition represents (st0 : St) ctx m : Prop :=
  total0 ctx = wrap w (Z.of_nat (length m)) /\
  total1 ctx = wrap w (Z.of_nat (length m) / 2 ^ w) /\
  state ctx = absorb st0 m /\
  length (buffer ctx) = B /\
  take (length m mod B) (buffer ctx) = leftover m.

Lemma B_pos : (0 < B)%nat.
Proof. pose proof (Z.pow_pos_nonneg 2 k). lia. Qed.
#[local] Hint Resolve B_pos : core.

Lemma length_leftover m : length (leftover m) = (length m mod B)%nat.
Proof.
  unfold leftover, nblocks. rewrite length_drop.
  pose proof (Nat.div_mod_eq (length m) B). lia.
Qed.

Lemma blocks_app n m m' :
  (B * n <= length m)%nat -> blocks n (m ++ m') = blocks n m.
Proof.
  revert m. induction n as [|n IH]; intros m Hn; [done|]. simpl.
  rewrite take_app_le, drop_app_le by lia. f_equal. apply IH.
  rewrite length_drop. lia.
Qed.

Lemma blocks_add n1 n2 m : blocks (n1 + n2) m = blocks n1 m ++ blocks n2 (drop (B * n1) m).
Proof.
  revert m. induction n1 as [|n1 IH]; intros m; simpl; [by rewrite Nat.mul_0_r|].
  by rewrite IH, drop_drop, Nat.mul_succ_r, (Nat.add_comm (B * n1)).
Qed.

(** Absorbing [m ++ x] continues from [m] with the leftover bytes in front. *)
Lemma absorb_app st m x :
  absorb st (m ++ x) = absorb (absorb st m) (leftover m ++ x)
  /\ leftover (m ++ x) = leftover (leftover m ++ x).
Proof.
  pose proof (Nat.div_mod_eq (length m) B) as Hdm. fold (nblocks m) in Hdm.
  assert (Hn : nblocks (m ++ x) = (nblocks m + nblocks (leftover m ++ x))%nat).
  { unfold nblocks at 1 3. rewrite !length_app, length_leftover.
    rewrite <- Nat.div_add_l by lia. f_equal. lia. }
  assert (Hd : drop (B * nblocks m) (m ++ x) = leftover m ++ x).
  { unfold leftover. by rewrite drop_app_le by lia. }
  split.
  - unfold absorb at 1. rewrite Hn, blocks_add, fold_left_app, Hd.
    unfold absorb. f_equal. f_equal. by rewrite blocks_app by lia.
  - unfold leftover at 1. rewrite Hn, Nat.mul_add_distr_l, <- drop_drop, Hd. done.
Qed.

Lemma process_loop_spec fuel st m :
  (length m <= fuel)%nat -> process_loop fuel st m = (absorb st m, leftover m).
Proof.
  revert st m. induction fuel as [|fuel IH]; intros st m Hf; cbn [process_loop].
  - destruct m; [|simpl in Hf; lia]. unfold absorb, leftover, nblocks. simpl.
    rewrite Nat.Div0.div_0_l. by rewrite Nat.mul_0_r.
  - destruct (Nat.leb_spec B (length m)).
    + rewrite IH by (rewrite length_drop; lia).
      assert (Hn : nblocks m = S (nblocks (drop B m))).
      { unfold nblocks. rewrite length_drop.
        replace (length m) with (1 * B + (length m - B))%nat at 1 by lia.
        rewrite Nat.div_add_l by lia. lia. }
      unfold absorb, leftover. rewrite Hn. simpl.
      by rewrite drop_drop, Nat.mul_succ_r, (Nat.add_comm (B * _)).
    + unfold absorb, leftover, nblocks. rewrite Nat.div_small by lia.
      by rewrite Nat.mul_0_r.
Qed.

Lemma absorb_short st m : (length m < B)%nat -> absorb st m = st /\ leftover m = m.
Proof.
  intros. unfold absorb, leftover, nblocks. rewrite Nat.div_small by lia.
  by rewrite Nat.mul_0_r.
Qed.

Lemma absorb_block st b m :
  length b = B ->
  absorb st (b ++ m) = absorb (process st b) m /\ leftover (b ++ m) = leftover m.
Proof.
  intros Hb. assert (Hn : nblocks b = 1%nat).
  { unfold nblocks. rewrite Hb. apply Nat.div_same. lia. }
  assert (Hl : leftover b = []).
  { unfold leftover. rewrite Hn. apply drop_ge. lia. }
  destruct (absorb_app st b m) as [-> ->]. rewrite Hl. simpl. split; [|done].
  f_equal. unfold absorb. rewrite Hn. simpl. by rewrite take_ge by lia.
Qed.

(** The masked counter is the fill level of the buffer. *)
Lemma counter_low m :
  Z.to_nat (wrap w (Z.of_nat (length m)) .& (Z.of_nat B - 1)) = (length m mod B)%nat.
Proof.
  rewrite HB. change (2 ^ k - 1) with (Z.pred (2 ^ k)).
  rewrite <- Z.ones_equiv, <- wrap_land_ones by lia.
  replace (wrap k (wrap w (Z.of_nat (length m)))) with (wrap k (Z.of_nat (length m)))
    by zbits.
  unfold wrap. rewrite <- HB, <- Nat2Z.inj_mod. apply Nat2Z.id.
Qed.

Lemma counter_carry n l :
  0 <= n -> 0 <= l < 2 ^ w ->
  let t0 := wrap w (wrap w n + l) in
  t0 = wrap w (n + l) /\
  (if t0 <? l then wrap w (wrap w (n / 2 ^ w) + 1) else wrap w (n / 2 ^ w))
  = wrap w ((n + l) / 2 ^ w).
Proof.
  intros Hn Hl t0. assert (Ht : t0 = wrap w (n + l)) by apply wrap_add_l.
  split; [done|]. rewrite wrap_add_l, Ht. unfold wrap.
  pose proof (Z.div_mod n (2 ^ w)). pose proof (Z.div_mod (n + l) (2 ^ w)).
  pose proof (Z.mod_pos_bound n (2 ^ w)). pose proof (Z.mod_pos_bound (n + l) (2 ^ w)).
  destruct (Z.ltb_spec ((n + l) mod 2 ^ w) l); f_equal; nia.
Qed.

(** The buffer after an update: [r] bytes were pending in [buf], and
    the tail [t] of the input is stored behind them. *)
Lemma store_tail buf r (t : list Z) :
  (r + length t <= length buf)%nat ->
  let buf' := if (0 <? length t)%nat then memcpy buf r t else buf in
  length buf' = length buf /\ take (r + length t) buf' = take r buf ++ t.
Proof.
  intros Hl. destruct (Nat.ltb_spec 0 (length t)); simpl.
  - split; [by apply length_memcpy|]. apply take_memcpy; lia.
  - destruct t; simpl in *; [|lia]. by rewrite Nat.add_0_r, app_nil_r.
Qed.

(** The context built at the end of an update of [m] to [mx]. *)
Lemma represents_store st0 mx st buf q t :
  length buf = B -> st = absorb st0 mx -> take q buf ++ t = leftover mx -> (q <= B)%nat ->
  represents st0 (HashCtx (wrap w (Z.of_nat (length mx)))
    (wrap w (Z.of_nat (length mx) / 2 ^ w)) st
    (if (0 <? length t)%nat then memcpy buf q t else buf)) mx.
Proof.
  intros Hb Hs Hq HqB. pose proof (length_leftover mx) as Hlo.
  rewrite <- Hq, length_app, length_take, Nat.min_l in Hlo by lia.
  pose proof (Nat.mod_upper_bound (length mx) B ltac:(lia)).
  destruct (store_tail buf q t) as [S1 S2]; [lia|].
  repeat split; cbn [total0 total1 state buffer]; [done|congruence|].
  by rewrite <- Hlo, S2.
Qed.

Lemma block_update_represents st0 ctx m x :
  represents st0 ctx m -> Z.of_nat (length x) < 2 ^ w ->
  represents st0 (block_update ctx x) (m ++ x).
Proof.
  intros (Ht0 & Ht1 & Hst & Hlb & Hbuf) Hx. unfold block_update.
  destruct (Z.eqb_spec (Z.of_nat (length x)) 0) as [Hx0|Hx0].
  { destruct x; [|simpl in Hx0; lia]. rewrite app_nil_r. by repeat split. }
  rewrite Ht0, Ht1, counter_low, Hst.
  destruct (counter_carry (Z.of_nat (length m)) (Z.of_nat (length x))) as [E0 E1]; [lia..|].
  rewrite E1, E0. clear E0 E1.
  rewrite <- Nat2Z.inj_add, <- length_app.
  destruct (absorb_app st0 m x) as [Ea El].
  pose proof (length_leftover m) as Hr. set (r := (length m mod B)%nat) in *.
  assert (HrB : (r < B)%nat) by (apply Nat.mod_upper_bound; lia).
  destruct (Nat.eqb_spec r 0) as [Hr0|Hr0]; cbn [negb andb].
  - (* empty buffer *)
    destruct (leftover m) eqn:Elm; [|simpl in Hr; lia]. simpl in Ea, El.
    rewrite process_loop_spec by done. rewrite <- Ea, <- El, Hr0.
    apply represents_store; auto; lia.
  - destruct (Nat.leb_spec (B - r) (length x)) as [Hfill|Hfill].
    + (* the pending block is completed *)
      rewrite memcpy_full by (rewrite length_take; lia). rewrite Hbuf.
      rewrite process_loop_spec by done.
      assert (Hsplit : leftover m ++ x = (leftover m ++ take (B - r) x) ++ drop (B - r) x)
        by by rewrite <- app_assoc, take_drop.
      rewrite Hsplit in Ea, El.
      assert (Hblk : length (leftover m ++ take (B - r) x) = B)
        by (rewrite length_app, length_take; lia).
      destruct (absorb_block (absorb st0 m) (leftover m ++ take (B - r) x)
        (drop (B - r) x) Hblk) as [Eb Elb].
      rewrite Eb in Ea. rewrite Elb in El.
      rewrite <- Ea, <- El. apply represents_store; auto; lia.
    + (* everything fits behind the pending bytes *)
      destruct (absorb_short (absorb st0 m) (leftover m ++ x)) as [Es Els];
        [rewrite length_app; lia|].
      destruct (absorb_short (absorb st0 m) x) as [Esx Elx]; [lia|].
      rewrite process_loop_spec, Esx, Elx by done.
      apply represents_store; try done; [congruence| |lia]. by rewrite Hbuf, El, Els.
Qed.

(** ** Padding *)

#[local] Abbreviation lenb := (Z.to_nat (w / 8)).

Let Hw8 : w = 8 * Z.of_nat lenb := bp_width.
Let Hlenb : (0 < lenb)%nat := bp_lenb.
Let HlenB : (2 * lenb < B)%nat := bp_room.
Let HBw : Z.of_nat B < 2 ^ w := bp_count.

(** FIPS 180: a one bit, the fewest zero bits that leave room for the
    length field, and the length in bits. *)
Definition pad_zeros m : nat :=
  Z.to_nat ((Z.of_nat B - 2 * Z.of_nat lenb - 1 - Z.of_nat (length m)) mod Z.of_nat B).

Definition pad m : list Z :=
  0x80 :: replicate (pad_zeros m) 0
  ++ be_bytes (lenb + lenb) (8 * Z.of_nat (length m)).

Lemma length_pad_mod m : (length (m ++ pad m) mod B = 0)%nat.
Proof.
  unfold pad. rewrite !length_app. cbn [length].
  rewrite length_app, length_replicate, length_be_bytes.
  apply Nat2Z.inj. rewrite Nat2Z.inj_mod. unfold pad_zeros.
  set (z := (_ - Z.of_nat (length m)) mod _).
  assert (0 <= z) by (apply Z.mod_pos_bound; lia).
  rewrite !Nat2Z.inj_add, Nat2Z.inj_succ, !Nat2Z.inj_add, Z2Nat.id by lia.
  unfold z. rewrite <- Z.add_1_r.
  replace (_ + _) with ((Z.of_nat B - 2 * Z.of_nat lenb - 1 - Z.of_nat (length m))
    mod Z.of_nat B + (Z.of_nat (length m) + 1 + 2 * Z.of_nat lenb)) by lia.
  rewrite Zplus_mod_idemp_l.
  replace (_ + _) with (Z.of_nat B) by lia. by rewrite Z_mod_same_full.
Qed.

Lemma pad_zeros_code m :
  let last := (length m mod B)%nat in
  (if (last <? B - 2 * lenb)%nat then B - 2 * lenb - last
   else 2 * B - 2 * lenb - last)%nat = S (pad_zeros m).
Proof.
  intros last. assert (last < B)%nat by (apply Nat.mod_upper_bound; lia).
  unfold pad_zeros. pose proof (Nat.div_mod_eq (length m) B) as Hdm. fold last in Hdm.
  set (q := (length m / B)%nat) in *.
  destruct (Nat.ltb_spec last (B - 2 * lenb)).
  - rewrite <- (Z.mod_unique_pos _ (Z.of_nat B) (- Z.of_nat q)
      (Z.of_nat B - 2 * Z.of_nat lenb - 1 - Z.of_nat last)); nia.
  - rewrite <- (Z.mod_unique_pos _ (Z.of_nat B) (- Z.of_nat q - 1)
      (2 * Z.of_nat B - 2 * Z.of_nat lenb - 1 - Z.of_nat last)); nia.
Qed.

(** The two halves of the length field assembled from the byte counters. *)
Lemma msglen_code n :
  0 <= n ->
  be_bytes lenb ((wrap w n .>> (w - 3)) .| wrap w (wrap w (n / 2 ^ w) .<< 3))
  ++ be_bytes lenb (wrap w (wrap w n .<< 3)) = be_bytes (lenb + lenb) (8 * n).
Proof.
  intros Hn. rewrite be_bytes_app.
  replace (8 * n) with (n .<< 3) by (rewrite Z.shiftl_mul_pow2; lia).
  rewrite <- (be_bytes_wrap lenb w ((n .<< 3) .>> _)) by lia.
  rewrite <- (be_bytes_wrap lenb w (n .<< 3)) by lia.
  rewrite <- Hw8, <- Z.shiftr_div_pow2 by lia. f_equal; f_equal.
  - zbits.
  - zbits.
Qed.

Lemma block_finish_represents st0 ctx m padding :
  represents st0 ctx m -> padding = 0x80 :: replicate (B - 1) 0 ->
  represents st0 (block_finish padding ctx) (m ++ pad m).
Proof.
  intros HR ->. pose proof HR as (Ht0 & Ht1 & _). unfold block_finish.
  rewrite Ht0, Ht1, counter_low, pad_zeros_code, msglen_code by lia.
  assert (Hz : (pad_zeros m <= B - 1)%nat).
  { unfold pad_zeros. pose proof (Z.mod_pos_bound
      (Z.of_nat B - 2 * Z.of_nat lenb - 1 - Z.of_nat (length m)) (Z.of_nat B)). lia. }
  cbn [take]. rewrite take_replicate, Nat.min_l by lia.
  replace (m ++ pad m) with ((m ++ 0x80 :: replicate (pad_zeros m) 0)
    ++ be_bytes (lenb + lenb) (8 * Z.of_nat (length m)))
    by (unfold pad; by rewrite <- app_assoc).
  apply block_update_represents; [apply block_update_represents; [done|]|].
  - cbn [length]. rewrite length_replicate. lia.
  - rewrite length_be_bytes. lia.
Qed.

(** After any sequence of updates and the finishing step the context stands
    for the padded concatenation of the pieces. *)
Lemma block_stream_represents st0 buf chunks padding :
  length buf = B -> padding = 0x80 :: replicate (B - 1) 0 ->
  Forall (fun c => Z.of_nat (length c) < 2 ^ w) chunks ->
  represents st0 (block_finish padding (fold_left block_update chunks (HashCtx 0 0 st0 buf)))
    (concat chunks ++ pad (concat chunks)).
Proof.
  intros Hbuf Hp Hc.
  assert (Hinit : represents st0 (HashCtx 0 0 st0 buf) []).
  { unfold represents, absorb, leftover, nblocks. cbn [total0 total1 state buffer length].
    rewrite Nat.Div0.div_0_l, Nat.mul_0_r, Nat.Div0.mod_0_l, Z.div_0_l by lia.
    unfold wrap. rewrite Z.mod_0_l by lia. done. }
  assert (Hfeed : forall ctx m, represents st0 ctx m ->
    represents st0 (fold_left block_update chunks ctx) (m ++ concat chunks)).
  { clear Hinit. induction Hc as [|c cs Hc _ IH]; intros ctx m HR; simpl.
    - by rewrite app_nil_r.
    - rewrite app_assoc. by apply IH, block_update_represents. }
  apply Hfeed in Hinit. by apply block_finish_represents.
Qed.

(** The digest depends only on the concatenation of the pieces. *)
Lemma block_stream st0 buf chunks padding :
  length buf = B -> padding = 0x80 :: replicate (B - 1) 0 ->
  Forall (fun c => Z.of_nat (length c) < 2 ^ w) chunks ->
  state (block_finish padding (fold_left block_update chunks (HashCtx 0 0 st0 buf)))
  = absorb st0 (concat chunks ++ pad (concat chunks)).
Proof.
  intros Hbuf Hp Hc.
  by destruct (block_stream_represents st0 buf chunks padding Hbuf Hp Hc) as (_ & _ & -> & _).
Qed.

End BlockHash.

(** Two compression functions that agree on well-formed input absorb alike. *)
Lemma absorb_ext {St} (f g : St -> list Z -> St) (ok : St -> Prop) B st m :
  (0 < B)%nat ->
  (forall st b, ok st -> bytes b -> length b = B -> f st b = g st b /\ ok (f st b)) ->
  ok st -> bytes m -> absorb f B st m = absorb g B st m /\ ok (absorb f B st m).
Proof.
  intros HB Hfg. unfold absorb, nblocks.
  pose proof (Nat.div_mod_eq (length m) B) as Hdm.
  assert (Hle : (B * (length m / B) <= length m)%nat) by lia. clear Hdm.
  revert Hle. generalize (length m / B)%nat as n. intros n. revert st m.
  induction n as [|n IH]; intros st m Hle Hok Hm; [done|]. simpl.
  destruct (Hfg st (take B m)) as [Heq Hok'];
    [done|by apply Forall_take|rewrite length_take; lia|].
  destruct (IH (f st (take B m)) (drop B m)) as [E1 E2];
    [rewrite length_drop; lia|done|by apply Forall_drop|].
  rewrite <- Heq. auto.
Qed.

(** Cutting an input into pieces of [n] bytes, as the watchdog loops do. *)
Fixpoint pieces (fuel n : nat) (input : list Z) : list (list Z) :=
  match fuel, input with
  | S fuel, _ :: _ =>
      let chunk := Nat.min (length input) n in
      take chunk input :: pieces fuel n (drop chunk input)
  | _, _ => []
  end.

Lemma concat_pieces fuel n input :
  (0 < n)%nat -> (length input <= fuel)%nat -> concat (pieces fuel n input) = input.
Proof.
  revert input. induction fuel as [|fuel IH]; intros [|x input] Hn Hf; try done.
  - simpl in Hf; lia.
  - cbn [pieces concat]. rewrite IH; [apply take_drop|done|].
    rewrite length_drop. cbn [length] in *. lia.
Qed.

Lemma length_pieces fuel n input :
  Forall (fun c => Z.of_nat (length c) <= Z.of_nat (length input)) (pieces fuel n input).
Proof.
  revert input. induction fuel as [|fuel IH]; intros [|x input]; try constructor.
  - rewrite length_take. lia.
  - eapply Forall_impl; [apply IH|]. intros c Hc. simpl in Hc.
    rewrite length_drop in Hc. lia.
Qed.

Lemma bytes_pieces fuel n input (bound : Z) :
  bytes input -> Z.of_nat (length input) < bound ->
  Forall (fun c => bytes c /\ Z.of_nat (length c) < bound) (pieces fuel n input).
Proof.
  intros Hb Hl. apply Forall_and. split.
  - revert input Hb Hl. induction fuel as [|fuel IH]; intros [|x input] Hb Hl; try constructor.
    + by apply Forall_take.
    + apply IH; [by apply Forall_drop|]. rewrite length_drop. lia.
  - eapply Forall_impl; [apply length_pieces|]. simpl. lia.
Qed.

Lemma bytes_padded B w chunks (bound : Z) :
  Forall (fun c => bytes c /\ Z.of_nat (length c) < bound) chunks ->
  bytes (concat chunks ++ pad B w (concat chunks)).
Proof.
  intros Hc. apply Forall_app_2.
  - apply Forall_concat. eapply Forall_impl; [done|]. by intros ? [? _].
  - constructor; [split; lia|]. apply Forall_app_2; [|apply be_bytes_bytes].
    apply Forall_replicate. split; lia.
Qed.
