(* ===== verification/Sha2.v ===== *)
(** * SHA-256, SHA-384 and SHA-512 (lib/sha256.c, lib/sha512.c)

    The hashes behind FIT image and configuration verification.  The code
    keeps eight working registers in place and renames them from one macro
    call to the next instead of shifting them; [Sha2Core] shows that eight
    such calls are eight rounds of FIPS 180-4.  [Sha256] and [Sha512] are the
    two source files. *)

From S2P Require Import Prelude BlockHash.

(** ** The common round structure *)

(** The eight working registers A..H. *)
Record regs := Regs { rA : Z; rB : Z; rC : Z; rD : Z; rE : Z; rF : Z; rG : Z; rH : Z }.

Definition regs_list (r : regs) : list Z :=
  [rA r; rB r; rC r; rD r; rE r; rF r; rG r; rH r].

Section Sha2Core.
Context (w : Z).
(** The source macros S0, S1, S2, S3, F0, F1. *)
Context (S0 S1 S2 S3 : Z -> Z) (F0 F1 : Z -> Z -> Z -> Z).

(** [P(a,b,c,d,e,f,g,h,x,K)]: the new values of [d] and [h]. *)
Definition sha2_P (a b c d e f g h x K : Z) : Z * Z :=
  let temp1 := wrap w (h + S3 e + F1 e f g + K + x) in
  let temp2 := wrap w (S2 a + F0 a b c) in
  (wrap w (d + temp1), wrap w (temp1 + temp2)).

(** Eight consecutive calls; each renames the registers one place further. *)
Definition sha2_P8 (r : regs) (x K : nat -> Z) : regs :=
  let '(Regs A B C D E F G H) := r in
  let '(D, H) := sha2_P A B C D E F G H (x 0%nat) (K 0%nat) in
  let '(C, G) := sha2_P H A B C D E F G (x 1%nat) (K 1%nat) in
  let '(B, F) := sha2_P G H A B C D E F (x 2%nat) (K 2%nat) in
  let '(A, E) := sha2_P F G H A B C D E (x 3%nat) (K 3%nat) in
  let '(H, D) := sha2_P E F G H A B C D (x 4%nat) (K 4%nat) in
  let '(G, C) := sha2_P D E F G H A B C (x 5%nat) (K 5%nat) in
  let '(F, B) := sha2_P C D E F G H A B (x 6%nat) (K 6%nat) in
  let '(E, A) := sha2_P B C D E F G H A (x 7%nat) (K 7%nat) in
  Regs A B C D E F G H.

(** [W[t] = S1(W[t-2]) + W[t-7] + S0(W[t-15]) + W[t-16]].  The entries are
    written in increasing order, so the array is the list of those written
    so far and the store at [t = length W] appends. *)
Definition sha2_R (W : list Z) : Z :=
  let t := length W in
  wrap w (S1 (nth (t - 2) W 0) + nth (t - 7) W 0 + S0 (nth (t - 15) W 0)
          + nth (t - 16) W 0).

Fixpoint sha2_schedule (n : nat) (W : list Z) : list Z :=
  match n with
  | O => W
  | S n => let W := sha2_schedule n W in W ++ [sha2_R W]
  end.

Definition add_regs (st : list Z) (r : regs) : list Z :=
  zip_with (fun s x => wrap w (s + x)) st (regs_list r).

Definition load_regs (st : list Z) : regs :=
  Regs (nth 0 st 0) (nth 1 st 0) (nth 2 st 0) (nth 3 st 0)
       (nth 4 st 0) (nth 5 st 0) (nth 6 st 0) (nth 7 st 0).
End Sha2Core.

(** ** FIPS 180-4, section 6 *)

Section Fips.
Context (w : Z).
Context (sigma0 sigma1 Sigma0 Sigma1 : Z -> Z).

Definition rotr (n x : Z) : Z := (x .>> n) .| wrap w (x .<< (w - n)).
Definition Ch (x y z : Z) : Z := (x .& y) ^^ (Z.lnot x .& z).
Definition Maj (x y z : Z) : Z := (x .& y) ^^ (x .& z) ^^ (y .& z).

Definition fips_round (r : regs) (xk : Z * Z) : regs :=
  let '(Regs a b c d e f g h) := r in
  let T1 := wrap w (h + Sigma1 e + Ch e f g + snd xk + fst xk) in
  let T2 := wrap w (Sigma0 a + Maj a b c) in
  Regs (wrap w (T1 + T2)) a b c (wrap w (d + T1)) e f g.

(** The message schedule of a block given as sixteen words. *)
Fixpoint fips_schedule (n : nat) (M : list Z) : list Z :=
  match n with
  | O => M
  | S n =>
      let W := fips_schedule n M in
      let t := length W in
      W ++ [wrap w (sigma1 (nth (t - 2) W 0) + nth (t - 7) W 0
                    + sigma0 (nth (t - 15) W 0) + nth (t - 16) W 0)]
  end.

(** One block: schedule, rounds, addition to the chaining value. *)
Definition fips_compress (K : list Z) (rounds : nat) (st M : list Z) : list Z :=
  let W := fips_schedule (rounds - 16) M in
  add_regs w st (fold_left fips_round (zip W K) (load_regs st)).
End Fips.

(** ** The register-renaming rounds are the rounds of the standard *)

Definition regs_ok (w : Z) (r : regs) : Prop := Forall (in_word w) (regs_list r).

Section RoundsCorrect.
Context (w : Z) (Hw : 0 <= w).
Context (S0 S1 S2 S3 : Z -> Z) (F0 F1 : Z -> Z -> Z -> Z).
Context (sigma0 sigma1 Sigma0 Sigma1 : Z -> Z).
Hypothesis HS0 : forall x, in_word w x -> S0 x = sigma0 x.
Hypothesis HS1 : forall x, in_word w x -> S1 x = sigma1 x.
Hypothesis HS2 : forall x, in_word w x -> S2 x = Sigma0 x.
Hypothesis HS3 : forall x, in_word w x -> S3 x = Sigma1 x.
Hypothesis HF0 : forall x y z, F0 x y z = Maj x y z.
Hypothesis HF1 : forall x y z, F1 x y z = Ch x y z.

#[local] Abbreviation P := (sha2_P w S2 S3 F0 F1).
#[local] Abbreviation round := (fips_round w Sigma0 Sigma1).

Lemma fips_round_P a b c d e f g h x K :
  in_word w a -> in_word w e ->
  round (Regs a b c d e f g h) (x, K)
  = let '(d', h') := P a b c d e f g h x K in Regs h' a b c d' e f g.
Proof. intros. unfold fips_round, sha2_P. simpl. by rewrite HS2, HS3, HF0, HF1. Qed.

Lemma sha2_P_word a b c d e f g h x K d' h' :
  P a b c d e f g h x K = (d', h') -> in_word w d' /\ in_word w h'.
Proof. unfold sha2_P. intros [= <- <-]. auto with word. Qed.

Lemma fips_round_ok r xk : regs_ok w r -> regs_ok w (round r xk).
Proof.
  unfold regs_ok, regs_list. destruct r. cbn. rewrite !Forall_cons.
  intuition auto with word.
Qed.

Lemma add_regs_word st r : Forall (in_word w) (add_regs w st r).
Proof.
  unfold add_regs. generalize (regs_list r) as l. induction st as [|x st IH]; intros [|y l];
    simpl; auto with word.
Qed.

Lemma load_regs_ok st : length st = 8%nat -> Forall (in_word w) st -> regs_ok w (load_regs st).
Proof.
  intros Hst Hst'. unfold regs_ok, load_regs, regs_list. cbn [rA rB rC rD rE rF rG rH].
  do 8 (destruct st as [|? st]; [done|]). cbn [nth].
  rewrite !Forall_cons in Hst' |- *. pose proof (Forall_nil_2 (in_word w)). tauto.
Qed.

Lemma fips_rounds_ok l r : regs_ok w r -> regs_ok w (fold_left round l r).
Proof. revert r. induction l; simpl; auto using fips_round_ok. Qed.

Lemma sha2_P8_fips r x K :
  regs_ok w r ->
  sha2_P8 w S2 S3 F0 F1 r x K
  = fold_left round (map (fun i => (x i, K i)) (seq 0 8)) r.
Proof.
  unfold regs_ok, regs_list. destruct r as [A B C D E F G H].
  cbn [rA rB rC rD rE rF rG rH].
  rewrite !Forall_cons. intros (? & ? & ? & ? & ? & ? & ? & ? & _).
  cbn [seq map fold_left]. unfold sha2_P8.
  do 8 (rewrite fips_round_P by done;
        match goal with
        | |- context [let '(_, _) := P ?a ?b ?c ?d ?e ?f ?g ?h ?x ?k in Regs _ _ _ _ _ _ _ _] =>
            destruct (P a b c d e f g h x k) as [? ?] eqn:Heq;
            apply sha2_P_word in Heq as [? ?]
        end).
  done.
Qed.

(** Groups of eight calls run through all rounds. *)
Lemma sha2_groups W K n r :
  regs_ok w r ->
  fold_left (fun r t => sha2_P8 w S2 S3 F0 F1 r
      (fun i => nth (t + i) W 0) (fun i => nth (t + i) K 0))
    (map (fun j => 8 * j)%nat (seq 0 n)) r
  = fold_left (fun r t => round r (nth t W 0, nth t K 0)) (seq 0 (8 * n)) r.
Proof.
  intros Hr. induction n as [|n IH]; [done|].
  replace (8 * S n)%nat with (8 * n + 8)%nat by lia.
  rewrite seq_S, map_app, fold_left_app, IH, seq_app, fold_left_app.
  cbn [fold_left map Nat.add]. rewrite sha2_P8_fips.
  - cbn [seq map fold_left Nat.add].
    repeat match goal with |- context [(8 * n + ?m)%nat] => rewrite (Nat.add_comm (8 * n) m) end.
    done.
  - clear IH. generalize (seq 0 (8 * n)) as l. intros l. revert r Hr.
    induction l; simpl; auto using fips_round_ok.
Qed.

Lemma fold_zip_nth (W K : list Z) n r :
  length W = n -> length K = n ->
  fold_left round (zip W K) r
  = fold_left (fun r t => round r (nth t W 0, nth t K 0)) (seq 0 n) r.
Proof.
  intros HW HK. revert W K HW HK r. induction n as [|n IH]; intros W K HW HK r.
  - by destruct W.
  - destruct W as [|x W], K as [|k K]; try done. cbn [zip zip_with fold_left seq nth].
    rewrite IH by (simpl in *; lia). rewrite <- seq_shift, fold_left_map. done.
Qed.

Lemma sha2_schedule_S n W :
  sha2_schedule w S0 S1 (S n) W
  = sha2_schedule w S0 S1 n W ++ [sha2_R w S0 S1 (sha2_schedule w S0 S1 n W)].
Proof. done. Qed.

Lemma length_sha2_schedule n W : length (sha2_schedule w S0 S1 n W) = (length W + n)%nat.
Proof. induction n; simpl; rewrite ?length_app; simpl; lia. Qed.

Lemma sha2_schedule_prefix n m W t :
  (n <= m)%nat -> (t < length W + n)%nat ->
  nth t (sha2_schedule w S0 S1 m W) 0 = nth t (sha2_schedule w S0 S1 n W) 0.
Proof.
  induction 1 as [|m Hm IH]; intros Ht; [done|]. cbn [sha2_schedule].
  rewrite app_nth1 by (rewrite length_sha2_schedule; lia). auto.
Qed.

Lemma sha2_schedule_fips n W :
  Forall (in_word w) W ->
  sha2_schedule w S0 S1 n W = fips_schedule w sigma0 sigma1 n W
  /\ Forall (in_word w) (sha2_schedule w S0 S1 n W).
Proof.
  intros HW. induction n as [|n [IH1 IH2]]; [done|]. cbn [sha2_schedule fips_schedule].
  assert (Hnth : forall i, in_word w (nth i (sha2_schedule w S0 S1 n W) 0)).
  { intros i. destruct (nth_in_or_default i (sha2_schedule w S0 S1 n W) 0) as [Hi|Hi].
    - rewrite List.Forall_forall in IH2. auto.
    - rewrite Hi. split; [lia|]. apply Z.pow_pos_nonneg; lia. }
  split.
  - rewrite <- IH1. unfold sha2_R. by rewrite HS0, HS1.
  - apply Forall_app_2; [done|]. apply Forall_singleton. unfold sha2_R. auto with word.
Qed.
End RoundsCorrect.

Module Sha256.

Definition sha256_context := hash_ctx (list Z).

Definition GET_UINT32_BE (b : list Z) (i : nat) : Z :=
  (nth i b 0 .<< 24) .| (nth (i + 1) b 0 .<< 16) .| (nth (i + 2) b 0 .<< 8)
  .| nth (i + 3) b 0.

Definition PUT_UINT32_BE (n : Z) : list Z :=
  [u8 (n .>> 24); u8 (n .>> 16); u8 (n .>> 8); u8 n].

(** The padding table of the file: 0x80 and 63 zero bytes. *)
Definition sha256_padding : list Z := 0x80 :: replicate 63 0.

Definition sha256_starts (buf : list Z) : sha256_context :=
  HashCtx 0 0
    [0x6A09E667; 0xBB67AE85; 0x3C6EF372; 0xA54FF53A;
   0x510E527F; 0x9B05688C; 0x1F83D9AB; 0x5BE0CD19]
    buf.

Definition SHR (x n : Z) : Z := (x .& 0xFFFFFFFF) .>> n.
Definition ROTR (x n : Z) : Z := SHR x n .| u32 (x .<< (32 - n)).

Definition S0 (x : Z) : Z := ROTR x 7 ^^ ROTR x 18 ^^ SHR x 3.
Definition S1 (x : Z) : Z := ROTR x 17 ^^ ROTR x 19 ^^ SHR x 10.
Definition S2 (x : Z) : Z := ROTR x 2 ^^ ROTR x 13 ^^ ROTR x 22.
Definition S3 (x : Z) : Z := ROTR x 6 ^^ ROTR x 11 ^^ ROTR x 25.

Definition F0 (x y z : Z) : Z := (x .& y) .| (z .& (x .| y)).
Definition F1 (x y z : Z) : Z := z ^^ (x .& (y ^^ z)).

(** The round constants, the last argument of each of the 64 macro calls. *)
Definition K : list Z :=
  [0x428A2F98; 0x71374491; 0xB5C0FBCF; 0xE9B5DBA5; 0x3956C25B; 0x59F111F1;
   0x923F82A4; 0xAB1C5ED5; 0xD807AA98; 0x12835B01; 0x243185BE; 0x550C7DC3;
   0x72BE5D74; 0x80DEB1FE; 0x9BDC06A7; 0xC19BF174; 0xE49B69C1; 0xEFBE4786;
   0x0FC19DC6; 0x240CA1CC; 0x2DE92C6F; 0x4A7484AA; 0x5CB0A9DC; 0x76F988DA;
   0x983E5152; 0xA831C66D; 0xB00327C8; 0xBF597FC7; 0xC6E00BF3; 0xD5A79147;
   0x06CA6351; 0x14292967; 0x27B70A85; 0x2E1B2138; 0x4D2C6DFC; 0x53380D13;
   0x650A7354; 0x766A0ABB; 0x81C2C92E; 0x92722C85; 0xA2BFE8A1; 0xA81A664B;
   0xC24B8B70; 0xC76C51A3; 0xD192E819; 0xD6990624; 0xF40E3585; 0x106AA070;
   0x19A4C116; 0x1E376C08; 0x2748774C; 0x34B0BCB5; 0x391C0CB3; 0x4ED8AA4A;
   0x5B9CCA4F; 0x682E6FF3; 0x748F82EE; 0x78A5636F; 0x84C87814; 0x8CC70208;
   0x90BEFFFA; 0xA4506CEB; 0xBEF9A3F7; 0xC67178F2].

(** The word argument of call [t]: [W[t]] for [t < 16], [R(t)] from then on,
    which also stores [W[t]]. *)
Definition round_word (W : list Z) (t : nat) : Z * list Z :=
  if (t <? 16)%nat then (nth t W 0, W)
  else let v := sha2_R 32 S0 S1 W in (v, W ++ [v]).

(** The calls for [t .. t+7]. *)
Definition sha256_group (rW : regs * list Z) (t : nat) : regs * list Z :=
  let '(r, W) := rW in
  let '(x0, W) := round_word W t in
  let '(x1, W) := round_word W (t + 1) in
  let '(x2, W) := round_word W (t + 2) in
  let '(x3, W) := round_word W (t + 3) in
  let '(x4, W) := round_word W (t + 4) in
  let '(x5, W) := round_word W (t + 5) in
  let '(x6, W) := round_word W (t + 6) in
  let '(x7, W) := round_word W (t + 7) in
  (sha2_P8 32 S2 S3 F0 F1 r (fun i => nth i [x0; x1; x2; x3; x4; x5; x6; x7] 0)
     (fun i => nth (t + i) K 0), W).

Definition sha256_process (st data : list Z) : list Z :=
  let W := map (fun i => GET_UINT32_BE data (4 * i)) (seq 0 16) in
  let '(r, _) := fold_left sha256_group [0; 8; 16; 24; 32; 40; 48; 56]%nat
                   (load_regs st, W) in
  add_regs 32 st r.

Definition sha256_update (ctx : sha256_context) (input : list Z) : sha256_context :=
  block_update sha256_process 64 32 ctx input.

(** [sha256_finish]: the digest written to the caller's buffer. *)
Definition sha256_finish (ctx : sha256_context) : list Z :=
  let ctx := block_finish sha256_process 64 32 sha256_padding ctx in
  concat (map PUT_UINT32_BE (state ctx)).

(** [sha256_csum_wd] without and with a watchdog ([chunk_sz] bytes per update). *)
Definition sha256_csum (buf input : list Z) : list Z :=
  sha256_finish (sha256_update (sha256_starts buf) input).

Fixpoint sha256_wd_loop (fuel : nat) (ctx : sha256_context) (chunk_sz : nat)
    (input : list Z) : sha256_context :=
  match fuel, input with
  | S fuel, _ :: _ =>
      let chunk := Nat.min (length input) chunk_sz in
      sha256_wd_loop fuel (sha256_update ctx (take chunk input)) chunk_sz (drop chunk input)
  | _, _ => ctx
  end.

Definition sha256_csum_wd (buf input : list Z) (chunk_sz : nat) : list Z :=
  sha256_finish (sha256_wd_loop (length input) (sha256_starts buf) chunk_sz input).

Example sha256_abc :
  be_combine (sha256_csum (replicate 64 0) [97; 98; 99])
  = 0xba7816bf8f01cfea414140de5dae2223b00361a396177a9cb410ff61f20015ad.
Proof. vm_compute. reflexivity. Qed.

(** ** Agreement with FIPS 180-4 *)

Definition sigma0 (x : Z) : Z := rotr 32 7 x ^^ rotr 32 18 x ^^ (x .>> 3).
Definition sigma1 (x : Z) : Z := rotr 32 17 x ^^ rotr 32 19 x ^^ (x .>> 10).
Definition Sigma0 (x : Z) : Z := rotr 32 2 x ^^ rotr 32 13 x ^^ rotr 32 22 x.
Definition Sigma1 (x : Z) : Z := rotr 32 6 x ^^ rotr 32 11 x ^^ rotr 32 25 x.

(** The sixteen big-endian words of a block. *)
Definition block_words (data : list Z) : list Z :=
  map (fun i => be_combine (take 4 (drop (4 * i) data))) (seq 0 16).

Definition H0 : list Z := state (sha256_starts []).

(** SHA-256 of a message: pad, compress block by block, output the words. *)
Definition sha256_spec (m : list Z) : list Z :=
  let compress st b := fips_compress 32 sigma0 sigma1 Sigma0 Sigma1 K 64 st (block_words b) in
  concat (map (be_bytes 4) (absorb compress 64 H0 (m ++ pad 64 32 m))).

Lemma SHR_word x n : in_word 32 x -> SHR x n = x .>> n.
Proof.
  intros Hx. unfold SHR. change 0xFFFFFFFF with (Z.ones 32).
  by rewrite <- wrap_land_ones, wrap_small.
Qed.

Lemma ROTR_word x n : in_word 32 x -> ROTR x n = rotr 32 n x.
Proof. intros Hx. unfold ROTR, rotr. by rewrite SHR_word. Qed.

Lemma S0_word x : in_word 32 x -> S0 x = sigma0 x.
Proof. intros. unfold S0. by rewrite !ROTR_word, SHR_word. Qed.
Lemma S1_word x : in_word 32 x -> S1 x = sigma1 x.
Proof. intros. unfold S1. by rewrite !ROTR_word, SHR_word. Qed.
Lemma S2_word x : in_word 32 x -> S2 x = Sigma0 x.
Proof. intros. unfold S2. by rewrite !ROTR_word. Qed.
Lemma S3_word x : in_word 32 x -> S3 x = Sigma1 x.
Proof. intros. unfold S3. by rewrite !ROTR_word. Qed.
Lemma F0_maj x y z : F0 x y z = Maj x y z.
Proof. unfold F0, Maj. zbits. Qed.
Lemma F1_ch x y z : F1 x y z = Ch x y z.
Proof. unfold F1, Ch. zbits. Qed.

Lemma GET_UINT32_BE_spec data i :
  bytes data -> (i + 4 <= length data)%nat ->
  GET_UINT32_BE data i = be_combine (take 4 (drop i data))
  /\ in_word 32 (GET_UINT32_BE data i).
Proof.
  intros Hd Hl. assert (Hs : GET_UINT32_BE data i = be_combine (take 4 (drop i data))).
  { unfold GET_UINT32_BE. rewrite !(nth_drop data i).
    replace i with (i + 0)%nat at 1 by lia. rewrite nth_drop.
    pose proof (length_drop data i) as Hlen. apply (Forall_drop _ i) in Hd.
    destruct (drop i data) as [|a [|b [|c [|d l]]]]; simpl in Hlen; try lia.
    rewrite !Forall_cons in Hd. destruct Hd as (? & ? & ? & ? & _).
    cbn [take nth]. unfold be_combine. cbn [fold_left].
    rewrite !be_combine_step by done.
    rewrite !Z.shiftl_lor, !Z.shiftl_shiftl, Z.shiftl_0_l, Z.lor_0_l by lia. done. }
  split; [done|]. rewrite Hs.
  pose proof (be_combine_word (take 4 (drop i data))) as Hb.
  rewrite length_take, length_drop, Nat.min_l in Hb by lia.
  apply Hb. by apply Forall_take, Forall_drop.
Qed.

Section Compress.
Context (W0 : list Z) (HW0 : length W0 = 16%nat) (N : nat).
#[local] Abbreviation sch n := (sha2_schedule 32 S0 S1 n W0).

Lemma round_word_spec t :
  (t < 16 + N)%nat -> round_word (sch (t - 16)) t = (nth t (sch N) 0, sch (t + 1 - 16)).
Proof.
  intros Ht. unfold round_word. destruct (Nat.ltb_spec t 16).
  - replace (t - 16)%nat with 0%nat by lia. replace (t + 1 - 16)%nat with 0%nat by lia.
    by rewrite (sha2_schedule_prefix 32 S0 S1 0 N) by (simpl; lia).
  - replace (t + 1 - 16)%nat with (S (t - 16)) by lia. rewrite sha2_schedule_S.
    f_equal. rewrite (sha2_schedule_prefix 32 S0 S1 (S (t - 16)) N) by lia.
    rewrite sha2_schedule_S, app_nth2; rewrite length_sha2_schedule; [|lia].
    by replace (t - (length W0 + (t - 16)))%nat with 0%nat by lia.
Qed.

Lemma sha256_group_spec r t :
  (t + 8 <= 16 + N)%nat ->
  sha256_group (r, sch (t - 16)) t
  = (sha2_P8 32 S2 S3 F0 F1 r (fun i => nth (t + i) (sch N) 0) (fun i => nth (t + i) K 0),
     sch (t + 8 - 16)).
Proof.
  intros Ht. unfold sha256_group. rewrite round_word_spec by lia.
  do 7 (rewrite round_word_spec by lia; rewrite <- ?Nat.add_assoc; cbn [Nat.add]).
  unfold sha2_P8. cbn [nth]. by rewrite !Nat.add_0_r.
Qed.

Lemma sha256_groups_spec n r :
  (8 * n <= 16 + N)%nat ->
  fold_left sha256_group (map (fun j => 8 * j)%nat (seq 0 n)) (r, W0)
  = (fold_left (fun r t => sha2_P8 32 S2 S3 F0 F1 r
        (fun i => nth (t + i) (sch N) 0) (fun i => nth (t + i) K 0))
      (map (fun j => 8 * j)%nat (seq 0 n)) r, sch (8 * n - 16)).
Proof.
  induction n as [|n IH]; intros Hn; [done|].
  rewrite seq_S, map_app, !fold_left_app, IH by lia. cbn [map fold_left Nat.add].
  rewrite sha256_group_spec by lia. do 2 f_equal. lia.
Qed.
End Compress.

Lemma sha256_process_fips st data :
  length st = 8%nat -> Forall (in_word 32) st -> length data = 64%nat -> bytes data ->
  sha256_process st data
  = fips_compress 32 sigma0 sigma1 Sigma0 Sigma1 K 64 st (block_words data).
Proof.
  intros Hst Hw Hd Hb. unfold sha256_process, fips_compress, block_words.
  assert (HW : forall i, i ∈ seq 0 16 ->
    GET_UINT32_BE data (4 * i) = be_combine (take 4 (drop (4 * i) data))
    /\ in_word 32 (GET_UINT32_BE data (4 * i))).
  { intros i Hi%elem_of_seq. apply GET_UINT32_BE_spec; [done|lia]. }
  rewrite (map_ext_in (fun i => be_combine (take 4 (drop (4 * i) data)))
    (fun i => GET_UINT32_BE data (4 * i)))
    by (intros; symmetry; by apply HW, list_elem_of_In).
  set (W := map _ _).
  assert (Wlen : length W = 16%nat) by (unfold W; by rewrite length_map, length_seq).
  assert (Wok : Forall (in_word 32) W).
  { apply List.Forall_map, Forall_forall. intros i Hi. by apply HW. }
  change [0; 8; 16; 24; 32; 40; 48; 56]%nat with (map (fun j => 8 * j)%nat (seq 0 8)).
  rewrite (sha256_groups_spec W Wlen 48 8) by lia. change (64 - 16)%nat with 48%nat.
  destruct (sha2_schedule_fips 32 ltac:(lia) S0 S1 sigma0 sigma1 S0_word S1_word 48 W Wok)
    as [<- _].
  rewrite (sha2_groups 32 ltac:(lia) S2 S3 F0 F1 Sigma0 Sigma1 S2_word S3_word F0_maj F1_ch).
  - rewrite (fold_zip_nth 32 _ _ _ _ 64); [done| |done].
    by rewrite length_sha2_schedule, Wlen.
  - by apply load_regs_ok.
Qed.

Definition state_ok (st : list Z) : Prop := length st = 8%nat /\ Forall (in_word 32) st.

Lemma add_regs_ok st r :
  state_ok st -> state_ok (add_regs 32 st r).
Proof.
  intros [Hl Hw]. unfold state_ok, add_regs. split.
  - rewrite length_zip_with, Hl. done.
  - by apply add_regs_word.
Qed.

Lemma PUT_UINT32_BE_bytes n : PUT_UINT32_BE n = be_bytes 4 n.
Proof. unfold PUT_UINT32_BE. simpl. by rewrite Z.shiftr_0_r. Qed.

Lemma H0_ok : state_ok H0.
Proof. split; [done|]. apply (bool_decide_unpack _). vm_compute. done. Qed.

Lemma sha256_stream buf chunks :
  length buf = 64%nat -> Forall (fun c => bytes c /\ Z.of_nat (length c) < 2 ^ 32) chunks ->
  sha256_finish (fold_left sha256_update chunks (sha256_starts buf))
  = sha256_spec (concat chunks).
Proof.
  intros Hbuf Hc. unfold sha256_finish, sha256_spec.
  change (fold_left sha256_update chunks (sha256_starts buf))
    with (fold_left (block_update sha256_process 64 32) chunks (HashCtx 0 0 H0 buf)).
  rewrite (block_stream sha256_process 64 6 32 H0 buf chunks sha256_padding); try done.
  - f_equal. rewrite (map_ext _ _ PUT_UINT32_BE_bytes). f_equal.
    apply (absorb_ext _ _ state_ok); [lia| |apply H0_ok|].
    + intros st b [Hl Hw] Hb Hlen. rewrite sha256_process_fips by done.
      split; [done|]. by apply add_regs_ok.
    + by eapply bytes_padded.
  - eapply Forall_impl; [done|]. by intros ? [_ ?].
Qed.

(** C35: however a message is cut into update calls, the digest is SHA-256 of
    FIPS 180-4 applied to the whole message. *)
Theorem sha256_stream_correct buf chunks :
  length buf = 64%nat -> Forall (fun c => bytes c /\ Z.of_nat (length c) < 2 ^ 32) chunks ->
  sha256_finish (fold_left sha256_update chunks (sha256_starts buf))
  = sha256_spec (concat chunks).
Proof. apply sha256_stream. Qed.

Lemma sha256_wd_loop_pieces fuel ctx chunk_sz input :
  sha256_wd_loop fuel ctx chunk_sz input
  = fold_left sha256_update (pieces fuel chunk_sz input) ctx.
Proof.
  revert ctx input. induction fuel as [|fuel IH]; intros ctx [|x input]; try done.
  cbn [sha256_wd_loop pieces fold_left]. by rewrite IH.
Qed.

(** [sha256_csum_wd] returns SHA-256 of its input, with the watchdog
    pieces of any non-zero size as without. *)
Theorem sha256_csum_wd_correct buf input chunk_sz :
  length buf = 64%nat -> bytes input -> Z.of_nat (length input) < 2 ^ 32 ->
  (0 < chunk_sz)%nat ->
  sha256_csum_wd buf input chunk_sz = sha256_spec input
  /\ sha256_csum buf input = sha256_spec input.
Proof.
  intros Hbuf Hb Hl Hc. split.
  - unfold sha256_csum_wd. rewrite sha256_wd_loop_pieces, sha256_stream.
    + by rewrite concat_pieces.
    + done.
    + by apply bytes_pieces.
  - unfold sha256_csum. etransitivity; [apply (sha256_stream buf [input] Hbuf)|].
    + by rewrite Forall_singleton.
    + simpl. by rewrite app_nil_r.
Qed.

Lemma sha256_stream_correct_witness :
  sha256_finish (fold_left sha256_update [[97]; [98; 99]] (sha256_starts (replicate 64 0)))
  = sha256_spec [97; 98; 99].
Proof.
  apply (sha256_stream_correct (replicate 64 0) [[97]; [98; 99]]); [reflexivity|].
  repeat constructor; lia.
Defined.

Lemma sha256_csum_wd_correct_witness :
  sha256_csum_wd (replicate 64 0) [97; 98; 99] 2 = sha256_spec [97; 98; 99]
  /\ sha256_csum (replicate 64 0) [97; 98; 99] = sha256_spec [97; 98; 99].
Proof.
  apply (sha256_csum_wd_correct (replicate 64 0) [97; 98; 99] 2);
    [reflexivity|repeat constructor; lia|reflexivity|lia].
Defined.

End Sha256.

Module Sha512.

Record sha512_context := Sha512Ctx { core : hash_ctx (list Z); is384 : Z }.

Definition GET_UINT64_BE (b : list Z) (i : nat) : Z :=
  (nth i b 0 .<< 56) .| (nth (i + 1) b 0 .<< 48) .| (nth (i + 2) b 0 .<< 40)
  .| (nth (i + 3) b 0 .<< 32) .| (nth (i + 4) b 0 .<< 24) .| (nth (i + 5) b 0 .<< 16)
  .| (nth (i + 6) b 0 .<< 8) .| nth (i + 7) b 0.

Definition PUT_UINT64_BE (n : Z) : list Z :=
  [u8 (n .>> 56); u8 (n .>> 48); u8 (n .>> 40); u8 (n .>> 32);
   u8 (n .>> 24); u8 (n .>> 16); u8 (n .>> 8); u8 n].

(** The padding table of the file: 0x80 and 127 zero bytes. *)
Definition sha512_padding : list Z := 0x80 :: replicate 127 0.

Definition sha512_starts (buf : list Z) (is384 : Z) : sha512_context :=
  let st :=
    if is384 =? 0 then
      [0x6A09E667F3BCC908; 0xBB67AE8584CAA73B; 0x3C6EF372FE94F82B;
       0xA54FF53A5F1D36F1; 0x510E527FADE682D1; 0x9B05688C2B3E6C1F;
       0x1F83D9ABFB41BD6B; 0x5BE0CD19137E2179]
    else
      [0xCBBB9D5DC1059ED8; 0x629A292A367CD507; 0x9159015A3070DD17;
       0x152FECD8F70E5939; 0x67332667FFC00B31; 0x8EB44A8768581511;
       0xDB0C2E0D64F98FA7; 0x47B5481DBEFA4FA4] in
  Sha512Ctx (HashCtx 0 0 st buf) is384.

Definition K : list Z :=
  [0x428A2F98D728AE22; 0x7137449123EF65CD; 0xB5C0FBCFEC4D3B2F;
   0xE9B5DBA58189DBBC; 0x3956C25BF348B538; 0x59F111F1B605D019;
   0x923F82A4AF194F9B; 0xAB1C5ED5DA6D8118; 0xD807AA98A3030242;
   0x12835B0145706FBE; 0x243185BE4EE4B28C; 0x550C7DC3D5FFB4E2;
   0x72BE5D74F27B896F; 0x80DEB1FE3B1696B1; 0x9BDC06A725C71235;
   0xC19BF174CF692694; 0xE49B69C19EF14AD2; 0xEFBE4786384F25E3;
   0x0FC19DC68B8CD5B5; 0x240CA1CC77AC9C65; 0x2DE92C6F592B0275;
   0x4A7484AA6EA6E483; 0x5CB0A9DCBD41FBD4; 0x76F988DA831153B5;
   0x983E5152EE66DFAB; 0xA831C66D2DB43210; 0xB00327C898FB213F;
   0xBF597FC7BEEF0EE4; 0xC6E00BF33DA88FC2; 0xD5A79147930AA725;
   0x06CA6351E003826F; 0x142929670A0E6E70; 0x27B70A8546D22FFC;
   0x2E1B21385C26C926; 0x4D2C6DFC5AC42AED; 0x53380D139D95B3DF;
   0x650A73548BAF63DE; 0x766A0ABB3C77B2A8; 0x81C2C92E47EDAEE6;
   0x92722C851482353B; 0xA2BFE8A14CF10364; 0xA81A664BBC423001;
   0xC24B8B70D0F89791; 0xC76C51A30654BE30; 0xD192E819D6EF5218;
   0xD69906245565A910; 0xF40E35855771202A; 0x106AA07032BBD1B8;
   0x19A4C116B8D2D0C8; 0x1E376C085141AB53; 0x2748774CDF8EEB99;
   0x34B0BCB5E19B48A8; 0x391C0CB3C5C95A63; 0x4ED8AA4AE3418ACB;
   0x5B9CCA4F7763E373; 0x682E6FF3D6B2B8A3; 0x748F82EE5DEFB2FC;
   0x78A5636F43172F60; 0x84C87814A1F0AB72; 0x8CC702081A6439EC;
   0x90BEFFFA23631E28; 0xA4506CEBDE82BDE9; 0xBEF9A3F7B2C67915;
   0xC67178F2E372532B; 0xCA273ECEEA26619C; 0xD186B8C721C0C207;
   0xEADA7DD6CDE0EB1E; 0xF57D4F7FEE6ED178; 0x06F067AA72176FBA;
   0x0A637DC5A2C898A6; 0x113F9804BEF90DAE; 0x1B710B35131C471B;
   0x28DB77F523047D84; 0x32CAAB7B40C72493; 0x3C9EBE0A15C9BEBC;
   0x431D67C49C100D4C; 0x4CC5D4BECB3E42B6; 0x597F299CFC657E2A;
   0x5FCB6FAB3AD6FAEC; 0x6C44198C4A475817].

Definition SHR (x n : Z) : Z := x .>> n.
Definition ROTR (x n : Z) : Z := SHR x n .| u64 (x .<< (64 - n)).

Definition S0 (x : Z) : Z := ROTR x 1 ^^ ROTR x 8 ^^ SHR x 7.
Definition S1 (x : Z) : Z := ROTR x 19 ^^ ROTR x 61 ^^ SHR x 6.
Definition S2 (x : Z) : Z := ROTR x 28 ^^ ROTR x 34 ^^ ROTR x 39.
Definition S3 (x : Z) : Z := ROTR x 14 ^^ ROTR x 18 ^^ ROTR x 41.

Definition F0 (x y z : Z) : Z := (x .& y) .| (z .& (x .| y)).
Definition F1 (x y z : Z) : Z := z ^^ (x .& (y ^^ z)).

(** [do { eight P calls } while (i < 80)]: [i] at the start of each turn. *)
Definition sha512_process (st data : list Z) : list Z :=
  let W := map (fun i => GET_UINT64_BE data (i * 8)) (seq 0 16) in
  let W := sha2_schedule 64 S0 S1 64 W in
  let r := fold_left (fun r t => sha2_P8 64 S2 S3 F0 F1 r
              (fun i => nth (t + i) W 0) (fun i => nth (t + i) K 0))
             [0; 8; 16; 24; 32; 40; 48; 56; 64; 72]%nat (load_regs st) in
  add_regs 64 st r.

Definition sha512_update (ctx : sha512_context) (input : list Z) : sha512_context :=
  Sha512Ctx (block_update sha512_process 128 64 (core ctx) input) (is384 ctx).

(** [sha512_finish]: the bytes written to [output], 64 or (for SHA-384) 48. *)
Definition sha512_finish (ctx : sha512_context) : list Z :=
  let ctx' := block_finish sha512_process 128 64 sha512_padding (core ctx) in
  let st := state ctx' in
  concat (map PUT_UINT64_BE (take 6 st))
  ++ (if is384 ctx =? 0 then concat (map PUT_UINT64_BE (drop 6 st)) else []).

Fixpoint sha512_wd_loop (fuel : nat) (ctx : sha512_context) (chunk_sz : nat)
    (input : list Z) : sha512_context :=
  match fuel, input with
  | S fuel, _ :: _ =>
      let chunk := Nat.min (length input) chunk_sz in
      sha512_wd_loop fuel (sha512_update ctx (take chunk input)) chunk_sz (drop chunk input)
  | _, _ => ctx
  end.

(** [sha384_csum_wd] and [sha512_csum_wd] in a build with a watchdog. *)
Definition sha384_csum_wd (buf input : list Z) (chunk_sz : nat) : list Z :=
  sha512_finish (sha512_wd_loop (length input) (sha512_starts buf 1) chunk_sz input).

Definition sha512_csum_wd (buf input : list Z) (chunk_sz : nat) : list Z :=
  sha512_finish (sha512_wd_loop (length input) (sha512_starts buf 0) chunk_sz input).

Example sha384_abc :
  be_combine (sha384_csum_wd (replicate 128 0) [97; 98; 99] 2)
  = 0xcb00753f45a35e8bb5a03d699ac65007272c32ab0eded1631a8b605a43ff5bed8086072ba1e7cc2358baeca134c825a7.
Proof. vm_compute. reflexivity. Qed.

(** ** Agreement with FIPS 180-4 *)

Definition sigma0 (x : Z) : Z := rotr 64 1 x ^^ rotr 64 8 x ^^ (x .>> 7).
Definition sigma1 (x : Z) : Z := rotr 64 19 x ^^ rotr 64 61 x ^^ (x .>> 6).
Definition Sigma0 (x : Z) : Z := rotr 64 28 x ^^ rotr 64 34 x ^^ rotr 64 39 x.
Definition Sigma1 (x : Z) : Z := rotr 64 14 x ^^ rotr 64 18 x ^^ rotr 64 41 x.

Definition block_words (data : list Z) : list Z :=
  map (fun i => be_combine (take 8 (drop (i * 8) data))) (seq 0 16).

Definition H0 (is384 : Z) : list Z := state (core (sha512_starts [] is384)).

(** SHA-512, or SHA-384 when [is384] is not zero. *)
Definition sha512_spec (is384 : Z) (m : list Z) : list Z :=
  let compress st b := fips_compress 64 sigma0 sigma1 Sigma0 Sigma1 K 80 st (block_words b) in
  take (if is384 =? 0 then 64 else 48)
    (concat (map (be_bytes 8) (absorb compress 128 (H0 is384) (m ++ pad 128 64 m)))).

Lemma sha512_F0_maj x y z : F0 x y z = Maj x y z.
Proof. unfold F0, Maj. zbits. Qed.
Lemma sha512_F1_ch x y z : F1 x y z = Ch x y z.
Proof. unfold F1, Ch. zbits. Qed.

Lemma GET_UINT64_BE_spec data i :
  bytes data -> (i + 8 <= length data)%nat ->
  GET_UINT64_BE data i = be_combine (take 8 (drop i data))
  /\ in_word 64 (GET_UINT64_BE data i).
Proof.
  intros Hd Hl. assert (Hs : GET_UINT64_BE data i = be_combine (take 8 (drop i data))).
  { unfold GET_UINT64_BE. rewrite !(nth_drop data i).
    replace i with (i + 0)%nat at 1 by lia. rewrite nth_drop.
    pose proof (length_drop data i) as Hlen. apply (Forall_drop _ i) in Hd.
    destruct (drop i data) as [|a [|b [|c [|d [|e [|f [|g [|h l]]]]]]]]; simpl in Hlen; try lia.
    rewrite !Forall_cons in Hd. destruct Hd as (? & ? & ? & ? & ? & ? & ? & ? & _).
    cbn [take nth]. unfold be_combine. cbn [fold_left].
    rewrite !be_combine_step by done.
    rewrite !Z.shiftl_lor, !Z.shiftl_shiftl, Z.shiftl_0_l, Z.lor_0_l by lia. done. }
  split; [done|]. rewrite Hs.
  pose proof (be_combine_word (take 8 (drop i data))) as Hb.
  rewrite length_take, length_drop, Nat.min_l in Hb by lia.
  apply Hb. by apply Forall_take, Forall_drop.
Qed.

Definition state_ok (st : list Z) : Prop := length st = 8%nat /\ Forall (in_word 64) st.

Lemma sha512_process_fips st data :
  state_ok st -> length data = 128%nat -> bytes data ->
  sha512_process st data
  = fips_compress 64 sigma0 sigma1 Sigma0 Sigma1 K 80 st (block_words data)
  /\ state_ok (sha512_process st data).
Proof.
  intros [Hst Hw] Hd Hb. split.
  2: { split; [|by apply add_regs_word].
       unfold sha512_process, add_regs. by rewrite length_zip_with, Hst. }
  unfold sha512_process, fips_compress, block_words.
  assert (HW : forall i, i ∈ seq 0 16 ->
    GET_UINT64_BE data (i * 8) = be_combine (take 8 (drop (i * 8) data))
    /\ in_word 64 (GET_UINT64_BE data (i * 8))).
  { intros i Hi%elem_of_seq. apply GET_UINT64_BE_spec; [done|lia]. }
  rewrite (map_ext_in (fun i => be_combine (take 8 (drop (i * 8) data)))
    (fun i => GET_UINT64_BE data (i * 8)))
    by (intros; symmetry; by apply HW, list_elem_of_In).
  set (W := map _ _).
  assert (Wlen : length W = 16%nat) by (unfold W; by rewrite length_map, length_seq).
  assert (Wok : Forall (in_word 64) W).
  { apply List.Forall_map, Forall_forall. intros i Hi. by apply HW. }
  change [0; 8; 16; 24; 32; 40; 48; 56; 64; 72]%nat with (map (fun j => 8 * j)%nat (seq 0 10)).
  change (80 - 16)%nat with 64%nat.
  destruct (sha2_schedule_fips 64 ltac:(lia) S0 S1 sigma0 sigma1 (fun _ _ => eq_refl)
    (fun _ _ => eq_refl) 64 W Wok) as [<- _].
  rewrite (sha2_groups 64 ltac:(lia) S2 S3 F0 F1 Sigma0 Sigma1 (fun _ _ => eq_refl)
    (fun _ _ => eq_refl) sha512_F0_maj sha512_F1_ch).
  - rewrite (fold_zip_nth 64 _ _ _ _ 80); [done| |done].
    by rewrite length_sha2_schedule, Wlen.
  - by apply load_regs_ok.
Qed.

Lemma PUT_UINT64_BE_bytes n : PUT_UINT64_BE n = be_bytes 8 n.
Proof. unfold PUT_UINT64_BE. simpl. by rewrite Z.shiftr_0_r. Qed.

Lemma sha512_H0_ok is384 : state_ok (H0 is384).
Proof.
  unfold H0, sha512_starts. simpl. destruct (is384 =? 0);
    (split; [done|]; apply (bool_decide_unpack _); vm_compute; done).
Qed.

Lemma sha512_update_core chunks ctx :
  fold_left sha512_update chunks ctx
  = Sha512Ctx (fold_left (block_update sha512_process 128 64) chunks (core ctx)) (is384 ctx).
Proof. revert ctx. induction chunks as [|c cs IH]; intros ctx; simpl; [by destruct ctx|by rewrite IH]. Qed.

Lemma sha512_stream buf v384 chunks :
  length buf = 128%nat -> Forall (fun c => bytes c /\ Z.of_nat (length c) < 2 ^ 32) chunks ->
  sha512_finish (fold_left sha512_update chunks (sha512_starts buf v384))
  = sha512_spec v384 (concat chunks).
Proof.
  intros Hbuf Hc. unfold sha512_finish, sha512_spec. rewrite sha512_update_core.
  change (core (sha512_starts buf v384)) with (HashCtx 0 0 (H0 v384) buf).
  cbn [core is384]. change (is384 (sha512_starts buf v384)) with v384.
  rewrite (block_stream sha512_process 128 7 64 (H0 v384) buf chunks sha512_padding); try done.
  2: { eapply Forall_impl; [done|]. intros ? [_ ?]. simpl in *. lia. }
  assert (Habs : forall m, bytes m -> absorb sha512_process 128 (H0 v384) m
    = absorb (fun st b => fips_compress 64 sigma0 sigma1 Sigma0 Sigma1 K 80 st (block_words b))
        128 (H0 v384) m /\ state_ok (absorb sha512_process 128 (H0 v384) m)).
  { intros m Hm. apply (absorb_ext _ _ state_ok); [lia| |apply sha512_H0_ok|done].
    intros. by apply sha512_process_fips. }
  rewrite !(map_ext _ _ PUT_UINT64_BE_bytes).
  destruct (Habs (concat chunks ++ pad 128 64 (concat chunks))) as [<- [Hlen _]].
  - by eapply bytes_padded.
  - set (st := absorb _ _ _ _) in *.
    do 8 (destruct st as [|? st]; [done|]). destruct st; [|done].
    by destruct (v384 =? 0).
Qed.

Lemma sha512_wd_loop_pieces fuel ctx chunk_sz input :
  sha512_wd_loop fuel ctx chunk_sz input
  = fold_left sha512_update (pieces fuel chunk_sz input) ctx.
Proof.
  revert ctx input. induction fuel as [|fuel IH]; intros ctx [|x input]; try done.
  cbn [sha512_wd_loop pieces fold_left]. by rewrite IH.
Qed.

(** [sha384_csum_wd] and [sha512_csum_wd] return SHA-384 and SHA-512 of
    FIPS 180-4 of their input, for every non-zero piece size. *)
Theorem sha512_csum_wd_correct buf input chunk_sz :
  length buf = 128%nat -> bytes input -> Z.of_nat (length input) < 2 ^ 32 ->
  (0 < chunk_sz)%nat ->
  sha384_csum_wd buf input chunk_sz = sha512_spec 1 input
  /\ sha512_csum_wd buf input chunk_sz = sha512_spec 0 input.
Proof.
  intros Hbuf Hb Hl Hc. unfold sha384_csum_wd, sha512_csum_wd.
  rewrite !sha512_wd_loop_pieces, !sha512_stream by (done || by apply bytes_pieces).
  by rewrite concat_pieces.
Qed.

Lemma sha512_csum_wd_correct_witness :
  sha384_csum_wd (replicate 128 0) [97; 98; 99] 2 = sha512_spec 1 [97; 98; 99]
  /\ sha512_csum_wd (replicate 128 0) [97; 98; 99] 2 = sha512_spec 0 [97; 98; 99].
Proof.
  apply (sha512_csum_wd_correct (replicate 128 0) [97; 98; 99] 2);
    [reflexivity|repeat constructor; lia|reflexivity|lia].
Defined.

End Sha512.
