(* ===== verification/Sha1.v ===== *)
(** * SHA-1 and HMAC-SHA-1 (lib/sha1.c)

    The streaming part is [BlockHash]; this file has the compression function
    with its sixteen-word circular message schedule and its renamed registers,
    and shows that it is the function of FIPS 180-4, section 6.1. *)

From S2P Require Import Prelude BlockHash Sha2.

Module Sha1.

Definition sha1_context := hash_ctx (list Z).

Definition GET_UINT32_BE (b : list Z) (i : nat) : Z :=
  (nth i b 0 .<< 24) .| (nth (i + 1) b 0 .<< 16) .| (nth (i + 2) b 0 .<< 8)
  .| nth (i + 3) b 0.

Definition PUT_UINT32_BE (n : Z) : list Z :=
  [u8 (n .>> 24); u8 (n .>> 16); u8 (n .>> 8); u8 n].

Definition sha1_starts (buf : list Z) : sha1_context :=
  HashCtx 0 0 [0x67452301; 0xEFCDAB89; 0x98BADCFE; 0x10325476; 0xC3D2E1F0] buf.

(** [S(x,n)]; [unsigned long] has 32 bits. *)
Definition S_ (x n : Z) : Z := u32 (x .<< n) .| ((x .& 0xFFFFFFFF) .>> (32 - n)).

(** [R(t)]: the word, which also replaces [W[t & 0x0F]]. *)
Definition R_ (W : list Z) (t : nat) : Z * list Z :=
  let temp := nth (Nat.land (t - 3) 15) W 0 ^^ nth (Nat.land (t - 8) 15) W 0
              ^^ nth (Nat.land (t - 14) 15) W 0 ^^ nth (Nat.land t 15) W 0 in
  let v := S_ temp 1 in
  (v, <[Nat.land t 15 := v]> W).

(** The word argument of call [t]. *)
Definition round_word (W : list Z) (t : nat) : Z * list Z :=
  if (t <? 16)%nat then (nth t W 0, W) else R_ W t.

Record sha1_regs := Regs { rA : Z; rB : Z; rC : Z; rD : Z; rE : Z }.

(** [P(a,b,c,d,e,x)]: the new values of [e] and [b]. *)
Definition P_ (F : Z -> Z -> Z -> Z) (K a b c d e x : Z) : Z * Z :=
  (u32 (e + (S_ a 5 + F b c d + K + x)), S_ b 30).

Definition F0 (x y z : Z) : Z := z ^^ (x .& (y ^^ z)).
Definition F1 (x y z : Z) : Z := x ^^ y ^^ z.
Definition F2 (x y z : Z) : Z := (x .& y) .| (z .& (x .| y)).

(** [F] and [K] in force at call [t]. *)
Definition F (t : nat) : Z -> Z -> Z -> Z :=
  if (t <? 20)%nat then F0 else if (t <? 40)%nat then F1
  else if (t <? 60)%nat then F2 else F1.

Definition K (t : nat) : Z :=
  if (t <? 20)%nat then 0x5A827999 else if (t <? 40)%nat then 0x6ED9EBA1
  else if (t <? 60)%nat then 0x8F1BBCDC else 0xCA62C1D6.

(** The five calls for [t .. t+4]; each renames the registers one place on. *)
Definition sha1_group (rW : sha1_regs * list Z) (t : nat) : sha1_regs * list Z :=
  let '(Regs A B C D E, W) := rW in
  let '(x, W) := round_word W t in
  let '(E, B) := P_ (F t) (K t) A B C D E x in
  let '(x, W) := round_word W (t + 1) in
  let '(D, A) := P_ (F t) (K t) E A B C D x in
  let '(x, W) := round_word W (t + 2) in
  let '(C, E) := P_ (F t) (K t) D E A B C x in
  let '(x, W) := round_word W (t + 3) in
  let '(B, D) := P_ (F t) (K t) C D E A B x in
  let '(x, W) := round_word W (t + 4) in
  let '(A, C) := P_ (F t) (K t) B C D E A x in
  (Regs A B C D E, W).

Definition sha1_load (st : list Z) : sha1_regs :=
  Regs (nth 0 st 0) (nth 1 st 0) (nth 2 st 0) (nth 3 st 0) (nth 4 st 0).

Definition sha1_add (st : list Z) (r : sha1_regs) : list Z :=
  zip_with (fun s x => u32 (s + x)) st [rA r; rB r; rC r; rD r; rE r].

Definition sha1_process (st data : list Z) : list Z :=
  let W := map (fun i => GET_UINT32_BE data (4 * i)) (seq 0 16) in
  let '(r, _) := fold_left sha1_group (map (fun j => 5 * j)%nat (seq 0 16)) (sha1_load st, W) in
  sha1_add st r.

Definition sha1_update (ctx : sha1_context) (input : list Z) : sha1_context :=
  block_update sha1_process 64 32 ctx input.

Definition sha1_padding : list Z := 0x80 :: replicate 63 0.

(** The context after the padding of [sha1_finish], and the digest. *)
Definition sha1_final (ctx : sha1_context) : sha1_context :=
  block_finish sha1_process 64 32 sha1_padding ctx.

Definition sha1_finish (ctx : sha1_context) : list Z :=
  concat (map PUT_UINT32_BE (state (sha1_final ctx))).

(** [buf] is what the context's buffer held on the stack. *)
Definition sha1_csum (buf input : list Z) : list Z :=
  sha1_finish (sha1_update (sha1_starts buf) input).

Fixpoint sha1_wd_loop (fuel : nat) (ctx : sha1_context) (chunk_sz : nat)
    (input : list Z) : sha1_context :=
  match fuel, input with
  | S fuel, _ :: _ =>
      let chunk := Nat.min (length input) chunk_sz in
      sha1_wd_loop fuel (sha1_update ctx (take chunk input)) chunk_sz (drop chunk input)
  | _, _ => ctx
  end.

(** The watchdog build; without a watchdog it is [sha1_csum]. *)
Definition sha1_csum_wd (buf input : list Z) (chunk_sz : nat) : list Z :=
  sha1_finish (sha1_wd_loop (length input) (sha1_starts buf) chunk_sz input).

(** [k_ipad[i] ^= key[i]] for [i < keylen] and [i < 64]. *)
Fixpoint xor_key (pad key : list Z) : list Z :=
  match pad, key with
  | p :: pad, x :: key => (p ^^ x) :: xor_key pad key
  | pad, _ => pad
  end.

Definition sha1_hmac (buf key input : list Z) : list Z :=
  let k_ipad := xor_key (replicate 64 0x36) key in
  let k_opad := xor_key (replicate 64 0x5C) key in
  let ctx := sha1_update (sha1_starts buf) k_ipad in
  let ctx := sha1_update ctx input in
  let tmpbuf := sha1_finish ctx in
  let ctx := sha1_update (sha1_starts (buffer (sha1_final ctx))) k_opad in
  sha1_finish (sha1_update ctx tmpbuf).

Example sha1_abc :
  be_combine (sha1_csum (replicate 64 0) [97; 98; 99])
  = 0xa9993e364706816aba3e25717850c26c9cd0d89d.
Proof. vm_compute. reflexivity. Qed.

(** ** FIPS 180-4, section 6.1 *)

Definition rotl (n x : Z) : Z := u32 (x .<< n) .| (x .>> (32 - n)).

Definition fips_f (t : nat) (x y z : Z) : Z :=
  if (t <? 20)%nat then Ch x y z
  else if (t <? 40)%nat then x ^^ y ^^ z
  else if (t <? 60)%nat then Maj x y z
  else x ^^ y ^^ z.

Definition fips_round (W : list Z) (r : sha1_regs) (t : nat) : sha1_regs :=
  let '(Regs a b c d e) := r in
  let T := u32 (rotl 5 a + fips_f t b c d + e + K t + nth t W 0) in
  Regs T a (rotl 30 b) c d.

(** The message schedule, all words kept. *)
Fixpoint fips_schedule (n : nat) (M : list Z) : list Z :=
  match n with
  | O => M
  | S n =>
      let W := fips_schedule n M in
      let t := length W in
      W ++ [rotl 1 (nth (t - 3) W 0 ^^ nth (t - 8) W 0 ^^ nth (t - 14) W 0 ^^ nth (t - 16) W 0)]
  end.

Definition fips_compress (st M : list Z) : list Z :=
  let W := fips_schedule 64 M in
  sha1_add st (fold_left (fips_round W) (seq 0 80) (sha1_load st)).

Definition H0 : list Z := state (sha1_starts []).

Definition sha1_spec (m : list Z) : list Z :=
  let compress st b := fips_compress st (Sha256.block_words b) in
  concat (map (be_bytes 4) (absorb compress 64 H0 (m ++ pad 64 32 m))).

(** RFC 2104 for keys of at most one block. *)
Definition hmac_spec (key m : list Z) : list Z :=
  let xpad c := zip_with Z.lxor (key ++ replicate (64 - length key) 0) (replicate 64 c) in
  sha1_spec (xpad 0x5C ++ sha1_spec (xpad 0x36 ++ m)).

(** ** The code is the standard *)

Lemma S_word x n : in_word 32 x -> S_ x n = rotl n x.
Proof.
  intros Hx. unfold S_, rotl. change 0xFFFFFFFF with (Z.ones 32).
  by rewrite <- wrap_land_ones, (wrap_small 32 x).
Qed.

Lemma rotl_word n x : 0 <= n <= 32 -> in_word 32 x -> in_word 32 (rotl n x).
Proof. intros. unfold rotl. auto with word. Qed.

Lemma F_fips t x y z : F t x y z = fips_f t x y z.
Proof.
  unfold F, fips_f. repeat case_match; try done.
  - unfold F0, Ch. zbits.
  - unfold F2, Maj. zbits.
Qed.

Lemma land_15 t : Nat.land t 15 = (t mod 16)%nat.
Proof. apply (Nat.land_ones t 4). Qed.

Lemma length_fips_schedule n M : length (fips_schedule n M) = (length M + n)%nat.
Proof. induction n; simpl; rewrite ?length_app; simpl; lia. Qed.

Lemma fips_schedule_nth n m M t :
  (n <= m)%nat -> (t < length M + n)%nat ->
  nth t (fips_schedule m M) 0 = nth t (fips_schedule n M) 0.
Proof.
  induction 1 as [|m Hm IH]; intros Ht; [done|]. cbn [fips_schedule].
  rewrite app_nth1 by (rewrite length_fips_schedule; lia). auto.
Qed.

Lemma nth_word l i : Forall (in_word 32) l -> in_word 32 (nth i l 0).
Proof.
  intros Hl. destruct (nth_in_or_default i l 0) as [Hi| ->]; [|done].
  rewrite List.Forall_forall in Hl. auto.
Qed.

Lemma fips_schedule_word n M :
  Forall (in_word 32) M -> Forall (in_word 32) (fips_schedule n M).
Proof.
  intros HM. induction n as [|n IH]; [done|]. cbn [fips_schedule].
  apply Forall_app_2; [done|]. apply Forall_singleton, rotl_word; [lia|].
  repeat apply in_word_lxor; try lia; by apply nth_word.
Qed.

Section Rounds.
Context (M : list Z) (HM : length M = 16%nat) (HMw : Forall (in_word 32) M).
#[local] Abbreviation W := (fips_schedule 64 M).

(** The word of round [t] in terms of earlier words. *)
Lemma schedule_step t :
  (16 <= t < 80)%nat ->
  nth t W 0 = rotl 1 (nth (t - 3) W 0 ^^ nth (t - 8) W 0 ^^ nth (t - 14) W 0 ^^ nth (t - 16) W 0).
Proof.
  intros Ht. rewrite (fips_schedule_nth (S (t - 16)) 64 M t) by lia.
  rewrite !(fips_schedule_nth (t - 16) 64 M (t - _)) by lia. cbn [fips_schedule].
  rewrite app_nth2; rewrite length_fips_schedule; [|lia].
  replace (t - (length M + (t - 16)))%nat with 0%nat by lia. cbn [nth].
  by replace (length M + (t - 16))%nat with t by lia.
Qed.

(** Before call [t] the circular buffer holds the last sixteen words. *)
Definition window (t : nat) (V : list Z) : Prop :=
  length V = 16%nat /\ forall j, (t - 16 <= j < Nat.max t 16)%nat -> nth (j mod 16) V 0 = nth j W 0.

Lemma window_init : window 0 M.
Proof.
  split; [done|]. intros j Hj. rewrite Nat.mod_small by lia.
  by rewrite (fips_schedule_nth 0 64 M) by (simpl; lia).
Qed.

Lemma nth_insert_eq (l : list Z) i v : (i < length l)%nat -> nth i (<[i := v]> l) 0 = v.
Proof. intros. rewrite nth_lookup, list_lookup_insert_eq by done. done. Qed.

Lemma nth_insert_ne (l : list Z) i j v : i <> j -> nth j (<[i := v]> l) 0 = nth j l 0.
Proof. intros. by rewrite !nth_lookup, list_lookup_insert_ne. Qed.

Lemma sha1_round_word_spec t V :
  (t < 80)%nat -> window t V ->
  exists V', round_word V t = (nth t W 0, V') /\ window (t + 1) V'.
Proof.
  intros Ht [HV Hw]. unfold round_word. destruct (Nat.ltb_spec t 16).
  - exists V. split.
    + f_equal. specialize (Hw t ltac:(lia)). by rewrite Nat.mod_small in Hw by lia.
    + split; [done|]. intros j Hj. apply Hw. lia.
  - unfold R_. rewrite !land_15.
    rewrite (Hw (t - 3)%nat), (Hw (t - 8)%nat), (Hw (t - 14)%nat) by lia.
    assert (Hm16 : (t mod 16 = (t - 16) mod 16)%nat).
    { replace t with (t - 16 + 1 * 16)%nat at 1 by lia. apply Nat.Div0.mod_add. }
    rewrite Hm16, (Hw (t - 16)%nat) by lia.
    rewrite S_word, <- schedule_step.
    2: lia.
    2: { pose proof (fips_schedule_word 64 M HMw).
         repeat apply in_word_lxor; try lia; by apply nth_word. }
    eexists. split; [done|]. rewrite <- Hm16.
    pose proof (Nat.mod_upper_bound t 16 ltac:(lia)).
    split; [by rewrite length_insert|]. intros j Hj.
    destruct (decide (j = t)) as [->|Hne].
    + apply nth_insert_eq. lia.
    + rewrite nth_insert_ne; [apply Hw; lia|].
      pose proof (Nat.div_mod_eq j 16). pose proof (Nat.div_mod_eq t 16). lia.
Qed.

Definition regs_ok (r : sha1_regs) : Prop :=
  in_word 32 (rA r) /\ in_word 32 (rB r) /\ in_word 32 (rC r) /\ in_word 32 (rD r)
  /\ in_word 32 (rE r).

Lemma sha1_round_ok r t : regs_ok r -> regs_ok (fips_round W r t).
Proof.
  destruct r as [A B C D E]. unfold regs_ok, fips_round. cbn [rA rB rC rD rE].
  intros (? & ? & ? & ? & ?). split_and!; try done; [auto with word|by apply rotl_word].
Qed.

Lemma sha1_round_P t a b c d e :
  in_word 32 a -> in_word 32 b ->
  fips_round W (Regs a b c d e) t
  = let '(e', b') := P_ (F t) (K t) a b c d e (nth t W 0) in Regs e' a b' c d.
Proof.
  intros Ha Hb. unfold fips_round, P_. rewrite !S_word, F_fips by done.
  do 2 f_equal. lia.
Qed.

(** A group of five calls is five rounds; [F] and [K] change only between
    groups. *)
Lemma sha1_group_spec q r V :
  (q < 16)%nat -> regs_ok r -> window (5 * q) V ->
  exists V', sha1_group (r, V) (5 * q) = (fold_left (fips_round W) (seq (5 * q) 5) r, V')
    /\ window (5 * (q + 1)) V'.
Proof.
  intros Hq Hr Hw. destruct r as [A B C D E]. unfold regs_ok in Hr. cbn [rA rB rC rD rE] in Hr.
  destruct Hr as (HA & HB & HC & HD & HE).
  assert (HF : forall i, (i < 5)%nat -> F (5 * q) = F (5 * q + i) /\ K (5 * q) = K (5 * q + i)).
  { intros i Hi. unfold F, K.
    destruct (Nat.ltb_spec (5 * q) 20), (Nat.ltb_spec (5 * q + i) 20); try lia; try done.
    destruct (Nat.ltb_spec (5 * q) 40), (Nat.ltb_spec (5 * q + i) 40); try lia; try done.
    destruct (Nat.ltb_spec (5 * q) 60), (Nat.ltb_spec (5 * q + i) 60); try lia; done. }
  unfold sha1_group. cbn [seq fold_left].
  replace (5 * (q + 1))%nat with (5 * q + 1 + 1 + 1 + 1 + 1)%nat by lia.
  assert (Hrot : forall x, in_word 32 x -> in_word 32 (S_ x 30)).
  { intros x Hx. rewrite S_word by done. by apply rotl_word. }
  destruct (sha1_round_word_spec (5 * q) V) as (V1 & -> & Hw1); [lia|done|].
  destruct (sha1_round_word_spec (5 * q + 1) V1) as (V2 & -> & Hw2); [lia|done|].
  destruct (sha1_round_word_spec (5 * q + 2) V2) as (V3 & -> & Hw3);
    [lia|by replace (5 * q + 2)%nat with (5 * q + 1 + 1)%nat by lia|].
  destruct (sha1_round_word_spec (5 * q + 3) V3) as (V4 & -> & Hw4);
    [lia|by replace (5 * q + 3)%nat with (5 * q + 2 + 1)%nat by lia|].
  destruct (sha1_round_word_spec (5 * q + 4) V4) as (V5 & -> & Hw5);
    [lia|by replace (5 * q + 4)%nat with (5 * q + 3 + 1)%nat by lia|].
  exists V5. split; [|by replace (5 * q + 1 + 1 + 1 + 1 + 1)%nat with (5 * q + 4 + 1)%nat by lia].
  replace (S (5 * q)) with (5 * q + 1)%nat by lia.
  replace (S (5 * q + 1)) with (5 * q + 2)%nat by lia.
  replace (S (5 * q + 2)) with (5 * q + 3)%nat by lia.
  replace (S (5 * q + 3)) with (5 * q + 4)%nat by lia.
  pose proof (HF 1%nat ltac:(lia)) as [F1' K1']. pose proof (HF 2%nat ltac:(lia)) as [F2' K2'].
  pose proof (HF 3%nat ltac:(lia)) as [F3' K3']. pose proof (HF 4%nat ltac:(lia)) as [F4' K4'].
  rewrite sha1_round_P by done. unfold P_ at 6.
  rewrite sha1_round_P by auto with word. rewrite <- F1', <- K1'. unfold P_ at 6.
  rewrite sha1_round_P by auto with word. rewrite <- F2', <- K2'. unfold P_ at 6.
  rewrite sha1_round_P by auto with word. rewrite <- F3', <- K3'. unfold P_ at 6.
  rewrite sha1_round_P by auto with word. rewrite <- F4', <- K4'. done.
Qed.

Lemma sha1_groups_spec n r :
  (n <= 16)%nat -> regs_ok r ->
  exists V', fold_left sha1_group (map (fun j => 5 * j)%nat (seq 0 n)) (r, M)
             = (fold_left (fips_round W) (seq 0 (5 * n)) r, V')
    /\ window (5 * n) V' /\ regs_ok (fold_left (fips_round W) (seq 0 (5 * n)) r).
Proof.
  intros Hn Hr. induction n as [|n IH].
  - exists M. split; [done|]. split; [apply window_init|done].
  - destruct IH as (V & E & Hw & Hok); [lia|].
    rewrite seq_S, map_app, fold_left_app, E. cbn [map fold_left].
    destruct (sha1_group_spec n _ V ltac:(lia) Hok Hw) as (V' & E' & Hw').
    exists V'. replace (5 * S n)%nat with (5 * n + 5)%nat by lia.
    rewrite seq_app, fold_left_app. split; [exact E'|].
    split; [by replace (5 * n + 5)%nat with (5 * (n + 1))%nat by lia|].
    rewrite Nat.add_0_l. revert Hok. generalize (fold_left (fips_round W) (seq 0 (5 * n)) r).
    cbn [seq fold_left]. intros r' Hok. by repeat apply sha1_round_ok.
Qed.
End Rounds.

Definition state_ok (st : list Z) : Prop := length st = 5%nat /\ Forall (in_word 32) st.

Lemma sha1_load_ok st : state_ok st -> regs_ok (sha1_load st).
Proof.
  intros [Hst Hst']. unfold regs_ok, sha1_load. cbn [rA rB rC rD rE].
  split_and!; by apply nth_word.
Qed.

Lemma sha1_add_ok st r : state_ok st -> state_ok (sha1_add st r).
Proof.
  intros [Hl Hw]. unfold sha1_add. split; [by rewrite length_zip_with, Hl|].
  generalize [rA r; rB r; rC r; rD r; rE r] as l. clear Hl Hw.
  induction st as [|x st IH]; intros [|y l]; simpl; auto with word.
Qed.

Lemma sha1_process_fips st data :
  state_ok st -> length data = 64%nat -> bytes data ->
  sha1_process st data = fips_compress st (Sha256.block_words data).
Proof.
  intros Hst Hd Hb. unfold sha1_process, fips_compress, Sha256.block_words.
  assert (HW : forall i, i ∈ seq 0 16 ->
    GET_UINT32_BE data (4 * i) = be_combine (take 4 (drop (4 * i) data))
    /\ in_word 32 (GET_UINT32_BE data (4 * i))).
  { intros i Hi%elem_of_seq. apply Sha256.GET_UINT32_BE_spec; [done|lia]. }
  rewrite (map_ext_in (fun i => be_combine (take 4 (drop (4 * i) data)))
    (fun i => GET_UINT32_BE data (4 * i)))
    by (intros; symmetry; by apply HW, list_elem_of_In).
  set (W := map (fun i => GET_UINT32_BE data (4 * i)) (seq 0 16)).
  assert (Wlen : length W = 16%nat) by (unfold W; by rewrite length_map, length_seq).
  assert (Wok : Forall (in_word 32) W).
  { apply List.Forall_map, Forall_forall. intros i Hi. by apply HW. }
  destruct (sha1_groups_spec W Wlen Wok 16 (sha1_load st)) as (V & E & _);
    [lia|by apply sha1_load_ok|].
  by rewrite E.
Qed.

Lemma sha1_H0_ok : state_ok H0.
Proof. split; [done|]. apply (bool_decide_unpack _). vm_compute. done. Qed.

Lemma sha1_stream buf chunks :
  length buf = 64%nat -> Forall (fun c => bytes c /\ Z.of_nat (length c) < 2 ^ 32) chunks ->
  sha1_finish (fold_left sha1_update chunks (sha1_starts buf)) = sha1_spec (concat chunks).
Proof.
  intros Hbuf Hc. unfold sha1_finish, sha1_final, sha1_spec.
  change (fold_left sha1_update chunks (sha1_starts buf))
    with (fold_left (block_update sha1_process 64 32) chunks (HashCtx 0 0 H0 buf)).
  rewrite (block_stream sha1_process 64 6 32 H0 buf chunks sha1_padding); try done.
  - f_equal. rewrite (map_ext _ _ Sha256.PUT_UINT32_BE_bytes). f_equal.
    apply (absorb_ext _ _ state_ok); [lia| |apply sha1_H0_ok|].
    + intros st b Hst Hb Hlen. rewrite sha1_process_fips by done.
      split; [done|]. by apply sha1_add_ok.
    + by eapply bytes_padded.
  - eapply Forall_impl; [done|]. by intros ? [_ ?].
Qed.

Lemma sha1_wd_loop_pieces fuel ctx chunk_sz input :
  sha1_wd_loop fuel ctx chunk_sz input
  = fold_left sha1_update (pieces fuel chunk_sz input) ctx.
Proof.
  revert ctx input. induction fuel as [|fuel IH]; intros ctx [|x input]; try done.
  cbn [sha1_wd_loop pieces fold_left]. by rewrite IH.
Qed.

(** [sha1_csum] and, for every non-zero piece size, [sha1_csum_wd] return
    SHA-1 of FIPS 180-4 of their input. *)
Theorem sha1_csum_wd_correct buf input chunk_sz :
  length buf = 64%nat -> bytes input -> Z.of_nat (length input) < 2 ^ 32 ->
  (0 < chunk_sz)%nat ->
  sha1_csum_wd buf input chunk_sz = sha1_spec input /\ sha1_csum buf input = sha1_spec input.
Proof.
  intros Hbuf Hb Hl Hc. split.
  - unfold sha1_csum_wd. rewrite sha1_wd_loop_pieces, sha1_stream.
    + by rewrite concat_pieces.
    + done.
    + by apply bytes_pieces.
  - unfold sha1_csum. etransitivity; [apply (sha1_stream buf [input] Hbuf)|].
    + by rewrite Forall_singleton.
    + simpl. by rewrite app_nil_r.
Qed.

Lemma sha1_csum_wd_correct_witness :
  sha1_csum_wd (replicate 64 0) [97; 98; 99] 2 = sha1_spec [97; 98; 99]
  /\ sha1_csum (replicate 64 0) [97; 98; 99] = sha1_spec [97; 98; 99].
Proof.
  apply (sha1_csum_wd_correct (replicate 64 0) [97; 98; 99] 2);
    [reflexivity|repeat constructor; lia|reflexivity|lia].
Defined.

(** ** HMAC *)

Lemma length_xor_key pad key : length (xor_key pad key) = length pad.
Proof. revert key. induction pad; intros [|]; simpl; auto. Qed.

Lemma xor_key_bytes pad key : bytes pad -> bytes key -> bytes (xor_key pad key).
Proof.
  intros Hp. revert key. induction Hp as [|p pad Hp Hps IH]; intros key Hk; simpl.
  - by destruct key.
  - destruct key as [|x key]; [by constructor|].
    apply Forall_cons in Hk as [? ?]. constructor; [auto with word|auto].
Qed.

Lemma xor_key_spec n c key :
  (length key <= n)%nat ->
  xor_key (replicate n c) key
  = zip_with Z.lxor (key ++ replicate (n - length key) 0) (replicate n c).
Proof.
  revert key. induction n as [|n IH]; intros key Hl.
  - destruct key; [done|simpl in Hl; lia].
  - destruct key as [|x key]; cbn [replicate xor_key length app zip_with].
    + rewrite Nat.sub_0_r. cbn [replicate zip_with].
      specialize (IH [] ltac:(simpl; lia)). cbn [length app] in IH.
      rewrite Nat.sub_0_r in IH. rewrite <- IH. by destruct (replicate n c).
    + simpl in Hl. rewrite Z.lxor_comm, IH by lia. done.
Qed.

Lemma sha1_spec_bytes m : bytes (sha1_spec m).
Proof.
  apply Forall_concat, List.Forall_map, Forall_forall. intros. apply be_bytes_bytes.
Qed.

Lemma length_absorb (f : list Z -> list Z -> list Z) B st m :
  (forall s b, length s = 5%nat -> length (f s b) = 5%nat) ->
  length st = 5%nat -> length (absorb f B st m) = 5%nat.
Proof.
  intros Hf. unfold absorb. generalize (blocks B (nblocks B m) m) as l. intros l. revert st.
  induction l; simpl; auto.
Qed.

Lemma length_sha1_spec m : length (sha1_spec m) = 20%nat.
Proof.
  unfold sha1_spec. set (l := absorb _ _ _ _).
  assert (Hl : length l = 5%nat).
  { apply length_absorb; [|done]. intros s b Hs. unfold fips_compress, sha1_add.
    by rewrite length_zip_with, Hs. }
  do 5 (destruct l as [|? l]; [done|]). by destruct l.
Qed.

Lemma sha1_update_buffer buf chunks :
  length buf = 64%nat -> Forall (fun c => Z.of_nat (length c) < 2 ^ 32) chunks ->
  length (buffer (sha1_final (fold_left sha1_update chunks (sha1_starts buf)))) = 64%nat.
Proof.
  intros Hbuf Hc.
  destruct (block_stream_represents sha1_process 64 6 32 H0 buf chunks sha1_padding)
    as (_ & _ & _ & ? & _); done.
Qed.

(** For a key of at most 64 bytes [sha1_hmac] is HMAC-SHA-1 of RFC 2104. *)
Theorem sha1_hmac_correct buf key input :
  length buf = 64%nat -> bytes key -> (length key <= 64)%nat ->
  bytes input -> Z.of_nat (length input) < 2 ^ 32 ->
  sha1_hmac buf key input = hmac_spec key input.
Proof.
  intros Hbuf Hk Hkl Hb Hl. unfold sha1_hmac, hmac_spec.
  rewrite <- !xor_key_spec by done.
  assert (Hpad : forall c, byte c -> bytes (xor_key (replicate 64 c) key)
     /\ Z.of_nat (length (xor_key (replicate 64 c) key)) < 2 ^ 32).
  { intros c Hc. rewrite length_xor_key. split; [|done].
    apply xor_key_bytes; [by apply Forall_replicate|done]. }
  pose proof (Hpad 0x36 ltac:(done)) as Hi. pose proof (Hpad 0x5C ltac:(done)) as Ho.
  set (ip := xor_key (replicate 64 0x36) key) in *.
  set (op := xor_key (replicate 64 0x5C) key) in *.
  change (sha1_update (sha1_update (sha1_starts buf) ip) input)
    with (fold_left sha1_update [ip; input] (sha1_starts buf)).
  assert (Hc1 : Forall (fun c => bytes c /\ Z.of_nat (length c) < 2 ^ 32) [ip; input])
    by (constructor; [done|]; constructor; [done|apply Forall_nil_2]).
  assert (Hbuf2 := sha1_update_buffer buf [ip; input] Hbuf
    ltac:(eapply Forall_impl; [exact Hc1|]; by intros ? [_ ?])).
  rewrite sha1_stream by done.
  set (buf2 := buffer _) in *.
  change (sha1_update (sha1_update (sha1_starts buf2) op) ?t)
    with (fold_left sha1_update [op; t] (sha1_starts buf2)).
  rewrite sha1_stream; [|done|].
  - cbn [concat]. by rewrite !app_nil_r.
  - constructor; [done|]. constructor; [|apply Forall_nil_2].
    split; [apply sha1_spec_bytes|]. by rewrite length_sha1_spec.
Qed.

Lemma sha1_hmac_correct_witness :
  sha1_hmac (replicate 64 0) [1; 2] [97; 98; 99] = hmac_spec [1; 2] [97; 98; 99].
Proof.
  apply sha1_hmac_correct; [reflexivity|repeat constructor; lia|simpl; lia
    |repeat constructor; lia|reflexivity].
Defined.

End Sha1.
