(* ===== verification/Md5.v ===== *)
(** * MD5 (lib/md5.c)

    Unlike the SHA code, [MD5Update] copies every block into the context before
    it is compressed, counts bits, and [MD5Final] pads in place.  The chaining
    part of [BlockHash] ([absorb], [leftover]) is reused for the specification. *)

From S2P Require Import Prelude BlockHash.

Module Md5.

Record MD5Context := Ctx {
  buf : list Z;       (* __u32 buf[4] *)
  bits0 : Z;          (* bits[0] *)
  bits1 : Z;          (* bits[1] *)
  inb : list Z;       (* the union: unsigned char in[64], __u32 in32[16] *)
}.

(** One turn of [byteReverse]: the word read byte by byte is stored as the
    little-endian target stores it. *)
Fixpoint byteReverse (b : list Z) (longs : nat) : list Z :=
  match longs, b with
  | S longs, b0 :: b1 :: b2 :: b3 :: b =>
      let t := u32 ((b3 .<< 8 .| b2) .<< 16) .| (b1 .<< 8 .| b0) in
      le_bytes 4 t ++ byteReverse b longs
  | _, b => b
  end.

(** The union read as [in32]. *)
Definition in32 (b : list Z) (i : nat) : Z := le_combine (take 4 (drop (4 * i) b)).

Definition F1 (x y z : Z) : Z := z ^^ (x .& (y ^^ z)).
Definition F2 (x y z : Z) : Z := F1 z x y.
Definition F3 (x y z : Z) : Z := x ^^ y ^^ z.
Definition F4 (x y z : Z) : Z := y ^^ (x .| u32 (Z.lnot z)).

Definition MD5STEP (f : Z -> Z -> Z -> Z) (w x y z data s : Z) : Z :=
  let w := u32 (w + (f x y z + data)) in
  let w := u32 (w .<< s) .| (w .>> (32 - s)) in
  u32 (w + x).

(** The arguments [in[k] + K, s] of the 64 calls. *)
Definition calls : list (nat * Z * Z) :=
  [(0%nat, 0xd76aa478, 7); (1%nat, 0xe8c7b756, 12); (2%nat, 0x242070db, 17); (3%nat, 0xc1bdceee, 22);
   (4%nat, 0xf57c0faf, 7); (5%nat, 0x4787c62a, 12); (6%nat, 0xa8304613, 17); (7%nat, 0xfd469501, 22);
   (8%nat, 0x698098d8, 7); (9%nat, 0x8b44f7af, 12); (10%nat, 0xffff5bb1, 17); (11%nat, 0x895cd7be, 22);
   (12%nat, 0x6b901122, 7); (13%nat, 0xfd987193, 12); (14%nat, 0xa679438e, 17); (15%nat, 0x49b40821, 22);
   (1%nat, 0xf61e2562, 5); (6%nat, 0xc040b340, 9); (11%nat, 0x265e5a51, 14); (0%nat, 0xe9b6c7aa, 20);
   (5%nat, 0xd62f105d, 5); (10%nat, 0x02441453, 9); (15%nat, 0xd8a1e681, 14); (4%nat, 0xe7d3fbc8, 20);
   (9%nat, 0x21e1cde6, 5); (14%nat, 0xc33707d6, 9); (3%nat, 0xf4d50d87, 14); (8%nat, 0x455a14ed, 20);
   (13%nat, 0xa9e3e905, 5); (2%nat, 0xfcefa3f8, 9); (7%nat, 0x676f02d9, 14); (12%nat, 0x8d2a4c8a, 20);
   (5%nat, 0xfffa3942, 4); (8%nat, 0x8771f681, 11); (11%nat, 0x6d9d6122, 16); (14%nat, 0xfde5380c, 23);
   (1%nat, 0xa4beea44, 4); (4%nat, 0x4bdecfa9, 11); (7%nat, 0xf6bb4b60, 16); (10%nat, 0xbebfbc70, 23);
   (13%nat, 0x289b7ec6, 4); (0%nat, 0xeaa127fa, 11); (3%nat, 0xd4ef3085, 16); (6%nat, 0x04881d05, 23);
   (9%nat, 0xd9d4d039, 4); (12%nat, 0xe6db99e5, 11); (15%nat, 0x1fa27cf8, 16); (2%nat, 0xc4ac5665, 23);
   (0%nat, 0xf4292244, 6); (7%nat, 0x432aff97, 10); (14%nat, 0xab9423a7, 15); (5%nat, 0xfc93a039, 21);
   (12%nat, 0x655b59c3, 6); (3%nat, 0x8f0ccc92, 10); (10%nat, 0xffeff47d, 15); (1%nat, 0x85845dd1, 21);
   (8%nat, 0x6fa87e4f, 6); (15%nat, 0xfe2ce6e0, 10); (6%nat, 0xa3014314, 15); (13%nat, 0x4e0811a1, 21);
   (4%nat, 0xf7537e82, 6); (11%nat, 0xbd3af235, 10); (2%nat, 0x2ad7d2bb, 15); (9%nat, 0xeb86d391, 21)].

(** The macro argument [f] of the calls of row [q] (four calls a row). *)
Definition row_f (q : nat) : Z -> Z -> Z -> Z :=
  if (q <? 4)%nat then F1 else if (q <? 8)%nat then F2 else if (q <? 12)%nat then F3 else F4.

(** One call: the word, the constant and the shift come from the table. *)
Definition call (q i : nat) (inw : nat -> Z) (w x y z : Z) : Z :=
  let '(k, K, s) := nth (4 * q + i) calls (0%nat, 0, 0) in
  MD5STEP (row_f q) w x y z (u32 (inw k + K)) s.

(** Four calls; each assigns one register and the roles rotate. *)
Definition row (inw : nat -> Z) (r : Z * Z * Z * Z) (q : nat) : Z * Z * Z * Z :=
  let '(a, b, c, d) := r in
  let a := call q 0 inw a b c d in
  let d := call q 1 inw d a b c in
  let c := call q 2 inw c d a b in
  let b := call q 3 inw b c d a in
  (a, b, c, d).

Definition MD5Transform (buf : list Z) (inw : nat -> Z) : list Z :=
  let '(a, b, c, d) :=
    fold_left (row inw) (seq 0 16) (nth 0 buf 0, nth 1 buf 0, nth 2 buf 0, nth 3 buf 0) in
  [u32 (nth 0 buf 0 + a); u32 (nth 1 buf 0 + b); u32 (nth 2 buf 0 + c); u32 (nth 3 buf 0 + d)].

Definition MD5Init (inb0 : list Z) : MD5Context :=
  Ctx [0x67452301; 0xefcdab89; 0x98badcfe; 0x10325476] 0 0 inb0.

(** [byteReverse(ctx->in, 16); MD5Transform(ctx->buf, ctx->in)] on a block. *)
Definition transform_block (st b : list Z) : list Z * list Z :=
  let b := byteReverse b 16 in (MD5Transform st (in32 b), b).

Fixpoint update_loop (fuel : nat) (st inb b : list Z) : list Z * list Z :=
  match fuel with
  | O => (st, inb)
  | S fuel =>
      if (64 <=? length b)%nat then
        let inb := memcpy inb 0 (take 64 b) in
        let '(st, inb) := transform_block st inb in
        update_loop fuel st inb (drop 64 b)
      else (st, memcpy inb 0 b)
  end.

Definition MD5Update (ctx : MD5Context) (b : list Z) : MD5Context :=
  let len := Z.of_nat (length b) in
  let t := bits0 ctx in
  let b0 := u32 (t + u32 (len .<< 3)) in
  let b1 := if b0 <? t then u32 (bits1 ctx + 1) else bits1 ctx in
  let b1 := u32 (b1 + (len .>> 29)) in
  let t := Z.to_nat ((t .>> 3) .& 0x3f) in
  if (t =? 0)%nat then
    let '(st, inb) := update_loop (S (length b)) (buf ctx) (inb ctx) b in
    Ctx st b0 b1 inb
  else
    let p := t in
    let t := (64 - t)%nat in
    if (length b <? t)%nat then Ctx (buf ctx) b0 b1 (memcpy (inb ctx) p b)
    else
      let '(st, inb) := transform_block (buf ctx) (memcpy (inb ctx) p (take t b)) in
      let b := drop t b in
      let '(st, inb) := update_loop (S (length b)) st inb b in
      Ctx st b0 b1 inb.

(** The digest; the context is cleared afterwards. *)
Definition MD5Final (ctx : MD5Context) : list Z :=
  let count := Z.to_nat ((bits0 ctx .>> 3) .& 0x3F) in
  let inb := memcpy (inb ctx) count [0x80] in
  let p := (count + 1)%nat in
  let count := (64 - 1 - count)%nat in
  let '(st, inb) :=
    if (count <? 8)%nat then
      let inb := memcpy inb p (replicate count 0) in
      let '(st, inb) := transform_block (buf ctx) inb in
      (st, memcpy inb 0 (replicate 56 0))
    else (buf ctx, memcpy inb p (replicate (count - 8) 0)) in
  let inb := byteReverse inb 14 in
  let inb := memcpy inb 56 (le_bytes 4 (bits0 ctx)) in
  let inb := memcpy inb 60 (le_bytes 4 (bits1 ctx)) in
  let st := MD5Transform st (in32 inb) in
  byteReverse (concat (map (le_bytes 4) st)) 4.

Definition md5 (inb0 input : list Z) : list Z := MD5Final (MD5Update (MD5Init inb0) input).

Fixpoint md5_wd_loop (fuel : nat) (ctx : MD5Context) (chunk_sz : nat) (input : list Z)
    : MD5Context :=
  match fuel, input with
  | S fuel, _ :: _ =>
      let chunk := Nat.min (length input) chunk_sz in
      md5_wd_loop fuel (MD5Update ctx (take chunk input)) chunk_sz (drop chunk input)
  | _, _ => ctx
  end.

(** The watchdog build; without a watchdog it is [md5]. *)
Definition md5_wd (inb0 input : list Z) (chunk_sz : nat) : list Z :=
  MD5Final (md5_wd_loop (length input) (MD5Init inb0) chunk_sz input).

Example md5_abc :
  be_combine (md5 (replicate 64 7) [97; 98; 99]) = 0x900150983cd24fb0d6963f7d28e17f72.
Proof. vm_compute. reflexivity. Qed.

Example md5_long :
  be_combine (md5_wd (replicate 64 7) (replicate 200 97) 77) = 0x887f30b43b2867f4a9accceee7d16e6c.
Proof. vm_compute. reflexivity. Qed.

(** ** RFC 1321 *)

Definition rotl (n x : Z) : Z := u32 (x .<< n) .| (x .>> (32 - n)).

Definition rfc_f (i : nat) (x y z : Z) : Z :=
  if (i <? 16)%nat then (x .& y) .| (Z.lnot x .& z)
  else if (i <? 32)%nat then (x .& z) .| (y .& Z.lnot z)
  else if (i <? 48)%nat then x ^^ y ^^ z
  else y ^^ (x .| u32 (Z.lnot z)).

(** The word used in step [i], its shift, and its constant, which the standard
    takes from a table of sines. *)
Definition rfc_k (i : nat) : nat :=
  if (i <? 16)%nat then i
  else if (i <? 32)%nat then (5 * i + 1) mod 16
  else if (i <? 48)%nat then (3 * i + 5) mod 16
  else (7 * i) mod 16.

Definition rfc_s (i : nat) : Z :=
  nth (4 * (i / 16) + i mod 4)%nat [7; 12; 17; 22; 5; 9; 14; 20; 4; 11; 16; 23; 6; 10; 15; 21] 0.

Definition rfc_T (i : nat) : Z := (nth i calls (0%nat, 0, 0)).1.2.

Definition rfc_step (X : nat -> Z) (r : Z * Z * Z * Z) (i : nat) : Z * Z * Z * Z :=
  let '(a, b, c, d) := r in
  (d, u32 (b + rotl (rfc_s i) (u32 (a + rfc_f i b c d + X (rfc_k i) + rfc_T i))), b, c).

Definition rfc_compress (st b : list Z) : list Z :=
  let '(a, b, c, d) := fold_left (rfc_step (in32 b)) (seq 0 64)
    (nth 0 st 0, nth 1 st 0, nth 2 st 0, nth 3 st 0) in
  [u32 (nth 0 st 0 + a); u32 (nth 1 st 0 + b); u32 (nth 2 st 0 + c); u32 (nth 3 st 0 + d)].

Definition md5_pad (m : list Z) : list Z :=
  0x80 :: replicate (pad_zeros 64 32 m) 0 ++ le_bytes 8 (8 * Z.of_nat (length m)).

Definition init : list Z := buf (MD5Init []).

Definition md5_spec (m : list Z) : list Z :=
  concat (map (le_bytes 4) (absorb rfc_compress 64 init (m ++ md5_pad m))).

(** ** The steps *)

Lemma row_f_rfc q i x y z : (q < 16)%nat -> (i < 4)%nat -> row_f q x y z = rfc_f (4 * q + i) x y z.
Proof.
  intros Hq Hi. unfold row_f, rfc_f.
  destruct (Nat.ltb_spec q 4), (Nat.ltb_spec (4 * q + i) 16); try lia.
  { unfold F1. zbits. }
  destruct (Nat.ltb_spec q 8), (Nat.ltb_spec (4 * q + i) 32); try lia.
  { unfold F2, F1. zbits. }
  by destruct (Nat.ltb_spec q 12), (Nat.ltb_spec (4 * q + i) 48); try lia.
Qed.

(** The table lists words and shifts in the order of the standard. *)
Lemma calls_rfc i : (i < 64)%nat -> nth i calls (0%nat, 0, 0) = (rfc_k i, rfc_T i, rfc_s i).
Proof.
  intros Hi. assert (Hall : Forall (fun i => nth i calls (0%nat, 0, 0)
    = (rfc_k i, rfc_T i, rfc_s i)) (seq 0 64)) by (apply (bool_decide_unpack _); vm_compute; done).
  rewrite Forall_forall in Hall. apply Hall, elem_of_seq. lia.
Qed.

Lemma call_rfc q i X w x y z :
  (q < 16)%nat -> (i < 4)%nat ->
  call q i X w x y z
  = u32 (x + rotl (rfc_s (4 * q + i)) (u32 (w + rfc_f (4 * q + i) x y z
                                            + X (rfc_k (4 * q + i)) + rfc_T (4 * q + i)))).
Proof.
  intros Hq Hi. unfold call. rewrite calls_rfc by lia. unfold MD5STEP, rotl.
  rewrite (row_f_rfc q i) by done. rewrite (Z.add_comm x), Z.add_assoc, wrap_add_r.
  by rewrite Z.add_assoc.
Qed.

Lemma row_rfc X r q :
  (q < 16)%nat -> row X r q = fold_left (rfc_step X) (seq (4 * q) 4) r.
Proof.
  intros Hq. destruct r as [[[a b] c] d]. unfold row. rewrite !call_rfc by lia.
  cbn [seq fold_left]. unfold rfc_step.
  replace (4 * q + 0)%nat with (4 * q)%nat by lia.
  replace (4 * q + 1)%nat with (S (4 * q)) by lia.
  replace (4 * q + 2)%nat with (S (S (4 * q))) by lia.
  replace (4 * q + 3)%nat with (S (S (S (4 * q)))) by lia. done.
Qed.

Lemma rows_rfc X n r :
  (n <= 16)%nat -> fold_left (row X) (seq 0 n) r = fold_left (rfc_step X) (seq 0 (4 * n)) r.
Proof.
  induction n as [|n IH]; intros Hn; [done|].
  rewrite seq_S, fold_left_app, IH by lia. replace (4 * S n)%nat with (4 * n + 4)%nat by lia.
  rewrite seq_app, fold_left_app. cbn [fold_left Nat.add]. by apply row_rfc.
Qed.

Lemma MD5Transform_rfc st b : MD5Transform st (in32 b) = rfc_compress st b.
Proof. unfold MD5Transform, rfc_compress. by rewrite rows_rfc by lia. Qed.

(** ** Byte order *)

(** On this target [byteReverse] changes nothing. *)
Lemma byteReverse_id b longs : bytes b -> byteReverse b longs = b.
Proof.
  revert b. induction longs as [|n IH]; intros b Hb; [by destruct b|].
  destruct b as [|b0 [|b1 [|b2 [|b3 b]]]]; try done. cbn [byteReverse].
  rewrite !Forall_cons in Hb. destruct Hb as (H0 & H1 & H2 & H3 & Hb). rewrite IH by done.
  unfold le_bytes. cbn [seq map app].
  change (8 * Z.of_nat 0) with 0. change (8 * Z.of_nat 1) with 8.
  change (8 * Z.of_nat 2) with 16. change (8 * Z.of_nat 3) with 24.
  f_equal; [zbits|]. f_equal; [zbits|]. f_equal; [zbits|]. f_equal. zbits.
Qed.

Lemma le_bytes_split n :
  le_bytes 8 n = le_bytes 4 (u32 n) ++ le_bytes 4 (u32 (n / 2 ^ 32)).
Proof.
  rewrite <- Z.shiftr_div_pow2 by lia. unfold le_bytes. cbn [seq map app].
  change (8 * Z.of_nat 0) with 0. change (8 * Z.of_nat 1) with 8.
  change (8 * Z.of_nat 2) with 16. change (8 * Z.of_nat 3) with 24.
  change (8 * Z.of_nat 4) with 32. change (8 * Z.of_nat 5) with 40.
  change (8 * Z.of_nat 6) with 48. change (8 * Z.of_nat 7) with 56.
  do 8 (apply (f_equal2 cons); [zbits|]). done.
Qed.

Lemma memcpy_app pre rest src off :
  length pre = off -> memcpy (pre ++ rest) off src = pre ++ src ++ drop (length src) rest.
Proof.
  intros <-. unfold memcpy. rewrite take_app_length. do 2 f_equal.
  rewrite drop_app_ge by lia. f_equal. lia.
Qed.

(** ** Streaming *)

#[local] Opaque rfc_compress.

(** The compression of a byte block as the code calls it. *)
#[local] Abbreviation chain := (absorb rfc_compress 64).
#[local] Abbreviation rest := (leftover 64).

Lemma transform_block_spec st b : bytes b -> transform_block st b = (rfc_compress st b, b).
Proof. intros Hb. unfold transform_block. by rewrite byteReverse_id, MD5Transform_rfc. Qed.

Lemma bytes_memcpy dst off src : bytes dst -> bytes src -> bytes (memcpy dst off src).
Proof.
  intros. unfold memcpy. repeat apply Forall_app_2; [by apply Forall_take|done|by apply Forall_drop].
Qed.

Lemma update_loop_spec fuel st inb b :
  (length b < fuel)%nat -> length inb = 64%nat -> bytes inb -> bytes b ->
  exists inb', update_loop fuel st inb b = (chain st b, inb') /\ length inb' = 64%nat
    /\ bytes inb' /\ take (length b mod 64) inb' = rest b.
Proof.
  revert st inb b. induction fuel as [|fuel IH]; intros st inb b Hf Hl Hi Hb; [lia|].
  cbn [update_loop]. destruct (Nat.leb_spec 64 (length b)) as [Hge|Hlt].
  - assert (Hblk : length (take 64 b) = 64%nat) by (rewrite length_take; lia).
    replace (memcpy inb 0 (take 64 b)) with (take 64 b)
      by (unfold memcpy; rewrite drop_ge by lia; by rewrite app_nil_r).
    rewrite transform_block_spec by (by apply Forall_take).
    destruct (IH (rfc_compress st (take 64 b)) (take 64 b) (drop 64 b)) as (inb' & E & H1 & H2 & H3);
      [rewrite length_drop; lia|done|by apply Forall_take|by apply Forall_drop|].
    destruct (absorb_block rfc_compress 64 6 32 st (take 64 b) (drop 64 b) Hblk) as [Ea Er].
    rewrite take_drop in Ea, Er. exists inb'. rewrite E, Ea, Er. split_and!; try done.
    rewrite <- H3, length_drop. f_equal.
    replace (length b) with (length b - 64 + 1 * 64)%nat at 1 by lia. apply Nat.Div0.mod_add.
  - destruct (absorb_short rfc_compress 64 6 st b Hlt) as [-> ->].
    exists (memcpy inb 0 b). rewrite Nat.mod_small by lia. split_and!; [done| | |].
    + rewrite length_memcpy; lia.
    + by apply bytes_memcpy.
    + apply (take_memcpy inb 0 b). lia.
Qed.

Definition represents (ctx : MD5Context) (m : list Z) : Prop :=
  let n := 8 * Z.of_nat (length m) in
  bits0 ctx = u32 n /\ bits1 ctx = u32 (n / 2 ^ 32) /\ buf ctx = chain init m
  /\ length (inb ctx) = 64%nat /\ bytes (inb ctx)
  /\ take (length m mod 64) (inb ctx) = rest m.

Lemma bits_fill (m : list Z) :
  Z.to_nat ((u32 (8 * Z.of_nat (length m)) .>> 3) .& 0x3f) = (length m mod 64)%nat.
Proof.
  change 0x3f with (Z.ones 6).
  replace (8 * Z.of_nat (length m)) with (Z.of_nat (length m) .<< 3)
    by (rewrite Z.shiftl_mul_pow2; lia).
  replace ((u32 (Z.of_nat (length m) .<< 3) .>> 3) .& Z.ones 6)
    with (wrap 6 (Z.of_nat (length m))) by zbits.
  unfold wrap. change (2 ^ 6) with (Z.of_nat 64). rewrite <- Nat2Z.inj_mod. apply Nat2Z.id.
Qed.

Lemma bits_carry n l :
  0 <= n -> 0 <= l < 2 ^ 32 ->
  let t := u32 (8 * n) in
  let b0 := u32 (t + u32 (l .<< 3)) in
  b0 = u32 (8 * (n + l))
  /\ u32 ((if b0 <? t then u32 (u32 (8 * n / 2 ^ 32) + 1) else u32 (8 * n / 2 ^ 32)) + (l .>> 29))
     = u32 (8 * (n + l) / 2 ^ 32).
Proof.
  intros Hn Hl. cbn zeta. rewrite Z.shiftl_mul_pow2, Z.shiftr_div_pow2 by lia.
  change (2 ^ 3) with 8. rewrite wrap_add_r, wrap_add_l.
  replace (8 * n + l * 8) with (8 * (n + l)) by lia. split; [done|].
  replace (l / 2 ^ 29) with (8 * l / 2 ^ 32)
    by (change (2 ^ 32) with (8 * 2 ^ 29); by rewrite Z.div_mul_cancel_l).
  replace (8 * (n + l)) with (8 * n + 8 * l) by lia.
  generalize (8 * n) (8 * l) (Z.le_refl (8 * n)). intros x y _.
  pose proof (Z.div_mod x (2 ^ 32) ltac:(lia)) as Hx. pose proof (Z.div_mod y (2 ^ 32) ltac:(lia)) as Hy.
  pose proof (Z.div_mod (x + y) (2 ^ 32) ltac:(lia)) as Hxy. unfold wrap.
  pose proof (Z.mod_pos_bound x (2 ^ 32) ltac:(lia)). pose proof (Z.mod_pos_bound y (2 ^ 32) ltac:(lia)).
  pose proof (Z.mod_pos_bound (x + y) (2 ^ 32) ltac:(lia)).
  destruct (Z.ltb_spec ((x + y) mod 2 ^ 32) (x mod 2 ^ 32));
    rewrite ?Zplus_mod_idemp_l, <- ?Z.add_assoc, ?Zplus_mod_idemp_l; f_equal; nia.
Qed.

Lemma MD5Update_represents ctx m x :
  represents ctx m -> bytes x -> Z.of_nat (length x) < 2 ^ 32 ->
  represents (MD5Update ctx x) (m ++ x).
Proof.
  intros (H0 & H1 & Hst & Hl & Hi & Ht) Hx Hxl. unfold MD5Update.
  rewrite H0, H1, Hst, bits_fill.
  destruct (bits_carry (Z.of_nat (length m)) (Z.of_nat (length x))) as [E0 E1]; [lia..|].
  cbn zeta in E0, E1. rewrite E1, E0. clear E0 E1.
  rewrite <- Nat2Z.inj_add, <- length_app.
  destruct (absorb_app rfc_compress 64 6 32 init m x) as [Ea Er].
  pose proof (length_leftover 64 6 32 m) as Hr.
  pose proof (Nat.mod_upper_bound (length m) 64 ltac:(lia)) as Hlt.
  assert (Hmod : (length (m ++ x) mod 64 = length (rest m ++ x) mod 64)%nat).
  { rewrite !length_app, Hr. symmetry. apply Nat.Div0.add_mod_idemp_l. }
  unfold represents. rewrite Hmod, Ea, Er.
  destruct (Nat.eqb_spec (length m mod 64) 0) as [Hz|Hz].
  - destruct (rest m) eqn:Em; [|cbn [length] in Hr; lia]. cbn [app].
    destruct (update_loop_spec (S (length x)) (chain init m) (inb ctx) x)
      as (inb' & -> & ? & ? & ?); [lia|done..|].
    cbn [bits0 bits1 buf inb]. split_and!; done.
  - destruct (Nat.ltb_spec (length x) (64 - length m mod 64)) as [Hshort|Hlong].
    + destruct (absorb_short rfc_compress 64 6 (chain init m) (rest m ++ x)) as [-> ->];
        [rewrite length_app; lia|].
      cbn [bits0 bits1 buf inb]. split_and!; try done.
      * rewrite length_memcpy; lia.
      * by apply bytes_memcpy.
      * rewrite Nat.mod_small, length_app, Hr by (rewrite length_app; lia).
        rewrite take_memcpy by lia. by rewrite Ht.
    + set (k := (64 - length m mod 64)%nat).
      rewrite memcpy_full by (rewrite length_take; lia). rewrite Ht.
      assert (Hblk : length (rest m ++ take k x) = 64%nat)
        by (rewrite length_app, length_take; lia).
      assert (Hb : bytes (rest m ++ take k x)).
      { apply Forall_app_2; [rewrite <- Ht|]; by apply Forall_take. }
      rewrite transform_block_spec by done.
      destruct (absorb_block rfc_compress 64 6 32 (chain init m) (rest m ++ take k x) (drop k x) Hblk)
        as [Eb Erb].
      rewrite <- app_assoc, take_drop in Eb, Erb. rewrite Eb, Erb.
      destruct (update_loop_spec (S (length (drop k x))) (rfc_compress (chain init m) (rest m ++ take k x))
        (rest m ++ take k x) (drop k x)) as (inb' & -> & ? & ? & Hrest);
        [lia|done|done|by apply Forall_drop|].
      cbn [bits0 bits1 buf inb]. split_and!; try done. rewrite <- Hrest. f_equal.
      rewrite length_app, length_drop, Hr.
      replace (length m mod 64 + length x)%nat with (length x - k + 1 * 64)%nat by lia.
      apply Nat.Div0.mod_add.
Qed.

(** One complete block on top of [st]. *)
Lemma chain_block st b : length b = 64%nat -> chain st b = rfc_compress st b.
Proof.
  intros Hb. destruct (absorb_block rfc_compress 64 6 32 st b [] Hb) as [E _].
  rewrite app_nil_r in E. rewrite E.
  refine (proj1 (absorb_short rfc_compress 64 6 (rfc_compress st b) [] _)). cbn [length]. lia.
Qed.

Lemma bytes_zeros n : bytes (replicate n 0).
Proof. by apply Forall_replicate. Qed.

(** The end of [MD5Final]: the length goes behind 56 bytes. *)
Lemma final_block pre tl lo hi :
  length pre = 56%nat -> length tl = 8%nat -> bytes pre -> bytes tl ->
  memcpy (memcpy (byteReverse (pre ++ tl) 14) 56 (le_bytes 4 lo)) 60 (le_bytes 4 hi)
  = pre ++ le_bytes 4 lo ++ le_bytes 4 hi.
Proof.
  intros Hp Ht Hbp Hbt. rewrite byteReverse_id by (by apply Forall_app_2).
  rewrite memcpy_app, length_le_bytes by done. rewrite app_assoc, memcpy_app.
  2: { rewrite length_app, length_le_bytes. lia. }
  rewrite drop_drop, length_le_bytes, drop_ge by lia. by rewrite app_nil_r, <- app_assoc.
Qed.

Lemma MD5Final_spec ctx m :
  represents ctx m -> MD5Final ctx = md5_spec m.
Proof.
  intros (H0 & H1 & Hst & Hl & Hi & Ht). unfold MD5Final, md5_spec, md5_pad.
  rewrite H0, H1, Hst, bits_fill, le_bytes_split.
  assert (Hdig : forall st, byteReverse (concat (map (le_bytes 4) st)) 4
     = concat (map (le_bytes 4) st)).
  { intros st. apply byteReverse_id, Forall_concat, List.Forall_map, Forall_forall.
    intros. apply le_bytes_bytes. }
  destruct (absorb_app rfc_compress 64 6 32 init m (md5_pad m)) as [Ea _].
  unfold md5_pad in Ea. rewrite le_bytes_split in Ea. rewrite Ea. clear Ea.
  pose proof (length_leftover 64 6 32 m) as Hr.
  pose proof (Nat.mod_upper_bound (length m) 64 ltac:(lia)) as Hlt.
  pose proof (pad_zeros_code 64 6 32 m) as Hz. cbn zeta in Hz.
  change (Z.to_nat (32 / 8)) with 4%nat in Hz. cbn [Nat.mul Nat.add Nat.sub] in Hz.
  set (c := (length m mod 64)%nat) in *.
  assert (Hsplit : inb ctx = rest m ++ drop c (inb ctx)) by (by rewrite <- Ht, take_drop).
  assert (Hrb : bytes (rest m)) by (rewrite <- Ht; by apply Forall_take).
  assert (HR : bytes (drop c (inb ctx))) by (by apply Forall_drop).
  assert (HRl : length (drop c (inb ctx)) = (64 - c)%nat) by (rewrite length_drop; lia).
  set (R := drop c (inb ctx)) in *. rewrite Hsplit.
  rewrite memcpy_app by done. cbn [length]. rewrite app_assoc.
  set (lo := u32 (8 * Z.of_nat (length m))). set (hi := u32 (8 * Z.of_nat (length m) / 2 ^ 32)).
  assert (Hpre : bytes (rest m ++ [0x80])) by (apply Forall_app_2; [done|by repeat constructor]).
  assert (Hprel : length (rest m ++ [0x80]) = (c + 1)%nat) by (rewrite length_app; simpl; lia).
  rewrite !(memcpy_app _ (drop 1 R)) by done. rewrite !length_replicate, !drop_drop.
  destruct (Nat.ltb_spec (64 - 1 - c) 8) as [Hc|Hc].
  - destruct (Nat.ltb_spec c 56); [lia|].
    rewrite (drop_ge R) by lia. rewrite app_nil_r.
    set (b1 := (rest m ++ [0x80]) ++ replicate (64 - 1 - c) 0).
    assert (Hb1 : bytes b1) by (apply Forall_app_2; [done|apply bytes_zeros]).
    assert (Hb1l : length b1 = 64%nat) by (unfold b1; rewrite length_app, length_replicate; lia).
    rewrite transform_block_spec, Hdig by done. do 2 f_equal. unfold memcpy at 3. rewrite take_0, length_replicate.
    cbn [app]. rewrite MD5Transform_rfc, final_block;
      [|by rewrite length_replicate|rewrite length_drop; lia|apply bytes_zeros|by apply Forall_drop].
    replace (pad_zeros 64 32 m) with ((64 - 1 - c) + 56)%nat by lia. rewrite replicate_add.
    replace (rest m ++ _) with (b1 ++ (replicate 56 0 ++ le_bytes 4 lo ++ le_bytes 4 hi))
      by (unfold b1; by rewrite <- !app_assoc).
    destruct (absorb_block rfc_compress 64 6 32 (chain init m) b1
      (replicate 56 0 ++ le_bytes 4 lo ++ le_bytes 4 hi) Hb1l) as [-> _].
    rewrite (chain_block (rfc_compress _ b1)); [done|]. by rewrite !length_app, length_replicate, !length_le_bytes.
  - destruct (Nat.ltb_spec c 56); [|lia]. rewrite Hdig. do 2 f_equal.
    rewrite app_assoc, MD5Transform_rfc, final_block.
    + replace (64 - 1 - c - 8)%nat with (pad_zeros 64 32 m) by lia.
      rewrite <- !app_assoc. cbn [app]. rewrite (chain_block (chain init m)); [done|].
      rewrite length_app. cbn [length]. rewrite !length_app, length_replicate, !length_le_bytes. lia.
    + rewrite length_app, length_replicate. lia.
    + rewrite length_drop. lia.
    + apply Forall_app_2; [done|apply bytes_zeros].
    + by apply Forall_drop.
Qed.

Lemma md5_stream inb0 chunks :
  length inb0 = 64%nat -> bytes inb0 ->
  Forall (fun c => bytes c /\ Z.of_nat (length c) < 2 ^ 32) chunks ->
  MD5Final (fold_left MD5Update chunks (MD5Init inb0)) = md5_spec (concat chunks).
Proof.
  intros Hl Hi Hc. apply MD5Final_spec.
  assert (Hfeed : forall ctx m, represents ctx m ->
    represents (fold_left MD5Update chunks ctx) (m ++ concat chunks)).
  { induction Hc as [|c cs [Hb Hcl] _ IH]; intros ctx m HR; simpl.
    - by rewrite app_nil_r.
    - rewrite app_assoc. by apply IH, MD5Update_represents. }
  apply (Hfeed _ []). by repeat split.
Qed.

Lemma md5_wd_loop_pieces fuel ctx chunk_sz input :
  md5_wd_loop fuel ctx chunk_sz input = fold_left MD5Update (pieces fuel chunk_sz input) ctx.
Proof.
  revert ctx input. induction fuel as [|fuel IH]; intros ctx [|x input]; try done.
  cbn [md5_wd_loop pieces fold_left]. by rewrite IH.
Qed.

(** [md5] and, for every non-zero piece size, [md5_wd] return the digest of
    RFC 1321, whatever the context's buffer held before. *)
Theorem md5_wd_correct inb0 input chunk_sz :
  length inb0 = 64%nat -> bytes inb0 -> bytes input -> Z.of_nat (length input) < 2 ^ 31 ->
  (0 < chunk_sz)%nat ->
  md5_wd inb0 input chunk_sz = md5_spec input /\ md5 inb0 input = md5_spec input.
Proof.
  intros Hl Hi Hb Hlen Hc. split.
  - unfold md5_wd. rewrite md5_wd_loop_pieces, md5_stream.
    + by rewrite concat_pieces.
    + done.
    + done.
    + apply bytes_pieces; [done|lia].
  - unfold md5. etransitivity; [apply (md5_stream inb0 [input] Hl Hi)|].
    + rewrite Forall_singleton. split; [done|lia].
    + simpl. by rewrite app_nil_r.
Qed.

Lemma md5_wd_correct_witness :
  md5_wd (replicate 64 7) [97; 98; 99] 2 = md5_spec [97; 98; 99]
  /\ md5 (replicate 64 7) [97; 98; 99] = md5_spec [97; 98; 99].
Proof.
  apply (md5_wd_correct (replicate 64 7) [97; 98; 99] 2);
    [reflexivity|by apply Forall_replicate|repeat constructor; lia|reflexivity|lia].
Defined.

End Md5.
