(* ===== verification/Lmb.v ===== *)
(** * Logical memory blocks (lib/lmb.c, include/lmb.h)

    The boot loader's record of which physical memory exists and which of it
    is taken while an image is booted.  A region table is a counter and an
    array of [MAX_LMB_REGIONS + 1] blocks, kept sorted by base address.

    Addresses and sizes are [unsigned long], 32 bits on this target; the array
    is a list of exactly nine entries of which the first [cnt] are in use, and
    an access outside the array is [None]. *)

From S2P Require Import Prelude.

Module Lmb.

Definition MAX_LMB_REGIONS : Z := 8.

Definition LMB_ALLOC_ANYWHERE : Z := 0.

Record lmb_property := Block { base : Z; size : Z }.

#[export] Instance lmb_property_eq_dec : EqDecision lmb_property.
Proof. solve_decision. Defined.

Record lmb_region := Region {
  cnt : Z;                       (* unsigned long *)
  rsize : Z;                     (* phys_size_t size *)
  region : list lmb_property;    (* region[MAX_LMB_REGIONS + 1] *)
}.

Record lmb := Lmb { memory : lmb_region; reserved : lmb_region }.

(** [rgn->region[i] = p] and the reads of [rgn->region[i]]. *)
Definition get_region (rgn : lmb_region) (i : Z) : option lmb_property :=
  if i <? 0 then None else region rgn !! Z.to_nat i.

Definition set_region (rgn : lmb_region) (i : Z) (p : lmb_property) : option lmb_region :=
  if decide (0 <= i < Z.of_nat (length (region rgn)))
  then Some (Region (cnt rgn) (rsize rgn) (<[Z.to_nat i := p]> (region rgn)))
  else None.

Definition set_cnt (rgn : lmb_region) (n : Z) : lmb_region :=
  Region n (rsize rgn) (region rgn).

Definition lmb_addrs_overlap (base1 size1 base2 size2 : Z) : bool :=
  (base1 <? u32 (base2 + size2)) && (base2 <? u32 (base1 + size1)).

Definition lmb_addrs_adjacent (base1 size1 base2 size2 : Z) : Z :=
  if base2 =? u32 (base1 + size1) then 1
  else if base1 =? u32 (base2 + size2) then -1
  else 0.

Definition lmb_regions_adjacent (rgn : lmb_region) (r1 r2 : Z) : option Z :=
  p1 ← get_region rgn r1;
  p2 ← get_region rgn r2;
  Some (lmb_addrs_adjacent (base p1) (size p1) (base p2) (size p2)).

(** [for (i = r; i < rgn->cnt - 1; i++) rgn->region[i] = rgn->region[i + 1];].
    Past the ninth entry the accesses leave the array, so ten turns are
    enough to end the loop or to leave the array. *)
Fixpoint remove_loop (fuel : nat) (rgn : lmb_region) (i : Z) : option lmb_region :=
  match fuel with
  | O => None
  | S fuel =>
      if i <? u32 (cnt rgn - 1) then
        p ← get_region rgn (i + 1);
        rgn ← set_region rgn i p;
        remove_loop fuel rgn (i + 1)
      else Some rgn
  end.

Definition lmb_remove_region (rgn : lmb_region) (r : Z) : option lmb_region :=
  rgn ← remove_loop 10 rgn r;
  Some (set_cnt rgn (u32 (cnt rgn - 1))).

Definition lmb_coalesce_regions (rgn : lmb_region) (r1 r2 : Z) : option lmb_region :=
  p1 ← get_region rgn r1;
  p2 ← get_region rgn r2;
  rgn ← set_region rgn r1 (Block (base p1) (u32 (size p1 + size p2)));
  lmb_remove_region rgn r2.

(** [lmb_init] writes the first entry and the counters; the other entries keep
    what the memory held. *)
Definition lmb_init_region (old : list lmb_property) : lmb_region :=
  Region 1 0 (<[0%nat := Block 0 0]> old).

Definition lmb_init (old_memory old_reserved : list lmb_property) : lmb :=
  Lmb (lmb_init_region old_memory) (lmb_init_region old_reserved).

(** The loop that looks for a block to extend: it ends because the new block
    is already there, because block [i] was extended, or at [i = cnt]. *)
Inductive scan :=
  | ScanPresent
  | ScanStopped (i : Z) (coalesced : Z) (rgn : lmb_region).

Fixpoint add_scan (fuel : nat) (rgn : lmb_region) (i b s : Z) : option scan :=
  match fuel with
  | O => None
  | S fuel =>
      if i <? cnt rgn then
        p ← get_region rgn i;
        if (base p =? b) && (size p =? s) then Some ScanPresent else
        let adjacent := lmb_addrs_adjacent b s (base p) (size p) in
        if 0 <? adjacent then
          rgn ← set_region rgn i (Block (u32 (base p - s)) (u32 (size p + s)));
          Some (ScanStopped i 1 rgn)
        else if adjacent <? 0 then
          rgn ← set_region rgn i (Block (base p) (u32 (size p + s)));
          Some (ScanStopped i 1 rgn)
        else add_scan fuel rgn (i + 1) b s
      else Some (ScanStopped i 0 rgn)
  end.

(** [for (i = rgn->cnt-1; i >= 0; i--)], with [n = i + 1]. *)
Fixpoint add_insert (n : nat) (rgn : lmb_region) (b s : Z) : option lmb_region :=
  match n with
  | O => Some rgn
  | S i =>
      p ← get_region rgn (Z.of_nat i);
      if b <? base p then
        rgn ← set_region rgn (Z.of_nat i + 1) p;
        add_insert i rgn b s
      else set_region rgn (Z.of_nat i + 1) (Block b s)
  end.

(** The sorted insertion at the end of [lmb_add_region]. *)
Definition add_sorted (rgn : lmb_region) (b s : Z) : option (Z * lmb_region) :=
  rgn ← add_insert (Z.to_nat (cnt rgn)) rgn b s;
  p0 ← get_region rgn 0;
  rgn ← (if b <? base p0 then set_region rgn 0 (Block b s) else Some rgn);
  Some (0, set_cnt rgn (u32 (cnt rgn + 1))).

(** The part after the scan, which stopped at [i]. *)
Definition add_finish (rgn : lmb_region) (i coalesced b s : Z) : option (Z * lmb_region) :=
  adj ← (if i <? u32 (cnt rgn - 1) then lmb_regions_adjacent rgn i (i + 1) else Some 0);
  '(coalesced, rgn) ←
    (if negb (adj =? 0) then
       rgn ← lmb_coalesce_regions rgn i (i + 1);
       Some (coalesced + 1, rgn)
     else Some (coalesced, rgn));
  if negb (coalesced =? 0) then Some (coalesced, rgn)
  else if MAX_LMB_REGIONS <=? cnt rgn then Some (-1, rgn)
  else add_sorted rgn b s.

(** The result is the C return value and the table. *)
Definition lmb_add_region (rgn : lmb_region) (b s : Z) : option (Z * lmb_region) :=
  p0 ← get_region rgn 0;
  if (cnt rgn =? 1) && (size p0 =? 0) then
    rgn ← set_region rgn 0 (Block b s);
    Some (0, rgn)
  else
  sc ← add_scan 10 rgn 0 b s;
  match sc with
  | ScanPresent => Some (0, rgn)
  | ScanStopped i coalesced rgn => add_finish rgn i coalesced b s
  end.

Definition lmb_add (l : lmb) (b s : Z) : option (Z * lmb) :=
  '(r, rgn) ← lmb_add_region (memory l) b s;
  Some (r, Lmb rgn (reserved l)).

Definition lmb_reserve (l : lmb) (b s : Z) : option (Z * lmb) :=
  '(r, rgn) ← lmb_add_region (reserved l) b s;
  Some (r, Lmb (memory l) rgn).

(** The search loop of [lmb_free]: the index and the block that contains
    [[b, fin)]. *)
Fixpoint free_scan (fuel : nat) (rgn : lmb_region) (i b fin : Z)
    : option (option (Z * lmb_property)) :=
  match fuel with
  | O => None
  | S fuel =>
      if i <? cnt rgn then
        p ← get_region rgn i;
        if (base p <=? b) && (fin <=? u32 (base p + size p)) then Some (Some (i, p))
        else free_scan fuel rgn (i + 1) b fin
      else Some None
  end.

Definition lmb_free_region (rgn : lmb_region) (b s : Z) : option (Z * lmb_region) :=
  let fin := u32 (b + s) in
  found ← free_scan 10 rgn 0 b fin;
  match found with
  | None => Some (-1, rgn)
  | Some (i, p) =>
      let rgnbegin := base p in
      let rgnend := u32 (base p + size p) in
      if (rgnbegin =? b) && (rgnend =? fin) then
        rgn ← lmb_remove_region rgn i; Some (0, rgn)
      else if rgnbegin =? b then
        rgn ← set_region rgn i (Block fin (u32 (size p - s))); Some (0, rgn)
      else if rgnend =? fin then
        rgn ← set_region rgn i (Block (base p) (u32 (size p - s))); Some (0, rgn)
      else
        rgn ← set_region rgn i (Block (base p) (u32 (b - base p)));
        lmb_add_region rgn fin (u32 (rgnend - fin))
  end.

Definition lmb_free (l : lmb) (b s : Z) : option (Z * lmb) :=
  '(r, rgn) ← lmb_free_region (reserved l) b s;
  Some (r, Lmb (memory l) rgn).

Fixpoint overlaps_loop (fuel : nat) (rgn : lmb_region) (i b s : Z) : option Z :=
  match fuel with
  | O => None
  | S fuel =>
      if i <? cnt rgn then
        p ← get_region rgn i;
        if lmb_addrs_overlap b s (base p) (size p) then Some i
        else overlaps_loop fuel rgn (i + 1) b s
      else Some (-1)
  end.

Definition lmb_overlaps_region (rgn : lmb_region) (b s : Z) : option Z :=
  overlaps_loop 10 rgn 0 b s.

Definition lmb_align_down (addr s : Z) : Z := addr .& u32 (Z.lnot (s - 1)).

Definition lmb_align_up (addr s : Z) : Z := u32 (addr + (s - 1)) .& u32 (Z.lnot (s - 1)).

(** The [while] loop of [__lmb_alloc_base] inside one memory block: [Some a]
    when the function returns [a] from it, [None] when the loop ends and the
    next memory block is tried. *)
Fixpoint alloc_while (fuel : nat) (rsv : lmb_region) (lmbbase s align b : Z)
    : option (option (Z * lmb_region)) :=
  match fuel with
  | O => None
  | S fuel =>
      if negb (b =? 0) && (lmbbase <=? b) then
        j ← lmb_overlaps_region rsv b s;
        if j <? 0 then
          '(r, rsv') ← lmb_add_region rsv b (lmb_align_up s align);
          Some (Some (if r <? 0 then 0 else b, rsv'))
        else
          p ← get_region rsv j;
          if base p <? s then Some None
          else alloc_while fuel rsv lmbbase s align (lmb_align_down (base p - s) align)
      else Some None
  end.

(** [for (i = lmb->memory.cnt-1; i >= 0; i--)], with [n = i + 1]. *)
Fixpoint alloc_for (n : nat) (l : lmb) (s align max_addr : Z) : option (Z * lmb) :=
  match n with
  | O => Some (0, l)
  | S i =>
      p ← get_region (memory l) (Z.of_nat i);
      let lmbbase := base p in
      let lmbsize := size p in
      if lmbsize <? s then alloc_for i l s align max_addr else
      if (max_addr =? LMB_ALLOC_ANYWHERE) || (lmbbase <? max_addr) then
        let b :=
          if max_addr =? LMB_ALLOC_ANYWHERE
          then lmb_align_down (u32 (lmbbase + lmbsize - s)) align
          else lmb_align_down
                 (u32 (Z.min (u32 (lmbbase + lmbsize)) max_addr - s)) align in
        w ← alloc_while 10 (reserved l) lmbbase s align b;
        match w with
        | Some (a, rsv) => Some (a, Lmb (memory l) rsv)
        | None => alloc_for i l s align max_addr
        end
      else alloc_for i l s align max_addr
  end.

(** [__lmb_alloc_base]: the address, 0 for failure. *)
Definition __lmb_alloc_base (l : lmb) (s align max_addr : Z) : option (Z * lmb) :=
  alloc_for (Z.to_nat (cnt (memory l))) l s align max_addr.

(** [lmb_alloc_base] and [lmb_alloc] add a message on failure. *)
Definition lmb_alloc_base (l : lmb) (s align max_addr : Z) : option (Z * lmb) :=
  __lmb_alloc_base l s align max_addr.

Definition lmb_alloc (l : lmb) (s align : Z) : option (Z * lmb) :=
  lmb_alloc_base l s align LMB_ALLOC_ANYWHERE.

Fixpoint is_reserved_loop (fuel : nat) (rgn : lmb_region) (i addr : Z) : option Z :=
  match fuel with
  | O => None
  | S fuel =>
      if i <? cnt rgn then
        p ← get_region rgn i;
        let upper := u32 (base p + size p - 1) in
        if (base p <=? addr) && (addr <=? upper) then Some 1
        else is_reserved_loop fuel rgn (i + 1) addr
      else Some 0
  end.

Definition lmb_is_reserved (l : lmb) (addr : Z) : option Z :=
  is_reserved_loop 10 (reserved l) 0 addr.

(** ** The table as a list of blocks *)

#[local] Ltac mlia := unfold MAX_LMB_REGIONS in *; lia.

Definition wf_array (rgn : lmb_region) : Prop :=
  length (region rgn) = 9%nat /\ 0 <= cnt rgn <= MAX_LMB_REGIONS.

Definition active (rgn : lmb_region) : list lmb_property :=
  take (Z.to_nat (cnt rgn)) (region rgn).

Lemma length_active rgn : wf_array rgn -> Z.of_nat (length (active rgn)) = cnt rgn.
Proof. intros [Hl Hc]. unfold active. rewrite length_take, Hl. mlia. Qed.

Lemma get_region_active rgn i :
  wf_array rgn -> 0 <= i < cnt rgn -> get_region rgn i = active rgn !! Z.to_nat i.
Proof.
  intros [Hl Hc] Hi. unfold get_region, active.
  destruct (Z.ltb_spec i 0); [mlia|]. by rewrite lookup_take_lt by mlia.
Qed.

Lemma get_region_Some rgn i :
  wf_array rgn -> 0 <= i <= MAX_LMB_REGIONS -> exists p, get_region rgn i = Some p.
Proof.
  intros [Hl Hc] Hi. unfold get_region. destruct (Z.ltb_spec i 0); [mlia|].
  apply lookup_lt_is_Some. unfold MAX_LMB_REGIONS in *. mlia.
Qed.

Lemma set_region_spec rgn i p :
  wf_array rgn -> 0 <= i <= MAX_LMB_REGIONS ->
  exists rgn', set_region rgn i p = Some rgn' /\ wf_array rgn' /\ cnt rgn' = cnt rgn
    /\ region rgn' = <[Z.to_nat i := p]> (region rgn).
Proof.
  intros [Hl Hc] Hi. unfold set_region, MAX_LMB_REGIONS in *.
  rewrite decide_True by mlia. eexists. split; [done|]. repeat split; simpl; try mlia.
  by rewrite length_insert.
Qed.

(** Overwriting a block in use is an update of the list. *)
Lemma set_region_active rgn i p :
  wf_array rgn -> 0 <= i < cnt rgn ->
  exists rgn', set_region rgn i p = Some rgn' /\ wf_array rgn' /\ cnt rgn' = cnt rgn
    /\ active rgn' = <[Z.to_nat i := p]> (active rgn).
Proof.
  intros Hwf Hi. pose proof Hwf as [_ Hc].
  destruct (set_region_spec rgn i p) as (rgn' & E & Hwf' & Hcnt & Hreg); [done|mlia|].
  exists rgn'. repeat split; try done; try apply Hwf'.
  unfold active. rewrite Hcnt, Hreg. by rewrite take_insert_lt by mlia.
Qed.

Lemma set_cnt_wf rgn n : wf_array rgn -> 0 <= n <= MAX_LMB_REGIONS -> wf_array (set_cnt rgn n).
Proof. by intros [? _]. Qed.

(** [remove_loop] shifts the blocks behind [i] down by one. *)
Lemma remove_loop_spec fuel rgn i :
  wf_array rgn -> 0 <= i -> i < cnt rgn -> (Z.to_nat (cnt rgn - i) <= fuel)%nat ->
  exists rgn', remove_loop fuel rgn i = Some rgn' /\ length (region rgn') = 9%nat
    /\ cnt rgn' = cnt rgn
    /\ forall j, region rgn' !! j =
         if decide (i <= Z.of_nat j < cnt rgn - 1) then region rgn !! S j else region rgn !! j.
Proof.
  revert rgn i. induction fuel as [|fuel IH]; intros rgn i Hwf Hi Hic Hf; [mlia|].
  pose proof Hwf as [Hl Hc]. cbn [remove_loop]. unfold MAX_LMB_REGIONS in *.
  rewrite (wrap_small 32 (cnt rgn - 1)) by (split; mlia).
  destruct (Z.ltb_spec i (cnt rgn - 1)) as [Hlt|Hge].
  - destruct (get_region_Some rgn (i + 1)) as [p Hp]; [done|mlia|].
    rewrite Hp. cbn [mbind option_bind].
    destruct (set_region_spec rgn i p) as (rgn' & -> & Hwf' & Hcnt & Hreg);
      [done|mlia|]. cbn [mbind option_bind].
    destruct (IH rgn' (i + 1)) as (rgn'' & -> & Hl'' & Hc'' & Hlook); [done|mlia|mlia|mlia|].
    exists rgn''. repeat split; [done|congruence|]. intros j. rewrite Hlook, Hcnt, Hreg.
    assert (HSi : region rgn !! S (Z.to_nat i) = Some p).
    { unfold get_region in Hp. destruct (Z.ltb_spec (i + 1) 0); [mlia|].
      by replace (Z.to_nat (i + 1)) with (S (Z.to_nat i)) in Hp by mlia. }
    destruct (decide (j = Z.to_nat i)) as [->|Hj].
    + rewrite decide_False, decide_True by mlia. rewrite list_lookup_insert_eq by mlia. done.
    + destruct (decide (i + 1 <= Z.of_nat j < cnt rgn - 1)).
      * rewrite decide_True by mlia. by rewrite list_lookup_insert_ne by mlia.
      * rewrite decide_False by mlia. by rewrite list_lookup_insert_ne by mlia.
  - exists rgn. repeat split; [done|]. intros j. by rewrite decide_False by mlia.
Qed.

Lemma lmb_remove_region_spec rgn i :
  wf_array rgn -> 0 <= i < cnt rgn ->
  exists rgn', lmb_remove_region rgn i = Some rgn' /\ wf_array rgn'
    /\ active rgn' = delete (Z.to_nat i) (active rgn).
Proof.
  intros Hwf Hi. pose proof Hwf as [Hl Hc]. unfold lmb_remove_region, MAX_LMB_REGIONS in *.
  destruct (remove_loop_spec 10 rgn i) as (rgn' & -> & Hl' & Hc' & Hlook); [done|mlia..|].
  cbn [mbind option_bind]. rewrite Hc', (wrap_small 32) by (split; mlia).
  eexists. split; [done|]. split; [split; simpl; [done|mlia]|].
  unfold active, set_cnt. cbn [cnt region]. apply list_eq. intros j.
  destruct (decide (j < Z.to_nat (cnt rgn - 1))%nat) as [Hj|Hj].
  - rewrite lookup_take_lt, Hlook by mlia.
    destruct (decide (j < Z.to_nat i)%nat).
    + rewrite list_lookup_delete_lt, lookup_take_lt by mlia. by rewrite decide_False by mlia.
    + rewrite list_lookup_delete_ge, lookup_take_lt by mlia. by rewrite decide_True by mlia.
  - rewrite lookup_take_ge by mlia. symmetry. apply lookup_ge_None.
    rewrite length_delete; rewrite ?length_take; [mlia|].
    apply lookup_lt_is_Some. rewrite length_take. mlia.
Qed.

Lemma active_split rgn i :
  wf_array rgn -> 0 <= i < cnt rgn ->
  exists l1 p l2, active rgn = l1 ++ p :: l2 /\ length l1 = Z.to_nat i
    /\ get_region rgn i = Some p.
Proof.
  intros Hwf Hi. pose proof (length_active rgn Hwf) as Hl.
  destruct (lookup_lt_is_Some_2 (active rgn) (Z.to_nat i)) as [p Hp]; [lia|].
  exists (take (Z.to_nat i) (active rgn)), p, (drop (S (Z.to_nat i)) (active rgn)).
  split; [by rewrite take_drop_middle|]. split; [rewrite length_take; lia|].
  by rewrite get_region_active.
Qed.

Lemma delete_middle' {A} (l1 l2 : list A) x : delete (length l1) (l1 ++ x :: l2) = l1 ++ l2.
Proof. by rewrite delete_middle. Qed.

Lemma set_region_middle rgn i l1 p l2 q :
  wf_array rgn -> active rgn = l1 ++ p :: l2 -> Z.of_nat (length l1) = i ->
  exists rgn', set_region rgn i q = Some rgn' /\ wf_array rgn' /\ cnt rgn' = cnt rgn
    /\ active rgn' = l1 ++ q :: l2.
Proof.
  intros Hwf Hact Hlen. pose proof (length_active rgn Hwf) as Hl.
  rewrite Hact, length_app in Hl. cbn [length] in Hl.
  destruct (set_region_active rgn i q) as (rgn' & E & ? & ? & Ha); [done|lia|].
  exists rgn'. repeat split; try done; try apply H. rewrite Ha, Hact.
  rewrite <- Hlen, Nat2Z.id. apply insert_middle.
Qed.

Lemma lmb_remove_middle rgn i l1 p l2 :
  wf_array rgn -> active rgn = l1 ++ p :: l2 -> Z.of_nat (length l1) = i ->
  exists rgn', lmb_remove_region rgn i = Some rgn' /\ wf_array rgn' /\ active rgn' = l1 ++ l2.
Proof.
  intros Hwf Hact Hlen. pose proof (length_active rgn Hwf) as Hl.
  rewrite Hact, length_app in Hl. cbn [length] in Hl.
  destruct (lmb_remove_region_spec rgn i) as (rgn' & E & ? & Ha); [done|lia|].
  exists rgn'. repeat split; try done; try apply H. rewrite Ha, Hact.
  rewrite <- Hlen, Nat2Z.id. apply delete_middle'.
Qed.

Lemma get_region_middle rgn i l1 p l2 :
  wf_array rgn -> active rgn = l1 ++ p :: l2 -> Z.of_nat (length l1) = i ->
  get_region rgn i = Some p.
Proof.
  intros Hwf Hact Hlen. pose proof (length_active rgn Hwf) as Hl.
  rewrite Hact, length_app in Hl. cbn [length] in Hl.
  rewrite get_region_active, Hact, <- Hlen, Nat2Z.id by (done || lia).
  by apply list_lookup_middle.
Qed.

(** Merging block [i] with its right neighbour. *)
Lemma lmb_coalesce_middle rgn i l1 p q l2 :
  wf_array rgn -> active rgn = l1 ++ p :: q :: l2 -> Z.of_nat (length l1) = i ->
  exists rgn', lmb_coalesce_regions rgn i (i + 1) = Some rgn' /\ wf_array rgn'
    /\ active rgn' = l1 ++ Block (base p) (u32 (size p + size q)) :: l2.
Proof.
  intros Hwf Hact Hlen. unfold lmb_coalesce_regions.
  assert (Hact' : active rgn = (l1 ++ [p]) ++ q :: l2) by (by rewrite <- app_assoc).
  assert (Hlen' : Z.of_nat (length (l1 ++ [p])) = i + 1) by (rewrite length_app; simpl; lia).
  rewrite (get_region_middle rgn i l1 p (q :: l2)) by done.
  rewrite (get_region_middle rgn (i + 1) (l1 ++ [p]) q l2) by done. cbn [mbind option_bind].
  destruct (set_region_middle rgn i l1 p (q :: l2) (Block (base p) (u32 (size p + size q))))
    as (rgn1 & -> & Hwf1 & _ & Hact1); [done..|]. cbn [mbind option_bind].
  destruct (lmb_remove_middle rgn1 (i + 1) (l1 ++ [Block (base p) (u32 (size p + size q))]) q l2)
    as (rgn2 & -> & Hwf2 & Hact2); [done|by rewrite <- app_assoc| |].
  - rewrite length_app in *. simpl in *. lia.
  - exists rgn2. split; [done|]. split; [done|]. by rewrite Hact2, <- app_assoc.
Qed.

(** ** What [lmb_add_region] does to the list *)

(** The new block neither is [p] nor touches it. *)
Definition apart (b s : Z) (p : lmb_property) : Prop :=
  p <> Block b s /\ lmb_addrs_adjacent b s (base p) (size p) = 0.

Definition adjacent (p q : lmb_property) : Prop :=
  lmb_addrs_adjacent (base p) (size p) (base q) (size q) <> 0.

(** [p] extended by the touching block. *)
Definition extend (b s : Z) (p : lmb_property) : lmb_property :=
  if base p =? u32 (b + s) then Block (u32 (base p - s)) (u32 (size p + s))
  else Block (base p) (u32 (size p + s)).

Inductive add_rel (b s : Z) : list lmb_property -> Z -> list lmb_property -> Prop :=
  | AddPresent l : Block b s ∈ l -> add_rel b s l 0 l
  | AddExtend l1 p l2 :
      Forall (apart b s) l1 -> lmb_addrs_adjacent b s (base p) (size p) <> 0 ->
      (forall q, head l2 = Some q -> ~ adjacent (extend b s p) q) ->
      add_rel b s (l1 ++ p :: l2) 1 (l1 ++ extend b s p :: l2)
  | AddMerge l1 p q l2 :
      Forall (apart b s) l1 -> lmb_addrs_adjacent b s (base p) (size p) <> 0 ->
      adjacent (extend b s p) q ->
      add_rel b s (l1 ++ p :: q :: l2) 2
        (l1 ++ Block (base (extend b s p)) (u32 (size (extend b s p) + size q)) :: l2)
  | AddFull l :
      Forall (apart b s) l -> Z.of_nat (length l) = MAX_LMB_REGIONS -> add_rel b s l (-1) l
  | AddInsert l1 l2 :
      Forall (apart b s) (l1 ++ l2) -> Z.of_nat (length (l1 ++ l2)) < MAX_LMB_REGIONS ->
      (forall p, last l1 = Some p -> base p <= b) -> Forall (fun p => b < base p) l2 ->
      add_rel b s (l1 ++ l2) 0 (l1 ++ Block b s :: l2).

(** Where the scan stops. *)
Lemma add_scan_spec fuel rgn i b s l1 l2 :
  wf_array rgn -> active rgn = l1 ++ l2 -> Z.of_nat (length l1) = i ->
  (length l2 < fuel)%nat -> Forall (apart b s) l1 ->
  (add_scan fuel rgn i b s = Some ScanPresent /\ Block b s ∈ active rgn)
  \/ (add_scan fuel rgn i b s = Some (ScanStopped (cnt rgn) 0 rgn)
      /\ Forall (apart b s) (active rgn))
  \/ (exists m1 p m2 rgn', active rgn = m1 ++ p :: m2 /\ Forall (apart b s) m1
      /\ lmb_addrs_adjacent b s (base p) (size p) <> 0
      /\ add_scan fuel rgn i b s = Some (ScanStopped (Z.of_nat (length m1)) 1 rgn')
      /\ wf_array rgn' /\ cnt rgn' = cnt rgn /\ active rgn' = m1 ++ extend b s p :: m2).
Proof.
  intros Hwf Hact Hi Hf Hap. revert i l1 l2 Hact Hi Hf Hap.
  induction fuel as [|fuel IH]; intros i l1 l2 Hact Hi Hf Hap; [lia|].
  pose proof (length_active rgn Hwf) as Hl. rewrite Hact, length_app in Hl.
  cbn [add_scan]. destruct l2 as [|p l2].
  - rewrite app_nil_r in *. simpl in Hl. right; left.
    destruct (Z.ltb_spec i (cnt rgn)); [lia|].
    replace i with (cnt rgn) by lia. by rewrite Hact.
  - cbn [length] in *. destruct (Z.ltb_spec i (cnt rgn)); [|lia].
    rewrite (get_region_middle rgn i l1 p l2) by done. cbn [mbind option_bind].
    destruct (bool_decide_reflect (p = Block b s)) as [->|Hne].
    { cbn [base size]. rewrite !Z.eqb_refl. left. split; [done|].
      rewrite Hact. apply elem_of_app. right. by left. }
    replace ((base p =? b) && (size p =? s)) with false
      by (destruct p as [pb ps]; simpl; destruct (Z.eqb_spec pb b), (Z.eqb_spec ps s);
          naive_solver).
    destruct (Z.eq_dec (lmb_addrs_adjacent b s (base p) (size p)) 0) as [H0|H0].
    + rewrite H0. simpl. apply (IH (i + 1) (l1 ++ [p]) l2).
      * by rewrite Hact, <- app_assoc.
      * rewrite length_app. simpl. lia.
      * lia.
      * apply Forall_app. split; [done|]. by rewrite Forall_singleton.
    + right; right. exists l1, p, l2.
      assert (Hext : exists rgn', set_region rgn i (extend b s p) = Some rgn'
        /\ wf_array rgn' /\ cnt rgn' = cnt rgn /\ active rgn' = l1 ++ extend b s p :: l2)
        by (by eapply set_region_middle).
      destruct Hext as (rgn' & Hset & Hwf' & Hc' & Ha').
      exists rgn'. repeat split; try done; try apply Hwf'. rewrite Hi.
      unfold extend in Hset. unfold lmb_addrs_adjacent in *.
      destruct (base p =? u32 (b + s)); [by simpl; rewrite Hset|].
      destruct (b =? _); [by simpl; rewrite Hset|done].
Qed.

(** The shifting loop: blocks above [b] move up one place, and the new block
    is stored below them unless all of the [n] blocks moved. *)
Lemma add_insert_spec n rgn b s :
  wf_array rgn -> (n <= 8)%nat ->
  exists rgn' l1 l2 L0, add_insert n rgn b s = Some rgn' /\ wf_array rgn'
    /\ cnt rgn' = cnt rgn /\ region rgn !! 0%nat = Some L0
    /\ take n (region rgn) = l1 ++ l2 /\ Forall (fun p => b < base p) l2
    /\ (forall p, last l1 = Some p -> base p <= b)
    /\ take (S n) (region rgn')
       = l1 ++ (match l1 with [] => L0 | _ => Block b s end) :: l2
    /\ drop (S n) (region rgn') = drop (S n) (region rgn).
Proof.
  revert rgn. induction n as [|i IH]; intros rgn Hwf Hn; cbn [add_insert].
  - pose proof Hwf as [Hl _]. destruct (region rgn) as [|L0 L] eqn:E; [done|].
    exists rgn, [], [], L0. rewrite E. repeat split; try done; apply Hwf.
  - pose proof Hwf as [Hl _].
    destruct (get_region_Some rgn (Z.of_nat i)) as [p Hp]; [done|mlia|].
    rewrite Hp. cbn [mbind option_bind].
    unfold get_region in Hp. destruct (Z.ltb_spec (Z.of_nat i) 0); [lia|].
    rewrite Nat2Z.id in Hp.
    assert (Htk : take (S i) (region rgn) = take i (region rgn) ++ [p])
      by (by apply take_S_r).
    assert (HSi : Z.to_nat (Z.of_nat i + 1) = S i) by lia.
    destruct (lookup_lt_is_Some_2 (region rgn) 0) as [L0 HL0]; [lia|].
    destruct (Z.ltb_spec b (base p)) as [Hlt|Hge].
    + destruct (set_region_spec rgn (Z.of_nat i + 1) p) as (r1 & -> & Hwf1 & Hc1 & Hr1);
        [done|mlia|]. cbn [mbind option_bind]. rewrite HSi in Hr1.
      destruct (IH r1 Hwf1) as (r2 & l1 & l2 & L0' & -> & Hwf2 & Hc2 & H0 & Ht & Hb & Hla & Hres & Hdr);
        [lia|].
      rewrite Hr1, list_lookup_insert_ne, HL0 in H0 by lia. injection H0 as <-.
      rewrite Hr1, take_insert_ge in Ht by lia.
      exists r2, l1, (l2 ++ [p]), L0. repeat split; try done; try apply Hwf2.
      * congruence.
      * by rewrite Htk, Ht, app_assoc.
      * apply Forall_app. by rewrite Forall_singleton.
      * rewrite (take_S_r _ _ p), Hres, <- app_assoc; [done|].
        replace (S i) with (S i + 0)%nat by lia. rewrite <- lookup_drop, Hdr, Hr1, lookup_drop.
        rewrite Nat.add_0_r. apply list_lookup_insert_eq. lia.
      * change (S (S i)) with (1 + S i)%nat. rewrite Nat.add_comm, <- !drop_drop, Hdr, Hr1.
        rewrite !drop_drop. apply drop_insert_lt. lia.
    + destruct (set_region_spec rgn (Z.of_nat i + 1) (Block b s)) as (r1 & -> & Hwf1 & Hc1 & Hr1);
        [done|mlia|]. rewrite HSi in Hr1.
      exists r1, (take i (region rgn) ++ [p]), [], L0. repeat split; try done; try apply Hwf1.
      * by rewrite Htk, app_nil_r.
      * intros q. rewrite last_snoc. by intros [= <-].
      * rewrite Hr1, (take_S_r _ _ (Block b s)) by (apply list_lookup_insert_eq; lia).
        rewrite take_insert_ge, Htk by lia. by destruct (take i (region rgn)).
      * rewrite Hr1. apply drop_insert_lt. lia.
Qed.

Definition by_base (p q : lmb_property) : Prop := base p <= base q.

Lemma sorted_head_last l p q :
  StronglySorted by_base l -> head l = Some p -> last l = Some q -> base p <= base q.
Proof.
  intros Hs Hh Hla. destruct l as [|x l]; [done|]. injection Hh as ->.
  apply StronglySorted_cons_iff in Hs as [_ Hf]. apply last_Some in Hla as [l' E].
  destruct l' as [|y l']; injection E as -> ->; [lia|].
  apply Forall_app in Hf as [_ Hf]. by rewrite Forall_singleton in Hf.
Qed.

(** The table is not the placeholder of [lmb_init]. *)
Definition nonempty (rgn : lmb_region) : Prop :=
  active rgn <> [] /\ ~ (exists b, active rgn = [Block b 0]).

Lemma add_sorted_spec rgn b s :
  wf_array rgn -> StronglySorted by_base (active rgn) -> 0 < cnt rgn < MAX_LMB_REGIONS ->
  exists rgn' l1 l2, add_sorted rgn b s = Some (0, rgn') /\ wf_array rgn'
    /\ active rgn = l1 ++ l2 /\ active rgn' = l1 ++ Block b s :: l2
    /\ (forall p, last l1 = Some p -> base p <= b) /\ Forall (fun p => b < base p) l2.
Proof.
  intros Hwf Hsort Hc. unfold add_sorted.
  destruct (add_insert_spec (Z.to_nat (cnt rgn)) rgn b s) as
    (r2 & l1 & l2 & L0 & -> & Hwf2 & Hc2 & H0 & Ht & Hb & Hla & Hres & _); [done|mlia|].
  cbn [mbind option_bind]. fold (active rgn) in Ht.
  assert (Hgr2 : get_region r2 0 = head (take (S (Z.to_nat (cnt rgn))) (region r2))).
  { unfold get_region. cbn [Z.ltb Z.compare]. by destruct (region r2). }
  assert (Hfin : forall rgn', wf_array rgn' -> cnt rgn' = cnt rgn ->
    take (S (Z.to_nat (cnt rgn))) (region rgn') = l1 ++ Block b s :: l2 ->
    wf_array (set_cnt rgn' (u32 (cnt rgn' + 1)))
    /\ active (set_cnt rgn' (u32 (cnt rgn' + 1))) = l1 ++ Block b s :: l2).
  { intros rgn' Hwf' Hc' Hr'. rewrite Hc', wrap_small by (split; mlia).
    split; [apply set_cnt_wf; [done|mlia]|]. unfold active, set_cnt. cbn [cnt region].
    by replace (Z.to_nat (cnt rgn + 1)) with (S (Z.to_nat (cnt rgn))) by lia. }
  rewrite Hgr2, Hres. destruct l1 as [|h l1].
  - (* smallest base: stored by the final test *)
    assert (Hlt : b < base L0).
    { assert (HL0 : active rgn !! 0%nat = Some L0)
        by (unfold active; by rewrite lookup_take_lt by lia).
      rewrite Ht in HL0. destruct l2; [done|]. injection HL0 as ->. by inversion Hb. }
    cbn [app head mbind option_bind]. destruct (Z.ltb_spec b (base L0)); [|lia].
    destruct (set_region_spec r2 0 (Block b s)) as (r3 & -> & Hwf3 & Hc3 & Hr3); [done|mlia|].
    cbn [mbind option_bind]. destruct (Hfin r3) as [F1 F2]; [done|congruence| |].
    + rewrite Hr3. change (Z.to_nat 0) with 0%nat. by rewrite take_insert_lt, Hres by lia.
    + eexists _, [], l2. eauto 10.
  - cbn [app head mbind option_bind].
    assert (base h <= b).
    { rewrite Ht in Hsort. apply StronglySorted_app_iff in Hsort as [Hs1 _].
      destruct (last (h :: l1)) as [z|] eqn:Ez; [|by apply last_None in Ez].
      pose proof (sorted_head_last _ _ _ Hs1 eq_refl Ez). specialize (Hla _ eq_refl). lia. }
    destruct (Z.ltb_spec b (base h)); [lia|]. cbn [mbind option_bind].
    destruct (Hfin r2) as [F1 F2]; [done..|]. eexists _, (h :: l1), l2. eauto 10.
Qed.

(** The scan extended block [length m1]; its right neighbour may now touch. *)
Lemma add_finish_extended rgn b s m1 p m2 :
  wf_array rgn -> active rgn = m1 ++ extend b s p :: m2 ->
  Forall (apart b s) m1 -> lmb_addrs_adjacent b s (base p) (size p) <> 0 ->
  exists ret rgn', add_finish rgn (Z.of_nat (length m1)) 1 b s = Some (ret, rgn')
    /\ wf_array rgn' /\ add_rel b s (m1 ++ p :: m2) ret (active rgn').
Proof.
  intros Hwf Ha Hap Hadj. pose proof (length_active rgn Hwf) as Hl. pose proof Hwf as [_ Hc].
  rewrite Ha, length_app in Hl. cbn [length] in Hl. unfold add_finish.
  rewrite (wrap_small 32 (cnt rgn - 1)) by (split; mlia).
  destruct m2 as [|q m2].
  - destruct (Z.ltb_spec (Z.of_nat (length m1)) (cnt rgn - 1)); [simpl in Hl; lia|].
    cbn. eexists _, rgn. split; [done|]. split; [done|]. rewrite Ha. by apply AddExtend.
  - cbn [length] in Hl.
    destruct (Z.ltb_spec (Z.of_nat (length m1)) (cnt rgn - 1)); [|lia].
    unfold lmb_regions_adjacent.
    rewrite (get_region_middle rgn (Z.of_nat (length m1)) m1 (extend b s p) (q :: m2)) by done.
    rewrite (get_region_middle rgn (Z.of_nat (length m1) + 1) (m1 ++ [extend b s p]) q m2);
      [|done|by rewrite Ha, <- app_assoc|rewrite length_app; simpl; lia].
    cbn [mbind option_bind]. fold (adjacent (extend b s p) q).
    destruct (Z.eqb_spec (lmb_addrs_adjacent (base (extend b s p)) (size (extend b s p))
      (base q) (size q)) 0) as [E|E]; cbn [negb].
    + cbn. eexists _, rgn. split; [done|]. split; [done|]. rewrite Ha. apply AddExtend; try done.
      intros ? [= <-]. unfold adjacent. by intros [].
    + destruct (lmb_coalesce_middle rgn (Z.of_nat (length m1)) m1 (extend b s p) q m2)
        as (r2 & -> & Hwf2 & Ha2); [done..|].
      cbn. eexists _, r2. split; [done|]. split; [done|]. rewrite Ha2. by apply AddMerge.
Qed.

(** On a sorted table in use, [lmb_add_region] stays inside the array and
    does what [add_rel] says. *)
Lemma lmb_add_region_refines rgn b s :
  wf_array rgn -> StronglySorted by_base (active rgn) -> nonempty rgn ->
  exists ret rgn', lmb_add_region rgn b s = Some (ret, rgn') /\ wf_array rgn'
    /\ add_rel b s (active rgn) ret (active rgn').
Proof.
  intros Hwf Hsort [Hne Hnd]. pose proof Hwf as [Hlen Hc].
  pose proof (length_active rgn Hwf) as Hl.
  unfold lmb_add_region.
  destruct (active rgn) as [|p0 l0] eqn:Eact; [done|].
  rewrite (get_region_middle rgn 0 [] p0 l0) by done. cbn [mbind option_bind].
  replace ((cnt rgn =? 1) && (size p0 =? 0)) with false.
  2: { destruct (Z.eqb_spec (cnt rgn) 1), (Z.eqb_spec (size p0) 0); try done.
       destruct l0; [|simpl in Hl; lia]. exfalso. apply Hnd. exists (base p0).
       destruct p0; simpl in *; by subst. }
  assert (0 < cnt rgn) by (simpl in Hl; lia). rewrite <- Eact in *.
  destruct (add_scan_spec 10 rgn 0 b s [] (active rgn)) as
    [[-> Hin]|[[-> Hap]|(m1 & p & m2 & rgn1 & Ha & Hap & Hadj & -> & Hwf1 & Hc1 & Ha1)]];
    try done; [mlia| | |]; cbn [mbind option_bind].
  - eexists _, rgn. split; [done|]. split; [done|]. by apply AddPresent.
  - unfold add_finish. rewrite (wrap_small 32 (cnt rgn - 1)) by (split; mlia).
    destruct (Z.ltb_spec (cnt rgn) (cnt rgn - 1)); [lia|]. cbn [mbind option_bind negb Z.eqb].
    destruct (Z.leb_spec MAX_LMB_REGIONS (cnt rgn)).
    { eexists _, rgn. split; [done|]. split; [done|]. apply AddFull; [done|lia]. }
    destruct (add_sorted_spec rgn b s) as (r2 & l1 & l2 & -> & Hwf2 & E1 & E2 & Hla & Hb);
      [done|done|lia|].
    eexists _, r2. split; [done|]. split; [done|]. rewrite E2. rewrite E1 in *.
    apply AddInsert; try done. lia.
  - rewrite Ha. by apply add_finish_extended.
Qed.

(** ** What the table covers *)

(** A block that does not reach the end of the address space. *)
Definition valid (p : lmb_property) : Prop :=
  0 <= base p /\ 0 < size p /\ base p + size p < 2 ^ 32.

Definition block_covers (p : lmb_property) (a : Z) : Prop := base p <= a < base p + size p.

Definition covered (rgn : lmb_region) (a : Z) : Prop :=
  Exists (fun p => block_covers p a) (active rgn).

(** Sorted by base, blocks not empty; they may overlap. *)
Definition table (l : list lmb_property) : Prop :=
  Forall valid l /\ StronglySorted by_base l.

(** The blocks are separated by gaps: nothing overlaps, everything that
    touches was merged. *)
Definition gap (p q : lmb_property) : Prop := base p + size p < base q.

Definition separated (l : list lmb_property) : Prop :=
  Forall valid l /\ StronglySorted gap l.

(** A table as [lmb_init] leaves it, or one with blocks in use. *)
Definition placeholder (rgn : lmb_region) : Prop := active rgn = [Block 0 0].

(** The blocks of such a table. *)
Definition plausible (p : lmb_property) : Prop := valid p \/ p = Block 0 0.

Definition lmb_ok (good : list lmb_property -> Prop) (rgn : lmb_region) : Prop :=
  wf_array rgn /\ (placeholder rgn \/ active rgn <> [] /\ good (active rgn)).

Definition outside (b s : Z) (p : lmb_property) : Prop :=
  b + s <= base p \/ base p + size p <= b.

Lemma separated_table l : separated l -> table l.
Proof.
  intros [Hv Hs]. split; [done|]. apply (StronglySorted_impl gap); [|done].
  intros p q Hp _ Hg. rewrite Forall_forall in Hv. destruct (Hv p Hp) as (?&?&?).
  unfold gap, by_base in *. lia.
Qed.

(** Unfolds the interval vocabulary for [lia]. *)
#[local] Ltac blocks :=
  repeat match goal with H : valid _ |- _ => destruct H as (? & ? & ?) end;
  unfold block_covers, outside, gap, by_base, valid in *; cbn [base size] in *.

Lemma adjacent_iff b s p :
  valid (Block b s) -> valid p ->
  lmb_addrs_adjacent b s (base p) (size p) <> 0 <-> base p = b + s \/ b = base p + size p.
Proof.
  intros Hb Hp. blocks. unfold lmb_addrs_adjacent. rewrite !wrap_small by (split; lia).
  destruct (Z.eqb_spec (base p) (b + s)), (Z.eqb_spec b (base p + size p)); lia.
Qed.

Lemma extend_spec b s p :
  valid (Block b s) -> valid p -> lmb_addrs_adjacent b s (base p) (size p) <> 0 ->
  valid (extend b s p)
  /\ (base p = b + s /\ extend b s p = Block b (size p + s)
      \/ b = base p + size p /\ extend b s p = Block (base p) (size p + s)).
Proof.
  intros Hb Hp. rewrite adjacent_iff by done. intros Hadj. unfold extend. blocks.
  rewrite (wrap_small 32 (b + s)) by (split; lia).
  destruct (Z.eqb_spec (base p) (b + s)); rewrite !wrap_small by (split; lia); cbn [base size].
  - replace (base p - s) with b by lia. split; [lia|]. by left.
  - split; [lia|]. right. split; [lia|done].
Qed.

(** Merging with the right neighbour; the neighbour starts where the extended
    block ends, because it does not start before [p]. *)
Lemma merge_spec b s p q :
  valid (Block b s) -> valid p -> valid q -> by_base p q ->
  lmb_addrs_adjacent b s (base p) (size p) <> 0 -> adjacent (extend b s p) q ->
  base q = base (extend b s p) + size (extend b s p)
  /\ Block (base (extend b s p)) (u32 (size (extend b s p) + size q))
     = Block (base (extend b s p)) (size (extend b s p) + size q).
Proof.
  intros Hb Hp Hq Hpq Hadj Hm.
  destruct (extend_spec b s p) as [Hv Hcase]; [done..|].
  unfold adjacent in Hm. destruct (extend b s p) as [eb es]. cbn [base size] in Hm |- *.
  rewrite adjacent_iff in Hm by done. blocks.
  assert (base q = eb + es) by (destruct Hcase as [[? [= -> ->]]|[? [= -> ->]]]; lia).
  split; [done|]. by rewrite wrap_small by (split; lia).
Qed.

Lemma Exists_middle {A} (P : A -> Prop) l1 x l2 :
  Exists P (l1 ++ x :: l2) <-> Exists P (l1 ++ l2) \/ P x.
Proof. rewrite !Exists_app, Exists_cons. tauto. Qed.

Lemma table_middle l1 p l2 :
  table (l1 ++ p :: l2) -> valid p /\ table (l1 ++ l2) /\ Forall (by_base p) l2.
Proof.
  unfold table. rewrite !Forall_app, Forall_cons, !StronglySorted_app_iff, StronglySorted_cons_iff.
  intros [(? & ? & ?) (? & [? ?] & Hx)]. split_and!; try done.
  intros x y Hxin Hy. apply Hx; [done|]. by right.
Qed.

(** What an addition covers: the old blocks and the new one. *)
Lemma add_rel_covers b s l ret l' a :
  add_rel b s l ret l' -> table l -> valid (Block b s) -> ret <> -1 ->
  Exists (fun p => block_covers p a) l'
  <-> Exists (fun p => block_covers p a) l \/ b <= a < b + s.
Proof.
  intros Hadd Ht Hb Hr. destruct Hadd as [l Hin|l1 p l2 _ Hadj _|l1 p q l2 _ Hadj Hm|l|l1 l2]; [..|done|].
  - split; [by left|]. intros [Ha|Ha]; [done|]. apply Exists_exists. by eexists.
  - apply table_middle in Ht as (Hp & _ & _).
    destruct (extend_spec b s p) as [_ Hcase]; [done..|]. rewrite !Exists_middle.
    assert (block_covers (extend b s p) a <-> block_covers p a \/ b <= a < b + s)
      by (blocks; destruct Hcase as [[? ->]|[? ->]]; cbn [base size]; lia).
    tauto.
  - apply table_middle in Ht as (Hp & Ht & Hpq).
    apply table_middle in Ht as (Hq & _ & _). apply Forall_cons in Hpq as [Hpq _].
    destruct (merge_spec b s p q) as [E ->]; [done..|].
    destruct (extend_spec b s p) as [_ Hcase]; [done..|].
    change (l1 ++ p :: q :: l2) with (l1 ++ [p] ++ q :: l2). rewrite app_assoc, !Exists_middle.
    rewrite <- app_assoc. cbn [app]. rewrite Exists_middle.
    assert (block_covers (Block (base (extend b s p)) (size (extend b s p) + size q)) a
        <-> block_covers p a \/ block_covers q a \/ b <= a < b + s)
      by (blocks; destruct Hcase as [[? Ee]|[? Ee]]; rewrite Ee in *; cbn [base size] in *; lia).
    tauto.
  - rewrite Exists_middle. unfold block_covers. cbn [base size]. tauto.
Qed.

(** With a new block outside the old ones the separation survives. *)
Lemma separated_middle l1 p l2 :
  separated (l1 ++ p :: l2) <->
  valid p /\ separated (l1 ++ l2) /\ Forall (fun q => gap q p) l1 /\ Forall (gap p) l2.
Proof.
  unfold separated. rewrite !Forall_app, Forall_cons, !StronglySorted_app_iff,
    StronglySorted_cons_iff, !Forall_forall. split.
  - intros [(? & ? & ?) (? & [? ?] & Hx)]. split_and!; try done.
    + intros x y Hxin Hy. apply Hx; [done|]. by right.
    + intros x Hxin. apply Hx; [done|]. by left.
  - intros (? & ((? & ?) & ? & ? & Hx) & Hl & Hr). split_and!; try done.
    intros x y Hxin [->|Hy]%elem_of_cons; auto.
Qed.

Lemma separated_valid l p : separated l -> p ∈ l -> valid p.
Proof. intros [Hv _]. by rewrite Forall_forall in Hv; auto. Qed.

Lemma Forall_mid {A} (P : A -> Prop) l1 x l2 :
  Forall P (l1 ++ x :: l2) <-> P x /\ Forall P (l1 ++ l2).
Proof. rewrite !Forall_app, Forall_cons. tauto. Qed.

Lemma apart_iff b s p :
  valid (Block b s) -> valid p ->
  apart b s p -> base p <> b + s /\ b <> base p + size p.
Proof.
  intros Hb Hp [_ Hadj]. pose proof (adjacent_iff b s p Hb Hp) as H. tauto.
Qed.

Lemma last_below l b p :
  StronglySorted by_base l -> (forall q, last l = Some q -> base q <= b) -> p ∈ l -> base p <= b.
Proof.
  intros Hs Hl Hp. apply list_elem_of_split in Hp as (l1 & l2 & ->).
  destruct (last (p :: l2)) as [z|] eqn:E; [|by apply last_None in E].
  apply StronglySorted_app_iff in Hs as (_ & Hs & _).
  pose proof (sorted_head_last _ _ _ Hs eq_refl E). rewrite last_app, E in Hl.
  specialize (Hl z eq_refl). lia.
Qed.

Lemma add_extend_separated b s l1 p l2 :
  separated (l1 ++ p :: l2) -> valid (Block b s) -> Forall (outside b s) (l1 ++ p :: l2) ->
  Forall (apart b s) l1 -> lmb_addrs_adjacent b s (base p) (size p) <> 0 ->
  (forall q, head l2 = Some q -> ~ adjacent (extend b s p) q) ->
  separated (l1 ++ extend b s p :: l2).
Proof.
  intros Hs Hb Ho Hap Hadj Hnext. pose proof Hs as (Hp & Hs' & Hl & Hr)%separated_middle.
  destruct (extend_spec b s p) as [Hv Hcase]; [done..|].
  apply separated_middle. split; [done|]. split; [done|].
  rewrite Forall_forall in Hap, Hl, Ho. split.
  - apply Forall_forall. intros q Hq.
    assert (valid q) by (eapply separated_valid; [exact Hs|set_solver]).
    destruct (apart_iff b s q) as [_ Hne]; [done|done|by apply Hap|].
    specialize (Hl q Hq). specialize (Ho q ltac:(set_solver)). blocks.
    destruct Hcase as [[? ->]|[? ->]]; cbn [base]; lia.
  - destruct l2 as [|q l2]; [done|]. apply Forall_cons in Hr as [Hpq _].
    assert (valid q) by (eapply separated_valid; [exact Hs|set_solver]).
    assert (Hgq : gap (extend b s p) q).
    { specialize (Hnext q eq_refl). specialize (Ho q ltac:(set_solver)).
      unfold adjacent in Hnext. destruct (extend b s p) as [eb es].
      pose proof (adjacent_iff eb es q Hv ltac:(done)). cbn [base size] in Hnext.
      blocks. destruct Hcase as [[? [= -> ->]]|[? [= -> ->]]]; lia. }
    constructor; [done|].
    change (p :: q :: l2) with ([p] ++ q :: l2) in Hs. rewrite app_assoc in Hs.
    apply separated_middle in Hs as (_ & _ & _ & Hr). eapply Forall_impl; [exact Hr|].
    intros x Hx. blocks. lia.
Qed.

Lemma add_merge_separated b s l1 p q l2 :
  separated (l1 ++ p :: q :: l2) -> valid (Block b s) ->
  Forall (outside b s) (l1 ++ p :: q :: l2) ->
  Forall (apart b s) l1 -> lmb_addrs_adjacent b s (base p) (size p) <> 0 ->
  adjacent (extend b s p) q ->
  separated (l1 ++ Block (base (extend b s p)) (u32 (size (extend b s p) + size q)) :: l2).
Proof.
  intros Hs Hb Ho Hap Hadj Hm. pose proof Hs as (Hp & Hs' & Hl & Hr)%separated_middle.
  pose proof Hs' as (Hq & Hs'' & Hlq & Hrq)%separated_middle.
  apply Forall_cons in Hr as [Hpq _].
  destruct (extend_spec b s p) as [Hv Hcase]; [done..|].
  destruct (merge_spec b s p q) as [E ->]; [done..|blocks; lia|done|done|].
  apply separated_middle. split; [blocks; lia|]. split; [done|].
  rewrite Forall_forall in Hap, Hl, Ho. split.
  - apply Forall_forall. intros x Hx.
    assert (valid x) by (eapply separated_valid; [exact Hs|set_solver]).
    destruct (apart_iff b s x) as [_ Hne]; [done|done|by apply Hap|].
    specialize (Hl x Hx). specialize (Ho x ltac:(set_solver)). blocks.
    destruct Hcase as [[? ->]|[? ->]]; cbn [base]; lia.
  - eapply Forall_impl; [exact Hrq|]. intros x Hx. blocks. lia.
Qed.

Lemma add_insert_separated b s l1 l2 :
  separated (l1 ++ l2) -> valid (Block b s) -> Forall (outside b s) (l1 ++ l2) ->
  Forall (apart b s) (l1 ++ l2) -> (forall p, last l1 = Some p -> base p <= b) ->
  Forall (fun p => b < base p) l2 ->
  separated (l1 ++ Block b s :: l2).
Proof.
  intros Hs Hb Ho Hap Hla Hr. apply separated_middle. split; [done|]. split; [done|].
  pose proof (separated_table _ Hs) as [_ Hsort].
  apply StronglySorted_app_iff in Hsort as [Hsort _].
  rewrite !Forall_forall in *.
  split; intros x Hx;
    (assert (Hin : x ∈ l1 ++ l2) by set_solver);
    (assert (Hvx : valid x) by (by eapply separated_valid));
    destruct (apart_iff b s x) as [??]; auto; specialize (Ho x Hin).
  - pose proof (last_below l1 b x Hsort Hla Hx). blocks. lia.
  - specialize (Hr x Hx). cbn in Hr. blocks. lia.
Qed.

Lemma add_rel_separated b s l ret l' :
  add_rel b s l ret l' -> separated l -> valid (Block b s) -> Forall (outside b s) l ->
  separated l'.
Proof.
  destruct 1; intros; eauto using add_extend_separated, add_merge_separated,
    add_insert_separated.
Qed.

Lemma add_rel_result b s l ret l' :
  add_rel b s l ret l' -> (ret = -1 /\ l' = l /\ Z.of_nat (length l) = MAX_LMB_REGIONS)
    \/ (0 <= ret <= 2 /\ l' <> []).
Proof.
  destruct 1; try (right; split; [lia|]; try (by destruct l1)); [|by left].
  intros ->. by apply elem_of_nil in H.
Qed.

Definition disjoint (rgn : lmb_region) (b s : Z) : Prop :=
  forall a, b <= a < b + s -> ~ covered rgn a.

Lemma disjoint_outside rgn b s :
  Forall plausible (active rgn) -> valid (Block b s) ->
  disjoint rgn b s <-> Forall (outside b s) (active rgn).
Proof.
  unfold disjoint, covered. intros Hv Hb. rewrite Forall_forall in Hv. rewrite Forall_forall. split.
  - intros Hd p Hp. destruct (Hv p Hp) as [Hvp| ->]; [|blocks; lia].
    destruct (decide (outside b s p)) as [|Hn]; [done|]. exfalso.
    apply (Hd (Z.max b (base p))); [blocks; lia|].
    apply Exists_exists. exists p. split; [done|]. blocks. lia.
  - intros Ho a Ha [p [Hp Hc]]%Exists_exists. specialize (Ho p Hp). blocks. lia.
Qed.

(** The effect of an addition of [[b, b + s)]. *)
Definition added (rgn : lmb_region) (b s r : Z) (rgn' : lmb_region) : Prop :=
  (r = -1 /\ active rgn' = active rgn /\ cnt rgn = MAX_LMB_REGIONS)
  \/ (0 <= r <= 2 /\ forall a, covered rgn' a <-> covered rgn a \/ b <= a < b + s).

Lemma valid_plausible l : Forall valid l -> Forall plausible l.
Proof. intros H. eapply Forall_impl; [exact H|]. by left. Qed.

Lemma nonempty_ok l rgn : active rgn = l -> l <> [] -> table l -> nonempty rgn.
Proof.
  intros <- Hne [Hv _]. split; [done|]. intros [b E]. rewrite E in Hv.
  rewrite Forall_singleton in Hv. destruct Hv as (_ & ? & _). cbn in *. lia.
Qed.

Lemma lmb_add_region_placeholder rgn b s :
  wf_array rgn -> placeholder rgn ->
  exists rgn', lmb_add_region rgn b s = Some (0, rgn') /\ wf_array rgn'
    /\ active rgn' = [Block b s].
Proof.
  intros Hwf E. unfold lmb_add_region. pose proof (length_active rgn Hwf) as Hl.
  rewrite E in Hl. cbn [length] in Hl.
  rewrite (get_region_middle rgn 0 [] (Block 0 0) []) by done. cbn [mbind option_bind].
  replace (cnt rgn) with 1 by lia. cbn.
  destruct (set_region_middle rgn 0 [] (Block 0 0) [] (Block b s)) as (r' & -> & ? & _ & ?);
    [done..|]. eexists. eauto.
Qed.

Lemma lmb_add_region_spec rgn b s :
  lmb_ok table rgn -> valid (Block b s) ->
  exists r rgn', lmb_add_region rgn b s = Some (r, rgn') /\ wf_array rgn'
    /\ active rgn' <> [] /\ added rgn b s r rgn'
    /\ (lmb_ok separated rgn -> disjoint rgn b s -> separated (active rgn')).
Proof.
  intros [Hwf [Hph|[Hne Ht]]] Hb.
  - destruct (lmb_add_region_placeholder rgn b s) as (rgn' & -> & Hwf' & Ha); [done..|].
    exists 0, rgn'. split; [done|]. split; [done|]. rewrite Ha. split; [done|]. split.
    + right. split; [lia|]. intros a. unfold covered.
      rewrite Ha, Hph, !Exists_cons, !Exists_nil. unfold block_covers. cbn [base size]. lia.
    + intros _ _. split; [by constructor|]. repeat constructor.
  - destruct (lmb_add_region_refines rgn b s) as (r & rgn' & -> & Hwf' & Hrel);
      [done|apply Ht|by eapply nonempty_ok|].
    exists r, rgn'. split; [done|]. split; [done|].
    pose proof (add_rel_result _ _ _ _ _ Hrel) as Hres. split; [|split].
    + destruct Hres as [(_ & -> & _)|[_ ?]]; done.
    + pose proof (length_active rgn Hwf). destruct Hres as [(? & ? & ?)|[? _]]; [left; split_and!; done || lia|].
      right. split; [done|]. intros a. eapply add_rel_covers; try done. lia.
    + intros [_ [Hph|[_ Hsep]]] Hd.
      * rewrite Hph in Ht. destruct Ht as [Hv _]. rewrite Forall_singleton in Hv. blocks. lia.
      * eapply add_rel_separated; try done. apply disjoint_outside; try done.
        apply valid_plausible, Hsep.
Qed.

Lemma lmb_ok_table rgn : lmb_ok separated rgn -> lmb_ok table rgn.
Proof.
  intros [Hwf [?|[? ?]]]; (split; [done|]); [by left|right; split; [done|by apply separated_table]].
Qed.

Lemma lmb_init_active old : length old = 9%nat -> active (lmb_init_region old) = [Block 0 0].
Proof. by destruct old. Qed.

Lemma lmb_init_ok old : length old = 9%nat -> lmb_ok separated (lmb_init_region old).
Proof.
  intros Hl. destruct old as [|x old]; [done|]. split; [by repeat split|].
  by left.
Qed.

(** ** [lmb_free] *)

(** A table that may also have no block left. *)
Definition free_ok (rgn : lmb_region) : Prop := wf_array rgn /\ separated (active rgn).

Definition contains (b s : Z) (p : lmb_property) : Prop :=
  base p <= b /\ b + s <= base p + size p.

Lemma free_scan_spec fuel rgn i b s l1 l2 :
  wf_array rgn -> Forall valid (active rgn) -> valid (Block b s) ->
  active rgn = l1 ++ l2 -> Z.of_nat (length l1) = i -> (length l2 < fuel)%nat ->
  Forall (fun p => ~ contains b s p) l1 ->
  (free_scan fuel rgn i b (b + s) = Some None /\ Forall (fun p => ~ contains b s p) (active rgn))
  \/ exists m1 p m2, active rgn = m1 ++ p :: m2 /\ contains b s p
     /\ free_scan fuel rgn i b (b + s) = Some (Some (Z.of_nat (length m1), p)).
Proof.
  intros Hwf Hv Hb Hact Hi Hf Hn. revert i l1 l2 Hact Hi Hf Hn.
  induction fuel as [|fuel IH]; intros i l1 l2 Hact Hi Hf Hn; [lia|].
  pose proof (length_active rgn Hwf) as Hl. rewrite Hact, length_app in Hl.
  cbn [free_scan]. destruct l2 as [|p l2]; cbn [length] in *.
  - left. rewrite app_nil_r in Hact. rewrite Hact.
    destruct (Z.ltb_spec i (cnt rgn)); [lia|done].
  - destruct (Z.ltb_spec i (cnt rgn)); [|lia].
    rewrite (get_region_middle rgn i l1 p l2) by done. cbn [mbind option_bind].
    assert (valid p) by (rewrite Hact, Forall_mid in Hv; apply Hv).
    rewrite (wrap_small 32 (base p + size p)) by (split; blocks; lia).
    destruct (Z.leb_spec (base p) b), (Z.leb_spec (b + s) (base p + size p)); cbn [andb].
    1: { right. exists l1, p, l2. rewrite Hi. split_and!; done. }
    all: apply (IH (i + 1) (l1 ++ [p]) l2);
      [by rewrite Hact, <- app_assoc|rewrite length_app; simpl; lia|lia|].
    all: apply Forall_app; split; [done|]; rewrite Forall_singleton; unfold contains; lia.
Qed.

(** Replacing a block by a smaller one keeps the separation. *)
Lemma separated_shrink l1 p q l2 :
  separated (l1 ++ p :: l2) -> valid q -> base p <= base q -> base q + size q <= base p + size p ->
  separated (l1 ++ q :: l2).
Proof.
  rewrite !separated_middle. intros (Hp & ? & Hl & Hr) Hq ? ?. split_and!; try done.
  - eapply Forall_impl; [exact Hl|]. intros x Hx. blocks. lia.
  - eapply Forall_impl; [exact Hr|]. intros x Hx. blocks. lia.
Qed.

(** In a separated table nothing else covers what [p] contains. *)
Lemma separated_others l1 p l2 b s a :
  separated (l1 ++ p :: l2) -> contains b s p -> b <= a < b + s ->
  ~ Exists (fun q => block_covers q a) (l1 ++ l2).
Proof.
  intros (Hp & Hs & Hl & Hr)%separated_middle [Hc1 Hc2] Ha [q [Hq Hcov]]%Exists_exists.
  rewrite Forall_forall in Hl, Hr.
  apply elem_of_app in Hq as [Hq|Hq]; [specialize (Hl q Hq)|specialize (Hr q Hq)]; cbn in *;
    blocks; lia.
Qed.

(** Freeing a middle part leaves two blocks, the second one inserted anew. *)
Lemma free_split_spec rgn l1 p l2 b s :
  wf_array rgn -> active rgn = l1 ++ Block (base p) (b - base p) :: l2 ->
  separated (l1 ++ p :: l2) -> 0 < s -> base p < b -> b + s < base p + size p ->
  exists r rgn', lmb_add_region rgn (b + s) (base p + size p - (b + s)) = Some (r, rgn')
    /\ free_ok rgn'
    /\ (r = -1 /\ active rgn' = active rgn /\ cnt rgn = MAX_LMB_REGIONS
        \/ r = 0 /\ forall a, covered rgn' a
             <-> covered rgn a \/ b + s <= a < base p + size p).
Proof.
  intros Hwf Ha Hs H0 H1 H2. pose proof Hs as (Hp & Hrest & Hl & Hr)%separated_middle.
  set (tl := Block (b + s) (base p + size p - (b + s))).
  assert (Htl : valid tl) by (unfold tl; blocks; lia).
  assert (Hsep : separated (active rgn))
    by (rewrite Ha; eapply separated_shrink; [exact Hs|blocks; lia..]).
  assert (Hout : Forall (fun q => outside (base tl) (size tl) q /\ apart (base tl) (size tl) q)
                   (active rgn)).
  { rewrite Ha. apply Forall_mid. rewrite Forall_app, !Forall_forall.
    rewrite !Forall_forall in Hl, Hr.
    assert (Hgen : forall q, valid q -> base q + size q < b + s \/ base p + size p < base q ->
        outside (base tl) (size tl) q /\ apart (base tl) (size tl) q).
    { intros q Hq Hd. pose proof (adjacent_iff _ _ q Htl Hq) as Hadj. unfold tl in *. blocks.
      split; [lia|]. split; [intros ->; cbn in *; lia|].
      destruct (Z.eq_dec (lmb_addrs_adjacent (b + s) (base p + size p - (b + s)) (base q) (size q)) 0);
        [done|]. apply Hadj in n. lia. }
    split; [|split; intros q Hq;
      assert (valid q) by (apply (separated_valid (l1 ++ l2)); [done|set_solver])].
    - apply Hgen; blocks; lia.
    - apply Hgen; [done|]. specialize (Hl q Hq). cbn in Hl. blocks. lia.
    - apply Hgen; [done|]. specialize (Hr q Hq). blocks. lia. }
  apply Forall_and in Hout as [Hout Hap].
  assert (Hne : active rgn <> []) by (rewrite Ha; by destruct l1).
  destruct (lmb_add_region_refines rgn (base tl) (size tl)) as (r & rgn' & E & Hwf' & Hrel);
    [done|by apply separated_table|
     apply (nonempty_ok (active rgn)); [done|done|by apply separated_table]|].
  exists r, rgn'. split; [exact E|].
  split; [split; [done|by eapply add_rel_separated]|].
  pose proof (length_active rgn Hwf) as Hlen.
  pose proof (fun a => add_rel_covers _ _ _ _ _ a Hrel (separated_table _ Hsep) Htl) as Hc.
  unfold covered.
  destruct Hrel as [l Hin|m1 q m2 Hf Hadj|m1 q q' m2 Hf Hadj|l|m1 m2].
  - exfalso. rewrite Forall_forall in Hap. by destruct (Hap _ Hin).
  - exfalso. apply Forall_mid in Hap as [[_ ?] _]. done.
  - exfalso. apply Forall_mid in Hap as [[_ ?] _]. done.
  - left. split_and!; try done. lia.
  - right. split; [done|]. intros a. rewrite (Hc a) by done.
    unfold tl. cbn [base size]. replace (b + s + _) with (base p + size p) by lia. done.
Qed.

(** The effect of freeing [[b, b + s)]. *)
Inductive freed (rgn : lmb_region) (b s : Z) : Z -> lmb_region -> Prop :=
  | FreedOk rgn' :
      (forall a, b <= a < b + s -> covered rgn a) ->
      (forall a, covered rgn' a <-> covered rgn a /\ ~ b <= a < b + s) ->
      freed rgn b s 0 rgn'
  | FreedNotFound :
      Forall (fun p => ~ contains b s p) (active rgn) -> freed rgn b s (-1) rgn
  | FreedTailLost p rgn' :
      (* no room for the part behind the hole *)
      cnt rgn = MAX_LMB_REGIONS -> p ∈ active rgn -> base p < b -> b + s < base p + size p ->
      (forall a, covered rgn' a <-> covered rgn a /\ ~ b <= a < base p + size p) ->
      freed rgn b s (-1) rgn'.

Lemma covered_hole l1 p l2 b s a (P : Prop) :
  separated (l1 ++ p :: l2) -> contains b s p ->
  (P <-> block_covers p a /\ ~ b <= a < b + s) ->
  Exists (fun q => block_covers q a) (l1 ++ l2) \/ P
  <-> Exists (fun q => block_covers q a) (l1 ++ p :: l2) /\ ~ b <= a < b + s.
Proof.
  intros Hs Hc HP. rewrite Exists_middle.
  pose proof (separated_others _ _ _ b s a Hs Hc) as Ho. rewrite HP. tauto.
Qed.

Lemma lmb_free_region_spec rgn b s :
  free_ok rgn -> valid (Block b s) ->
  exists r rgn', lmb_free_region rgn b s = Some (r, rgn') /\ free_ok rgn' /\ freed rgn b s r rgn'.
Proof.
  intros [Hwf Hs] Hb. pose proof Hs as [Hv _]. pose proof (length_active rgn Hwf) as Hl.
  unfold lmb_free_region. rewrite (wrap_small 32 (b + s)) by (split; blocks; lia).
  destruct (free_scan_spec 10 rgn 0 b s [] (active rgn)) as
    [[-> Hno]|(m1 & p & m2 & Ha & Hc & ->)]; try done; [pose proof Hwf as [_ ?]; mlia| |];
    cbn [mbind option_bind].
  { exists (-1), rgn. split; [done|]. split; [done|]. by apply FreedNotFound. }
  rewrite Ha in Hs. pose proof Hs as (Hp & Hrest & _ & _)%separated_middle.
  assert (Hin : forall a, b <= a < b + s -> covered rgn a).
  { intros a Hab. unfold covered. rewrite Ha, Exists_middle. right.
    unfold contains in Hc. blocks. lia. }
  assert (Hset : forall q, exists rgn', set_region rgn (Z.of_nat (length m1)) q = Some rgn'
     /\ wf_array rgn' /\ cnt rgn' = cnt rgn /\ active rgn' = m1 ++ q :: m2)
    by (intros q; by eapply set_region_middle).
  (* shrinking [p] to [q] removes the range *)
  assert (Hshrink : forall q rgn', wf_array rgn' -> active rgn' = m1 ++ q :: m2 -> valid q ->
      (forall a, block_covers q a <-> block_covers p a /\ ~ b <= a < b + s) ->
      base p <= base q -> base q + size q <= base p + size p ->
      free_ok rgn' /\ freed rgn b s 0 rgn').
  { intros q rgn' Hwf' Ha' Hq Heq ? ?. split.
    - split; [done|]. rewrite Ha'. by eapply separated_shrink.
    - apply FreedOk; [done|]. intros a. unfold covered. rewrite Ha', Ha, Exists_middle.
      by apply covered_hole. }
  rewrite (wrap_small 32 (base p + size p)) by (split; blocks; lia).
  unfold contains in Hc.
  destruct (Z.eqb_spec (base p) b) as [E1|E1], (Z.eqb_spec (base p + size p) (b + s)) as [E2|E2];
    cbn [andb].
  - destruct (lmb_remove_middle rgn (Z.of_nat (length m1)) m1 p m2) as (rgn' & -> & Hwf' & Ha');
      [done..|]. cbn [mbind option_bind].
    exists 0, rgn'. split; [done|]. split; [split; [done|by rewrite Ha']|].
    apply FreedOk; [done|]. intros a. unfold covered. rewrite Ha', Ha.
    rewrite <- (covered_hole m1 p m2 b s a False); [tauto|done|done|]. blocks. lia.
  - rewrite (wrap_small 32 (size p - s)) by (split; blocks; lia).
    edestruct Hset as (rgn' & -> & Hwf' & _ & Ha'). cbn [mbind option_bind].
    eexists 0, rgn'. split; [done|]. eapply Hshrink; try done; blocks; lia.
  - rewrite (wrap_small 32 (size p - s)) by (split; blocks; lia).
    edestruct Hset as (rgn' & -> & Hwf' & _ & Ha'). cbn [mbind option_bind].
    eexists 0, rgn'. split; [done|]. eapply Hshrink; try done; blocks; lia.
  - rewrite (wrap_small 32 (b - base p)), (wrap_small 32 (base p + size p - (b + s)))
      by (split; blocks; lia).
    edestruct Hset as (rgn1 & -> & Hwf1 & Hc1 & Ha1). cbn [mbind option_bind].
    destruct (free_split_spec rgn1 m1 p m2 b s) as (r & rgn' & -> & Hok & Hres);
      [done|done|done|blocks; lia..|].
    exists r, rgn'. split; [done|]. split; [done|].
    assert (Hcut : forall a, covered rgn1 a <-> covered rgn a /\ ~ b <= a < base p + size p).
    { intros a. unfold covered. rewrite Ha1, Ha, Exists_middle.
      replace (base p + size p) with (b + (base p + size p - b)) by lia.
      apply covered_hole; [done|unfold contains; lia|]. blocks. lia. }
    destruct Hres as [(-> & E & ?)|[-> Hcov]].
    + apply (FreedTailLost _ _ _ p); try lia; [by rewrite Ha; set_solver|].
      intros a. rewrite <- Hcut. unfold covered. by rewrite E.
    + apply FreedOk; [done|]. intros a. rewrite Hcov, Hcut.
      assert (b + s <= a < base p + size p -> covered rgn a).
      { intros. unfold covered. rewrite Ha, Exists_middle. right. blocks. lia. }
      destruct (decide (b + s <= a < base p + size p)), (decide (b <= a < base p + size p)),
        (decide (b <= a < b + s)); try lia; tauto.
Qed.

(** ** Queries *)

Lemma overlap_iff b s p :
  valid (Block b s) -> plausible p ->
  lmb_addrs_overlap b s (base p) (size p) = true <-> ~ outside b s p.
Proof.
  intros Hb [Hp| ->]; blocks; unfold lmb_addrs_overlap; rewrite !wrap_small by (split; lia);
  rewrite andb_true_iff, !Z.ltb_lt; lia.
Qed.

Lemma overlaps_loop_spec fuel rgn i b s l1 l2 :
  wf_array rgn -> Forall plausible (active rgn) -> valid (Block b s) ->
  active rgn = l1 ++ l2 -> Z.of_nat (length l1) = i -> (length l2 < fuel)%nat ->
  Forall (outside b s) l1 ->
  (overlaps_loop fuel rgn i b s = Some (-1) /\ Forall (outside b s) (active rgn))
  \/ exists m1 p m2, active rgn = m1 ++ p :: m2 /\ Forall (outside b s) m1 /\ ~ outside b s p
     /\ overlaps_loop fuel rgn i b s = Some (Z.of_nat (length m1)).
Proof.
  intros Hwf Hv Hb Hact Hi Hf Hn. revert i l1 l2 Hact Hi Hf Hn.
  induction fuel as [|fuel IH]; intros i l1 l2 Hact Hi Hf Hn; [lia|].
  pose proof (length_active rgn Hwf) as Hl. rewrite Hact, length_app in Hl.
  cbn [overlaps_loop]. destruct l2 as [|p l2]; cbn [length] in *.
  - left. rewrite app_nil_r in Hact. rewrite Hact.
    destruct (Z.ltb_spec i (cnt rgn)); [lia|done].
  - destruct (Z.ltb_spec i (cnt rgn)); [|lia].
    rewrite (get_region_middle rgn i l1 p l2) by done. cbn [mbind option_bind].
    assert (Hp : plausible p) by (rewrite Hact, Forall_mid in Hv; apply Hv).
    pose proof (overlap_iff b s p Hb Hp) as Hov.
    destruct (lmb_addrs_overlap b s (base p) (size p)).
    + right. exists l1, p, l2. rewrite Hi. split_and!; try done. by apply Hov.
    + apply (IH (i + 1) (l1 ++ [p]) l2);
        [by rewrite Hact, <- app_assoc|rewrite length_app; simpl; lia|lia|].
      apply Forall_app; split; [done|]. rewrite Forall_singleton.
      destruct (decide (outside b s p)) as [|Ho]; [done|]. by apply Hov in Ho.
Qed.

Lemma lmb_overlaps_region_spec rgn b s :
  wf_array rgn -> Forall plausible (active rgn) -> valid (Block b s) ->
  (lmb_overlaps_region rgn b s = Some (-1) /\ disjoint rgn b s)
  \/ exists m1 p m2, active rgn = m1 ++ p :: m2 /\ Forall (outside b s) m1 /\ ~ outside b s p
     /\ lmb_overlaps_region rgn b s = Some (Z.of_nat (length m1)).
Proof.
  intros Hwf Hv Hb. pose proof (length_active rgn Hwf). pose proof Hwf as [_ ?].
  destruct (overlaps_loop_spec 10 rgn 0 b s [] (active rgn)) as [[E Ho]|?]; try done; [mlia| |].
  - left. split; [done|]. by apply disjoint_outside.
  - by right.
Qed.

Lemma is_reserved_loop_spec fuel rgn i a l1 l2 :
  wf_array rgn -> Forall valid (active rgn) -> 0 <= a < 2 ^ 32 ->
  active rgn = l1 ++ l2 -> Z.of_nat (length l1) = i -> (length l2 < fuel)%nat ->
  exists r, is_reserved_loop fuel rgn i a = Some r
    /\ (r = 0 \/ r = 1) /\ (r = 1 <-> Exists (fun p => block_covers p a) l2).
Proof.
  intros Hwf Hv Ha Hact Hi Hf. revert i l1 l2 Hact Hi Hf.
  induction fuel as [|fuel IH]; intros i l1 l2 Hact Hi Hf; [lia|].
  pose proof (length_active rgn Hwf) as Hl. rewrite Hact, length_app in Hl.
  cbn [is_reserved_loop]. destruct l2 as [|p l2]; cbn [length] in *.
  - exists 0. destruct (Z.ltb_spec i (cnt rgn)); [lia|]. rewrite Exists_nil. split_and!; try done. by left.
  - destruct (Z.ltb_spec i (cnt rgn)); [|lia].
    rewrite (get_region_middle rgn i l1 p l2) by done. cbn [mbind option_bind].
    assert (Hp : valid p) by (rewrite Hact, Forall_mid in Hv; apply Hv).
    rewrite (wrap_small 32 (base p + size p - 1)) by (split; blocks; lia).
    destruct (IH (i + 1) (l1 ++ [p]) l2) as (r & Hr & Hr01 & Hiff);
      [by rewrite Hact, <- app_assoc|rewrite length_app; simpl; lia|lia|].
    destruct (Z.leb_spec (base p) a), (Z.leb_spec a (base p + size p - 1)); cbn [andb].
    1: exists 1; split_and!; [done|by right|]; rewrite Exists_cons; split;
         [left; blocks; lia|done].
    all: exists r; split_and!; try done; rewrite Exists_cons, Hiff;
      split; [by right|]; intros [Hc|Hc]; [blocks; lia|done].
Qed.

(** ** [lmb_alloc_base] *)

Lemma lmb_align_down_spec x k :
  0 <= x < 2 ^ 32 -> 0 <= k < 32 -> lmb_align_down x (2 ^ k) = x - x mod 2 ^ k.
Proof.
  intros Hx Hk. unfold lmb_align_down.
  replace (x - x mod 2 ^ k) with ((x .>> k) .<< k).
  2: { rewrite Z.shiftr_div_pow2, Z.shiftl_mul_pow2 by lia.
       pose proof (Z.div_mod x (2 ^ k)). lia. }
  apply Z.bits_inj'. intros n Hn.
  replace (2 ^ k - 1) with (Z.ones k) by (rewrite Z.ones_equiv; lia).
  rewrite Z.land_spec, wrap_testbit, Z.lnot_spec by lia.
  destruct (Z.ltb_spec n k).
  - rewrite Z.ones_spec_low, Z.shiftl_spec_low by lia. cbn. by rewrite !andb_false_r.
  - rewrite Z.ones_spec_high, Z.shiftl_spec, Z.shiftr_spec by lia.
    replace (n - k + k) with n by lia. cbn. rewrite andb_true_r.
    destruct (Z.ltb_spec n 32); [by rewrite andb_true_r|]. rewrite andb_false_r. symmetry.
    destruct (Z.eq_dec x 0) as [->|]; [apply Z.bits_0|].
    apply Z.bits_above_log2; [lia|]. apply Z.log2_lt_pow2; [lia|].
    pose proof (Z.pow_le_mono_r 2 32 n). lia.
Qed.

Section Alloc.
Context (s k max_addr : Z).
Hypothesis s_pos : 0 < s < 2 ^ 32.
Hypothesis k_range : 0 <= k < 32.
Hypothesis max_ok : max_addr = LMB_ALLOC_ANYWHERE \/ s <= max_addr < 2 ^ 32.

Let align := 2 ^ k.

(** An address an allocation of [s] bytes may return from memory block [m]. *)
Definition fits (rsv : lmb_region) (m : lmb_property) (a : Z) : Prop :=
  a <> 0 /\ a mod 2 ^ k = 0 /\ base m <= a /\ a + s <= base m + size m
  /\ (max_addr <> LMB_ALLOC_ANYWHERE -> a + s <= max_addr) /\ disjoint rsv a s.

Lemma align_pos : 0 < align.
Proof. apply Z.pow_pos_nonneg; lia. Qed.

Lemma align_down_bounds x :
  0 <= x < 2 ^ 32 ->
  let y := lmb_align_down x align in
  0 <= y <= x /\ y mod align = 0 /\ (forall c, c mod align = 0 -> c <= x -> c <= y).
Proof.
  intros Hx. cbn zeta. unfold align. rewrite lmb_align_down_spec by lia.
  pose proof align_pos. fold align. pose proof (Z.mod_pos_bound x align ltac:(lia)).
  pose proof (Z.div_mod x align ltac:(lia)). pose proof (Z.div_pos x align ltac:(lia) ltac:(lia)).
  split; [split; [|lia]; nia|]. split.
  - rewrite Zminus_mod_idemp_r, Z.sub_diag. done.
  - intros c Hc Hle. pose proof (Z.div_mod c align ltac:(lia)).
    assert (c / align <= x / align) by (apply Z.div_le_mono; lia). nia.
Qed.

Lemma align_up_bounds : s + align <= 2 ^ 32 ->
  s <= lmb_align_up s align < s + align /\ lmb_align_up s align mod align = 0.
Proof.
  intros Hs. pose proof align_pos as Ha. unfold lmb_align_up.
  rewrite (wrap_small 32 (s + (align - 1))) by (split; lia).
  fold (lmb_align_down (s + (align - 1)) align).
  destruct (align_down_bounds (s + (align - 1))) as ([H1 H2] & H3 & H4); [lia|].
  split; [|done]. split; [|lia].
  unfold align in *. rewrite lmb_align_down_spec by lia.
  pose proof (Z.mod_pos_bound (s + (2 ^ k - 1)) (2 ^ k) ltac:(lia)). lia.
Qed.

(** The [while] loop in one memory block ends after one turn per reserved
    block, and either takes an address that fits, as high as possible, or
    leaves when there is none. *)
Lemma alloc_while_spec fuel rsv m b l1 l2 :
  lmb_ok table rsv -> valid m -> base m + size m + align <= 2 ^ 32 ->
  Forall plausible (active rsv) ->
  active rsv = l1 ++ l2 -> (length l1 < fuel)%nat ->
  0 <= b -> b mod align = 0 -> b + s <= base m + size m ->
  (max_addr <> LMB_ALLOC_ANYWHERE -> b + s <= max_addr) ->
  (base m <= b -> Forall (outside b s) l2) ->
  (forall c, fits rsv m c -> c <= b) ->
  (exists a rsv' r, alloc_while fuel rsv (base m) s align b = Some (Some (if r <? 0 then 0 else a, rsv'))
     /\ fits rsv m a /\ (forall c, fits rsv m c -> c <= a)
     /\ lmb_add_region rsv a (lmb_align_up s align) = Some (r, rsv'))
  \/ (alloc_while fuel rsv (base m) s align b = Some None /\ forall c, ~ fits rsv m c).
Proof.
  intros Hok Hm Hend Hv. revert b l1 l2.
  induction fuel as [|fuel IH]; intros b l1 l2 Hact Hf Hb0 Hba Hbm Hbx Hbl Hmax; [lia|].
  cbn [alloc_while]. pose proof align_pos as Hal.
  destruct (Z.eqb_spec b 0) as [Hz|Hz]; cbn [negb andb].
  { right. split; [done|]. intros c Hc. pose proof (Hmax c Hc).
    destruct Hc as (? & ? & ? & _). blocks. lia. }
  destruct (Z.leb_spec (base m) b) as [Hlb|Hlb].
  2: { right. split; [done|]. intros c Hc. pose proof (Hmax c Hc).
       destruct Hc as (? & ? & ? & _). lia. }
  assert (Hbv : valid (Block b s)) by (blocks; lia).
  pose proof Hok as [Hwf _]. specialize (Hbl Hlb).
  destruct (lmb_overlaps_region_spec rsv b s) as [[-> Hd]|(m1 & p & m2 & Ha & Ho & Hnp & ->)];
    try done; cbn [mbind option_bind].
  - left. destruct (align_up_bounds ltac:(blocks; lia)) as [Hup _].
    destruct (lmb_add_region_spec rsv b (lmb_align_up s align)) as (r & rsv' & E & _);
      [done|blocks; lia|].
    exists b, rsv', r. change (-1 <? 0) with true. cbn iota. rewrite E. cbn.
    split; [done|]. split; [|done]. split_and!; try done.
  - destruct (Z.ltb_spec (Z.of_nat (length m1)) 0); [lia|].
    rewrite (get_region_middle rsv (Z.of_nat (length m1)) m1 p m2) by done. cbn [mbind option_bind].
    assert (Hp : valid p).
    { rewrite Ha, Forall_mid in Hv. destruct Hv as [[?| ->] _]; [done|]. blocks. lia. }
    assert (Hbelow : forall c, fits rsv m c -> c + s <= base p).
    { intros c Hc. pose proof (Hmax c Hc). destruct Hc as (_ & _ & ? & ? & _ & Hd).
      apply disjoint_outside in Hd; [|done|blocks; lia]. rewrite Ha, Forall_mid in Hd.
      destruct Hd as [Hd _]. blocks. lia. }
    destruct (Z.ltb_spec (base p) s) as [Hps|Hps].
    { right. split; [done|]. intros c Hc. specialize (Hbelow c Hc).
      destruct Hc as (_ & _ & ? & _). blocks. lia. }
    destruct (align_down_bounds (base p - s)) as ([Hy0 Hy1] & Hy2 & Hy3); [blocks; lia|].
    apply (IH _ m1 (p :: m2)); try done.
    + assert (~ (length l1 <= length m1)%nat); [|lia]. intros Hle.
      assert (p ∈ l2); [|rewrite Forall_forall in Hbl; auto].
      assert (Hlk : (l1 ++ l2) !! length m1 = Some p)
        by (rewrite <- Hact, Ha; by apply list_lookup_middle).
      rewrite lookup_app_r in Hlk by done. by eapply list_elem_of_lookup_2.
    + blocks. lia.
    + intros Hx. specialize (Hbx Hx). blocks. lia.
    + intros _. destruct Hok as [_ [Hph|[_ [_ Hsort]]]].
      * unfold placeholder in Hph. rewrite Ha in Hph. destruct m1 as [|? [|]]; simplify_list_eq. blocks. lia.
      * rewrite Ha in Hsort. apply StronglySorted_app_iff in Hsort as (_ & Hsort & _).
        apply StronglySorted_cons_iff in Hsort as [_ Hsort].
        constructor; [blocks; lia|]. eapply Forall_impl; [exact Hsort|].
        intros x Hx. blocks. lia.
    + intros c Hc. apply Hy3; [apply Hc|]. specialize (Hbelow c Hc). lia.
Qed.

(** The result of an allocation attempt over the memory blocks [ms]. *)
Inductive allocated (l : lmb) (ms : list lmb_property) : Z -> lmb -> Prop :=
  | AllocOk a m rsv r :
      m ∈ ms -> fits (reserved l) m a ->
      (* higher blocks have no room, and [a] is the highest address of [m] *)
      (forall c, fits (reserved l) m c -> c <= a) ->
      lmb_add_region (reserved l) a (lmb_align_up s (2 ^ k)) = Some (r, rsv) -> 0 <= r ->
      allocated l ms a (Lmb (memory l) rsv)
  | AllocFull a m rsv r :
      m ∈ ms -> fits (reserved l) m a ->
      lmb_add_region (reserved l) a (lmb_align_up s (2 ^ k)) = Some (r, rsv) -> r < 0 ->
      allocated l ms 0 (Lmb (memory l) rsv)
  | AllocNone :
      (forall m c, m ∈ ms -> ~ fits (reserved l) m c) -> allocated l ms 0 l.

Lemma allocated_mono l ms m a l' :
  (forall c, ~ fits (reserved l) m c) -> allocated l ms a l' -> allocated l (ms ++ [m]) a l'.
Proof.
  intros Hm. destruct 1.
  - econstructor 1; eauto. set_solver.
  - econstructor 2; eauto. set_solver.
  - apply AllocNone. intros m' c [?|Hin]%elem_of_app; [auto|]. apply list_elem_of_singleton in Hin as ->. auto.
Qed.

(** Where the search in one memory block starts. *)
Lemma alloc_start_spec m :
  valid m -> s <= size m ->
  max_addr = LMB_ALLOC_ANYWHERE \/ base m < max_addr ->
  let b := if max_addr =? LMB_ALLOC_ANYWHERE
           then lmb_align_down (u32 (base m + size m - s)) align
           else lmb_align_down (u32 (Z.min (u32 (base m + size m)) max_addr - s)) align in
  0 <= b /\ b mod align = 0 /\ b + s <= base m + size m
  /\ (max_addr <> LMB_ALLOC_ANYWHERE -> b + s <= max_addr)
  /\ forall rsv c, fits rsv m c -> c <= b.
Proof.
  intros Hm Hs Hmax. cbn zeta. unfold LMB_ALLOC_ANYWHERE in *.
  assert (Hgen : forall x, 0 <= x -> x + s <= base m + size m ->
     (max_addr <> 0 -> x + s <= max_addr) ->
     (forall rsv c, fits rsv m c -> c <= x) ->
     let b := lmb_align_down x align in
     0 <= b /\ b mod align = 0 /\ b + s <= base m + size m
     /\ (max_addr <> 0 -> b + s <= max_addr) /\ forall rsv c, fits rsv m c -> c <= b).
  { intros x ? ? Hx Hc. cbn zeta.
    destruct (align_down_bounds x) as ([? ?] & ? & Hhi); [blocks; lia|].
    split_and!; try done; [lia| |].
    - intros Hne. specialize (Hx Hne). lia.
    - intros rsv c Hfit. apply Hhi; [apply Hfit|eauto]. }
  blocks. rewrite (wrap_small 32 (base m + size m)) by (split; lia).
  destruct (Z.eqb_spec max_addr 0); rewrite !wrap_small by (split; lia); apply Hgen; try lia;
    intros rsv c (_ & _ & ? & ? & Hlim & _); unfold LMB_ALLOC_ANYWHERE in *; try specialize (Hlim ltac:(done)); lia.
Qed.

Lemma alloc_for_spec n l :
  lmb_ok table (reserved l) -> wf_array (memory l) -> Forall plausible (active (memory l)) ->
  Forall (fun m => base m + size m + align <= 2 ^ 32) (active (memory l)) ->
  (n <= length (active (memory l)))%nat ->
  exists a l', alloc_for n l s align max_addr = Some (a, l')
    /\ allocated l (take n (active (memory l))) a l'.
Proof.
  intros Hok Hwf Hv Hroom. induction n as [|n IH]; intros Hn; cbn [alloc_for].
  { exists 0, l. split; [done|]. apply AllocNone. intros m c Hm. by apply elem_of_nil in Hm. }
  destruct (lookup_lt_is_Some_2 (active (memory l)) n) as [m Hm]; [lia|].
  rewrite get_region_active, Nat2Z.id, Hm by (try done; rewrite <- length_active by done; lia).
  cbn [mbind option_bind]. rewrite (take_S_r _ _ m) by done.
  destruct IH as (a' & l'' & E' & Hall); [lia|].
  assert (Hskip : (forall c, ~ fits (reserved l) m c) ->
    exists a l', alloc_for n l s align max_addr = Some (a, l')
      /\ allocated l (take n (active (memory l)) ++ [m]) a l').
  { intros Hno. exists a', l''. split; [done|]. by apply allocated_mono. }
  assert (Hmin : m ∈ active (memory l)) by (by eapply list_elem_of_lookup_2).
  rewrite Forall_forall in Hv, Hroom. specialize (Hroom m Hmin). cbn in Hroom.
  destruct (Z.ltb_spec (size m) s) as [Hsz|Hsz].
  { apply Hskip. intros c (_ & _ & ? & ? & _). lia. }
  assert (Hmv : valid m) by (destruct (Hv m Hmin) as [?| ->]; [done|cbn in *; lia]).
  destruct ((max_addr =? LMB_ALLOC_ANYWHERE) || (base m <? max_addr)) eqn:Hmax.
  2: { apply orb_false_iff in Hmax as [Hm1%Z.eqb_neq Hm2%Z.ltb_ge].
       apply Hskip. intros c (_ & _ & ? & ? & Hlim & _). specialize (Hlim Hm1). lia. }
  rewrite orb_true_iff, Z.eqb_eq, Z.ltb_lt in Hmax.
  pose proof (alloc_start_spec m Hmv Hsz Hmax) as Hstart. cbn zeta in Hstart.
  destruct Hstart as (Hb0 & Hba & Hbm & Hbx & Hbc).
  assert (Hrv : Forall plausible (active (reserved l))).
  { destruct Hok as [_ [Hph|[_ [? _]]]]; [rewrite Hph|by apply valid_plausible].
    constructor; [by right|constructor]. }
  match type of Hb0 with 0 <= ?x => set (b := x) in * end.
  destruct (alloc_while_spec 10 (reserved l) m b (active (reserved l)) []) as
    [(a & rsv & r & -> & Hfit & Hhi & Hadd)|[-> Hno]]; try done; cbn [mbind option_bind].
  - by rewrite app_nil_r.
  - pose proof Hok as [Hwr _]. pose proof (length_active _ Hwr). pose proof Hwr as [_ ?]. mlia.
  - apply Hbc.
  - destruct (Z.ltb_spec r 0).
    + exists 0, (Lmb (memory l) rsv). split; [done|]. eapply AllocFull; try done. set_solver.
    + exists a, (Lmb (memory l) rsv). split; [done|]. eapply AllocOk; try done. set_solver.
  - by apply Hskip.
Qed.

End Alloc.

(** ** Correctness of the entry points *)

(** [lmb_reserve] (and [lmb_add] on the other table) never leaves the
    array; it either reports a full table and changes no block, or returns the
    number of merges and the table covers exactly what it covered before plus
    the new range. *)
Theorem lmb_reserve_covers l b s :
  lmb_ok table (reserved l) -> 0 <= b -> 0 < s -> b + s < 2 ^ 32 ->
  exists r l', lmb_reserve l b s = Some (r, l') /\ memory l' = memory l
    /\ added (reserved l) b s r (reserved l').
Proof.
  intros Hok H1 H2 H3. unfold lmb_reserve.
  destruct (lmb_add_region_spec (reserved l) b s) as (r & rgn' & -> & _ & _ & Hadd & _);
    [done|done|]. by eexists r, (Lmb _ rgn').
Qed.

(** The invariant of the tables (sorted, in bounds, no two blocks overlap
    or touch) holds after [lmb_init] and is kept by adding memory or reserving
    a range that was free. *)
Theorem lmb_ok_invariant old_memory old_reserved l b s :
  length old_memory = 9%nat -> length old_reserved = 9%nat ->
  lmb_ok separated (memory l) -> lmb_ok separated (reserved l) ->
  0 <= b -> 0 < s -> b + s < 2 ^ 32 ->
  (let l0 := lmb_init old_memory old_reserved in
   lmb_ok separated (memory l0) /\ lmb_ok separated (reserved l0)
   /\ forall a, ~ covered (memory l0) a /\ ~ covered (reserved l0) a)
  /\ (disjoint (memory l) b s -> exists r l', lmb_add l b s = Some (r, l')
        /\ lmb_ok separated (memory l') /\ reserved l' = reserved l)
  /\ (disjoint (reserved l) b s -> exists r l', lmb_reserve l b s = Some (r, l')
        /\ memory l' = memory l /\ lmb_ok separated (reserved l')).
Proof.
  intros Hm0 Hr0 Hm Hr H1 H2 H3. split; [|split].
  - split; [by apply lmb_init_ok|]. split; [by apply lmb_init_ok|].
    intros a. unfold covered, lmb_init. cbn [memory reserved].
    rewrite !lmb_init_active by done. rewrite !Exists_cons, !Exists_nil. unfold block_covers. cbn. lia.
  - intros Hd. unfold lmb_add.
    destruct (lmb_add_region_spec (memory l) b s) as (r & rgn' & -> & Hwf & Hne & _ & Hsep);
      [by apply lmb_ok_table|done|].
    eexists r, (Lmb rgn' _). split; [done|]. split; [|done]. split; [done|]. right. auto.
  - intros Hd. unfold lmb_reserve.
    destruct (lmb_add_region_spec (reserved l) b s) as (r & rgn' & -> & Hwf & Hne & _ & Hsep);
      [by apply lmb_ok_table|done|].
    eexists r, (Lmb _ rgn'). split; [done|]. split; [done|]. split; [done|]. right. auto.
Qed.

(** [lmb_free] removes exactly the given range when one block contains it,
    changes nothing when none does, and keeps the table well formed; when the
    range is inside a block and the table is full, the part behind the hole
    is dropped with the error. *)
Theorem lmb_free_correct l b s :
  wf_array (reserved l) -> separated (active (reserved l)) ->
  0 <= b -> 0 < s -> b + s < 2 ^ 32 ->
  exists r l', lmb_free l b s = Some (r, l') /\ memory l' = memory l
    /\ wf_array (reserved l') /\ separated (active (reserved l'))
    /\ freed (reserved l) b s r (reserved l').
Proof.
  intros Hwf Hs H1 H2 H3. unfold lmb_free.
  destruct (lmb_free_region_spec (reserved l) b s) as (r & rgn' & -> & [? ?] & ?); [done|done|].
  by eexists r, (Lmb _ rgn').
Qed.

(** [lmb_is_reserved] answers whether a block covers the address, and
    [lmb_overlaps_region] returns the first block that meets the range, or -1
    when none does. *)
Theorem lmb_queries_correct l b s addr :
  wf_array (reserved l) -> Forall valid (active (reserved l)) ->
  0 <= b -> 0 < s -> b + s < 2 ^ 32 -> 0 <= addr < 2 ^ 32 ->
  (exists r, lmb_is_reserved l addr = Some r /\ (r = 0 \/ r = 1)
     /\ (r = 1 <-> covered (reserved l) addr))
  /\ exists j, lmb_overlaps_region (reserved l) b s = Some j
     /\ (j = -1 /\ disjoint (reserved l) b s
         \/ exists p, active (reserved l) !! Z.to_nat j = Some p /\ 0 <= j
              /\ (exists a, block_covers p a /\ b <= a < b + s)
              /\ forall i q, (i < Z.to_nat j)%nat -> active (reserved l) !! i = Some q ->
                   forall a, block_covers q a -> ~ b <= a < b + s).
Proof.
  intros Hwf Hv H1 H2 H3 Ha. split.
  - pose proof (length_active _ Hwf). pose proof Hwf as [_ ?].
    apply (is_reserved_loop_spec 10 (reserved l) 0 addr []); try done. mlia.
  - destruct (lmb_overlaps_region_spec (reserved l) b s) as [[-> Hd]|(m1 & p & m2 & E & Ho & Hp & ->)];
      [done|by apply valid_plausible|done| |].
    { exists (-1). split; [done|]. by left. }
    eexists. split; [done|]. right. exists p. rewrite Nat2Z.id, E. split_and!.
    + by apply list_lookup_middle.
    + lia.
    + assert (valid p) by (rewrite E, Forall_mid in Hv; apply Hv).
      exists (Z.max b (base p)). blocks. lia.
    + intros i q Hi. rewrite lookup_app_l by done. intros Hq a Hc ?.
      rewrite Forall_forall in Ho. specialize (Ho q ltac:(by eapply list_elem_of_lookup_2)).
      blocks. lia.
Qed.

Lemma lmb_alloc_base_spec l s k max_addr :
  0 < s < 2 ^ 32 -> 0 <= k < 32 ->
  max_addr = LMB_ALLOC_ANYWHERE \/ s <= max_addr < 2 ^ 32 ->
  lmb_ok table (reserved l) -> wf_array (memory l) ->
  Forall plausible (active (memory l)) ->
  Forall (fun m => base m + size m + 2 ^ k <= 2 ^ 32) (active (memory l)) ->
  exists a l', lmb_alloc_base l s (2 ^ k) max_addr = Some (a, l') /\ memory l' = memory l
    /\ ((a <> 0 /\ (exists m, m ∈ active (memory l) /\ fits s k max_addr (reserved l) m a
                     /\ forall c, fits s k max_addr (reserved l) m c -> c <= a)
          /\ exists s', s <= s' < s + 2 ^ k /\ s' mod 2 ^ k = 0
             /\ (exists r, lmb_add_region (reserved l) a s' = Some (r, reserved l')) /\ valid (Block a s')
             /\ forall x, covered (reserved l') x <-> covered (reserved l) x \/ a <= x < a + s')
        \/ (a = 0 /\ active (reserved l') = active (reserved l)
            /\ (cnt (reserved l) = MAX_LMB_REGIONS
                \/ forall m c, m ∈ active (memory l) -> ~ fits s k max_addr (reserved l) m c))).
Proof.
  intros Hs Hk Hmax Hok Hwf Hv Hroom. unfold lmb_alloc_base, __lmb_alloc_base.
  pose proof (length_active _ Hwf) as Hlen.
  destruct (alloc_for_spec s k max_addr Hs Hk Hmax (Z.to_nat (cnt (memory l))) l)
    as (a & l' & E & Hall); try done; [lia|].
  exists a, l'. split; [exact E|]. rewrite firstn_all2 in Hall by lia.
  assert (Hadd : forall m a, m ∈ active (memory l) -> fits s k max_addr (reserved l) m a ->
    (s <= lmb_align_up s (2 ^ k) < s + 2 ^ k /\ lmb_align_up s (2 ^ k) mod 2 ^ k = 0)
    /\ valid (Block a (lmb_align_up s (2 ^ k)))).
  { intros m c Hm (Hc0 & _ & Hc1 & Hc2 & _). rewrite Forall_forall in Hroom, Hv.
    specialize (Hroom m Hm). specialize (Hv m Hm).
    assert (valid m) by (destruct Hv as [?| ->]; [done|cbn in *; lia]).
    pose proof (align_up_bounds s k Hs Hk ltac:(blocks; lia)) as Hup.
    split; [done|]. blocks. lia. }
  destruct Hall as [a m rsv r Hm Hfit Hhi Ha Hr|a m rsv r Hm Hfit Ha Hr|Hno].
  - split; [done|]. left. destruct (Hadd m a Hm Hfit) as [Hup Hval].
    destruct (lmb_add_region_spec _ _ _ Hok Hval) as (r' & rsv' & E' & _ & _ & Hadded & _).
    rewrite Ha in E'. injection E' as <- <-. split; [apply Hfit|]. split; [by exists m|].
    exists (lmb_align_up s (2 ^ k)). split_and!; try apply Hup; try apply Hval; [by exists r|].
    destruct Hadded as [(? & _)|[_ Hc]]; [lia|done].
  - split; [done|]. right. destruct (Hadd m a Hm Hfit) as [Hup Hval].
    destruct (lmb_add_region_spec _ _ _ Hok Hval) as (r' & rsv' & E' & _ & _ & Hadded & _).
    rewrite Ha in E'. injection E' as <- <-. destruct Hadded as [(_ & ? & ?)|[? _]]; [|lia].
    split_and!; try done. by left.
  - split; [done|]. right. split_and!; try done. by right.
Qed.

(** C37: [lmb_alloc_base] ends, and returns the highest aligned address of a
    memory block at which the request fits below the limit without touching a
    reserved byte, after reserving it; it returns 0 only when no memory block
    has such an address or the table of reserved blocks is full. *)
Theorem lmb_alloc_base_correct l s k max_addr :
  0 < s < 2 ^ 32 -> 0 <= k < 32 ->
  max_addr = LMB_ALLOC_ANYWHERE \/ s <= max_addr < 2 ^ 32 ->
  lmb_ok table (reserved l) -> wf_array (memory l) ->
  Forall plausible (active (memory l)) ->
  Forall (fun m => base m + size m + 2 ^ k <= 2 ^ 32) (active (memory l)) ->
  exists a l', lmb_alloc_base l s (2 ^ k) max_addr = Some (a, l') /\ memory l' = memory l
    /\ ((a <> 0 /\ (exists m, m ∈ active (memory l) /\ fits s k max_addr (reserved l) m a
                     /\ forall c, fits s k max_addr (reserved l) m c -> c <= a)
          /\ exists s', s <= s' < s + 2 ^ k /\ s' mod 2 ^ k = 0
             /\ forall x, covered (reserved l') x <-> covered (reserved l) x \/ a <= x < a + s')
        \/ (a = 0 /\ active (reserved l') = active (reserved l)
            /\ (cnt (reserved l) = MAX_LMB_REGIONS
                \/ forall m c, m ∈ active (memory l) -> ~ fits s k max_addr (reserved l) m c))).
Proof.
  intros Hs Hk Hmax Hok Hwf Hv Hroom. destruct (lmb_alloc_base_spec l s k max_addr) as (a & l' & E & Hm & H); try done.
  exists a, l'. split; [done|]. split; [done|]. destruct H as [(Ha & Hfit & s' & H1 & H2 & _ & _ & Hc)|H]; [left|by right].
  split; [done|]. split; [done|]. by exists s'.
Qed.

(** *** Pages for one allocation after another

    A request is rounded up when it is reserved, over blocks behind it if
    there are any; when no block is smaller than a page the table stays
    sorted. *)
Definition long (L : Z) (rgn : lmb_region) : Prop := Forall (fun p => L <= size p) (active rgn).

Lemma table_replace l1 p l2 p' :
  table (l1 ++ p :: l2) -> valid p' -> Forall (fun q => base q <= base p') l1 -> base p' <= base p ->
  table (l1 ++ p' :: l2).
Proof.
  intros Ht Hv Hl Hle. apply table_middle in Ht as (_ & [Hv' Hs'] & Hpl) . split.
  - apply Forall_mid. by split.
  - apply StronglySorted_app_iff. apply StronglySorted_app_iff in Hs' as (H1 & H2 & H3). split_and!; [done| |].
    + apply StronglySorted_cons_iff. split; [done|]. eapply Forall_impl; [exact Hpl|]. intros x. unfold by_base. lia.
    + intros q x Hq [->|Hx]%elem_of_cons; [|by apply H3]. rewrite Forall_forall in Hl. by apply Hl.
Qed.

Lemma add_rel_long b s s1 L l ret l' :
  add_rel b s l ret l' -> separated l -> Forall (fun p => L <= size p) l -> valid (Block b s) ->
  0 < s1 <= s -> s < s1 + L -> Forall (outside b s1) l -> table l'.
Proof.
  intros Hadd Hsep Hlong Hb Hs1 HsL Ho.
  assert (Hnew : forall l1 p l2, l = l1 ++ p :: l2 -> lmb_addrs_adjacent b s (base p) (size p) <> 0 ->
    valid (extend b s p) /\ Forall (fun q => base q <= base (extend b s p)) l1 /\ base (extend b s p) <= base p).
  { intros l1 p l2 -> Hadj. apply separated_middle in Hsep as (Hp & _ & Hl & _).
    destruct (extend_spec b s p) as [Hv Hcase]; [done..|]. split; [done|].
    rewrite Forall_app in Hlong, Ho. destruct Hlong as [Hlong _], Ho as [Ho _]. rewrite Forall_forall in Hl, Hlong, Ho.
    split; [apply Forall_forall; intros q Hq; specialize (Hl q Hq); specialize (Hlong q Hq); specialize (Ho q Hq)|];
      blocks; destruct Hcase as [[? ->]|[? ->]]; cbn [base] in *; lia. }
  pose proof (separated_table _ Hsep) as Ht.
  destruct Hadd as [l Hin|l1 p l2 _ Hadj _|l1 p q l2 _ Hadj Hm|l Hap _|l1 l2 Hap _ Hla Hl2]; [done| | |done|].
  - destruct (Hnew l1 p l2 eq_refl Hadj) as (Hv & Hl & Hle). by apply (table_replace l1 p).
  - destruct (Hnew l1 p (q :: l2) eq_refl Hadj) as (Hv & Hl & Hle).
    apply table_middle in Ht as Ht'. destruct Ht' as (Hp & Ht' & Hpq). apply table_middle in Ht' as (Hq & _ & _).
    apply Forall_cons in Hpq as [Hpq _]. destruct (merge_spec b s p q) as [E ->]; [done..|].
    change (l1 ++ p :: q :: l2) with (l1 ++ [p] ++ q :: l2) in Ht. rewrite app_assoc in Ht.
    apply table_middle in Ht as (_ & Ht & _). rewrite <- app_assoc in Ht. cbn [app] in Ht.
    apply (table_replace l1 p); try done. blocks. lia.
  - destruct Ht as [Hv Hs]. split; [by apply Forall_mid|]. pose proof Hs as (H1 & H2 & H3)%StronglySorted_app_iff.
    apply StronglySorted_app_iff. split; [done|]. split.
    + apply StronglySorted_cons_iff. split; [done|]. eapply Forall_impl; [exact Hl2|]. intros x. unfold by_base. cbn [base]. lia.
    + intros q x Hq [->|Hx]%elem_of_cons; [|by apply H3]. unfold by_base. cbn [base]. by apply (last_below l1).
Qed.

(** The state of the tables when pages are handed out. *)
Definition pages (l : lmb) : Prop :=
  wf_array (memory l) /\ Forall plausible (active (memory l))
  /\ Forall (fun m => base m + size m + 2 ^ 12 <= 2 ^ 32) (active (memory l)).

(** [s] bytes at [a], from free memory below the limit; they are reserved
    then. *)
Definition taken (l : lmb) (s max_addr a : Z) (l' : lmb) : Prop :=
  a <> 0 /\ (exists m, m ∈ active (memory l) /\ fits s 12 max_addr (reserved l) m a)
  /\ forall x, covered (reserved l) x \/ a <= x < a + s -> covered (reserved l') x.

Lemma lmb_alloc_page l s max_addr :
  0 < s < 2 ^ 32 -> max_addr = LMB_ALLOC_ANYWHERE \/ s <= max_addr < 2 ^ 32 ->
  pages l -> lmb_ok table (reserved l) ->
  exists a l', lmb_alloc_base l s 0x1000 max_addr = Some (a, l') /\ memory l' = memory l
    /\ (taken l s max_addr a l'
        \/ a = 0 /\ (cnt (reserved l) = MAX_LMB_REGIONS
             \/ forall m c, m ∈ active (memory l) -> ~ fits s 12 max_addr (reserved l) m c))
    /\ (a <> 0 -> lmb_ok separated (reserved l) -> long 0x1000 (reserved l) -> lmb_ok table (reserved l')).
Proof.
  intros Hs Hmax (Hwf & Hv & Hroom) Hok.
  destruct (lmb_alloc_base_spec l s 12 max_addr) as (a & l' & E & Hm & H); try done.
  exists a, l'. change 0x1000 with (2 ^ 12). split; [done|]. split; [done|].
  destruct H as [(Ha & (m & Hin & Hfit & _) & s' & H1 & _ & (r & Hadd) & Hval & Hc)|(-> & _ & H)].
  - split; [left; split; [done|]; split; [by exists m|]; intros x Hx; apply Hc; lia || naive_solver lia|].
    intros _ Hsep Hlong. destruct (lmb_add_region_spec _ _ _ Hok Hval) as (r' & rgn & Hadd' & Hwf' & Hne & _ & _).
    rewrite Hadd in Hadd'. injection Hadd' as <- <-. split; [done|]. right. split; [done|].
    destruct Hsep as [Hw [Hph|[Hne' Hsep]]].
    + destruct (lmb_add_region_placeholder (reserved l) a s' Hw Hph) as (rgn & E' & _ & Hact).
      rewrite Hadd in E'. injection E' as _ <-. rewrite Hact. split; [by constructor|repeat constructor].
    + destruct (lmb_add_region_refines (reserved l) a s' Hw) as (r' & rgn & E' & _ & Hrel);
        [apply separated_table, Hsep|by eapply nonempty_ok; [..|apply separated_table]|].
      rewrite Hadd in E'. injection E' as <- <-.
      apply (add_rel_long a s' s (2 ^ 12) _ _ _ Hrel Hsep Hlong Hval); [lia|lia|].
      destruct Hfit as (_ & _ & Hb & He & _ & Hd). apply disjoint_outside in Hd; [done| |].
      * apply valid_plausible, Hsep.
      * blocks. lia.
  - split; [right; split; done|]. by intros [].
Qed.

(** ** Witnesses *)

Definition fresh : list lmb_property := replicate 9 (Block 0 0).

(** 256 MiB of memory with two reserved pages. *)
Definition demo : lmb :=
  Lmb (Region 1 0 (Block 0 0x10000000 :: replicate 8 (Block 0 0)))
      (Region 2 0 (Block 0x1000 0x1000 :: Block 0x8000 0x1000 :: replicate 7 (Block 0 0))).

Lemma demo_separated :
  separated (active (memory demo)) /\ separated (active (reserved demo)).
Proof. split; (split; [repeat constructor|]; repeat constructor); done. Qed.

Lemma demo_wf : wf_array (memory demo) /\ wf_array (reserved demo).
Proof. split; (split; [done|]); cbn; mlia. Qed.

Lemma demo_ok : lmb_ok separated (memory demo) /\ lmb_ok separated (reserved demo).
Proof.
  pose proof demo_wf as [? ?]. pose proof demo_separated as [? ?].
  split; (split; [done|]); by right.
Qed.

Lemma demo_disjoint : disjoint (memory demo) 0x20000000 0x1000 /\ disjoint (reserved demo) 0x2000 0x1000.
Proof.
  split; intros a Ha; unfold covered;
    [change (active (memory demo)) with [Block 0 0x10000000]
    |change (active (reserved demo)) with [Block 0x1000 0x1000; Block 0x8000 0x1000]];
    rewrite !Exists_cons, Exists_nil;
    unfold block_covers; cbn; lia.
Qed.

Lemma lmb_reserve_covers_witness :
  exists r l', lmb_reserve demo 0x2000 0x1000 = Some (r, l') /\ memory l' = memory demo
    /\ added (reserved demo) 0x2000 0x1000 r (reserved l').
Proof. apply lmb_reserve_covers; try lia. apply lmb_ok_table, demo_ok. Defined.

Lemma lmb_ok_invariant_witness :
  (exists r l', lmb_add demo 0x20000000 0x1000 = Some (r, l')
     /\ lmb_ok separated (memory l') /\ reserved l' = reserved demo)
  /\ exists r l', lmb_reserve demo 0x2000 0x1000 = Some (r, l')
     /\ memory l' = memory demo /\ lmb_ok separated (reserved l').
Proof.
  split.
  - apply (lmb_ok_invariant fresh fresh demo 0x20000000 0x1000); try done; try apply demo_ok.
    apply demo_disjoint.
  - apply (lmb_ok_invariant fresh fresh demo 0x2000 0x1000); try done; try apply demo_ok.
    apply demo_disjoint.
Defined.

Lemma lmb_free_correct_witness :
  exists r l', lmb_free demo 0x8000 0x800 = Some (r, l') /\ memory l' = memory demo
    /\ wf_array (reserved l') /\ separated (active (reserved l'))
    /\ freed (reserved demo) 0x8000 0x800 r (reserved l').
Proof.
  apply lmb_free_correct; try lia; [apply demo_wf|apply demo_separated].
Defined.

Lemma lmb_queries_correct_witness :
  exists r, lmb_is_reserved demo 0x8123 = Some r /\ (r = 0 \/ r = 1)
    /\ (r = 1 <-> covered (reserved demo) 0x8123).
Proof.
  apply (lmb_queries_correct demo 0x2000 0x1000 0x8123); try lia;
    [apply demo_wf|apply demo_separated].
Defined.

Lemma lmb_alloc_base_correct_witness :
  exists a l', lmb_alloc_base demo 0x1800 (2 ^ 12) 0x9000 = Some (a, l')
    /\ memory l' = memory demo.
Proof.
  destruct (lmb_alloc_base_correct demo 0x1800 12 0x9000) as (a & l' & E & Hm & _); try lia.
  - apply lmb_ok_table, demo_ok.
  - apply demo_wf.
  - apply valid_plausible, demo_separated.
  - repeat constructor. cbn. lia.
  - by exists a, l'.
Defined.

(** ** Calls on which the code does not do what it should *)

(** Freeing the last block leaves [cnt = 0] with a stale first entry; the
    next reservation reports success, reserves the stale block again and not
    the requested one. *)
Example lmb_reserve_after_last_free :
  (l ← Some (lmb_init fresh fresh);
   '(_, l) ← lmb_reserve l 0x1000 0x1000;
   '(_, l) ← lmb_free l 0x1000 0x1000;
   '(r, l) ← lmb_reserve l 0x5000 0x1000;
   old ← lmb_is_reserved l 0x1000;
   new ← lmb_is_reserved l 0x5000;
   Some (r, old, new)) = Some (0, 1, 0).
Proof. vm_compute. reflexivity. Qed.

(** With two stale entries that touch, the reservation merges them and the
    shifting loop runs to [cnt - 1 = 2^32 - 1], out of the array. *)
Example lmb_reserve_leaves_array :
  (l ← Some (lmb_init fresh fresh);
   '(_, l) ← lmb_reserve l 0x1000 0x1000;
   '(_, l) ← lmb_reserve l 0x3000 0x1000;
   '(_, l) ← lmb_free l 0x3000 0x1000;
   '(_, l) ← lmb_reserve l 0x2000 0x1000;
   '(_, l) ← lmb_free l 0x1000 0x2000;
   Some (cnt (reserved l), lmb_reserve l 0x5000 0x1000)) = Some (0, None).
Proof. vm_compute. reflexivity. Qed.

(** A limit below the size wraps around, and the address returned is above
    the limit and outside memory. *)
Example lmb_alloc_base_wraps :
  (a ← lmb_alloc_base demo 0x2000 0x1000 0x1000; Some (fst a)) = Some 0xfffff000.
Proof. vm_compute. reflexivity. Qed.

(** The placeholder of [lmb_init] has [base + size - 1 = 2^32 - 1] as its
    last address: with nothing reserved every address counts as reserved. *)
Theorem lmb_is_reserved_fresh old_memory old_reserved addr :
  length old_reserved = 9%nat -> 0 <= addr < 2 ^ 32 ->
  lmb_is_reserved (lmb_init old_memory old_reserved) addr = Some 1.
Proof.
  intros Hl Ha. destruct old_reserved as [|x old]; [done|].
  unfold lmb_is_reserved, lmb_init. cbn [reserved is_reserved_loop].
  change (get_region (lmb_init_region (x :: old)) 0) with (Some (Block 0 0)).
  cbn [cnt lmb_init_region Z.ltb Z.compare mbind option_bind base size].
  change (u32 (0 + 0 - 1)) with (2 ^ 32 - 1).
  destruct (Z.leb_spec 0 addr), (Z.leb_spec addr (2 ^ 32 - 1)); try lia. done.
Qed.

End Lmb.
