(* ===== verification/Cstring.v ===== *)
(** * C strings and memory blocks (lib/string.c, lib/ctype.c)

    A pointer that is only read is the list of bytes from it to the end of the
    object it points into; reading past the end is [None].  A returned pointer
    is an offset from the argument, a null pointer is [None] inside the
    result.  [char] is unsigned on this target.  [size_t] counters are [Z] and
    the loops recurse on the bytes, so [-1U] is an ordinary argument. *)

From S2P Require Import Prelude.

Module Cstring.

(** The contents of a string, without the terminator. *)
Abbreviation str := (list Z).

Definition cstr (s : str) : list Z := s ++ [0].

(** A string has bytes other than NUL. *)
Definition is_str (s : str) : Prop := Forall (fun c => 0 < c < 256) s.

#[global] Instance is_str_dec s : Decision (is_str s).
Proof. unfold is_str. apply _. Defined.

(** String literals. *)
Definition bytes_of (t : string) : str :=
  map (fun a => Z.of_nat (Ascii.nat_of_ascii a)) (String.list_ascii_of_string t).

(** Conversion to [signed char]. *)
Definition s8 (z : Z) : Z := let z := u8 z in if z <? 128 then z else z - 256.

(** ** Character classes *)

Definition _ctype : list Z :=
  [8; 8; 8; 8; 8; 8; 8; 8; 8; 40; 40; 40; 40; 40; 8; 8;
   8; 8; 8; 8; 8; 8; 8; 8; 8; 8; 8; 8; 8; 8; 8; 8;
   160; 16; 16; 16; 16; 16; 16; 16; 16; 16; 16; 16; 16; 16; 16; 16;
   4; 4; 4; 4; 4; 4; 4; 4; 4; 4; 16; 16; 16; 16; 16; 16;
   16; 65; 65; 65; 65; 65; 65; 1; 1; 1; 1; 1; 1; 1; 1; 1;
   1; 1; 1; 1; 1; 1; 1; 1; 1; 1; 1; 16; 16; 16; 16; 16;
   16; 66; 66; 66; 66; 66; 66; 2; 2; 2; 2; 2; 2; 2; 2; 2;
   2; 2; 2; 2; 2; 2; 2; 2; 2; 2; 2; 16; 16; 16; 16; 8;
   0; 0; 0; 0; 0; 0; 0; 0; 0; 0; 0; 0; 0; 0; 0; 0;
   0; 0; 0; 0; 0; 0; 0; 0; 0; 0; 0; 0; 0; 0; 0; 0;
   160; 16; 16; 16; 16; 16; 16; 16; 16; 16; 16; 16; 16; 16; 16; 16;
   16; 16; 16; 16; 16; 16; 16; 16; 16; 16; 16; 16; 16; 16; 16; 16;
   1; 1; 1; 1; 1; 1; 1; 1; 1; 1; 1; 1; 1; 1; 1; 1;
   1; 1; 1; 1; 1; 1; 1; 16; 1; 1; 1; 1; 1; 1; 1; 2;
   2; 2; 2; 2; 2; 2; 2; 2; 2; 2; 2; 2; 2; 2; 2; 2;
   2; 2; 2; 2; 2; 2; 2; 16; 2; 2; 2; 2; 2; 2; 2; 2].

Definition __ismask (x : Z) : Z := nth (Z.to_nat (u8 x)) _ctype 0.

Definition isalpha (c : Z) : bool := negb (__ismask c .& 0x03 =? 0).
Definition isdigit (c : Z) : bool := negb (__ismask c .& 0x04 =? 0).
Definition isupper (c : Z) : bool := negb (__ismask c .& 0x01 =? 0).
Definition islower (c : Z) : bool := negb (__ismask c .& 0x02 =? 0).
Definition isspace (c : Z) : bool := negb (__ismask c .& 0x20 =? 0).
Definition isxdigit (c : Z) : bool := negb (__ismask c .& 0x44 =? 0).
Definition isblank (c : Z) : bool := (c =? 32) || (c =? 9).

Definition tolower (c : Z) : Z := if isupper c then u8 (c - (65 - 97)) else c.
Definition toupper (c : Z) : Z := if islower c then u8 (c - (97 - 65)) else c.

(** ** Reading strings *)

Fixpoint strlen (s : list Z) : option nat :=
  match s with
  | [] => None
  | c :: s => if c =? 0 then Some 0%nat else n ← strlen s; Some (S n)
  end.

Fixpoint strnlen (s : list Z) (count : Z) : option nat :=
  if count =? 0 then Some 0%nat else
  match s with
  | [] => None
  | c :: s => if c =? 0 then Some 0%nat else n ← strnlen s (count - 1); Some (S n)
  end.

Fixpoint strcmp (cs ct : list Z) : option Z :=
  match cs, ct with
  | c :: cs, d :: ct =>
      let res := s8 (c - d) in
      if negb (res =? 0) || (c =? 0) then Some res else strcmp cs ct
  | _, _ => None
  end.

Fixpoint strncmp (cs ct : list Z) (count : Z) : option Z :=
  if count =? 0 then Some 0 else
  match cs, ct with
  | c :: cs, d :: ct =>
      let res := s8 (c - d) in
      if negb (res =? 0) || (c =? 0) then Some res else strncmp cs ct (count - 1)
  | _, _ => None
  end.

(** The loop of [strncasecmp], entered with [len > 0]. *)
Fixpoint strncasecmp_loop (s1 s2 : list Z) (len : Z) : option Z :=
  match s1, s2 with
  | c1 :: s1, c2 :: s2 =>
      if c1 =? 0 then Some (c1 - c2)
      else if c2 =? 0 then Some (c1 - c2)
      else if c1 =? c2 then
        if len - 1 =? 0 then Some (c1 - c2) else strncasecmp_loop s1 s2 (len - 1)
      else
        let c1 := tolower c1 in
        let c2 := tolower c2 in
        if negb (c1 =? c2) then Some (c1 - c2)
        else if len - 1 =? 0 then Some (c1 - c2) else strncasecmp_loop s1 s2 (len - 1)
  | _, _ => None
  end.

Definition strncasecmp (s1 s2 : list Z) (len : Z) : option Z :=
  if len =? 0 then Some 0 else strncasecmp_loop s1 s2 len.

Definition strcasecmp (s1 s2 : list Z) : option Z := strncasecmp s1 s2 (u32 (-1)).

Fixpoint strchr (s : list Z) (c : Z) : option (option nat) :=
  match s with
  | [] => None
  | x :: s =>
      if x =? u8 c then Some (Some 0%nat)
      else if x =? 0 then Some None
      else r ← strchr s c; Some (option_map S r)
  end.

(** [do { if ( *p == (char)c) return p; } while (--p >= s)], at [p = s + n]. *)
Fixpoint strrchr_loop (s : list Z) (c : Z) (n : nat) : option (option nat) :=
  x ← s !! n;
  if x =? u8 c then Some (Some n)
  else match n with O => Some None | S n => strrchr_loop s c n end.

Definition strrchr (s : list Z) (c : Z) : option (option nat) :=
  n ← strlen s; strrchr_loop s c n.

(** The inner loops of [strspn] and [strpbrk]: is [c] before the NUL of [a]? *)
Fixpoint in_set (c : Z) (a : list Z) : option bool :=
  match a with
  | [] => None
  | x :: a => if x =? 0 then Some false else if c =? x then Some true else in_set c a
  end.

Fixpoint strspn (s accept : list Z) : option nat :=
  match s with
  | [] => None
  | c :: s =>
      if c =? 0 then Some 0%nat else
      b ← in_set c accept;
      if negb b then Some 0%nat else n ← strspn s accept; Some (S n)
  end.

Fixpoint strpbrk (cs ct : list Z) : option (option nat) :=
  match cs with
  | [] => None
  | c :: cs =>
      if c =? 0 then Some None else
      b ← in_set c ct;
      if b : bool then Some (Some 0%nat) else r ← strpbrk cs ct; Some (option_map S r)
  end.

(** [strtok] on the object [mem]: the static [___strtok] is an argument and a
    result; the pointer returned is an offset in [mem]. *)
Definition strtok (mem : list Z) (saved s : option nat) (ct : list Z)
    : option (option nat * option nat * list Z) :=
  match (match s with Some p => Some p | None => saved end) with
  | None => Some (None, saved, mem)
  | Some sbegin =>
      n ← strspn (drop sbegin mem) ct;
      let sbegin := (sbegin + n)%nat in
      c ← mem !! sbegin;
      if c =? 0 then Some (None, None, mem) else
      send ← strpbrk (drop sbegin mem) ct;
      match send with
      | Some k =>
          d ← mem !! (sbegin + k)%nat;
          if negb (d =? 0)
          then Some (Some sbegin, Some (sbegin + k + 1)%nat, <[(sbegin + k)%nat := 0]> mem)
          else Some (Some sbegin, Some (sbegin + k)%nat, mem)
      | None => Some (Some sbegin, None, mem)
      end
  end.

(** [strsep]: the token and the new value of the pointer. *)
Definition strsep (mem : list Z) (s : option nat) (ct : list Z)
    : option (option nat * option nat * list Z) :=
  match s with
  | None => Some (None, None, mem)
  | Some sbegin =>
      fin ← strpbrk (drop sbegin mem) ct;
      match fin with
      | Some k =>
          Some (Some sbegin, Some (sbegin + k + 1)%nat, <[(sbegin + k)%nat := 0]> mem)
      | None => Some (Some sbegin, None, mem)
      end
  end.

(** ** Writing strings *)

(** [while (( *dest++ = *src++) != '\0')]; the result is the destination object. *)
Fixpoint strcpy (dest src : list Z) : option (list Z) :=
  match dest, src with
  | _ :: dest, c :: src =>
      if c =? 0 then Some (0 :: dest) else d ← strcpy dest src; Some (c :: d)
  | _, _ => None
  end.

Fixpoint strncpy (dest src : list Z) (count : Z) : option (list Z) :=
  if count =? 0 then Some dest else
  match dest, src with
  | _ :: dest, c :: src =>
      if c =? 0 then Some (0 :: dest) else d ← strncpy dest src (count - 1); Some (c :: d)
  | _, _ => None
  end.

Fixpoint strcat (dest src : list Z) : option (list Z) :=
  match dest with
  | [] => None
  | c :: dest' => if c =? 0 then strcpy dest src else d ← strcat dest' src; Some (c :: d)
  end.

(** The copying loop of [strncat], [count > 0]. *)
Fixpoint strncat_loop (dest src : list Z) (count : Z) : option (list Z) :=
  match dest, src with
  | _ :: dest, c :: src =>
      if c =? 0 then Some (0 :: dest) else
      if count - 1 =? 0 then
        match dest with _ :: dest => Some (c :: 0 :: dest) | [] => None end
      else d ← strncat_loop dest src (count - 1); Some (c :: d)
  | _, _ => None
  end.

Fixpoint strncat (dest src : list Z) (count : Z) : option (list Z) :=
  if count =? 0 then Some dest else
  match dest with
  | [] => None
  | c :: dest' => if c =? 0 then strncat_loop dest src count
                  else d ← strncat dest' src count; Some (c :: d)
  end.

(** [malloc] gives a fresh object of the right size. *)
Definition strdup (s : list Z) : option (list Z) :=
  n ← strlen s; strcpy (replicate (n + 1) 0) s.

(** Swaps neighbours up to the NUL. *)
Fixpoint strswab_loop (s : list Z) : option (list Z) :=
  match s with
  | [] => None
  | p :: s' =>
      if p =? 0 then Some s else
      match s' with
      | [] => None
      | q :: s'' => if q =? 0 then Some s else r ← strswab_loop s''; Some (q :: p :: r)
      end
  end.

Definition strswab (s : list Z) : option (list Z) :=
  match s with
  | [] => None
  | c :: _ => if c =? 0 then Some s else strswab_loop s
  end.

(** ** Memory blocks *)

(** Byte loops: [n] bytes of [c]; [n] bytes of [src]. *)
Fixpoint fill (dest : list Z) (c : Z) (n : nat) {struct n} : option (list Z) :=
  match n, dest with
  | O, _ => Some dest
  | S n, _ :: dest => d ← fill dest c n; Some (u8 c :: d)
  | S _, [] => None
  end.

Fixpoint copy (dest src : list Z) (n : nat) {struct n} : option (list Z) :=
  match n, dest, src with
  | O, _, _ => Some dest
  | S n, _ :: dest, c :: src => d ← copy dest src n; Some (c :: d)
  | S _, _, _ => None
  end.

(** Storing a word at the start of [dest], little endian. *)
Definition store32 (dest : list Z) (w : Z) (k : list Z -> option (list Z)) : option (list Z) :=
  match dest with
  | _ :: _ :: _ :: _ :: dest =>
      d ← k dest; Some (u8 w :: u8 (w .>> 8) :: u8 (w .>> 16) :: u8 (w .>> 24) :: d)
  | _ => None
  end.

(** The word loop of [memset]. *)
Fixpoint memset_words (words : nat) (dest : list Z) (cl c : Z) (rest : nat) : option (list Z) :=
  match words with
  | O => fill dest c rest
  | S words => store32 dest cl (fun d => memset_words words d cl c rest)
  end.

(** [aligned]: [s] is a multiple of four. *)
Definition memset (aligned : bool) (dest : list Z) (c : Z) (count : nat) : option (list Z) :=
  if aligned then
    let cl := fold_left (fun cl _ => u32 (cl .<< 8) .| (c .& 0xff)) (seq 0 4) 0 in
    memset_words (count / 4)%nat dest cl c (count mod 4)%nat
  else fill dest c count.

Fixpoint memcpy_words (words : nat) (dest src : list Z) (rest : nat) : option (list Z) :=
  match words with
  | O => copy dest src rest
  | S words =>
      match src with
      | a :: b :: c :: d :: src =>
          store32 dest (le_combine [a; b; c; d]) (fun dest => memcpy_words words dest src rest)
      | _ => None
      end
  end.

(** Different objects; [aligned]: both pointers are multiples of four. *)
Definition memcpy_ (aligned : bool) (dest src : list Z) (count : nat) : option (list Z) :=
  if aligned then memcpy_words (count / 4)%nat dest src (count mod 4)%nat else copy dest src count.

Definition bcopy (src dest : list Z) (count : nat) : option (list Z) := copy dest src count.

(** [memmove] inside one object, [dest] and [src] offsets in [mem]. *)
Fixpoint move_up (mem : list Z) (d s n : nat) : option (list Z) :=
  match n with
  | O => Some mem
  | S n =>
      c ← mem !! s;
      if (d <? length mem)%nat then move_up (<[d := c]> mem) (d + 1) (s + 1) n else None
  end.

Fixpoint move_down (mem : list Z) (d s n : nat) : option (list Z) :=
  match n with
  | O => Some mem
  | S n =>
      c ← mem !! (s + n)%nat;
      if (d + n <? length mem)%nat then move_down (<[(d + n)%nat := c]> mem) d s n else None
  end.

Definition memmove (mem : list Z) (dest src n : nat) : option (list Z) :=
  if (src =? dest)%nat then Some mem
  else if (dest <=? src)%nat then move_up mem dest src n
  else move_down mem dest src n.

Fixpoint memcmp (cs ct : list Z) (count : nat) {struct count} : option Z :=
  match count with
  | O => Some 0
  | S count =>
      match cs, ct with
      | a :: cs, b :: ct => if negb (a - b =? 0) then Some (a - b) else memcmp cs ct count
      | _, _ => None
      end
  end.

(** [memscan] returns the end of the area when the byte is missing. *)
Fixpoint memscan (s : list Z) (c : Z) (size : nat) {struct size} : option nat :=
  match size with
  | O => Some 0%nat
  | S size =>
      match s with
      | [] => None
      | x :: s => if x =? c then Some 0%nat else n ← memscan s c size; Some (S n)
      end
  end.

Fixpoint memchr (s : list Z) (c : Z) (n : nat) {struct n} : option (option nat) :=
  match n with
  | O => Some None
  | S n =>
      match s with
      | [] => None
      | x :: s => if u8 c =? x then Some (Some 0%nat) else r ← memchr s c n; Some (option_map S r)
      end
  end.

(** The [while (l1 >= l2)] loop of [strstr]; [n = l1 - l2 + 1] turns remain. *)
Fixpoint strstr_loop (s1 s2 : list Z) (l2 n : nat) {struct n} : option (option nat) :=
  match n with
  | O => Some None
  | S n =>
      r ← memcmp s1 s2 l2;
      if r =? 0 then Some (Some 0%nat)
      else match s1 with
           | [] => None
           | _ :: s1 => k ← strstr_loop s1 s2 l2 n; Some (option_map S k)
           end
  end.

Definition strstr (s1 s2 : list Z) : option (option nat) :=
  l2 ← strlen s2;
  if (l2 =? 0)%nat then Some (Some 0%nat) else
  l1 ← strlen s1;
  strstr_loop s1 s2 l2 (l1 + 1 - l2).

(** ** Strings *)

Lemma strlen_cstr s r : is_str s -> strlen (s ++ 0 :: r) = Some (length s).
Proof.
  induction 1 as [|c s Hc Hs IH]; [done|]. cbn. destruct (Z.eqb_spec c 0); [lia|].
  by rewrite IH.
Qed.

(** Lexicographic order by unsigned bytes. *)
Fixpoint lex (a b : str) : comparison :=
  match a, b with
  | [], [] => Eq
  | [], _ => Lt
  | _, [] => Gt
  | x :: a, y :: b => match x ?= y with Eq => lex a b | c => c end
  end.

Lemma lex_eq a b : lex a b = Eq <-> a = b.
Proof.
  revert b. induction a as [|x a IH]; intros [|y b]; cbn; try done.
  destruct (Z.compare_spec x y) as [->|Hlt|Hgt]; [rewrite IH; naive_solver|..].
  all: split; [done|]; intros [=]; lia.
Qed.

Lemma lex_antisym a b : lex b a = CompOpp (lex a b).
Proof.
  revert b. induction a as [|x a IH]; intros [|y b]; cbn; try done.
  rewrite (Z.compare_antisym x y). destruct (x ?= y); cbn; auto.
Qed.

Lemma lex_lt_trans a b c : lex a b = Lt -> lex b c = Lt -> lex a c = Lt.
Proof.
  revert b c. induction a as [|x a IH]; intros [|y b] [|z c]; cbn; try done.
  destruct (Z.compare_spec x y), (Z.compare_spec y z), (Z.compare_spec x z);
    try done; try lia; subst; eauto.
Qed.

Lemma s8_zero c d : 0 <= c < 256 -> 0 <= d < 256 -> s8 (c - d) = 0 <-> c = d.
Proof.
  intros Hc Hd. unfold s8, wrap.
  pose proof (Z.mod_pos_bound (c - d) (2 ^ 8) ltac:(lia)).
  pose proof (Z.div_mod (c - d) (2 ^ 8) ltac:(lia)).
  destruct (Z.ltb_spec ((c - d) mod 2 ^ 8) 128); lia.
Qed.

Lemma s8_ascii c d : 0 <= c < 128 -> 0 <= d < 128 -> s8 (c - d) = c - d.
Proof.
  intros Hc Hd. unfold s8, wrap.
  pose proof (Z.mod_pos_bound (c - d) (2 ^ 8) ltac:(lia)).
  pose proof (Z.div_mod (c - d) (2 ^ 8) ltac:(lia)).
  destruct (Z.ltb_spec ((c - d) mod 2 ^ 8) 128); lia.
Qed.

Definition ascii (s : str) : Prop := Forall (fun c => c < 128) s.

Lemma strcmp_spec a b x y :
  is_str a -> is_str b ->
  exists r, strcmp (a ++ 0 :: x) (b ++ 0 :: y) = Some r /\ (r = 0 <-> a = b)
    /\ (ascii a -> ascii b -> (r ?= 0) = lex a b).
Proof.
  intros Ha. revert b. induction Ha as [|c a Hc Ha IH]; intros b Hb.
  - destruct Hb as [|d b Hd Hb]; cbn [app strcmp].
    + exists 0. done.
    + pose proof (s8_zero 0 d) as Hz. exists (s8 (0 - d)).
      rewrite orb_true_r. split; [done|]. split; [split; [intros E; apply Hz in E; lia|done]|].
      intros _ Hd'. apply Forall_cons in Hd' as [? _]. rewrite s8_ascii by lia.
      apply Z.compare_lt_iff. lia.
  - destruct Hb as [|d b Hd Hb]; cbn [app strcmp].
    + pose proof (s8_zero c 0) as Hz. exists (s8 (c - 0)).
      destruct (Z.eqb_spec (s8 (c - 0)) 0) as [E|E]; [apply Hz in E; lia|]. cbn [negb orb].
      split; [done|]. split; [done|]. intros Hc' _. apply Forall_cons in Hc' as [? _].
      rewrite s8_ascii by lia. apply Z.compare_gt_iff. lia.
    + pose proof (s8_zero c d ltac:(lia) ltac:(lia)) as Hz.
      destruct (Z.eqb_spec (s8 (c - d)) 0) as [E|E]; cbn [negb orb].
      * apply Hz in E as ->. destruct (Z.eqb_spec d 0); [lia|].
        destruct (IH b Hb) as (r & -> & H0 & Hl). exists r. split; [done|].
        split; [rewrite H0; naive_solver|].
        intros [_ ?]%Forall_cons [_ ?]%Forall_cons. cbn. rewrite Z.compare_refl. auto.
      * exists (s8 (c - d)). split; [done|]. split; [split; [done|naive_solver]|].
        intros [? _]%Forall_cons [? _]%Forall_cons. rewrite s8_ascii in * by lia. cbn [lex].
        destruct (Z.compare_spec c d); [lia|apply Z.compare_lt_iff; lia|apply Z.compare_gt_iff; lia].
Qed.

(** Memory that compares equal to a string starts with the string. *)
Lemma strcmp_eq_cstr a s :
  bytes a -> is_str s -> strcmp a (cstr s) = Some 0 -> exists r, a = s ++ 0 :: r.
Proof.
  intros Ha Hs. revert a Ha. induction Hs as [|d s Hd Hs IH]; intros [|c a] Ha; try done;
    apply Forall_cons in Ha as [Hc Ha]; unfold in_word in Hc; cbn [cstr app strcmp].
  - pose proof (s8_zero c 0 ltac:(lia) ltac:(lia)) as Hz.
    destruct (Z.eqb_spec (s8 (c - 0)) 0) as [E|E]; cbn [negb orb].
    + apply Hz in E as ->. intros _. by exists a.
    + intros [= ?]. done.
  - pose proof (s8_zero c d ltac:(lia) ltac:(lia)) as Hz.
    destruct (Z.eqb_spec (s8 (c - d)) 0) as [E|E]; cbn [negb orb].
    + apply Hz in E as ->. destruct (Z.eqb_spec d 0); [lia|].
      intros (r & ->)%IH; [|done]. by exists r.
    + intros [= ?]. done.
Qed.

(** Equality as the callers test it. *)
Definition streq (a b : str) : bool :=
  match strcmp (cstr a) (cstr b) with Some r => r =? 0 | None => false end.

Lemma streq_spec a b : is_str a -> is_str b -> streq a b = true <-> a = b.
Proof.
  intros Ha Hb. unfold streq, cstr.
  destruct (strcmp_spec a b [] [] Ha Hb) as (r & -> & Hr & _). rewrite Z.eqb_eq. apply Hr.
Qed.

(** [strncmp] over the whole first string tests for a prefix. *)
(** Only the bytes of [a] are compared. *)
Lemma strncmp_first a b x y :
  is_str a -> is_str b ->
  exists r, strncmp (a ++ x) (b ++ 0 :: y) (Z.of_nat (length a)) = Some r
    /\ (r = 0 <-> a `prefix_of` b).
Proof.
  intros Ha. revert b. induction Ha as [|c a Hc Ha IH]; intros b Hb.
  - exists 0. split; [by destruct x, b|]. split; [|done]. intros _. apply prefix_nil.
  - cbn [length]. rewrite Nat2Z.inj_succ. destruct Hb as [|d b Hd Hb]; cbn [app strncmp].
    all: destruct (Z.eqb_spec (Z.succ (Z.of_nat (length a))) 0); [lia|].
    + pose proof (s8_zero c 0 ltac:(lia) ltac:(lia)) as Hz. exists (s8 (c - 0)).
      destruct (Z.eqb_spec (s8 (c - 0)) 0) as [E|E]; [apply Hz in E; lia|]. cbn [negb orb].
      split; [done|]. split; [done|]. intros [k Hk]. done.
    + pose proof (s8_zero c d ltac:(lia) ltac:(lia)) as Hz.
      destruct (Z.eqb_spec (s8 (c - d)) 0) as [E|E]; cbn [negb orb].
      * apply Hz in E as ->. destruct (Z.eqb_spec d 0); [lia|].
        replace (Z.succ (Z.of_nat (length a)) - 1) with (Z.of_nat (length a)) by lia.
        destruct (IH b Hb) as (r & -> & H0). exists r. split; [done|]. rewrite H0.
        split; [apply prefix_cons|apply prefix_cons_inv_2].
      * exists (s8 (c - d)). split; [done|]. split; [done|].
        intros Hp. apply prefix_cons_inv_1 in Hp. subst. exfalso. by apply E, Hz.
Qed.

Lemma strncmp_prefix a b x y :
  is_str a -> is_str b ->
  exists r, strncmp (a ++ 0 :: x) (b ++ 0 :: y) (Z.of_nat (length a)) = Some r
    /\ (r = 0 <-> a `prefix_of` b).
Proof. apply strncmp_first. Qed.

(** ** Searching *)

Lemma memcmp_spec s1 s2 n :
  (n <= length s1)%nat -> (n <= length s2)%nat ->
  exists r, memcmp s1 s2 n = Some r /\ (r = 0 <-> take n s1 = take n s2).
Proof.
  revert s1 s2. induction n as [|n IH]; intros s1 s2 H1 H2; [by exists 0|].
  destruct s1 as [|a s1], s2 as [|b s2]; cbn in H1, H2; try lia. cbn [memcmp take].
  destruct (Z.eqb_spec (a - b) 0) as [E|E]; cbn [negb].
  - destruct (IH s1 s2) as (r & -> & Hr); [lia..|]. exists r. split; [done|].
    rewrite Hr. assert (a = b) as -> by lia. split; [by intros ->|by intros [= ->]].
  - exists (a - b). split; [done|]. split; [lia|]. intros [= -> _]. lia.
Qed.

Definition occurs_at (s1 s2 : str) (k : nat) : Prop :=
  (k + length s2 <= length s1)%nat /\ take (length s2) (drop k s1) = s2.

Lemma strstr_loop_spec n s1 x s2 y :
  (n + length s2 <= length s1 + 1)%nat -> (n = 0%nat \/ n + length s2 = length s1 + 1)%nat ->
  exists r, strstr_loop (s1 ++ x) (s2 ++ y) (length s2) n = Some r
    /\ match r with
       | Some k => (k < n)%nat /\ occurs_at s1 s2 k
                   /\ forall j, (j < k)%nat -> ~ occurs_at s1 s2 j
       | None => forall j, (j < n)%nat -> ~ occurs_at s1 s2 j
       end.
Proof.
  revert s1. induction n as [|n IH]; intros s1 Hn Hn'; cbn [strstr_loop].
  { exists None. split; [done|]. lia. }
  assert (Hlen : (length s2 <= length s1)%nat) by lia.
  destruct (memcmp_spec (s1 ++ x) (s2 ++ y) (length s2)) as (r & -> & Hr);
    [rewrite length_app; lia..|]. cbn [mbind option_bind].
  rewrite take_app_le, take_app_length in Hr by done.
  destruct (Z.eqb_spec r 0) as [E|E].
  - exists (Some 0%nat). split; [done|]. split; [lia|]. split; [|lia].
    split; [done|]. rewrite drop_0. by apply Hr.
  - assert (H0 : ~ occurs_at s1 s2 0).
    { intros [_ Ht]. rewrite drop_0 in Ht. by apply E, Hr. }
    destruct s1 as [|c s1].
    { destruct s2; [|cbn in Hlen; lia]. cbn in Hr. exfalso. by apply E, Hr. }
    cbn [app]. cbn [length] in *. assert (Hshift : forall j, occurs_at s1 s2 j <-> occurs_at (c :: s1) s2 (S j)).
    { intros j. unfold occurs_at. cbn [drop length]. rewrite Nat.add_succ_l, <- Nat.succ_le_mono. done. }
    destruct (IH s1) as (r' & -> & Hres); [lia|lia|]. cbn [mbind option_bind].
    eexists. split; [done|]. destruct r' as [k|]; cbn [option_map].
    + destruct Hres as (Hk & Hocc & Hno). split; [lia|]. split; [by apply Hshift|].
      intros [|j] Hj; [done|]. rewrite <- Hshift. apply Hno. lia.
    + intros [|j] Hj; [done|]. rewrite <- Hshift. apply Hres. lia.
Qed.

Lemma strstr_spec s1 s2 x y :
  is_str s1 -> is_str s2 ->
  exists r, strstr (s1 ++ 0 :: x) (s2 ++ 0 :: y) = Some r
    /\ match r with
       | Some k => occurs_at s1 s2 k /\ forall j, (j < k)%nat -> ~ occurs_at s1 s2 j
       | None => forall j, ~ occurs_at s1 s2 j
       end.
Proof.
  intros H1 H2. unfold strstr. rewrite !strlen_cstr by done. cbn [mbind option_bind].
  destruct (Nat.eqb_spec (length s2) 0) as [Hz|Hz].
  - destruct s2; [|done]. exists (Some 0%nat). split; [done|]. split; [|lia].
    split; [cbn; lia|done].
  - destruct (decide (length s2 <= length s1)%nat) as [Hle|Hgt].
    + destruct (strstr_loop_spec (length s1 + 1 - length s2) s1 (0 :: x) s2 (0 :: y))
        as (r & -> & Hr); [lia..|].
      exists r. split; [done|]. destruct r as [k|]; [by destruct Hr as (_ & ?)|].
      intros j Hocc. apply (Hr j); [|done]. destruct Hocc as [? _]. lia.
    + replace (length s1 + 1 - length s2)%nat with 0%nat by lia. exists None. split; [done|].
      intros j [? _]. lia.
Qed.

(** ** Memory blocks *)

Lemma fill_spec dest c n :
  (n <= length dest)%nat -> fill dest c n = Some (replicate n (u8 c) ++ drop n dest).
Proof.
  revert dest. induction n as [|n IH]; intros dest Hn; [done|].
  destruct dest as [|x dest]; cbn in Hn; [lia|]. cbn [fill].
  rewrite IH by lia. done.
Qed.

Lemma copy_spec dest src n :
  (n <= length dest)%nat -> (n <= length src)%nat ->
  copy dest src n = Some (take n src ++ drop n dest).
Proof.
  revert dest src. induction n as [|n IH]; intros dest src Hd Hs; [done|].
  destruct dest as [|x dest], src as [|y src]; cbn in Hd, Hs; try lia. cbn [copy].
  rewrite IH by lia. done.
Qed.

Lemma memset_word c :
  let cl := fold_left (fun cl _ => u32 (cl .<< 8) .| (c .& 0xff)) (seq 0 4) 0 in
  u8 cl = u8 c /\ u8 (cl .>> 8) = u8 c /\ u8 (cl .>> 16) = u8 c /\ u8 (cl .>> 24) = u8 c.
Proof.
  cbn zeta. cbn [seq fold_left]. change 0xff with (Z.ones 8).
  rewrite <- wrap_land_ones by lia.
  assert (Hc : in_word 8 (u8 c)) by auto with word. revert Hc.
  generalize (u8 c) as x. intros x Hx. split_and!; zbits.
Qed.

Lemma memset_spec aligned dest c count :
  (count <= length dest)%nat ->
  memset aligned dest c count = Some (replicate count (u8 c) ++ drop count dest).
Proof.
  intros Hl. unfold memset. destruct aligned; [|by apply fill_spec].
  pose proof (memset_word c) as Hw. cbn zeta in Hw. set (cl := fold_left _ _ 0) in *.
  pose proof (Nat.div_mod_eq count 4) as Hdm.
  revert Hl Hdm. generalize (count mod 4)%nat as rest, (count / 4)%nat as words.
  intros rest words Hl ->. clearbody cl. revert dest Hl.
  induction words as [|words IH]; intros dest Hl; cbn [memset_words].
  - apply fill_spec. lia.
  - destruct dest as [|a [|b [|e [|d dest]]]]; cbn in Hl; try lia. unfold store32.
    rewrite IH by lia. cbn [mbind option_bind]. destruct Hw as (-> & -> & -> & ->).
    replace (4 * S words + rest)%nat with (S (S (S (S (4 * words + rest))))) by lia. done.
Qed.

Lemma store_load a b c d :
  byte a -> byte b -> byte c -> byte d ->
  let w := le_combine [a; b; c; d] in
  [u8 w; u8 (w .>> 8); u8 (w .>> 16); u8 (w .>> 24)] = [a; b; c; d].
Proof.
  intros Ha Hb Hc Hd. cbn zeta. unfold le_combine. rewrite Z.shiftl_0_l, Z.lor_0_r.
  do 4 (apply (f_equal2 cons); [zbits|]). done.
Qed.

Lemma memcpy_spec aligned dest src count :
  bytes src -> (count <= length dest)%nat -> (count <= length src)%nat ->
  memcpy_ aligned dest src count = Some (take count src ++ drop count dest).
Proof.
  intros Hb Hd Hs. unfold memcpy_. destruct aligned; [|by apply copy_spec].
  pose proof (Nat.div_mod_eq count 4) as Hdm. revert Hd Hs Hdm.
  generalize (count mod 4)%nat as rest, (count / 4)%nat as words.
  intros rest words Hd Hs ->. revert dest src Hb Hd Hs.
  induction words as [|words IH]; intros dest src Hb Hd Hs; cbn [memcpy_words].
  - apply copy_spec; lia.
  - destruct src as [|a [|b [|c [|d src]]]]; cbn in Hs; try lia.
    destruct dest as [|? [|? [|? [|? dest]]]]; cbn in Hd; try lia.
    rewrite !Forall_cons in Hb. destruct Hb as (Ha & Hb & Hc & Hdd & Hsrc).
    unfold store32. rewrite IH by (done || lia). cbn [mbind option_bind].
    pose proof (store_load a b c d Ha Hb Hc Hdd) as Hw. cbn zeta in Hw.
    set (w := le_combine [a; b; c; d]) in *. clearbody w. injection Hw as -> -> -> ->.
    replace (4 * S words + rest)%nat with (S (S (S (S (4 * words + rest))))) by lia. done.
Qed.

Lemma take_S_r' (mem : list Z) d c :
  (d < length mem)%nat -> take (d + 1) (<[d := c]> mem) = take d mem ++ [c].
Proof.
  intros Hd. rewrite Nat.add_1_r, (take_S_r _ _ c) by (by apply list_lookup_insert_eq).
  by rewrite take_insert_ge by lia.
Qed.

Lemma memcpy_insert_front mem d c X :
  (d < length mem)%nat -> memcpy (<[d := c]> mem) (d + 1) X = memcpy mem d (c :: X).
Proof.
  intros Hd. unfold memcpy. rewrite (take_S_r' mem d c Hd).
  rewrite drop_insert_lt by lia. rewrite <- app_assoc. cbn [length app].
  by replace (d + 1 + length X)%nat with (d + S (length X))%nat by lia.
Qed.

Lemma memcpy_insert_back mem d c X :
  (d + length X < length mem)%nat ->
  memcpy (<[(d + length X)%nat := c]> mem) d X = memcpy mem d (X ++ [c]).
Proof.
  intros Hd. unfold memcpy. rewrite take_insert_ge by lia. rewrite length_app, <- !app_assoc.
  do 2 f_equal. cbn [length]. rewrite Nat.add_assoc.
  rewrite (drop_S _ c) by (apply list_lookup_insert_eq; lia).
  rewrite drop_insert_lt by lia. cbn [app]. f_equal. f_equal. lia.
Qed.

Lemma move_up_spec mem d s n :
  (d <= s)%nat -> (s + n <= length mem)%nat ->
  move_up mem d s n = Some (memcpy mem d (take n (drop s mem))).
Proof.
  revert mem d s. induction n as [|n IH]; intros mem d s Hds Hl; cbn [move_up].
  - unfold memcpy. rewrite take_0. cbn [length app]. by rewrite Nat.add_0_r, take_drop.
  - destruct (lookup_lt_is_Some_2 mem s) as [c Hc]; [lia|]. rewrite Hc. cbn [mbind option_bind].
    destruct (Nat.ltb_spec d (length mem)); [|lia].
    rewrite IH by (rewrite ?length_insert; lia). rewrite memcpy_insert_front by lia.
    rewrite drop_insert_lt by lia. rewrite (drop_S _ _ _ Hc). cbn [take].
    by replace (s + 1)%nat with (S s) by lia.
Qed.

Lemma move_down_spec mem d s n :
  (s <= d)%nat -> (d + n <= length mem)%nat ->
  move_down mem d s n = Some (memcpy mem d (take n (drop s mem))).
Proof.
  revert mem. induction n as [|n IH]; intros mem Hds Hl; cbn [move_down].
  - unfold memcpy. rewrite take_0. cbn [length app]. by rewrite Nat.add_0_r, take_drop.
  - destruct (lookup_lt_is_Some_2 mem (s + n)%nat) as [c Hc]; [lia|]. rewrite Hc.
    cbn [mbind option_bind]. destruct (Nat.ltb_spec (d + n) (length mem)); [|lia].
    rewrite IH by (rewrite ?length_insert; lia).
    assert (Hn : length (take n (drop s mem)) = n) by (rewrite length_take, length_drop; lia).
    rewrite drop_insert_ge by lia. rewrite take_insert_ge by lia.
    replace (d + n)%nat with (d + length (take n (drop s mem)))%nat by lia.
    rewrite memcpy_insert_back by lia. rewrite (take_S_r _ n c); [done|].
    by rewrite lookup_drop.
Qed.

(** ** Theorems *)

(** [strcmp] ends on any two strings, returns 0 exactly for equal strings,
    and orders 7-bit strings lexicographically. *)
Theorem strcmp_correct a b x y :
  is_str a -> is_str b ->
  exists r, strcmp (a ++ 0 :: x) (b ++ 0 :: y) = Some r /\ (r = 0 <-> a = b)
    /\ (ascii a -> ascii b -> (r ?= 0) = lex a b).
Proof. apply strcmp_spec. Qed.

(** [strstr] returns the first place where the second string occurs in the
    first, and a null pointer exactly when there is none. *)
Theorem strstr_correct s1 s2 x y :
  is_str s1 -> is_str s2 ->
  exists r, strstr (s1 ++ 0 :: x) (s2 ++ 0 :: y) = Some r
    /\ match r with
       | Some k => occurs_at s1 s2 k /\ forall j, (j < k)%nat -> ~ occurs_at s1 s2 j
       | None => forall j, ~ occurs_at s1 s2 j
       end.
Proof. apply strstr_spec. Qed.

Lemma memmove_spec mem d s n :
  (d + n <= length mem)%nat -> (s + n <= length mem)%nat ->
  memmove mem d s n = Some (memcpy mem d (take n (drop s mem))).
Proof.
  intros Hd Hs. unfold memmove. destruct (Nat.eqb_spec s d) as [->|Hne].
  - f_equal. unfold memcpy. rewrite length_take, length_drop, Nat.min_l by lia.
    by rewrite <- drop_drop, take_drop, take_drop.
  - destruct (Nat.leb_spec d s); [by apply move_up_spec; lia|by apply move_down_spec; lia].
Qed.

(** The block routines write exactly the bytes they should, word-wise or
    byte-wise: [memset] and [memcpy] for every alignment, [memmove] also when
    the areas overlap in either direction. *)
Theorem memory_blocks_correct aligned dest src c n mem d s :
  bytes src -> (n <= length dest)%nat -> (n <= length src)%nat ->
  (d + n <= length mem)%nat -> (s + n <= length mem)%nat ->
  memset aligned dest c n = Some (replicate n (u8 c) ++ drop n dest)
  /\ memcpy_ aligned dest src n = Some (take n src ++ drop n dest)
  /\ memmove mem d s n = Some (take d mem ++ take n (drop s mem) ++ drop (d + n) mem).
Proof.
  intros Hb Hd Hs Hmd Hms. split; [by apply memset_spec|]. split; [by apply memcpy_spec|].
  rewrite memmove_spec by lia. unfold memcpy. by rewrite length_take, length_drop, Nat.min_l by lia.
Qed.

Lemma strcmp_correct_witness :
  exists r, strcmp ([97; 98] ++ 0 :: []) ([97; 99] ++ 0 :: []) = Some r
    /\ (r = 0 <-> [97; 98] = [97; 99])
    /\ (ascii [97; 98] -> ascii [97; 99] -> (r ?= 0) = lex [97; 98] [97; 99]).
Proof. apply (strcmp_correct [97; 98] [97; 99] [] []); repeat constructor; lia. Defined.

Lemma strstr_correct_witness :
  exists r, strstr ([97; 98; 97] ++ 0 :: []) ([98] ++ 0 :: []) = Some r
    /\ match r with
       | Some k => occurs_at [97; 98; 97] [98] k
           /\ forall j, (j < k)%nat -> ~ occurs_at [97; 98; 97] [98] j
       | None => forall j, ~ occurs_at [97; 98; 97] [98] j
       end.
Proof. apply (strstr_correct [97; 98; 97] [98] [] []); repeat constructor; lia. Defined.

Lemma memory_blocks_correct_witness :
  memset true [1; 2; 3; 4; 5] 7 5 = Some (replicate 5 (u8 7) ++ drop 5 [1; 2; 3; 4; 5])
  /\ memcpy_ true [0; 0; 0; 0; 0; 0] [1; 2; 3; 4; 5] 5
     = Some (take 5 [1; 2; 3; 4; 5] ++ drop 5 [0; 0; 0; 0; 0; 0])
  /\ memmove [1; 2; 3; 4; 5; 6; 7] 2 0 5
     = Some (take 2 [1; 2; 3; 4; 5; 6; 7] ++ take 5 (drop 0 [1; 2; 3; 4; 5; 6; 7])
             ++ drop (2 + 5) [1; 2; 3; 4; 5; 6; 7]).
Proof.
  split; [|split].
  - apply (memory_blocks_correct true [1; 2; 3; 4; 5] [1; 2; 3; 4; 5] 7 5 [1; 2; 3; 4; 5] 0 0);
      cbn; try lia; repeat constructor; lia.
  - apply (memory_blocks_correct true [0; 0; 0; 0; 0; 0] [1; 2; 3; 4; 5] 7 5 [1; 2; 3; 4; 5] 0 0);
      cbn; try lia; repeat constructor; lia.
  - apply (memory_blocks_correct true [1; 2; 3; 4; 5] [1; 2; 3; 4; 5] 7 5
      [1; 2; 3; 4; 5; 6; 7] 2 0); cbn; try lia; repeat constructor; lia.
Defined.

(** The difference is cut to a [signed char], so bytes above 127 are not
    ordered as unsigned: 0x01 comes out above 0xff. *)
Example strcmp_sign : strcmp (cstr [0x01]) (cstr [0xff]) = Some 2.
Proof. reflexivity. Qed.

End Cstring.
