(* ===== verification/Qsort.v ===== *)
(** * Sorting (lib/qsort.c)

    A shell sort over an array of [nel] elements.  Offsets are counted in
    elements instead of bytes: the gap is always [3 g' + 1] elements, so that
    [(wgap - width) / 3] bytes are [g'] elements, and the byte loop with [k]
    swaps whole elements.  An access outside the array is [None]. *)

From S2P Require Import Prelude.

Module Qsort.

Section Qsort.
Context {A : Type} (comp : A -> A -> Z).

(** [do wgap = 3 * wgap + 1; while (wgap < (nel-1)/3)] *)
Fixpoint gap_loop (fuel wgap nel : nat) : option nat :=
  match fuel with
  | O => None
  | S fuel =>
      let wgap := (3 * wgap + 1)%nat in
      if (wgap <? (nel - 1) / 3)%nat then gap_loop fuel wgap nel else Some wgap
  end.

(** The innermost [do] loop: moves element [j] down in steps of [wgap]. *)
Fixpoint sift (fuel : nat) (base : list A) (j wgap : nat) : option (list A) :=
  match fuel with
  | O => None
  | S fuel =>
      let j := (j - wgap)%nat in
      a ← base !! j;
      b ← base !! (j + wgap)%nat;
      if comp a b <=? 0 then Some base
      else
        let base := <[j := b]> (<[(j + wgap)%nat := a]> base) in
        if (wgap <=? j)%nat then sift fuel base j wgap else Some base
  end.

(** [do { ...; i += width; } while (i < nel)] *)
Fixpoint pass (fuel : nat) (base : list A) (i wgap nel : nat) : option (list A) :=
  match fuel with
  | O => None
  | S fuel =>
      base ← sift (S i) base i wgap;
      let i := (i + 1)%nat in
      if (i <? nel)%nat then pass fuel base i wgap nel else Some base
  end.

(** [do { ...; wgap = (wgap - width)/3; } while (wgap)] *)
Fixpoint passes (fuel : nat) (base : list A) (wgap nel : nat) : option (list A) :=
  match fuel with
  | O => None
  | S fuel =>
      base ← pass nel base wgap wgap nel;
      let wgap := ((wgap - 1) / 3)%nat in
      if (wgap =? 0)%nat then Some base else passes fuel base wgap nel
  end.

Definition qsort (base : list A) : option (list A) :=
  let nel := length base in
  if (1 <? nel)%nat then
    wgap ← gap_loop nel 0 nel;
    passes nel base wgap nel
  else Some base.

(** ** The result is a permutation *)

Lemma swap_perm (base : list A) i j a b :
  (i < j)%nat -> base !! i = Some a -> base !! j = Some b ->
  <[i := b]> (<[j := a]> base) ≡ₚ base.
Proof.
  intros Hij Ha Hb.
  assert (Hsplit : exists l1 m1 m2, base = l1 ++ a :: m1 ++ b :: m2 /\ length l1 = i
      /\ j = (i + S (length m1))%nat).
  { assert (Hi : (i < length base)%nat) by (by eapply lookup_lt_Some).
    pose proof (take_drop_middle base i a Ha) as E.
    assert (Hb' : drop (S i) base !! (j - S i)%nat = Some b)
      by (rewrite lookup_drop, <- Hb; f_equal; lia).
    pose proof (take_drop_middle _ _ _ Hb') as E2. rewrite <- E2 in E.
    eexists _, _, _. split; [symmetry; exact E|]. split; [rewrite length_take; lia|].
    apply lookup_lt_Some in Hb'. rewrite length_take. lia. }
  destruct Hsplit as (l1 & m1 & m2 & -> & <- & ->).
  replace (<[(length l1 + S (length m1))%nat := a]> (l1 ++ a :: m1 ++ b :: m2))
    with (l1 ++ a :: m1 ++ a :: m2).
  2: { replace (length l1 + S (length m1))%nat with (length (l1 ++ a :: m1))
         by (by rewrite length_app).
       change (a :: m1 ++ b :: m2) with ((a :: m1) ++ b :: m2).
       by rewrite (app_assoc l1), insert_middle, <- app_assoc. }
  rewrite insert_middle. apply Permutation_app_head. rewrite <- !Permutation_middle. apply perm_swap.
Qed.

Lemma sift_perm fuel base j wgap :
  (0 < wgap <= j)%nat -> (j < length base)%nat -> (j < fuel)%nat ->
  exists base', sift fuel base j wgap = Some base' /\ base' ≡ₚ base.
Proof.
  revert base j. induction fuel as [|fuel IH]; intros base j Hg Hj Hf; [lia|]. cbn [sift].
  destruct (lookup_lt_is_Some_2 base (j - wgap)%nat) as [a Ha]; [lia|].
  destruct (lookup_lt_is_Some_2 base (j - wgap + wgap)%nat) as [b Hb]; [lia|].
  rewrite Ha, Hb. cbn [mbind option_bind]. destruct (Z.leb_spec (comp a b) 0); [by eexists|].
  pose proof (swap_perm base (j - wgap) (j - wgap + wgap) a b ltac:(lia) Ha Hb) as Hp.
  destruct (Nat.leb_spec wgap (j - wgap)); [|by eexists].
  destruct (IH (<[(j - wgap)%nat := b]> (<[(j - wgap + wgap)%nat := a]> base)) (j - wgap)%nat)
    as (base' & -> & Hp'); [lia|rewrite !length_insert; lia|lia|].
  exists base'. split; [done|]. by rewrite Hp'.
Qed.

Lemma pass_perm fuel base i wgap :
  (0 < wgap <= i)%nat -> (i < length base)%nat -> (length base - i <= fuel)%nat ->
  exists base', pass fuel base i wgap (length base) = Some base' /\ base' ≡ₚ base.
Proof.
  revert base i. induction fuel as [|fuel IH]; intros base i Hg Hi Hf; [lia|]. cbn [pass].
  destruct (sift_perm (S i) base i wgap) as (b1 & -> & Hp1); [lia..|]. cbn [mbind option_bind].
  destruct (Nat.ltb_spec (i + 1) (length base)); [|by eexists].
  rewrite <- (Permutation_length Hp1).
  destruct (IH b1 (i + 1)%nat) as (b2 & -> & Hp2); [lia|rewrite (Permutation_length Hp1); lia..|].
  exists b2. split; [done|]. by rewrite Hp2.
Qed.

(** ** Gaps *)

(** The gaps are 1, 4, 13, ...: one is followed by the next smaller one. *)
Inductive is_gap : nat -> Prop :=
  | gap_one : is_gap 1
  | gap_next g : is_gap g -> is_gap (3 * g + 1).

Lemma is_gap_pos g : is_gap g -> (0 < g)%nat.
Proof. destruct 1; lia. Qed.

Lemma gap_loop_spec fuel wgap nel :
  (1 < nel)%nat -> (wgap = 0 \/ is_gap wgap /\ wgap < (nel - 1) / 3)%nat ->
  (nel - wgap <= fuel)%nat ->
  exists g, gap_loop fuel wgap nel = Some g /\ is_gap g /\ (g < nel)%nat.
Proof.
  intros Hn. revert wgap. induction fuel as [|fuel IH]; intros wgap Hw Hf.
  { destruct Hw as [->|[_ Hw]]; [lia|]. pose proof (Nat.Div0.div_le_upper_bound (nel - 1) 3 nel). lia. }
  cbn [gap_loop].
  assert (Hg : is_gap (3 * wgap + 1)).
  { destruct Hw as [->|[Hw _]]; [constructor|by constructor]. }
  pose proof (Nat.Div0.mul_div_le (nel - 1) 3).
  destruct (Nat.ltb_spec (3 * wgap + 1) ((nel - 1) / 3)).
  - apply IH; [right; done|]. lia.
  - eexists. split; [done|]. split; [done|]. destruct Hw as [->|[_ Hw]]; lia.
Qed.

Lemma gap_pred g : ((3 * g + 1 - 1) / 3 = g)%nat.
Proof. rewrite Nat.add_sub, Nat.mul_comm, Nat.div_mul; lia. Qed.

Lemma passes_perm fuel base g :
  is_gap g -> (g < length base)%nat -> (g <= fuel)%nat ->
  exists base', passes fuel base g (length base) = Some base' /\ base' ≡ₚ base.
Proof.
  intros Hg. revert fuel base. induction Hg as [|g Hg IH]; intros fuel base Hl Hf;
    (destruct fuel as [|fuel]; [lia|]); cbn [passes].
  - destruct (pass_perm (length base) base 1 1) as (b1 & -> & Hp1); [lia..|].
    by exists b1.
  - pose proof (is_gap_pos g Hg).
    destruct (pass_perm (length base) base (3 * g + 1) (3 * g + 1)) as (b1 & -> & Hp1); [lia..|].
    cbn [mbind option_bind]. rewrite gap_pred.
    destruct (Nat.eqb_spec g 0); [lia|]. rewrite <- (Permutation_length Hp1).
    destruct (IH fuel b1) as (b2 & -> & Hp2); [rewrite (Permutation_length Hp1); lia|lia|].
    exists b2. split; [done|]. by rewrite Hp2.
Qed.

(** Whatever the comparison does, the result is a permutation. *)
Lemma qsort_perm base : exists base', qsort base = Some base' /\ base' ≡ₚ base.
Proof.
  unfold qsort. destruct (Nat.ltb_spec 1 (length base)); [|by exists base].
  destruct (gap_loop_spec (length base) 0 (length base)) as (g & -> & Hg & Hl);
    [done|by left|lia|]. cbn [mbind option_bind]. apply passes_perm; [done|done|lia].
Qed.

(** ** The last pass, with gap 1, sorts *)

Context (ok : A -> Prop).
Hypothesis comp_total : forall a b, ok a -> ok b -> 0 < comp a b -> comp b a <= 0.
Hypothesis comp_trans :
  forall a b c, ok a -> ok b -> ok c -> comp a b <= 0 -> comp b c <= 0 -> comp a c <= 0.

Definition le (a b : A) : Prop := comp a b <= 0.

Lemma sift_sorts fuel P x R :
  (length P < fuel)%nat -> P <> [] -> StronglySorted le P -> Forall ok (P ++ [x]) ->
  exists Q, sift fuel (P ++ x :: R) (length P) 1 = Some (Q ++ R)
    /\ Q ≡ₚ P ++ [x] /\ StronglySorted le Q.
Proof.
  revert P R. induction fuel as [|fuel IH]; intros P R Hf Hne Hs Hok; [lia|].
  destruct (exists_last Hne) as (P' & y & ->). cbn [sift].
  rewrite length_app in *. cbn [length] in *.
  replace (length P' + 1 - 1)%nat with (length P') by lia.
  replace ((P' ++ [y]) ++ x :: R) with (P' ++ y :: x :: R) by (by rewrite <- app_assoc).
  rewrite (list_lookup_middle P' (x :: R) y (length P')) by done. cbn [mbind option_bind].
  replace (P' ++ y :: x :: R) with ((P' ++ [y]) ++ x :: R) by (by rewrite <- app_assoc).
  rewrite (list_lookup_middle (P' ++ [y]) R x) by (by rewrite length_app). cbn [mbind option_bind].
  apply Forall_app in Hok as [Hok Hx]. rewrite Forall_singleton in Hx.
  pose proof Hok as [Hok' Hy]%Forall_app. rewrite Forall_singleton in Hy.
  pose proof Hs as (Hs' & _ & Hle)%StronglySorted_app_iff.
  destruct (Z.leb_spec (comp y x) 0) as [Hyx|Hyx].
  - exists ((P' ++ [y]) ++ [x]). split; [by rewrite <- !app_assoc|]. split; [done|].
    apply StronglySorted_app_iff. split; [done|]. split; [repeat constructor|].
    intros p q Hp ->%list_elem_of_singleton.
    apply elem_of_app in Hp as [Hp|Hp%list_elem_of_singleton]; [|by subst].
    apply (comp_trans p y x); try done; [rewrite Forall_forall in Hok'; auto|].
    apply Hle; [done|by left].
  - assert (Hxy : le x y) by (by apply comp_total).
    assert (Hsw : <[length P' := x]> (<[(length P' + 1)%nat := y]> ((P' ++ [y]) ++ x :: R))
                  = P' ++ x :: y :: R).
    { rewrite insert_app_r_alt by (rewrite length_app; cbn; lia).
      rewrite length_app. cbn [length]. rewrite Nat.sub_diag. cbn [insert list_insert].
      rewrite <- app_assoc. cbn [app]. rewrite insert_app_r_alt by lia.
      by rewrite Nat.sub_diag. }
    rewrite Hsw. destruct (Nat.leb_spec 1 (length P')) as [Hlen|Hlen].
    + destruct (IH P' (y :: R)) as (Q & -> & Hperm & HsQ);
        [lia|intros ->; cbn in Hlen; lia|done|by apply Forall_app_2; [|rewrite Forall_singleton]|].
      exists (Q ++ [y]). split; [by rewrite <- app_assoc|]. split.
      * rewrite Hperm, <- !app_assoc. apply Permutation_app_head. apply perm_swap.
      * apply StronglySorted_app_iff. split; [done|]. split; [repeat constructor|].
        intros p q Hp ->%list_elem_of_singleton. rewrite Hperm in Hp.
        apply elem_of_app in Hp as [Hp|Hp%list_elem_of_singleton]; [|by subst].
        apply Hle; [done|by left].
    + destruct P'; [|cbn in Hlen; lia]. exists [x; y]. split; [done|]. cbn. split; [apply perm_swap|].
      repeat constructor. done.
Qed.

Lemma pass_sorts fuel P R :
  (length R <= fuel)%nat -> P <> [] -> R <> [] -> StronglySorted le P -> Forall ok (P ++ R) ->
  exists Q, pass fuel (P ++ R) (length P) 1 (length (P ++ R)) = Some Q
    /\ Q ≡ₚ P ++ R /\ StronglySorted le Q.
Proof.
  revert P R. induction fuel as [|fuel IH]; intros P R Hf HP HR Hs Hok;
    (destruct R as [|x R]; [done|]); [cbn in Hf; lia|]. cbn [pass].
  assert (Hokx : Forall ok (P ++ [x])).
  { rewrite Forall_app, Forall_cons in Hok. apply Forall_app.
    rewrite Forall_singleton. tauto. }
  destruct (sift_sorts (S (length P)) P x R) as (Q & -> & Hp & HsQ); [lia|done..|].
  cbn [mbind option_bind]. rewrite length_app. cbn [length].
  pose proof (Permutation_length Hp) as HlQ. rewrite length_app in HlQ. cbn in HlQ.
  assert (Hperm : Q ++ R ≡ₚ P ++ x :: R) by (rewrite Hp, <- app_assoc; done).
  destruct (Nat.ltb_spec (length P + 1) (length P + S (length R))) as [Hlt|Hge].
  - replace (length P + 1)%nat with (length Q) by lia.
    replace (length P + S (length R))%nat with (length (Q ++ R)) by (rewrite length_app; lia).
    destruct (IH Q R) as (Q' & -> & Hp' & Hs'); try done.
    + cbn in Hf. lia.
    + intros ->. cbn in HlQ. lia.
    + intros ->. cbn in Hlt. lia.
    + by rewrite Hperm.
    + exists Q'. split; [done|]. split; [by rewrite Hp'|done].
  - destruct R; [|cbn in Hge; lia]. rewrite app_nil_r in *. by exists Q.
Qed.

Lemma passes_spec fuel base g :
  is_gap g -> (g < length base)%nat -> (g <= fuel)%nat -> Forall ok base ->
  exists base', passes fuel base g (length base) = Some base' /\ base' ≡ₚ base
    /\ StronglySorted le base'.
Proof.
  intros Hg. revert fuel base. induction Hg as [|g Hg IH]; intros fuel base Hl Hf Hok;
    (destruct fuel as [|fuel]; [lia|]); cbn [passes].
  - destruct base as [|x base]; [cbn in Hl; lia|].
    destruct (pass_sorts (length (x :: base)) [x] base) as (Q & E & Hp & Hs);
      [cbn; lia|done|by intros ->; cbn in Hl; lia|repeat constructor|done|].
    cbn [app] in *. change (length [x]) with 1%nat in E. rewrite E.
    cbn [mbind option_bind]. by exists Q.
  - pose proof (is_gap_pos g Hg).
    destruct (pass_perm (length base) base (3 * g + 1) (3 * g + 1)) as (b1 & -> & Hp1); [lia..|].
    cbn [mbind option_bind].
    rewrite gap_pred.
    destruct (Nat.eqb_spec g 0); [lia|]. rewrite <- (Permutation_length Hp1).
    destruct (IH fuel b1) as (b2 & -> & Hp2 & Hs2);
      [rewrite (Permutation_length Hp1); lia|lia|by rewrite Hp1|].
    exists b2. split; [done|]. split; [by rewrite Hp2|done].
Qed.

Lemma qsort_spec base :
  Forall ok base ->
  exists base', qsort base = Some base' /\ base' ≡ₚ base /\ StronglySorted le base'.
Proof.
  intros Hok. unfold qsort. destruct (Nat.ltb_spec 1 (length base)).
  - destruct (gap_loop_spec (length base) 0 (length base)) as (g & -> & Hg & Hl);
      [done|by left|lia|]. cbn [mbind option_bind]. by apply passes_spec; [..|lia|].
  - exists base. split; [done|]. split; [done|].
    destruct base as [|x [|y base]]; [constructor|repeat constructor|cbn in *; lia].
Qed.

(** [qsort] terminates without leaving the array and returns a sorted
    permutation of it, for every comparison that is a total preorder on the
    elements present. *)
Theorem qsort_correct base :
  Forall ok base ->
  exists base', qsort base = Some base' /\ base' ≡ₚ base /\ StronglySorted le base'.
Proof. apply qsort_spec. Qed.

End Qsort.

Lemma qsort_correct_witness :
  exists base', qsort Z.sub [5; 3; 9; 1; 7; 2] = Some base' /\ base' ≡ₚ [5; 3; 9; 1; 7; 2]
    /\ StronglySorted (le Z.sub) base'.
Proof.
  apply (qsort_correct Z.sub (fun _ => True)); [lia|lia|by repeat constructor].
Defined.

Example qsort_run : qsort Z.sub [5; 3; 9; 1; 7; 2; 8; 4; 0; 6; 3; 12; 11; 10; 15; 13]
  = Some [0; 1; 2; 3; 3; 4; 5; 6; 7; 8; 9; 10; 11; 12; 13; 15].
Proof. reflexivity. Qed.

End Qsort.
