(* ===== verification/Rbtree.v ===== *)
(** * Red-black trees (lib/rbtree.c)

    A node is a tree together with the way up to the root: the parent pointer
    of the code is the first frame of that way.  Rotations, the repair loops and
    the erasure are translated step by step; [None] stands for following a null
    pointer, which the invariant [is_rb] excludes.  The theorems: insertion at
    any leaf and erasure of any node keep the tree red-black, put the element in
    its place or take it out, and never follow a null pointer; the height is
    logarithmic. *)

From S2P Require Import Prelude.

Module Rbtree.

Inductive color := RB_RED | RB_BLACK.

#[global] Instance color_eq_dec : EqDecision color.
Proof. solve_decision. Defined.

Section Rbtree.
Context {A : Type}.

Inductive tree := Leaf | Node (c : color) (l : tree) (x : A) (r : tree).

(** The parent of a node, with the side the node is on and the other child. *)
Inductive frame :=
  | InLeft (c : color) (x : A) (other : tree)
  | InRight (c : color) (other : tree) (x : A).

Definition path := list frame.

Definition fill (t : tree) (f : frame) : tree :=
  match f with InLeft c x r => Node c t x r | InRight c l x => Node c l x t end.

(** The whole tree, from a node and its way up. *)
Fixpoint plug (t : tree) (p : path) : tree :=
  match p with [] => t | f :: p => plug (fill t f) p end.

Definition rb_is_red (t : tree) : bool := match t with Node RB_RED _ _ _ => true | _ => false end.
Definition rb_set_color (c : color) (t : tree) : tree :=
  match t with Leaf => Leaf | Node _ l x r => Node c l x r end.
Abbreviation rb_set_black := (rb_set_color RB_BLACK).
Abbreviation rb_set_red := (rb_set_color RB_RED).

Definition frame_color (f : frame) : color := match f with InLeft c _ _ | InRight c _ _ => c end.
Definition set_frame_color (c : color) (f : frame) : frame :=
  match f with InLeft _ x r => InLeft c x r | InRight _ l x => InRight c l x end.

(** ** Rotations

    The node that is rotated down keeps its colour, the child that comes up
    too. *)

Definition rb_rotate_left (node : tree) : option tree :=
  match node with
  | Node c l x (Node cr rl y rr) => Some (Node cr (Node c l x rl) y rr)
  | _ => None
  end.

Definition rb_rotate_right (node : tree) : option tree :=
  match node with
  | Node c (Node cl ll y lr) x r => Some (Node cl ll y (Node c lr x r))
  | _ => None
  end.

(** ** Insertion

    The turn in which the uncle is black: [parent] (with the node in it) becomes
    black, [gparent] red and is rotated over. *)
Definition insert_rotate (node : tree) (parent gparent : frame) : option tree :=
  match gparent with
  | InLeft _ gx uncle =>
      parent ← match parent with
               | InRight _ _ _ => rb_rotate_left (fill node parent)
               | InLeft _ _ _ => Some (fill node parent)
               end;
      rb_rotate_right (Node RB_RED (rb_set_black parent) gx uncle)
  | InRight _ uncle gx =>
      parent ← match parent with
               | InLeft _ _ _ => rb_rotate_right (fill node parent)
               | InRight _ _ _ => Some (fill node parent)
               end;
      rb_rotate_left (Node RB_RED uncle gx (rb_set_black parent))
  end.

Definition frame_other (f : frame) : tree := match f with InLeft _ _ t | InRight _ t _ => t end.
Definition set_frame_other (t : tree) (f : frame) : frame :=
  match f with InLeft c x _ => InLeft c x t | InRight c _ x => InRight c t x end.

(** The root of the tree after the repair. *)
Fixpoint rb_insert_color (node : tree) (p : path) : option tree :=
  match p with
  | parent :: up =>
      match frame_color parent with
      | RB_BLACK => Some (rb_set_black (plug node p))
      | RB_RED =>
          match up with
          | [] => None
          | gparent :: up =>
              if rb_is_red (frame_other gparent) then
                let gparent := set_frame_other (rb_set_black (frame_other gparent)) (set_frame_color RB_RED gparent) in
                rb_insert_color (fill (fill node (set_frame_color RB_BLACK parent)) gparent) up
              else
                t ← insert_rotate node parent gparent;
                Some (rb_set_black (plug t up))
          end
      end
  | [] => Some (rb_set_black node)
  end.

(** [rb_link_node] at the leaf the way leads to, then [rb_insert_color]. *)
Definition rb_insert (x : A) (p : path) : option tree := rb_insert_color (Node RB_RED Leaf x Leaf) p.

(** The descent of the callers: left where [less], else right. *)
Fixpoint rb_descend (less : A -> bool) (t : tree) (p : path) : path :=
  match t with
  | Leaf => p
  | Node c l x r => if less x then rb_descend less l (InLeft c x r :: p) else rb_descend less r (InRight c l x :: p)
  end.

(** ** Erasure *)

Definition rb_left (t : tree) : option tree := match t with Node _ l _ _ => Some l | Leaf => None end.
Definition rb_right (t : tree) : option tree := match t with Node _ _ _ r => Some r | Leaf => None end.

(** The end of a turn in which a child of [other] is red, for a node that is the
    left child of its parent [(c, x)]: the tree in the parent's place. *)
Definition erase_rotate_left (node : tree) (c : color) (x : A) (other : tree) : option tree :=
  right ← rb_right other;
  other ← (if rb_is_red right then Some other else
             match other with
             | Node _ l y r => rb_rotate_right (Node RB_RED (rb_set_black l) y r)
             | Leaf => None
             end);
  match other with
  | Node _ l y r => rb_rotate_left (Node RB_BLACK node x (Node c l y (rb_set_black r)))
  | Leaf => None
  end.

Definition erase_rotate_right (node : tree) (c : color) (other : tree) (x : A) : option tree :=
  left ← rb_left other;
  other ← (if rb_is_red left then Some other else
             match other with
             | Node _ l y r => rb_rotate_left (Node RB_RED l y (rb_set_black r))
             | Leaf => None
             end);
  match other with
  | Node _ l y r => rb_rotate_right (Node RB_BLACK (Node c (rb_set_black l) y r) x node)
  | Leaf => None
  end.

(** A red [other] is rotated over the parent, which becomes red and gets a new
    [other]. *)
Definition erase_red (parent : frame) (up : path) : option path :=
  match parent with
  | InLeft c x (Node RB_RED l y r) => Some (InLeft RB_RED x l :: InLeft RB_BLACK y r :: up)
  | InRight c (Node RB_RED l y r) x => Some (InRight RB_RED r x :: InRight RB_BLACK l y :: up)
  | InLeft _ _ Leaf | InRight _ Leaf _ => None
  | _ => Some (parent :: up)
  end.

Definition black_children (t : tree) : option bool :=
  l ← rb_left t; r ← rb_right t; Some (negb (rb_is_red l) && negb (rb_is_red r)).

(** The loop, with the root it leaves; [node] lacks a black node. *)
Fixpoint rb_erase_color (fuel : nat) (node : tree) (p : path) : option tree :=
  match fuel with
  | O => None
  | S fuel =>
      if rb_is_red node then Some (plug (rb_set_black node) p) else
      match p with
      | [] => Some (rb_set_black node)
      | parent :: up =>
          p ← erase_red parent up;
          match p with
          | [] => None
          | parent :: up =>
              let other := frame_other parent in
              black ← black_children other;
              if black : bool then rb_erase_color fuel (fill node (set_frame_other (rb_set_red other) parent)) up else
              t ← match parent with
                  | InLeft c x other => erase_rotate_left node c x other
                  | InRight c other x => erase_rotate_right node c other x
                  end;
              let t := plug t up in
              match t with
              | Leaf => None
              | _ => Some (rb_set_black t)
              end
          end
      end
  end.

(** The leftmost node, with the way to it. *)
Fixpoint rb_leftmost (t : tree) (p : path) : option (A * color * tree * path) :=
  match t with
  | Leaf => None
  | Node c Leaf x r => Some (x, c, r, p)
  | Node c l x r => rb_leftmost l (InLeft c x r :: p)
  end.

Definition erase_fix (c : color) (child : tree) (p : path) : option tree :=
  match c with
  | RB_BLACK => rb_erase_color (2 + length p) child p
  | RB_RED => Some (plug child p)
  end.

(** Erasing the node [node], with its way up; the new root. *)
Definition rb_erase (node : tree) (p : path) : option tree :=
  match node with
  | Leaf => None
  | Node c Leaf _ r => erase_fix c r p
  | Node c l _ Leaf => erase_fix c l p
  | Node c l _ r =>
      '(x, color, child, q) ← rb_leftmost r [];
      erase_fix color child (q ++ InRight c l x :: p)
  end.

(** ** Moving about *)

Fixpoint rb_first (t : tree) : option A :=
  match t with Leaf => None | Node _ Leaf x _ => Some x | Node _ l _ _ => rb_first l end.

Fixpoint rb_last (t : tree) : option A :=
  match t with Leaf => None | Node _ _ x Leaf => Some x | Node _ _ _ r => rb_last r end.

(** Up until coming from the left, or the right. *)
Fixpoint climb_left (p : path) : option A :=
  match p with [] => None | InRight _ _ _ :: p => climb_left p | InLeft _ x _ :: _ => Some x end.
Fixpoint climb_right (p : path) : option A :=
  match p with [] => None | InLeft _ _ _ :: p => climb_right p | InRight _ _ x :: _ => Some x end.

Definition rb_next (node : tree) (p : path) : option A :=
  match node with
  | Leaf => None
  | Node _ _ _ Leaf => climb_left p
  | Node _ _ _ r => rb_first r
  end.

Definition rb_prev (node : tree) (p : path) : option A :=
  match node with
  | Leaf => None
  | Node _ Leaf _ _ => climb_right p
  | Node _ l _ _ => rb_last l
  end.

Definition rb_replace_node (victim : tree) (p : path) (new : A) : tree :=
  match victim with
  | Leaf => plug Leaf p
  | Node c l _ r => plug (Node c l new r) p
  end.

(** A pointer to a node: the node that holds a certain element. *)
Fixpoint find_node (is_it : A -> bool) (t : tree) (p : path) : option (tree * path) :=
  match t with
  | Leaf => None
  | Node c l x r =>
      if is_it x then Some (t, p) else
      match find_node is_it l (InLeft c x r :: p) with
      | Some z => Some z
      | None => find_node is_it r (InRight c l x :: p)
      end
  end.

(** ** The invariant

    [is_rb c n t]: [t] is red-black with a root of colour [c] (a leaf is black)
    and [n] black nodes on every way down.  [hole c n p]: a tree of that kind
    fits at the end of [p]; the root of the whole tree is black. *)

Inductive is_rb : color -> nat -> tree -> Prop :=
  | rb_leaf : is_rb RB_BLACK 0 Leaf
  | rb_red n l x r : is_rb RB_BLACK n l -> is_rb RB_BLACK n r -> is_rb RB_RED n (Node RB_RED l x r)
  | rb_black c1 c2 n l x r : is_rb c1 n l -> is_rb c2 n r -> is_rb RB_BLACK (S n) (Node RB_BLACK l x r).

Inductive hole : color -> nat -> path -> Prop :=
  | hole_root n : hole RB_BLACK n []
  | hole_red n f p :
      frame_color f = RB_RED -> is_rb RB_BLACK n (frame_other f) -> hole RB_RED n p -> hole RB_BLACK n (f :: p)
  | hole_black c c' n f p :
      frame_color f = RB_BLACK -> is_rb c' n (frame_other f) -> hole RB_BLACK (S n) p -> hole c n (f :: p).

(** A red-black tree as a whole: its root is black. *)
Definition rb_tree (t : tree) : Prop := exists n, is_rb RB_BLACK n t.

Fixpoint elements (t : tree) : list A :=
  match t with Leaf => [] | Node _ l x r => elements l ++ x :: elements r end.

(** What is left and right of the end of a way. *)
Fixpoint before (p : path) : list A :=
  match p with
  | [] => []
  | InLeft _ _ _ :: p => before p
  | InRight _ l x :: p => before p ++ elements l ++ [x]
  end.
Fixpoint after (p : path) : list A :=
  match p with
  | [] => []
  | InLeft _ x r :: p => x :: elements r ++ after p
  | InRight _ _ _ :: p => after p
  end.

Fixpoint height (t : tree) : nat :=
  match t with Leaf => O | Node _ l _ r => S (height l `max` height r) end.

#[local] Hint Constructors is_rb hole : core.

Lemma elements_plug p : forall t, elements (plug t p) = before p ++ elements t ++ after p.
Proof.
  induction p as [|[c x r|c l x] p IH]; intros t; cbn [plug before after]; [by rewrite app_nil_r|..];
    rewrite IH; cbn [fill elements]; by rewrite <- ?app_assoc.
Qed.

Lemma elements_fill t f : elements (fill t f) = before [f] ++ elements t ++ after [f].
Proof. change (fill t f) with (plug t [f]). apply elements_plug. Qed.

Lemma elements_set_color c t : elements (rb_set_color c t) = elements t.
Proof. by destruct t. Qed.

Lemma is_rb_color c n t : is_rb c n t -> c = (if rb_is_red t then RB_RED else RB_BLACK).
Proof. by destruct 1. Qed.

Lemma is_rb_black c n t : is_rb c n t -> rb_is_red t = false -> is_rb RB_BLACK n t.
Proof. destruct 1; cbn; [eauto|done|eauto]. Qed.

Lemma is_rb_set_black c n t : is_rb c n t -> rb_tree (rb_set_black t).
Proof. destruct 1; eexists; cbn; eauto. Qed.

Lemma hole_weaken n p : hole RB_RED n p -> hole RB_BLACK n p.
Proof. inversion 1; subst; eauto. Qed.

Lemma hole_fill c n f p t : is_rb c n t -> hole c n (f :: p) -> exists c' n', is_rb c' n' (fill t f) /\ hole c' n' p.
Proof.
  intros Ht H. inversion H as [|? ? ? Hc Ho Hp|? ? ? ? ? Hc Ho Hp]; subst; destruct f; cbn in *; subst; eauto 6.
Qed.

Lemma is_rb_plug p : forall c n t, is_rb c n t -> hole c n p -> rb_tree (plug t p).
Proof.
  induction p as [|f p IH]; intros c n t Ht Hp.
  - inversion Hp; subst. by exists n.
  - destruct (hole_fill _ _ _ _ _ Ht Hp) as (c' & n' & Hf & Hp'). cbn [plug]. by eapply IH.
Qed.

Lemma plug_set_black p t : rb_tree (plug t p) -> rb_set_black (plug t p) = plug t p.
Proof. intros [n H]. by inversion H. Qed.

(** ** Insertion *)

Lemma insert_rotate_spec n node parent gparent up x l r :
  node = Node RB_RED l x r -> is_rb RB_RED n node ->
  frame_color parent = RB_RED -> is_rb RB_BLACK n (frame_other parent) ->
  frame_color gparent = RB_BLACK -> is_rb RB_BLACK n (frame_other gparent) -> hole RB_BLACK (S n) up ->
  exists t, insert_rotate node parent gparent = Some t /\ rb_tree (plug t up)
    /\ elements t = elements (fill (fill node parent) gparent).
Proof.
  intros -> Hn Hp Ho Hg Hu Hup. inversion Hn; subst.
  destruct parent as [c px pr|c pl px], gparent as [c' gx u|c' u gx]; cbn in *; subst; eexists;
    (split; [done|split; [eapply is_rb_plug; [|done]; eauto|]]); cbn; by rewrite <- ?app_assoc; cbn; rewrite <- ?app_assoc.
Qed.

Lemma rb_insert_color_spec : forall k p n node x l r, (length p <= k)%nat ->
  node = Node RB_RED l x r -> is_rb RB_RED n node -> hole RB_BLACK n p ->
  exists t, rb_insert_color node p = Some t /\ rb_tree t /\ elements t = elements (plug node p).
Proof.
  induction k as [|k IH]; intros [|f p] n node x l r Hk -> Hn Hp; cbn [length] in Hk; try lia;
    cbn [rb_insert_color]; try (eexists; split; [done|]; split; [by eapply is_rb_set_black|by rewrite elements_set_color]).
  inversion Hp as [|? ? ? Hc Ho Hp'|? ? ? ? ? Hc Ho Hp']; subst; rewrite Hc.
  2: { eexists. split; [done|]. split; [|by rewrite elements_set_color]. rewrite plug_set_black;
         eapply is_rb_plug; eauto. }
  inversion Hp' as [|? ? ? ? ? ?|? c' ? g up Hgc Hgo Hup]; subst.
  destruct (rb_is_red (frame_other g)) eqn:Hu.
  - destruct (IH up (S n) (fill (fill (Node RB_RED l x r) (set_frame_color RB_BLACK f))
      (set_frame_other (rb_set_black (frame_other g)) (set_frame_color RB_RED g)))
      (match g with InLeft _ y _ | InRight _ _ y => y end)
      (match g with InLeft _ _ _ => fill (Node RB_RED l x r) (set_frame_color RB_BLACK f) | InRight _ u _ => rb_set_black u end)
      (match g with InLeft _ _ u => rb_set_black u | InRight _ _ _ => fill (Node RB_RED l x r) (set_frame_color RB_BLACK f) end))
      as (t & -> & Ht & He); [cbn in Hk; lia|by destruct g| |done|].
    + inversion Hn; subst. destruct f, g; cbn in *; subst; inversion Hgo; subst; cbn in *; try done; eauto 8.
    + exists t. split; [done|]. split; [done|]. rewrite He. cbn [plug]. rewrite !elements_plug. f_equal. f_equal.
      destruct f, g; cbn; by rewrite elements_set_color.
  - destruct (insert_rotate_spec n (Node RB_RED l x r) f g up x l r) as (t & -> & Ht & He); [done..|by eapply is_rb_black|done|].
    cbn [mbind option_bind]. eexists. split; [done|]. rewrite plug_set_black by done. split; [done|].
    cbn [plug]. rewrite !elements_plug. by rewrite He.
Qed.


Lemma rb_insert_spec x p n :
  hole RB_BLACK n p -> n = O ->
  exists t, rb_insert x p = Some t /\ rb_tree t /\ elements t = before p ++ x :: after p.
Proof.
  intros Hp ->. destruct (rb_insert_color_spec (length p) p 0 (Node RB_RED Leaf x Leaf) x Leaf Leaf)
    as (t & Ht & Hrb & He); [done|done|eauto|done|]. exists t. split; [done|]. split; [done|].
  by rewrite He, elements_plug.
Qed.

(** ** Erasure *)

Definition erase_rotate (node : tree) (f : frame) : option tree :=
  match f with
  | InLeft c x other => erase_rotate_left node c x other
  | InRight c other x => erase_rotate_right node c other x
  end.

(** A turn whose [other] is black. *)
Lemma erase_turn f up node c n :
  is_rb c n node -> is_rb RB_BLACK (S n) (frame_other f) -> hole RB_BLACK (S n) (f :: up) ->
  (black_children (frame_other f) = Some true
   /\ let t := fill node (set_frame_other (rb_set_red (frame_other f)) f) in
      if frame_color f then rb_is_red t = true /\ rb_tree (plug (rb_set_black t) up)
      else rb_is_red node = false -> is_rb RB_BLACK (S n) t /\ hole RB_BLACK (S (S n)) up)
  \/ (black_children (frame_other f) = Some false
      /\ exists t, erase_rotate node f = Some t /\ elements t = elements (fill node f) /\ rb_tree (plug t up)).
Proof.
  intros Hn Ho Hf. inversion Ho as [| |c1 c2 ? l y r Hl Hr Heq]; subst.
  assert (Hup : hole (frame_color f) (if frame_color f then S n else S (S n)) up)
    by (inversion Hf as [|? ? ? Hc ? ?|? ? ? ? ? Hc ? ?]; subst; rewrite Hc; eauto).
  assert (Hred : forall c t, is_rb c n t -> rb_is_red t = true -> exists l x r, t = Node RB_RED l x r /\ is_rb RB_BLACK n l /\ is_rb RB_BLACK n r)
    by (intros ? t Ht; destruct Ht; try done; eauto 8).
  destruct f as [cf x o|cf o x]; cbn in *; subst o; cbn; destruct (rb_is_red l) eqn:El, (rb_is_red r) eqn:Er; cbn;
    try (destruct (Hred _ _ Hl El) as (ll & ly & lr & -> & ? & ?));
    try (destruct (Hred _ _ Hr Er) as (rl & ry & rr & -> & ? & ?)).
  all: try (apply (is_rb_black _ _ _ Hl) in El as Hl'); try (apply (is_rb_black _ _ _ Hr) in Er as Hr').
  all: try (right; split; [done|]; unfold erase_rotate_left, erase_rotate_right; cbn; rewrite ?El, ?Er; cbn; eexists;
    split; [done|]; split; [cbn; repeat (rewrite <- ?app_assoc; cbn); done|]; destruct cf; eapply is_rb_plug; eauto 10).
  all: left; split; [done|]; destruct cf; cbn in *.
  all: try (split; [done|]; apply hole_weaken in Hup; eapply is_rb_plug; eauto).
  all: intros Eb; apply (is_rb_black _ _ _ Hn) in Eb; eauto 8.
Qed.

Lemma rb_erase_color_red fuel node p c n :
  is_rb c n node -> rb_is_red node = true -> hole RB_BLACK (S n) p ->
  exists t, rb_erase_color (S fuel) node p = Some t /\ rb_tree t /\ elements t = before p ++ elements node ++ after p.
Proof.
  intros Hn Hr Hp. cbn [rb_erase_color]. rewrite Hr. eexists. split; [done|].
  rewrite elements_plug, elements_set_color. split; [|done]. destruct Hn; try done. cbn. eapply is_rb_plug; eauto.
Qed.

Lemma erase_red_spec f up n :
  is_rb (if rb_is_red (frame_other f) then RB_RED else RB_BLACK) (S n) (frame_other f) -> hole RB_BLACK (S n) (f :: up) ->
  exists f' up', erase_red f up = Some (f' :: up') /\ is_rb RB_BLACK (S n) (frame_other f') /\ hole RB_BLACK (S n) (f' :: up')
    /\ (forall t, elements (plug (fill t f') up') = elements (plug (fill t f) up))
    /\ (f' = f /\ up' = up \/ frame_color f' = RB_RED).
Proof.
  intros Ho Hf. destruct (rb_is_red (frame_other f)) eqn:Er.
  - destruct f as [c x o|c o x]; cbn in *; inversion Ho; subst; eexists _, _; (split; [done|]);
      (split; [done|]); split; try (split; [|by right]).
    all: try (intros t; rewrite !elements_plug; cbn; by repeat (rewrite <- ?app_assoc; cbn)).
    all: inversion Hf; subst; cbn in *; subst; eauto 8.
    all: match goal with H : is_rb RB_BLACK _ (Node RB_RED _ _ _) |- _ => by inversion H end.
  - exists f, up. split; [|split_and!; by auto]. destruct f as [c x o|c o x]; cbn in *; by inversion Ho; subst.
Qed.

Lemma rb_erase_color_spec fuel : forall node p c n,
  (2 + length p <= fuel)%nat -> is_rb c n node -> hole RB_BLACK (S n) p ->
  exists t, rb_erase_color fuel node p = Some t /\ rb_tree t /\ elements t = before p ++ elements node ++ after p.
Proof.
  induction fuel as [|fuel IH]; intros node p c n Hfuel Hn Hp; [lia|].
  destruct (rb_is_red node) eqn:Er; [by eapply rb_erase_color_red|]. cbn [rb_erase_color]. rewrite Er.
  destruct p as [|f up].
  { eexists. split; [done|]. split; [by eapply is_rb_set_black|]. by rewrite elements_set_color, app_nil_r. }
  assert (Hs : exists c', is_rb c' (S n) (frame_other f)) by (inversion Hp; subst; eauto).
  destruct Hs as (c' & Hs). rewrite (is_rb_color _ _ _ Hs) in Hs.
  destruct (erase_red_spec f up n Hs Hp) as (f' & up' & -> & Ho & Hp' & He & Hcase). cbn [mbind option_bind].
  assert (Hel : forall t, elements t = elements (fill node f') ->
    elements (plug t up') = before (f :: up) ++ elements node ++ after (f :: up)).
  { intros t Ht. change (before (f :: up) ++ _) with (before (f :: up) ++ elements node ++ after (f :: up)).
    rewrite <- (elements_plug (f :: up)). cbn [plug]. rewrite <- He. rewrite !elements_plug. by rewrite Ht. }
  destruct (erase_turn f' up' node c n Hn Ho Hp') as [[-> Ht]|(-> & t & Ht & Het & Htr)]; cbn [mbind option_bind].
  - cbn zeta in Ht. set (t := fill node (set_frame_other _ _)) in *.
    assert (Helt : elements t = elements (fill node f'))
      by (unfold t; destruct f' as [? ? o|? o ?]; by destruct o).
    assert (Hred : frame_color f' = RB_RED -> exists t', rb_erase_color fuel t up' = Some t' /\ rb_tree t'
      /\ elements t' = before (f :: up) ++ elements node ++ after (f :: up)).
    { intros Hc. rewrite Hc in Ht. destruct Ht as [Hr Htr], fuel as [|fuel]; [cbn [length] in Hfuel; lia|].
      cbn [rb_erase_color]. rewrite Hr. eexists. split; [done|]. split; [done|]. apply Hel.
      by rewrite elements_set_color. }
    destruct Hcase as [[-> ->]|Hc]; [|by apply Hred]. destruct (frame_color f) eqn:Hc; [by apply Hred|].
    destruct (Ht Er) as [Ht1 Ht2]. destruct (IH t up _ _ ltac:(cbn [length] in Hfuel; lia) Ht1 Ht2) as (t' & -> & Ht' & He').
    exists t'. split; [done|]. split; [done|]. rewrite He', <- elements_plug. by apply Hel.

  - assert (Hrot : match f' with
                   | InLeft c x other => erase_rotate_left node c x other
                   | InRight c other x => erase_rotate_right node c other x
                   end = Some t) by (rewrite <- Ht; by destruct f').
    rewrite Hrot. cbn [mbind option_bind]. destruct (plug t up') as [|k l x r] eqn:Ep.
    { exfalso. specialize (Hel t Het). rewrite Ep in Hel. apply (f_equal length) in Hel.
      destruct f; cbn in Hel; repeat (rewrite ?length_app in Hel; cbn in Hel); lia. }
    eexists. split; [done|]. rewrite <- Ep in Htr |- *. rewrite plug_set_black by done. split; [done|]. by apply Hel.
Qed.

Lemma rb_leftmost_spec t : t <> Leaf ->
  exists x c' child q, (forall p, rb_leftmost t p = Some (x, c', child, q ++ p))
    /\ (forall p, elements t ++ after p = x :: elements child ++ after (q ++ p) /\ before (q ++ p) = before p)
    /\ forall c n p, is_rb c n t -> hole c n p -> exists n',
         if c' then is_rb RB_BLACK n' child /\ hole RB_RED n' (q ++ p)
         else exists k, is_rb k n' child /\ hole RB_BLACK (S n') (q ++ p).
Proof.
  induction t as [|c0 l IH x r _]; intros Hne; [done|]. destruct l as [|c1 ll y lr].
  - cbn [rb_leftmost]. exists x, c0, r, []. split_and!; [done|done|]. intros c n p Ht Hp.
    exists (if c0 then n else pred n). inversion Ht; subst; cbn; eauto.
  - destruct IH as (z & c' & child & q & Hl & He & Hc); [done|].
    exists z, c', child, (q ++ [InLeft c0 x r]). split_and!.
    + intros p. rewrite <- app_assoc. apply (Hl (InLeft c0 x r :: p)).
    + intros p. rewrite <- !app_assoc. cbn [app]. destruct (He (InLeft c0 x r :: p)) as [He1 ->]. split; [|done].
      rewrite <- He1. cbn [elements after]. by repeat (rewrite <- ?app_assoc; cbn).
    + intros c n p Ht Hp. rewrite <- app_assoc. cbn [app]. inversion Ht; subst; eapply Hc; eauto.
Qed.

Lemma erase_fix_spec (c : color) child p n :
  (if c then is_rb RB_BLACK n child /\ hole RB_RED n p else exists k, is_rb k n child /\ hole RB_BLACK (S n) p) ->
  exists t, erase_fix c child p = Some t /\ rb_tree t /\ elements t = before p ++ elements child ++ after p.
Proof.
  destruct c; cbn [erase_fix].
  - intros [Hc Hp]. eexists. split; [done|]. rewrite elements_plug. split; [|done].
    eapply is_rb_plug; [done|by apply hole_weaken].
  - intros (k & Hc & Hp). by eapply rb_erase_color_spec.
Qed.

(** The element of a frame does not matter to the shape. *)
Lemma hole_element q : forall c n k l x y p, hole c n (q ++ InRight k l x :: p) -> hole c n (q ++ InRight k l y :: p).
Proof.
  induction q as [|f q IH]; intros c n k l x y p H; cbn [app] in *; inversion H; subst; eauto.
Qed.

Lemma rb_erase_spec (c : color) l x r p n :
  is_rb c n (Node c l x r) -> hole c n p ->
  exists t, rb_erase (Node c l x r) p = Some t /\ rb_tree t /\ elements t = before p ++ elements l ++ elements r ++ after p.
Proof.
  intros Hn Hp.
  assert (Hsub : exists k1 k2 m, n = (if c then m else S m) /\ is_rb k1 m l /\ is_rb k2 m r
    /\ (c = RB_RED -> k1 = RB_BLACK /\ k2 = RB_BLACK)).
  { inversion Hn; subst; [exists RB_BLACK, RB_BLACK, n|eexists _, _, _]; by split_and!. }
  destruct Hsub as (k1 & k2 & m & -> & Hl & Hr & Hk).
  assert (Hfix : forall k t, is_rb k m t -> (c = RB_RED -> k = RB_BLACK) ->
    if c then is_rb RB_BLACK m t /\ hole RB_RED m p else exists k, is_rb k m t /\ hole RB_BLACK (S m) p).
  { intros k t Ht Hkb. destruct c; [|by eauto]. by rewrite <- Hkb. }
  cbn [rb_erase]. destruct l as [|c1 l1 x1 r1]; [|destruct r as [|c2 l2 x2 r2]].
  - destruct (erase_fix_spec c r p m) as (t & ? & ? & ?); [by apply (Hfix k2); [|intros; by apply Hk]|by exists t].
  - destruct (erase_fix_spec c (Node c1 l1 x1 r1) p m) as (t & ? & ? & ?); [by apply (Hfix k1); [|intros; by apply Hk]|by exists t].
  - set (l := Node c1 l1 x1 r1) in *. set (r := Node c2 l2 x2 r2) in *.
    destruct (rb_leftmost_spec r) as (z & c' & child & q & Hm & He & Hc); [done|]. rewrite (Hm []). cbn [mbind option_bind].
    rewrite app_nil_r. destruct (Hc k2 m (InRight c l x :: p) Hr) as (n' & Hn').
    { destruct c; [destruct (Hk eq_refl) as [-> ->]|]; eauto. }
    destruct (erase_fix_spec c' child (q ++ InRight c l z :: p) n') as (t & Ht & Hrb & Het).
    { destruct c'; [destruct Hn' as [? ?]|destruct Hn' as (k & ? & ?)]; eauto using hole_element. }
    exists t. split; [done|]. split; [done|]. rewrite Het.
    destruct (He (InRight c l z :: p)) as [He1 ->]. cbn [after before] in *. rewrite He1.
    by repeat (rewrite <- ?app_assoc; cbn).
Qed.

(** ** Trees as their callers see them *)

Lemma plug_inv p : forall t, rb_tree (plug t p) -> exists c n, is_rb c n t /\ hole c n p.
Proof.
  induction p as [|f p IH]; intros t Ht; [destruct Ht as [n Ht]; eauto|].
  destruct (IH _ Ht) as (c & n & Hf & Hp).
  destruct f as [k x o|k o x]; cbn in Hf; inversion Hf; subst; eexists _, _; eauto.
Qed.

Lemma rb_descend_plug less t : forall p, plug Leaf (rb_descend less t p) = plug t p.
Proof. induction t as [|c l IHl x r IHr]; intros p; [done|]. cbn [rb_descend]. destruct (less x); [apply IHl|apply IHr]. Qed.

Lemma find_node_some is_it t : forall p node q, find_node is_it t p = Some (node, q) ->
  plug node q = plug t p /\ exists c l x r, node = Node c l x r /\ is_it x = true.
Proof.
  induction t as [|c l IHl x r IHr]; intros p node q H; [done|]. cbn [find_node] in H.
  destruct (is_it x) eqn:Ex; [injection H as <- <-; eauto 8|].
  destruct (find_node is_it l _) as [z|] eqn:El; [injection H as ->; by apply IHl in El|by apply IHr in H].
Qed.

Lemma find_node_none is_it t : forall p, find_node is_it t p = None -> Forall (fun x => is_it x = false) (elements t).
Proof.
  induction t as [|c l IHl x r IHr]; intros p H; cbn [find_node elements] in *; [by constructor|].
  destruct (is_it x) eqn:Ex; [done|]. destruct (find_node is_it l _) eqn:El; [done|].
  apply Forall_app. split; [by eapply IHl|]. constructor; [done|by eapply IHr].
Qed.

Lemma rb_insert_elements x less t :
  rb_tree t -> exists t' l1 l2, rb_insert x (rb_descend less t []) = Some t' /\ rb_tree t'
    /\ elements t = l1 ++ l2 /\ elements t' = l1 ++ x :: l2
    /\ l1 = before (rb_descend less t []) /\ l2 = after (rb_descend less t []).
Proof.
  intros Ht. pose proof (rb_descend_plug less t [] : _ = t) as Hp. set (p := rb_descend less t []) in *. clearbody p.
  destruct (plug_inv p Leaf) as (c & n & Hl & Hh); [by rewrite Hp|]. inversion Hl; subst c n.
  destruct (rb_insert_spec x p 0 Hh eq_refl) as (t' & Hi & Hrb & He).
  exists t', (before p), (after p). split_and!; try done. by rewrite <- Hp, elements_plug.
Qed.

Lemma rb_erase_elements is_it t :
  rb_tree t -> Exists (fun x => is_it x = true) (elements t) ->
  exists node p t' x l1 l2, find_node is_it t [] = Some (node, p) /\ rb_erase node p = Some t' /\ rb_tree t' /\ is_it x = true
    /\ elements t = l1 ++ x :: l2 /\ elements t' = l1 ++ l2.
Proof.
  intros Ht Hex. destruct (find_node is_it t []) as [[node p]|] eqn:Hf.
  - destruct (find_node_some _ _ _ _ _ Hf) as [Hp (c & l & x & r & -> & Hx)]. cbn [plug] in Hp.
    destruct (plug_inv p (Node c l x r)) as (c' & n & Hn & Hh); [by rewrite Hp|].
    assert (c' = c) as -> by (by inversion Hn).
    destruct (rb_erase_spec c l x r p n Hn Hh) as (t' & He & Hrb & Hel).
    exists (Node c l x r), p, t', x, (before p ++ elements l), (elements r ++ after p). split_and!; try done.
    + rewrite <- Hp, elements_plug. cbn [elements]. by repeat (rewrite <- ?app_assoc; cbn).
    + by rewrite Hel, <- app_assoc.
  - exfalso. apply find_node_none in Hf. apply Exists_exists in Hex as (x & Hx & E).
    rewrite Forall_forall in Hf. rewrite (Hf x Hx) in E. done.
Qed.

Lemma rb_size c n t : is_rb c n t -> (2 ^ n <= S (length (elements t)))%nat.
Proof.
  induction 1 as [|n l x r _ IHl _ IHr|c1 c2 n l x r _ IHl _ IHr]; cbn [elements]; [done|..];
    rewrite length_app; cbn [length]; [lia|]. rewrite Nat.pow_succ_r'. lia.
Qed.

Lemma rb_height c n t : is_rb c n t -> (height t <= 2 * n + (if c then 1 else 0))%nat.
Proof.
  induction 1 as [|n l x r _ IHl _ IHr|c1 c2 n l x r _ IHl _ IHr]; cbn [height]; [lia|lia|].
  destruct c1, c2; lia.
Qed.

Lemma rb_first_elements t : rb_first t = head (elements t).
Proof.
  induction t as [|c l IH x r _]; [done|]. destruct l as [|c1 l1 x1 r1]; [done|].
  change (rb_first _) with (rb_first (Node c1 l1 x1 r1)). rewrite IH. cbn [elements]. by destruct (elements l1).
Qed.

Lemma rb_last_elements t : rb_last t = last (elements t).
Proof.
  induction t as [|c l _ x r IH]; [done|]. destruct r as [|c1 l1 x1 r1].
  - cbn [rb_last elements]. by rewrite last_snoc.
  - change (rb_last (Node c l x _)) with (rb_last (Node c1 l1 x1 r1)). rewrite IH. cbn [elements].
    rewrite (last_app (elements l)), last_cons.
    destruct (last (elements l1 ++ x1 :: elements r1)) eqn:E; [done|].
    apply last_None in E. by destruct (elements l1).
Qed.

Lemma climb_left_after p : climb_left p = head (after p).
Proof. by induction p as [|[c x r|c l x] p IH]. Qed.

Lemma climb_right_before p : climb_right p = last (before p).
Proof.
  induction p as [|[c x r|c l x] p IH]; [done|done|]. cbn [climb_right before]. by rewrite app_assoc, last_snoc.
Qed.

Lemma rb_next_head c l x r p : rb_next (Node c l x r) p = head (elements r ++ after p).
Proof.
  destruct r as [|c1 l1 x1 r1]; [apply climb_left_after|]. cbn [rb_next]. rewrite rb_first_elements.
  cbn [elements]. by destruct (elements l1).
Qed.

Lemma rb_prev_last c l x r p : rb_prev (Node c l x r) p = last (before p ++ elements l).
Proof.
  destruct l as [|c1 l1 x1 r1]; [rewrite app_nil_r; apply climb_right_before|]. cbn [rb_prev]. rewrite rb_last_elements.
  rewrite last_app. destruct (last (elements _)) eqn:E; [done|]. apply last_None in E. cbn in E. by destruct (elements l1).
Qed.


End Rbtree.

Arguments tree : clear implicits.
Arguments frame : clear implicits.
Arguments path : clear implicits.

(** Ten numbers, with the descent that looks at the element. *)
Definition sample_tree : option (tree Z) :=
  foldl (fun t x => t ← t; rb_insert x (rb_descend (fun y => x <? y) t [])) (Some Leaf) [5; 3; 8; 1; 4; 7; 9; 2; 6; 0].

Definition sample_erased : option (tree Z) :=
  t ← sample_tree; '(node, p) ← find_node (fun y => y =? 5) t []; rb_erase node p.

Example sample_tree_order :
  (elements <$> sample_tree) = Some [0; 1; 2; 3; 4; 5; 6; 7; 8; 9]
  /\ (elements <$> sample_erased) = Some [0; 1; 2; 3; 4; 6; 7; 8; 9]
  /\ (height <$> sample_tree) = Some 4%nat.
Proof. done. Qed.


End Rbtree.
