(* ===== verification/Hashtable.v ===== *)
(** * The environment hash table (lib/hashtable.c, include/search.h)

    Double hashing with open addressing over a table of prime size; index 0 is
    never used, a slot's [used] field is 0 for empty, -1 for deleted, and the
    first hash value of its key otherwise.

    The table calls out to the environment code: [change_ok] may veto a
    change, a variable's callback may veto and act on it, and a new entry
    gets its callback and flags from [env_callback_init] and [env_flags_init].
    These are the fields of the class [EnvHooks]; [W] is whatever state they
    keep.  Memory allocation succeeds.  [None] is an access outside the table
    or through a null table pointer. *)

From S2P Require Import Prelude Cstring.
From Stdlib Require Import Znumtheory.
From stdpp Require Import gmap.

#[local] Open Scope Z_scope.
#[local] Open Scope word_scope.

Module Hashtable.
Import Cstring.

Inductive env_op := env_op_create | env_op_delete | env_op_overwrite.

Inductive ACTION := FIND | ENTER.

(** A callback is identified by the name it is registered under. *)
Record ENTRY := Entry {
  key : str;
  data : str;
  callback : option str;
  flags : Z;
}.

Record _ENTRY := Slot { used : Z; entry : ENTRY }.

Record hsearch_data := Htab {
  table : option (list _ENTRY);
  size : Z;
  filled : Z;
}.

(** The zeroed slot [calloc] gives. *)
Definition zero_slot : _ENTRY := Slot 0 (Entry [] [] None 0).

Definition H_NOCLEAR : Z := 1.
Definition H_FORCE : Z := 2.
Definition H_INTERACTIVE : Z := 4.
Definition H_HIDE_DOT : Z := 8.

Definition EPERM : Z := 1.
Definition ESRCH : Z := 3.
Definition ENOMEM : Z := 12.
Definition EINVAL : Z := 22.

(** What the table calls; [true] is a veto. *)
Class EnvHooks (W : Type) := {
  change_ok : option (ENTRY -> option str -> env_op -> Z -> bool);
  run_callback :
    str -> str -> option str -> env_op -> Z -> hsearch_data * W -> bool * (hsearch_data * W);
  env_callback_init : ENTRY -> hsearch_data * W -> ENTRY * W;
  env_flags_init : ENTRY -> hsearch_data * W -> ENTRY * W;
}.

(** ** Creation *)

(** [while (div * div < number && number % div != 0) div += 2] *)
Fixpoint isprime_loop (fuel : nat) (div number : Z) : option Z :=
  match fuel with
  | O => None
  | S fuel =>
      if (u32 (div * div) <? number) && negb (number mod div =? 0)
      then isprime_loop fuel (u32 (div + 2)) number
      else Some div
  end.

Definition isprime (number : Z) : option bool :=
  div ← isprime_loop (Z.to_nat number) 3 number;
  Some (negb (number mod div =? 0)).

(** [while (!isprime(nel)) nel += 2] *)
Fixpoint next_prime (fuel : nat) (nel : Z) : option Z :=
  match fuel with
  | O => None
  | S fuel => p ← isprime nel; if p : bool then Some nel else next_prime fuel (u32 (nel + 2))
  end.

Definition hcreate_r (nel : Z) (htab : hsearch_data) : option (Z * hsearch_data) :=
  match table htab with
  | Some _ => Some (0, htab)
  | None =>
      nel ← next_prime 1000 (nel .| 1);
      Some (1, Htab (Some (replicate (Z.to_nat (nel + 1)) zero_slot)) nel 0)
  end.

(** Frees the strings and the table; the other fields stay. *)
Definition hdestroy_r (htab : hsearch_data) : hsearch_data :=
  Htab None (size htab) (filled htab).

(** ** Table access *)

Definition get_slot (htab : hsearch_data) (idx : Z) : option _ENTRY :=
  T ← table htab; if idx <? 0 then None else T !! Z.to_nat idx.

Definition set_slot (htab : hsearch_data) (idx : Z) (s : _ENTRY) : option hsearch_data :=
  T ← table htab;
  if decide (0 <= idx < Z.of_nat (length T))
  then Some (Htab (Some (<[Z.to_nat idx := s]> T)) (size htab) (filled htab))
  else None.

Definition set_filled (htab : hsearch_data) (n : Z) : hsearch_data :=
  Htab (table htab) (size htab) n.

(** ** Search *)

(** [hval = len; while (count-- > 0) { hval <<= 4; hval += key[count]; }] *)
Definition hash (k : str) : Z :=
  fold_right (fun c hval => u32 (u32 (hval .<< 4) + c)) (u32 (Z.of_nat (length k))) k.

(** The first index: [hval % size], but not 0. *)
Definition hash1 (sz : Z) (k : str) : Z :=
  let hval := hash k mod sz in if hval =? 0 then 1 else hval.

(** The step: [1 + hval % (size - 2)]. *)
Definition hash2 (sz hval : Z) : Z := 1 + hval mod u32 (sz - 2).

Definition probe (sz hval2 idx : Z) : Z :=
  if idx <=? hval2 then u32 (sz + idx - hval2) else idx - hval2.

(** Return value, index of the entry [*retval] points to, [errno]. *)
Record result := Res { ret : Z; retval : option Z; errno : option Z }.

Definition failure (e : Z) : result := Res 0 None (Some e).

Section Hooks.
Context {W : Type} `{Hooks : EnvHooks W}.

Abbreviation St := (hsearch_data * W)%type.

Definition vetoed (e : ENTRY) (v : option str) (op : env_op) (flag : Z) : bool :=
  match change_ok with Some f => f e v op flag | None => false end.

Definition call_back (e : ENTRY) (k : str) (v : option str) (op : env_op) (flag : Z) (st : St)
    : bool * St :=
  match callback e with Some cb => run_callback cb k v op flag st | None => (false, st) end.

(** [None] in the first component: keep searching. *)
Definition _compare_and_overwrite_entry (k : str) (v : option str) (action : ACTION)
    (flag hval idx : Z) (st : St) : option (option result * St) :=
  s ← get_slot st.1 idx;
  if (used s =? hval) && streq k (key (entry s)) then
    match action, v with
    | ENTER, Some d =>
        if vetoed (entry s) (Some d) env_op_overwrite flag
        then Some (Some (failure EPERM), st)
        else
          let '(rejected, (htab, w)) := call_back (entry s) k (Some d) env_op_overwrite flag st in
          if rejected : bool then Some (Some (failure EINVAL), (htab, w))
          else
            s ← get_slot htab idx;
            let e := entry s in
            htab ← set_slot htab idx (Slot (used s) (Entry (key e) d (callback e) (flags e)));
            Some (Some (Res idx (Some idx) None), (htab, w))
    | _, _ => Some (Some (Res idx (Some idx) None), st)
    end
  else Some (None, st).

(** The [do] loop: [inl] when the function returns from it, [inr idx] when it
    ends at [idx]. *)
Fixpoint search_loop (fuel : nat) (k : str) (v : option str) (action : ACTION)
    (flag hval hval2 idx : Z) (st : St) : option ((result + Z) * St) :=
  match fuel with
  | O => None
  | S fuel =>
      let idx := probe (size st.1) hval2 idx in
      if idx =? hval then Some (inr idx, st) else
      '(r, st) ← _compare_and_overwrite_entry k v action flag hval idx st;
      match r with
      | Some r => Some (inl r, st)
      | None =>
          s ← get_slot st.1 idx;
          if used s =? 0 then Some (inr idx, st)
          else search_loop fuel k v action flag hval hval2 idx st
      end
  end.

Definition _hdelete (htab : hsearch_data) (idx : Z) : option hsearch_data :=
  s ← get_slot htab idx;
  let e := entry s in
  htab ← set_slot htab idx (Slot (-1) (Entry (key e) (data e) None 0));
  Some (set_filled htab (u32 (filled htab - 1))).

(** The part behind "An empty bucket has been found". *)
Definition enter_new (k : str) (v : option str) (flag hval idx : Z) (st : St)
    : option (result * St) :=
  let '(htab, w) := st in
  if filled htab =? size htab then Some (failure ENOMEM, st) else
  s ← get_slot htab idx;
  d ← v;
  let e := Entry k d (callback (entry s)) (flags (entry s)) in
  htab ← set_slot htab idx (Slot hval e);
  let htab := set_filled htab (u32 (filled htab + 1)) in
  let '(e, w) := env_callback_init e (htab, w) in
  htab ← set_slot htab idx (Slot hval e);
  let '(e, w) := env_flags_init e (htab, w) in
  htab ← set_slot htab idx (Slot hval e);
  if vetoed e (Some d) env_op_create flag then
    htab ← _hdelete htab idx; Some (failure EPERM, (htab, w))
  else
    let '(rejected, (htab, w)) := call_back e k (Some d) env_op_create flag (htab, w) in
    if rejected : bool then
      htab ← _hdelete htab idx; Some (failure EINVAL, (htab, w))
    else Some (Res 1 (Some idx) None, (htab, w)).

Definition hsearch_r (k : str) (v : option str) (action : ACTION) (st : St) (flag : Z)
    : option (result * St) :=
  let sz := size st.1 in
  let hval := hash1 sz k in
  s ← get_slot st.1 hval;
  '(out, first_deleted, st) ←
    (if negb (used s =? 0) then
       let first_deleted := if used s =? -1 then hval else 0 in
       '(r, st) ← _compare_and_overwrite_entry k v action flag hval hval st;
       match r with
       | Some r => Some (inl r, first_deleted, st)
       | None =>
           '(o, st) ← search_loop (Z.to_nat sz) k v action flag hval (hash2 sz hval) hval st;
           Some (o, first_deleted, st)
       end
     else Some (inr hval, 0, st));
  match out with
  | inl r => Some (r, st)
  | inr idx =>
      match action with
      | ENTER =>
          enter_new k v flag hval (if negb (first_deleted =? 0) then first_deleted else idx) st
      | FIND => Some (failure ESRCH, st)
      end
  end.

(** ** Deletion *)

Definition hdelete_r (k : str) (st : St) (flag : Z) : option (result * St) :=
  '(r, st) ← hsearch_r k None FIND st 0;
  if ret r =? 0 then Some (failure ESRCH, st) else
  let idx := ret r in
  s ← get_slot st.1 idx;
  if vetoed (entry s) None env_op_delete flag then Some (failure EPERM, st) else
  s ← get_slot st.1 idx;
  let '(rejected, (htab, w)) := call_back (entry s) k None env_op_delete flag st in
  if rejected : bool then Some (failure EINVAL, (htab, w)) else
  htab ← _hdelete htab idx;
  Some (Res 1 None None, (htab, w)).

End Hooks.

(** ** Enumeration *)

(** [for (idx = last_idx + 1; idx < htab->size; ++idx)] *)
Fixpoint scan_slots (fuel : nat) (test : ENTRY -> option bool) (htab : hsearch_data) (idx : Z)
    : option result :=
  match fuel with
  | O => None
  | S fuel =>
      if idx <? size htab then
        s ← get_slot htab idx;
        if used s <=? 0 then scan_slots fuel test htab (idx + 1) else
        b ← test (entry s);
        if b : bool then Some (Res idx (Some idx) None) else scan_slots fuel test htab (idx + 1)
      else Some (failure ESRCH)
  end.

Definition is_zero (r : option Z) : option bool := x ← r; Some (x =? 0).

Definition hmatch_r (match_ : str) (last_idx : Z) (htab : hsearch_data) : option result :=
  scan_slots (Z.to_nat (size htab) + 1)
    (fun e => is_zero (strncmp (cstr match_) (cstr (key e)) (Z.of_nat (length match_))))
    htab (last_idx + 1).

Definition is_found (r : option (option nat)) : option bool :=
  x ← r; Some (match x with Some _ => true | None => false end).

Definition hstrstr_r (match_ : str) (last_idx : Z) (htab : hsearch_data) : option result :=
  scan_slots (Z.to_nat (size htab) + 1)
    (fun e => a ← is_found (strstr (cstr (key e)) (cstr match_));
              if a : bool then Some true
              else is_found (strstr (cstr (data e)) (cstr match_)))
    htab (last_idx + 1).

(** [for (i = 1; i <= htab->size; ++i)]; the callback may change the entry
    and a state of its own, and stops the walk with a non-zero value. *)
Fixpoint walk_loop {S} (fuel : nat) (f : S -> ENTRY -> Z * S * ENTRY) (s : S)
    (htab : hsearch_data) (i : Z) : option (Z * S * hsearch_data) :=
  match fuel with
  | O => None
  | Datatypes.S fuel =>
      if i <=? size htab then
        sl ← get_slot htab i;
        if 0 <? used sl then
          let '(retval, s, e) := f s (entry sl) in
          htab ← set_slot htab i (Slot (used sl) e);
          if negb (retval =? 0) then Some (retval, s, htab)
          else walk_loop fuel f s htab (i + 1)
        else walk_loop fuel f s htab (i + 1)
      else Some (0, s, htab)
  end.

Definition hwalk_r {S} (f : S -> ENTRY -> Z * S * ENTRY) (s : S) (htab : hsearch_data)
    : option (Z * S * hsearch_data) :=
  walk_loop (Z.to_nat (size htab) + 1) f s htab 1.

(** ** The prime test *)

Lemma odd_divisor n d : Z.odd n = true -> (d | n) -> Z.odd d = true.
Proof. intros Hn [q ->]. rewrite Z.odd_mul in Hn. by apply andb_true_iff in Hn as [_ ?]. Qed.

Lemma odd_succ_succ d e : Z.odd d = true -> Z.odd e = true -> d <= e -> e < d + 2 -> e = d.
Proof.
  intros [x ->]%Z.odd_spec [y ->]%Z.odd_spec. lia.
Qed.

(** Trial divisors below [div] have failed. *)
Definition no_divisor (div number : Z) : Prop :=
  forall d, 3 <= d < div -> Z.odd d = true -> ~ (d | number).

Lemma isprime_loop_spec fuel div number :
  5 <= number < 2 ^ 31 -> Z.odd number = true ->
  3 <= div < number -> Z.odd div = true -> no_divisor div number ->
  (div = 3 \/ (div - 2) * (div - 2) < number) ->
  number - div < Z.of_nat fuel ->
  exists d, isprime_loop fuel div number = Some d /\ 3 <= d < number /\ Z.odd d = true
    /\ no_divisor d number /\ ((d | number) \/ number <= d * d).
Proof.
  intros Hn Hodd. revert div. induction fuel as [|fuel IH]; intros div Hd Hdo Hnd Hsq Hf; [lia|].
  cbn [isprime_loop].
  assert (Hdiv : div < 2 ^ 16) by (destruct Hsq; nia).
  rewrite (wrap_small 32 (div * div)), (wrap_small 32 (div + 2)) by (split; nia).
  destruct (Z.ltb_spec (div * div) number) as [Hlt|Hge]; cbn [andb].
  - destruct (Z.eqb_spec (number mod div) 0) as [E|E]; cbn [negb].
    + exists div. split_and!; try done; try lia. left. by apply Z.mod_divide; [lia|].
    + apply IH.
      * nia.
      * by rewrite Z.odd_add, Hdo.
      * intros d Hd' Hod Hdd. destruct (decide (d < div)) as [?|Hge].
        { apply (Hnd d); [lia|done|done]. }
        assert (d = div) as -> by (apply odd_succ_succ; done || lia).
        apply E. by apply Z.mod_divide; [lia|].
      * right. replace (div + 2 - 2) with div by lia. done.
      * lia.
  - exists div. split_and!; try done; try lia.
Qed.

Lemma smaller_factor n d : 1 < d < n -> (d | n) -> exists e, 1 < e < n /\ (e | n) /\ e * e <= n.
Proof.
  intros Hd [q Hq]. destruct (Z.le_gt_cases d q).
  - exists d. split; [done|]. split; [by exists q|]. nia.
  - exists q. split; [nia|]. split; [exists d; lia|]. nia.
Qed.

Lemma isprime_spec number :
  5 <= number < 2 ^ 31 -> Z.odd number = true ->
  exists b, isprime number = Some b /\ (b = true <-> prime number).
Proof.
  intros Hn Hodd. unfold isprime.
  destruct (isprime_loop_spec (Z.to_nat number) 3 number) as (d & -> & Hd & Hdo & Hnd & Hend);
    try done; try lia; [intros d Hd; lia|].
  cbn [mbind option_bind]. eexists. split; [done|].
  destruct (Z.eqb_spec (number mod d) 0) as [E|E]; cbn [negb].
  - split; [done|]. intros Hp. apply Z.mod_divide in E; [|lia].
    destruct (prime_divisors _ Hp _ E) as [?|[?|[?|?]]]; lia.
  - split; [|done]. intros _. destruct (prime_dec number) as [|Hnp]; [done|]. exfalso.
    destruct (not_prime_divide number) as (f & Hf & Hfd); [lia|done|].
    destruct (smaller_factor number f Hf Hfd) as (e & He & Hed & Hee).
    pose proof (odd_divisor _ _ Hodd Hed) as Heo.
    assert (e <> 2) by (by intros ->).
    assert (Hde : ~ (d | number)) by (intros Hdd; apply E; by apply Z.mod_divide; [lia|]).
    destruct Hend as [?|Hge]; [done|].
    destruct (decide (e < d)); [by apply (Hnd e); [lia|..]|].
    apply Hde. assert (e = d) as <- by nia. done.
Qed.

(** [isprime] decides primality of every odd number from 5 on. *)
Theorem isprime_correct number :
  5 <= number < 2 ^ 31 -> Z.odd number = true ->
  exists b, isprime number = Some b /\ (b = true <-> prime number).
Proof. apply isprime_spec. Qed.

Lemma isprime_correct_witness : exists b, isprime 521 = Some b /\ (b = true <-> prime 521).
Proof. apply isprime_correct; [lia|reflexivity]. Defined.

(** ** Creation *)

Definition empty_slot (s : _ENTRY) : bool := used s =? 0.

(** Sizes the environment asks for. *)
Lemma next_prime_spec nel :
  4 <= nel <= 1024 ->
  exists p, next_prime 1000 (nel .| 1) = Some p /\ prime p /\ nel <= p < 2048 /\ 5 <= p.
Proof.
  intros Hn.
  assert (Hall : forallb (fun n => match next_prime 1000 (n .| 1) with
      | Some p => (n <=? p) && (p <? 2048) && (5 <=? p) && Z.odd p
                  && bool_decide (isprime p = Some true)
      | None => false end) (map Z.of_nat (seq 4 1021)) = true) by (vm_compute; done).
  rewrite forallb_forall in Hall. specialize (Hall nel).
  assert (Hin : In nel (map Z.of_nat (seq 4 1021))).
  { apply in_map_iff. exists (Z.to_nat nel). split; [lia|]. apply in_seq. lia. }
  specialize (Hall Hin). destruct (next_prime 1000 (nel .| 1)) as [p|]; [|done].
  rewrite !andb_true_iff, Z.leb_le, Z.ltb_lt, Z.leb_le, bool_decide_eq_true in Hall.
  destruct Hall as ((((? & ?) & ?) & Ho) & Hp).
  destruct (isprime_spec p) as (b & Hb & Hiff); [lia|done|].
  rewrite Hp in Hb. injection Hb as <-. exists p. split; [done|]. split; [by apply Hiff|lia].
Qed.

(** ** The probe sequence *)

Section Probe.
Context (sz h : Z).
Hypothesis sz_prime : prime sz.
Hypothesis sz_range : 5 <= sz < 2 ^ 31.
Hypothesis h_range : 1 <= h < sz.

Let h2 := hash2 sz h.

(** The slot visited in step [j]; index [sz] stands for residue 0. *)
Definition pos (j : Z) : Z :=
  let r := (h - j * h2) mod sz in if r =? 0 then sz else r.

Lemma h2_range : 1 <= h2 <= sz - 2.
Proof.
  unfold h2, hash2. rewrite wrap_small by (split; lia).
  pose proof (Z.mod_pos_bound h (sz - 2) ltac:(lia)). lia.
Qed.

Lemma pos_range j : 1 <= pos j <= sz.
Proof.
  unfold pos. pose proof (Z.mod_pos_bound (h - j * h2) sz ltac:(lia)).
  destruct (Z.eqb_spec ((h - j * h2) mod sz) 0); lia.
Qed.

Lemma pos_congr j : (sz | pos j - (h - j * h2)).
Proof.
  unfold pos. pose proof (Z.div_mod (h - j * h2) sz ltac:(lia)) as E.
  destruct (Z.eqb_spec ((h - j * h2) mod sz) 0).
  - exists (1 - (h - j * h2) / sz). lia.
  - exists (- ((h - j * h2) / sz)). lia.
Qed.

Lemma slot_unique i i' : 1 <= i <= sz -> 1 <= i' <= sz -> (sz | i - i') -> i = i'.
Proof. intros Hi Hi' [q Hq]. assert (q = 0) by nia. lia. Qed.

Lemma pos_unique j v : 1 <= v <= sz -> (sz | v - (h - j * h2)) -> pos j = v.
Proof.
  intros Hv Hd. apply slot_unique; [apply pos_range|done|].
  replace (pos j - v) with ((pos j - (h - j * h2)) - (v - (h - j * h2))) by lia.
  apply Z.divide_sub_r; [apply pos_congr|done].
Qed.

Lemma pos_0 : pos 0 = h.
Proof. apply pos_unique; [lia|]. exists 0. lia. Qed.

Lemma pos_sz : pos sz = h.
Proof. apply pos_unique; [lia|]. exists h2. lia. Qed.

Lemma probe_pos j : probe sz h2 (pos j) = pos (j + 1).
Proof.
  pose proof (pos_range j) as Hr. pose proof h2_range. unfold probe.
  destruct (pos_congr j) as [q Hq]. symmetry.
  destruct (Z.leb_spec (pos j) h2).
  - rewrite wrap_small by (split; lia). apply pos_unique; [lia|]. exists (q + 1). lia.
  - apply pos_unique; [lia|]. exists q. lia.
Qed.

Lemma h2_coprime x : (sz | x * h2) -> (sz | x).
Proof.
  intros Hd. destruct (prime_mult sz sz_prime x h2 Hd) as [|Hh]; [done|].
  pose proof h2_range. apply Z.divide_pos_le in Hh; lia.
Qed.

Lemma pos_inj j j' : 0 <= j < sz -> 0 <= j' < sz -> pos j = pos j' -> j = j'.
Proof.
  intros Hj Hj' E. assert (Hd : (sz | j - j')).
  { apply h2_coprime. destruct (pos_congr j) as [q Hq], (pos_congr j') as [q' Hq'].
    rewrite E in Hq. exists (q - q'). lia. }
  destruct Hd as [q Hq]. assert (q = 0) by nia. lia.
Qed.

(** Because the size is prime the sequence steps through all indices. *)
Lemma pos_surj i : 1 <= i <= sz -> exists j, 0 <= j < sz /\ pos j = i.
Proof.
  intros Hi. pose proof h2_range.
  assert (Hrel : rel_prime sz h2).
  { apply prime_rel_prime; [done|]. intros Hd. apply Z.divide_pos_le in Hd; lia. }
  destruct (rel_prime_bezout _ _ Hrel) as [u v Huv].
  exists ((v * (h - i)) mod sz). split; [apply Z.mod_pos_bound; lia|].
  apply pos_unique; [done|].
  pose proof (Z.div_mod (v * (h - i)) sz ltac:(lia)) as E.
  set (m := (v * (h - i)) mod sz) in *. set (q := v * (h - i) / sz) in *.
  exists (- (u * (h - i)) - q * h2). nia.
Qed.
End Probe.

Lemma hash1_range sz k : 2 <= sz -> 1 <= hash1 sz k < sz.
Proof.
  intros Hs. unfold hash1. pose proof (Z.mod_pos_bound (hash k) sz ltac:(lia)).
  destruct (Z.eqb_spec (hash k mod sz) 0); lia.
Qed.

(** The probe sequence of a key visits every index from 1 to the (prime)
    size exactly once in [size] steps and is then back at the first one. *)
Theorem probe_complete sz k :
  prime sz -> 5 <= sz < 2 ^ 31 ->
  let h := hash1 sz k in
  let visit n := Nat.iter n (probe sz (hash2 sz h)) h in
  (forall n, 1 <= visit n <= sz)
  /\ (forall i, 1 <= i <= sz -> exists n, (n < Z.to_nat sz)%nat /\ visit n = i
        /\ forall n', (n' < Z.to_nat sz)%nat -> visit n' = i -> n' = n)
  /\ visit (Z.to_nat sz) = h.
Proof.
  intros Hp Hs h visit. assert (Hh : 1 <= h < sz) by (apply hash1_range; lia).
  assert (Hv : forall n, visit n = pos sz h (Z.of_nat n)).
  { induction n as [|n IH]; [by rewrite pos_0|].
    change (visit (S n)) with (probe sz (hash2 sz h) (visit n)). rewrite IH, probe_pos by done.
    f_equal. lia. }
  split; [|split].
  - intros n. rewrite Hv. by apply pos_range.
  - intros i Hi. destruct (pos_surj sz h Hp Hs Hh i Hi) as (j & Hj & E).
    exists (Z.to_nat j). split; [lia|]. rewrite Hv, Z2Nat.id by lia. split; [done|].
    intros n' Hn'. rewrite Hv, <- E. intros E'. apply (pos_inj sz h) in E'; lia || done.
  - rewrite Hv, Z2Nat.id by lia. by apply pos_sz.
Qed.

Lemma probe_complete_witness :
  let h := hash1 7 [98; 111; 111; 116] in
  Nat.iter 7 (probe 7 (hash2 7 h)) h = h.
Proof.
  apply (probe_complete 7 [98; 111; 111; 116]); [|lia].
  destruct (isprime_spec 7) as (b & E & Hb); [lia|done|]. apply Hb.
  vm_compute in E. by injection E as <-.
Defined.

End Hashtable.
