(* ===== verification/HashtableMap.v ===== *)
(** * The hash table implements a finite map

    The abstract view of a table is the finite map from variable names to
    values ([abs]).  Lookup, insertion, update and deletion of lib/hashtable.c
    are shown to be the map operations, for every set of hooks that leaves
    names, values and the slots' marks alone ([HooksFrame]), as long as the
    table has an empty slot left. *)

From S2P Require Import Prelude Cstring Hashtable.
From Stdlib Require Import Znumtheory.
From stdpp Require Import gmap.

#[local] Open Scope Z_scope.

Module HashtableMap.
Import Cstring Hashtable.

(** ** Invariant *)

Definition live (T : list _ENTRY) (i : Z) (s : _ENTRY) : Prop :=
  1 <= i /\ T !! Z.to_nat i = Some s /\ 0 < used s.

Definition nonempty (T : list _ENTRY) (i : Z) : Prop :=
  exists s, T !! Z.to_nat i = Some s /\ used s <> 0.

Definition empty (T : list _ENTRY) (i : Z) : Prop :=
  exists s, T !! Z.to_nat i = Some s /\ used s = 0.

Definition live_pair (s : _ENTRY) : option (str * str) :=
  if 0 <? used s then Some (key (entry s), data (entry s)) else None.

(** The name-value pairs of the table, in slot order, and the map they are. *)
Definition pairs (T : list _ENTRY) : list (str * str) := omap live_pair T.

Definition abs (T : list _ENTRY) : gmap str str := list_to_map (pairs T).

(** Every used slot carries the hash of its name and is reached from there
    over used slots; no name occurs twice; [filled] counts them. *)
Record wf (h : hsearch_data) (T : list _ENTRY) : Prop := {
  wf_table : table h = Some T;
  wf_prime : prime (size h);
  wf_size : 5 <= size h < 2 ^ 31;
  wf_len : Z.of_nat (length T) = size h + 1;
  wf_zero : empty T 0;
  wf_slot : forall i s, 1 <= i -> T !! Z.to_nat i = Some s ->
    used s = 0 \/ used s = -1
    \/ (used s = hash1 (size h) (key (entry s)) /\ is_str (key (entry s)));
  wf_path : forall i s, live T i s ->
    exists j, 0 <= j < size h /\ pos (size h) (used s) j = i
      /\ forall j', 0 <= j' < j -> nonempty T (pos (size h) (used s) j');
  wf_unique : forall i i' s s', live T i s -> live T i' s' ->
    key (entry s) = key (entry s') -> i = i';
  wf_filled : filled h = Z.of_nat (length (pairs T));
}.

Definition absent (T : list _ENTRY) (k : str) : Prop :=
  forall i s, live T i s -> key (entry s) <> k.

Section Wf.
Context (h : hsearch_data) (T : list _ENTRY) (Hwf : wf h T).

Let Hsz : 5 <= size h < 2 ^ 31 := wf_size _ _ Hwf.
Let Hpr : prime (size h) := wf_prime _ _ Hwf.

Lemma slot_at i : 0 <= i <= size h -> exists s, T !! Z.to_nat i = Some s.
Proof.
  intros Hi. apply lookup_lt_is_Some. pose proof (wf_len _ _ Hwf). lia.
Qed.

Lemma get_slot_at i s : 0 <= i -> T !! Z.to_nat i = Some s -> get_slot h i = Some s.
Proof.
  intros Hi Hs. unfold get_slot. rewrite (wf_table _ _ Hwf). cbn.
  destruct (Z.ltb_spec i 0); [lia|done].
Qed.

Lemma set_slot_at i s :
  0 <= i <= size h -> set_slot h i s = Some (Htab (Some (<[Z.to_nat i := s]> T)) (size h) (filled h)).
Proof.
  intros Hi. unfold set_slot. rewrite (wf_table _ _ Hwf). cbn.
  rewrite decide_True; [done|]. pose proof (wf_len _ _ Hwf). lia.
Qed.

Lemma live_range i s : live T i s -> 1 <= i <= size h.
Proof.
  intros (Hi & Hs & _). apply lookup_lt_Some in Hs. pose proof (wf_len _ _ Hwf). lia.
Qed.

Lemma used_live i s :
  1 <= i -> T !! Z.to_nat i = Some s -> 0 < used s ->
  used s = hash1 (size h) (key (entry s)) /\ is_str (key (entry s)).
Proof.
  intros Hi Hs Hu. destruct (wf_slot _ _ Hwf i s Hi Hs) as [?|[?|?]]; [lia|lia|done].
Qed.

(** A name in the table is on its probe path. *)
Lemma path_of i s :
  live T i s ->
  let hv := hash1 (size h) (key (entry s)) in
  exists j, 0 <= j < size h /\ pos (size h) hv j = i
    /\ forall j', 0 <= j' < j -> nonempty T (pos (size h) hv j')
         /\ forall s', live T (pos (size h) hv j') s' -> key (entry s') <> key (entry s).
Proof.
  intros Hl hv. pose proof Hl as (Hi & Hs & Hu).
  destruct (used_live i s Hi Hs Hu) as [Hused _]. fold hv in Hused.
  destruct (wf_path _ _ Hwf i s Hl) as (j & Hj & Hpos & Hpath). rewrite Hused in *.
  exists j. split; [done|]. split; [done|]. intros j' Hj'. split; [by apply Hpath|].
  intros s' Hl' Hk. pose proof (wf_unique _ _ Hwf _ _ _ _ Hl Hl' (eq_sym Hk)) as E.
  assert (Hhv : 1 <= hv < size h) by (apply hash1_range; lia).
  rewrite <- Hpos in E. apply (pos_inj (size h) hv) in E; lia || done.
Qed.

(** ** The abstract map *)

Lemma elem_of_pairs k d :
  (k, d) ∈ pairs T <-> exists i s, live T i s /\ key (entry s) = k /\ data (entry s) = d.
Proof.
  unfold pairs. rewrite list_elem_of_omap. split.
  - intros (s & Hin & Hp). unfold live_pair in Hp.
    destruct (Z.ltb_spec 0 (used s)); [|done]. injection Hp as <- <-.
    apply list_elem_of_lookup in Hin as [i Hi]. exists (Z.of_nat i), s.
    split; [|done]. unfold live. rewrite Nat2Z.id. split; [|done].
    destruct i; [|lia]. destruct (wf_zero _ _ Hwf) as (s0 & E0 & Hz).
    change (Z.to_nat 0) with 0%nat in E0. rewrite Hi in E0. injection E0 as <-. lia.
  - intros (i & s & (Hi & Hs & Hu) & <- & <-). exists s.
    split; [by eapply list_elem_of_lookup_2|]. unfold live_pair.
    by destruct (Z.ltb_spec 0 (used s)); [|lia].
Qed.

Lemma abs_lookup k d :
  abs T !! k = Some d <-> exists i s, live T i s /\ key (entry s) = k /\ data (entry s) = d.
Proof.
  rewrite <- elem_of_pairs. split; [apply elem_of_list_to_map_2|].
  intros Hin. apply elem_of_list_to_map_1'; [|done]. intros d' Hin'.
  apply elem_of_pairs in Hin as (i & s & Hl & Hk & <-).
  apply elem_of_pairs in Hin' as (i' & s' & Hl' & Hk' & <-).
  assert (i = i') as <- by (eapply (wf_unique _ _ Hwf); [done..|congruence]).
  destruct Hl as (_ & E & _), Hl' as (_ & E' & _). congruence.
Qed.

Lemma abs_absent k : abs T !! k = None <-> absent T k.
Proof.
  split.
  - intros Hn i s Hl Hk. assert (abs T !! k = Some (data (entry s))); [|congruence].
    apply abs_lookup. by exists i, s.
  - intros Ha. destruct (abs T !! k) as [d|] eqn:E; [|done].
    apply abs_lookup in E as (i & s & Hl & Hk & _). by destruct (Ha i s Hl).
Qed.
End Wf.

(** ** Search *)

Section Search.
Context {W : Type} `{Hooks : EnvHooks W}.
Context (h : hsearch_data) (T : list _ENTRY) (Hwf : wf h T) (w : W).
Context (k : str) (Hk : is_str k) (v : option str) (action : ACTION) (flag : Z).

Let Hsz : 5 <= size h < 2 ^ 31 := wf_size _ _ Hwf.
Let Hpr : prime (size h) := wf_prime _ _ Hwf.
#[local] Abbreviation sz := (size h).
#[local] Abbreviation hv := (hash1 (size h) k).

Lemma hv_range : 1 <= hv < sz.
Proof. apply hash1_range. lia. Qed.

Lemma pos_in j : 1 <= pos sz hv j <= sz.
Proof. by apply pos_range. Qed.

(** A slot that does not hold the name is passed over. *)
Lemma compare_miss i s :
  1 <= i -> T !! Z.to_nat i = Some s -> (live T i s -> key (entry s) <> k) ->
  _compare_and_overwrite_entry k v action flag hv i (h, w) = Some (None, (h, w)).
Proof.
  intros Hi Hs Hn. unfold _compare_and_overwrite_entry. cbn [fst].
  rewrite (get_slot_at h T Hwf i s) by (done || lia). cbn [mbind option_bind].
  destruct (Z.eqb_spec (used s) hv) as [Hu|Hu]; [|done]. cbn [andb].
  pose proof hv_range.
  destruct (used_live h T Hwf i s) as [_ Hstr]; [done|done|lia|].
  pose proof (streq_spec k (key (entry s)) Hk Hstr) as Heq.
  destruct (streq k (key (entry s))); [|done].
  exfalso. apply Hn; [split; [done|split; [done|lia]]|]. symmetry. by apply Heq.
Qed.

Lemma search_loop_miss fuel j :
  absent T k -> 1 <= j <= sz -> sz - j < Z.of_nat fuel ->
  exists r, search_loop fuel k v action flag hv (hash2 sz hv) (pos sz hv (j - 1)) (h, w)
            = Some (inr (pos sz hv r), (h, w))
    /\ j <= r <= sz /\ (r < sz -> empty T (pos sz hv r))
    /\ forall j', j <= j' < r -> nonempty T (pos sz hv j').
Proof.
  intros Hab. pose proof hv_range as Hh. revert j. induction fuel as [|fuel IH]; intros j Hj Hf; [lia|].
  cbn [search_loop fst]. rewrite probe_pos by (done || apply hv_range).
  replace (j - 1 + 1) with j by lia. pose proof (pos_in j) as Hp.
  destruct (Z.eqb_spec (pos sz hv j) hv) as [E|E].
  - assert (j = sz) as ->.
    { destruct (decide (j < sz)); [|lia]. rewrite <- (pos_0 sz hv) in E at 2 by done.
      apply pos_inj in E; done || lia. }
    exists sz. split; [done|]. split; [lia|]. split; [lia|]. intros. lia.
  - destruct (slot_at h T Hwf (pos sz hv j)) as [s Hs]; [lia|].
    rewrite (compare_miss _ s) by (done || lia || (intros; by eapply Hab)).
    cbn [mbind option_bind fst].
    rewrite (get_slot_at h T Hwf _ s) by (done || lia). cbn [mbind option_bind].
    assert (j < sz).
    { destruct (decide (j = sz)) as [->|]; [|lia]. rewrite pos_sz in E; done. }
    destruct (Z.eqb_spec (used s) 0) as [Hz|Hz].
    + exists j. split; [done|]. split; [lia|]. split; [by exists s|]. intros. lia.
    + destruct (IH (j + 1)) as (r & Hr & Hr1 & Hr2 & Hr3); [lia|lia|].
      replace (j + 1 - 1) with j in Hr by lia. exists r. split; [done|]. split; [lia|].
      split; [done|]. intros j' Hj'. destruct (decide (j' = j)) as [->|]; [by exists s|].
      apply Hr3. lia.
Qed.

Lemma search_loop_hit fuel j jk r st' :
  1 <= j <= jk -> jk < sz -> sz - j < Z.of_nat fuel ->
  (forall j', 0 <= j' < jk -> nonempty T (pos sz hv j')
     /\ forall s', live T (pos sz hv j') s' -> key (entry s') <> k) ->
  _compare_and_overwrite_entry k v action flag hv (pos sz hv jk) (h, w) = Some (Some r, st') ->
  search_loop fuel k v action flag hv (hash2 sz hv) (pos sz hv (j - 1)) (h, w)
  = Some (inl r, st').
Proof.
  intros Hj Hjk Hf Hpath Hcmp. pose proof hv_range as Hh. revert j Hj Hf. induction fuel as [|fuel IH]; intros j Hj Hf; [lia|].
  cbn [search_loop fst]. rewrite probe_pos by (done || apply hv_range).
  replace (j - 1 + 1) with j by lia. pose proof (pos_in j) as Hp.
  destruct (Z.eqb_spec (pos sz hv j) hv) as [E|E].
  { exfalso. rewrite <- (pos_0 sz hv) in E at 2 by done.
    apply pos_inj in E; done || lia. }
  destruct (decide (j = jk)) as [->|Hne].
  { rewrite Hcmp. done. }
  destruct (Hpath j) as [(s & Hs & Hu) Hnk]; [lia|].
  rewrite (compare_miss _ s) by (done || lia || (intros; by apply Hnk)).
  cbn [mbind option_bind fst]. rewrite (get_slot_at h T Hwf _ s) by (done || lia).
  cbn [mbind option_bind]. destruct (Z.eqb_spec (used s) 0); [done|].
  specialize (IH (j + 1)). replace (j + 1 - 1) with j in IH by lia. apply IH; lia.
Qed.

(** The first slot of the path, then the loop. *)
Lemma hsearch_hit i s r st' :
  live T i s -> key (entry s) = k ->
  _compare_and_overwrite_entry k v action flag hv i (h, w) = Some (Some r, st') ->
  hsearch_r k v action (h, w) flag = Some (r, st').
Proof.
  intros Hl Hks Hcmp. destruct (path_of h T Hwf i s Hl) as (jk & Hjk & Hpos & Hpath).
  rewrite Hks in Hpos, Hpath. unfold hsearch_r. cbn [fst].
  pose proof hv_range as Hh.
  destruct (slot_at h T Hwf hv) as [s0 Hs0]; [lia|].
  rewrite (get_slot_at h T Hwf _ s0) by (done || lia). cbn [mbind option_bind].
  assert (Hp0 : pos sz hv 0 = hv) by (by apply pos_0).
  destruct (decide (jk = 0)) as [->|Hne].
  - rewrite Hp0 in Hpos. rewrite <- Hpos in Hcmp, Hl. destruct Hl as (_ & E & Hu).
    rewrite Hs0 in E. injection E as ->.
    destruct (Z.eqb_spec (used s) 0); [lia|]. cbn [negb]. by rewrite Hcmp.
  - destruct (Hpath 0) as [(s0' & E & Hu) Hnk]; [lia|]. rewrite Hp0, Hs0 in E. injection E as <-.
    destruct (Z.eqb_spec (used s0) 0); [done|]. cbn [negb].
    rewrite (compare_miss _ s0) by (done || lia || (intros; apply Hnk; by rewrite Hp0)).
    cbn [mbind option_bind].
    pose proof (search_loop_hit (Z.to_nat sz) 1 jk r st') as Hloop. change (1 - 1) with 0 in Hloop.
    rewrite Hp0 in Hloop. rewrite Hloop; [done|lia|lia|lia|done|by rewrite Hpos].
Qed.

(** A slot [enter_new] may use for [k]. *)
Definition usable (idx : Z) : Prop :=
  exists j, 0 <= j < sz /\ pos sz hv j = idx
    /\ (forall j', 0 <= j' < j -> nonempty T (pos sz hv j'))
    /\ exists s, T !! Z.to_nat idx = Some s /\ (used s = 0 \/ used s = -1).

Lemma hsearch_miss :
  absent T k ->
  exists idx, hsearch_r k v action (h, w) flag
    = match action with
      | ENTER => enter_new k v flag hv idx (h, w)
      | FIND => Some (failure ESRCH, (h, w))
      end
    /\ (usable idx \/ forall i, 1 <= i <= sz -> nonempty T i).
Proof.
  intros Hab. unfold hsearch_r. cbn [fst]. pose proof hv_range as Hh.
  destruct (slot_at h T Hwf hv) as [s Hs]; [lia|].
  rewrite (get_slot_at h T Hwf _ s) by (done || lia). cbn [mbind option_bind].
  assert (Hp0 : pos sz hv 0 = hv) by (by apply pos_0).
  destruct (Z.eqb_spec (used s) 0) as [Hz|Hz]; cbn [negb].
  - exists hv. split; [done|]. left. exists 0. split; [lia|]. split; [done|].
    split; [lia|]. exists s. eauto.
  - rewrite (compare_miss _ s) by (done || lia || (intros; by eapply Hab)).
    cbn [mbind option_bind].
    destruct (search_loop_miss (Z.to_nat sz) 1) as (r & Hr & Hr1 & Hr2 & Hr3);
      [done|lia|lia|]. change (1 - 1) with 0 in Hr. rewrite Hp0 in Hr. rewrite Hr.
    cbn [mbind option_bind].
    assert (Hne : forall j', 0 <= j' < r -> nonempty T (pos sz hv j')).
    { intros j' Hj'. destruct (decide (j' = 0)) as [->|]; [rewrite Hp0; by exists s|].
      apply Hr3. lia. }
    destruct (Z.eqb_spec (used s) (-1)) as [Hd|Hd].
    + exists hv. destruct (Z.eqb_spec hv 0); [lia|]. split; [done|]. left.
      exists 0. split; [lia|]. split; [done|]. split; [lia|]. exists s. eauto.
    + exists (pos sz hv r). split; [done|]. destruct (decide (r < sz)) as [Hlt|Hge].
      * left. exists r. split; [lia|]. split; [done|]. split; [done|].
        destruct (Hr2 Hlt) as (s' & ? & ?). exists s'. eauto.
      * right. intros i Hi. destruct (pos_surj sz hv Hpr Hsz Hh i Hi) as (j & Hj & <-).
        apply Hne. lia.
Qed.

End Search.

(** ** Updates of one slot *)

Lemma length_pairs_insert T i s s' :
  T !! i = Some s ->
  (length (pairs (<[i := s']> T)) + (if (0 <? used s)%Z then 1 else 0)
   = length (pairs T) + (if (0 <? used s')%Z then 1 else 0))%nat.
Proof.
  intros Hs. pose proof (take_drop_middle T i s Hs) as E.
  assert (Hl : length (take i T) = i) by (rewrite length_take; apply lookup_lt_Some in Hs; lia).
  rewrite <- E. set (l1 := take i T) in *. rewrite <- Hl, insert_middle.
  unfold pairs. rewrite !omap_app. cbn [omap list_omap]. rewrite !length_app.
  unfold live_pair. destruct (0 <? used s), (0 <? used s'); cbn [length]; lia.
Qed.

Lemma length_pairs_le T : (length (pairs T) <= length T)%nat.
Proof.
  induction T as [|s T IH]; [done|]. unfold pairs in *. cbn [omap list_omap].
  destruct (live_pair s); cbn [length]; lia.
Qed.

Lemma length_pairs_lt T i s :
  T !! i = Some s -> used s <= 0 -> (S (length (pairs T)) <= length T)%nat.
Proof.
  intros Hs Hu. rewrite <- (take_drop_middle T i s Hs). unfold pairs. rewrite omap_app.
  cbn [omap list_omap]. rewrite !length_app.
  replace (live_pair s) with (@None (str * str))
    by (unfold live_pair; by destruct (Z.ltb_spec 0 (used s)); [lia|]). cbn [length].
  pose proof (length_pairs_le (take i T)). pose proof (length_pairs_le (drop (S i) T)).
  unfold pairs in *. lia.
Qed.

Section Update.
Context (h : hsearch_data) (T : list _ENTRY) (Hwf : wf h T).
Context (i : Z) (Hi : 1 <= i <= size h) (s : _ENTRY) (Hs : T !! Z.to_nat i = Some s).
Context (s' : _ENTRY).
#[local] Abbreviation T' := (<[Z.to_nat i := s']> T).

Let Hsz : 5 <= size h < 2 ^ 31 := wf_size _ _ Hwf.

Lemma lookup_same : T' !! Z.to_nat i = Some s'.
Proof. apply list_lookup_insert_eq. by eapply lookup_lt_Some. Qed.

Lemma lookup_other i' : 0 <= i' -> i' <> i -> T' !! Z.to_nat i' = T !! Z.to_nat i'.
Proof. intros ? ?. apply list_lookup_insert_ne. lia. Qed.

Lemma live_update i' x :
  live T' i' x <-> (i' = i /\ x = s' /\ 0 < used s') \/ (i' <> i /\ live T i' x).
Proof.
  unfold live. split.
  - intros (H1 & H2 & H3). destruct (decide (i' = i)) as [->|Hne].
    + rewrite lookup_same in H2. injection H2 as <-. by left.
    + right. rewrite lookup_other in H2 by lia. done.
  - intros [(-> & -> & Hu)|(Hne & H1 & H2 & H3)].
    + split; [lia|]. split; [apply lookup_same|done].
    + split; [done|]. by rewrite lookup_other by lia.
Qed.

Lemma nonempty_update i' :
  used s' <> 0 -> 0 <= i' -> nonempty T i' -> nonempty T' i'.
Proof.
  intros Hu Hi' (x & Hx & Hux). destruct (decide (i' = i)) as [->|Hne].
  - exists s'. split; [apply lookup_same|done].
  - exists x. by rewrite lookup_other by lia.
Qed.

(** The new slot is used or a tombstone; if it holds a name, that name is at
    home there. *)
Lemma wf_update n :
  used s' <> 0 ->
  (used s' = -1
   \/ used s' = hash1 (size h) (key (entry s')) /\ is_str (key (entry s'))
      /\ (exists j, 0 <= j < size h /\ pos (size h) (used s') j = i
           /\ forall j', 0 <= j' < j -> nonempty T (pos (size h) (used s') j'))
      /\ (forall i' x, i' <> i -> live T i' x -> key (entry x) <> key (entry s'))) ->
  n = Z.of_nat (length (pairs T')) ->
  wf (Htab (Some T') (size h) n) T'.
Proof.
  intros Hu Hnew Hn. constructor; cbn [table size filled]; try done; try apply Hwf.
  - rewrite length_insert. apply Hwf.
  - destruct (wf_zero _ _ Hwf) as (z & Hz & Hzu). exists z. by rewrite lookup_other by lia.
  - intros i' x H1 Hx. destruct (decide (i' = i)) as [->|Hne].
    + rewrite lookup_same in Hx. injection Hx as <-. destruct Hnew as [?|(? & ? & _)]; auto.
    + rewrite lookup_other in Hx by lia. by apply (wf_slot _ _ Hwf i').
  - intros i' x [(-> & -> & Hpos)|(Hne & Hl)]%live_update.
    + destruct Hnew as [?|(_ & _ & (j & Hj & Hp & Hpath) & _)]; [lia|].
      exists j. split; [done|]. split; [done|]. intros j' Hj'.
      apply nonempty_update; [done| |by apply Hpath].
      pose proof (pos_range (size h) (used s') Hsz j'). lia.
    + destruct (wf_path _ _ Hwf i' x Hl) as (j & Hj & Hp & Hpath).
      exists j. split; [done|]. split; [done|]. intros j' Hj'.
      apply nonempty_update; [done| |by apply Hpath].
      pose proof (pos_range (size h) (used x) Hsz j'). lia.
  - intros i1 i2 x1 x2 [(-> & -> & Hp1)|(Hn1 & Hl1)]%live_update
      [(-> & -> & Hp2)|(Hn2 & Hl2)]%live_update Hkey; try done.
    + destruct Hnew as [?|(_ & _ & _ & Hfresh)]; [lia|].
      exfalso. by apply (Hfresh i2 x2 Hn2 Hl2).
    + destruct Hnew as [?|(_ & _ & _ & Hfresh)]; [lia|].
      exfalso. by apply (Hfresh i1 x1 Hn1 Hl1).
    + by eapply (wf_unique _ _ Hwf).
Qed.

(** A new name. *)
Lemma wf_insert k :
  (used s = 0 \/ used s = -1) -> absent T k -> is_str k ->
  key (entry s') = k -> used s' = hash1 (size h) k ->
  (exists j, 0 <= j < size h /\ pos (size h) (hash1 (size h) k) j = i
     /\ forall j', 0 <= j' < j -> nonempty T (pos (size h) (hash1 (size h) k) j')) ->
  wf (Htab (Some T') (size h) (filled h + 1)) T' /\ abs T' = <[k := data (entry s')]> (abs T).
Proof.
  intros Hfree Hab Hstr Hkey Hused Hpath.
  assert (Hpos : 1 <= used s') by (rewrite Hused; apply hash1_range; lia).
  assert (Hwf' : wf (Htab (Some T') (size h) (filled h + 1)) T').
  { apply wf_update; [lia| |].
    - right. rewrite Hkey, Hused. split; [done|]. split; [done|]. split; [done|].
      intros i' x _ Hl. by apply (Hab i').
    - rewrite (wf_filled _ _ Hwf). pose proof (length_pairs_insert T _ s s' Hs) as Hlen.
      destruct (Z.ltb_spec 0 (used s)); [lia|]. destruct (Z.ltb_spec 0 (used s')); lia. }
  split; [done|]. apply map_eq. intros k'. apply option_eq. intros d.
  rewrite (abs_lookup _ _ Hwf'), lookup_insert_Some, (abs_lookup _ _ Hwf). split.
  - intros (i' & x & Hl & <- & <-). apply live_update in Hl as [(-> & -> & _)|(Hne & Hl)].
    + left. by rewrite Hkey.
    + right. split; [|by exists i', x]. intros ->. by apply (Hab i' x Hl).
  - intros [[<- <-]|[Hne (i' & x & Hl & Hk & Hd)]].
    + exists i, s'. split; [|done]. apply live_update. left. split_and!; [done|done|lia].
    + exists i', x. split; [|done]. apply live_update. right. split; [|done].
      intros ->. destruct Hl as (_ & E & Hu). rewrite Hs in E. injection E as ->. lia.
Qed.

(** A new value. *)
Lemma wf_overwrite :
  0 < used s -> used s' = used s -> key (entry s') = key (entry s) ->
  wf (Htab (Some T') (size h) (filled h)) T'
  /\ abs T' = <[key (entry s) := data (entry s')]> (abs T).
Proof.
  intros Hu Hused Hkey. assert (Hl : live T i s) by (split; [lia|done]).
  assert (Hwf' : wf (Htab (Some T') (size h) (filled h)) T').
  { apply wf_update; [lia| |].
    - right. destruct (used_live h T Hwf i s) as [Hh Hstr]; [lia|done|done|].
      rewrite Hkey, Hused. split; [done|]. split; [done|].
      split; [by apply (wf_path _ _ Hwf)|].
      intros i' x Hne Hl' Hk. apply Hne. by eapply (wf_unique _ _ Hwf).
    - rewrite (wf_filled _ _ Hwf). pose proof (length_pairs_insert T _ s s' Hs) as Hlen.
      rewrite Hused in Hlen. destruct (0 <? used s); lia. }
  split; [done|]. apply map_eq. intros k'. apply option_eq. intros d.
  rewrite (abs_lookup _ _ Hwf'), lookup_insert_Some, (abs_lookup _ _ Hwf). split.
  - intros (i' & x & Hl' & <- & <-). apply live_update in Hl' as [(-> & -> & _)|(Hne & Hl')].
    + left. by rewrite Hkey.
    + right. split; [|by exists i', x]. intros Hk. apply Hne. by eapply (wf_unique _ _ Hwf).
  - intros [[<- <-]|[Hne (i' & x & Hl' & Hk & Hd)]].
    + exists i, s'. split; [|done]. apply live_update. left. split_and!; [done|done|lia].
    + exists i', x. split; [|done]. apply live_update. right. split; [|done].
      intros ->. destruct Hl' as (_ & E & _). rewrite Hs in E. injection E as ->. done.
Qed.

(** A tombstone. *)
Lemma wf_remove :
  0 < used s -> used s' = -1 ->
  wf (Htab (Some T') (size h) (filled h - 1)) T' /\ abs T' = delete (key (entry s)) (abs T).
Proof.
  intros Hu Hused. assert (Hl : live T i s) by (split; [lia|done]).
  assert (Hwf' : wf (Htab (Some T') (size h) (filled h - 1)) T').
  { apply wf_update; [lia|by left|].
    rewrite (wf_filled _ _ Hwf). pose proof (length_pairs_insert T _ s s' Hs) as Hlen.
    destruct (Z.ltb_spec 0 (used s)); [|lia]. destruct (Z.ltb_spec 0 (used s')); lia. }
  split; [done|]. apply map_eq. intros k'. apply option_eq. intros d.
  rewrite (abs_lookup _ _ Hwf'), lookup_delete_Some, (abs_lookup _ _ Hwf). split.
  - intros (i' & x & Hl' & <- & <-). apply live_update in Hl' as [(-> & -> & ?)|(Hne & Hl')]; [lia|].
    split; [|by exists i', x]. intros Hk. apply Hne. by eapply (wf_unique _ _ Hwf).
  - intros [Hne (i' & x & Hl' & Hk & Hd)]. exists i', x. split; [|done]. apply live_update.
    right. split; [|done]. intros ->. destruct Hl' as (_ & E & _). rewrite Hs in E.
    injection E as ->. done.
Qed.
End Update.

(** With an empty slot besides index 0 the table is not full. *)
Lemma filled_lt h T i : wf h T -> 1 <= i <= size h -> empty T i -> filled h < size h.
Proof.
  intros Hwf Hi (s & Hs & Hu). pose proof (wf_len _ _ Hwf) as Hlen.
  rewrite (wf_filled _ _ Hwf). destruct (wf_zero _ _ Hwf) as (z & Hz & Hzu).
  destruct T as [|z' T]; [done|]. change (Z.to_nat 0) with 0%nat in Hz. injection Hz as ->.
  replace (Z.to_nat i) with (S (Z.to_nat (i - 1))) in Hs by lia. cbn in Hs.
  pose proof (length_pairs_lt T _ s Hs ltac:(lia)) as Hlt. unfold pairs in *.
  cbn [omap list_omap length] in *.
  replace (live_pair z) with (@None (str * str))
    by (unfold live_pair; by destruct (Z.ltb_spec 0 (used z)); [lia|]). lia.
Qed.

Lemma filled_bound h T : wf h T -> 0 <= filled h <= size h.
Proof.
  intros Hwf. rewrite (wf_filled _ _ Hwf). pose proof (wf_len _ _ Hwf).
  destruct (wf_zero _ _ Hwf) as (z & Hz & Hzu).
  pose proof (length_pairs_lt T _ z Hz ltac:(lia)). lia.
Qed.

(** ** Hooks *)

(** Hooks may change callbacks and flags of entries, nothing else. *)
Definition same_slot (s s' : _ENTRY) : Prop :=
  used s' = used s /\ key (entry s') = key (entry s) /\ data (entry s') = data (entry s).

Definition same (T T' : list _ENTRY) : Prop := Forall2 same_slot T T'.

Class HooksFrame (W : Type) `{EnvHooks W} : Prop := {
  callback_frame cb k v op flag h w T :
    table h = Some T ->
    exists rejected T' w', run_callback cb k v op flag (h, w)
      = (rejected, (Htab (Some T') (size h) (filled h), w')) /\ same T T';
  callback_init_frame e st :
    key (env_callback_init e st).1 = key e /\ data (env_callback_init e st).1 = data e;
  flags_init_frame e st :
    key (env_flags_init e st).1 = key e /\ data (env_flags_init e st).1 = data e;
}.

#[global] Instance same_refl : Reflexive same.
Proof. intros T. unfold same. induction T; constructor; done. Qed.

#[global] Instance same_trans : Transitive same.
Proof.
  intros T1 T2 T3 H. revert T3. induction H as [|s1 s2 T1 T2 (? & ? & ?) _ IH]; intros T3 H'.
  - by inversion H'; subst.
  - inversion H' as [|? s3 ? T4 (? & ? & ?) Hrest]; subst. constructor; [|by apply IH].
    split_and!; congruence.
Qed.

Lemma same_pairs T T' : same T T' -> pairs T' = pairs T.
Proof.
  induction 1 as [|s s' T T' (Hu & Hk & Hd) _ IH]; [done|]. unfold pairs in *.
  cbn [omap list_omap].
  assert (live_pair s' = live_pair s) as -> by (unfold live_pair; by rewrite Hu, Hk, Hd).
  by rewrite IH.
Qed.

Lemma same_lookup T T' i s' :
  same T T' -> T' !! i = Some s' -> exists s, T !! i = Some s /\ same_slot s s'.
Proof. intros HF Hs. by eapply Forall2_lookup_r. Qed.

Lemma same_lookup_l T T' i s :
  same T T' -> T !! i = Some s -> exists s', T' !! i = Some s' /\ same_slot s s'.
Proof. intros HF Hs. by eapply Forall2_lookup_l. Qed.

Lemma same_live T T' i s' :
  same T T' -> live T' i s' -> exists s, live T i s /\ same_slot s s'.
Proof.
  intros HF (Hi & Hs & Hu). destruct (same_lookup T T' _ _ HF Hs) as (s & E & Hss).
  exists s. split; [|done]. destruct Hss as (E' & _). split; [done|]. split; [done|lia].
Qed.

Lemma same_nonempty T T' i : same T T' -> nonempty T i -> nonempty T' i.
Proof.
  intros HF (s & Hs & Hu). destruct (same_lookup_l T T' _ _ HF Hs) as (s' & E & (Hus & _)).
  exists s'. split; [done|]. by rewrite Hus.
Qed.

Lemma same_wf h T T' :
  wf h T -> same T T' -> wf (Htab (Some T') (size h) (filled h)) T' /\ abs T' = abs T.
Proof.
  intros Hwf HF. split; [|unfold abs; by rewrite (same_pairs T T')].
  constructor; cbn [table size filled]; try done; try apply Hwf.
  - rewrite <- (Forall2_length _ _ _ HF). apply Hwf.
  - destruct (wf_zero _ _ Hwf) as (z & Hz & Hu).
    destruct (same_lookup_l T T' _ _ HF Hz) as (z' & E & (Hus & _)). exists z'.
    split; [done|]. by rewrite Hus.
  - intros i s' Hi Hs'. destruct (same_lookup T T' _ _ HF Hs') as (s & Hs & -> & -> & _).
    by apply (wf_slot _ _ Hwf i).
  - intros i s' Hl'. destruct (same_live T T' i s' HF Hl') as (s & Hl & -> & _ & _).
    destruct (wf_path _ _ Hwf i s Hl) as (j & Hj & Hp & Hpath). exists j.
    split; [done|]. split; [done|]. intros j' Hj'. eapply same_nonempty; [done|auto].
  - intros i i' s' x' Hl1 Hl2. destruct (same_live T T' i s' HF Hl1) as (s & ? & _ & -> & _).
    destruct (same_live T T' i' x' HF Hl2) as (x & ? & _ & -> & _).
    by apply (wf_unique _ _ Hwf).
  - rewrite (same_pairs T T' HF). apply Hwf.
Qed.

(** No slot became a tombstone. *)
Definition no_new_tombs (T T' : list _ENTRY) : Prop :=
  forall i s', T' !! i = Some s' -> used s' = -1 -> exists s, T !! i = Some s /\ used s = -1.

Lemma same_no_new_tombs T T' : same T T' -> no_new_tombs T T'.
Proof.
  intros HF i s' Hs' Hu. destruct (same_lookup T T' i s' HF Hs') as (s & Hs & (E & _)).
  exists s. split; [done|lia].
Qed.

Lemma insert_no_new_tombs T T' i s :
  no_new_tombs T T' -> used s <> -1 -> no_new_tombs T (<[i := s]> T').
Proof.
  intros HF Hu j s' Hs' Hu'. apply list_lookup_insert_Some in Hs' as [(_ & <- & _)|[_ Hs']]; [done|].
  by apply (HF j s').
Qed.

Lemma no_new_tombs_trans T T' T'' :
  no_new_tombs T T' -> no_new_tombs T' T'' -> no_new_tombs T T''.
Proof. intros H1 H2 i s Hs Hu. destruct (H2 i s Hs Hu) as (s' & ? & ?). eauto. Qed.

Section Correct.
Context {W : Type} `{HF : HooksFrame W}.
Implicit Types (w : W).

(** [change_ok] or the variable's callback refuses the change. *)
Definition refused (k : str) (v : option str) (flag : Z) : Prop :=
  exists e op, key e = k /\ (vetoed e v op flag = true
    \/ exists st, (call_back e k v op flag st).1 = true).

Lemma call_back_frame e k v op flag h w T :
  table h = Some T ->
  exists T' w', (call_back e k v op flag (h, w)).2 = (Htab (Some T') (size h) (filled h), w')
    /\ same T T'.
Proof.
  intros Ht. unfold call_back. destruct (callback e) as [cb|].
  - destruct (callback_frame cb k v op flag h w T Ht) as (rej & T' & w' & -> & Hs).
    by exists T', w'.
  - exists T, w. split; [|done]. destruct h. cbn in *. by subst.
Qed.

Lemma find_spec h T w k v flag :
  wf h T -> is_str k ->
  (absent T k /\ hsearch_r k v FIND (h, w) flag = Some (failure ESRCH, (h, w)))
  \/ exists i s, live T i s /\ key (entry s) = k
      /\ hsearch_r k v FIND (h, w) flag = Some (Res i (Some i) None, (h, w)).
Proof.
  intros Hwf Hk. destruct (abs T !! k) as [d|] eqn:E.
  - right. apply (abs_lookup h T Hwf) in E as (i & s & Hl & Hks & _). exists i, s.
    split; [done|]. split; [done|]. eapply hsearch_hit; try done.
    pose proof Hl as (Hi & Hs & Hu). unfold _compare_and_overwrite_entry. cbn [fst].
    rewrite (get_slot_at h T Hwf i s) by (done || lia). cbn [mbind option_bind].
    destruct (used_live h T Hwf i s Hi Hs Hu) as [Hh Hstr].
    rewrite Hh, Hks, Z.eqb_refl. cbn [andb].
    rewrite (proj2 (streq_spec k k Hk Hk)) by done. done.
  - left. apply (abs_absent h T Hwf) in E. split; [done|].
    destruct (hsearch_miss h T Hwf w k Hk v FIND flag E) as (idx & -> & _). done.
Qed.

(** Updating a name that is present. *)
Lemma overwrite_spec h T w k d flag i s :
  wf h T -> is_str k -> live T i s -> key (entry s) = k ->
  exists r h' w' T', hsearch_r k (Some d) ENTER (h, w) flag = Some (r, (h', w'))
    /\ wf h' T' /\ size h' = size h
    /\ ((r = Res i (Some i) None /\ abs T' = <[k := d]> (abs T) /\ no_new_tombs T T')
        \/ ((r = failure EPERM \/ r = failure EINVAL) /\ refused k (Some d) flag
            /\ abs T' = abs T)).
Proof.
  intros Hwf Hk Hl Hks. pose proof Hl as (Hi & Hs & Hu).
  pose proof (live_range h T Hwf i s Hl) as Hir.
  assert (Hcmp : exists r h' w' T',
    _compare_and_overwrite_entry k (Some d) ENTER flag (hash1 (size h) k) i (h, w)
      = Some (Some r, (h', w'))
    /\ wf h' T' /\ size h' = size h
    /\ ((r = Res i (Some i) None /\ abs T' = <[k := d]> (abs T) /\ no_new_tombs T T')
        \/ ((r = failure EPERM \/ r = failure EINVAL) /\ refused k (Some d) flag
            /\ abs T' = abs T))).
  { unfold _compare_and_overwrite_entry. cbn [fst].
    rewrite (get_slot_at h T Hwf i s) by (done || lia). cbn [mbind option_bind].
    destruct (used_live h T Hwf i s Hi Hs Hu) as [Hh Hstr].
    rewrite Hh, Hks, Z.eqb_refl. cbn [andb]. rewrite (proj2 (streq_spec k k Hk Hk)) by done.
    destruct (vetoed (entry s) (Some d) env_op_overwrite flag) eqn:Ev.
    { eexists _, h, w, T. split; [done|]. split; [done|]. split; [done|]. right.
      split; [by left|]. split; [|done]. exists (entry s), env_op_overwrite. auto. }
    destruct (call_back_frame (entry s) k (Some d) env_op_overwrite flag h w T)
      as (T1 & w1 & E1 & Hsame); [apply Hwf|].
    destruct (same_wf h T T1 Hwf Hsame) as [Hwf1 Habs1].
    destruct (call_back (entry s) k (Some d) env_op_overwrite flag (h, w)) as [rej st1] eqn:Ec.
    cbn [snd] in E1. subst st1. destruct rej.
    { eexists _, _, w1, T1. split; [done|]. split; [done|]. split; [done|]. right.
      split; [by right|]. split; [|done]. exists (entry s), env_op_overwrite.
      split; [done|]. right. exists (h, w). by rewrite Ec. }
    destruct (same_lookup_l T T1 _ _ Hsame Hs) as (s1 & Hs1 & Hu1 & Hk1 & _).
    rewrite (get_slot_at _ T1 Hwf1 i s1) by (done || lia). cbn [mbind option_bind].
    rewrite (set_slot_at _ T1 Hwf1) by (cbn; lia). cbn [mbind option_bind size filled].
    destruct (wf_overwrite _ T1 Hwf1 i Hir s1 Hs1
      (Slot (used s1) (Entry (key (entry s1)) d (callback (entry s1)) (flags (entry s1)))))
      as [Hwf2 Habs2]; [lia|done|done|].
    eexists _, _, w1, _. split; [done|]. split; [exact Hwf2|]. split; [done|]. left.
    split; [done|]. split; [rewrite Habs2, Habs1; cbn; by rewrite Hk1, Hks|].
    apply insert_no_new_tombs; [by apply same_no_new_tombs|]. cbn. lia. }
  destruct Hcmp as (r & h' & w' & T' & Hcmp & Hrest). exists r, h', w', T'.
  split; [|done]. by eapply hsearch_hit.
Qed.

Lemma hdelete_slot_spec h T i s :
  wf h T -> live T i s ->
  exists h' T', _hdelete h i = Some h' /\ wf h' T' /\ size h' = size h
    /\ abs T' = delete (key (entry s)) (abs T).
Proof.
  intros Hwf Hl. pose proof Hl as (Hi & Hs & Hu). pose proof (live_range h T Hwf i s Hl) as Hir.
  unfold _hdelete. rewrite (get_slot_at h T Hwf i s) by (done || lia). cbn [mbind option_bind].
  rewrite (set_slot_at h T Hwf) by lia. cbn [mbind option_bind set_filled filled size table].
  assert (Hf : 1 <= filled h).
  { rewrite (wf_filled _ _ Hwf).
    assert (Hin : (key (entry s), data (entry s)) ∈ pairs T)
      by (apply (elem_of_pairs h T Hwf); by exists i, s).
    destruct (pairs T); [by apply elem_of_nil in Hin|]. cbn [length]. lia. }
  pose proof (filled_bound h T Hwf). pose proof (wf_size _ _ Hwf).
  rewrite wrap_small by (split; lia).
  destruct (wf_remove h T Hwf i Hir s Hs
    (Slot (-1) (Entry (key (entry s)) (data (entry s)) None 0))) as [Hwf' Habs]; [done|done|].
  eexists _, _. split; [done|]. split; [exact Hwf'|]. done.
Qed.

(** Entering a new name into a usable slot. *)
Lemma enter_new_spec h T w k d flag idx :
  wf h T -> is_str k -> absent T k -> usable h T k idx -> filled h < size h ->
  exists r h' w' T', enter_new k (Some d) flag (hash1 (size h) k) idx (h, w) = Some (r, (h', w'))
    /\ wf h' T' /\ size h' = size h
    /\ ((r = Res 1 (Some idx) None /\ abs T' = <[k := d]> (abs T) /\ no_new_tombs T T')
        \/ ((r = failure EPERM \/ r = failure EINVAL) /\ refused k (Some d) flag
            /\ abs T' = abs T)).
Proof.
  intros Hwf Hk Hab Hus Hfill. pose proof (wf_size _ _ Hwf) as Hsz.
  destruct Hus as (j & Hj & Hpos & Hpath & s & Hs & Hfree).
  assert (Hidx : 1 <= idx <= size h) by (rewrite <- Hpos; by apply pos_range).
  unfold enter_new. destruct (Z.eqb_spec (filled h) (size h)); [lia|].
  rewrite (get_slot_at h T Hwf idx s) by (done || lia). cbn [mbind option_bind].
  rewrite (set_slot_at h T Hwf) by lia. cbn [mbind option_bind set_filled filled size table].
  pose proof (filled_bound h T Hwf). rewrite (wrap_small 32 (filled h + 1)) by (split; lia).
  unfold set_filled. cbn [filled size table].
  set (hv := hash1 (size h) k). set (e0 := Entry k d _ _).
  match goal with |- context [env_callback_init e0 ?st] =>
    destruct (callback_init_frame e0 st) as [Hk1 Hd1];
    destruct (env_callback_init e0 st) as [e1 w1] end. cbn [fst] in Hk1, Hd1.
  assert (Hset : forall x y, set_slot (Htab (Some (<[Z.to_nat idx := x]> T)) (size h) (filled h + 1)) idx y
    = Some (Htab (Some (<[Z.to_nat idx := y]> T)) (size h) (filled h + 1))).
  { intros x y. unfold set_slot. cbn. rewrite length_insert, list_insert_insert_eq.
    pose proof (wf_len _ _ Hwf). rewrite decide_True by lia. done. }
  rewrite Hset. cbn [mbind option_bind].
  match goal with |- context [env_flags_init e1 ?st] =>
    destruct (flags_init_frame e1 st) as [Hk2 Hd2];
    destruct (env_flags_init e1 st) as [e2 w2] end. cbn [fst] in Hk2, Hd2.
  rewrite Hset. cbn [mbind option_bind].
  assert (Hke : key e2 = k) by (by rewrite Hk2, Hk1).
  assert (Hde : data e2 = d) by (by rewrite Hd2, Hd1).
  destruct (wf_insert h T Hwf idx Hidx s Hs (Slot hv e2) k) as [Hwf1 Habs1];
    [done|done|done|done|done|exists j; done|].
  set (T1 := <[Z.to_nat idx := Slot hv e2]> T) in *. cbn [entry] in Habs1. rewrite Hde in Habs1.
  set (h1 := Htab (Some T1) (size h) (filled h + 1)) in *.
  assert (Hnone : abs T !! k = None) by (by apply (abs_absent h T Hwf)).
  assert (Hl1 : live T1 idx (Slot hv e2)).
  { apply (live_update h T idx Hidx s Hs). left. split_and!; try done. cbn.
    pose proof (hash1_range (size h) k). lia. }
  destruct (vetoed e2 (Some d) env_op_create flag) eqn:Ev.
  { destruct (hdelete_slot_spec h1 T1 idx _ Hwf1 Hl1) as (h2 & T2 & -> & Hwf2 & Hs2 & Habs2).
    cbn [mbind option_bind]. eexists _, h2, w2, T2. split; [done|]. split; [done|].
    split; [done|]. right. split; [by left|]. split.
    - exists e2, env_op_create. auto.
    - rewrite Habs2, Habs1. cbn. rewrite Hke. by apply delete_insert_id. }
  destruct (call_back_frame e2 k (Some d) env_op_create flag h1 w2 T1)
    as (T2 & w3 & E2 & Hsame); [done|].
  destruct (same_wf h1 T1 T2 Hwf1 Hsame) as [Hwf2 Habs2].
  destruct (call_back e2 k (Some d) env_op_create flag (h1, w2)) as [rej st2] eqn:Ec.
  cbn [snd] in E2. subst st2. destruct rej.
  - destruct Hl1 as (Hi1 & Hlk1 & Hu1).
    destruct (same_lookup_l T1 T2 _ _ Hsame Hlk1) as (s2 & Hs2 & Hu2 & Hk3 & _).
    destruct (hdelete_slot_spec _ T2 idx s2 Hwf2) as (h3 & T3 & -> & Hwf3 & Hs3 & Habs3).
    { split; [done|]. split; [done|]. lia. }
    cbn [mbind option_bind]. eexists _, h3, w3, T3. split; [done|]. split; [done|].
    split; [done|]. right. split; [by right|]. split.
    + exists e2, env_op_create. split; [done|]. right. exists (h1, w2). by rewrite Ec.
    + rewrite Habs3, Habs2, Habs1, Hk3. cbn. rewrite Hke. by apply delete_insert_id.
  - eexists _, _, w3, T2. split; [done|]. split; [exact Hwf2|]. split; [done|]. left.
    split; [done|]. split; [by rewrite Habs2|].
    eapply no_new_tombs_trans; [|by apply same_no_new_tombs].
    apply insert_no_new_tombs; [by apply same_no_new_tombs|]. cbn.
    pose proof (hash1_range (size h) k). lia.
Qed.

(** Entering a name, new or not. *)
Lemma enter_spec h T w k d flag i :
  wf h T -> is_str k -> 1 <= i <= size h -> empty T i ->
  exists r h' w' T', hsearch_r k (Some d) ENTER (h, w) flag = Some (r, (h', w'))
    /\ wf h' T' /\ size h' = size h
    /\ ((exists idx, 1 <= ret r /\ retval r = Some idx /\ abs T' = <[k := d]> (abs T)
           /\ no_new_tombs T T')
        \/ ((r = failure EPERM \/ r = failure EINVAL) /\ refused k (Some d) flag
            /\ abs T' = abs T)).
Proof.
  intros Hwf Hk Hi He. destruct (abs T !! k) as [d0|] eqn:Ea.
  - apply (abs_lookup h T Hwf) in Ea as (i0 & s & Hl & Hks & _).
    destruct (overwrite_spec h T w k d flag i0 s Hwf Hk Hl Hks)
      as (r & h' & w' & T' & E & Hwf' & Hs' & Hcase).
    exists r, h', w', T'. split; [done|]. split; [done|]. split; [done|].
    destruct Hcase as [(-> & ? & ?)|?]; [left|by right]. exists i0. destruct Hl as (? & _). done.
  - apply (abs_absent h T Hwf) in Ea.
    destruct (hsearch_miss h T Hwf w k Hk (Some d) ENTER flag Ea) as (idx & -> & Hus).
    assert (Hu : usable h T k idx).
    { destruct Hus as [?|Hall]; [done|]. exfalso.
      destruct (Hall i Hi) as (s & Hs & Hne). destruct He as (s' & Hs' & Hz).
      rewrite Hs in Hs'. injection Hs' as ->. done. }
    destruct (enter_new_spec h T w k d flag idx Hwf Hk Ea Hu) as
      (r & h' & w' & T' & -> & Hwf' & Hs' & Hcase); [by eapply filled_lt|].
    exists r, h', w', T'. split; [done|]. split; [done|]. split; [done|].
    destruct Hcase as [(-> & ? & ?)|?]; [left|by right]. by exists idx.
Qed.

(** ** Theorems *)

(** Lookup: [hsearch_r] with [FIND] changes nothing and returns the slot of
    the name when the map has it, [ESRCH] when it has not. *)
Theorem hsearch_find_correct h T w k v flag :
  wf h T -> is_str k ->
  exists r, hsearch_r k v FIND (h, w) flag = Some (r, (h, w))
    /\ match abs T !! k with
       | Some d => exists s, 1 <= ret r /\ r = Res (ret r) (Some (ret r)) None
           /\ T !! Z.to_nat (ret r) = Some s /\ key (entry s) = k /\ data (entry s) = d
       | None => r = failure ESRCH
       end.
Proof.
  intros Hwf Hk. destruct (find_spec h T w k v flag Hwf Hk) as [[Hab E]|(i & s & Hl & Hks & E)].
  - eexists. split; [exact E|]. by rewrite (proj2 (abs_absent h T Hwf k) Hab).
  - eexists. split; [exact E|].
    assert (Ha : abs T !! k = Some (data (entry s))) by (apply (abs_lookup h T Hwf); by exists i, s).
    rewrite Ha. exists s. destruct Hl as (Hi & Hs & _). done.
Qed.

(** C38: insertion and update: with an empty slot left, [hsearch_r] with [ENTER]
    succeeds and the map has the new value, or [change_ok] or the callback
    refuses, the error says so and the map is unchanged; the table stays well
    formed either way. *)
Theorem hsearch_enter_correct h T w k d flag i :
  wf h T -> is_str k -> 1 <= i <= size h -> empty T i ->
  exists r h' w' T', hsearch_r k (Some d) ENTER (h, w) flag = Some (r, (h', w'))
    /\ wf h' T' /\ size h' = size h
    /\ ((exists idx, 1 <= ret r /\ retval r = Some idx /\ abs T' = <[k := d]> (abs T))
        \/ ((r = failure EPERM \/ r = failure EINVAL) /\ refused k (Some d) flag
            /\ abs T' = abs T)).
Proof.
  intros Hwf Hk Hi He.
  destruct (enter_spec h T w k d flag i Hwf Hk Hi He) as (r & h' & w' & T' & E & ? & ? & Hcase).
  exists r, h', w', T'. split; [done|]. split; [done|]. split; [done|].
  destruct Hcase as [(idx & ? & ? & ? & _)|?]; [left; by exists idx|by right].
Qed.

Lemma delete_spec h T w k flag :
  wf h T -> is_str k ->
  exists r h' w' T', hdelete_r k (h, w) flag = Some (r, (h', w'))
    /\ wf h' T' /\ size h' = size h
    /\ ((r = failure ESRCH /\ abs T !! k = None /\ h' = h)
        \/ (ret r = 1 /\ is_Some (abs T !! k) /\ abs T' = delete k (abs T))
        \/ ((r = failure EPERM \/ r = failure EINVAL) /\ is_Some (abs T !! k)
            /\ refused k None flag /\ abs T' = abs T)).
Proof.
  intros Hwf Hk. unfold hdelete_r.
  destruct (find_spec h T w k None 0 Hwf Hk) as [[Hab ->]|(i & s & Hl & Hks & ->)];
    cbn [mbind option_bind ret failure].
  - eexists _, h, w, T. split; [done|]. split; [done|]. split; [done|]. left.
    split; [done|]. by rewrite (proj2 (abs_absent h T Hwf k) Hab).
  - pose proof Hl as (Hi & Hs & Hu).
    assert (Ha : is_Some (abs T !! k)).
    { exists (data (entry s)). apply (abs_lookup h T Hwf). by exists i, s. }
    destruct (Z.eqb_spec i 0); [lia|]. cbn [fst].
    rewrite (get_slot_at h T Hwf i s) by (done || lia). cbn [mbind option_bind].
    destruct (vetoed (entry s) None env_op_delete flag) eqn:Ev.
    { eexists _, h, w, T. split; [done|]. split; [done|]. split; [done|]. right; right.
      split; [by left|]. split; [done|]. split; [|done]. exists (entry s), env_op_delete. auto. }
    destruct (call_back_frame (entry s) k None env_op_delete flag h w T)
      as (T1 & w1 & E1 & Hsame); [apply Hwf|].
    destruct (same_wf h T T1 Hwf Hsame) as [Hwf1 Habs1].
    destruct (call_back (entry s) k None env_op_delete flag (h, w)) as [rej st1] eqn:Ec.
    cbn [snd] in E1. subst st1. destruct rej.
    { eexists _, _, w1, T1. split; [done|]. split; [done|]. split; [done|]. right; right.
      split; [by right|]. split; [done|]. split; [|done]. exists (entry s), env_op_delete.
      split; [done|]. right. exists (h, w). by rewrite Ec. }
    destruct (same_lookup_l T T1 _ _ Hsame Hs) as (s1 & Hs1 & Hu1 & Hk1 & _).
    destruct (hdelete_slot_spec _ T1 i s1 Hwf1) as (h2 & T2 & -> & Hwf2 & Hs2 & Habs2).
    { split; [done|]. split; [done|]. lia. }
    cbn [mbind option_bind]. eexists _, h2, w1, T2. split; [done|]. split; [done|].
    split; [done|]. right; left. split; [done|]. split; [done|].
    rewrite Habs2, Habs1. by rewrite Hk1, Hks.
Qed.

(** Deletion: [hdelete_r] removes the name and returns 1, returns 0 with
    [ESRCH] and changes nothing when the map has no such name, or reports the
    refusal and keeps the map. *)
Theorem hdelete_correct h T w k flag :
  wf h T -> is_str k ->
  exists r h' w' T', hdelete_r k (h, w) flag = Some (r, (h', w'))
    /\ wf h' T' /\ size h' = size h
    /\ ((r = failure ESRCH /\ abs T !! k = None /\ h' = h)
        \/ (ret r = 1 /\ is_Some (abs T !! k) /\ abs T' = delete k (abs T))
        \/ ((r = failure EPERM \/ r = failure EINVAL) /\ is_Some (abs T !! k)
            /\ refused k None flag /\ abs T' = abs T)).
Proof. apply delete_spec. Qed.
End Correct.

(** ** Creation *)

Lemma fresh_wf sz :
  prime sz -> 5 <= sz < 2 ^ 31 ->
  let T := replicate (Z.to_nat (sz + 1)) zero_slot in
  wf (Htab (Some T) sz 0) T /\ abs T = ∅
  /\ forall i, 0 <= i <= sz -> empty T i.
Proof.
  intros Hp Hs T.
  assert (Hlk : forall i s, T !! i = Some s -> s = zero_slot).
  { intros i s Hi. by apply lookup_replicate in Hi as [-> _]. }
  assert (Hno : forall i s, ~ live T i s).
  { intros i s (_ & Hi & Hu). apply Hlk in Hi as ->. done. }
  assert (Hpairs : pairs T = []).
  { unfold T. generalize (Z.to_nat (sz + 1)). intros n. unfold pairs.
    induction n as [|n IH]; [done|]. cbn [replicate omap list_omap]. exact IH. }
  assert (He : forall i, 0 <= i <= sz -> empty T i).
  { intros i Hi. exists zero_slot. split; [|done]. apply lookup_replicate_2. lia. }
  split; [|split; [unfold abs; by rewrite Hpairs|done]].
  constructor; cbn [table size filled]; try done.
  - unfold T. rewrite length_replicate. lia.
  - apply He. lia.
  - intros i s _ Hi. left. by apply Hlk in Hi as ->.
  - intros i s Hl. by apply Hno in Hl.
  - intros i i' s s' Hl. by apply Hno in Hl.
  - by rewrite Hpairs.
Qed.

(** [hcreate_r] gives an empty well-formed table whose size is a prime not
    below the request, and refuses when a table exists. *)
Theorem hcreate_correct nel h :
  4 <= nel <= 1024 ->
  match table h with
  | Some _ => hcreate_r nel h = Some (0, h)
  | None => exists h' T', hcreate_r nel h = Some (1, h') /\ wf h' T' /\ abs T' = ∅
      /\ nel <= size h' < 2048 /\ forall i, 0 <= i <= size h' -> empty T' i
  end.
Proof.
  intros Hn. unfold hcreate_r. destruct (table h); [done|].
  destruct (next_prime_spec nel Hn) as (p & -> & Hp & Hr & Hp5). cbn [mbind option_bind].
  destruct (fresh_wf p Hp ltac:(lia)) as (Hwf & Habs & He).
  eexists _, _. split; [done|]. split; [exact Hwf|]. done.
Qed.

(** ** Witnesses *)

(** Hooks that accept everything. *)
#[local] Instance no_hooks : EnvHooks unit := {
  change_ok := None;
  run_callback _ _ _ _ _ st := (false, st);
  env_callback_init e st := (e, st.2);
  env_flags_init e st := (e, st.2);
}.

#[local] Instance no_hooks_frame : HooksFrame unit.
Proof.
  split; try done. intros cb k v op flag h w T Ht. exists false, T, w.
  split; [|done]. destruct h. cbn in *. by subst.
Qed.

(** "a=x" in a table of five slots. *)
Definition demo : hsearch_data :=
  match hcreate_r 4 (Htab None 0 0) with
  | Some (_, h) =>
      match hsearch_r [97] (Some [120]) ENTER (h, tt) 0 with Some (_, (h, _)) => h | None => h end
  | None => Htab None 0 0
  end.

Definition demo_table : list _ENTRY := match table demo with Some T => T | None => [] end.

Lemma prime_5 : prime 5.
Proof. by destruct (isprime_spec 5) as (b & [= <-] & Hb); [lia|done|apply Hb]. Qed.

Lemma demo_table_wf : wf demo demo_table.
Proof.
  destruct (fresh_wf 5 prime_5 ltac:(lia)) as (Hwf & _ & _).
  destruct (enter_new_spec _ _ tt [97] [120] 0 3 Hwf) as (r & h' & w' & T' & E & Hwf' & _);
    [repeat constructor; lia|by intros i s (_ & [-> _]%lookup_replicate & ?)| |done|].
  { exists 0. split; [done|]. split; [done|]. split; [lia|]. by exists zero_slot; auto. }
  vm_compute in E. injection E as <- <- <-.
  pose proof (wf_table _ _ Hwf') as Ht. injection Ht as <-. exact Hwf'.
Qed.

Lemma hcreate_correct_witness :
  exists h' T', hcreate_r 4 (Htab None 0 0) = Some (1, h') /\ wf h' T' /\ abs T' = ∅
    /\ 4 <= size h' < 2048 /\ forall i, 0 <= i <= size h' -> empty T' i.
Proof. apply (hcreate_correct 4 (Htab None 0 0)). lia. Defined.

Lemma hsearch_find_correct_witness :
  exists r, hsearch_r [97] None FIND (demo, tt) 0 = Some (r, (demo, tt))
    /\ match abs demo_table !! [97] with
       | Some d => exists s, 1 <= ret r /\ r = Res (ret r) (Some (ret r)) None
           /\ demo_table !! Z.to_nat (ret r) = Some s /\ key (entry s) = [97] /\ data (entry s) = d
       | None => r = failure ESRCH
       end.
Proof. apply hsearch_find_correct; [apply demo_table_wf|repeat constructor; lia]. Defined.

Lemma hsearch_enter_correct_witness :
  exists r h' w' T', hsearch_r [98] (Some [121]) ENTER (demo, tt) 0 = Some (r, (h', w'))
    /\ wf h' T' /\ size h' = size demo
    /\ ((exists idx, 1 <= ret r /\ retval r = Some idx /\ abs T' = <[[98] := [121]]> (abs demo_table))
        \/ ((r = failure EPERM \/ r = failure EINVAL) /\ refused [98] (Some [121]) 0
            /\ abs T' = abs demo_table)).
Proof.
  apply (hsearch_enter_correct demo demo_table tt [98] [121] 0 1);
    [apply demo_table_wf|repeat constructor; lia|vm_compute; split; done|by exists zero_slot].
Defined.

Lemma hdelete_correct_witness :
  exists r h' w' T', hdelete_r [97] (demo, tt) 0 = Some (r, (h', w'))
    /\ wf h' T' /\ size h' = size demo
    /\ ((r = failure ESRCH /\ abs demo_table !! [97] = None /\ h' = demo)
        \/ (ret r = 1 /\ is_Some (abs demo_table !! [97]) /\ abs T' = delete [97] (abs demo_table))
        \/ ((r = failure EPERM \/ r = failure EINVAL) /\ is_Some (abs demo_table !! [97])
            /\ refused [97] None 0 /\ abs T' = abs demo_table)).
Proof. apply hdelete_correct; [apply demo_table_wf|repeat constructor; lia]. Defined.

(** ** Inputs on which the code does not do what it should *)

(** Runs of [setenv]-like operations: [Some d] enters, [None] deletes. *)
Fixpoint run (ops : list (str * option str)) (h : hsearch_data) : option hsearch_data :=
  match ops with
  | [] => Some h
  | (k, Some d) :: ops => '(_, (h, _)) ← hsearch_r k (Some d) ENTER (h, tt) 0; run ops h
  | (k, None) :: ops => '(_, (h, _)) ← hdelete_r k (h, tt) 0; run ops h
  end.

Definition lookup_ret (k : str) (h : hsearch_data) : option Z :=
  '(r, _) ← hsearch_r k None FIND (h, tt) 0; Some (ret r).

(** Once every slot is used or deleted, a new name whose first slot is used is
    written over the variable there: only the first slot is remembered as
    deleted, the loop comes back to it and the code goes on as if it had found
    an empty bucket.  Five names, one of them deleted, then a sixth: the
    first name is lost. *)
Example enter_overwrites_variable :
  ('(_, h) ← hcreate_r 4 (Htab None 0 0);
   h ← run [([97], Some [1]); ([98], Some [1]); ([99], Some [1]); ([100], Some [1]);
            ([101], Some [1]); ([98], None)] h;
   before ← lookup_ret [97] h;
   h ← run [([102], Some [2])] h;
   after ← lookup_ret [97] h;
   Some (bool_decide (before = 0), bool_decide (after = 0))) = Some (false, true).
Proof. vm_compute. reflexivity. Qed.

(** The last slot of the table is never looked at by [hmatch_r]: the loop runs
    to [idx < size], the table to [idx = size]. *)
Example hmatch_misses_last_slot :
  ('(_, h) ← hcreate_r 4 (Htab None 0 0);
   h ← run [([97], Some [1]); ([98], Some [1]); ([99], Some [1]); ([100], Some [1]);
            ([101], Some [1])] h;
   s ← get_slot h 5;
   found ← lookup_ret (key (entry s)) h;
   r ← hmatch_r (key (entry s)) 0 h;
   Some (used s <=? 0, found, ret r)) = Some (false, 5, 0).
Proof. vm_compute. reflexivity. Qed.

(** A new entry is reported as 1, whatever its index. *)
Example enter_returns_one :
  ('(_, h) ← hcreate_r 4 (Htab None 0 0);
   '(r, _) ← hsearch_r [97] (Some [1]) ENTER (h, tt) 0;
   Some (ret r, retval r)) = Some (1, Some 3).
Proof. vm_compute. reflexivity. Qed.

End HashtableMap.
