(* ===== verification/EnvText.v ===== *)
(** * The environment as text (hexport_r and himport_r of lib/hashtable.c)

    [hexport_r] linearises the table as [name=value] items, [himport_r] reads
    such a text back; the pair saves and restores the environment and
    implements [printenv], [env export] and [env import].

    A pointer into the text is the rest of the text from there; a read past
    its end, or a write past the end of the export buffer, is [None].  The
    writes of [himport_r] into its copy of the text stay behind the read
    pointer, so they are not visible to later reads. *)

From S2P Require Import Prelude Cstring Qsort Hashtable HashtableMap.
From stdpp Require Import gmap.

#[local] Open Scope Z_scope.
#[local] Open Scope word_scope.

Module EnvText.
Import Cstring Qsort Hashtable HashtableMap.

Definition CONFIG_ENV_MIN_ENTRIES : Z := 128.
Definition CONFIG_ENV_MAX_ENTRIES : Z := 512.

(** Characters. *)
Abbreviation EQ := 61.
Abbreviation BACKSLASH := 92.
Abbreviation HASH := 35.
Abbreviation DOT := 46.

(** ** Export *)

(** The tests that [continue] the first pass. *)
Definition exported (argv : list str) (flag : Z) (ep : ENTRY) : bool :=
  let found := existsb (fun a => streq a (key ep)) argv in
  if (0 <? length argv)%nat && negb found then false
  else if negb (flag .& H_HIDE_DOT =? 0) && (nth 0 (cstr (key ep)) 0 =? DOT) then false
  else true.

Definition escaped (sep c : Z) : bool := (c =? sep) || (c =? BACKSLASH).

(** What an entry adds to [totlen]. *)
Definition entry_len (sep : Z) (ep : ENTRY) : Z :=
  let len := Z.of_nat (length (key ep)) + 2 in
  let len := if sep =? 0 then len + Z.of_nat (length (data ep))
             else fold_left (fun t c => t + 1 + (if escaped sep c then 1 else 0)) (data ep) len in
  len + 2.

(** Pass 1: [for (i = 1, n = 0, totlen = 0; i <= htab->size; ++i)]. *)
Fixpoint pass1 (fuel : nat) (htab : hsearch_data) (sep flag : Z) (argv : list str) (i : Z)
    (list_ : list ENTRY) (totlen : Z) : option (list ENTRY * Z) :=
  match fuel with
  | O => None
  | S fuel =>
      if i <=? size htab then
        s ← get_slot htab i;
        if (0 <? used s) && exported argv flag (entry s)
        then pass1 fuel htab sep flag argv (i + 1) (list_ ++ [entry s])
               (u32 (totlen + entry_len sep (entry s)))
        else pass1 fuel htab sep flag argv (i + 1) list_ totlen
      else Some (list_, totlen)
  end.

Definition cmpkey (e1 e2 : ENTRY) : Z :=
  match strcmp (cstr (key e1)) (cstr (key e2)) with Some r => r | None => 0 end.

(** What pass 2 writes for one entry. *)
Definition put_value (sep : Z) (d : str) : list Z :=
  concat (map (fun c => if escaped sep c then [BACKSLASH; c] else [c]) d).

Definition put_entry (sep : Z) (ep : ENTRY) : list Z :=
  key ep ++ [EQ] ++ put_value sep (data ep) ++ [sep].

(** The result is the C return value and the buffer; the caller passes the
    size of its buffer, or 0 to have one allocated. *)
Definition hexport_r (htab : hsearch_data) (sep flag size_ : Z) (argv : list str)
    : option (Z * list Z) :=
  '(list_, totlen) ← pass1 (Z.to_nat (size htab) + 1) htab sep flag argv 1 [] 0;
  list_ ← qsort cmpkey list_;
  if negb (size_ =? 0) && (size_ <? u32 (totlen + 1)) then Some (-1, [])
  else
    let size_ := if negb (size_ =? 0) then size_ else u32 (totlen + 1) in
    let res := replicate (Z.to_nat size_) 0 in
    let out := concat (map (put_entry sep) list_) ++ [0] in
    if (length out <=? length res)%nat then Some (size_, memcpy res 0 out) else None.

(** ** Import *)

Definition peek (dp : list Z) : option Z := head dp.

(** [while (isblank( *dp)) ++dp;] *)
Fixpoint skip_blanks (dp : list Z) : option (list Z) :=
  match dp with
  | [] => None
  | c :: rest => if isblank c then skip_blanks rest else Some dp
  end.

(** [while ( *dp && ( *dp != sep)) ++dp;] *)
Fixpoint skip_comment (sep : Z) (dp : list Z) : option (list Z) :=
  match dp with
  | [] => None
  | c :: rest => if (c =? 0) || (c =? sep) then Some dp else skip_comment sep rest
  end.

(** [for (name = dp; *dp != '=' && *dp && *dp != sep; ++dp)] *)
Fixpoint parse_name (sep : Z) (dp : list Z) : option (str * list Z) :=
  match dp with
  | [] => None
  | c :: rest =>
      if (c =? EQ) || (c =? 0) || (c =? sep) then Some ([], dp)
      else '(name, dp) ← parse_name sep rest; Some (c :: name, dp)
  end.

(** [for (value = sp = dp; *dp && ( *dp != sep); ++dp)] with its escapes. *)
Fixpoint parse_value (sep : Z) (dp : list Z) : option (str * list Z) :=
  match dp with
  | [] => None
  | c :: rest =>
      if (c =? 0) || (c =? sep) then Some ([], dp)
      else if c =? BACKSLASH then
        match rest with
        | [] => None
        | d :: rest' =>
            if d =? 0 then '(v, dp) ← parse_value sep rest; Some (c :: v, dp)
            else '(v, dp) ← parse_value sep rest'; Some (d :: v, dp)
        end
      else '(v, dp) ← parse_value sep rest; Some (c :: v, dp)
  end.

(** The result and the array with the matching names set to NULL. *)
Definition drop_var_from_set (name : str) (vars : list (option str)) : bool * list (option str) :=
  match vars with
  | [] => (true, [])
  | _ =>
      (existsb (fun v => match v with Some x => streq name x | None => false end) vars,
       map (fun v => match v with Some x => if streq name x then None else v | None => None end)
         vars)
  end.

Section Import.
Context {W : Type} `{Hooks : EnvHooks W}.
#[local] Abbreviation St := (hsearch_data * W)%type.

(** One item of the text at [dp]; the result is the new [dp]. *)
Definition import_item (sep flag : Z) (dp : list Z) (vars : list (option str)) (st : St)
    : option (list Z * list (option str) * St) :=
  dp ← skip_blanks dp;
  c ← peek dp;
  if c =? HASH then
    dp ← skip_comment sep dp; Some (tail dp, vars, st)
  else
  '(name, dp) ← parse_name sep dp;
  c ← peek dp;
  deletion ←
    (if c =? 0 then Some true else
     d ← peek (tail dp);
     Some ((d =? 0) || (c =? sep) || (d =? sep)));
  if deletion : bool then
    let dp := if c =? EQ then tail dp else dp in
    let dp := tail dp in
    let '(ok, vars) := drop_var_from_set name vars in
    if negb ok then Some (dp, vars, st)
    else '(_, st) ← hdelete_r name st flag; Some (dp, vars, st)
  else
    '(value, dp) ← parse_value sep (tail dp);
    let dp := tail dp in
    let '(ok, vars) := drop_var_from_set name vars in
    if negb ok then Some (dp, vars, st)
    else '(_, st) ← hsearch_r name (Some value) ENTER st flag; Some (dp, vars, st).

(** [do ... while ((dp < data + size) && *dp)] *)
Fixpoint import_loop (fuel : nat) (sep flag : Z) (dp : list Z) (vars : list (option str)) (st : St)
    : option (list (option str) * St) :=
  match fuel with
  | O => None
  | S fuel =>
      '(dp, vars, st) ← import_item sep flag dp vars st;
      match dp with
      | [] => Some (vars, st)
      | c :: _ => if c =? 0 then Some (vars, st) else import_loop fuel sep flag dp vars st
      end
  end.

(** Variables asked for that the text did not have are deleted. *)
Fixpoint delete_rest (vars : list (option str)) (flag : Z) (st : St) : option St :=
  match vars with
  | [] => Some st
  | None :: vars => delete_rest vars flag st
  | Some v :: vars => '(_, st) ← hdelete_r v st flag; delete_rest vars flag st
  end.

Definition himport_r (env : list Z) (sep flag : Z) (vars : list str) (st : St)
    : option (Z * St) :=
  let size_ := Z.of_nat (length env) in
  let '(htab, w) := st in
  let htab := if flag .& H_NOCLEAR =? 0
              then match table htab with Some _ => hdestroy_r htab | None => htab end
              else htab in
  '(created, htab) ←
    (match table htab with
     | Some _ => Some (1, htab)
     | None =>
         let nent := CONFIG_ENV_MIN_ENTRIES + size_ / 8 in
         let nent := if CONFIG_ENV_MAX_ENTRIES <? nent then CONFIG_ENV_MAX_ENTRIES else nent in
         hcreate_r nent htab
     end);
  if created =? 0 then Some (0, (htab, w)) else
  '(vars, st) ← import_loop (length env + 1) sep flag env (map Some vars) (htab, w);
  st ← delete_rest vars flag st;
  Some (1, st).

End Import.

(** ** What is exported *)

Definition live_entry (s : _ENTRY) : option ENTRY := if 0 <? used s then Some (entry s) else None.

Definition entries (T : list _ENTRY) : list ENTRY := omap live_entry T.

Definition kv (e : ENTRY) : str * str := (key e, data e).

Lemma pairs_entries T : pairs T = map kv (entries T).
Proof.
  induction T as [|s T IH]; [done|]. unfold pairs, entries in *. cbn [omap list_omap].
  rewrite IH. replace (live_pair s) with (option_map kv (live_entry s))
    by (unfold live_pair, live_entry; by destruct (0 <? used s)).
  by destruct (live_entry s).
Qed.

Lemma entries_keys_nodup T :
  (forall i j s s', T !! i = Some s -> T !! j = Some s' -> 0 < used s -> 0 < used s' ->
     key (entry s) = key (entry s') -> i = j) ->
  NoDup (map key (entries T)).
Proof.
  induction T as [|s T IH]; intros Hu; [constructor|].
  assert (HT : NoDup (map key (entries T))).
  { apply IH. intros i j x y Hx Hy ? ? ?. assert (S i = S j) by (by eapply Hu). lia. }
  unfold entries in *. cbn [omap list_omap].
  destruct (live_entry s) as [e0|] eqn:E0; [|done].
  unfold live_entry in E0. destruct (Z.ltb_spec 0 (used s)) as [Hs|Hs]; [|done].
  injection E0 as <-. cbn [map]. constructor; [|done].
  rewrite list_elem_of_fmap. intros (e & Hk & He). apply list_elem_of_omap in He as (x & Hin & Hx).
  unfold live_entry in Hx. destruct (Z.ltb_spec 0 (used x)); [|done]. injection Hx as <-.
  apply list_elem_of_lookup in Hin as [j Hj].
  assert (0%nat = S j); [|lia]. by apply (Hu 0%nat (S j) s x).
Qed.

Lemma wf_keys_nodup h T : wf h T -> NoDup (map key (entries T)).
Proof.
  intros Hwf. apply entries_keys_nodup. intros i j s s' Hi Hj Hu Hu' Hk.
  assert (Hpos : forall n x, T !! n = Some x -> 0 < used x -> live T (Z.of_nat n) x).
  { intros n x Hx Hux. split; [|by rewrite Nat2Z.id].
    destruct n; [|lia]. destruct (wf_zero _ _ Hwf) as (z & Hz & Hzu).
    change (Z.to_nat 0) with 0%nat in Hz. rewrite Hx in Hz. injection Hz as ->. lia. }
  apply Nat2Z.inj. by eapply (wf_unique _ _ Hwf); [apply Hpos..|].
Qed.

Definition sum_len (sep : Z) (l : list ENTRY) : Z := fold_right (fun e t => entry_len sep e + t) 0 l.

Lemma fold_len_ge sep d n :
  n <= fold_left (fun t c => t + 1 + (if escaped sep c then 1 else 0)) d n.
Proof.
  revert n. induction d as [|c d IH]; intros n; cbn [fold_left]; [lia|].
  etransitivity; [|apply IH]. destruct (escaped sep c); lia.
Qed.

Lemma entry_len_pos sep e : 4 <= entry_len sep e.
Proof.
  unfold entry_len. pose proof (fold_len_ge sep (data e) (Z.of_nat (length (key e)) + 2)).
  destruct (sep =? 0); lia.
Qed.

Lemma sum_len_cons sep e l : sum_len sep (e :: l) = entry_len sep e + sum_len sep l.
Proof. done. Qed.

Lemma sum_len_nonneg sep l : 0 <= sum_len sep l.
Proof.
  induction l as [|e l IH]; [done|]. rewrite sum_len_cons. pose proof (entry_len_pos sep e). lia.
Qed.

Lemma sum_len_app sep l l' : sum_len sep (l ++ l') = sum_len sep l + sum_len sep l'.
Proof. induction l as [|e l IH]; [done|]. cbn [app]. rewrite !sum_len_cons. lia. Qed.

Lemma sum_len_perm sep l l' : l ≡ₚ l' -> sum_len sep l = sum_len sep l'.
Proof. induction 1; rewrite ?sum_len_cons; lia. Qed.

Definition selected (argv : list str) (flag : Z) (T : list _ENTRY) : list ENTRY :=
  filter (fun e => exported argv flag e = true) (entries T).

Lemma selected_app argv flag T T' :
  selected argv flag (T ++ T') = selected argv flag T ++ selected argv flag T'.
Proof. unfold selected, entries. by rewrite omap_app, filter_app. Qed.

Lemma selected_one argv flag s :
  selected argv flag [s]
  = if (0 <? used s) && exported argv flag (entry s) then [entry s] else [].
Proof.
  unfold selected, entries. cbn [omap list_omap]. unfold live_entry.
  destruct (0 <? used s); [|done]. cbn [andb]. rewrite filter_cons, filter_nil.
  destruct (exported argv flag (entry s)); [by rewrite decide_True|by rewrite decide_False].
Qed.

Lemma pass1_spec h T sep flag argv fuel i :
  wf h T -> 1 <= i <= size h + 1 -> size h + 1 - i < Z.of_nat fuel ->
  pass1 fuel h sep flag argv i (selected argv flag (take (Z.to_nat i) T))
    (u32 (sum_len sep (selected argv flag (take (Z.to_nat i) T))))
  = Some (selected argv flag T, u32 (sum_len sep (selected argv flag T))).
Proof.
  intros Hwf. revert i. induction fuel as [|fuel IH]; intros i Hi Hf; [lia|]. cbn [pass1].
  pose proof (wf_len _ _ Hwf) as Hlen.
  destruct (Z.leb_spec i (size h)).
  - destruct (slot_at h T Hwf i) as [s Hs]; [lia|].
    rewrite (get_slot_at h T Hwf i s) by (done || lia). cbn [mbind option_bind].
    specialize (IH (i + 1) ltac:(lia) ltac:(lia)).
    replace (Z.to_nat (i + 1)) with (S (Z.to_nat i)) in IH by lia.
    rewrite (take_S_r _ _ s Hs), selected_app, selected_one in IH.
    destruct ((0 <? used s) && exported argv flag (entry s)).
    + rewrite wrap_add_l. rewrite sum_len_app, sum_len_cons in IH. change (sum_len sep []) with 0 in IH.
      rewrite Z.add_0_r in IH. exact IH.
    + rewrite app_nil_r in IH. exact IH.
  - rewrite take_ge by lia. done.
Qed.

Lemma selected_zero h T argv flag : wf h T -> selected argv flag (take 1 T) = [].
Proof.
  intros Hwf. destruct (wf_zero _ _ Hwf) as (z & Hz & Hu). change (Z.to_nat 0) with 0%nat in Hz.
  destruct T as [|z' T]; [done|]. injection Hz as ->. rewrite take_S_r with (x := z) by done.
  rewrite take_0. cbn [app]. rewrite selected_one. by rewrite Hu.
Qed.

(** Room for one entry: the estimate of pass 1 covers what pass 2 writes,
    unless the separator is NUL and the value has backslashes. *)
Definition backslashes (d : str) : nat := length (filter (fun c => c = BACKSLASH) d).

Lemma fold_len_value sep d n :
  fold_left (fun t c => t + 1 + (if escaped sep c then 1 else 0)) d n
  = n + Z.of_nat (length (put_value sep d)).
Proof.
  revert n. induction d as [|c d IH]; intros n; cbn [fold_left]; [cbn; lia|].
  rewrite IH. unfold put_value. cbn [map concat]. rewrite length_app.
  destruct (escaped sep c); cbn [length]; lia.
Qed.

Lemma put_entry_len sep e :
  sep <> 0 -> Z.of_nat (length (put_entry sep e)) <= entry_len sep e.
Proof.
  intros Hs. unfold put_entry, entry_len. destruct (Z.eqb_spec sep 0); [done|].
  rewrite fold_len_value, !length_app. cbn [length]. lia.
Qed.

Lemma put_entries_len sep l :
  sep <> 0 -> Z.of_nat (length (concat (map (put_entry sep) l))) <= sum_len sep l.
Proof.
  intros Hs. induction l as [|e l IH]; [done|]. cbn [map concat].
  rewrite length_app, sum_len_cons. pose proof (put_entry_len sep e Hs). lia.
Qed.

(** ** Export *)

Definition text (sep : Z) (l : list ENTRY) : list Z := concat (map (put_entry sep) l).

Lemma hexport_spec h T sep flag size_ argv :
  wf h T -> 0 <= size_ -> sum_len sep (selected argv flag T) + 1 < 2 ^ 32 ->
  exists l, qsort cmpkey (selected argv flag T) = Some l /\ l ≡ₚ selected argv flag T
    /\ hexport_r h sep flag size_ argv
       = let need := sum_len sep (selected argv flag T) + 1 in
         if negb (size_ =? 0) && (size_ <? need) then Some (-1, [])
         else let n := if negb (size_ =? 0) then size_ else need in
              if decide (Z.of_nat (length (text sep l)) + 1 <= n)
              then Some (n, text sep l ++ replicate (Z.to_nat n - length (text sep l)) 0)
              else None.
Proof.
  intros Hwf Hsz Hsum. unfold hexport_r. pose proof (wf_size _ _ Hwf).
  pose proof (pass1_spec h T sep flag argv (Z.to_nat (size h) + 1) 1 Hwf ltac:(lia) ltac:(lia)) as Hp.
  change (Z.to_nat 1) with 1%nat in Hp. rewrite (selected_zero h T argv flag Hwf) in Hp.
  change (u32 (sum_len sep [])) with 0 in Hp. rewrite Hp. cbn [mbind option_bind].
  destruct (qsort_perm cmpkey (selected argv flag T)) as (l & El & Hl). exists l.
  split; [done|]. split; [done|]. rewrite El. cbn [mbind option_bind].
  pose proof (sum_len_nonneg sep (selected argv flag T)).
  rewrite (wrap_small 32 (sum_len sep _)), (wrap_small 32 (_ + 1)) by (split; lia).
  destruct (negb (size_ =? 0) && (size_ <? _)) eqn:Esz; [done|]. fold (text sep l).
  cbn zeta. set (n := if negb (size_ =? 0) then size_ else _).
  assert (Hn : 1 <= n).
  { unfold n. destruct (Z.eqb_spec size_ 0); cbn [negb]; lia. }
  rewrite length_replicate, length_app. cbn [length].
  destruct (Nat.leb_spec (length (text sep l) + 1) (Z.to_nat n)) as [Hle|Hgt].
  - rewrite decide_True by lia. do 2 f_equal. unfold memcpy.
    rewrite take_0, drop_replicate, length_app. cbn [length app Nat.add].
    rewrite <- app_assoc. f_equal.
    replace (Z.to_nat n - length (text sep l))%nat
      with (S (Z.to_nat n - (length (text sep l) + 1))) by lia. done.
  - rewrite decide_False by lia. done.
Qed.

Definition key_le (e1 e2 : ENTRY) : Prop := lex (key e1) (key e2) <> Gt.

Lemma cmpkey_lex e1 e2 :
  is_str (key e1) -> is_str (key e2) -> ascii (key e1) -> ascii (key e2) ->
  cmpkey e1 e2 <= 0 <-> key_le e1 e2.
Proof.
  intros H1 H2 A1 A2. unfold cmpkey, cstr, key_le.
  destruct (strcmp_spec (key e1) (key e2) [] [] H1 H2) as (r & -> & _ & Hr).
  rewrite <- (Hr A1 A2). rewrite Z.compare_gt_iff. lia.
Qed.

(** [hexport_r] with a non-NUL separator and a sufficient buffer (or an
    allocated one) stays inside it and writes the selected variables once
    each, in ascending order of their names, escaped, terminated and
    zero-padded; with too small a buffer it returns -1. *)
Theorem hexport_correct h T sep flag size_ argv :
  wf h T -> sep <> 0 -> Forall (fun e => is_str (key e) /\ ascii (key e)) (entries T) ->
  0 <= size_ -> sum_len sep (selected argv flag T) + 1 < 2 ^ 32 ->
  if negb (size_ =? 0) && (size_ <? sum_len sep (selected argv flag T) + 1)
  then hexport_r h sep flag size_ argv = Some (-1, [])
  else exists n l zeros, hexport_r h sep flag size_ argv = Some (n, text sep l ++ 0 :: replicate zeros 0)
    /\ n = Z.of_nat (length (text sep l ++ 0 :: replicate zeros 0))
    /\ l ≡ₚ selected argv flag T /\ StronglySorted key_le l.
Proof.
  intros Hwf Hsep Hkeys Hsz Hsum.
  destruct (hexport_spec h T sep flag size_ argv Hwf Hsz Hsum) as (l & El & Hl & ->). cbn zeta.
  destruct (negb (size_ =? 0) && (size_ <? _)) eqn:Esz; [done|].
  set (n := if negb (size_ =? 0) then size_ else _).
  pose proof (put_entries_len sep l Hsep) as Hlen. rewrite (sum_len_perm sep _ _ Hl) in Hlen.
  fold (text sep l) in Hlen.
  assert (Hn : sum_len sep (selected argv flag T) + 1 <= n).
  { unfold n. destruct (Z.eqb_spec size_ 0); cbn [negb andb] in *; [lia|].
    destruct (Z.ltb_spec size_ (sum_len sep (selected argv flag T) + 1)); [done|lia]. }
  rewrite decide_True by lia.
  exists n, l, (Z.to_nat n - length (text sep l) - 1)%nat.
  assert (E : replicate (Z.to_nat n - length (text sep l)) 0
     = 0 :: replicate (Z.to_nat n - length (text sep l) - 1) 0).
  { change (0 :: replicate ?x 0) with (replicate (S x) 0). f_equal. lia. }
  rewrite E. split; [done|].
  split; [rewrite length_app; cbn [length]; rewrite length_replicate; lia|].
  split; [done|].
  set (ok := fun e => is_str (key e) /\ ascii (key e)).
  assert (Hok : Forall ok (selected argv flag T)) 
    by (rewrite Forall_forall in Hkeys |- *; intros e [_ He]%list_elem_of_filter; by apply Hkeys).
  destruct (qsort_spec cmpkey ok) with (base := selected argv flag T) as (l' & El' & _ & Hs); [..|done|].
  - intros e1 e2 [? ?] [? ?]. rewrite cmpkey_lex by done. unfold key_le.
    rewrite (lex_antisym (key e1) (key e2)).
    pose proof (cmpkey_lex e1 e2) as Hc. unfold key_le in Hc.
    intros Hgt. destruct (lex (key e1) (key e2)) eqn:E12; cbn; try done.
    assert (cmpkey e1 e2 <= 0); [|lia]. apply Hc; done.
  - intros e1 e2 e3 [? ?] [? ?] [? ?]. rewrite !cmpkey_lex by done. unfold key_le.
    intros H12 H23 H13. rewrite lex_antisym in H13.
    destruct (lex (key e3) (key e1)) eqn:E31; cbn in H13; try done.
    destruct (lex (key e1) (key e2)) eqn:E12; [apply lex_eq in E12| |done].
    + rewrite E12 in E31. rewrite lex_antisym, E31 in H23. done.
    + rewrite (lex_antisym (key e3)) in H23. pose proof (lex_lt_trans _ _ _ E31 E12) as E32.
      rewrite E32 in H23. done.
  - rewrite El in El'. injection El' as <-.
    assert (Hokl : Forall ok l) by (by rewrite Hl).
    rewrite Forall_forall in Hokl. eapply StronglySorted_impl; [|exact Hs].
    intros e1 e2 Hin1 Hin2 Hle. destruct (Hokl e1 Hin1), (Hokl e2 Hin2).
    by apply cmpkey_lex.
Qed.

(** Values of NUL-separated exports are escaped too, but the escapes are not
    counted: three backslashes overrun the buffer [hexport_r] allocates. *)
Example hexport_overrun :
  hexport_r (Htab (Some (zero_slot :: Slot 1 (Entry [97] [92; 92; 92] None 0)
                         :: replicate 4 zero_slot)) 5 1) 0 0 0 [] = None.
Proof. vm_compute. reflexivity. Qed.

(** ** Reading back *)

Definition sep_ok (sep : Z) : Prop :=
  sep <> EQ /\ sep <> BACKSLASH /\ sep <> HASH /\ isblank sep = false.

(** Names the text format can carry. *)
Definition good_name (sep : Z) (k : str) : Prop :=
  is_str k /\ Forall (fun c => c <> EQ /\ c <> sep) k
  /\ exists c r, k = c :: r /\ isblank c = false /\ c <> HASH.

Definition good_entry (sep : Z) (e : ENTRY) : Prop :=
  good_name sep (key e) /\ is_str (data e) /\ data e <> [].

Lemma parse_name_spec sep k r :
  is_str k -> Forall (fun c => c <> EQ /\ c <> sep) k ->
  parse_name sep (k ++ EQ :: r) = Some (k, EQ :: r).
Proof.
  intros Hk. induction Hk as [|c k Hc Hk IH]; intros Hf; [done|].
  apply Forall_cons in Hf as [[H1 H2] Hf]. cbn [app parse_name].
  destruct (Z.eqb_spec c EQ), (Z.eqb_spec c 0), (Z.eqb_spec c sep); try done; try lia.
  cbn [orb]. by rewrite IH.
Qed.

Lemma parse_value_spec sep d r :
  sep <> BACKSLASH -> is_str d ->
  parse_value sep (put_value sep d ++ sep :: r) = Some (d, sep :: r).
Proof.
  intros Hsep Hd. induction Hd as [|c d Hc Hd IH].
  - cbn [put_value map concat app parse_value]. rewrite Z.eqb_refl, orb_true_r. done.
  - unfold put_value in *. cbn [map concat]. rewrite <- app_assoc. unfold escaped at 1.
    destruct (Z.eqb_spec c sep) as [->|Hcs]; cbn [orb].
    + cbn [app parse_value]. destruct (Z.eqb_spec BACKSLASH sep); [done|].
      cbn [orb Z.eqb Pos.eqb]. destruct (Z.eqb_spec sep 0); [lia|]. by rewrite IH.
    + destruct (Z.eqb_spec c BACKSLASH) as [->|Hcb]; cbn [app parse_value].
      * destruct (Z.eqb_spec BACKSLASH sep); [done|]. cbn [orb Z.eqb Pos.eqb]. by rewrite IH.
      * destruct (Z.eqb_spec c 0), (Z.eqb_spec c sep), (Z.eqb_spec c BACKSLASH);
          try lia; try done. cbn [orb]. by rewrite IH.
Qed.

Lemma put_value_head sep d r :
  sep <> BACKSLASH -> is_str d -> d <> [] ->
  exists c t, put_value sep d ++ r = c :: t /\ c <> 0 /\ c <> sep.
Proof.
  intros Hsep Hd Hne. destruct Hd as [|c d Hc Hd]; [done|]. unfold put_value. cbn [map concat].
  unfold escaped at 1. destruct (Z.eqb_spec c sep); [by eexists _, _|].
  destruct (Z.eqb_spec c BACKSLASH); cbn [orb]; [by eexists _, _|].
  eexists _, _. split; [done|]. split; [lia|done].
Qed.

Section RoundTrip.
Context {W : Type} `{HF : HooksFrame W}.
Implicit Types (w : W) (st : hsearch_data * W).

(** An exported item enters its variable. *)
Lemma import_item_spec sep flag e rest st :
  sep_ok sep -> good_entry sep e ->
  import_item sep flag (put_entry sep e ++ rest) [] st
  = '(_, st) ← hsearch_r (key e) (Some (data e)) ENTER st flag; Some (rest, [], st).
Proof.
  intros (S1 & S2 & S3 & S4) ((Hk & Hkf & c & r & Ek & Hb & Hh) & Hd & Hne).
  unfold import_item, put_entry. rewrite <- !app_assoc. cbn [app].
  assert (Hskip : skip_blanks (key e ++ EQ :: put_value sep (data e) ++ sep :: rest)
    = Some (key e ++ EQ :: put_value sep (data e) ++ sep :: rest)).
  { rewrite Ek. cbn [app skip_blanks]. by rewrite Hb. }
  rewrite Hskip. cbn [mbind option_bind].
  assert (Hpk : peek (key e ++ EQ :: put_value sep (data e) ++ sep :: rest) = Some c)
    by (by rewrite Ek).
  rewrite Hpk. cbn [mbind option_bind]. destruct (Z.eqb_spec c HASH); [done|].
  rewrite parse_name_spec by done. cbn [mbind option_bind peek head tail].
  change (EQ =? 0) with false. change (EQ =? EQ) with true. cbn iota.
  destruct (put_value_head sep (data e) (sep :: rest)) as (x & t & Ex & Hx0 & Hxs); [done..|].
  rewrite Ex. cbn [head mbind option_bind]. change (peek (x :: t)) with (Some x).
  cbn [mbind option_bind].
  destruct (Z.eqb_spec x 0), (Z.eqb_spec EQ sep), (Z.eqb_spec x sep); try done; try lia.
  cbn [orb]. rewrite <- Ex, parse_value_spec by done.
  cbn [mbind option_bind tail drop_var_from_set negb]. done.
Qed.

(** The variables entered one after the other. *)
Fixpoint enter_all (flag : Z) (l : list ENTRY) st : option (hsearch_data * W) :=
  match l with
  | [] => Some st
  | e :: l => '(_, st) ← hsearch_r (key e) (Some (data e)) ENTER st flag; enter_all flag l st
  end.

Lemma text_cons sep e l : text sep (e :: l) = put_entry sep e ++ text sep l.
Proof. done. Qed.

Lemma import_loop_spec sep flag l zeros fuel st :
  sep_ok sep -> Forall (good_entry sep) l -> l <> [] -> (length l <= fuel)%nat ->
  import_loop fuel sep flag (text sep l ++ 0 :: zeros) [] st
  = st ← enter_all flag l st; Some ([], st).
Proof.
  intros Hs. revert fuel st. induction l as [|e l IH]; intros fuel st Hl Hne Hf; [done|].
  apply Forall_cons in Hl as [He Hl]. destruct fuel as [|fuel]; [cbn in Hf; lia|].
  cbn [import_loop enter_all]. rewrite text_cons, <- app_assoc, import_item_spec by done.
  destruct (hsearch_r (key e) (Some (data e)) ENTER st flag) as [[r st']|]; [|done].
  cbn [mbind option_bind]. destruct l as [|e' l].
  - cbn [text map concat app Z.eqb enter_all]. done.
  - assert (Hhd : exists c t, text sep (e' :: l) ++ 0 :: zeros = c :: t /\ c <> 0).
    { apply Forall_cons in Hl as [((Hk & _ & c & r' & Ek & _) & _) _].
      rewrite text_cons. unfold put_entry. rewrite Ek. eexists c, _. split; [done|].
      rewrite Ek in Hk. apply Forall_cons in Hk as [? _]. lia. }
    destruct Hhd as (c & t & Ec & Hc0). rewrite Ec. destruct (Z.eqb_spec c 0); [done|].
    rewrite <- Ec. apply IH; [done|done|]. cbn in Hf |- *. lia.
Qed.

(** ** Entering into a table without tombstones *)

Definition clean (T : list _ENTRY) : Prop := forall i s, T !! i = Some s -> used s <> -1.

Lemma clean_has_empty h T :
  wf h T -> clean T -> filled h < size h -> exists i, 1 <= i <= size h /\ empty T i.
Proof.
  intros Hwf Hcl Hf. pose proof (wf_len _ _ Hwf) as Hlen.
  destruct T as [|z T]; [cbn in Hlen; pose proof (wf_size _ _ Hwf); lia|].
  destruct (decide (Exists (fun s => used s = 0) T)) as [Hex|Hno].
  - apply Exists_exists in Hex as (s & Hin & Hu). apply list_elem_of_lookup in Hin as [j Hj].
    exists (Z.of_nat (S j)). split.
    + apply lookup_lt_Some in Hj. cbn [length] in Hlen. lia.
    + exists s. rewrite Nat2Z.id. done.
  - exfalso. apply not_Exists_Forall in Hno; [|apply _].
    assert (Hall : length (pairs T) = length T).
    { assert (Hpos : Forall (fun s => 0 < used s) T).
      { rewrite Forall_forall in Hno |- *. intros s Hin. pose proof Hin as Hin'.
        apply list_elem_of_lookup in Hin' as [j Hj]. specialize (Hno s Hin). cbn in Hno.
        destruct (wf_slot _ _ Hwf (Z.of_nat (S j)) s) as [?|[?|[E _]]]; [lia| |done| |].
        - by rewrite Nat2Z.id.
        - by apply (Hcl (S j) s) in Hj.
        - rewrite E. pose proof (wf_size _ _ Hwf).
          pose proof (hash1_range (size h) (key (entry s))). lia. }
      clear -Hpos. induction Hpos as [|s T Hs _ IH]; [done|]. unfold pairs in *.
      cbn [omap list_omap length]. unfold live_pair at 1.
      destruct (Z.ltb_spec 0 (used s)); [|lia]. cbn [length]. lia. }
    rewrite (wf_filled _ _ Hwf) in Hf. unfold pairs in *. cbn [omap list_omap length] in *.
    destruct (live_pair z); cbn [length] in Hf; lia.
Qed.

Definition insert_all (l : list ENTRY) (m : gmap str str) : gmap str str :=
  fold_left (fun m e => <[key e := data e]> m) l m.

(** No hook refuses an entry of the list. *)
Definition all_welcome (flag : Z) (l : list ENTRY) : Prop :=
  forall e, e ∈ l -> ~ refused (key e) (Some (data e)) flag.

Lemma enter_all_spec flag l h T w :
  all_welcome flag l -> wf h T -> clean T -> filled h + Z.of_nat (length l) <= size h ->
  Forall (fun e => is_str (key e)) l -> NoDup (map key l) ->
  (forall e, e ∈ l -> abs T !! key e = None) ->
  exists h' w' T', enter_all flag l (h, w) = Some (h', w') /\ wf h' T'
    /\ abs T' = insert_all l (abs T).
Proof.
  revert h T w. induction l as [|e l IH]; intros h T w Hnr Hwf Hcl Hcap Hk Hnd Hab.
  { by exists h, w, T. }
  apply Forall_cons in Hk as [Hke Hk]. cbn [map] in Hnd. apply NoDup_cons in Hnd as [Hnotin Hnd].
  cbn [length] in Hcap. destruct (clean_has_empty h T Hwf Hcl) as (i & Hi & He); [lia|].
  cbn [enter_all].
  destruct (enter_spec h T w (key e) (data e) flag i Hwf Hke Hi He)
    as (r & h1 & w1 & T1 & -> & Hwf1 & Hs1 & [(idx & _ & _ & Habs1 & Htomb)|(_ & Href & _)]);
    [|by apply Hnr in Href; [|left]].
  cbn [mbind option_bind].
  assert (Hfill : filled h1 = filled h + 1).
  { rewrite (wf_filled _ _ Hwf1), (wf_filled _ _ Hwf), !pairs_entries, !length_map.
    assert (Hsz : forall h T, wf h T -> base.size (abs T) = length (entries T)).
    { intros h' T' Hwf'. unfold abs. rewrite pairs_entries.
      rewrite map_size_list_to_map, length_map; [done|].
      unfold fmap. rewrite map_map. cbn. by eapply wf_keys_nodup. }
    rewrite <- (Hsz h1 T1 Hwf1), <- (Hsz h T Hwf), Habs1, map_size_insert_None.
    - lia.
    - apply Hab. by left. }
  destruct (IH h1 T1 w1) as (h2 & w2 & T2 & -> & Hwf2 & Habs2).
  - intros e' He'. apply Hnr. by right.
  - done.
  - intros j s Hj Hu. destruct (Htomb j s Hj Hu) as (s0 & Hs0 & Hu0). by apply (Hcl j s0).
  - lia.
  - done.
  - done.
  - intros e' He'. rewrite Habs1, lookup_insert_ne.
    + apply Hab. by right.
    + intros E. apply Hnotin. rewrite E. by apply list_elem_of_fmap_2.
  - exists h2, w2, T2. split; [done|]. split; [done|]. by rewrite Habs2, Habs1.
Qed.

Lemma insert_all_map l :
  NoDup (map key l) -> insert_all l ∅ = list_to_map (map kv l).
Proof.
  induction l as [|e l IH] using rev_ind; intros Hnd; [done|].
  unfold insert_all in *. rewrite fold_left_app, map_app. cbn [fold_left map].
  rewrite map_app in Hnd. apply NoDup_app in Hnd as (Hnd & Hdis & _).
  unfold kv at 2. rewrite list_to_map_snoc, IH; [done|done|].
  unfold fmap. rewrite map_map. cbn. intros Hin. apply (Hdis _ Hin). by left.
Qed.

Lemma selected_all T : selected [] 0 T = entries T.
Proof.
  unfold selected. induction (entries T) as [|e l IH]; [done|].
  rewrite filter_cons_True by done. by rewrite IH.
Qed.

Lemma good_entry_len sep e : good_entry sep e -> 6 <= entry_len sep e.
Proof.
  intros ((_ & _ & c & r & Ek & _) & _ & Hne). unfold entry_len. rewrite Ek.
  destruct (data e) as [|x d] eqn:Ed; [done|]. cbn [length fold_left].
  destruct (sep =? 0); [lia|].
  match goal with |- context [fold_left _ d ?n] => pose proof (fold_len_ge sep d n) end.
  destruct (escaped sep x); lia.
Qed.

Lemma good_sum_len sep l :
  Forall (good_entry sep) l -> 6 * Z.of_nat (length l) <= sum_len sep l.
Proof.
  induction 1 as [|e l He _ IH]; [done|]. rewrite sum_len_cons. cbn [length].
  pose proof (good_entry_len sep e He). lia.
Qed.

(** An empty text deletes the variable with the empty name, of which there is
    none. *)
Lemma import_empty h T w sep flag fuel zeros :
  wf h T -> abs T = ∅ ->
  import_loop (S fuel) sep flag (0 :: replicate zeros 0) [] (h, w) = Some ([], (h, w)).
Proof.
  intros Hwf Hab.
  assert (Hsome : exists r, hdelete_r [] (h, w) flag = Some (r, (h, w))).
  { destruct (find_spec h T w [] None 0 Hwf) as [[_ E]|(i & s & Hl & Hk & _)]; [constructor| |].
    - exists (failure ESRCH). unfold hdelete_r. by rewrite E.
    - exfalso. assert (Hs : abs T !! [] = Some (data (entry s))).
      { apply (abs_lookup h T Hwf). by exists i, s. }
      by rewrite Hab in Hs. }
  destruct Hsome as (r & Hr). cbn [import_loop]. unfold import_item.
  cbn [skip_blanks isblank peek head mbind option_bind parse_name tail]. cbn.
  rewrite Hr. cbn. by destruct zeros.
Qed.

(** The table that [himport_r] makes for a text of [n] bytes. *)
Lemma create_spec (h0 : hsearch_data) n (l : list ENTRY) :
  table h0 = None -> (length l <= 512)%nat -> 6 * Z.of_nat (length l) + 1 <= n ->
  let nent := CONFIG_ENV_MIN_ENTRIES + n / 8 in
  let nent := if CONFIG_ENV_MAX_ENTRIES <? nent then CONFIG_ENV_MAX_ENTRIES else nent in
  exists h T, hcreate_r nent h0 = Some (1, h) /\ wf h T /\ abs T = ∅ /\ clean T
    /\ filled h + Z.of_nat (length l) <= size h.
Proof.
  intros Hnone Hlen Hn nent1 nent.
  assert (Hnent : 4 <= nent <= 1024 /\ Z.of_nat (length l) <= nent).
  { unfold nent, nent1, CONFIG_ENV_MAX_ENTRIES, CONFIG_ENV_MIN_ENTRIES.
    pose proof (Z.div_mod n 8 ltac:(lia)). pose proof (Z.mod_pos_bound n 8 ltac:(lia)).
    destruct (Z.ltb_spec 512 (128 + n / 8)); lia. }
  unfold hcreate_r. rewrite Hnone.
  destruct (next_prime_spec nent) as (p & -> & Hp & Hpr & Hp5); [lia|]. cbn [mbind option_bind].
  destruct (fresh_wf p Hp ltac:(lia)) as (Hwf & Habs & _). do 2 eexists. split; [done|].
  split; [exact Hwf|]. split; [done|]. split.
  - intros i s Hi. by apply lookup_replicate in Hi as [-> _].
  - cbn [filled size]. lia.
Qed.

(** The text of a list of entries, padded with zeros, read into whatever table
    was there before. *)
Lemma import_text sep l zeros h0 w0 :
  all_welcome 0 l -> sep_ok sep -> Forall (good_entry sep) l -> NoDup (map key l) ->
  (length l <= 512)%nat -> 6 * Z.of_nat (length l) <= Z.of_nat (length (text sep l) + zeros) ->
  exists h' w' T', himport_r (text sep l ++ 0 :: replicate zeros 0) sep 0 [] (h0, w0) = Some (1, (h', w'))
    /\ wf h' T' /\ abs T' = list_to_map (map kv l).
Proof.
  intros Hnr Hs Hgood Hnd Hlen Hmin. unfold himport_r. change (0 .& H_NOCLEAR =? 0) with true. cbn iota.
  set (hd := match table h0 with Some _ => hdestroy_r h0 | None => h0 end).
  assert (Hnone : table hd = None) by (unfold hd; by destruct (table h0) eqn:E0).
  rewrite Hnone. set (n := Z.of_nat (length (text sep l ++ _))).
  assert (Hn : n = Z.of_nat (length (text sep l) + zeros) + 1)
    by (unfold n; rewrite length_app; cbn [length]; rewrite length_replicate; lia).
  destruct (create_spec hd n l Hnone Hlen ltac:(lia)) as (h1 & T1 & -> & Hwf1 & Habs1 & Hcl1 & Hcap).
  cbn [mbind option_bind Z.eqb map]. rewrite <- insert_all_map by done. destruct l as [|e l'].
  - rewrite Nat.add_1_r. change (text sep []) with (@nil Z). cbn [app].
    rewrite (import_empty h1 T1) by done. cbn [mbind option_bind delete_rest]. by exists h1, w0, T1.
  - rewrite import_loop_spec; [|done|done|done|unfold n in Hn; lia].
    destruct (enter_all_spec 0 (e :: l') h1 T1 w0) as (h2 & w2 & T2 & -> & Hwf2 & Habs2); try done.
    + eapply Forall_impl; [exact Hgood|]. by intros ? [[? _] _].
    + intros e' _. by rewrite Habs1.
    + cbn [mbind option_bind delete_rest]. exists h2, w2, T2. by rewrite Habs2, Habs1.
Qed.

(** What [hexport_r] writes without an error: the entries, in some order. *)
Lemma export_text h T sep size_ n out :
  wf h T -> 0 <= size_ -> sum_len sep (entries T) + 1 < 2 ^ 32 ->
  hexport_r h sep 0 size_ [] = Some (n, out) -> n <> -1 \/ size_ = 0 ->
  exists l zeros, out = text sep l ++ 0 :: replicate zeros 0 /\ l ≡ₚ entries T
    /\ n = Z.of_nat (length out) /\ sum_len sep (entries T) + 1 <= n /\ (size_ <> 0 -> n = size_).
Proof.
  intros Hwf Hsz Hsum Hexp Hpos.
  destruct (hexport_spec h T sep 0 size_ [] Hwf Hsz) as (l & _ & Hl & E); [by rewrite selected_all|].
  rewrite E in Hexp. clear E. rewrite selected_all in *. cbn zeta in Hexp.
  destruct (negb (size_ =? 0) && (size_ <? _)) eqn:Eb; [injection Hexp as <- <-; destruct Hpos as [?| ->]; done|].
  destruct (decide _) as [Hfit|]; [|done]. injection Hexp as Hn <-. rewrite Hn in Hfit |- *.
  exists l, (Z.to_nat n - length (text sep l) - 1)%nat.
  replace (Z.to_nat n - length (text sep l))%nat with (S (Z.to_nat n - length (text sep l) - 1)) at 1 by lia.
  cbn [replicate]. split; [done|]. split; [done|].
  rewrite length_app. cbn [length]. rewrite length_replicate. split; [lia|].
  destruct (Z.eqb_spec size_ 0); cbn [negb andb] in *; [split; [lia|done]|]. apply Z.ltb_ge in Eb. lia.
Qed.

(** What was exported is read back as the same map. *)
Lemma exported_read h T sep size_ n out h0 w0 :
  all_welcome 0 (entries T) -> wf h T -> sep_ok sep -> Forall (good_entry sep) (entries T) ->
  (length (entries T) <= 512)%nat -> 0 <= size_ -> sum_len sep (entries T) + 1 < 2 ^ 32 ->
  hexport_r h sep 0 size_ [] = Some (n, out) -> n <> -1 \/ size_ = 0 ->
  exists h' w' T', himport_r out sep 0 [] (h0, w0) = Some (1, (h', w')) /\ wf h' T' /\ abs T' = abs T.
Proof.
  intros Hnr Hwf Hs Hgood Hlen Hsz Hsum Hexp Hpos.
  destruct (export_text h T sep size_ n out) as (l & zeros & -> & Hl & Hn & Hneed & _); try done.
  pose proof (good_sum_len sep (entries T) Hgood) as Hmin. rewrite length_app in Hn. cbn [length] in Hn.
  rewrite length_replicate in Hn.
  assert (Hnd : NoDup (map key l)) by (rewrite Hl; by eapply wf_keys_nodup).
  destruct (import_text sep l zeros h0 w0) as (h' & w' & T' & E & Hwf' & Ha'); try done.
  - intros e He. apply Hnr. by rewrite <- Hl.
  - by rewrite Hl.
  - by rewrite (Permutation_length Hl).
  - rewrite (Permutation_length Hl). lia.
  - exists h', w', T'. split; [done|]. split; [done|]. rewrite Ha'. unfold abs. rewrite pairs_entries.
    apply list_to_map_proper; [unfold fmap; rewrite map_map; cbn; done|by rewrite Hl].
Qed.

End RoundTrip.

(** ** Witnesses *)

#[local] Existing Instance no_hooks.
#[local] Existing Instance no_hooks_frame.

Lemma no_hooks_refuse k d flag : ~ refused k (Some d) flag.
Proof.
  intros (e & op & _ & [Hv|[st Hc]]); [done|]. unfold call_back in Hc. by destruct (callback e).
Qed.

Lemma hexport_correct_witness :
  exists n l zeros, hexport_r demo 10 0 0 [] = Some (n, text 10 l ++ 0 :: replicate zeros 0)
    /\ n = Z.of_nat (length (text 10 l ++ 0 :: replicate zeros 0))
    /\ l ≡ₚ selected [] 0 demo_table /\ StronglySorted key_le l.
Proof.
  apply (hexport_correct demo demo_table 10 0 0 []);
    [apply demo_table_wf|lia| |lia|reflexivity].
  vm_compute. repeat constructor.
Defined.


(** A text that is not NUL-terminated is read beyond its end. *)
Example himport_overread :
  himport_r [97; 61; 98] 10 0 [] (Htab None 0 0, tt) = None.
Proof. vm_compute. reflexivity. Qed.

End EnvText.
