(* ===== verification/EnvAttr.v ===== *)
(** * Attribute lists of the environment (common/env_attr.c, lib/linux_string.c)

    The variables [.flags] and [.callbacks] hold lists
    [name:attributes,name:attributes,...].  [env_attr_walk] calls a function
    for every entry, [env_attr_lookup] finds the attributes of one name.

    [skip_spaces] and [strim] work on an object and an offset.  A pointer into
    an attribute list that is moved backwards is an offset in [mem], the
    memory the list lies in, so that bytes before the list are those of [mem].
    [None] is an access outside an object. *)

From S2P Require Import Prelude Cstring.

Module EnvAttr.
Import Cstring.

(** ** White space *)

Fixpoint skip_spaces (s : list Z) : option nat :=
  match s with
  | [] => None
  | c :: s => if isspace c then n ← skip_spaces s; Some (S n) else Some 0%nat
  end.

(** [while (end >= s && isspace( *end)) end--], [n] being [end + 1 - s]. *)
Fixpoint strim_end (s : list Z) (n : nat) : option nat :=
  match n with
  | O => Some O
  | S n' => c ← s !! n'; if isspace c then strim_end s n' else Some n
  end.

(** The pointer and the object. *)
Definition strim (mem : list Z) (s : nat) : option (nat * list Z) :=
  k ← skip_spaces (drop s mem);
  let s := (s + k)%nat in
  size ← strlen (drop s mem);
  if (size =? 0)%nat then Some (s, mem) else
  n ← strim_end (drop s mem) size;
  Some (s, <[(s + n)%nat := 0]> mem).

(** The string a function gets that is passed a pointer. *)
Fixpoint read_str (s : list Z) : option str :=
  match s with
  | [] => None
  | c :: s => if c =? 0 then Some [] else r ← read_str s; Some (c :: r)
  end.

(** ** env_attr_walk *)

Definition ENV_ATTR_LIST_DELIM : Z := 44.
Definition ENV_ATTR_SEP : Z := 58.

(** The private copy of one entry, null for an empty one; [entry_end] is the
    offset of the comma. *)
Definition copy_entry (entry : list Z) (entry_end : option nat) : option (option (list Z)) :=
  match entry_end with
  | None =>
      entry_len ← strlen entry;
      if (entry_len =? 0)%nat then Some None
      else c ← strcpy (replicate (entry_len + 1) 0) entry; Some (Some c)
  | Some entry_len =>
      if (entry_len =? 0)%nat then Some None
      else c ← strncpy (replicate (entry_len + 1) 0) entry (Z.of_nat entry_len);
           Some (Some (<[entry_len := 0]> c))
  end.

(** Name and attributes of the copied entry. *)
Definition split_entry (entry_cpy : list Z) : option (str * option str) :=
  colon ← strchr entry_cpy ENV_ATTR_SEP;
  '(attributes, entry_cpy) ←
    match colon with
    | Some k => '(p, mem) ← strim (<[k := 0]> entry_cpy) (k + 1); Some (Some p, mem)
    | None => Some (None, entry_cpy)
    end;
  '(name, entry_cpy) ← strim entry_cpy 0;
  n ← read_str (drop name entry_cpy);
  a ← match attributes with
      | Some p => v ← read_str (drop p entry_cpy); Some (Some v)
      | None => Some None
      end;
  Some (n, a).

Section Walk.
Context {S : Type} (callback : str -> option str -> S -> option (Z * S)).

Definition walk_entry (entry_cpy : option (list Z)) (s : S) : option (Z * S) :=
  match entry_cpy with
  | None => Some (0, s)
  | Some c =>
      '(name, attributes) ← split_entry c;
      if (length name =? 0)%nat then Some (0, s) else callback name attributes s
  end.

Fixpoint env_attr_walk_loop (fuel : nat) (entry : list Z) (s : S) : option (Z * S) :=
  match fuel with
  | O => None
  | Datatypes.S fuel =>
      entry_end ← strchr entry ENV_ATTR_LIST_DELIM;
      entry_cpy ← copy_entry entry entry_end;
      '(retval, s) ← walk_entry entry_cpy s;
      if negb (retval =? 0) then Some (retval, s) else
      match entry_end with
      | None => Some (0, s)
      | Some k => env_attr_walk_loop fuel (drop (k + 1) entry) s
      end
  end.

Definition env_attr_walk (attr_list : option (list Z)) (s : S) : option (Z * S) :=
  match attr_list with
  | None => Some (1, s)
  | Some entry => env_attr_walk_loop (length entry) entry s
  end.

End Walk.

(** ** env_attr_lookup *)

(** [searched] and the result are offsets in [mem]. *)
Fixpoint reverse_strstr_loop (fuel : nat) (mem : list Z) (searched : nat) (search_for : list Z)
    (searched_start result : option nat) : option (option nat) :=
  match fuel with
  | O => None
  | S fuel =>
      r ← strstr (drop searched mem) search_for;
      match r with
      | None => Some result
      | Some k =>
          n ← strlen search_for;
          let match_ := (searched + k)%nat in
          if match searched_start with Some p => (p <? match_ + n)%nat | None => false end
          then Some result
          else reverse_strstr_loop fuel mem (match_ + 1) search_for searched_start (Some match_)
      end
  end.

Definition reverse_strstr (mem : list Z) (searched : nat) (search_for : list Z)
    (searched_start : option nat) : option (option nat) :=
  c ← head search_for;
  if c =? 0 then Some (Some searched)
  else reverse_strstr_loop (length mem + 1) mem searched search_for searched_start None.

(** [while ( *prevch == ' ') prevch--], [n] being [prevch + 1]; the byte it ends at. *)
Fixpoint back_spaces (mem : list Z) (n : nat) : option Z :=
  match n with
  | O => None
  | S n' => c ← mem !! n'; if c =? 32 then back_spaces mem n' else Some c
  end.

(** [while ( *nextch == ' ') nextch++] *)
Fixpoint skip_blank (s : list Z) : option nat :=
  match s with
  | [] => None
  | c :: s => if c =? 32 then n ← skip_blank s; Some (S n) else Some 0%nat
  end.

Definition exact_match (mem : list Z) (attr_list entry name_len : nat) : option bool :=
  prevch ← back_spaces mem entry;
  k ← skip_blank (drop (entry + name_len) mem);
  nextch ← mem !! (entry + name_len + k)%nat;
  Some (((entry =? attr_list)%nat || (prevch =? ENV_ATTR_LIST_DELIM))
        && ((nextch =? ENV_ATTR_SEP) || (nextch =? ENV_ATTR_LIST_DELIM) || (nextch =? 0))).

Fixpoint lookup_loop (fuel : nat) (mem : list Z) (attr_list : nat) (name : list Z)
    (entry : option nat) : option (option nat) :=
  match fuel with
  | O => None
  | S fuel =>
      match entry with
      | None => Some None
      | Some e =>
          n ← strlen name;
          b ← exact_match mem attr_list e n;
          if b : bool then Some (Some e)
          else entry ← reverse_strstr mem attr_list name (Some e);
               lookup_loop fuel mem attr_list name entry
      end
  end.

(** The attributes of the entry whose name starts at [entry]. *)
Definition get_attributes (mem : list Z) (entry name_len : nat) (attributes : list Z)
    : option (list Z) :=
  let entry := (entry + name_len)%nat in
  k ← skip_blank (drop entry mem);
  let entry := (entry + k)%nat in
  c ← mem !! entry;
  '(len, attributes) ←
    (if negb (c =? ENV_ATTR_SEP) then Some (0%nat, attributes) else
     k ← skip_blank (drop (entry + 1) mem);
     let entry := (entry + 1 + k)%nat in
     delim ← strpbrk (drop entry mem) [ENV_ATTR_LIST_DELIM; 32; 0];
     len ← match delim with None => strlen (drop entry mem) | Some d => Some d end;
     attributes ← copy attributes (drop entry mem) len;
     Some (len, attributes));
  if (len <? length attributes)%nat then Some (<[len := 0]> attributes) else None.

(** [attributes] is the buffer, null or not; [attr_list] an offset in [mem]. *)
Definition env_attr_lookup (mem : list Z) (attr_list : option nat) (name : list Z)
    (attributes : option (list Z)) : option (Z * option (list Z)) :=
  match attributes, attr_list with
  | None, _ => Some (-1, None)
  | _, None => Some (1, attributes)
  | Some buf, Some p =>
      entry ← reverse_strstr mem p name None;
      entry ← lookup_loop (length mem + 1) mem p name entry;
      match entry with
      | Some e =>
          n ← strlen name;
          buf ← get_attributes mem e n buf;
          Some (0, Some buf)
      | None => Some (2, attributes)
      end
  end.

(** ** The list as a sequence of entries *)

Fixpoint drop_while (f : Z -> bool) (s : str) : str :=
  match s with
  | [] => []
  | c :: s' => if f c then drop_while f s' else s
  end.

Definition rtrim (s : str) : str := reverse (drop_while isspace (reverse s)).
Definition trim (s : str) : str := rtrim (drop_while isspace s).

Fixpoint split_on (c : Z) (s : str) : list str :=
  match s with
  | [] => [[]]
  | x :: s =>
      if x =? c then [] :: split_on c s else
      match split_on c s with
      | e :: l => (x :: e) :: l
      | [] => [[x]]
      end
  end.

(** What is before the first [c], and what is behind it. *)
Fixpoint cut (c : Z) (s : str) : str * option str :=
  match s with
  | [] => ([], None)
  | x :: s => if x =? c then ([], Some s) else (x :: (cut c s).1, (cut c s).2)
  end.

Definition entry_of (e : str) : str * option str :=
  (trim (cut ENV_ATTR_SEP e).1, option_map trim (cut ENV_ATTR_SEP e).2).

Definition entries (s : str) : list (str * option str) :=
  filter (fun e => e.1 <> []) (map entry_of (split_on ENV_ATTR_LIST_DELIM s)).

(** The callback on one entry after the other until it returns non-zero. *)
Fixpoint call_all {S} (callback : str -> option str -> S -> option (Z * S))
    (l : list (str * option str)) (s : S) : option (Z * S) :=
  match l with
  | [] => Some (0, s)
  | (name, attributes) :: l =>
      '(retval, s) ← callback name attributes s;
      if negb (retval =? 0) then Some (retval, s) else call_all callback l s
  end.

(** *** Lemmas on strings *)

Lemma strchr_spec s c x :
  is_str s -> 0 < c < 256 ->
  ((c ∉ s) /\ strchr (s ++ 0 :: x) c = Some None)
  \/ exists s1 s2, s = s1 ++ c :: s2 /\ (c ∉ s1) /\ strchr (s ++ 0 :: x) c = Some (Some (length s1)).
Proof.
  intros Hs Hc. induction Hs as [|d s Hd Hs IH]; cbn [app strchr];
    rewrite (wrap_small 8 c) by (split; lia).
  - left. destruct (Z.eqb_spec 0 c); [lia|]. split; [apply not_elem_of_nil|done].
  - destruct (Z.eqb_spec d c) as [->|Hne].
    { right. exists [], s. split_and!; [done|apply not_elem_of_nil|done]. }
    destruct (Z.eqb_spec d 0); [lia|]. destruct IH as [[Hn ->]|(s1 & s2 & -> & Hn & ->)].
    + left. split; [|done]. rewrite not_elem_of_cons. done.
    + right. exists (d :: s1), s2. split_and!; [done| |done]. rewrite not_elem_of_cons. done.
Qed.

Lemma split_on_none c s : c ∉ s -> split_on c s = [s].
Proof.
  induction s as [|x s IH]; [done|]. intros [Hx Hs]%not_elem_of_cons. cbn [split_on].
  destruct (Z.eqb_spec x c); [by subst|]. by rewrite IH.
Qed.

Lemma split_on_app c s1 s2 : c ∉ s1 -> split_on c (s1 ++ c :: s2) = s1 :: split_on c s2.
Proof.
  induction s1 as [|x s IH]; cbn [app split_on]; [by rewrite Z.eqb_refl|].
  intros [Hx Hs]%not_elem_of_cons.
  destruct (Z.eqb_spec x c); [by subst|]. by rewrite IH.
Qed.

Lemma cut_none c s : c ∉ s -> cut c s = (s, None).
Proof.
  induction s as [|x s IH]; [done|]. intros [Hx Hs]%not_elem_of_cons. cbn [cut].
  destruct (Z.eqb_spec x c); [by subst|]. by rewrite IH.
Qed.

Lemma cut_app c s1 s2 : c ∉ s1 -> cut c (s1 ++ c :: s2) = (s1, Some s2).
Proof.
  induction s1 as [|x s IH]; cbn [app cut]; [by rewrite Z.eqb_refl|].
  intros [Hx Hs]%not_elem_of_cons.
  destruct (Z.eqb_spec x c); [by subst|]. by rewrite IH.
Qed.

Lemma strcpy_spec e x : is_str e -> strcpy (replicate (length e + 1) 0) (e ++ 0 :: x) = Some (e ++ [0]).
Proof.
  induction 1 as [|c e Hc He IH]; [done|]. cbn [length Nat.add replicate app strcpy].
  destruct (Z.eqb_spec c 0); [lia|]. by rewrite IH.
Qed.

Lemma strncpy_spec e x :
  is_str e -> strncpy (replicate (length e + 1) 0) (e ++ x) (Z.of_nat (length e)) = Some (e ++ [0]).
Proof.
  induction 1 as [|c e Hc He IH]; [done|]. cbn [length Nat.add replicate app strncpy].
  rewrite Nat2Z.inj_succ. destruct (Z.eqb_spec (Z.succ (Z.of_nat (length e))) 0); [lia|].
  destruct (Z.eqb_spec c 0); [lia|].
  replace (Z.succ (Z.of_nat (length e)) - 1) with (Z.of_nat (length e)) by lia. by rewrite IH.
Qed.

Lemma read_str_spec s x : is_str s -> read_str (s ++ 0 :: x) = Some s.
Proof.
  induction 1 as [|c s Hc Hs IH]; [done|]. cbn [app read_str].
  destruct (Z.eqb_spec c 0); [lia|]. by rewrite IH.
Qed.

Lemma is_str_drop s k : is_str s -> is_str (drop k s).
Proof. apply Forall_drop. Qed.

Lemma is_str_take s k : is_str s -> is_str (take k s).
Proof. apply Forall_take. Qed.

#[local] Hint Resolve is_str_drop is_str_take : core.

(** *** White space *)

Lemma skip_spaces_spec s x :
  is_str s ->
  exists k, skip_spaces (s ++ 0 :: x) = Some k /\ (k <= length s)%nat
    /\ drop k s = drop_while isspace s.
Proof.
  induction 1 as [|c s Hc Hs IH]; [by exists 0%nat|]. cbn [app skip_spaces drop_while].
  destruct (isspace c); [|by exists 0%nat; split_and!; [done|lia|]].
  destruct IH as (k & -> & Hk & Hd). exists (S k). split_and!; [done|cbn [length]; lia|done].
Qed.

Lemma rtrim_snoc s c : rtrim (s ++ [c]) = if isspace c then rtrim s else s ++ [c].
Proof.
  unfold rtrim. rewrite reverse_snoc. cbn [drop_while]. destruct (isspace c); [done|].
  by rewrite reverse_cons, reverse_involutive.
Qed.

Lemma strim_end_spec s x : 
  strim_end (s ++ x) (length s) = Some (length (rtrim s)) /\ rtrim s `prefix_of` s.
Proof.
  revert x. induction s as [|c s IH] using rev_ind; intros x; [done|].
  rewrite length_app, Nat.add_1_r, rtrim_snoc. cbn [strim_end].
  rewrite <- app_assoc, lookup_app_r, Nat.sub_diag by lia. cbn.
  destruct (isspace c).
  - destruct (IH (c :: x)) as [-> Hp]. split; [done|]. by apply prefix_app_r.
  - split; [|done]. by rewrite length_app, Nat.add_1_r.
Qed.

Lemma strim_spec pre s post :
  is_str s ->
  exists k m, strim (pre ++ s ++ 0 :: post) (length pre) = Some ((length pre + k)%nat, pre ++ m ++ post)
    /\ length m = (length s + 1)%nat
    /\ forall post', read_str (drop k (m ++ post')) = Some (trim s).
Proof.
  intros Hs. unfold strim. rewrite drop_app_length.
  destruct (skip_spaces_spec s post Hs) as (k & -> & Hk & Hd). cbn [mbind option_bind].
  rewrite <- drop_drop, drop_app_length, drop_app_le by done.
  rewrite strlen_cstr by auto. cbn [mbind option_bind]. exists k.
  destruct (Nat.eqb_spec (length (drop k s)) 0) as [E|E].
  - exists (s ++ [0]). rewrite <- !app_assoc. split_and!; [done|by rewrite length_app|].
    intros post'. rewrite <- app_assoc, drop_app_le by done. cbn [app].
    rewrite read_str_spec by auto. f_equal. unfold trim. rewrite <- Hd.
    apply length_zero_iff_nil in E. by rewrite E.
  - destruct (strim_end_spec (drop k s) (0 :: post)) as [-> [t Ht]]. cbn [mbind option_bind].
    set (r := rtrim (drop k s)) in *.
    exists (<[(k + length r)%nat := 0]> (s ++ [0])).
    assert (Hlr : (k + length r <= length s)%nat).
    { apply (f_equal length) in Ht. rewrite length_drop, length_app in Ht. lia. }
    split_and!.
    + f_equal. f_equal. rewrite <- Nat.add_assoc, insert_app_r. f_equal.
      rewrite <- insert_app_l by (rewrite length_app; cbn; lia). by rewrite <- app_assoc.
    + by rewrite length_insert, length_app.
    + intros post'. unfold trim. rewrite <- Hd. fold r.
      assert (Htk : length (take k s) = k) by (rewrite length_take; lia).
      assert (Hins : exists t', <[(k + length r)%nat := 0]> (s ++ [0]) = take k s ++ r ++ 0 :: t').
      { assert (s ++ [0] = take k s ++ r ++ t ++ [0]) as ->
          by (rewrite (app_assoc r), <- Ht, app_assoc, take_drop; done).
        replace (k + length r)%nat with (length (take k s) + length r)%nat by lia.
        rewrite insert_app_r. replace (length r) with (length r + 0)%nat by lia.
        rewrite insert_app_r. destruct t; cbn; eauto. }
      destruct Hins as [t' ->]. rewrite <- !app_assoc, drop_app_length' by done. cbn [app].
      apply read_str_spec. apply (Forall_drop _ k) in Hs. rewrite Ht in Hs.
      by apply Forall_app in Hs as [? _].
Qed.

Lemma split_entry_spec e : is_str e -> split_entry (e ++ [0]) = Some (entry_of e).
Proof.
  intros He. unfold split_entry, entry_of.
  destruct (strchr_spec e ENV_ATTR_SEP [] He ltac:(done)) as [[Hn ->]|(n & a & -> & Hn & ->)];
    cbn [mbind option_bind].
  - rewrite (cut_none _ _ Hn). destruct (strim_spec [] e [] He) as (k & m & E & _ & Hr).
    cbn [app length Nat.add] in E. rewrite E. cbn [mbind option_bind]. by rewrite Hr.
  - rewrite (cut_app _ _ _ Hn). apply Forall_app in He as [Hn' Ha]. inversion Ha as [|? ? _ Ha']; subst.
    rewrite <- app_assoc. cbn [app]. rewrite insert_middle.
    destruct (strim_spec (n ++ [0]) a [] Ha') as (k & m & E & Hlm & Hr).
    rewrite length_app, <- app_assoc in E. cbn [app length] in E. rewrite E. cbn [mbind option_bind].
    rewrite <- app_assoc. cbn [app]. rewrite app_nil_r.
    destruct (strim_spec [] n m Hn') as (k' & m' & E' & Hlm' & Hr').
    cbn [app length Nat.add] in E'. rewrite E'. cbn [mbind option_bind]. rewrite Hr'.
    cbn [mbind option_bind]. rewrite <- drop_drop, drop_app_length' by lia.
    specialize (Hr []). rewrite app_nil_r in Hr. rewrite Hr. done.
Qed.

(** *** The walk *)

Lemma copy_entry_last e x :
  is_str e -> copy_entry (e ++ 0 :: x) None = Some (if decide (e = []) then None else Some (e ++ [0])).
Proof.
  intros He. unfold copy_entry. rewrite strlen_cstr by done. cbn [mbind option_bind].
  destruct e as [|c e]; [done|]. rewrite decide_False by done.
  destruct (Nat.eqb_spec (length (c :: e)) 0); [done|]. by rewrite strcpy_spec.
Qed.

Lemma copy_entry_inner e x :
  is_str e ->
  copy_entry (e ++ ENV_ATTR_LIST_DELIM :: x) (Some (length e))
  = Some (if decide (e = []) then None else Some (e ++ [0])).
Proof.
  intros He. unfold copy_entry. destruct e as [|c e]; [done|]. rewrite decide_False by done.
  destruct (Nat.eqb_spec (length (c :: e)) 0); [done|]. rewrite strncpy_spec by done.
  cbn [mbind option_bind]. by rewrite insert_middle.
Qed.

Section WalkSpec.
Context {S : Type} (callback : str -> option str -> S -> option (Z * S)).

Lemma walk_entry_spec e s :
  is_str e ->
  walk_entry callback (if decide (e = []) then None else Some (e ++ [0])) s
  = call_all callback (filter (fun e => e.1 <> []) [entry_of e]) s.
Proof.
  intros He. destruct (decide (e = [])) as [->|_]; [done|].
  unfold walk_entry. rewrite split_entry_spec by done. cbn [mbind option_bind].
  destruct (entry_of e) as [[|c n] a]; [done|].
  rewrite filter_cons_True by done. rewrite filter_nil. cbn [length Nat.eqb call_all].
  destruct (callback (c :: n) a s) as [[r s']|]; [|done]. cbn [mbind option_bind].
  by destruct (Z.eqb_spec r 0) as [->|].
Qed.

Lemma call_all_app l1 l2 s :
  call_all callback (l1 ++ l2) s
  = '(r, s) ← call_all callback l1 s; if negb (r =? 0) then Some (r, s) else call_all callback l2 s.
Proof.
  revert s. induction l1 as [|[n a] l1 IH]; intros s; [done|]. cbn [app call_all].
  destruct (callback n a s) as [[r s']|]; [|done]. cbn [mbind option_bind].
  destruct (Z.eqb_spec r 0) as [->|Hr]; cbn [negb]; [done|].
  cbn [mbind option_bind]. by destruct (Z.eqb_spec r 0).
Qed.

Lemma env_attr_walk_loop_spec fuel s x st :
  is_str s -> (length s < fuel)%nat ->
  env_attr_walk_loop callback fuel (s ++ 0 :: x) st = call_all callback (entries s) st.
Proof.
  intros Hs Hf. revert s Hs st Hf. induction fuel as [|fuel IH]; intros s Hs st Hf; [lia|].
  cbn [env_attr_walk_loop].
  destruct (strchr_spec s ENV_ATTR_LIST_DELIM x Hs ltac:(done))
    as [[Hn ->]|(e & s' & -> & Hn & ->)]; cbn [mbind option_bind].
  - rewrite copy_entry_last by done. cbn [mbind option_bind]. rewrite walk_entry_spec by done.
    unfold entries. rewrite split_on_none by done. cbn [map].
    destruct (call_all callback (filter _ [_]) st) as [[r st']|]; [|done]. cbn [mbind option_bind].
    by destruct (Z.eqb_spec r 0) as [->|].
  - apply Forall_app in Hs as [He Hs']. inversion Hs' as [|? ? _ Hs'']; subst.
    rewrite <- app_assoc. cbn [app]. rewrite copy_entry_inner by done. cbn [mbind option_bind].
    rewrite walk_entry_spec by done. unfold entries. rewrite split_on_app by done. cbn [map].
    change (entry_of e :: map entry_of ?l) with ([entry_of e] ++ map entry_of l).
    rewrite (filter_app _ [entry_of e] (map entry_of _)), call_all_app.
    destruct (call_all callback (filter _ [_]) st) as [[r st']|]; [|done]. cbn [mbind option_bind].
    destruct (negb (r =? 0)); [done|].
    rewrite Nat.add_1_r. change (e ++ ?c :: ?l) with (e ++ [c] ++ l). rewrite app_assoc.
    rewrite drop_app_length' by (rewrite length_app; cbn; lia).
    rewrite IH; [done|done|]. rewrite length_app in Hf. cbn [length] in Hf. lia.
Qed.

(** [env_attr_walk] splits the list at its commas and every entry at its
    first colon, removes white space around names and attributes, and calls
    the callback on the entries with a name, in order, until it returns
    non-zero; it ends and stays inside its buffers. *)
Theorem env_attr_walk_correct s x st :
  is_str s ->
  env_attr_walk callback (Some (s ++ 0 :: x)) st = call_all callback (entries s) st.
Proof.
  intros Hs. apply env_attr_walk_loop_spec; [done|]. rewrite length_app. cbn. lia.
Qed.

End WalkSpec.

(** ** What a lookup finds *)

Definition blank (c : Z) : bool := c =? 32.

Definition trim_blank (s : str) : str := reverse (drop_while blank (reverse (drop_while blank s))).

Fixpoint take_while (f : Z -> bool) (s : str) : str :=
  match s with
  | [] => []
  | c :: s => if f c then c :: take_while f s else []
  end.

(** The attributes end at the first blank or comma. *)
Definition in_attr (c : Z) : bool := negb (c =? ENV_ATTR_LIST_DELIM) && negb (c =? 32).

Definition attr_word (a : option str) : str :=
  match a with Some a => take_while in_attr (drop_while blank a) | None => [] end.

(** The attributes of entry [e] if it is an entry for [name]. *)
Definition attr_for (name e : str) : option str :=
  if decide (trim_blank (cut ENV_ATTR_SEP e).1 = name)
  then Some (attr_word (cut ENV_ATTR_SEP e).2) else None.

(** The last entry for [name] counts. *)
Definition last_attr (name s : str) : option str :=
  last (omap (attr_for name) (split_on ENV_ATTR_LIST_DELIM s)).

(** A name [env_attr_lookup] can find. *)
Definition plain (c : Z) : Prop := 0 < c < 256 /\ c <> 32 /\ c <> ENV_ATTR_LIST_DELIM /\ c <> ENV_ATTR_SEP.

#[global] Instance plain_dec c : Decision (plain c).
Proof. unfold plain. apply _. Defined.

(** *** Occurrences of the name *)

Definition lead_ok (l : str) : bool :=
  match drop_while blank (reverse l) with [] => true | c :: _ => c =? ENV_ATTR_LIST_DELIM end.

Definition next_ok (r : str) : bool :=
  match drop_while blank r with
  | [] => true
  | c :: _ => (c =? ENV_ATTR_SEP) || (c =? ENV_ATTR_LIST_DELIM)
  end.

Definition attr_at (r : str) : str :=
  match drop_while blank r with
  | [] => []
  | c :: a => if c =? ENV_ATTR_SEP then attr_word (Some a) else []
  end.

Lemma drop_while_app f l r :
  drop_while f (l ++ r) = match drop_while f l with [] => drop_while f r | x => x ++ r end.
Proof. induction l as [|c l IH]; [done|]. cbn [app drop_while]. by destruct (f c). Qed.

Lemma drop_while_split f s : exists l, s = l ++ drop_while f s /\ Forall (fun c => f c = true) l.
Proof.
  induction s as [|c s (l & E & Hl)]; [by exists []|]. cbn [drop_while]. destruct (f c) eqn:Hf.
  - exists (c :: l). cbn [app]. split; [by rewrite <- E|by constructor].
  - by exists [].
Qed.

Lemma drop_while_all f l r : Forall (fun c => f c = true) l -> drop_while f (l ++ r) = drop_while f r.
Proof. induction 1 as [|c l Hc Hl IH]; [done|]. cbn [app drop_while]. by rewrite Hc. Qed.

Lemma drop_while_id f c s : f c = false -> drop_while f (c :: s) = c :: s.
Proof. intros Hc. cbn [drop_while]. by rewrite Hc. Qed.

Lemma drop_while_head f s c r : drop_while f s = c :: r -> f c = false.
Proof. induction s as [|x s IH]; [done|]. cbn [drop_while]. destruct (f x) eqn:E; [done|]. by intros [= -> _]. Qed.

Section Name.
Context (name : str).
Hypothesis name_plain : Forall plain name.
Hypothesis name_nonempty : name <> [].

(** An occurrence of the name that is a whole name of an entry; a list that
    starts with a blank counts as if a comma stood before it. *)
Definition good (s : str) (L R : str) : Prop :=
  s = L ++ name ++ R /\ lead_ok L = true /\ next_ok R = true.

Lemma name_no_char c : ~ plain c -> c ∉ name.
Proof. intros Hc Hin. rewrite Forall_forall in name_plain. by apply Hc, name_plain. Qed.

Lemma name_drop_while r : drop_while blank (name ++ r) = name ++ r.
Proof.
  destruct name as [|c n]; [done|]. inversion name_plain as [|? ? (_ & Hc & _) _]; subst.
  cbn [app]. apply drop_while_id. by apply Z.eqb_neq.
Qed.

Lemma name_rev_drop_while r : drop_while blank (reverse name ++ r) = reverse name ++ r.
Proof.
  destruct (reverse name) as [|c n] eqn:E.
  { destruct name; [done|]. rewrite reverse_cons in E. by destruct (reverse l). }
  assert (Hc : c ∈ name) by (rewrite <- elem_of_reverse, E; left).
  rewrite Forall_forall in name_plain. destruct (name_plain c Hc) as (_ & Hb & _).
  cbn [app]. apply drop_while_id. by apply Z.eqb_neq.
Qed.

Lemma trim_blank_iff s :
  trim_blank s = name <->
  exists l r, s = l ++ name ++ r /\ Forall (fun c => blank c = true) l
    /\ Forall (fun c => blank c = true) r.
Proof.
  unfold trim_blank. split.
  - destruct (drop_while_split blank s) as (l & E & Hl).
    destruct (drop_while_split blank (reverse (drop_while blank s))) as (r & E' & Hr).
    intros Hn. exists l, (reverse r). split_and!; [|done|by apply Forall_reverse].
    rewrite E at 1. f_equal. apply (f_equal reverse) in E'.
    by rewrite reverse_involutive, reverse_app, Hn in E'.
  - intros (l & r & -> & Hl & Hr). rewrite drop_while_all, name_drop_while by done.
    rewrite reverse_app, drop_while_all by (by apply Forall_reverse).
    by rewrite <- (app_nil_r (reverse name)), name_rev_drop_while, app_nil_r, reverse_involutive.
Qed.

Lemma lead_ok_blank L : lead_ok L = true -> ENV_ATTR_LIST_DELIM ∉ L -> Forall (fun c => blank c = true) L.
Proof.
  unfold lead_ok. intros Hl Hn. destruct (drop_while_split blank (reverse L)) as (l & E & Hb).
  destruct (drop_while blank (reverse L)) as [|c r].
  - rewrite app_nil_r in E. rewrite <- (reverse_involutive L), E. by apply Forall_reverse.
  - apply Z.eqb_eq in Hl as ->. exfalso. apply Hn. rewrite <- elem_of_reverse, E. set_solver.
Qed.

Lemma blank_lead_ok l : Forall (fun c => blank c = true) l -> lead_ok l = true.
Proof.
  intros Hl. unfold lead_ok. by rewrite <- (app_nil_r (reverse l)), drop_while_all
    by (by apply Forall_reverse).
Qed.

Lemma blank_no_sep l : Forall (fun c => blank c = true) l -> ENV_ATTR_SEP ∉ l.
Proof. rewrite Forall_forall. intros Hl Hin. by specialize (Hl _ Hin). Qed.

Lemma good_attr_for e L R :
  ENV_ATTR_LIST_DELIM ∉ e -> good e L R -> attr_for name e = Some (attr_at R).
Proof.
  intros Hn (-> & Hl & Hr). rewrite !not_elem_of_app in Hn. destruct Hn as (HnL & Hnn & HnR).
  pose proof (lead_ok_blank L Hl HnL) as HL. pose proof (blank_no_sep L HL) as HsL.
  assert (Hsn : ENV_ATTR_SEP ∉ name) by (apply name_no_char; unfold plain; naive_solver).
  unfold attr_for, attr_at, next_ok in *.
  destruct (drop_while_split blank R) as (r & E & Hb). pose proof (blank_no_sep r Hb) as Hsr.
  destruct (drop_while blank R) as [|c a].
  - rewrite app_nil_r in E. subst R. rewrite cut_none by (rewrite !not_elem_of_app; done).
    rewrite decide_True; [done|]. apply trim_blank_iff. eauto.
  - subst R. assert (c = ENV_ATTR_SEP) as ->.
    { apply orb_true_iff in Hr as [Hr%Z.eqb_eq|Hr%Z.eqb_eq]; [done|]. set_solver. }
    replace (L ++ name ++ r ++ ENV_ATTR_SEP :: a) with ((L ++ name ++ r) ++ ENV_ATTR_SEP :: a)
      by (by rewrite <- !app_assoc).
    rewrite cut_app by (rewrite !not_elem_of_app; done).
    rewrite decide_True; [done|]. apply trim_blank_iff. eauto.
Qed.

Lemma cut_inv c s : s = match (cut c s).2 with Some b => (cut c s).1 ++ c :: b | None => (cut c s).1 end.
Proof.
  induction s as [|x s IH]; [done|]. cbn [cut]. destruct (Z.eqb_spec x c) as [->|]; [done|].
  cbn [fst snd]. rewrite IH at 1. by destruct (cut c s).2.
Qed.

Lemma attr_for_good e a : attr_for name e = Some a -> exists L R, good e L R /\ attr_at R = a.
Proof.
  unfold attr_for. case_decide as Ht; [|done]. intros [= <-].
  apply trim_blank_iff in Ht as (l & r & E & Hl & Hr). pose proof (cut_inv ENV_ATTR_SEP e) as He.
  exists l, (r ++ match (cut ENV_ATTR_SEP e).2 with Some b => ENV_ATTR_SEP :: b | None => [] end).
  unfold good, next_ok, attr_at. rewrite drop_while_all by done.
  split; [split_and!|]; [|by apply blank_lead_ok|by destruct (cut ENV_ATTR_SEP e).2
    |by destruct (cut ENV_ATTR_SEP e).2].
  rewrite E in He. rewrite He at 1. destruct (cut ENV_ATTR_SEP e).2.
  - by rewrite <- !app_assoc.
  - by rewrite app_nil_r.
Qed.

Lemma good_unique e L R L' R' :
  ENV_ATTR_LIST_DELIM ∉ e -> good e L R -> good e L' R' -> length L = length L'.
Proof.
  intros Hn (E & Hl & _) (E' & Hl' & _).
  assert (Hlen : forall M Q, e = M ++ name ++ Q -> lead_ok M = true ->
    length (drop_while blank e) = (length e - length M)%nat).
  { intros M Q HM Hok. rewrite HM at 1. rewrite HM in Hn.
    rewrite drop_while_all, name_drop_while by (apply lead_ok_blank; set_solver).
    rewrite HM, !length_app. lia. }
  pose proof (Hlen _ _ E Hl). pose proof (Hlen _ _ E' Hl').
  apply (f_equal length) in E, E'. rewrite !length_app in E, E'. lia.
Qed.

Lemma lead_ok_app e L : lead_ok (e ++ ENV_ATTR_LIST_DELIM :: L) = lead_ok L.
Proof.
  unfold lead_ok. rewrite reverse_app, reverse_cons, <- app_assoc, drop_while_app.
  by destruct (drop_while blank (reverse L)).
Qed.

Lemma next_ok_app R s : next_ok (R ++ ENV_ATTR_LIST_DELIM :: s) = next_ok R.
Proof. unfold next_ok. rewrite drop_while_app. by destruct (drop_while blank R). Qed.

Lemma take_while_comma a s : take_while in_attr (a ++ ENV_ATTR_LIST_DELIM :: s) = take_while in_attr a.
Proof. induction a as [|c a IH]; [done|]. cbn [app take_while]. by rewrite IH. Qed.

Lemma attr_at_app R s : attr_at (R ++ ENV_ATTR_LIST_DELIM :: s) = attr_at R.
Proof.
  unfold attr_at. rewrite drop_while_app. destruct (drop_while blank R) as [|c a]; [done|].
  cbn [app]. destruct (c =? ENV_ATTR_SEP); [|done]. unfold attr_word.
  rewrite drop_while_app. destruct (drop_while blank a) as [|d b] eqn:E; [done|].
  apply (take_while_comma (d :: b)).
Qed.

Lemma good_app e s L R :
  ENV_ATTR_LIST_DELIM ∉ e ->
  good (e ++ ENV_ATTR_LIST_DELIM :: s) L R <->
  (exists R0, R = R0 ++ ENV_ATTR_LIST_DELIM :: s /\ good e L R0)
  \/ (exists L0, L = e ++ ENV_ATTR_LIST_DELIM :: L0 /\ good s L0 R).
Proof.
  intros Hn. assert (Hc : ENV_ATTR_LIST_DELIM ∉ name) by (apply name_no_char; unfold plain; naive_solver).
  unfold good. split.
  - intros (E & Hl & Hr). apply app_eq_inv in E as [(k & -> & E)|(k & -> & E)].
    + left. symmetry in E. apply app_eq_inv in E as [(k' & -> & E)|(k' & E' & E)].
      * exists k'. rewrite E, next_ok_app in Hr. done.
      * destruct k' as [|c k']; [|exfalso]; cbn [app] in *.
        -- rewrite app_nil_r in E'. subst k R. exists []. cbn [app]. rewrite app_nil_r. done.
        -- injection E as <- _. set_solver.
    + right. destruct k as [|c k]; cbn [app] in E.
      * destruct name; [done|]. injection E as <- _. set_solver.
      * injection E as <- ->. exists k. by rewrite lead_ok_app in Hl.
  - intros [(R0 & -> & -> & Hl & Hr)|(L0 & -> & -> & Hl & Hr)].
    + by rewrite next_ok_app, <- !app_assoc.
    + by rewrite lead_ok_app, <- !app_assoc.
Qed.

Lemma split_on_inv (c : Z) (s : str) : (c ∉ s) \/ exists s1 s2, s = s1 ++ c :: s2 /\ (c ∉ s1).
Proof.
  destruct (decide (c ∈ s)) as [Hin|]; [right|by left].
  apply list_elem_of_split_l in Hin as (s1 & s2 & -> & Hn). eauto.
Qed.

Lemma last_attr_app e s :
  ENV_ATTR_LIST_DELIM ∉ e ->
  last_attr name (e ++ ENV_ATTR_LIST_DELIM :: s)
  = match last_attr name s with Some a => Some a | None => attr_for name e end.
Proof.
  intros Hn. unfold last_attr. rewrite split_on_app by done. cbn [omap list_omap].
  destruct (attr_for name e) as [a|]; [rewrite last_cons|]; by destruct (last _).
Qed.

(** The last good occurrence holds the attributes of the last entry. *)
Lemma last_attr_spec s :
  match last_attr name s with
  | Some a => exists L R, good s L R /\ attr_at R = a
                /\ forall L' R', good s L' R' -> (length L' <= length L)%nat
  | None => forall L R, ~ good s L R
  end.
Proof.
  remember (split_on ENV_ATTR_LIST_DELIM s) as l eqn:El. revert s El.
  induction l as [|e l IH]; intros s El.
  { destruct s as [|c s]; [done|]. cbn in El. destruct (c =? _); [done|]. by destruct (split_on _ s). }
  destruct (split_on_inv ENV_ATTR_LIST_DELIM s) as [Hn|(e' & s' & -> & Hn)].
  - unfold last_attr. rewrite split_on_none by done. cbn.
    destruct (attr_for name s) as [a|] eqn:Ha; cbn.
    + destruct (attr_for_good _ _ Ha) as (L & R & Hg & Hat). exists L, R. split_and!; [done..|].
      intros L' R' Hg'. by rewrite (good_unique _ _ _ _ _ Hn Hg Hg').
    + intros L R Hg. by rewrite (good_attr_for _ _ _ Hn Hg) in Ha.
  - rewrite split_on_app in El by done. injection El as -> ->.
    specialize (IH s' eq_refl). rewrite last_attr_app by done.
    destruct (last_attr name s') as [a|].
    + destruct IH as (L & R & Hg & Hat & Hmax). exists (e' ++ ENV_ATTR_LIST_DELIM :: L), R.
      split_and!; [apply good_app; eauto|done|]. intros L' R' Hg'.
      apply good_app in Hg' as [(R0 & -> & (Hg' & _))|(L0 & -> & Hg')]; [..|done].
      * apply (f_equal length) in Hg'. rewrite !length_app in *. lia.
      * apply Hmax in Hg'. rewrite !length_app. cbn [length]. lia.
    + destruct (attr_for name e') as [a|] eqn:Ha.
      * destruct (attr_for_good _ _ Ha) as (L & R & Hg & Hat).
        exists L, (R ++ ENV_ATTR_LIST_DELIM :: s').
        split_and!; [apply good_app; eauto|by rewrite attr_at_app|].
        intros L' R' Hg'. apply good_app in Hg' as [(R0 & -> & Hg')|(L0 & -> & Hg')]; [..|done].
        -- by rewrite (good_unique _ _ _ _ _ Hn Hg Hg').
        -- by apply IH in Hg'.
      * intros L R Hg. apply good_app in Hg as [(R0 & -> & Hg)|(L0 & -> & Hg)]; [..|done].
        -- by rewrite (good_attr_for _ _ _ Hn Hg) in Ha.
        -- by apply IH in Hg.
Qed.

(** *** The search *)

Lemma occurs_at_split s k :
  occurs_at s name k -> s = take k s ++ name ++ drop (k + length name) s /\ length (take k s) = k.
Proof.
  intros [Hk Ht]. split; [|rewrite length_take; lia].
  rewrite <- Ht at 1. rewrite <- drop_drop, take_drop, take_drop. done.
Qed.

Lemma good_occurs s L R : good s L R -> occurs_at s name (length L).
Proof.
  intros (-> & _). split; [rewrite !length_app; lia|].
  by rewrite drop_app_length, take_app_length.
Qed.

(** A later occurrence does not overlap a whole name. *)
Lemma good_no_overlap s L R k :
  good s L R -> occurs_at s name k -> (length L < k)%nat -> (length L + length name <= k)%nat.
Proof.
  intros (-> & _ & Hr) [Hlen Ht] Hk. destruct (decide (length L + length name <= k)%nat); [done|].
  exfalso. rewrite !length_app in Hlen. destruct R as [|c R]; [cbn in Hlen; lia|].
  assert (Hin : name !! (length L + length name - k)%nat = Some c).
  { transitivity (take (length name) (drop k (L ++ name ++ c :: R)) !! (length L + length name - k)%nat);
      [by rewrite Ht|]. rewrite lookup_take_lt by lia. rewrite lookup_drop.
    rewrite !lookup_app_r by lia.
    replace (k + (length L + length name - k) - length L - length name)%nat with 0%nat by lia. done. }
  apply list_elem_of_lookup_2 in Hin. rewrite Forall_forall in name_plain.
  destruct (name_plain c Hin) as (_ & Hb & Hd & Hs). unfold next_ok in Hr.
  rewrite drop_while_id in Hr by (by apply Z.eqb_neq).
  apply orb_true_iff in Hr as [Hr%Z.eqb_eq|Hr%Z.eqb_eq]; done.
Qed.

Lemma name_is_str : is_str name.
Proof. eapply Forall_impl; [exact name_plain|]. by intros c (Hc & _). Qed.

Lemma skip_blank_spec r x :
  is_str r ->
  exists k, skip_blank (r ++ 0 :: x) = Some k /\ (k <= length r)%nat /\ drop k r = drop_while blank r.
Proof.
  induction 1 as [|c r Hc Hr IH]; [by exists 0%nat|]. cbn [app skip_blank drop_while].
  unfold blank at 1. destruct (c =? 32); [|by exists 0%nat; split_and!; [done|lia|]].
  destruct IH as (k & -> & Hk & Hd). exists (S k). split_and!; [done|cbn [length]; lia|done].
Qed.

Lemma back_spaces_spec l x : back_spaces (l ++ x) (length l) = head (drop_while blank (reverse l)).
Proof.
  revert x. induction l as [|c l IH] using rev_ind; intros x; [done|].
  rewrite length_app, Nat.add_1_r, reverse_snoc. cbn [back_spaces drop_while].
  rewrite <- app_assoc, lookup_app_r, Nat.sub_diag by lia. cbn [app lookup list_lookup mbind option_bind].
  unfold blank at 1. destruct (c =? 32); [apply IH|done].
Qed.

Lemma strpbrk_spec s x :
  is_str s ->
  exists d, strpbrk (s ++ 0 :: x) [ENV_ATTR_LIST_DELIM; 32; 0] = Some d
    /\ default (length s) d = length (take_while in_attr s).
Proof.
  induction 1 as [|c s Hc Hs IH]; [by exists None|]. cbn [app strpbrk take_while].
  destruct (Z.eqb_spec c 0); [lia|]. destruct IH as (d & -> & Hd).
  change (in_set c [ENV_ATTR_LIST_DELIM; 32; 0])
    with (if c =? ENV_ATTR_LIST_DELIM then Some true else if c =? 32 then Some true else Some false).
  unfold in_attr at 1. destruct (c =? ENV_ATTR_LIST_DELIM); [by exists (Some 0%nat)|].
  destruct (c =? 32); [by exists (Some 0%nat)|]. cbn [mbind option_bind negb andb length].
  exists (option_map S d). split; [done|]. rewrite <- Hd. by destruct d.
Qed.

Lemma copy_overrun dest src n : (length dest < n)%nat -> copy dest src n = None.
Proof.
  revert dest src. induction n as [|n IH]; intros [|d dest] [|c src] Hn; cbn in Hn |- *; try done; try lia.
  rewrite IH by lia. done.
Qed.

Lemma take_while_prefix f s : take (length (take_while f s)) s = take_while f s.
Proof. induction s as [|c s IH]; [done|]. cbn [take_while]. destruct (f c); [|done]. cbn. by rewrite IH. Qed.

Section Lookup.
Context (pre s post y : list Z).
Hypothesis s_str : is_str s.
Hypothesis pre_ok : drop_while blank (reverse pre) <> [].
Hypothesis s_lead : head s <> Some 32.

Let mem := pre ++ s ++ 0 :: post.
Let P := length pre.
Let nm := name ++ 0 :: y.

Lemma mem_drop a : (a <= length s)%nat -> drop (P + a) mem = drop a s ++ 0 :: post.
Proof.
  intros Ha. unfold mem, P. rewrite <- drop_drop, drop_app_length, drop_app_le by done. done.
Qed.

Definition within (q : option nat) (k : nat) : Prop :=
  match q with Some q => (k + length name <= q)%nat | None => True end.

Lemma occurs_at_drop a k : occurs_at (drop a s) name k <-> occurs_at s name (a + k) /\ (a <= length s)%nat.
Proof.
  unfold occurs_at. rewrite length_drop, drop_drop.
  destruct name; [done|]. cbn [length]. split; [intros [? ?]|intros [[? ?] ?]]; split_and!; done || lia.
Qed.

Lemma reverse_strstr_loop_spec fuel a q res :
  (a <= length s)%nat -> (length s - a < fuel)%nat ->
  exists r, reverse_strstr_loop fuel mem (P + a) nm (option_map (Nat.add P) q) res = Some r
    /\ ((r = res /\ forall k, (a <= k)%nat -> occurs_at s name k -> ~ within q k)
        \/ exists k, r = Some (P + k)%nat /\ (a <= k)%nat /\ occurs_at s name k /\ within q k
             /\ forall k', (k < k')%nat -> occurs_at s name k' -> ~ within q k').
Proof.
  intros Ha Hf. revert a res Ha Hf. induction fuel as [|fuel IH]; intros a res Ha Hf; [lia|].
  cbn [reverse_strstr_loop]. rewrite mem_drop by done.
  destruct (strstr_spec (drop a s) name post y) as (o & Eo & Ho); [auto|apply name_is_str|].
  fold nm in Eo. rewrite Eo. cbn [mbind option_bind]. destruct o as [k|].
  - assert (strlen nm = Some (length name)) as -> by (apply strlen_cstr, name_is_str).
    cbn [mbind option_bind].
    destruct Ho as [[Hocc _]%occurs_at_drop Hfirst].
    assert (Hno : forall k', (a <= k')%nat -> (k' < a + k)%nat -> ~ occurs_at s name k').
    { intros k' H1 H2 Hk'. apply (Hfirst (k' - a)%nat); [lia|]. apply occurs_at_drop.
      replace (a + (k' - a))%nat with k' by lia. done. }
    set (b := match option_map _ q with Some p => (p <? P + a + k + length name)%nat | None => false end).
    assert (Hb : if b then ~ within q (a + k) else within q (a + k)).
    { unfold b, within. destruct q as [q|]; cbn [option_map]; [|done].
      destruct (Nat.ltb_spec (P + q) (P + a + k + length name)); lia. }
    destruct b.
    + exists res. split; [done|]. left. split; [done|]. intros k' Hk' Hocc' Hw.
      apply Hb. destruct (decide (k' < a + k)%nat); [by apply Hno in Hocc'|].
      unfold within in *. destruct q; [lia|done].
    + assert (Hlt : (a + k < length s)%nat).
      { destruct Hocc as [Hl _]. destruct name; [done|]. cbn [length] in Hl. lia. }
      replace (P + a + k + 1)%nat with (P + (a + k + 1))%nat by lia.
      destruct (IH (a + k + 1)%nat (Some (P + a + k)%nat)) as (r & E & Hr); [lia|lia|].
      exists r. split; [done|]. right.
      destruct Hr as [[-> Hr]|(k' & -> & Hk' & Hocc' & Hw' & Hmax)].
      * exists (a + k)%nat. split_and!; [f_equal; lia|lia|done|done|]. intros k' Hk'. apply Hr. lia.
      * exists k'. split_and!; [done|lia|done..].
  - exists res. split; [done|]. left. split; [done|]. intros k Hk Hocc _.
    apply (Ho (k - a)%nat), occurs_at_drop. replace (a + (k - a))%nat with k by lia. done.
Qed.

Lemma reverse_strstr_spec q :
  exists r, reverse_strstr mem P nm (option_map (Nat.add P) q) = Some (option_map (Nat.add P) r)
    /\ match r with
       | None => forall k, occurs_at s name k -> ~ within q k
       | Some k => occurs_at s name k /\ within q k
                   /\ forall k', (k < k')%nat -> occurs_at s name k' -> ~ within q k'
       end.
Proof.
  unfold reverse_strstr. assert (exists c, head nm = Some c /\ c <> 0) as (c & -> & Hc).
  { pose proof name_is_str as Hn. unfold nm. destruct name as [|c n]; [done|].
    inversion Hn; subst. exists c. split; [done|lia]. }
  cbn [mbind option_bind]. destruct (Z.eqb_spec c 0); [done|].
  destruct (reverse_strstr_loop_spec (length mem + 1) 0 q None) as (r & E & Hr);
    [lia|unfold mem; rewrite !length_app; lia|].
  rewrite Nat.add_0_r in E. rewrite E.
  destruct Hr as [[-> Hr]|(k & -> & _ & Hr)].
  - exists None. split; [done|]. intros k. apply Hr. lia.
  - by exists (Some k).
Qed.

Lemma mem_split L R : s = L ++ name ++ R -> mem = (pre ++ L) ++ name ++ R ++ 0 :: post.
Proof. intros ->. unfold mem. by rewrite <- !app_assoc. Qed.

Lemma str_R L R : s = L ++ name ++ R -> is_str R.
Proof. intros E. rewrite E in s_str. by apply Forall_app in s_str as [_ [_ ?]%Forall_app]. Qed.

Lemma mem_R L R j :
  s = L ++ name ++ R -> mem !! (P + length L + length name + j)%nat = (R ++ 0 :: post) !! j.
Proof.
  intros E. rewrite (mem_split L R E). unfold P. rewrite !lookup_app_r by (rewrite ?length_app; lia).
  f_equal. rewrite length_app. lia.
Qed.

Lemma mem_drop_R L R :
  s = L ++ name ++ R -> drop (P + length L + length name) mem = R ++ 0 :: post.
Proof.
  intros E. rewrite (mem_split L R E), app_assoc. apply drop_app_length'.
  unfold P. rewrite !length_app. lia.
Qed.

(** After the blanks: the byte [skip_blank] stops at. *)
Lemma after_blanks R j x :
  (j <= length R)%nat -> drop j R = drop_while blank R ->
  (R ++ 0 :: x) !! j = Some (default 0 (head (drop_while blank R))).
Proof.
  intros Hj Hd. rewrite <- Hd. rewrite <- (Nat.add_0_r j) at 1. rewrite <- lookup_drop.
  rewrite drop_app_le by done. by destruct (drop j R).
Qed.

Lemma exact_match_spec L R :
  s = L ++ name ++ R ->
  exact_match mem P (P + length L) (length name) = Some (lead_ok L && next_ok R).
Proof.
  intros E. unfold exact_match.
  assert (back_spaces mem (P + length L) = head (drop_while blank (reverse (pre ++ L)))) as ->.
  { rewrite (mem_split L R E). unfold P. rewrite <- length_app. apply back_spaces_spec. }
  rewrite (mem_drop_R L R E).
  destruct (skip_blank_spec R post (str_R _ _ E)) as (j & -> & Hj & Hd).
  assert (Hp : exists c, head (drop_while blank (reverse (pre ++ L))) = Some c
    /\ ((P + length L =? P)%nat || (c =? ENV_ATTR_LIST_DELIM)) = lead_ok L).
  { rewrite reverse_app, drop_while_app. unfold lead_ok.
    destruct (drop_while blank (reverse L)) as [|c l] eqn:El.
    - destruct L as [|c L].
      + destruct (drop_while blank (reverse pre)) as [|c l]; [done|]. exists c.
        cbn [length]. by rewrite Nat.add_0_r, Nat.eqb_refl.
      + exfalso. destruct (drop_while_split blank (reverse (c :: L))) as (l & E' & Hb).
        rewrite El, app_nil_r in E'. rewrite <- E', Forall_reverse in Hb.
        apply Forall_cons_1 in Hb as [Hc _]. apply Z.eqb_eq in Hc as ->. by rewrite E in s_lead.
    - exists c. split; [done|]. destruct L as [|d L]; [done|].
      by destruct (Nat.eqb_spec (P + length (d :: L)) P); [cbn [length] in *; lia|]. }
  destruct Hp as (c & -> & <-). cbn [mbind option_bind]. rewrite (mem_R L R j E).
  rewrite (after_blanks R j post) by done. cbn [mbind option_bind]. do 2 f_equal. unfold next_ok.
  destruct (drop_while blank R) as [|d r] eqn:Er; [done|]. cbn [head default from_option id].
  assert (d <> 0).
  { destruct (drop_while_split blank R) as (l & El & _). rewrite Er in El.
    pose proof (str_R _ _ E) as HR. rewrite El in HR. apply Forall_app in HR as [_ HR].
    apply Forall_cons_1 in HR as [? _]. lia. }
  destruct (Z.eqb_spec d 0); [done|]. by rewrite orb_false_r.
Qed.

Definition store_attr (a buf : list Z) : option (list Z) :=
  if (length a <? length buf)%nat then Some (a ++ 0 :: drop (length a + 1) buf) else None.

Lemma store_attr_spec a rest buf :
  (copy buf (a ++ rest) (length a) ≫= fun buf =>
   if (length a <? length buf)%nat then Some (<[length a := 0]> buf) else None) = store_attr a buf.
Proof.
  unfold store_attr. destruct (Nat.ltb_spec (length a) (length buf)) as [Hlt|Hge].
  - rewrite copy_spec by (rewrite ?length_app; lia). cbn [mbind option_bind].
    rewrite take_app_length. rewrite length_app, length_drop.
    destruct (Nat.ltb_spec (length a) (length a + (length buf - length a))); [|lia]. f_equal.
    rewrite Nat.add_1_r. destruct (drop (length a) buf) as [|d r] eqn:E.
    { apply (f_equal length) in E. rewrite length_drop in E. cbn in E. lia. }
    rewrite insert_middle. apply (f_equal (drop 1)) in E. cbn [drop] in E.
    by rewrite drop_drop, Nat.add_1_r in E; rewrite E.
  - destruct (decide (length buf = length a)) as [El|].
    + rewrite copy_spec by (rewrite ?length_app; lia). cbn [mbind option_bind].
      rewrite take_app_length, length_app, length_drop. case_match eqn:E; [|done].
      apply Nat.ltb_lt in E. lia.
    + rewrite copy_overrun by lia. done.
Qed.

Lemma get_attributes_spec L R buf :
  s = L ++ name ++ R ->
  get_attributes mem (P + length L) (length name) buf = store_attr (attr_at R) buf.
Proof.
  intros E. pose proof (str_R _ _ E) as HR. unfold get_attributes. rewrite (mem_drop_R L R E).
  destruct (skip_blank_spec R post HR) as (j & -> & Hj & Hd). cbn [mbind option_bind].
  rewrite (mem_R L R j E), (after_blanks R j post) by done. cbn [mbind option_bind].
  unfold attr_at. destruct (drop_while blank R) as [|c a] eqn:Er.
  { apply (store_attr_spec [] []). }
  cbn [head default from_option id]. destruct (c =? ENV_ATTR_SEP); cbn [negb]; [|apply (store_attr_spec [] [])].
  assert (Hlen : (j + 1 + length a = length R)%nat).
  { apply (f_equal length) in Hd. rewrite length_drop in Hd. cbn [length] in Hd. lia. }
  assert (Ha : is_str a) by (apply (Forall_drop _ j) in HR; rewrite Hd in HR; by inversion HR).
  assert (Hma : drop (P + length L + length name + j + 1) mem = a ++ 0 :: post).
  { rewrite <- Nat.add_assoc, <- drop_drop, (mem_drop_R L R E), <- drop_drop.
    rewrite drop_app_le by lia. by rewrite Hd. }
  rewrite Hma. destruct (skip_blank_spec a post Ha) as (i & -> & Hi & Hdi). cbn [mbind option_bind].
  assert (Hmb : drop (P + length L + length name + j + 1 + i) mem = drop_while blank a ++ 0 :: post).
  { by rewrite <- drop_drop, Hma, drop_app_le, Hdi. }
  rewrite Hmb. set (b := drop_while blank a) in *.
  assert (Hb : is_str b) by (rewrite <- Hdi; auto).
  destruct (strpbrk_spec b post Hb) as (d & -> & Hdl). cbn [mbind option_bind].
  assert (match d with None => strlen (b ++ 0 :: post) | Some d => Some d end
    = Some (length (take_while in_attr b))) as ->
    by (rewrite <- Hdl; destruct d; [done|by apply strlen_cstr]).
  cbn [mbind option_bind]. unfold attr_word. fold b.
  rewrite <- (store_attr_spec _ (drop (length (take_while in_attr b)) b ++ 0 :: post)).
  assert (take_while in_attr b ++ drop (length (take_while in_attr b)) b ++ 0 :: post = b ++ 0 :: post) as ->
    by (rewrite app_assoc; f_equal; rewrite <- (take_while_prefix in_attr b) at 1; apply take_drop).
  by destruct (copy buf _ _).
Qed.

Lemma lookup_loop_spec fuel j :
  (match j with Some j => j + 1 < fuel | None => 0 < fuel end)%nat ->
  (match j with Some j => occurs_at s name j | None => True end) ->
  (forall L R, good s L R -> match j with Some j => length L <= j | None => False end)%nat ->
  exists r, lookup_loop fuel mem P nm (option_map (Nat.add P) j) = Some (option_map (Nat.add P) r)
    /\ match r with
       | Some k => exists L R, good s L R /\ k = length L
                    /\ forall L' R', good s L' R' -> (length L' <= length L)%nat
       | None => forall L R, ~ good s L R
       end.
Proof.
  revert j. induction fuel as [|fuel IH]; intros j Hf Hocc Hmax; [destruct j; lia|].
  cbn [lookup_loop]. destruct j as [j|]; cbn [option_map]; [|by exists None].
  assert (strlen nm = Some (length name)) as -> by (apply strlen_cstr, name_is_str).
  cbn [mbind option_bind]. destruct (occurs_at_split s j Hocc) as (E & Hj).
  set (L := take j s) in *. set (R := drop (j + length name) s) in *.
  pose proof (exact_match_spec L R E) as Hem. rewrite Hj in Hem. rewrite Hem. cbn [mbind option_bind].
  destruct (lead_ok L && next_ok R) eqn:Eg.
  - exists (Some j). split; [done|]. apply andb_true_iff in Eg as [? ?].
    exists L, R. split_and!; [done..|]. intros L' R' Hg'. rewrite Hj. by apply (Hmax L' R').
  - destruct (reverse_strstr_spec (Some j)) as (r & Er & Hr). cbn [option_map] in Er. rewrite Er.
    cbn [mbind option_bind]. apply IH.
    + destruct r as [k|]; [|lia]. destruct Hr as (_ & Hw & _). cbn in Hw.
      destruct name; [done|]. cbn [length] in Hw. lia.
    + destruct r as [k|]; [|done]. by destruct Hr.
    + intros L' R' Hg. assert (Hne : length L' <> j).
      { intros Hlen. destruct Hg as (E' & Hl & Hn). rewrite E in E'.
        apply app_inj_1 in E' as [<- E']; [|lia]. apply app_inv_head in E' as <-.
        by rewrite Hl, Hn in Eg. }
      pose proof (Hmax L' R' Hg). pose proof (good_no_overlap _ _ _ _ Hg Hocc ltac:(lia)) as Hle.
      pose proof (good_occurs _ _ _ Hg) as Hocc'. destruct r as [k|].
      * destruct Hr as (_ & _ & Hr). destruct (decide (length L' <= k)%nat); [done|].
        exfalso. by apply (Hr (length L')); [lia|..].
      * by apply (Hr (length L')).
Qed.

Lemma env_attr_lookup_spec buf :
  env_attr_lookup mem (Some P) nm (Some buf) =
  match last_attr name s with
  | Some a => b ← store_attr a buf; Some (0, Some b)
  | None => Some (2, Some buf)
  end.
Proof.
  unfold env_attr_lookup. destruct (reverse_strstr_spec None) as (j & Ej & Hj).
  cbn [option_map] in Ej. rewrite Ej. cbn [mbind option_bind].
  destruct (lookup_loop_spec (length mem + 1) j) as (r & -> & Hr).
  { destruct j as [j|]; [|lia]. destruct Hj as [[Hj _] _]. unfold mem. rewrite !length_app. cbn [length]. lia. }
  { destruct j as [j|]; [|done]. by destruct Hj. }
  { intros L R Hg%good_occurs. destruct j as [j|].
    - destruct Hj as (_ & _ & Hj). destruct (decide (length L <= j)%nat); [done|].
      exfalso. by apply (Hj (length L)); [lia|..].
    - by apply (Hj _ Hg). }
  cbn [mbind option_bind]. pose proof (last_attr_spec s) as Hla.
  destruct r as [k|]; cbn [option_map].
  - destruct Hr as (L & R & Hg & -> & Hmax).
    assert (strlen nm = Some (length name)) as -> by (apply strlen_cstr, name_is_str).
    cbn [mbind option_bind]. destruct Hg as (E & Hg). rewrite (get_attributes_spec L R buf E).
    destruct (last_attr name s) as [a|]; [|by destruct (Hla L R)].
    destruct Hla as (L' & R' & Hg' & <- & Hmax').
    pose proof (Hmax _ _ Hg'). pose proof (Hmax' L R (conj E Hg)).
    destruct Hg' as (E' & _). rewrite E in E'. apply app_inj_1 in E' as [<- E']; [|lia].
    by apply app_inv_head in E' as <-.
  - destruct (last_attr name s) as [a|]; [|done]. destruct Hla as (L & R & Hg & _).
    by destruct (Hr L R).
Qed.

End Lookup.
End Name.

(** For a name without separators, [env_attr_lookup] finds the last entry
    of the list with that name and stores its attributes up to the first
    blank, NUL-terminated, in the buffer; with a buffer that is too small it
    writes outside; without such an entry it returns 2 and writes nothing.
    The list must not start with a blank, and what lies before it must not be
    blank throughout, because the search for the comma before an entry runs
    backwards without a bound. *)
Theorem env_attr_lookup_correct name pre s post y buf :
  Forall plain name -> name <> [] -> is_str s -> head s <> Some 32 ->
  drop_while blank (reverse pre) <> [] ->
  env_attr_lookup (pre ++ s ++ 0 :: post) (Some (length pre)) (name ++ 0 :: y) (Some buf) =
  match last_attr name s with
  | Some a =>
      if (length a <? length buf)%nat
      then Some (0, Some (a ++ 0 :: drop (length a + 1) buf)) else None
  | None => Some (2, Some buf)
  end.
Proof.
  intros Hn Hne Hs Hh Hpre. rewrite env_attr_lookup_spec by done.
  destruct (last_attr name s) as [a|]; [|done]. unfold store_attr. by destruct (_ <? _)%nat.
Qed.

(** ** Examples *)

Definition record_entry (n : str) (a : option str) (l : list (str * option str))
    : option (Z * list (str * option str)) := Some (0, l ++ [(n, a)]).

Lemma env_attr_walk_correct_witness :
  env_attr_walk record_entry (Some (cstr (bytes_of "a: x ,, b ,:q"))) []
  = Some (0, [(bytes_of "a", Some (bytes_of "x")); (bytes_of "b", None)]).
Proof.
  unfold cstr. rewrite (env_attr_walk_correct record_entry (bytes_of "a: x ,, b ,:q") [] []);
    [vm_compute; reflexivity|by apply (bool_decide_unpack _)].
Defined.

Lemma env_attr_lookup_correct_witness :
  env_attr_lookup ([0] ++ bytes_of "b:c, a:so,ab:x,a : r ,c:a" ++ [0]) (Some 1%nat)
    (bytes_of "a" ++ [0]) (Some [1; 2; 3])
  = Some (0, Some (bytes_of "r" ++ [0; 3])).
Proof.
  rewrite (env_attr_lookup_correct (bytes_of "a") [0] (bytes_of "b:c, a:so,ab:x,a : r ,c:a") [] []);
    [vm_compute; reflexivity|by apply (bool_decide_unpack _)|done|by apply (bool_decide_unpack _)
    |done|done].
Defined.

(** An empty name is looked for for ever: the search always returns the start
    of the list. *)
Lemma empty_name_diverges fuel :
  lookup_loop fuel (0 :: cstr (bytes_of "ethaddr:ma,")) 1 [0] (Some 1%nat) = None.
Proof. induction fuel as [|fuel IH]; [done|]. cbn [lookup_loop]. exact IH. Qed.

(** The first entry of a list that starts with a blank is not found, although
    [env_attr_walk] reports it. *)
Example leading_blank_missed :
  env_attr_lookup (0 :: cstr (bytes_of " foo:sr")) (Some 1%nat) (cstr (bytes_of "foo")) (Some [0; 0; 0])
  = Some (2, Some [0; 0; 0])
  /\ env_attr_walk record_entry (Some (cstr (bytes_of " foo:sr"))) []
     = Some (0, [(bytes_of "foo", Some (bytes_of "sr"))]).
Proof. split; vm_compute; reflexivity. Qed.

(** The byte before the list is read for a match at its start. *)
Example lookup_reads_before :
  env_attr_lookup (cstr (bytes_of "foo:sr")) (Some 0%nat) (cstr (bytes_of "foo")) (Some [0; 0; 0]) = None.
Proof. vm_compute. reflexivity. Qed.

End EnvAttr.
