(* ===== verification/EnvVars.v ===== *)
(** * Reading the environment (common/env_common.c, common/cmd_nvedit.c)

    Before the environment is imported into the hash table [getenv] reads the
    linear form, NUL-terminated [name=value] strings ended by an empty one,
    either from the stored environment or from the default one compiled in.

    [env_at] is the memory from [gd->env_addr], [default_environment] the
    array the board configuration defines.  [None] is a read outside of them,
    or outside the name. *)

From S2P Require Import Prelude Cstring Hashtable HashtableMap.

#[local] Open Scope Z_scope.

Module EnvVars.
Import Cstring Hashtable HashtableMap.

Definition CONFIG_ENV_SIZE : Z := 0x10000.

(** The fields of [gd_t] the environment uses; [flags] is the two bits
    [GD_FLG_ENV_READY] and [GD_FLG_RELOC]. *)
Record gd_t := Gd {
  env_ready : bool;
  reloc : bool;
  env_valid : Z;
}.

Definition env_buf_size : nat := 32.

(** [hsearch_r] with [FIND] calls no hook; the value of the variable. *)
#[local] Instance find_hooks : EnvHooks unit := {
  change_ok := None;
  run_callback _ _ _ _ _ st := (false, st);
  env_callback_init e st := (e, st.2);
  env_flags_init e st := (e, st.2);
}.

#[local] Instance find_hooks_frame : HooksFrame unit.
Proof.
  split; try done. intros cb k v op flag h w T Ht. exists false, T, w.
  split; [|done]. destruct h. cbn in *. by subst.
Qed.

Definition find (htab : hsearch_data) (name : str) : option (option Z) :=
  '(r, _) ← hsearch_r name None FIND (htab, tt) 0; Some (retval r).

Lemma find_live h T k :
  wf h T -> is_str k ->
  (absent T k /\ find h k = Some None)
  \/ exists i s, live T i s /\ key (entry s) = k /\ find h k = Some (Some i).
Proof.
  intros Hwf Hk. unfold find.
  destruct (find_spec h T tt k None 0 Hwf Hk) as [[Ha ->]|(i & s & Hl & Hks & ->)].
  - by left.
  - right. by exists i, s.
Qed.

Section Env.
Context (default_environment env_at : list Z).

Definition env_get_addr (gd : gd_t) : list Z :=
  if negb (env_valid gd =? 0) then env_at else default_environment.

Definition env_get_char_init (gd : gd_t) (index : nat) : option Z :=
  if negb (env_valid gd =? 0) then env_at !! index else default_environment !! index.

Definition env_get_char_memory (gd : gd_t) (index : nat) : option Z := env_get_addr gd !! index.

Definition env_get_char (gd : gd_t) (index : nat) : option Z :=
  if reloc gd then env_get_char_memory gd index else env_get_char_init gd index.

(** The index of the value, [None] inside for -1. *)
Fixpoint envmatch (gd : gd_t) (s1 : list Z) (i2 : nat) : option (option nat) :=
  match s1 with
  | [] => None
  | c :: s1 =>
      e ← env_get_char gd i2;
      if c =? e then
        if c =? 61 then Some (Some (i2 + 1)%nat) else envmatch gd s1 (i2 + 1)
      else if (c =? 0) && (e =? 61) then Some (Some (i2 + 1)%nat) else Some None
  end.

(** [for (nxt = i; env_get_char(nxt) != '\0'; ++nxt)]; [None] inside when it
    passes [CONFIG_ENV_SIZE]. *)
Fixpoint skip_entry (fuel : nat) (gd : gd_t) (nxt : nat) : option (option nat) :=
  match fuel with
  | O => None
  | S fuel =>
      c ← env_get_char gd nxt;
      if c =? 0 then Some (Some nxt)
      else if CONFIG_ENV_SIZE <=? Z.of_nat nxt then Some None
      else skip_entry fuel gd (nxt + 1)
  end.

(** The copying loop from [val] on, [len] bytes left: the bytes written and
    whether the NUL was among them. *)
Fixpoint copy_value (gd : gd_t) (val len : nat) : option (list Z * bool) :=
  match len with
  | O => Some ([], false)
  | S len =>
      c ← env_get_char gd val;
      if c =? 0 then Some ([0], true)
      else '(l, b) ← copy_value gd (val + 1) len; Some (c :: l, b)
  end.

(** The return value and what was written to the buffer. *)
Fixpoint getenv_f_loop (fuel : nat) (gd : gd_t) (name : list Z) (len i : nat)
    : option (Z * list Z) :=
  match fuel with
  | O => None
  | S fuel =>
      c ← env_get_char gd i;
      if c =? 0 then Some (-1, []) else
      nxt ← skip_entry (Z.to_nat CONFIG_ENV_SIZE + 2) gd i;
      match nxt with
      | None => Some (-1, [])
      | Some nxt =>
          val ← envmatch gd name i;
          match val with
          | None => getenv_f_loop fuel gd name len (nxt + 1)
          | Some val =>
              '(buf, done_) ← copy_value gd val len;
              if done_ : bool then Some (Z.of_nat (length buf) - 1, buf)
              else if (len =? 0)%nat then Some (0, [])
              else Some (Z.of_nat len, <[(len - 1)%nat := 0]> buf)
          end
      end
  end.

Definition getenv_f (gd : gd_t) (name : list Z) (len : nat) : option (Z * list Z) :=
  getenv_f_loop (Z.to_nat CONFIG_ENV_SIZE + 2) gd name len 0.

(** The string up to the NUL. *)
Fixpoint until_nul (l : list Z) : str :=
  match l with
  | [] => []
  | c :: l => if c =? 0 then [] else c :: until_nul l
  end.

Definition getenv (gd : gd_t) (htab : hsearch_data) (name : str) : option (option str) :=
  if env_ready gd then
    ep ← find htab name;
    match ep with
    | Some idx => s ← get_slot htab idx; Some (Some (data (entry s)))
    | None => Some None
    end
  else
    '(r, buf) ← getenv_f gd (cstr name) env_buf_size;
    if 0 <? r then Some (Some (until_nul buf)) else Some None.

Definition getenv_default (gd : gd_t) (htab : hsearch_data) (name : str) : option (option str) :=
  getenv (Gd false (reloc gd) 0) htab name.

Definition getenv_yesno (gd : gd_t) (htab : hsearch_data) (var : str) : option Z :=
  s ← getenv gd htab var;
  match s with
  | None => Some (-1)
  | Some s =>
      let c := default 0 (head s) in
      Some (if (c =? 49) || (c =? 121) || (c =? 89) || (c =? 116) || (c =? 84) then 1 else 0)
  end.

End Env.

(** ** The linear form *)

Definition pair_text (p : str * str) : list Z := p.1 ++ 61 :: p.2 ++ [0].

Definition env_text (l : list (str * str)) (x : list Z) : list Z := concat (map pair_text l) ++ 0 :: x.

(** A name without '='; the value of its first pair. *)
Fixpoint first_value (name : str) (l : list (str * str)) : option str :=
  match l with
  | [] => None
  | (n, v) :: l => if decide (n = name) then Some v else first_value name l
  end.

Definition good_pair (p : str * str) : Prop := is_str p.1 /\ (61 ∉ p.1) /\ p.1 <> [] /\ is_str p.2.

Lemma length_pair_text p : length (pair_text p) = (length p.1 + length p.2 + 2)%nat.
Proof. unfold pair_text. rewrite length_app. cbn [length]. rewrite length_app. cbn [length]. lia. Qed.

Section Spec.
Context (default_environment env_at : list Z) (gd : gd_t).

Abbreviation M := (env_get_addr default_environment env_at gd).

Lemma env_get_char_at i : env_get_char default_environment env_at gd i = M !! i.
Proof.
  unfold env_get_char, env_get_char_memory, env_get_char_init, env_get_addr.
  by destruct (reloc gd), (negb _).
Qed.

Lemma char_at A c r : M = A ++ c :: r -> env_get_char default_environment env_at gd (length A) = Some c.
Proof. intros E. by rewrite env_get_char_at, E, lookup_app_r, Nat.sub_diag by lia. Qed.

Lemma skip_entry_spec fuel A t r :
  M = A ++ t ++ 0 :: r -> is_str t -> Z.of_nat (length A + length t) <= CONFIG_ENV_SIZE ->
  (length t < fuel)%nat ->
  skip_entry default_environment env_at fuel gd (length A) = Some (Some (length A + length t)%nat).
Proof.
  intros E Ht. revert A fuel E. induction Ht as [|c t Hc Ht IH]; intros A [|fuel] E Hsz Hf; try lia;
    cbn [skip_entry].
  - rewrite (char_at A 0 r E). by rewrite Nat.add_0_r.
  - rewrite (char_at A c (t ++ 0 :: r) E). cbn [mbind option_bind length] in *.
    destruct (Z.eqb_spec c 0); [lia|]. destruct (Z.leb_spec CONFIG_ENV_SIZE (Z.of_nat (length A))); [lia|].
    replace (length A + 1)%nat with (length (A ++ [c])) by (rewrite length_app; done).
    rewrite IH.
    + f_equal. f_equal. rewrite length_app. cbn [length]. lia.
    + by rewrite <- app_assoc.
    + rewrite length_app. cbn [length]. lia.
    + lia.
Qed.

Lemma envmatch_spec A n v r name y :
  M = A ++ n ++ 61 :: v ++ 0 :: r -> is_str n -> (61 ∉ n) -> is_str name -> (61 ∉ name) ->
  envmatch default_environment env_at gd (name ++ 0 :: y) (length A)
  = Some (if decide (n = name) then Some (length A + length n + 1)%nat else None).
Proof.
  intros E Hn. revert A name E. induction Hn as [|c n Hc Hn IH]; intros A name E He Hname Hne.
  - destruct Hname as [|d name Hd Hname]; cbn [app envmatch]; rewrite (char_at A 61 _ E);
      cbn [mbind option_bind].
    + cbn [Z.eqb andb]. by rewrite Nat.add_0_r.
    + destruct (Z.eqb_spec d 61); [set_solver|]. destruct (Z.eqb_spec d 0); [lia|]. done.
  - cbn [app] in E.
    destruct Hname as [|d name Hd Hname]; cbn [app envmatch]; rewrite (char_at A c _ E);
      cbn [mbind option_bind].
    + destruct (Z.eqb_spec 0 c); [lia|]. destruct (Z.eqb_spec c 61); [set_solver|]. done.
    + destruct (Z.eqb_spec d c) as [->|Hdc].
      * destruct (Z.eqb_spec c 61); [set_solver|].
        replace (length A + 1)%nat with (length (A ++ [c])) by (rewrite length_app; done).
        rewrite IH; [|by rewrite <- app_assoc|set_solver|done|set_solver].
        f_equal. rewrite length_app. cbn [length]. repeat case_decide; simplify_eq; [f_equal; lia|done].
      * destruct (Z.eqb_spec d 0); [lia|]. rewrite decide_False; [done|]. congruence.
Qed.

Lemma copy_value_spec A v r len :
  M = A ++ v ++ 0 :: r -> is_str v ->
  copy_value default_environment env_at gd (length A) len
  = Some (if decide (length v < len)%nat then (v ++ [0], true) else (take len v, false)).
Proof.
  intros E Hv. revert A len E. induction Hv as [|c v Hc Hv IH]; intros A [|len] E; cbn [copy_value].
  - done.
  - rewrite (char_at A 0 _ E). cbn [mbind option_bind]. by rewrite decide_True by (cbn; lia).
  - done.
  - rewrite (char_at A c _ E). cbn [mbind option_bind]. destruct (Z.eqb_spec c 0); [lia|].
    replace (length A + 1)%nat with (length (A ++ [c])) by (rewrite length_app; done).
    rewrite IH by (by rewrite <- app_assoc). cbn [mbind option_bind length].
    repeat case_decide; try lia; done.
Qed.

Definition found (len : nat) (v : str) : Z * list Z :=
  if decide (length v < len)%nat then (Z.of_nat (length v), v ++ [0])
  else (Z.of_nat len, take (len - 1) v ++ [0]).

Lemma getenv_f_loop_spec fuel A l x name y len :
  M = A ++ env_text l x -> Forall good_pair l ->
  Z.of_nat (length A + length (concat (map pair_text l))) <= CONFIG_ENV_SIZE ->
  is_str name -> (61 ∉ name) -> (0 < len)%nat -> (length l < fuel)%nat ->
  getenv_f_loop default_environment env_at fuel gd (name ++ 0 :: y) len (length A)
  = Some (match first_value name l with Some v => found len v | None => (-1, []) end).
Proof.
  intros E Hl Hsz Hname Hne Hlen. revert A fuel E Hsz.
  induction Hl as [|[n v] l (Hn & He & Hnn & Hv) Hl IH]; intros A [|fuel] E Hsz Hf; cbn [length] in Hf;
    try lia; cbn [getenv_f_loop first_value].
  { by rewrite (char_at A 0 _ E). }
  unfold env_text, pair_text in E, Hsz. cbn [map concat fst snd] in *. fold pair_text in E, Hsz.
  rewrite <- !app_assoc in E. cbn [app] in E. rewrite <- app_assoc in E. cbn [app] in E.
  rewrite !length_app in Hsz. cbn [length] in Hsz. rewrite length_app in Hsz. cbn [length] in Hsz.
  destruct n as [|c n]; [done|]. rewrite (char_at A c _ E). cbn [mbind option_bind].
  destruct (Z.eqb_spec c 0); [inversion Hn; lia|].
  rewrite (skip_entry_spec _ A ((c :: n) ++ 61 :: v) (concat (map pair_text l) ++ 0 :: x));
    [|by rewrite <- !app_assoc|apply Forall_app; split; [done|by constructor]
     |rewrite length_app; cbn [length] in *; lia|rewrite length_app; cbn [length] in *; lia].
  cbn [mbind option_bind]. rewrite (envmatch_spec A (c :: n) v (concat (map pair_text l) ++ 0 :: x))
    by done. cbn [mbind option_bind].
  destruct (decide (c :: n = name)) as [_|_].
  - replace (length A + length (c :: n) + 1)%nat with (length (A ++ (c :: n) ++ [61]))
      by (rewrite !length_app; cbn [length]; lia).
    rewrite (copy_value_spec _ v (concat (map pair_text l) ++ 0 :: x))
      by (done || by rewrite E, <- !app_assoc).
    cbn [mbind option_bind]. unfold found. case_decide as Hd.
    + rewrite length_app. cbn [length]. do 2 f_equal. lia.
    + destruct (Nat.eqb_spec len 0); [lia|]. do 2 f_equal.
      destruct len as [|len]; [lia|]. replace (S len - 1)%nat with len by lia.
      destruct (lookup_lt_is_Some_2 v len) as [z Hz]; [lia|]. rewrite (take_S_r v len z Hz).
      assert (Hlt : length (take len v) = len) by (rewrite length_take; lia).
      rewrite <- Hlt at 1. by rewrite insert_middle.
  - replace (length A + length ((c :: n) ++ 61%Z :: v) + 1)%nat with (length (A ++ pair_text (c :: n, v)))
      by (rewrite !length_app, length_pair_text; cbn [fst snd length]; lia).
    apply IH; [|rewrite length_app, length_pair_text; cbn [fst snd length] in *; lia|lia].
    rewrite E. unfold pair_text at 2. cbn [fst snd]. rewrite <- !app_assoc. cbn [app].
    by rewrite <- app_assoc.
Qed.

(** On a linear environment of at most [CONFIG_ENV_SIZE] bytes [getenv_f]
    returns the length of the value of the first pair with that name and
    copies it with its NUL, truncated when the buffer is too small, or -1. *)
Theorem getenv_f_correct l x name y len :
  M = env_text l x -> Forall good_pair l ->
  Z.of_nat (length (concat (map pair_text l))) <= CONFIG_ENV_SIZE ->
  is_str name -> (61 ∉ name) -> (0 < len)%nat ->
  getenv_f default_environment env_at gd (name ++ 0 :: y) len
  = Some (match first_value name l with Some v => found len v | None => (-1, []) end).
Proof.
  intros E Hl Hsz Hn He Hlen.
  apply (getenv_f_loop_spec _ [] l x); try done. cbn [length Nat.add].
  assert (Hle : (length l <= length (concat (map pair_text l)))%nat).
  { clear. induction l as [|p l IH]; cbn [map concat length]; [lia|]. unfold pair_text at 1.
    rewrite !length_app. cbn [length]. lia. }
  lia.
Qed.

End Spec.

(** ** Examples *)

Definition demo_pairs : list (str * str) :=
  [(bytes_of "ab", bytes_of "xyz"); (bytes_of "a", bytes_of "12345678901234567890123456789012345")].

#[global] Instance good_pair_dec p : Decision (good_pair p).
Proof. unfold good_pair. apply _. Defined.

Lemma getenv_f_correct_witness :
  getenv_f (env_text demo_pairs []) [] (Gd false true 0) (bytes_of "a" ++ [0]) 32
  = Some (32, bytes_of "1234567890123456789012345678901" ++ [0]).
Proof.
  rewrite (getenv_f_correct (env_text demo_pairs []) [] (Gd false true 0) demo_pairs [] (bytes_of "a") [] 32);
    [vm_compute; reflexivity|reflexivity|by apply (bool_decide_unpack _)
    |vm_compute; discriminate|by apply (bool_decide_unpack _)|by apply (bool_decide_unpack _)|lia].
Defined.

(** [getenv_default] gives only the first 31 bytes of a default value. *)
Example default_truncated :
  getenv_default (env_text demo_pairs []) [] (Gd true true 1) (Htab None 0 0) (bytes_of "a")
  = Some (Some (bytes_of "1234567890123456789012345678901")).
Proof. vm_compute. reflexivity. Qed.

(** A variable that is set to the empty string does not exist before the
    import into the hash table. *)
Example empty_value_lost :
  getenv (env_text [(bytes_of "a", [])] []) [] (Gd false true 0) (Htab None 0 0) (bytes_of "a")
  = Some None.
Proof. vm_compute. reflexivity. Qed.

(** An entry without '=' makes [envmatch] read past the end of the name. *)
Example envmatch_overread : envmatch (cstr (bytes_of "ab")) [] (Gd false true 0) (cstr (bytes_of "ab")) 0 = None.
Proof. vm_compute. reflexivity. Qed.

End EnvVars.
