(* ===== verification/Command.v ===== *)
(** * Looking up a command (common/command.c)

    [find_cmd_tbl] takes a command by its name or by an abbreviation that fits
    one entry of the table only; what follows a dot in the word is not compared
    ("cp.b"). *)

From S2P Require Import Prelude Cstring EnvAttr.

#[local] Open Scope Z_scope.

Module Command.
Import Cstring.

(** The loop over the table from entry [i] on: the entry found first that is
    the word itself, or the last one it abbreviates and how many there are. *)
Fixpoint find_loop (cmd : list Z) (len : nat) (table : list str) (i : nat) (cmdtp_temp : nat) (n_found : Z)
    : option (option nat) :=
  match table with
  | [] => Some (if n_found =? 1 then Some cmdtp_temp else None)
  | name :: table =>
      r ← strncmp cmd (cstr name) (Z.of_nat len);
      if r =? 0 then
        n ← strlen (cstr name);
        if (len =? n)%nat then Some (Some i)
        else find_loop cmd len table (S i) i (n_found + 1)
      else find_loop cmd len table (S i) cmdtp_temp n_found
  end.

(** The index of the entry. *)
Definition find_cmd_tbl (cmd : list Z) (table : list str) : option (option nat) :=
  p ← strchr cmd 46;
  len ← match p with None => strlen cmd | Some p => Some p end;
  find_loop cmd len table 0 0 0.

(** ** Specification *)

(** The word up to the first dot. *)
Fixpoint word (s : str) : str :=
  match s with
  | [] => []
  | c :: s => if c =? 46 then [] else c :: word s
  end.

(** The entries that start with [w], counted from [i]. *)
Fixpoint completions (w : str) (i : nat) (table : list str) : list nat :=
  match table with
  | [] => []
  | name :: table =>
      if decide (w `prefix_of` name) then i :: completions w (S i) table else completions w (S i) table
  end.

(** The first entry equal to [w]; else the only one that starts with it. *)
Definition lookup_spec (w : str) (table : list str) (r : option nat) : Prop :=
  match r with
  | Some i =>
      (table !! i = Some w /\ forall j, (j < i)%nat -> table !! j <> Some w)
      \/ ((w ∉ table) /\ completions w 0 table = [i])
  | None => (w ∉ table) /\ length (completions w 0 table) <> 1%nat
  end.

Lemma word_split s : exists r, s = word s ++ r /\ (r = [] \/ exists t, r = 46 :: t) /\ (46 ∉ word s).
Proof.
  induction s as [|c s (r & Es & Hr & Hn)]; [exists []; split_and!; [done|by left|apply not_elem_of_nil]|].
  cbn [word]. destruct (Z.eqb_spec c 46) as [->|Hc].
  - exists (46 :: s). split_and!; [done|right; by exists s|apply not_elem_of_nil].
  - exists r. split_and!; [by rewrite Es at 1|done|]. apply not_elem_of_cons. auto.
Qed.

Lemma find_len s : is_str s ->
  (p ← strchr (cstr s) 46; match p with None => strlen (cstr s) | Some p => Some p end) = Some (length (word s)).
Proof.
  intros Hs. destruct (word_split s) as (r & Es & Hr & _).
  destruct (EnvAttr.strchr_spec s 46 [] Hs) as [[Hno E]|(s1 & s2 & E1 & Hn1 & E)]; [lia| |].
  - unfold cstr. rewrite E. cbn [mbind option_bind]. rewrite strlen_cstr by done. f_equal.
    destruct Hr as [-> |(t & ->)]; [by rewrite Es at 1; rewrite app_nil_r|].
    destruct Hno. rewrite Es. apply elem_of_app. right. by left.
  - unfold cstr. rewrite E. cbn [mbind option_bind]. do 2 f_equal. clear E.
    assert (Hw : forall a b, (46 ∉ a) -> word (a ++ 46 :: b) = a).
    { induction a as [|c a IH]; intros b Ha; [done|]. apply not_elem_of_cons in Ha as [Hc Ha]. cbn [app word].
      destruct (Z.eqb_spec c 46); [done|]. by rewrite IH. }
    by rewrite E1, Hw.
Qed.

Lemma last_cons_default {A} (l : list A) a d : List.last l a = List.last (a :: l) d.
Proof. revert a d. induction l as [|b l IH]; intros a d; [done|]. cbn [List.last] in *. by destruct l. Qed.

Lemma find_loop_spec w x i table temp n :
  is_str w -> Forall is_str table ->
  exists r, find_loop (w ++ x) (length w) table i temp n = Some r
    /\ ((exists k, r = Some (i + k)%nat /\ table !! k = Some w /\ forall j, (j < k)%nat -> table !! j <> Some w)
        \/ ((w ∉ table)
            /\ r = if n + Z.of_nat (length (completions w i table)) =? 1
                   then Some (List.last (completions w i table) temp) else None)).
Proof.
  intros Hw. revert i temp n. induction table as [|name table IH]; intros i temp n Ht.
  { eexists. split; [done|]. right. split; [apply not_elem_of_nil|]. cbn. by rewrite Z.add_0_r. }
  apply Forall_cons in Ht as [Hname Ht]. cbn [find_loop completions].
  destruct (strncmp_first w name x [] Hw Hname) as (r & Er & Hpre). unfold cstr. rewrite Er.
  cbn [mbind option_bind].
  assert (Hnext : forall temp n, name <> w -> exists r, find_loop (w ++ x) (length w) table (S i) temp n = Some r
    /\ ((exists k, r = Some (i + k)%nat /\ (name :: table) !! k = Some w
             /\ forall j, (j < k)%nat -> (name :: table) !! j <> Some w)
        \/ ((w ∉ name :: table)
            /\ r = if n + Z.of_nat (length (completions w (S i) table)) =? 1
                   then Some (List.last (completions w (S i) table) temp) else None))).
  { intros temp' n' Hne. destruct (IH (S i) temp' n' Ht) as (r' & E & Hcase). exists r'. split; [done|].
    destruct Hcase as [(k & -> & Hk & Hj)|[Hno ->]].
    - left. exists (S k). split; [f_equal; lia|]. split; [done|]. intros [|j] Hlt; [cbn; congruence|].
      apply Hj. lia.
    - right. split; [|done]. apply not_elem_of_cons. split; congruence. }
  destruct (Z.eqb_spec r 0) as [Hr0|Hr0].
  - pose proof (proj1 Hpre Hr0) as Hp. rewrite decide_True by done.
    rewrite strlen_cstr by done. cbn [mbind option_bind].
    destruct (Nat.eqb_spec (length w) (length name)) as [Hl|Hl].
    + eexists. split; [done|]. left. exists 0%nat. split; [f_equal; lia|]. split; [|intros j Hj; lia].
      cbn. f_equal. symmetry. apply prefix_length_eq; [done|lia].
    + destruct (Hnext i (n + 1)) as (r' & -> & Hcase); [by intros ->|]. exists r'. split; [done|].
      destruct Hcase as [?|[Hno ->]]; [by left|right]. split; [done|]. cbn [length].
      replace (n + Z.of_nat (S (length (completions w (S i) table))))
        with (n + 1 + Z.of_nat (length (completions w (S i) table))) by lia.
      destruct (_ =? 1); [|done]. f_equal. apply last_cons_default.
  - destruct (decide (w `prefix_of` name)) as [Hp|_]; [destruct (Hr0 (proj2 Hpre Hp))|]. apply Hnext. intros ->.
    apply Hr0, (proj2 Hpre). done.
Qed.

(** [find_cmd_tbl] finds the entry whose name is the word, the first of them,
    or else the only entry the word abbreviates; it finds nothing when there is
    none or more than one.  A dot and what follows it are ignored. *)
Theorem find_cmd_tbl_correct s table :
  is_str s -> Forall is_str table ->
  exists r, find_cmd_tbl (cstr s) table = Some r /\ lookup_spec (word s) table r.
Proof.
  intros Hs Ht. unfold find_cmd_tbl.
  pose proof (find_len s Hs) as Hlen. apply bind_Some in Hlen as (p & -> & Hlen).
  cbn [mbind option_bind]. rewrite Hlen. cbn [mbind option_bind].
  destruct (word_split s) as (t & Es & _). assert (E2 : cstr s = word s ++ t ++ [0]) by (unfold cstr; by rewrite app_assoc, <- Es).
  rewrite E2.
  destruct (find_loop_spec (word s) (t ++ [0]) 0 table 0%nat 0) as (r & -> & Hcase); [|done|].
  { unfold is_str in *. rewrite Es in Hs. by apply Forall_app in Hs as [? _]. }
  exists r. split; [done|]. destruct Hcase as [(k & -> & ? & ?)|[Hno ->]]; [by left|].
  rewrite Z.add_0_l. unfold lookup_spec. destruct (completions (word s) 0 table) as [|i [|j l]]; [done|by right|].
  destruct (Z.eqb_spec (Z.of_nat (length (i :: j :: l))) 1) as [E|_]; [cbn [length] in E; lia|done].
Qed.

(** ** Samples *)

Definition sample_table : list str := map bytes_of ["start"; "loados"; "ramdisk"; "fdt"; "cmdline"; "go"; "g"]%string.

Lemma find_cmd_tbl_correct_witness :
  exists r, find_cmd_tbl (cstr (bytes_of "ram.b")) sample_table = Some r
    /\ lookup_spec (word (bytes_of "ram.b")) sample_table r.
Proof. apply find_cmd_tbl_correct; by apply (bool_decide_unpack _). Defined.

Example abbreviations :
  map (fun s => find_cmd_tbl (cstr (bytes_of s)) sample_table) ["ram.b"; "g"; "go"; ""; "stop"]%string
  = [Some (Some 2%nat); Some (Some 6%nat); Some (Some 5%nat); Some None; Some None].
Proof. by vm_compute. Qed.

End Command.
