(* ===== verification/EnvFlags.v ===== *)
(** * Types, access rights and callbacks of variables
      (common/env_flags.c, common/env_callback.c)

    [.flags] gives variables a type and access rights, [.callbacks] functions
    to call on a change.  Both are kept in the entries of the hash table: an
    entry gets them when it is created ([env_flags_init],
    [env_callback_init]), and all entries when one of the two variables is
    written ([on_flags], [on_callbacks]).

    [before_var] and [before_static] are the bytes in memory before the value
    of a variable and before a static list, which [env_attr_lookup] reads.
    [None] is an access outside an object or a search that does not end.
    Messages to the console are left out. *)

From S2P Require Import Prelude Cstring Hashtable HashtableMap EnvAttr EnvVars.

#[local] Open Scope Z_scope.
#[local] Open Scope word_scope.

Module EnvFlags.
Import Cstring Hashtable HashtableMap EnvAttr EnvVars.

(** ** Constants *)

Definition env_flags_vartype_string : Z := 0.
Definition env_flags_vartype_decimal : Z := 1.
Definition env_flags_vartype_hex : Z := 2.
Definition env_flags_vartype_bool : Z := 3.
Definition env_flags_vartype_ipaddr : Z := 4.
Definition env_flags_vartype_macaddr : Z := 5.
Definition env_flags_vartype_end : Z := 6.

Definition env_flags_varaccess_any : Z := 0.
Definition env_flags_varaccess_readonly : Z := 1.
Definition env_flags_varaccess_writeonce : Z := 2.
Definition env_flags_varaccess_changedefault : Z := 3.

Definition ENV_FLAGS_VARTYPE_BIN_MASK : Z := 0x7.
Definition ENV_FLAGS_VARACCESS_PREVENT_DELETE : Z := 0x8.
Definition ENV_FLAGS_VARACCESS_PREVENT_CREATE : Z := 0x10.
Definition ENV_FLAGS_VARACCESS_PREVENT_OVERWR : Z := 0x20.
Definition ENV_FLAGS_VARACCESS_PREVENT_NONDEF_OVERWR : Z := 0x40.
Definition ENV_FLAGS_VARACCESS_BIN_MASK : Z := 0x78.

Definition ENV_FLAGS_VAR : str := bytes_of ".flags".
Definition ENV_FLAGS_ATTR_MAX_LEN : nat := 2.
Definition ENV_FLAGS_LIST_STATIC : str := bytes_of "ethaddr:ma,".

Definition ENV_CALLBACK_VAR : str := bytes_of ".callbacks".
Definition ENV_CALLBACK_LIST_STATIC : str :=
  bytes_of ".callbacks:callbacks,.flags:flags,baudrate:baudrate,bootfile:bootfile,loadaddr:loadaddr,stdin:console,stdout:console,stderr:console,".

Definition env_flags_vartype_rep : str := bytes_of "sdxbim".
Definition env_flags_varaccess_rep : str := bytes_of "aroc".

Definition env_flags_varaccess_mask : list Z :=
  [0;
   ENV_FLAGS_VARACCESS_PREVENT_DELETE .| ENV_FLAGS_VARACCESS_PREVENT_CREATE
     .| ENV_FLAGS_VARACCESS_PREVENT_OVERWR;
   ENV_FLAGS_VARACCESS_PREVENT_DELETE .| ENV_FLAGS_VARACCESS_PREVENT_OVERWR;
   ENV_FLAGS_VARACCESS_PREVENT_DELETE .| ENV_FLAGS_VARACCESS_PREVENT_NONDEF_OVERWR].

(** ** Parsing flags *)

(** [rep[loc]] of the characters in [flags]. *)
Definition parse_char (rep : str) (loc : nat) (flags : list Z) : option Z :=
  n ← strlen flags;
  if (n <=? loc)%nat then Some 0 else
  c ← flags !! loc;
  r ← strchr (cstr rep) c;
  Some (match r with Some k => Z.of_nat k | None => 0 end).

Definition env_flags_parse_vartype (flags : list Z) : option Z :=
  parse_char env_flags_vartype_rep 0 flags.

Definition env_flags_parse_varaccess (flags : list Z) : option Z :=
  parse_char env_flags_varaccess_rep 1 flags.

(** [for (i = 0; i < sizeof(env_flags_varaccess_mask); i++)], 16 rounds over
    an array of four. *)
Fixpoint find_mask (fuel : nat) (i : nat) (binflags : Z) : option Z :=
  match fuel with
  | O => Some env_flags_varaccess_any
  | S fuel =>
      m ← env_flags_varaccess_mask !! i;
      if m =? (binflags .& ENV_FLAGS_VARACCESS_BIN_MASK) then Some (Z.of_nat i)
      else find_mask fuel (i + 1) binflags
  end.

Definition env_flags_parse_varaccess_from_binflags (binflags : Z) : option Z :=
  find_mask (4 * length env_flags_varaccess_mask) 0 binflags.

Definition env_parse_flags_to_bin (flags : list Z) : option Z :=
  type ← env_flags_parse_vartype flags;
  access ← env_flags_parse_varaccess flags;
  m ← env_flags_varaccess_mask !! Z.to_nat access;
  Some ((type .& ENV_FLAGS_VARTYPE_BIN_MASK) .| m).

(** ** Checking values *)

Definition is_hex_prefix (value : list Z) : option bool :=
  a ← value !! 0%nat;
  if a =? 48 then b ← value !! 1%nat; Some ((b =? 120) || (b =? 88)) else Some false.

Definition digit (hex : bool) (c : Z) : bool := if hex then isxdigit c else isdigit c.

(** [for (i = max_digits; i != 0; i--)] *)
Fixpoint skip_digits (hex : bool) (value : list Z) (i : Z) : option nat :=
  if i =? 0 then Some 0%nat else
  match value with
  | [] => None
  | c :: value => if negb (digit hex c) then Some 0%nat else n ← skip_digits hex value (i - 1); Some (S n)
  end.

(** The offset of [*end]. *)
Definition skip_num (hex : bool) (value : list Z) (max_digits : Z) : option nat :=
  p ← (if hex then is_hex_prefix value else Some false);
  let k := if p : bool then 2%nat else 0%nat in
  n ← skip_digits hex (drop k value) max_digits;
  Some (k + n)%nat.

(** The loops over the parts of an IP address and of a MAC address, [n]
    parts being left; the test for a lone prefix is in the second one only. *)
Fixpoint check_fields (hex : bool) (max_digits sep : Z) (n : nat) (cur : list Z) : option Z :=
  match n with
  | O => Some 0
  | S n =>
      fin ← skip_num hex cur max_digits;
      if (fin =? 0)%nat then Some (-1) else
      p ← (if hex && (fin =? 2)%nat then is_hex_prefix cur else Some false);
      if p : bool then Some (-1) else
      c ← cur !! fin;
      if negb (n =? 0)%nat && negb (c =? sep) then Some (-1)
      else if (n =? 0)%nat && negb (c =? 0) then Some (-1)
      else check_fields hex max_digits sep n (drop (fin + 1) cur)
  end.

Definition _env_flags_validate_type (value : list Z) (type : Z) : option Z :=
  if type =? env_flags_vartype_string then Some 0
  else if type =? env_flags_vartype_decimal then
    fin ← skip_num false value (-1);
    c ← value !! fin;
    Some (if negb (c =? 0) then -1 else 0)
  else if type =? env_flags_vartype_hex then
    fin ← skip_num true value (-1);
    c ← value !! fin;
    if negb (c =? 0) then Some (-1) else
    if (fin =? 2)%nat then p ← is_hex_prefix value; Some (if p : bool then -1 else 0) else Some 0
  else if type =? env_flags_vartype_bool then
    a ← value !! 0%nat;
    if negb (existsb (Z.eqb a) (bytes_of "1ytYT0nfNF")) then Some (-1) else
    b ← value !! 1%nat;
    Some (if negb (b =? 0) then -1 else 0)
  else if type =? env_flags_vartype_ipaddr then check_fields false 3 46 4 value
  else if type =? env_flags_vartype_macaddr then check_fields true 2 58 6 value
  else if type =? env_flags_vartype_end then Some (-1)
  else Some 0.

(** ** Flags and callbacks of entries *)

(** The registered callbacks: [on_flags] and [on_callbacks], and those of the
    network, the console, the serial line and the image code. *)
Definition env_clbk_names : list str :=
  map bytes_of ["baudrate"; "bootfile"; "callbacks"; "console"; "flags"; "loadaddr"]%string.

Definition find_env_callback (name : str) : option str :=
  list_find (fun n => streq name n = true) env_clbk_names ≫= fun p => Some p.2.

Definition set_entry (htab : hsearch_data) (idx : Z) (f : ENTRY -> ENTRY) : option hsearch_data :=
  s ← get_slot htab idx; set_slot htab idx (Slot (used s) (f (entry s))).

Definition with_flags (fl : Z) (e : ENTRY) : ENTRY := Entry (key e) (data e) (callback e) fl.
Definition with_callback (cb : option str) (e : ENTRY) : ENTRY := Entry (key e) (data e) cb (flags e).

Definition clear_flags (s : unit) (e : ENTRY) : Z * unit * ENTRY := (0, s, with_flags 0 e).
Definition clear_callback (s : unit) (e : ENTRY) : Z * unit * ENTRY := (0, s, with_callback None e).

Definition set_flags (name : str) (value : option str) (htab : hsearch_data)
    : option (Z * hsearch_data) :=
  ep ← find htab name;
  match ep with
  | None => Some (0, htab)
  | Some idx =>
      fl ← (match value with
            | None => Some 0
            | Some v => if (length v =? 0)%nat then Some 0 else env_parse_flags_to_bin (cstr v)
            end);
      htab ← set_entry htab idx (with_flags fl);
      Some (0, htab)
  end.

Definition set_callback (name : str) (value : option str) (htab : hsearch_data)
    : option (Z * hsearch_data) :=
  ep ← find htab name;
  match ep with
  | None => Some (0, htab)
  | Some idx =>
      match value with
      | Some (c :: v) =>
          match find_env_callback (c :: v) with
          | Some cb => htab ← set_entry htab idx (with_callback (Some cb)); Some (0, htab)
          | None => Some (0, htab)
          end
      | _ => htab ← set_entry htab idx (with_callback None); Some (0, htab)
      end
  end.

Definition on_flags (value : option str) (htab : hsearch_data) : option hsearch_data :=
  '(_, _, htab) ← hwalk_r clear_flags tt htab;
  '(_, htab) ← env_attr_walk set_flags (Some (cstr ENV_FLAGS_LIST_STATIC)) htab;
  '(_, htab) ← env_attr_walk set_flags (option_map cstr value) htab;
  Some htab.

Definition on_callbacks (value : option str) (htab : hsearch_data) : option hsearch_data :=
  '(_, _, htab) ← hwalk_r clear_callback tt htab;
  '(_, htab) ← env_attr_walk set_callback (Some (cstr ENV_CALLBACK_LIST_STATIC)) htab;
  '(_, htab) ← env_attr_walk set_callback (option_map cstr value) htab;
  Some htab.

Section Env.
Context (default_environment env_at before_var before_static : list Z).

Abbreviation getenv := (getenv default_environment env_at).

Definition env_flags_lookup (flags_list : option str) (name : str) (flags : option (list Z))
    : option (Z * option (list Z)) :=
  match flags with
  | None => Some (-1, None)
  | Some _ =>
      '(ret, flags) ←
        match flags_list with
        | Some l => env_attr_lookup (before_var ++ cstr l) (Some (length before_var)) (cstr name) flags
        | None => Some (1, flags)
        end;
      if negb (ret =? 0)
      then env_attr_lookup (before_static ++ cstr ENV_FLAGS_LIST_STATIC) (Some (length before_static))
             (cstr name) flags
      else Some (ret, flags)
  end.

Definition env_flags_init (gd : gd_t) (htab : hsearch_data) (var_entry : ENTRY) : option ENTRY :=
  flags_list ← getenv gd htab ENV_FLAGS_VAR;
  '(ret, flags) ← env_flags_lookup flags_list (key var_entry)
                    (Some (replicate (ENV_FLAGS_ATTR_MAX_LEN + 1) 0));
  flags ← flags;
  n ← strlen flags;
  if (ret =? 0) && negb (n =? 0)%nat
  then fl ← env_parse_flags_to_bin flags; Some (with_flags fl var_entry)
  else Some var_entry.

Definition env_callback_init (gd : gd_t) (htab : hsearch_data) (var_entry : ENTRY) : option ENTRY :=
  callback_list ← getenv gd htab ENV_CALLBACK_VAR;
  let name := cstr (key var_entry) in
  '(ret, callback_name) ←
    match callback_list with
    | Some l =>
        env_attr_lookup (before_var ++ cstr l) (Some (length before_var)) name (Some (replicate 256 0))
    | None => Some (1, Some (replicate 256 0))
    end;
  '(ret, callback_name) ←
    (if negb (ret =? 0)
     then env_attr_lookup (before_static ++ cstr ENV_CALLBACK_LIST_STATIC)
            (Some (length before_static)) name callback_name
     else Some (ret, callback_name));
  callback_name ← callback_name;
  n ← strlen callback_name;
  if (ret =? 0) && negb (n =? 0)%nat then
    cb ← read_str callback_name;
    match find_env_callback cb with
    | Some cb => Some (with_callback (Some cb) var_entry)
    | None => Some var_entry
    end
  else Some var_entry.

(** 0 to allow the change. *)
Definition env_flags_validate (gd : gd_t) (htab : hsearch_data) (item : ENTRY) (newval : option str)
    (op : env_op) (flag : Z) : option Z :=
  let newval := default [] newval in
  t ← match op with
      | env_op_delete => Some 0
      | _ => _env_flags_validate_type (cstr newval) (ENV_FLAGS_VARTYPE_BIN_MASK .& flags item)
      end;
  if t <? 0 then Some (-1)
  else if negb ((flag .& H_FORCE) =? 0) then Some 0
  else
    match op with
    | env_op_delete =>
        Some (if negb ((flags item .& ENV_FLAGS_VARACCESS_PREVENT_DELETE) =? 0) then 1 else 0)
    | env_op_overwrite =>
        if negb ((flags item .& ENV_FLAGS_VARACCESS_PREVENT_OVERWR) =? 0) then Some 1
        else if negb ((flags item .& ENV_FLAGS_VARACCESS_PREVENT_NONDEF_OVERWR) =? 0) then
          defval ← getenv_default default_environment env_at gd htab (key item);
          r ← strcmp (cstr (data item)) (cstr (default [] defval));
          Some (if negb (r =? 0) then 1 else 0)
        else Some 0
    | env_op_create =>
        Some (if negb ((flags item .& ENV_FLAGS_VARACCESS_PREVENT_CREATE) =? 0) then 1 else 0)
    end.

End Env.

(** ** What the types mean *)

(** A prefix 0x or 0X. *)
Definition prefixed (s : str) : bool :=
  match s with a :: b :: _ => (a =? 48) && ((b =? 120) || (b =? 88)) | _ => false end.

Definition strip (hex : bool) (s : str) : str := if hex && prefixed s then drop 2 s else s.

(** One to [n] digits, hexadecimal ones perhaps with a prefix. *)
Definition number_ok (hex : bool) (n : nat) (s : str) : bool :=
  (1 <=? length (strip hex s))%nat && (length (strip hex s) <=? n)%nat
  && forallb (digit hex) (strip hex s).

Definition fields_ok (hex : bool) (digits : nat) (sep : Z) (n : nat) (s : str) : bool :=
  (length (split_on sep s) =? n)%nat && forallb (number_ok hex digits) (split_on sep s).

Definition value_ok (type : Z) (s : str) : bool :=
  if type =? env_flags_vartype_decimal then forallb isdigit s
  else if type =? env_flags_vartype_hex then
    forallb isxdigit (strip true s) && negb (prefixed s && (length s =? 2)%nat)
  else if type =? env_flags_vartype_bool then
    match s with [c] => existsb (Z.eqb c) (bytes_of "1ytYT0nfNF") | _ => false end
  else if type =? env_flags_vartype_ipaddr then fields_ok false 3 46 4 s
  else if type =? env_flags_vartype_macaddr then fields_ok true 2 58 6 s
  else negb (type =? env_flags_vartype_end).

Lemma digit_nul hex : digit hex 0 = false.
Proof. by destruct hex. Qed.

Lemma is_hex_prefix_spec s c x :
  is_str s -> c <> 120 -> c <> 88 -> c <> 48 ->
  is_hex_prefix (s ++ c :: x) = Some (prefixed s).
Proof.
  intros Hs H1 H2 H3. unfold is_hex_prefix. destruct s as [|a [|b s]]; cbn.
  - by destruct (Z.eqb_spec c 48).
  - destruct (a =? 48); [|done]. cbn. by destruct (Z.eqb_spec c 120), (Z.eqb_spec c 88).
  - by destruct (a =? 48).
Qed.

(** Digits up to the first other character or up to a limit. *)
Lemma skip_digits_spec hex s c x i :
  digit hex c = false ->
  exists k, skip_digits hex (s ++ c :: x) i = Some k /\ (k <= length s)%nat
    /\ (k = length s <-> forallb (digit hex) s = true /\ (i < 0 \/ Z.of_nat (length s) <= i)).
Proof.
  intros Hc. revert i. induction s as [|d s IH]; intros i; cbn [app skip_digits length forallb].
  - exists 0%nat. destruct (Z.eqb_spec i 0); rewrite ?Hc; cbn [negb]; split_and!; try done; lia.
  - destruct (Z.eqb_spec i 0) as [->|Hi].
    { exists 0%nat. split_and!; [done|lia|]. split; [lia|]. intros [_ ?]. lia. }
    destruct (digit hex d); cbn [negb andb].
    + destruct (IH (i - 1)) as (k & -> & Hk & Hiff). exists (S k).
      split_and!; [done|lia|]. rewrite Nat.succ_inj_wd, Hiff. split; intros [? ?]; split; (done || lia).
    + exists 0%nat. split_and!; [done|lia|]. split; [lia|]. by intros [? _].
Qed.

Lemma skip_num_spec hex s c x i :
  is_str s -> digit hex c = false -> c <> 120 -> c <> 88 -> c <> 48 ->
  exists k, skip_num hex (s ++ c :: x) i = Some k /\ (k <= length s)%nat
    /\ (k = length s <-> forallb (digit hex) (strip hex s) = true
                          /\ (i < 0 \/ Z.of_nat (length (strip hex s)) <= i))
    /\ (hex && prefixed s = true -> 2 <= k)%nat.
Proof.
  intros Hs Hc H1 H2 H3. unfold skip_num, strip.
  assert ((if hex then is_hex_prefix (s ++ c :: x) else Some false) = Some (hex && prefixed s)) as ->
    by (destruct hex; [by apply is_hex_prefix_spec|done]).
  cbn [mbind option_bind]. destruct (hex && prefixed s) eqn:E.
  - assert (Hl : (2 <= length s)%nat) by (apply andb_true_iff in E as [_ E]; destruct s as [|a [|b s]]; cbn; done || lia).
    rewrite drop_app_le by done. destruct (skip_digits_spec hex (drop 2 s) c x i Hc) as (k & -> & Hk & Hiff).
    rewrite length_drop in *. exists (2 + k)%nat. split_and!; [done|lia| |lia].
    rewrite <- Hiff. lia.
  - rewrite drop_0. destruct (skip_digits_spec hex s c x i Hc) as (k & -> & Hk & Hiff).
    exists k. by split_and!.
Qed.

(** *** Fields *)

Lemma split_on_cases c s :
  (split_on c s = [s] /\ (c ∉ s))
  \/ exists p s', s = p ++ c :: s' /\ (c ∉ p) /\ split_on c s = p :: split_on c s'.
Proof.
  destruct (decide (c ∈ s)) as [Hin|Hin].
  - right. apply list_elem_of_split_l in Hin as (p & s' & -> & Hn). exists p, s'.
    split_and!; [done..|]. by apply split_on_app.
  - left. by rewrite split_on_none.
Qed.

Section Fields.
Context (hex : bool) (digits : nat) (sep : Z).
Hypothesis sep_digit : digit hex sep = false.
Hypothesis sep_other : sep <> 120 /\ sep <> 88 /\ sep <> 48 /\ sep <> 0.

(** One field [p] with the character [c] behind it. *)
Lemma field_spec p c x :
  is_str p -> (c = sep \/ c = 0) ->
  exists k, skip_num hex (p ++ c :: x) (Z.of_nat digits) = Some k /\ (k <= length p)%nat
    /\ exists b, (if hex && (k =? 2)%nat then is_hex_prefix (p ++ c :: x) else Some false) = Some b
    /\ number_ok hex digits p = ((k =? length p)%nat && negb (k =? 0)%nat && negb b).
Proof.
  intros Hp Hc. destruct sep_other as (? & ? & ? & ?).
  assert (Hcd : digit hex c = false) by (destruct Hc as [->| ->]; [done|apply digit_nul]).
  assert (c <> 120 /\ c <> 88 /\ c <> 48) as (? & ? & ?) by (destruct Hc as [->| ->]; done).
  destruct (skip_num_spec hex p c x (Z.of_nat digits) Hp Hcd) as (k & -> & Hk & Hiff & Hpre); [done..|].
  exists k. split_and!; [done..|].
  rewrite (is_hex_prefix_spec p c x) by done.
  exists (hex && (k =? 2)%nat && prefixed p). split; [by destruct hex, (k =? 2)%nat|].
  unfold number_ok. apply eq_iff_eq_true. rewrite !andb_true_iff, !negb_true_iff, Nat.eqb_eq, Nat.eqb_neq.
  rewrite !Nat.leb_le, Hiff. unfold strip in *. destruct (hex && prefixed p) eqn:E.
  - apply andb_true_iff in E as [-> E']. rewrite E', andb_true_r. cbn [andb].
    specialize (Hpre eq_refl). rewrite length_drop in *. rewrite Nat.eqb_neq.
    split; [intros [[? ?] ?]|intros [[[? ?] ?] ?]]; split_and!; try done; try lia.
    assert (k = length p) by (apply Hiff; split; [done|lia]). lia.
  - assert (hex && (k =? 2)%nat && prefixed p = false) as ->
      by (destruct hex; cbn in *; [rewrite E; apply andb_false_r|done]).
    split; [intros [[? ?] ?]|intros [[[? ?] ?] ?]]; split_and!; try done; try lia.
    assert (k = length p) by (apply Hiff; split; [done|lia]). lia.
Qed.

Lemma check_field_step n p c x :
  is_str p -> (sep ∉ p) -> (c = sep \/ c = 0) ->
  check_fields hex (Z.of_nat digits) sep (S n) (p ++ c :: x)
  = if number_ok hex digits p && (c =? if (n =? 0)%nat then 0 else sep)
    then check_fields hex (Z.of_nat digits) sep n x else Some (-1).
Proof.
  intros Hp Hn Hc. cbn [check_fields].
  destruct (field_spec p c x Hp Hc) as (k & -> & Hk & b & Hb & Hok). cbn [mbind option_bind].
  rewrite Hok. destruct (Nat.eqb_spec k 0); [by rewrite andb_false_r|]. rewrite Hb.
  cbn [mbind option_bind]. destruct b; [by rewrite andb_false_r|]. cbn [negb]. rewrite !andb_true_r.
  destruct (Nat.eqb_spec k (length p)) as [->|Hne]; cbn [andb].
  - rewrite lookup_app_r, Nat.sub_diag by lia. cbn [lookup list_lookup mbind option_bind].
    replace (drop (length p + 1) (p ++ c :: x)) with x
      by (rewrite <- drop_drop, drop_app_length; done).
    by destruct (Nat.eqb_spec n 0), (Z.eqb_spec c sep), (Z.eqb_spec c 0).
  - destruct (lookup_lt_is_Some_2 p k) as [d Hd]; [lia|].
    rewrite lookup_app_l, Hd by lia. cbn [mbind option_bind].
    apply list_elem_of_lookup_2 in Hd. assert (d <> sep) by set_solver.
    unfold is_str in Hp. rewrite Forall_forall in Hp. specialize (Hp d Hd).
    destruct (Nat.eqb_spec n 0), (Z.eqb_spec d sep), (Z.eqb_spec d 0); done || lia.
Qed.

Lemma check_fields_spec n s x :
  is_str s ->
  check_fields hex (Z.of_nat digits) sep (S n) (s ++ 0 :: x)
  = Some (if fields_ok hex digits sep (S n) s then 0 else -1).
Proof.
  destruct sep_other as (_ & _ & _ & Hs0).
  revert s. induction n as [|n IH]; intros s Hs; unfold fields_ok;
    destruct (split_on_cases sep s) as [[Es Hn]|(p & s' & -> & Hn & Es)]; rewrite Es.
  - rewrite check_field_step by auto. cbn [Nat.eqb length forallb andb]. rewrite Z.eqb_refl.
    cbn [check_fields]. by destruct (number_ok hex digits s).
  - apply Forall_app in Hs as [Hp _]. rewrite <- app_assoc. cbn [app].
    rewrite check_field_step by auto. cbn [Nat.eqb length].
    destruct (Z.eqb_spec sep 0); [done|]. rewrite andb_false_r.
    by destruct (split_on_cases sep s') as [[-> _]|(? & ? & _ & _ & ->)].
  - rewrite check_field_step by auto. cbn [Nat.eqb length].
    destruct (Z.eqb_spec 0 sep); [done|]. by rewrite andb_false_r.
  - apply Forall_app in Hs as [Hp Hs']. inversion Hs'; subst. rewrite <- app_assoc. cbn [app].
    rewrite check_field_step by auto. cbn [Nat.eqb length forallb]. rewrite Z.eqb_refl, andb_true_r.
    rewrite IH by done. unfold fields_ok.
    destruct (number_ok hex digits p); cbn [andb]; [done|by rewrite andb_false_r].
Qed.

End Fields.

Lemma full_number_spec hex s x :
  is_str s ->
  exists k, skip_num hex (s ++ 0 :: x) (-1) = Some k /\ (k <= length s)%nat
    /\ exists c, (s ++ 0 :: x) !! k = Some c
    /\ (c =? 0) = forallb (digit hex) (strip hex s)
    /\ (c = 0 -> k = length s).
Proof.
  intros Hs. destruct (skip_num_spec hex s 0 x (-1) Hs (digit_nul hex)) as (k & -> & Hk & Hiff & _);
    [done..|]. exists k. split_and!; [done..|].
  destruct (decide (k = length s)) as [->|Hne].
  - exists 0. rewrite lookup_app_r, Nat.sub_diag by lia. split_and!; [done| |done].
    destruct Hiff as [Hiff _]. by destruct Hiff as [-> _].
  - destruct (lookup_lt_is_Some_2 s k) as [d Hd]; [lia|]. exists d.
    rewrite lookup_app_l by lia. apply list_elem_of_lookup_2 in Hd as Hin.
    unfold is_str in Hs. rewrite Forall_forall in Hs. specialize (Hs d Hin).
    split_and!; [done| |lia]. destruct (Z.eqb_spec d 0); [lia|].
    destruct (forallb (digit hex) (strip hex s)); [|done]. exfalso. apply Hne, Hiff. split; [done|lia].
Qed.

Lemma validate_type_spec s x type :
  is_str s ->
  _env_flags_validate_type (s ++ 0 :: x) type = Some (if value_ok type s then 0 else -1).
Proof.
  intros Hs. unfold _env_flags_validate_type, value_ok.
  destruct (Z.eqb_spec type env_flags_vartype_string) as [->|_]; [done|].
  destruct (type =? env_flags_vartype_decimal).
  { destruct (full_number_spec false s x Hs) as (k & -> & _ & c & Hc & Hok & _).
    cbn [mbind option_bind]. rewrite Hc. cbn [mbind option_bind]. rewrite Hok.
    change (digit false) with isdigit. change (strip false s) with s. by destruct (forallb isdigit s). }
  destruct (type =? env_flags_vartype_hex).
  { destruct (full_number_spec true s x Hs) as (k & -> & Hk & c & Hc & Hok & Hend).
    cbn [mbind option_bind]. rewrite Hc. cbn [mbind option_bind]. rewrite Hok.
    change (digit true) with isxdigit in *. destruct (forallb isxdigit (strip true s)); [|done].
    cbn [negb andb]. apply Z.eqb_eq in Hok as ->. rewrite (Hend eq_refl).
    rewrite is_hex_prefix_spec by done. cbn [mbind option_bind].
    by destruct (Nat.eqb_spec (length s) 2), (prefixed s). }
  destruct (type =? env_flags_vartype_bool).
  { destruct Hs as [|a s Ha Hs]; [done|]. cbn [app lookup list_lookup mbind option_bind].
    destruct Hs as [|b s Hb Hs]; [by destruct (existsb _ _)|]. cbn [app].
    destruct (existsb _ _); [|done]. cbn. destruct (Z.eqb_spec b 0); [lia|done]. }
  destruct (type =? env_flags_vartype_ipaddr).
  { by apply (check_fields_spec false 3 46). }
  destruct (type =? env_flags_vartype_macaddr).
  { by apply (check_fields_spec true 2 58). }
  by destruct (type =? env_flags_vartype_end).
Qed.

(** The type check accepts exactly the values of the type: decimal and
    hexadecimal numbers, one-letter booleans, four parts of one to three
    digits for an IP address, six parts of one or two hexadecimal digits for
    a MAC address; it never reads behind the terminator. *)
Theorem validate_type_correct s x type :
  is_str s ->
  _env_flags_validate_type (s ++ 0 :: x) type = Some (if value_ok type s then 0 else -1).
Proof. apply validate_type_spec. Qed.

Lemma validate_type_correct_witness :
  _env_flags_validate_type (bytes_of "00:1a:2B:0xc:4:5f" ++ [0]) env_flags_vartype_macaddr = Some 0.
Proof.
  rewrite validate_type_correct; [vm_compute; reflexivity|by apply (bool_decide_unpack _)].
Defined.

(** ** The flags of the entries *)

(** Position of a character in [rep], 0 for an unknown one. *)
Definition char_index (rep : str) (c : Z) : Z :=
  match list_find (fun x => x = c) rep with Some (k, _) => Z.of_nat k | None => 0 end.

(** The binary flags a flag string stands for. *)
Definition bin_of (v : str) : Z :=
  match v with
  | [] => 0
  | [t] => char_index env_flags_vartype_rep t
  | t :: a :: _ =>
      char_index env_flags_vartype_rep t
      .| nth (Z.to_nat (char_index env_flags_varaccess_rep a)) env_flags_varaccess_mask 0
  end.

Lemma parse_char_spec rep loc v x :
  is_str v -> is_str rep ->
  parse_char rep loc (v ++ 0 :: x)
  = Some (match v !! loc with Some c => char_index rep c | None => 0 end).
Proof.
  intros Hv Hr. unfold parse_char. rewrite strlen_cstr by done. cbn [mbind option_bind].
  destruct (Nat.leb_spec (length v) loc) as [Hle|Hlt].
  { by rewrite lookup_ge_None_2. }
  destruct (lookup_lt_is_Some_2 v loc Hlt) as [c Hc]. rewrite lookup_app_l, Hc by done.
  cbn [mbind option_bind]. apply list_elem_of_lookup_2 in Hc. unfold is_str in Hv.
  rewrite Forall_forall in Hv. specialize (Hv c Hc).
  destruct (strchr_spec rep c [] Hr Hv) as [[Hn E]|(s1 & s2 & -> & Hn & E)]; unfold cstr; rewrite E;
    cbn [mbind option_bind]; unfold char_index.
  - assert (list_find (fun x => x = c) rep = None) as ->; [|done].
    apply list_find_None, Forall_forall. intros y Hy ->. done.
  - assert (list_find (fun x => x = c) (s1 ++ c :: s2) = Some (length s1, c)) as ->; [|done].
    apply list_find_Some. split_and!; [by rewrite lookup_app_r, Nat.sub_diag by lia|done|].
    intros j y Hy Hlt' ->. apply Hn. rewrite lookup_app_l in Hy by done.
    by apply list_elem_of_lookup_2 in Hy.
Qed.

Lemma char_index_lt rep c : rep <> [] -> 0 <= char_index rep c < Z.of_nat (length rep).
Proof.
  intros Hr. unfold char_index. destruct (list_find _ rep) as [[k y]|] eqn:E.
  - apply list_find_Some in E as (E & _). apply lookup_lt_Some in E. lia.
  - destruct rep; [done|]. cbn. lia.
Qed.

Lemma env_parse_flags_to_bin_spec v x :
  is_str v -> env_parse_flags_to_bin (v ++ 0 :: x) = Some (bin_of v).
Proof.
  intros Hv. unfold env_parse_flags_to_bin, env_flags_parse_vartype, env_flags_parse_varaccess.
  rewrite !parse_char_spec by (done || by apply (bool_decide_unpack _)). cbn [mbind option_bind].
  assert (Hm : forall c, (char_index env_flags_vartype_rep c .& ENV_FLAGS_VARTYPE_BIN_MASK)
    = char_index env_flags_vartype_rep c).
  { intros c. pose proof (char_index_lt env_flags_vartype_rep c ltac:(done)) as Hb.
    change (Z.of_nat (length env_flags_vartype_rep)) with 6 in Hb.
    change ENV_FLAGS_VARTYPE_BIN_MASK with (Z.ones 3). rewrite Z.land_ones by lia.
    apply Z.mod_small. lia. }
  destruct v as [|t [|a v]]; cbn [lookup list_lookup nth]; [done| |].
  - rewrite Hm. change (env_flags_varaccess_mask !! Z.to_nat 0) with (Some 0).
    cbn [mbind option_bind]. by rewrite Z.lor_0_r.
  - rewrite Hm. unfold bin_of.
    pose proof (char_index_lt env_flags_varaccess_rep a ltac:(done)) as Hb.
    change (Z.of_nat (length env_flags_varaccess_rep)) with 4 in Hb.
    destruct (lookup_lt_is_Some_2 env_flags_varaccess_mask (Z.to_nat (char_index env_flags_varaccess_rep a)))
      as [m Hmk]; [change (length env_flags_varaccess_mask) with 4%nat; lia|].
    rewrite Hmk. cbn [mbind option_bind]. by rewrite (nth_lookup_Some _ _ 0 m Hmk).
Qed.

(** What an entry of the list makes of the flags. *)
Definition attr_flags (a : option str) : Z := match a with Some v => bin_of v | None => 0 end.

(** The flags of all variables after a list: a later entry wins. *)
Definition assign (F : str -> Z) (e : str * option str) : str -> Z :=
  fun k => if decide (k = e.1) then attr_flags e.2 else F k.

Definition flags_from (l : list (str * option str)) (F : str -> Z) : str -> Z := fold_left assign l F.

Definition flags_are (T : list _ENTRY) (F : str -> Z) : Prop :=
  forall i s, live T i s -> flags (entry s) = F (key (entry s)).

(** Changing flags or callback of one slot. *)
Lemma set_entry_spec h T i s f :
  wf h T -> live T i s -> (forall e, key (f e) = key e /\ data (f e) = data e) ->
  let T' := <[Z.to_nat i := Slot (used s) (f (entry s))]> T in
  set_entry h i f = Some (Htab (Some T') (size h) (filled h)) /\ same T T'
  /\ wf (Htab (Some T') (size h) (filled h)) T'.
Proof.
  intros Hwf Hl Hf T'. pose proof (live_range h T Hwf i s Hl) as Hr. destruct Hl as (Hi & Hs & Hu).
  assert (Hsame : same T T').
  { unfold same, T'. apply Forall2_same_length_lookup. rewrite length_insert. split; [done|].
    intros j x y Hx Hy. apply list_lookup_insert_Some in Hy as [(<- & <- & _)|[_ Hy]].
    - rewrite Hs in Hx. injection Hx as <-. destruct (Hf (entry s)). done.
    - rewrite Hx in Hy. injection Hy as <-. done. }
  split_and!; [|done|by apply (same_wf h T T')].
  unfold set_entry. rewrite (get_slot_at h T Hwf i s) by (done || lia). cbn [mbind option_bind].
  by apply (set_slot_at h T Hwf); lia.
Qed.

Lemma live_insert T i s s' j x :
  live T i s -> used s' = used s -> live (<[Z.to_nat i := s']> T) j x ->
  (j = i /\ x = s') \/ (j <> i /\ live T j x).
Proof.
  intros (Hi & Hs & Hu) Hus (Hj & Hx & Hxu).
  apply list_lookup_insert_Some in Hx as [(E & <- & _)|[Hne Hx]].
  - left. split; [lia|done].
  - right. split; [by intros ->|done].
Qed.

Lemma set_flags_spec h T F n a :
  wf h T -> is_str n -> (forall v, a = Some v -> is_str v) -> flags_are T F ->
  exists h' T', set_flags n a h = Some (0, h') /\ wf h' T' /\ same T T' /\ size h' = size h
    /\ filled h' = filled h /\ flags_are T' (assign F (n, a)).
Proof.
  intros Hwf Hn Ha HF. unfold set_flags.
  destruct (find_live h T n Hwf Hn) as [[Hab ->]|(i & s & Hl & Hk & ->)]; cbn [mbind option_bind].
  { exists h, T. split_and!; [done..|]. intros i s Hl. unfold assign. rewrite decide_False; [by eapply HF|].
    by eapply Hab. }
  assert ((match a with
     | Some v => if (length v =? 0)%nat then Some 0 else env_parse_flags_to_bin (cstr v)
     | None => Some 0 end) = Some (attr_flags a)) as ->.
  { destruct a as [v|]; [|done]. unfold cstr. rewrite env_parse_flags_to_bin_spec by auto.
    by destruct v. }
  cbn [mbind option_bind].
  destruct (set_entry_spec h T i s (with_flags (attr_flags a)) Hwf Hl) as (-> & Hsame & Hwf'); [done|].
  cbn [mbind option_bind]. eexists _, _. split_and!; [done..|].
  intros j x Hx. apply (live_insert T i s) in Hx as [[-> ->]|[Hne Hx]]; [..|done|done].
  - cbn. unfold assign. cbn. by rewrite decide_True.
  - unfold assign. cbn. rewrite decide_False; [by eapply HF|]. intros E.
    apply Hne. apply (wf_unique _ _ Hwf _ _ _ _ Hx Hl). congruence.
Qed.

(** *** Walking over the table *)

Section Clear.
Context (g : ENTRY -> ENTRY).
Hypothesis g_same : forall e, key (g e) = key e /\ data (g e) = data e.

Definition clear_slot (i j : Z) (s : _ENTRY) : _ENTRY :=
  if decide (i <= j /\ 0 < used s) then Slot (used s) (g (entry s)) else s.

Lemma walk_loop_clear fuel h T i :
  wf h T -> 1 <= i <= size h + 1 -> size h - i + 1 < Z.of_nat fuel ->
  exists T', walk_loop fuel (fun s e => (0, s, g e)) tt h i
      = Some (0, tt, Htab (Some T') (size h) (filled h))
    /\ same T T' /\ wf (Htab (Some T') (size h) (filled h)) T'
    /\ forall j, 0 <= j -> T' !! Z.to_nat j = clear_slot i j <$> T !! Z.to_nat j.
Proof.
  intros Hwf. revert h T i Hwf. induction fuel as [|fuel IH]; intros h T i Hwf Hi Hf; [lia|].
  cbn [walk_loop]. assert (Hh : h = Htab (Some T) (size h) (filled h)).
  { destruct h. cbn. f_equal. apply Hwf. }
  destruct (Z.leb_spec i (size h)) as [Hle|Hgt].
  - destruct (slot_at h T Hwf i) as [sl Hsl]; [lia|].
    rewrite (get_slot_at h T Hwf i sl) by (done || lia). cbn [mbind option_bind].
    destruct (Z.ltb_spec 0 (used sl)) as [Hu|Hu].
    + rewrite (set_slot_at h T Hwf) by lia. cbn [mbind option_bind negb Z.eqb].
      destruct (set_entry_spec h T i sl g Hwf (conj (proj1 Hi) (conj Hsl Hu)) g_same) as (_ & Hsame & Hwf').
      set (T1 := <[Z.to_nat i := _]> T) in *.
      destruct (IH _ T1 (i + 1) Hwf') as (T' & E & Hs' & Hw' & Hl); [cbn; lia|cbn; lia|].
      exists T'. split_and!; [done| |done|].
      { by etrans. }
      intros j Hj. rewrite Hl by done. unfold T1. destruct (decide (j = i)) as [->|Hne].
      * rewrite list_lookup_insert_eq by (by eapply lookup_lt_Some). rewrite Hsl. cbn. f_equal.
        unfold clear_slot. cbn. rewrite decide_False, decide_True by lia. done.
      * rewrite list_lookup_insert_ne by lia. destruct (T !! Z.to_nat j); [|done]. cbn. f_equal.
        unfold clear_slot. destruct (decide (i + 1 <= j /\ _)), (decide (i <= j /\ _)); done || lia.
    + destruct (IH h T (i + 1) Hwf) as (T' & E & Hs' & Hw' & Hl); [lia|lia|].
      exists T'. split_and!; [done..|]. intros j Hj. rewrite Hl by done.
      destruct (T !! Z.to_nat j) as [x|] eqn:Ex; [|done]. cbn. f_equal. unfold clear_slot.
      destruct (decide (i + 1 <= j /\ _)), (decide (i <= j /\ _)); try done; [lia|].
      assert (j = i) as -> by lia. rewrite Hsl in Ex. injection Ex as ->. lia.
  - exists T. split_and!; [by rewrite Hh at 1|done|by rewrite <- Hh|].
    intros j Hj. destruct (T !! Z.to_nat j) as [x|] eqn:Ex; [|done]. cbn. f_equal. unfold clear_slot.
    rewrite decide_False; [done|]. apply lookup_lt_Some in Ex. pose proof (wf_len _ _ Hwf). lia.
Qed.

End Clear.

Lemma clear_flags_spec h T :
  wf h T ->
  exists T', hwalk_r clear_flags tt h = Some (0, tt, Htab (Some T') (size h) (filled h))
    /\ same T T' /\ wf (Htab (Some T') (size h) (filled h)) T' /\ flags_are T' (fun _ => 0).
Proof.
  intros Hwf. unfold hwalk_r, clear_flags. pose proof (wf_size _ _ Hwf).
  destruct (walk_loop_clear (with_flags 0) ltac:(done) (Z.to_nat (size h) + 1) h T 1 Hwf)
    as (T' & E & Hs & Hw & Hl); [lia|lia|].
  exists T'. split_and!; [done..|]. intros i s (Hi & Hs' & Hu). rewrite Hl in Hs' by lia.
  destruct (T !! Z.to_nat i) as [x|]; [|done]. cbn in Hs'. injection Hs' as <-.
  unfold clear_slot in *. case_decide as Hd; [done|]. lia.
Qed.

Lemma trim_str s : is_str s -> is_str (trim s).
Proof.
  assert (Hd : forall f t, is_str t -> is_str (drop_while f t)).
  { intros f t Ht. destruct (drop_while_split f t) as (l & E & _). rewrite E in Ht.
    by apply Forall_app in Ht as [_ ?]. }
  intros Hs. unfold trim, rtrim. apply Forall_reverse, Hd, Forall_reverse, Hd, Hs.
Qed.

Lemma cut_str c s : is_str s -> is_str (cut c s).1 /\ (forall b, (cut c s).2 = Some b -> is_str b).
Proof.
  intros Hs. rewrite (cut_inv c s) in Hs. destruct (cut c s) as [a [b|]]; cbn [fst snd] in *.
  - apply Forall_app in Hs as [? Hs]. inversion Hs; subst. split; [done|]. by intros ? [= <-].
  - done.
Qed.

Lemma split_on_str c s : is_str s -> Forall is_str (split_on c s).
Proof.
  induction 1 as [|x s Hx Hs IH]; cbn [split_on]; [by repeat constructor|].
  destruct (x =? c); [constructor; [constructor|done]|]. destruct (split_on c s) as [|e l].
  - constructor; [|constructor]. by constructor.
  - inversion IH; subst. constructor; [by constructor|done].
Qed.

Definition str_entry (e : str * option str) : Prop := is_str e.1 /\ forall a, e.2 = Some a -> is_str a.

Lemma entries_str s : is_str s -> Forall str_entry (entries s).
Proof.
  intros Hs. unfold entries. apply Forall_forall. intros x [_ Hx]%list_elem_of_filter.
  apply list_elem_of_fmap in Hx as (e & -> & He). pose proof (split_on_str ENV_ATTR_LIST_DELIM s Hs) as Hall.
  rewrite Forall_forall in Hall. specialize (Hall e He). clear He. rename Hall into He.
  unfold entry_of, str_entry. cbn.
  destruct (cut_str ENV_ATTR_SEP e He) as [H1 H2]. split; [by apply trim_str|].
  intros a. destruct (cut ENV_ATTR_SEP e).2; cbn; [|done]. intros [= <-]. by apply trim_str, H2.
Qed.

Lemma set_flags_all h T F l :
  wf h T -> Forall str_entry l -> flags_are T F ->
  exists h' T', call_all set_flags l h = Some (0, h') /\ wf h' T' /\ same T T' /\ size h' = size h
    /\ filled h' = filled h /\ flags_are T' (flags_from l F).
Proof.
  intros Hwf Hl. revert h T F Hwf. induction Hl as [|[n a] l [Hn Ha] Hl IH]; intros h T F Hwf HF.
  { exists h, T. done. }
  cbn [call_all]. cbn in Hn, Ha.
  destruct (set_flags_spec h T F n a Hwf Hn Ha HF) as (h1 & T1 & -> & Hwf1 & Hs1 & Hsz1 & Hf1 & HF1).
  cbn [mbind option_bind Z.eqb negb].
  destruct (IH h1 T1 _ Hwf1 HF1) as (h2 & T2 & -> & Hwf2 & Hs2 & Hsz2 & Hf2 & HF2).
  exists h2, T2. split_and!; [done|done| |congruence|congruence|done].
  by etrans.
Qed.

Lemma walk_static s {S} (cb : str -> option str -> S -> option (Z * S)) st :
  is_str s -> env_attr_walk cb (Some (cstr s)) st = call_all cb (entries s) st.
Proof.
  intros Hs. unfold env_attr_walk, cstr. apply env_attr_walk_loop_spec; [done|].
  rewrite length_app. cbn. lia.
Qed.

Lemma on_flags_spec h T v :
  wf h T -> (forall s, v = Some s -> is_str s) ->
  exists h' T', on_flags v h = Some h' /\ wf h' T' /\ same T T' /\ size h' = size h
    /\ filled h' = filled h
    /\ flags_are T' (flags_from (match v with Some s => entries s | None => [] end)
                       (flags_from (entries ENV_FLAGS_LIST_STATIC) (fun _ => 0))).
Proof.
  intros Hwf Hv. unfold on_flags.
  destruct (clear_flags_spec h T Hwf) as (T0 & -> & Hs0 & Hwf0 & HF0). cbn [mbind option_bind].
  assert (Hst : is_str ENV_FLAGS_LIST_STATIC) by (by apply (bool_decide_unpack _)).
  rewrite walk_static by done.
  destruct (set_flags_all _ T0 _ (entries ENV_FLAGS_LIST_STATIC) Hwf0 (entries_str _ Hst) HF0)
    as (h1 & T1 & -> & Hwf1 & Hs1 & Hsz1 & Hf1 & HF1). cbn [mbind option_bind size filled] in *.
  assert (Hs01 : same T T1) by (by etrans).
  destruct v as [s|]; cbn [option_map].
  - rewrite walk_static by auto.
    destruct (set_flags_all _ T1 _ (entries s) Hwf1 (entries_str _ (Hv s eq_refl)) HF1)
      as (h2 & T2 & -> & Hwf2 & Hs2 & Hsz2 & Hf2 & HF2). cbn [mbind option_bind].
    exists h2, T2. split_and!; [done|done| |congruence|congruence|done].
    by etrans.
  - exists h1, T1. done.
Qed.

(** Writing [.flags] gives every variable in the table the flags of its
    last entry in the new list, else those of the static list, else none;
    names, values and the table structure stay. *)
Theorem on_flags_correct h T v :
  wf h T -> (forall s, v = Some s -> is_str s) ->
  exists h' T', on_flags v h = Some h' /\ wf h' T' /\ abs T' = abs T
    /\ flags_are T' (flags_from (match v with Some s => entries s | None => [] end)
                       (flags_from (entries ENV_FLAGS_LIST_STATIC) (fun _ => 0))).
Proof.
  intros Hwf Hv. destruct (on_flags_spec h T v Hwf Hv) as (h' & T' & E & Hw & Hs & _ & _ & HF).
  exists h', T'. split_and!; [done|done| |done]. unfold abs. by rewrite (same_pairs T T').
Qed.

(** ** The hooks of the hash table *)

(** What the hooks see besides the table; [fault] is set when one of them
    leaves an object or does not end. *)
Record world := World { w_gd : gd_t; fault : bool }.

Definition set_fault (w : world) : world := World (w_gd w) true.

Section Hooks.
Context (default_environment env_at before_var before_static : list Z).

(** The callbacks registered outside the environment code. *)
Context (other_callback : str -> str -> option str -> env_op -> Z -> world -> bool * world).

(** [env_flags_validate] looks at the default environment only, neither at
    the table nor at the flags of [gd]. *)
Definition change_veto (e : ENTRY) (v : option str) (op : env_op) (flag : Z) : bool :=
  match env_flags_validate default_environment env_at (Gd true true 1) (Htab None 0 0) e v op flag with
  | Some r => negb (r =? 0)
  | None => true
  end.

Definition run_env_callback (cb k : str) (v : option str) (op : env_op) (flag : Z)
    (st : hsearch_data * world) : bool * (hsearch_data * world) :=
  let '(h, w) := st in
  if decide (cb = bytes_of "flags") then
    match on_flags v h with Some h' => (false, (h', w)) | None => (false, (h, set_fault w)) end
  else if decide (cb = bytes_of "callbacks") then
    match on_callbacks v h with Some h' => (false, (h', w)) | None => (false, (h, set_fault w)) end
  else let '(r, w) := other_callback cb k v op flag w in (r, (h, w)).

Definition or_fault (r : option ENTRY) (e : ENTRY) (w : world) : ENTRY * world :=
  match r with Some e' => (e', w) | None => (e, set_fault w) end.

#[global] Instance env_hooks : EnvHooks world := {
  change_ok := Some change_veto;
  run_callback := run_env_callback;
  Hashtable.env_callback_init e st :=
    or_fault (env_callback_init default_environment env_at before_var before_static
                (w_gd st.2) st.1 e) e st.2;
  Hashtable.env_flags_init e st :=
    or_fault (env_flags_init default_environment env_at before_var before_static
                (w_gd st.2) st.1 e) e st.2;
}.

(** *** The frame *)

Definition framed (h h' : hsearch_data) : Prop :=
  forall T, table h = Some T ->
  exists T', h' = Htab (Some T') (size h) (filled h) /\ same T T'.

Lemma framed_refl h : framed h h.
Proof. intros T HT. exists T. split; [|done]. destruct h. cbn in *. by subst. Qed.

Lemma framed_trans h1 h2 h3 : framed h1 h2 -> framed h2 h3 -> framed h1 h3.
Proof.
  intros H12 H23 T HT. destruct (H12 T HT) as (T2 & -> & Hs).
  destruct (H23 T2 eq_refl) as (T3 & -> & Hs'). exists T3. split; [done|by etrans].
Qed.

Lemma set_slot_frame h i s s' h' :
  get_slot h i = Some s -> same_slot s s' -> set_slot h i s' = Some h' -> framed h h'.
Proof.
  unfold get_slot, set_slot. intros Hg Hs Hset T HT. rewrite HT in *. cbn in *.
  destruct (Z.ltb_spec i 0); [done|]. case_decide; [|done]. injection Hset as <-.
  eexists. split; [done|]. unfold same. apply Forall2_same_length_lookup. rewrite length_insert.
  split; [done|]. intros j x y Hx Hy.
  apply list_lookup_insert_Some in Hy as [(<- & <- & _)|[_ Hy]].
  - rewrite Hg in Hx. by injection Hx as <-.
  - rewrite Hx in Hy. by injection Hy as <-.
Qed.

Lemma set_entry_frame h i f h' :
  (forall e, key (f e) = key e /\ data (f e) = data e) ->
  set_entry h i f = Some h' -> framed h h'.
Proof.
  intros Hf. unfold set_entry. destruct (get_slot h i) as [s|] eqn:E; [|done]. cbn.
  apply set_slot_frame with s; [done|]. destruct (Hf (entry s)). done.
Qed.

Lemma walk_loop_frame {S} fuel (f : S -> ENTRY -> Z * S * ENTRY) s h i r s' h' :
  (forall s e, key (f s e).2 = key e /\ data (f s e).2 = data e) ->
  walk_loop fuel f s h i = Some (r, s', h') -> framed h h'.
Proof.
  intros Hf. revert s h i. induction fuel as [|fuel IH]; intros s h i; [done|]. cbn [walk_loop].
  destruct (i <=? size h); [|intros [= _ _ <-]; apply framed_refl].
  destruct (get_slot h i) as [sl|] eqn:E; [|done]. cbn [mbind option_bind].
  destruct (0 <? used sl); [|apply IH].
  destruct (f s (entry sl)) as [[rv s1] e] eqn:Ef. pose proof (Hf s (entry sl)) as [Hk Hd].
  rewrite Ef in Hk, Hd. cbn in Hk, Hd.
  destruct (set_slot h i (Slot (used sl) e)) as [h1|] eqn:Es; [|done]. cbn [mbind option_bind].
  assert (Hfr : framed h h1).
  { eapply set_slot_frame; [exact E| |exact Es]. done. }
  destruct (negb (rv =? 0)); [by intros [= _ _ <-]|].
  intros Hw. eapply framed_trans; [done|by eapply IH].
Qed.

Lemma walk_frame (cb : str -> option str -> hsearch_data -> option (Z * hsearch_data)) fuel l h r h' :
  (forall n a h r h', cb n a h = Some (r, h') -> framed h h') ->
  env_attr_walk_loop cb fuel l h = Some (r, h') -> framed h h'.
Proof.
  intros Hcb. revert l h. induction fuel as [|fuel IH]; intros l h; [done|]. cbn [env_attr_walk_loop].
  destruct (strchr l _) as [fin|]; [|done]. cbn [mbind option_bind].
  destruct (copy_entry l fin) as [c|]; [|done]. cbn [mbind option_bind].
  destruct (walk_entry cb c h) as [[rv h1]|] eqn:E; [|done]. cbn [mbind option_bind].
  assert (Hfr : framed h h1).
  { unfold walk_entry in E. destruct c as [c|]; [|injection E as _ <-; apply framed_refl].
    destruct (split_entry c) as [[n a]|]; [|done]. cbn [mbind option_bind] in E.
    destruct (length n =? 0)%nat; [injection E as _ <-; apply framed_refl|]. by eapply Hcb. }
  destruct (negb (rv =? 0)); [by intros [= _ <-]|].
  destruct fin; [|by intros [= _ <-]]. intros Hw. eapply framed_trans; [done|by eapply IH].
Qed.

Lemma attr_walk_frame cb l h r h' :
  (forall n a h r h', cb n a h = Some (r, h') -> framed h h') ->
  env_attr_walk cb l h = Some (r, h') -> framed h h'.
Proof.
  intros Hcb. unfold env_attr_walk. destruct l as [l|]; [by apply walk_frame|].
  intros [= _ <-]. apply framed_refl.
Qed.

Lemma set_flags_frame n a h r h' : set_flags n a h = Some (r, h') -> framed h h'.
Proof.
  unfold set_flags. destruct (find h n) as [[i|]|]; [..|done]; cbn [mbind option_bind];
    [|intros [= _ <-]; apply framed_refl].
  match goal with |- context [?o ≫= _] => destruct o as [fl|]; [|done] end. cbn [mbind option_bind].
  destruct (set_entry h i _) as [h1|] eqn:E; [|done]. intros [= _ <-].
  by eapply set_entry_frame; [|exact E].
Qed.

Lemma set_callback_frame n a h r h' : set_callback n a h = Some (r, h') -> framed h h'.
Proof.
  unfold set_callback. destruct (find h n) as [[i|]|]; [..|done]; cbn [mbind option_bind];
    [|intros [= _ <-]; apply framed_refl].
  destruct a as [[|c v]|]; cbn [mbind option_bind]; [|destruct (find_env_callback (c :: v))|]; cbn [mbind option_bind].
  all: try (intros [= _ <-]; apply framed_refl).
  all: destruct (set_entry h i _) as [h1|] eqn:E; [|done]; intros [= _ <-];
       by eapply set_entry_frame; [|exact E].
Qed.

Lemma on_flags_frame v h h' : on_flags v h = Some h' -> framed h h'.
Proof.
  unfold on_flags. destruct (hwalk_r clear_flags tt h) as [[[? ?] h1]|] eqn:E1; [|done].
  cbn [mbind option_bind]. destruct (env_attr_walk set_flags _ h1) as [[? h2]|] eqn:E2; [|done].
  cbn [mbind option_bind]. destruct (env_attr_walk set_flags _ h2) as [[? h3]|] eqn:E3; [|done].
  intros [= <-]. apply walk_loop_frame in E1; [|done].
  apply (attr_walk_frame _ _ _ _ _ set_flags_frame) in E2, E3. eauto using framed_trans.
Qed.

Lemma on_callbacks_frame v h h' : on_callbacks v h = Some h' -> framed h h'.
Proof.
  unfold on_callbacks. destruct (hwalk_r clear_callback tt h) as [[[? ?] h1]|] eqn:E1; [|done].
  cbn [mbind option_bind]. destruct (env_attr_walk set_callback _ h1) as [[? h2]|] eqn:E2; [|done].
  cbn [mbind option_bind]. destruct (env_attr_walk set_callback _ h2) as [[? h3]|] eqn:E3; [|done].
  intros [= <-]. apply walk_loop_frame in E1; [|done].
  apply (attr_walk_frame _ _ _ _ _ set_callback_frame) in E2, E3. eauto using framed_trans.
Qed.

#[global] Instance env_hooks_frame : HooksFrame world.
Proof.
  split.
  - intros cb k v op flag h w T HT. cbn. unfold run_env_callback.
    case_decide; [|case_decide].
    + destruct (on_flags v h) as [h'|] eqn:E.
      * destruct (on_flags_frame _ _ _ E T HT) as (T' & -> & Hs). eauto 6.
      * destruct (framed_refl h T HT) as (T' & -> & Hs). cbn. eauto 6.
    + destruct (on_callbacks v h) as [h'|] eqn:E.
      * destruct (on_callbacks_frame _ _ _ E T HT) as (T' & -> & Hs). eauto 6.
      * destruct (framed_refl h T HT) as (T' & -> & Hs). cbn. eauto 6.
    + destruct (other_callback cb k v op flag w) as [r w'].
      destruct (framed_refl h T HT) as (T' & -> & Hs). cbn. eauto 6.
  - intros e st. cbn. unfold or_fault. destruct (env_callback_init _ _ _ _ _ _ e) as [e'|] eqn:E; [|done].
    unfold env_callback_init in E. repeat (case_match || simplify_option_eq); done.
  - intros e st. cbn. unfold or_fault. destruct (env_flags_init _ _ _ _ _ _ e) as [e'|] eqn:E; [|done].
    unfold env_flags_init in E. repeat (case_match || simplify_option_eq); done.
Qed.

End Hooks.

(** ** Access rights *)

(** What each access letter allows: [old] is the value of an overwritten
    variable, [def] its default value. *)
Definition rights (access : Z) (op : env_op) (old def : str) : bool :=
  match op with
  | env_op_create => negb (access =? env_flags_varaccess_readonly)
  | env_op_delete => access =? env_flags_varaccess_any
  | env_op_overwrite =>
      (access =? env_flags_varaccess_any)
      || ((access =? env_flags_varaccess_changedefault) && bool_decide (old = def))
  end.

(** A flag string with a type and an access letter as they are in [item]. *)
Definition flag_bits (type access : Z) : Z :=
  type .| nth (Z.to_nat access) env_flags_varaccess_mask 0.

Lemma flag_bits_spec type access :
  0 <= type < 8 -> 0 <= access < 4 ->
  (ENV_FLAGS_VARTYPE_BIN_MASK .& flag_bits type access) = type
  /\ negb ((flag_bits type access .& ENV_FLAGS_VARACCESS_PREVENT_DELETE) =? 0)
     = negb (access =? env_flags_varaccess_any)
  /\ negb ((flag_bits type access .& ENV_FLAGS_VARACCESS_PREVENT_CREATE) =? 0)
     = (access =? env_flags_varaccess_readonly)
  /\ negb ((flag_bits type access .& ENV_FLAGS_VARACCESS_PREVENT_OVERWR) =? 0)
     = ((access =? env_flags_varaccess_readonly) || (access =? env_flags_varaccess_writeonce))
  /\ negb ((flag_bits type access .& ENV_FLAGS_VARACCESS_PREVENT_NONDEF_OVERWR) =? 0)
     = (access =? env_flags_varaccess_changedefault).
Proof.
  intros Ht Ha.
  assert (Ht' : type = 0 \/ type = 1 \/ type = 2 \/ type = 3 \/ type = 4 \/ type = 5 \/ type = 6 \/ type = 7) by lia.
  assert (Ha' : access = 0 \/ access = 1 \/ access = 2 \/ access = 3) by lia.
  destruct Ha' as [->|[->|[->| ->]]];
    destruct Ht' as [->|[->|[->|[->|[->|[->|[->| ->]]]]]]]; vm_compute; done.
Qed.

Lemma bin_of_bits t a v :
  bin_of (t :: a :: v)
  = flag_bits (char_index env_flags_vartype_rep t) (char_index env_flags_varaccess_rep a).
Proof. done. Qed.

Lemma first_value_str l name v : Forall good_pair l -> first_value name l = Some v -> is_str v.
Proof.
  induction 1 as [|[n w] l (_ & _ & _ & Hv) _ IH]; [done|].
  cbn [first_value]. case_decide; [by intros [= <-]|done].
Qed.

Section Access.
Context (default_environment env_at : list Z) (l : list (str * str)) (x : list Z).
Hypothesis default_text : default_environment = env_text l x.
Hypothesis default_good : Forall good_pair l.
Hypothesis default_size : Z.of_nat (length (concat (map pair_text l))) <= CONFIG_ENV_SIZE.

(** The default value as [getenv_default] gives it. *)
Definition default_value (name : str) : str := take (env_buf_size - 1) (default [] (first_value name l)).

Lemma until_nul_spec s y : is_str s -> until_nul (s ++ 0 :: y) = s.
Proof.
  induction 1 as [|c s Hc Hs IH]; [done|]. cbn [app until_nul]. destruct (Z.eqb_spec c 0); [lia|].
  by rewrite IH.
Qed.

Lemma getenv_default_spec gd h name :
  is_str name -> (61 ∉ name) ->
  exists d, getenv_default default_environment env_at gd h name = Some d
    /\ default [] d = default_value name.
Proof.
  intros Hn He. unfold getenv_default, getenv. cbn [env_ready]. unfold getenv_f, cstr.
  rewrite (getenv_f_loop_spec default_environment env_at (Gd false (reloc gd) 0) _ [] l x); try done.
  - unfold default_value. destruct (first_value name l) as [v|] eqn:Ev; cbn [mbind option_bind].
    + pose proof (first_value_str l name v default_good Ev) as Hv. cbn [from_option id default]. unfold found.
      case_decide as Hd; cbn [mbind option_bind].
      * destruct v as [|c v]; [by exists None|].
        destruct (Z.ltb_spec 0 (Z.of_nat (length (c :: v)))); [|cbn [length] in *; lia].
        eexists. split; [done|]. cbn [from_option id]. rewrite until_nul_spec by done.
        rewrite take_ge; [done|]. unfold env_buf_size in *. lia.
      * eexists. split; [done|]. cbn [from_option id]. rewrite until_nul_spec; [done|]. by apply Forall_take.
    + by exists None.
  - unfold env_buf_size. lia.
  - assert (Hle : (length l <= length (concat (map pair_text l)))%nat).
    { clear. induction l as [|p l' IH]; cbn [map concat length]; [lia|].
      rewrite length_app, length_pair_text. lia. }
    lia.
Qed.

(** A change of a variable with a type and an access letter is allowed
    exactly when a new value is of the type, and the change is forced or
    within the rights: read-only allows nothing, write-once only creation,
    change-default also overwriting the default value. *)
Theorem env_flags_validate_correct gd h item newval op flag type access :
  0 <= type < 8 -> 0 <= access < 4 -> flags item = flag_bits type access ->
  is_str (key item) -> (61 ∉ key item) -> is_str (data item) ->
  is_str (default [] newval) ->
  exists r, env_flags_validate default_environment env_at gd h item newval op flag = Some r
    /\ (r = 0 <->
        (op = env_op_delete \/ value_ok type (default [] newval) = true)
        /\ ((flag .& H_FORCE) <> 0
            \/ rights access op (data item) (default_value (key item)) = true)).
Proof.
  intros Ht Ha Hf Hk He Hd Hv. unfold env_flags_validate. rewrite Hf.
  destruct (flag_bits_spec type access Ht Ha) as (-> & -> & -> & -> & ->).
  unfold cstr. rewrite validate_type_spec by done.
  destruct (getenv_default_spec gd h (key item) Hk He) as (dv & -> & Hdv).
  assert (Hds : is_str (default [] dv)).
  { rewrite Hdv. apply Forall_take. destruct (first_value (key item) l) as [v|] eqn:Ev; cbn; [|done].
    by eapply first_value_str. }
  assert (Hforce : negb ((flag .& H_FORCE) =? 0) = true <-> (flag .& H_FORCE) <> 0)
    by (by rewrite negb_true_iff, Z.eqb_neq).
  destruct (negb ((flag .& H_FORCE) =? 0)) eqn:Ef.
  - assert ((flag .& H_FORCE) <> 0) by (by apply Hforce).
    destruct op; cbn [mbind option_bind]; try destruct (value_ok type _); eexists; (split; [done|]);
      naive_solver.
  - assert (~ (flag .& H_FORCE) <> 0) by (rewrite <- Hforce; done).
    assert (Ha' : access = 0 \/ access = 1 \/ access = 2 \/ access = 3) by lia. unfold rights.
    destruct op; cbn [mbind option_bind]; try destruct (value_ok type _);
      try (eexists; (split; [done|]); naive_solver).
    all: destruct (strcmp_spec (data item) (default [] dv) [] [] Hd Hds) as (r & Hr & Hr0 & _).
    all: destruct Ha' as [->|[->|[->| ->]]]; cbn [Z.eqb Pos.eqb orb andb negb Z.ltb Z.compare
      env_flags_varaccess_any env_flags_varaccess_readonly env_flags_varaccess_writeonce
      env_flags_varaccess_changedefault mbind option_bind];
      try (eexists; (split; [done|]); naive_solver).
    rewrite Hr. cbn [mbind option_bind]. eexists. split; [done|]. rewrite <- Hdv, bool_decide_eq_true.
    rewrite <- Hr0. destruct (Z.eqb_spec r 0); naive_solver.
Qed.

End Access.

(** ** Protected variables *)

Section Protected.
Context (default_environment env_at before_var before_static : list Z).
Context (other_callback : str -> str -> option str -> env_op -> Z -> world -> bool * world).

#[local] Instance hooks : EnvHooks world :=
  env_hooks default_environment env_at before_var before_static other_callback.

Lemma compare_vetoed h T (w : world) i s d flag :
  wf h T -> live T i s -> (flag .& H_FORCE) = 0 ->
  (flags (entry s) .& ENV_FLAGS_VARACCESS_PREVENT_OVERWR) <> 0 ->
  is_str d ->
  _compare_and_overwrite_entry (key (entry s)) (Some d) ENTER flag
    (hash1 (size h) (key (entry s))) i (h, w) = Some (Some (failure EPERM), (h, w)).
Proof.
  intros Hwf (Hi & Hs & Hu) Hf Hp Hd. unfold _compare_and_overwrite_entry. cbn [fst].
  rewrite (get_slot_at h T Hwf i s) by (done || lia). cbn [mbind option_bind].
  destruct (used_live h T Hwf i s Hi Hs Hu) as [-> Hstr]. rewrite Z.eqb_refl. cbn [andb].
  rewrite (proj2 (streq_spec _ _ Hstr Hstr)) by done.
  assert (vetoed (entry s) (Some d) env_op_overwrite flag = true) as ->; [|done].
  unfold vetoed. cbn. unfold change_veto, env_flags_validate. cbn [from_option id default].
  unfold cstr. rewrite validate_type_spec by done. cbn [mbind option_bind]. rewrite Hf.
  destruct (Z.eqb_spec (flags (entry s) .& ENV_FLAGS_VARACCESS_PREVENT_OVERWR) 0); [done|].
  by destruct (value_ok _ d).
Qed.

(** C40: A variable whose flags prevent overwriting and deletion keeps its
    value: unless the change is forced, both return [EPERM] and neither the
    table nor the rest of the state changes. *)
Theorem protected_variable_kept h T (w : world) i s d flag :
  wf h T -> live T i s -> (flag .& H_FORCE) = 0 -> is_str d ->
  ((flags (entry s) .& ENV_FLAGS_VARACCESS_PREVENT_OVERWR) <> 0 ->
   hsearch_r (key (entry s)) (Some d) ENTER (h, w) flag = Some (failure EPERM, (h, w)))
  /\ ((flags (entry s) .& ENV_FLAGS_VARACCESS_PREVENT_DELETE) <> 0 ->
      hdelete_r (key (entry s)) (h, w) flag = Some (failure EPERM, (h, w))).
Proof.
  intros Hwf Hl Hf Hd. pose proof Hl as (Hi & Hs & Hu).
  destruct (used_live h T Hwf i s Hi Hs Hu) as [_ Hstr]. split; intros Hp.
  - eapply hsearch_hit; try done. by eapply compare_vetoed.
  - unfold hdelete_r.
    destruct (find_spec h T w (key (entry s)) None 0 Hwf Hstr) as [[Hab _]|(i' & s' & Hl' & Hk & ->)].
    { by destruct (Hab i s Hl). }
    assert (i' = i) as -> by (apply (wf_unique _ _ Hwf _ _ _ _ Hl' Hl); done).
    cbn [mbind option_bind ret fst]. destruct (Z.eqb_spec i 0); [lia|].
    rewrite (get_slot_at h T Hwf i s) by (done || lia). cbn [mbind option_bind].
    assert (vetoed (entry s) None env_op_delete flag = true) as ->; [|done].
    unfold vetoed. cbn. unfold change_veto, env_flags_validate. cbn [mbind option_bind]. rewrite Hf.
    by destruct (Z.eqb_spec (flags (entry s) .& ENV_FLAGS_VARACCESS_PREVENT_DELETE) 0).
Qed.

End Protected.

(** ** New variables *)

Lemma flags_from_last l F k :
  flags_from l F k
  = match last (omap (fun e => if decide (k = e.1) then Some e.2 else None) l) with
    | Some a => attr_flags a
    | None => F k
    end.
Proof.
  revert F. induction l as [|e l IH]; intros F; [done|]. cbn [flags_from fold_left omap list_omap].
  fold (flags_from l (assign F e)). rewrite IH. unfold assign.
  case_decide; [rewrite last_cons|]; by destruct (last _).
Qed.

Definition no_space (s : str) : Prop := Forall (fun c => isspace c = false) s.

#[global] Instance no_space_dec s : Decision (no_space s).
Proof. unfold no_space. apply _. Defined.

Lemma drop_while_none f s : Forall (fun c => f c = false) s -> drop_while f s = s.
Proof. destruct 1 as [|c s Hc _]; [done|]. by apply drop_while_id. Qed.

Lemma no_space_blank s : no_space s -> Forall (fun c => blank c = false) s.
Proof.
  intros Hs. eapply Forall_impl; [exact Hs|]. intros c Hc. unfold blank. destruct (Z.eqb_spec c 32) as [->|]; [by vm_compute in Hc|done].
Qed.

Lemma trim_none s : no_space s -> trim s = s /\ trim_blank s = s.
Proof.
  intros Hs. pose proof (no_space_blank s Hs) as Hb. unfold trim, rtrim, trim_blank.
  rewrite !(drop_while_none _ s), !(drop_while_none _ (reverse s))
    by (done || by apply Forall_reverse). by rewrite reverse_involutive.
Qed.

Lemma take_while_all f s : Forall (fun c => f c = true) s -> take_while f s = s.
Proof. induction 1 as [|c s Hc _ IH]; [done|]. cbn [take_while]. by rewrite Hc, IH. Qed.

(** Without white space both readings of an entry agree. *)
Lemma attr_for_entry k e :
  no_space e -> (ENV_ATTR_LIST_DELIM ∉ e) ->
  attr_for k e = if decide (k = (entry_of e).1) then Some (default [] (entry_of e).2) else None.
Proof.
  intros Hs Hn. unfold attr_for, entry_of. cbn [fst snd]. pose proof (cut_inv ENV_ATTR_SEP e) as E.
  destruct (cut ENV_ATTR_SEP e) as [a [b|]]; cbn [fst snd option_map] in *; subst.
  - apply Forall_app in Hs as [Ha Hb]. inversion Hb as [|? ? _ Hb']; subst.
    destruct (trim_none a Ha) as [-> ->]. destruct (trim_none b Hb') as [-> _].
    assert (attr_word (Some b) = b) as ->.
    { unfold attr_word. rewrite drop_while_none by (by apply no_space_blank). apply take_while_all.
      apply Forall_forall. intros c Hc. unfold in_attr.
      pose proof (no_space_blank b Hb') as Hbl. rewrite Forall_forall in Hbl. specialize (Hbl c Hc).
      unfold blank in Hbl. rewrite Hbl. destruct (Z.eqb_spec c ENV_ATTR_LIST_DELIM); [|done].
      subst. set_solver. }
    repeat case_decide; try done; congruence.
  - destruct (trim_none a Hs) as [-> ->]. cbn. repeat case_decide; try done; congruence.
Qed.

Lemma split_on_parts c s :
  Forall (fun e => (c ∉ e)) (split_on c s)
  /\ forall P : Z -> Prop, Forall P s -> Forall (Forall P) (split_on c s).
Proof.
  induction s as [|x s [IH1 IH2]]; cbn [split_on].
  { split; [|intros P _]; constructor; try constructor. apply not_elem_of_nil. }
  destruct (Z.eqb_spec x c) as [->|Hne].
  - split; [constructor; [apply not_elem_of_nil|done]|]. intros P HP. inversion HP; subst.
    constructor; [constructor|auto].
  - destruct (split_on c s) as [|e l] eqn:El.
    + split; [constructor; [set_solver|constructor]|]. intros P HP. inversion HP; subst.
      constructor; [by constructor|constructor].
    + inversion IH1; subst. split; [constructor; [set_solver|done]|].
      intros P HP. inversion HP; subst. specialize (IH2 P ltac:(done)). inversion IH2; subst.
      constructor; [by constructor|done].
Qed.

Lemma last_attr_flags k s F :
  no_space s -> k <> [] ->
  flags_from (entries s) F k
  = match last_attr k s with Some a => bin_of a | None => F k end.
Proof.
  intros Hs Hk. rewrite flags_from_last. unfold last_attr, entries.
  destruct (split_on_parts ENV_ATTR_LIST_DELIM s) as [Hc Hp]. specialize (Hp _ Hs).
  assert (E : omap (attr_for k) (split_on ENV_ATTR_LIST_DELIM s) = default [] <$>
    omap (fun e => if decide (k = e.1) then Some e.2 else None)
      (filter (fun e => e.1 <> []) (map entry_of (split_on ENV_ATTR_LIST_DELIM s)))).
  { induction (split_on ENV_ATTR_LIST_DELIM s) as [|e l IH]; [done|].
    inversion Hc; inversion Hp; subst. specialize (IH ltac:(done) ltac:(done)). cbn [map omap list_omap].
    rewrite attr_for_entry by done. destruct (decide ((entry_of e).1 <> [])) as [Hne|Hne].
    - rewrite filter_cons_True by done. cbn [omap list_omap]. case_decide; [|done].
      cbn [fmap list_fmap]. by f_equal.
    - rewrite filter_cons_False by done. rewrite decide_False; [done|]. intros ->. by apply Hne. }
  rewrite E, fmap_last. destruct (last (omap _ _)) as [[v|]|]; done.
Qed.

Lemma last_attr_str k s a : is_str s -> last_attr k s = Some a -> is_str a.
Proof.
  unfold last_attr. intros Hs Ha. apply last_Some_elem_of in Ha.
  apply list_elem_of_omap in Ha as (e & He & Ha).
  pose proof (split_on_str ENV_ATTR_LIST_DELIM s Hs) as Hp. rewrite Forall_forall in Hp.
  specialize (Hp e He). unfold attr_for in Ha. case_decide; [|done]. injection Ha as <-.
  destruct (cut_str ENV_ATTR_SEP e Hp) as [_ Hc]. destruct (cut ENV_ATTR_SEP e).2 as [b|]; [|constructor].
  specialize (Hc b eq_refl). unfold attr_word. destruct (drop_while_split blank b) as (l & E & _).
  rewrite E in Hc. apply Forall_app in Hc as [_ Hc]. rewrite <- take_while_prefix. by apply Forall_take.
Qed.

Lemma last_attr_nil k : k <> [] -> last_attr k [] = None.
Proof.
  intros Hk. unfold last_attr. cbn [split_on omap list_omap]. unfold attr_for.
  change (trim_blank (cut ENV_ATTR_SEP []).1) with ([] : str). by rewrite decide_False.
Qed.

Lemma last_attr_static k :
  k <> [] -> last_attr k ENV_FLAGS_LIST_STATIC = if decide (bytes_of "ethaddr" = k) then Some (bytes_of "ma") else None.
Proof.
  intros Hk. unfold last_attr.
  change (split_on ENV_ATTR_LIST_DELIM ENV_FLAGS_LIST_STATIC) with [bytes_of "ethaddr:ma"; []].
  cbn [omap list_omap]. unfold attr_for.
  change (trim_blank (cut ENV_ATTR_SEP []).1) with ([] : str).
  change (trim_blank (cut ENV_ATTR_SEP (bytes_of "ethaddr:ma")).1) with (bytes_of "ethaddr").
  rewrite (decide_False (P := [] = k)) by congruence. by destruct (decide (bytes_of "ethaddr" = k)).
Qed.

Section Init.
Context (default_environment env_at before_var before_static : list Z).
Hypothesis before_var_ok : drop_while blank (reverse before_var) <> [].
Hypothesis before_static_ok : drop_while blank (reverse before_static) <> [].

Definition flags_buf : list Z := replicate (ENV_FLAGS_ATTR_MAX_LEN + 1) 0.

(** The lookup into the three-byte buffer. *)
Lemma lookup_short pre k s :
  drop_while blank (reverse pre) <> [] -> Forall plain k -> k <> [] -> is_str s -> no_space s ->
  (forall a, last_attr k s = Some a -> (length a <= 2)%nat) ->
  env_attr_lookup (pre ++ cstr s) (Some (length pre)) (cstr k) (Some flags_buf) =
  Some (match last_attr k s with
        | Some a => (0, Some (a ++ 0 :: drop (length a + 1) flags_buf))
        | None => (2, Some flags_buf)
        end).
Proof.
  intros Hpre Hk Hne Hs Hsp Hlen. unfold cstr. rewrite env_attr_lookup_spec; try done.
  - destruct (last_attr k s) as [a|]; [|done]. unfold store_attr, flags_buf.
    rewrite length_replicate. specialize (Hlen a eq_refl). unfold ENV_FLAGS_ATTR_MAX_LEN.
    destruct (Nat.ltb_spec (length a) (2 + 1)); [done|lia].
  - destruct Hsp as [|c s Hc _]; [done|]. intros [= ->]. by vm_compute in Hc.
Qed.

Lemma lookup_static k :
  Forall plain k -> k <> [] ->
  env_attr_lookup (before_static ++ cstr ENV_FLAGS_LIST_STATIC) (Some (length before_static)) (cstr k)
    (Some flags_buf) =
  Some (match last_attr k ENV_FLAGS_LIST_STATIC with
        | Some a => (0, Some (a ++ 0 :: drop (length a + 1) flags_buf))
        | None => (2, Some flags_buf)
        end).
Proof.
  intros Hk Hne. apply lookup_short; try done; try by apply (bool_decide_unpack _).
  intros a. rewrite last_attr_static by done. case_decide; [|done]. intros [= <-]. vm_compute. lia.
Qed.

Lemma finish_flags a e :
  is_str a -> flags e = 0 ->
  (flags ← Some (a ++ 0 :: drop (length a + 1) flags_buf);
   n ← strlen flags;
   if (0 =? 0) && negb (n =? 0)%nat
   then fl ← env_parse_flags_to_bin flags; Some (with_flags fl e) else Some e)
  = Some (with_flags (bin_of a) e).
Proof.
  intros Ha He. cbn [mbind option_bind]. rewrite strlen_cstr, env_parse_flags_to_bin_spec by done.
  cbn [mbind option_bind Z.eqb andb]. destruct a as [|c a]; cbn [length Nat.eqb negb]; [|done].
  destruct e as [k d cb fl]. cbn in He. by subst.
Qed.

Lemma no_flags e :
  flags e = 0 ->
  (flags ← Some flags_buf;
   n ← strlen flags;
   if (2 =? 0) && negb (n =? 0)%nat
   then fl ← env_parse_flags_to_bin flags; Some (with_flags fl e) else Some e)
  = Some (with_flags 0 e).
Proof. intros He. destruct e as [k d cb fl]. cbn in He. by subst. Qed.

(** A variable created later gets the flags [on_flags] would give it:
    those of its last entry in [.flags], else of the static list.  The list
    must hold no white space and the flags of the variable at most two
    characters, the size of the buffer. *)
Theorem env_flags_init_correct gd h e fl :
  getenv default_environment env_at gd h ENV_FLAGS_VAR = Some fl ->
  Forall plain (key e) -> key e <> [] -> flags e = 0 ->
  is_str (default [] fl) -> no_space (default [] fl) ->
  (forall a, last_attr (key e) (default [] fl) = Some a -> (length a <= 2)%nat) ->
  env_flags_init default_environment env_at before_var before_static gd h e
  = Some (with_flags (flags_from (entries (default [] fl))
                       (flags_from (entries ENV_FLAGS_LIST_STATIC) (fun _ => 0)) (key e)) e).
Proof.
  intros Hg Hk Hne He Hs Hsp Hlen. unfold env_flags_init. rewrite Hg. cbn [mbind option_bind].
  rewrite (last_attr_flags _ _ _ Hsp Hne).
  rewrite last_attr_flags by (done || by apply (bool_decide_unpack _)).
  unfold env_flags_lookup. fold flags_buf.
  assert (Hstatic : forall a, last_attr (key e) ENV_FLAGS_LIST_STATIC = Some a -> is_str a)
    by (intros a; apply last_attr_str; by apply (bool_decide_unpack _)).
  assert (Hst : ('(ret, flags) ← env_attr_lookup (before_static ++ cstr ENV_FLAGS_LIST_STATIC)
       (Some (length before_static)) (cstr (key e)) (Some flags_buf);
       flags ← flags; n ← strlen flags;
       if (ret =? 0) && negb (n =? 0)%nat
       then fl ← env_parse_flags_to_bin flags; Some (with_flags fl e) else Some e)
     = Some (with_flags (match last_attr (key e) ENV_FLAGS_LIST_STATIC with Some a => bin_of a | None => 0 end) e)).
  { rewrite lookup_static by done. destruct (last_attr (key e) ENV_FLAGS_LIST_STATIC) as [a|];
      [by apply finish_flags; auto|by apply no_flags]. }
  destruct fl as [L|]; cbn [default from_option id] in *; [|by rewrite last_attr_nil].
  rewrite lookup_short by done. destruct (last_attr (key e) L) as [a|] eqn:Ea; cbn [mbind option_bind].
  - apply finish_flags; [by eapply last_attr_str|done].
  - exact Hst.
Qed.

End Init.

(** ** Examples *)

Lemma on_flags_correct_witness :
  exists h' T', on_flags (Some (bytes_of "b:d, a:xo")) demo = Some h' /\ wf h' T' /\ abs T' = abs demo_table
    /\ flags_are T' (flags_from (entries (bytes_of "b:d, a:xo"))
                       (flags_from (entries ENV_FLAGS_LIST_STATIC) (fun _ => 0))).
Proof.
  apply (on_flags_correct demo demo_table (Some (bytes_of "b:d, a:xo")) demo_table_wf).
  intros s [= <-]. by apply (bool_decide_unpack _).
Defined.

(** The variable "a" of [demo] after [.flags] made it write-once. *)
Definition write_once : hsearch_data :=
  match on_flags (Some (bytes_of "a:so")) demo with Some h => h | None => demo end.

Definition write_once_table : list _ENTRY := match table write_once with Some T => T | None => [] end.

Lemma write_once_wf : wf write_once write_once_table.
Proof.
  destruct (on_flags_spec demo demo_table (Some (bytes_of "a:so")) demo_table_wf)
    as (h' & T' & E & Hw & _).
  { intros s [= <-]. by apply (bool_decide_unpack _). }
  unfold write_once_table, write_once. rewrite E. by rewrite (wf_table _ _ Hw).
Qed.

Definition idle_callback (cb k : str) (v : option str) (op : env_op) (flag : Z) (w : world) : bool * world :=
  (false, w).

Definition demo_world : world := World (Gd true true 1) false.

Lemma protected_variable_kept_witness :
  let hk := env_hooks (env_text [] []) [] [0] [0] idle_callback in
  hsearch_r [97] (Some [98]) ENTER (write_once, demo_world) H_INTERACTIVE
    = Some (failure EPERM, (write_once, demo_world))
  /\ hdelete_r [97] (write_once, demo_world) 0 = Some (failure EPERM, (write_once, demo_world)).
Proof.
  assert (Hl : live write_once_table 3 (default zero_slot (write_once_table !! 3%nat))).
  { split_and!; [lia|by vm_compute|by vm_compute]. }
  split.
  - apply (protected_variable_kept (env_text [] []) [] [0] [0] idle_callback write_once write_once_table
      demo_world 3 (default zero_slot (write_once_table !! 3%nat)) [98] H_INTERACTIVE write_once_wf Hl);
      [done|by apply (bool_decide_unpack _)|by vm_compute].
  - apply (protected_variable_kept (env_text [] []) [] [0] [0] idle_callback write_once write_once_table
      demo_world 3 (default zero_slot (write_once_table !! 3%nat)) [] 0 write_once_wf Hl);
      [done|by apply (bool_decide_unpack _)|by vm_compute].
Defined.

Definition changedefault_entry : ENTRY :=
  Entry (bytes_of "ab") (bytes_of "xyz") None
    (flag_bits env_flags_vartype_string env_flags_varaccess_changedefault).

Lemma env_flags_validate_correct_witness :
  exists r, env_flags_validate (env_text demo_pairs []) [] (Gd true true 1) (Htab None 0 0)
      changedefault_entry (Some (bytes_of "q")) env_op_overwrite 0 = Some r
    /\ (r = 0 <->
        (env_op_overwrite = env_op_delete \/ value_ok 0 (bytes_of "q") = true)
        /\ ((0 .& H_FORCE) <> 0
            \/ rights 3 env_op_overwrite (bytes_of "xyz") (default_value demo_pairs (bytes_of "ab")) = true)).
Proof.
  apply (env_flags_validate_correct (env_text demo_pairs []) [] demo_pairs [] eq_refl
    ltac:(by apply (bool_decide_unpack _)) ltac:(by vm_compute) (Gd true true 1) (Htab None 0 0)
    changedefault_entry (Some (bytes_of "q")) env_op_overwrite 0 0 3);
    [lia|lia|done|by apply (bool_decide_unpack _)..].
Defined.

Lemma env_flags_init_correct_witness :
  env_flags_init (env_text [(ENV_FLAGS_VAR, bytes_of "foo:d,bar:so")] []) [] [0] [0] (Gd false true 0)
    (Htab None 0 0) (Entry (bytes_of "bar") (bytes_of "1") None 0)
  = Some (Entry (bytes_of "bar") (bytes_of "1") None 0x28).
Proof.
  rewrite (env_flags_init_correct (env_text [(ENV_FLAGS_VAR, bytes_of "foo:d,bar:so")] []) [] [0] [0]
    ltac:(done) ltac:(done) (Gd false true 0) (Htab None 0 0) (Entry (bytes_of "bar") (bytes_of "1") None 0)
    (Some (bytes_of "foo:d,bar:so"))); [by vm_compute|by vm_compute|by apply (bool_decide_unpack _)|done|done
    |by apply (bool_decide_unpack _)|by apply (bool_decide_unpack _)|].
  intros a. vm_compute. intros [= <-]. cbn. lia.
Defined.

(** The flags of a variable are copied to a buffer of three bytes without a
    check: three characters in [.flags] write behind it. *)
Example env_flags_init_overrun :
  env_flags_init (env_text [(ENV_FLAGS_VAR, bytes_of "foo:sro")] []) [] [0] [0] (Gd false true 0)
    (Htab None 0 0) (Entry (bytes_of "foo") (bytes_of "1") None 0) = None.
Proof. by vm_compute. Qed.

(** [sizeof] counts bytes: an access mask that is not in the table is looked
    for behind its end. *)
Example find_mask_overrun :
  env_flags_parse_varaccess_from_binflags ENV_FLAGS_VARACCESS_PREVENT_DELETE = None.
Proof. by vm_compute. Qed.

(** A variable with change-default access whose default value is longer than
    31 bytes cannot be changed although it has the default value. *)
Example changedefault_long :
  env_flags_validate (env_text demo_pairs []) [] (Gd true true 1) (Htab None 0 0)
    (Entry (bytes_of "a") (bytes_of "12345678901234567890123456789012345") None
       (flag_bits env_flags_vartype_string env_flags_varaccess_changedefault))
    (Some (bytes_of "q")) env_op_overwrite 0 = Some 1.
Proof. by vm_compute. Qed.

End EnvFlags.
