(* ===== verification/Nand.v ===== *)
(** * Reading, writing and erasing NAND flash (drivers/mtd/nand/nand_util.c)

    Bad blocks are skipped: the data goes on in the next good block.  The chip
    driver below ([nand_info_t], a structure of function pointers) is the class
    [NandInfo]; what it promises is [NandOk].  Progress messages and the
    watchdog are left out; the build has neither CONFIG_CMD_NAND_YAFFS nor
    CONFIG_CMD_NAND_TRIMFFS.  [None] is a loop that does not end, or a read
    past the end of the caller's buffer. *)

From S2P Require Import Prelude.

#[local] Open Scope Z_scope.
#[local] Open Scope word_scope.

Module Nand.

Definition EINVAL : Z := 22.
Definition EUCLEAN : Z := 117.
Definition WITH_DROP_FFS : Z := 2.

(** The operations of [nand_info_t] on the state [F] of the chip. [nand_read]
    gives return value, [retlen] and the bytes put into the buffer, [nand_write]
    return value and [retlen]. *)
Class NandInfo (F : Type) := {
  erasesize : Z;
  writesize : Z;
  nand_size : Z;
  oobavail : Z;
  nand_block_isbad : F -> Z -> Z;
  nand_read : F -> Z -> Z -> Z * Z * list Z * F;
  nand_write : F -> Z -> list Z -> Z * Z * F;
  nand_erase : F -> Z -> Z -> bool -> Z * F;
  write_cleanmarker : F -> Z -> Z * F;
  drop_bbt : F -> F;
  scan_bbt : F -> F;
}.

Section Nand.
Context {F : Type} `{!NandInfo F}.
Implicit Types (f : F).

Definition good (f : F) (block : Z) : bool := nand_block_isbad f block =? 0.

(** 0: fits and no bad blocks; 1: fits, but bad blocks; -1: does not fit. *)
Fixpoint check_skip_loop (fuel : nat) (f : F) (offset length len_excl_bad ret : Z) : option Z :=
  match fuel with
  | O => None
  | S fuel =>
      if len_excl_bad <? length then
        if nand_size <=? offset then Some (-1) else
        let block_start := offset .& Z.lnot (erasesize - 1) in
        let block_off := u32 (offset .& (erasesize - 1)) in
        let block_len := u32 (erasesize - block_off) in
        if good f block_start
        then check_skip_loop fuel f (offset + block_len) length (u32 (len_excl_bad + block_len)) ret
        else check_skip_loop fuel f (offset + block_len) length len_excl_bad 1
      else Some ret
  end.

(** One turn per block of the chip, and one to see that there are no more. *)
Definition turns : nat := (Z.to_nat (nand_size / erasesize) + 2)%nat.

Definition check_skip_len (f : F) (offset length : Z) : option Z := check_skip_loop turns f offset length 0 0.

(** The mask [~(erasesize - 1)] of the two loops is an unsigned 32-bit word. *)
Definition block_of (offset : Z) : Z := offset .& u32 (Z.lnot (erasesize - 1)).

(** Return value, the caller's buffer, the chip and what is left to read. *)
Fixpoint read_loop (fuel : nat) (f : F) (offset left_to_read : Z) (buffer : list Z) (p_buffer : nat)
    : option (Z * list Z * F * Z) :=
  match fuel with
  | O => None
  | S fuel =>
      if left_to_read =? 0 then Some (0, buffer, f, 0) else
      let block_offset := u32 (offset .& (erasesize - 1)) in
      if negb (good f (block_of offset))
      then read_loop fuel f (offset + (erasesize - block_offset)) left_to_read buffer p_buffer
      else
        let read_length := if left_to_read <? erasesize - block_offset then left_to_read
                           else erasesize - block_offset in
        let '(rval, read_length, data, f) := nand_read f offset read_length in
        let buffer := memcpy buffer p_buffer data in
        if negb (rval =? 0) && negb (rval =? - EUCLEAN) then Some (rval, buffer, f, left_to_read)
        else read_loop fuel f (offset + read_length) (u32 (left_to_read - read_length)) buffer
               (p_buffer + Z.to_nat read_length)
  end.

(** Return value, [*length], the buffer and the chip. *)
Definition nand_read_skip_bad (f : F) (offset length : Z) (buffer : list Z) : option (Z * Z * list Z * F) :=
  if negb (offset .& (writesize - 1) =? 0) then Some (- EINVAL, 0, buffer, f) else
  need_skip ← check_skip_len f offset length;
  if need_skip <? 0 then Some (- EINVAL, 0, buffer, f) else
  if need_skip =? 0 then
    let '(rval, retlen, data, f) := nand_read f offset length in
    let buffer := memcpy buffer 0 data in
    if (rval =? 0) || (rval =? - EUCLEAN) then Some (0, retlen, buffer, f) else Some (rval, 0, buffer, f)
  else
    '(rval, buffer, f, rest) ← read_loop turns f offset length buffer 0;
    Some (rval, u32 (length - rest), buffer, f).

(** [n] bytes at the front of the buffer. *)
Definition front (buffer : list Z) (n : Z) : option (list Z) :=
  if n <=? Z.of_nat (length buffer) then Some (take (Z.to_nat n) buffer) else None.

Fixpoint write_loop (fuel : nat) (f : F) (offset left_to_write : Z) (p_buffer : list Z)
    : option (Z * F * Z) :=
  match fuel with
  | O => None
  | S fuel =>
      if left_to_write =? 0 then Some (0, f, 0) else
      let block_offset := u32 (offset .& (erasesize - 1)) in
      if negb (good f (block_of offset))
      then write_loop fuel f (offset + (erasesize - block_offset)) left_to_write p_buffer
      else
        let write_size := if left_to_write <? erasesize - block_offset then left_to_write
                          else erasesize - block_offset in
        data ← front p_buffer write_size;
        let '(rval, _, f) := nand_write f offset data in
        if negb (rval =? 0) then Some (rval, f, left_to_write)
        else write_loop fuel f (offset + write_size) (left_to_write - write_size)
               (drop (Z.to_nat write_size) p_buffer)
  end.

(** Return value, [*length] and the chip. *)
Definition nand_write_skip_bad (f : F) (offset length : Z) (buffer : list Z) (flags : Z)
    : option (Z * Z * F) :=
  if negb (offset .& (writesize - 1) =? 0) then Some (- EINVAL, 0, f) else
  need_skip ← check_skip_len f offset length;
  if need_skip <? 0 then Some (- EINVAL, 0, f) else
  if (need_skip =? 0) && (flags .& WITH_DROP_FFS =? 0) then
    data ← front buffer length;
    let '(rval, retlen, f) := nand_write f offset data in
    Some (if rval =? 0 then (0, retlen, f) else (rval, 0, f))
  else
    '(rval, f, rest) ← write_loop turns f offset length buffer;
    Some (rval, u32 (length - rest), f).

(** [nand_erase_options_t] without [quiet]. *)
Record nand_erase_options := EraseOpts {
  e_length : Z;
  e_offset : Z;
  jffs2 : bool;
  scrub : bool;
  spread : bool;
}.

Fixpoint erase_loop (fuel : nat) (f : F) (opts : nand_erase_options) (addr erased_length erase_length : Z)
    : option (Z * F) :=
  match fuel with
  | O => None
  | S fuel =>
      if erased_length <? erase_length then
        let ret := if scrub opts then 0 else nand_block_isbad f addr in
        if 0 <? ret then
          erase_loop fuel f opts (addr + erasesize)
            (if spread opts then erased_length else erased_length + 1) erase_length
        else if ret <? 0 then Some (-1, f)
        else
          let '(result, f) := nand_erase f addr erasesize (scrub opts) in
          if negb (result =? 0) then erase_loop fuel f opts (addr + erasesize) (erased_length + 1) erase_length
          else
            let f := if jffs2 opts && (8 <=? oobavail) then (write_cleanmarker f addr).2 else f in
            erase_loop fuel f opts (addr + erasesize) (erased_length + 1) erase_length
      else Some (0, if scrub opts then scan_bbt f else f)
  end.

Definition nand_erase_opts (f : F) (opts : nand_erase_options) : option (Z * F) :=
  if negb (e_offset opts .& (erasesize - 1) =? 0) then Some (-1, f) else
  let erase_length := u32 ((e_length opts + erasesize - 1) / erasesize) in
  let f := if scrub opts then drop_bbt f else f in
  erase_loop (Z.to_nat erase_length + turns) f opts (e_offset opts) 0 erase_length.

End Nand.

(** ** What the driver promises *)

Definition same_bad {F} `{!NandInfo F} (f f' : F) : Prop :=
  forall a, nand_block_isbad f' a = nand_block_isbad f a.

(** A chip of up to 4 GiB, by the documented behaviour of the driver: a write to
    erased cells that succeeds leaves the data in them and changes no other
    cell; a read that succeeds, perhaps after a correction ([EUCLEAN]), gives
    the cells; an erase that succeeds leaves the block erased.  None of them
    changes the marks of bad blocks. *)
Class NandOk (F : Type) `{!NandInfo F} := {
  cells : F -> Z -> Z;
  erase_bits : Z;
  erasesize_pow : 0 <= erase_bits /\ erasesize = 2 ^ erase_bits;
  writesize_pow : exists j, 0 <= j <= erase_bits /\ writesize = 2 ^ j;
  nand_size_ok : 0 < nand_size < 2 ^ 32 /\ (erasesize | nand_size);
  write_cells f a data n f' :
    nand_write f a data = (0, n, f') ->
    (forall x, a <= x < a + Z.of_nat (length data) -> cells f x = 0xff) ->
    n = Z.of_nat (length data) /\ same_bad f f' /\ forall x, cells f' x = store (cells f) a data x;
  read_cells f a len rval n data f' :
    nand_read f a len = (rval, n, data, f') ->
    same_bad f f' /\ (forall x, cells f' x = cells f x)
    /\ (rval = 0 \/ rval = - EUCLEAN -> n = len /\ data = load (cells f) a (Z.to_nat len));
  erase_cells f a sc f' :
    nand_erase f a erasesize sc = (0, f') ->
    same_bad f f'
    /\ forall x, cells f' x = if (a <=? x) && (x <? a + erasesize) then 0xff else cells f x;
}.

Section Spec.
Context {F : Type} `{NandOk F}.
Implicit Types (f : F).

#[global] Instance same_bad_refl : Reflexive (@same_bad F _).
Proof. by intros f a. Qed.

#[global] Instance same_bad_trans : Transitive (@same_bad F _).
Proof. intros f f' f'' H1 H2 a. by rewrite H2, H1. Qed.

Lemma erasesize_pos : 0 < erasesize.
Proof. destruct erasesize_pow as [? ->]. lia. Qed.

Lemma erasesize_small : erasesize <= nand_size.
Proof. destruct nand_size_ok as [Hn Hd]. apply Z.divide_pos_le in Hd; lia. Qed.

Lemma in_block a : 0 <= a mod erasesize < erasesize.
Proof. apply Z.mod_pos_bound, erasesize_pos. Qed.

(** The masks of the code. *)
Lemma mask_mod a : a .& (erasesize - 1) = a mod erasesize.
Proof.
  destruct erasesize_pow as [Hb ->]. replace (2 ^ erase_bits - 1) with (Z.ones erase_bits) by (rewrite Z.ones_equiv; lia).
  by rewrite Z.land_ones.
Qed.

Lemma block_offset_mod a : u32 (a .& (erasesize - 1)) = a mod erasesize.
Proof.
  rewrite mask_mod. apply u32_small. pose proof (in_block a). pose proof erasesize_small.
  destruct nand_size_ok as [? _]. lia.
Qed.

Lemma block_start_mod a : a .& Z.lnot (erasesize - 1) = a - a mod erasesize.
Proof.
  destruct erasesize_pow as [Hb ->]. replace (2 ^ erase_bits - 1) with (Z.ones erase_bits) by (rewrite Z.ones_equiv; lia).
  rewrite <- Z.ldiff_land, Z.ldiff_ones_r, Z.shiftl_mul_pow2, Z.shiftr_div_pow2 by done.
  pose proof (Z.div_mod a (2 ^ erase_bits)). lia.
Qed.

Lemma block_of_mod a : 0 <= a < 2 ^ 32 -> block_of a = a - a mod erasesize.
Proof.
  intros Ha. unfold block_of. rewrite <- block_start_mod, wrap_land_ones by done.
  rewrite (Z.land_comm (Z.lnot _)), Z.land_assoc. f_equal. rewrite Z.land_ones by done.
  by apply Z.mod_small.
Qed.

(** ** The pieces of a transfer

    [length] bytes from [offset] on, the bad blocks left out: the address and
    the length of each piece; [None] when they do not fit on the chip. *)
Fixpoint pieces (fuel : nat) (f : F) (offset length : Z) : option (list (Z * Z)) :=
  match fuel with
  | O => None
  | S fuel =>
      if length <=? 0 then Some [] else
      if nand_size <=? offset then None else
      let off := offset mod erasesize in
      if negb (good f (offset - off)) then pieces fuel f (offset + (erasesize - off)) length
      else
        let n := Z.min length (erasesize - off) in
        l ← pieces fuel f (offset + n) (length - n); Some ((offset, n) :: l)
  end.

Definition gather (m : Z -> Z) (l : list (Z * Z)) : list Z :=
  concat (map (fun p => load m p.1 (Z.to_nat p.2)) l).

Abbreviation cells_of f l := (gather (cells f) l).

Definition total (l : list (Z * Z)) : Z := foldr (fun p n => p.2 + n) 0 l.

(** Every piece lies from [lo] on, inside one block. *)
Definition piece_from (lo : Z) (p : Z * Z) : Prop :=
  lo <= p.1 /\ 0 < p.2 /\ p.1 mod erasesize + p.2 <= erasesize.

Lemma pieces_from fuel f off len l :
  0 <= off -> pieces fuel f off len = Some l -> Forall (piece_from off) l /\ total l = Z.max 0 len.
Proof.
  revert off len l. induction fuel as [|fuel IH]; intros off len l Ho; [done|]. cbn [pieces].
  pose proof (in_block off) as Hb.
  destruct (Z.leb_spec len 0); [intros [= <-]; split; [constructor|cbn; lia]|].
  destruct (nand_size <=? off); [done|]. destruct (negb _).
  - intros Hl. apply IH in Hl as [Hf Ht]; [|lia]. split; [|done].
    eapply Forall_impl; [exact Hf|]. intros p (? & ? & ?). unfold piece_from. split_and!; lia.
  - intros (l' & Hl & [= <-])%bind_Some. set (n := Z.min len _) in *.
    apply IH in Hl as [Hf Ht]; [|lia]. split.
    + constructor; [split_and!; cbn; lia|]. eapply Forall_impl; [exact Hf|].
      intros p (? & ? & ?). unfold piece_from. split_and!; lia.
    + cbn [total foldr]. unfold total in Ht. rewrite Ht. cbn. lia.
Qed.

Lemma pieces_ext fuel f f' off len : same_bad f f' -> pieces fuel f' off len = pieces fuel f off len.
Proof.
  intros Hs. revert off len. induction fuel as [|fuel IH]; intros off len; [done|]. cbn [pieces].
  unfold good. rewrite Hs. destruct (len <=? 0), (nand_size <=? off); [done..|]. case_match; by rewrite IH.
Qed.

Lemma cells_of_ext f f' lo l :
  Forall (piece_from lo) l -> (forall x, lo <= x -> cells f' x = cells f x) -> cells_of f' l = cells_of f l.
Proof.
  intros Hl Hc. unfold gather. induction Hl as [|p l (? & ? & ?) _ IH]; [done|]. cbn [map concat].
  rewrite IH. f_equal. apply load_ext. intros x ?. apply Hc. lia.
Qed.

(** ** [check_skip_len] *)

(** What [check_skip_len] accepts fits on the chip; when it saw no bad block
    the pieces are adjacent. *)
Lemma check_loop_pieces fuel f off len excl ret r :
  0 <= off -> 0 <= excl <= off -> 0 <= ret -> check_skip_loop fuel f off len excl ret = Some r -> 0 <= r ->
  exists l, pieces fuel f off (len - excl) = Some l
    /\ (r = 0 -> ret = 0 /\ forall m, gather m l = load m off (Z.to_nat (len - excl))).
Proof.
  pose proof erasesize_pos as He. pose proof erasesize_small. destruct nand_size_ok as [Hns Hdv].
  revert off excl ret. induction fuel as [|fuel IH]; intros off excl ret Ho Hx Hret; [done|].
  cbn [check_skip_loop pieces]. pose proof (in_block off) as Hb.
  destruct (Z.ltb_spec excl len), (Z.leb_spec (len - excl) 0); try lia.
  2: { intros [= ->] _. exists []. split; [done|]. intros ->. split; [done|].
       intros m. by replace (Z.to_nat (len - excl)) with 0%nat by lia. }
  destruct (Z.leb_spec nand_size off) as [|Hoff]; [intros [= <-]; lia|].
  rewrite block_start_mod, block_offset_mod, u32_small by lia.
  assert (Hend : off + (erasesize - off mod erasesize) <= nand_size).
  { destruct Hdv as [q Hq]. pose proof (Z.div_mod off erasesize (Z.neq_sym _ _ (Z.lt_neq _ _ He))).
    assert (off / erasesize < q) by (apply Z.div_lt_upper_bound; lia). nia. }
  destruct (good f (off - off mod erasesize)); cbn [negb].
  - rewrite u32_small by lia. intros Hc Hr.
    destruct (IH (off + (erasesize - off mod erasesize)) (excl + (erasesize - off mod erasesize)) ret)
      as (l & Hl & Hadj); try done; try lia.
    set (n := Z.min (len - excl) (erasesize - off mod erasesize)).
    destruct (Z.le_gt_cases (len - excl) (erasesize - off mod erasesize)).
    + assert (Hn : n = len - excl) by lia. exists [(off, n)].
      assert (Hnil : pieces fuel f (off + n) (len - excl - n) = Some []).
      { destruct fuel; [done|]. cbn [pieces]. destruct (Z.leb_spec (len - excl - n) 0); [done|lia]. }
      rewrite Hnil. split; [done|]. intros Hr0. split; [by apply Hadj|]. intros m.
      unfold gather. cbn [map concat fst snd]. by rewrite app_nil_r, Hn.
    + assert (Hn : n = erasesize - off mod erasesize) by lia.
      replace (len - excl - n) with (len - (excl + (erasesize - off mod erasesize))) by lia.
      rewrite Hn, Hl. exists ((off, erasesize - off mod erasesize) :: l). split; [done|].
      intros Hr0. destruct (Hadj Hr0) as [? Ha]. split; [done|]. intros m.
      unfold gather in *. cbn [map concat fst snd]. rewrite Ha.
      replace (off + (erasesize - off mod erasesize))
        with (off + Z.of_nat (Z.to_nat (erasesize - off mod erasesize))) by lia.
      rewrite <- load_app. f_equal. lia.
  - intros Hc Hr. destruct (IH (off + (erasesize - off mod erasesize)) excl 1) as (l & Hl & Hadj); try done; try lia.
    exists l. split; [done|]. intros Hr0. by destruct (Hadj Hr0).
Qed.

Lemma check_loop_total fuel f off len excl ret :
  0 <= off -> (Z.to_nat ((nand_size - off + erasesize - 1) / erasesize) + 1 <= fuel)%nat ->
  exists r, check_skip_loop fuel f off len excl ret = Some r /\ (0 <= ret -> -1 <= r).
Proof.
  pose proof erasesize_pos as He. pose proof erasesize_small. destruct nand_size_ok as [Hns Hdv].
  revert off excl ret. induction fuel as [|fuel IH]; intros off excl ret Ho Hf; [lia|].
  cbn [check_skip_loop]. pose proof (in_block off) as Hb.
  destruct (excl <? len); [|exists ret; split; [done|lia]].
  destruct (Z.leb_spec nand_size off); [exists (-1); split; [done|lia]|].
  rewrite block_start_mod, block_offset_mod, u32_small by lia.
  set (off' := off + (erasesize - off mod erasesize)).
  assert (Hlt : (nand_size - off' + erasesize - 1) / erasesize < (nand_size - off + erasesize - 1) / erasesize).
  { pose proof (Z.div_mod off erasesize (Z.neq_sym _ _ (Z.lt_neq _ _ He))). destruct Hdv as [q Hq].
    replace (nand_size - off' + erasesize - 1) with (erasesize - 1 + (q - off / erasesize - 1) * erasesize) by nia.
    rewrite Z.div_add, (Z.div_small (erasesize - 1)) by lia.
    apply Z.lt_le_trans with (q - off / erasesize); [lia|]. apply Z.div_le_lower_bound; nia. }
  assert (1 <= (nand_size - off + erasesize - 1) / erasesize) by (apply Z.div_le_lower_bound; lia).
  assert (0 <= off') by (unfold off'; lia).
  destruct (good _ _).
  - apply IH; lia.
  - destruct (IH off' excl 1) as (r & Hr & Hle); [lia|lia|]. exists r. split; [done|]. intros _. apply Hle. lia.
Qed.

Lemma turns_enough off : 0 <= off -> (Z.to_nat ((nand_size - off + erasesize - 1) / erasesize) + 1 <= turns)%nat.
Proof.
  intros Ho. unfold turns. pose proof erasesize_pos.
  assert ((nand_size - off + erasesize - 1) / erasesize <= (nand_size + 1 * erasesize) / erasesize)
    by (apply Z.div_le_mono; lia).
  rewrite Z.div_add in * by lia. destruct nand_size_ok as [? _].
  assert (0 <= nand_size / erasesize) by (apply Z.div_pos; lia). lia.
Qed.

(** ** Reading and writing follow the pieces *)

(** The chip reads without an error that it cannot correct. *)
Definition read_works : Prop :=
  forall f a len, let rval := (nand_read f a len).1.1.1 in rval = 0 \/ rval = - EUCLEAN.

Lemma read_loop_spec fuel f off len l buf p :
  0 <= off -> 0 <= len < 2 ^ 32 -> (p <= length buf)%nat -> pieces fuel f off len = Some l ->
  exists rval buf' f' rest, read_loop fuel f off len buf p = Some (rval, buf', f', rest)
    /\ same_bad f f' /\ (forall x, cells f' x = cells f x)
    /\ (rval = 0 -> rest = 0 /\ buf' = memcpy buf p (cells_of f l)) /\ (read_works -> rval = 0).
Proof.
  revert f off len l buf p. induction fuel as [|fuel IH]; intros f off len l buf p Ho Hl Hp Hpc; [done|].
  cbn [read_loop pieces] in *. pose proof (in_block off) as Hb. destruct nand_size_ok as [Hns _].
  destruct (Z.eqb_spec len 0) as [|Hne], (Z.leb_spec len 0); try lia.
  { injection Hpc as <-. exists 0, buf, f, 0. split_and!; try done. intros _. by rewrite memcpy_nil. }
  destruct (Z.leb_spec nand_size off); [done|]. rewrite block_of_mod, block_offset_mod by lia.
  destruct (negb (good f (off - off mod erasesize))); [eapply IH; try done; lia|].
  apply bind_Some in Hpc as (l' & Hl' & [= <-]).
  set (n := if len <? _ then _ else _).
  assert (Hn : n = Z.min len (erasesize - off mod erasesize))
    by (unfold n; destruct (Z.ltb_spec len (erasesize - off mod erasesize)); lia).
  rewrite <- Hn in *. clearbody n.
  destruct (nand_read f off n) as [[[rval m] data] f1] eqn:Er.
  destruct (read_cells f off n rval m data f1 Er) as (Hb1 & Hc1 & Hok).
  destruct (negb (rval =? 0) && negb (rval =? - EUCLEAN)) eqn:Ev.
  { rewrite andb_true_iff, !negb_true_iff, !Z.eqb_neq in Ev. destruct Ev as [Ev1 Ev2].
    do 4 eexists. split; [done|]. split_and!; [done..|]. intros Hw. specialize (Hw f off n).
    rewrite Er in Hw. cbn in Hw. tauto. }
  destruct Hok as [-> ->].
  { apply andb_false_iff in Ev. rewrite !negb_false_iff, !Z.eqb_eq in Ev. tauto. }
  rewrite u32_small by lia.
  assert (Hlen : length (load (cells f) off (Z.to_nat n)) = Z.to_nat n) by apply load_length.
  destruct (IH f1 (off + n) (len - n) l' (memcpy buf p (load (cells f) off (Z.to_nat n))) (p + Z.to_nat n)%nat)
    as (rv & buf' & f2 & rest & -> & Hb2 & Hc2 & Hfin & Hworks); try lia.
  { unfold memcpy. rewrite !length_app, length_take, length_drop, Hlen. lia. }
  { by rewrite (pieces_ext fuel f). }
  do 4 eexists. split; [done|]. split; [by etrans|]. split; [intros x; by rewrite Hc2|].
  split; [|done]. intros Hrv. destruct (Hfin Hrv) as [-> ->]. split; [done|].
  rewrite <- Hlen at 2. rewrite memcpy_memcpy by done. do 2 f_equal. unfold gather. cbn [map concat fst snd].
  f_equal. f_equal. apply map_ext. intros q. by apply load_ext.
Qed.

Lemma front_some buf n : 0 <= n <= Z.of_nat (length buf) ->
  exists d, front buf n = Some d /\ d = take (Z.to_nat n) buf /\ Z.of_nat (length d) = n.
Proof.
  intros Hn. unfold front. destruct (Z.leb_spec n (Z.of_nat (length buf))); [|lia].
  eexists. split; [done|]. split; [done|]. rewrite length_take. lia.
Qed.

Definition erased (f : F) (l : list (Z * Z)) : Prop :=
  Forall (fun p => forall x, p.1 <= x < p.1 + p.2 -> cells f x = 0xff) l.

Lemma erased_ext f f' lo l :
  Forall (piece_from lo) l -> (forall x, lo <= x -> cells f' x = cells f x) -> erased f l -> erased f' l.
Proof.
  intros Hl Hc. unfold erased. rewrite !Forall_forall in *. intros He p Hp x Hx.
  destruct (Hl p Hp) as (? & _). rewrite Hc by lia. by apply (He p).
Qed.

Lemma write_loop_spec fuel f off len l buf :
  0 <= off -> 0 <= len <= Z.of_nat (length buf) -> pieces fuel f off len = Some l -> erased f l ->
  exists rval f' rest, write_loop fuel f off len buf = Some (rval, f', rest)
    /\ (rval = 0 -> rest = 0 /\ same_bad f f' /\ (forall x, x < off -> cells f' x = cells f x)
         /\ cells_of f' l = take (Z.to_nat len) buf).
Proof.
  revert f off len l buf. induction fuel as [|fuel IH]; intros f off len l buf Ho Hl Hpc Her; [done|].
  cbn [write_loop pieces] in *. pose proof (in_block off) as Hb. destruct nand_size_ok as [Hns _].
  destruct (Z.eqb_spec len 0) as [|Hne], (Z.leb_spec len 0); try lia.
  { injection Hpc as <-. exists 0, f, 0. split; [done|]. intros _. by subst len. }
  destruct (Z.leb_spec nand_size off); [done|]. rewrite block_of_mod, block_offset_mod by lia.
  destruct (negb (good f (off - off mod erasesize))).
  { destruct (IH f (off + (erasesize - off mod erasesize)) len l buf)
      as (rval & f' & rest & -> & Hfin); try done; try lia.
    do 3 eexists. split; [done|]. intros Hr. destruct (Hfin Hr) as (? & ? & Hx & ?). split_and!; try done.
    intros x ?. apply Hx. lia. }
  apply bind_Some in Hpc as (l' & Hl' & [= <-]).
  set (n := if len <? _ then _ else _).
  assert (Hn : n = Z.min len (erasesize - off mod erasesize))
    by (unfold n; destruct (Z.ltb_spec len (erasesize - off mod erasesize)); lia).
  rewrite <- Hn in *. clearbody n.
  destruct (front_some buf n) as (d & -> & Hd & Hdl); [lia|]. cbn [mbind option_bind].
  destruct (nand_write f off d) as [[rval m] f1] eqn:Ew.
  destruct (Z.eqb_spec rval 0) as [->|]; cbn [negb]; [|by do 3 eexists].
  apply Forall_cons in Her as [Her Her']. cbn [fst snd] in Her.
  destruct (write_cells f off d m f1 Ew) as (_ & Hb1 & Hc1); [by rewrite Hdl|].
  pose proof (pieces_from fuel f (off + n) (len - n) l' ltac:(lia) Hl') as [Hfrom _].
  assert (Hkeep : forall x, off + n <= x -> cells f1 x = cells f x)
    by (intros x ?; rewrite Hc1, store_out by lia; done).
  destruct (IH f1 (off + n) (len - n) l' (drop (Z.to_nat n) buf))
    as (rval & f2 & rest & -> & Hfin); try lia.
  { rewrite length_drop. lia. }
  { by rewrite (pieces_ext fuel f). }
  { by eapply erased_ext. }
  do 3 eexists. split; [done|]. intros Hr. destruct (Hfin Hr) as (-> & Hb2 & Hc2 & Hrest).
  split; [done|]. split; [by etrans|].
  split; [intros x ?; rewrite Hc2, Hc1, store_out by lia; done|].
  unfold gather in *. cbn [map concat fst snd]. rewrite Hrest.
  rewrite (load_ext (cells f2) (store (cells f) off d)) by (intros x ?; rewrite Hc2 by lia; apply Hc1).
  replace (Z.to_nat n) with (length d) at 1 by lia. rewrite load_store, Hd.
  replace (Z.to_nat len) with (Z.to_nat n + Z.to_nat (len - n))%nat by lia.
  by rewrite take_take_drop.
Qed.

Lemma check_loop_neg fuel f off len excl ret r :
  0 <= off -> 0 <= excl <= off -> 0 <= ret -> check_skip_loop fuel f off len excl ret = Some r -> r < 0 ->
  pieces fuel f off (len - excl) = None.
Proof.
  pose proof erasesize_pos as He. pose proof erasesize_small. destruct nand_size_ok as [Hns Hdv].
  revert off excl ret. induction fuel as [|fuel IH]; intros off excl ret Ho Hx Hret; [done|].
  cbn [check_skip_loop pieces]. pose proof (in_block off) as Hb.
  destruct (Z.ltb_spec excl len), (Z.leb_spec (len - excl) 0); try lia.
  2: { intros [= ->]. lia. }
  destruct (Z.leb_spec nand_size off); [done|]. rewrite block_start_mod, block_offset_mod, u32_small by lia.
  destruct (good f _); cbn [negb]; [|intros Hc Hr; apply (IH _ _ 1); done || lia].
  assert (Hend : off + (erasesize - off mod erasesize) <= nand_size).
  { destruct Hdv as [q Hq]. pose proof (Z.div_mod off erasesize (Z.neq_sym _ _ (Z.lt_neq _ _ He))).
    assert (off / erasesize < q) by (apply Z.div_lt_upper_bound; lia). nia. }
  rewrite u32_small by lia. intros Hc Hr. destruct (Z.le_gt_cases (len - excl) (erasesize - off mod erasesize)).
  - exfalso. destruct fuel; [done|]. cbn [check_skip_loop] in Hc.
    destruct (Z.ltb_spec (excl + (erasesize - off mod erasesize)) len); [lia|]. injection Hc as ->. lia.
  - apply IH in Hc; [|lia..]. rewrite Z.min_r by lia.
    replace (len - excl - _) with (len - (excl + (erasesize - off mod erasesize))) by lia. by rewrite Hc.
Qed.

Lemma check_spec f off len :
  0 <= off ->
  exists r, check_skip_len f off len = Some r
    /\ (r = -1 /\ pieces turns f off len = None \/ exists l, 0 <= r /\ pieces turns f off len = Some l
          /\ (r = 0 -> forall m, gather m l = load m off (Z.to_nat len))).
Proof.
  intros Ho. unfold check_skip_len.
  destruct (check_loop_total turns f off len 0 0) as (r & Hr & Hge); [done|by apply turns_enough|].
  exists r. split; [done|]. destruct (Z.lt_ge_cases r 0); [left|right].
  { specialize (Hge ltac:(lia)). split; [lia|]. rewrite <- (Z.sub_0_r len).
    apply (check_loop_neg turns f off len 0 0 r); done || lia. }
  destruct (check_loop_pieces turns f off len 0 0 r) as (l & Hl & Hadj); try done; try lia.
  rewrite Z.sub_0_r in *. exists l. split; [done|]. split; [done|]. intros Hr0. by apply Hadj.
Qed.

Lemma erased_cells f l : erased f l -> Forall (fun v => v = 0xff) (cells_of f l).
Proof.
  unfold gather, erased. rewrite Forall_concat, Forall_map, !Forall_forall. intros He p Hp.
  apply Forall_forall. intros v Hv. unfold load in Hv.
  apply list_elem_of_fmap in Hv as (i & -> & Hi). apply elem_of_seq in Hi. apply (He p Hp). lia.
Qed.

Lemma load_all (m : Z -> Z) a n v x :
  Forall (fun y => y = v) (load m a n) -> a <= x < a + Z.of_nat n -> m x = v.
Proof.
  intros Hf Hx. rewrite Forall_forall in Hf. apply Hf. unfold load. apply list_elem_of_fmap.
  exists (Z.to_nat (x - a)). split; [f_equal; lia|]. apply elem_of_seq. lia.
Qed.

Lemma write_skip_ok f off len buf flags :
  0 <= off -> 0 <= len < 2 ^ 32 -> len <= Z.of_nat (length buf) ->
  (forall l, pieces turns f off len = Some l -> erased f l) ->
  exists rval n f1, nand_write_skip_bad f off len buf flags = Some (rval, n, f1)
    /\ (rval = 0 -> n = len /\ same_bad f f1 /\ off .& (writesize - 1) = 0
          /\ exists l, pieces turns f off len = Some l /\ cells_of f1 l = take (Z.to_nat len) buf).
Proof.
  intros Ho Hl Hbuf Her. unfold nand_write_skip_bad.
  destruct (Z.eqb_spec (off .& (writesize - 1)) 0) as [Hal|]; cbn [negb]; [|by do 3 eexists].
  destruct (check_spec f off len Ho) as (r & -> & [[-> _]|(l & Hr & Hpc & Hadj)]); [by do 3 eexists|].
  cbn [mbind option_bind]. destruct (Z.ltb_spec r 0); [lia|].
  destruct ((r =? 0) && _) eqn:Er.
  - apply andb_true_iff in Er as [->%Z.eqb_eq _].
    destruct (front_some buf len) as (d & -> & Hd & Hdl); [lia|]. cbn [mbind option_bind].
    destruct (nand_write f off d) as [[rval n] f1] eqn:Ew.
    pose proof (erased_cells f l (Her l Hpc)) as Hall. rewrite Hadj in Hall by done.
    destruct (Z.eqb_spec rval 0) as [->|]; [|by do 3 eexists].
    destruct (write_cells f off d n f1 Ew) as (-> & Hb & Hc); [intros x ?; eapply load_all; [done|lia]|].
    do 3 eexists. split; [done|]. intros _. split_and!; [lia|done|done|]. exists l. split; [done|].
    rewrite Hadj, <- Hd by done. rewrite <- (load_store (cells f) off d).
    replace (length d) with (Z.to_nat len) by lia. by apply load_ext.
  - destruct (write_loop_spec turns f off len l buf) as (rval & f1 & rest & -> & Hok); try done; [lia|by apply Her|].
    cbn [mbind option_bind]. do 3 eexists. split; [done|]. intros Hrv. destruct (Hok Hrv) as (-> & ? & _ & ?).
    split_and!; [rewrite Z.sub_0_r; by apply u32_small|done|done|by exists l].
Qed.

Lemma read_skip_ok f off len l out :
  0 <= off -> 0 <= len < 2 ^ 32 -> off .& (writesize - 1) = 0 -> pieces turns f off len = Some l ->
  exists rval n out' f1, nand_read_skip_bad f off len out = Some (rval, n, out', f1)
    /\ same_bad f f1 /\ (forall x, cells f1 x = cells f x)
    /\ (rval = 0 -> n = len /\ out' = memcpy out 0 (cells_of f l)) /\ (read_works -> rval = 0).
Proof.
  intros Ho Hl Hal Hpc. unfold nand_read_skip_bad. rewrite Hal. cbn [negb Z.eqb].
  destruct (check_spec f off len Ho) as (r & -> & [[-> Hno]|(l' & Hr & Hpc' & Hadj)]); [by rewrite Hpc in Hno|].
  rewrite Hpc in Hpc'. injection Hpc' as <-. cbn [mbind option_bind]. destruct (Z.ltb_spec r 0); [lia|].
  destruct (Z.eqb_spec r 0) as [->|].
  - destruct (nand_read f off len) as [[[rval n] data] f1] eqn:E.
    destruct (read_cells f off len rval n data f1 E) as (? & ? & Hok).
    destruct ((rval =? 0) || (rval =? - EUCLEAN)) eqn:Ev.
    + apply orb_true_iff in Ev. rewrite !Z.eqb_eq in Ev. destruct (Hok Ev) as [-> ->].
      do 4 eexists. split; [done|]. split_and!; [done..| |done]. intros _. by rewrite Hadj.
    + rewrite orb_false_iff, !Z.eqb_neq in Ev. destruct Ev as [Ev1 Ev2]. do 4 eexists. split; [done|].
      split_and!; [done..|]. intros Hw. specialize (Hw f off len). rewrite E in Hw. cbn in Hw. tauto.
  - destruct (read_loop_spec turns f off len l out 0) as (rval & out' & f1 & rest & -> & ? & ? & Hok & ?); try done; [lia|].
    cbn [mbind option_bind]. do 4 eexists. split; [done|]. split_and!; [done..| |done]. intros Hrv.
    destruct (Hok Hrv) as [-> ->]. split; [|done]. rewrite Z.sub_0_r. by apply u32_small.
Qed.

(** ** Erasing *)

(** The chip erases every block that is not marked bad. *)
Definition erase_works : Prop := forall f a, good f a = true -> (nand_erase f a erasesize false).1 = 0.

Lemma erase_loop_spec fuel f opts addr n total_ :
  erase_works -> jffs2 opts = false -> scrub opts = false -> spread opts = false ->
  0 <= n <= total_ -> (Z.to_nat (total_ - n) < fuel)%nat ->
  exists rval f', erase_loop fuel f opts addr n total_ = Some (rval, f')
    /\ (rval = 0 -> same_bad f f'
         /\ (forall x, x < addr \/ addr + (total_ - n) * erasesize <= x -> cells f' x = cells f x)
         /\ forall i x, 0 <= i < total_ - n -> good f (addr + i * erasesize) = true ->
              addr + i * erasesize <= x < addr + (i + 1) * erasesize -> cells f' x = 0xff).
Proof.
  intros Hw Hj Hs Hp. pose proof erasesize_pos as He.
  revert f addr n. induction fuel as [|fuel IH]; intros f addr n Hn Hf; [lia|].
  cbn [erase_loop]. rewrite Hj, Hs, Hp. destruct (Z.ltb_spec n total_).
  2: { exists 0, f. split; [done|]. intros _. split_and!; try done. intros i x Hi. lia. }
  destruct (Z.ltb_spec 0 (nand_block_isbad f addr)) as [Hbad|].
  - destruct (IH f (addr + erasesize) (n + 1)) as (rval & f' & -> & Hok); [lia|lia|].
    do 2 eexists. split; [done|]. intros Hr. destruct (Hok Hr) as (Hb & Hout & Hin). split; [done|].
    split; [intros x ?; apply Hout; nia|]. intros i x Hi Hg Hx. destruct (decide (i = 0)) as [->|].
    + unfold good in Hg. apply Z.eqb_eq in Hg. rewrite Z.mul_0_l, Z.add_0_r in Hg. lia.
    + apply (Hin (i - 1)); [lia| |nia]. by replace (addr + erasesize + (i - 1) * erasesize) with (addr + i * erasesize) by lia.
  - destruct (Z.ltb_spec (nand_block_isbad f addr) 0); [by do 2 eexists|].
    assert (Hg : good f addr = true) by (unfold good; apply Z.eqb_eq; lia).
    destruct (nand_erase f addr erasesize false) as [result f1] eqn:Ee.
    pose proof (Hw f addr Hg) as Hz. rewrite Ee in Hz. cbn in Hz. subst result. cbn [negb Z.eqb andb].
    destruct (erase_cells f addr false f1 Ee) as [Hb1 Hc1].
    destruct (IH f1 (addr + erasesize) (n + 1)) as (rval & f' & -> & Hok); [lia|lia|].
    do 2 eexists. split; [done|]. intros Hr. destruct (Hok Hr) as (Hb & Hout & Hin). split; [by etrans|].
    assert (Hlow : forall x, x < addr + erasesize -> cells f' x = cells f1 x) by (intros x ?; apply Hout; lia).
    split.
    + intros x Hx. rewrite Hout, Hc1 by nia.
      destruct (Z.leb_spec addr x), (Z.ltb_spec x (addr + erasesize)); try done; nia.
    + intros i x Hi Hgi Hx. destruct (decide (i = 0)) as [->|].
      * rewrite Hlow, Hc1 by lia. destruct (Z.leb_spec addr x), (Z.ltb_spec x (addr + erasesize)); lia || done.
      * apply (Hin (i - 1)); [lia| |nia]. unfold good. rewrite Hb1.
        by replace (addr + erasesize + (i - 1) * erasesize) with (addr + i * erasesize) by lia.
Qed.

End Spec.

(** C23: [nand_write_skip_bad] and [nand_read_skip_bad] end for every offset and
    length.  When the write succeeds, into erased cells, the read of the same
    range gives the written bytes back whichever blocks are bad, unless it
    reports an error of the chip. *)
Theorem write_read_skip_bad {F} `{NandOk F} (f : F) off len buf flags out :
  0 <= off -> 0 <= len < 2 ^ 32 -> len <= Z.of_nat (length buf) ->
  (forall l, pieces turns f off len = Some l -> erased f l) ->
  exists rval n f1, nand_write_skip_bad f off len buf flags = Some (rval, n, f1)
    /\ (rval = 0 -> n = len
         /\ exists r m out' f2, nand_read_skip_bad f1 off len out = Some (r, m, out', f2)
              /\ (r = 0 -> m = len /\ out' = memcpy out 0 (take (Z.to_nat len) buf))).
Proof.
  intros Ho Hl Hbuf Her.
  destruct (write_skip_ok f off len buf flags) as (rval & n & f1 & -> & Hok); [done..|].
  do 3 eexists. split; [done|]. intros Hr. destruct (Hok Hr) as (-> & Hb & Hal & l & Hpc & Hcells).
  split; [done|]. destruct (read_skip_ok f1 off len l out) as (r & m & out' & f2 & -> & _ & _ & Hread & _); try done.
  { by rewrite (pieces_ext turns f). }
  do 4 eexists. split; [done|]. by rewrite <- Hcells.
Qed.

(** ** A small chip *)

Lemma store_replicate m a n v x :
  store m a (replicate n v) x = if (a <=? x) && (x <? a + Z.of_nat n) then v else m x.
Proof.
  unfold store. rewrite length_replicate. destruct (_ && _) eqn:E; [|done].
  apply andb_true_iff in E as [E1%Z.leb_le E2%Z.ltb_lt]. apply nth_lookup_Some, lookup_replicate_2. lia.
Qed.

Record chip := Chip { c_cells : Z -> Z; c_bad : list Z }.

(** Eight blocks of 16 bytes. *)
#[global] Instance chip_info : NandInfo chip := {
  erasesize := 16;
  writesize := 4;
  nand_size := 128;
  oobavail := 0;
  nand_block_isbad c a := if bool_decide (a / 16 ∈ c_bad c) then 1 else 0;
  nand_read c a len := (0, len, load (c_cells c) a (Z.to_nat len), c);
  nand_write c a data := (0, Z.of_nat (length data), Chip (store (c_cells c) a data) (c_bad c));
  nand_erase c a len _ := (0, Chip (store (c_cells c) a (replicate (Z.to_nat len) 0xff)) (c_bad c));
  write_cleanmarker c a := (0, c);
  drop_bbt c := c;
  scan_bbt c := c;
}.

#[global] Instance chip_ok : NandOk chip.
Proof.
  refine {| cells := c_cells; erase_bits := 4 |}.
  - done.
  - by exists 2.
  - split; [done|]. by exists 8.
  - intros f a data n f' [= <- <-] _. by split_and!.
  - intros f a len rval n data f' [= <- <- <- <-]. by split_and!.
  - intros f a sc f' E. injection E as <-. split; [done|]. intros x.
    apply (store_replicate (c_cells f) a 16 0xff x).
Defined.

(** Its first and third block are bad. *)
Definition blank : chip := Chip (fun _ => 0xff) [0; 2].

Definition some_data : list Z := map Z.of_nat (seq 1 40).

(** 40 bytes written from the second block on are in the second, fourth and
    fifth. *)
Example pieces_blank : pieces turns blank 16 40 = Some [(16, 16); (48, 16); (64, 8)].
Proof. vm_compute. reflexivity. Qed.

Example six_blocks_at_most :
  option_map (fun r => r.1.1) (nand_write_skip_bad blank 0 97 (replicate 97 0) 0) = Some (- EINVAL).
Proof. vm_compute. reflexivity. Qed.

Lemma write_read_skip_bad_witness :
  exists rval n f1, nand_write_skip_bad blank 16 40 some_data 0 = Some (rval, n, f1)
    /\ (rval = 0 -> n = 40
         /\ exists r m out' f2, nand_read_skip_bad f1 16 40 (replicate 40 0) = Some (r, m, out', f2)
              /\ (r = 0 -> m = 40 /\ out' = memcpy (replicate 40 0) 0 (take (Z.to_nat 40) some_data))).
Proof.
  apply (write_read_skip_bad blank 16 40 some_data 0 (replicate 40 0)); [lia|lia|vm_compute; done|].
  intros l Hl. rewrite pieces_blank in Hl. injection Hl as <-. repeat constructor.
Defined.

(** A chip whose blocks are worn out: the erase fails ([-EIO]), and
    [nand_erase_opts] reports success. *)
#[local] Instance worn_chip : NandInfo unit := {
  erasesize := 16;
  writesize := 4;
  nand_size := 128;
  oobavail := 0;
  nand_block_isbad _ _ := 0;
  nand_read c a len := (0, len, replicate (Z.to_nat len) 0, c);
  nand_write c a data := (0, Z.of_nat (length data), c);
  nand_erase c a len _ := (-5, c);
  write_cleanmarker c a := (0, c);
  drop_bbt c := c;
  scan_bbt c := c;
}.

Example erase_failure_unreported : nand_erase_opts tt (EraseOpts 32 0 false false false) = Some (0, tt).
Proof. vm_compute. reflexivity. Qed.

End Nand.
