(* ===== verification/Fdt.v ===== *)
(** * Flattened device trees, read access
      (lib/libfdt/fdt.c, fdt_ro.c, fdt_wip.c, libfdt_internal.h)

    A blob is the list of its bytes.  A pointer into it is an offset from its
    start, a [Z]; a null pointer is [None] inside a result.  [int] values are
    [Z] in the signed range and are brought back into it with [s32] where the
    C arithmetic can leave it; comparisons and sums that C makes unsigned are
    written with [u32].  The outer [None] is an access outside the blob (or
    another object), or a loop that does not end within the fuel; every loop
    that advances needs at most one round per byte. *)

From S2P Require Import Prelude Cstring.

Module Fdt.
Import Cstring.

(** ** Constants *)

Definition FDT_MAGIC : Z := 0xd00dfeed.
Definition FDT_SW_MAGIC : Z := u32 (Z.lnot FDT_MAGIC).
Definition FDT_TAGSIZE : Z := 4.
Definition FDT_BEGIN_NODE : Z := 1.
Definition FDT_END_NODE : Z := 2.
Definition FDT_PROP : Z := 3.
Definition FDT_NOP : Z := 4.
Definition FDT_END : Z := 9.
Definition FDT_FIRST_SUPPORTED_VERSION : Z := 0x10.
Definition FDT_LAST_SUPPORTED_VERSION : Z := 0x11.

Definition FDT_ERR_NOTFOUND : Z := 1.
Definition FDT_ERR_NOSPACE : Z := 3.
Definition FDT_ERR_BADOFFSET : Z := 4.
Definition FDT_ERR_BADPATH : Z := 5.
Definition FDT_ERR_BADSTATE : Z := 7.
Definition FDT_ERR_TRUNCATED : Z := 8.
Definition FDT_ERR_BADMAGIC : Z := 9.
Definition FDT_ERR_BADVERSION : Z := 10.
Definition FDT_ERR_BADSTRUCTURE : Z := 11.
Definition FDT_ERR_BADLAYOUT : Z := 12.
Definition FDT_ERR_INTERNAL : Z := 13.

(** ** Reading *)

Definition rd8 (fdt : list Z) (p : Z) : option Z := if p <? 0 then None else fdt !! Z.to_nat p.

(** [fdt32_to_cpu( *p)] *)
Definition rd32 (fdt : list Z) (p : Z) : option Z :=
  a ← rd8 fdt p; b ← rd8 fdt (p + 1); c ← rd8 fdt (p + 2); d ← rd8 fdt (p + 3);
  Some (be_combine [a; b; c; d]).

(** What lies at a pointer that is passed on. *)
Definition at_ (fdt : list Z) (p : Z) : option (list Z) :=
  if p <? 0 then None else Some (drop (Z.to_nat p) fdt).

Definition fdt_magic (fdt : list Z) : option Z := rd32 fdt 0.
Definition fdt_totalsize (fdt : list Z) : option Z := rd32 fdt 4.
Definition fdt_off_dt_struct (fdt : list Z) : option Z := rd32 fdt 8.
Definition fdt_off_dt_strings (fdt : list Z) : option Z := rd32 fdt 12.
Definition fdt_version (fdt : list Z) : option Z := rd32 fdt 20.
Definition fdt_last_comp_version (fdt : list Z) : option Z := rd32 fdt 24.
Definition fdt_size_dt_strings (fdt : list Z) : option Z := rd32 fdt 32.
Definition fdt_size_dt_struct (fdt : list Z) : option Z := rd32 fdt 36.

(** ** fdt.c *)

Definition fdt_check_header (fdt : list Z) : option Z :=
  magic ← fdt_magic fdt;
  if magic =? FDT_MAGIC then
    version ← fdt_version fdt;
    if version <? FDT_FIRST_SUPPORTED_VERSION then Some (- FDT_ERR_BADVERSION) else
    last ← fdt_last_comp_version fdt;
    if FDT_LAST_SUPPORTED_VERSION <? last then Some (- FDT_ERR_BADVERSION) else Some 0
  else if magic =? FDT_SW_MAGIC then
    size ← fdt_size_dt_struct fdt;
    if size =? 0 then Some (- FDT_ERR_BADSTATE) else Some 0
  else Some (- FDT_ERR_BADMAGIC).

Definition _fdt_offset_ptr (fdt : list Z) (offset : Z) : option Z :=
  off ← fdt_off_dt_struct fdt; Some (off + offset).

Definition fdt_offset_ptr (fdt : list Z) (offset len : Z) : option (option Z) :=
  off ← fdt_off_dt_struct fdt;
  let absoffset := u32 (offset + off) in
  if absoffset <? u32 offset then Some None
  else if u32 (absoffset + len) <? absoffset then Some None
  else
    totalsize ← fdt_totalsize fdt;
    if totalsize <? u32 (absoffset + len) then Some None else
    version ← fdt_version fdt;
    too_long ← (if 0x11 <=? version then
                  if u32 (offset + len) <? u32 offset then Some true else
                  size ← fdt_size_dt_struct fdt; Some (size <? u32 (offset + len))
                else Some false);
    if too_long : bool then Some None
    else p ← _fdt_offset_ptr fdt offset; Some (Some p).

(** [do { p = fdt_offset_ptr(fdt, offset++, 1); } while (p && ( *p != '\0'))]:
    the offset after the NUL, or a null pointer. *)
Fixpoint skip_name (fuel : nat) (fdt : list Z) (offset : Z) : option (option Z) :=
  match fuel with
  | O => None
  | S fuel =>
      p ← fdt_offset_ptr fdt offset 1;
      match p with
      | None => Some None
      | Some p =>
          c ← rd8 fdt p;
          if c =? 0 then Some (Some (s32 (offset + 1))) else skip_name fuel fdt (s32 (offset + 1))
      end
  end.

Definition FDT_TAGALIGN (x : Z) : Z := s32 (u32 (x + (FDT_TAGSIZE - 1)) .& Z.lnot (FDT_TAGSIZE - 1)).

(** The [switch] of [fdt_next_tag]: where the item with this tag ends, its
    body starting at [offset]. *)
Definition item_end (fdt : list Z) (tag offset : Z) : option (option Z) :=
  if tag =? FDT_BEGIN_NODE then skip_name (length fdt + 1) fdt offset
  else if tag =? FDT_PROP then
    lenp ← fdt_offset_ptr fdt offset 4;
    match lenp with
    | None => Some None
    | Some lenp => len ← rd32 fdt lenp; Some (Some (s32 (offset + (12 - FDT_TAGSIZE) + len)))
    end
  else if (tag =? FDT_END) || (tag =? FDT_END_NODE) || (tag =? FDT_NOP) then Some (Some offset)
  else Some None.

(** The tag and [*nextoffset]. *)
Definition fdt_next_tag (fdt : list Z) (startoffset : Z) : option (Z * Z) :=
  tagp ← fdt_offset_ptr fdt startoffset FDT_TAGSIZE;
  match tagp with
  | None => Some (FDT_END, - FDT_ERR_TRUNCATED)
  | Some tagp =>
      tag ← rd32 fdt tagp;
      offset ← item_end fdt tag (s32 (startoffset + FDT_TAGSIZE));
      match offset with
      | None => Some (FDT_END, - FDT_ERR_BADSTRUCTURE)
      | Some offset =>
          p ← fdt_offset_ptr fdt startoffset (u32 (offset - startoffset));
          match p with
          | None => Some (FDT_END, - FDT_ERR_BADSTRUCTURE)
          | Some _ => Some (tag, FDT_TAGALIGN offset)
          end
      end
  end.

(** C's remainder truncates. *)
Definition misaligned (offset : Z) : bool := negb (Z.rem offset FDT_TAGSIZE =? 0).

Definition check_offset (want : Z) (fdt : list Z) (offset : Z) : option Z :=
  if (offset <? 0) || misaligned offset then Some (- FDT_ERR_BADOFFSET) else
  '(tag, next) ← fdt_next_tag fdt offset;
  Some (if negb (tag =? want) then - FDT_ERR_BADOFFSET else next).

Definition _fdt_check_node_offset : list Z -> Z -> option Z := check_offset FDT_BEGIN_NODE.
Definition _fdt_check_prop_offset : list Z -> Z -> option Z := check_offset FDT_PROP.

(** [depth] is [None] for a null pointer. *)
Fixpoint next_node_loop (fuel : nat) (fdt : list Z) (offset : Z) (depth : option Z)
    : option (Z * option Z) :=
  match fuel with
  | O => None
  | S fuel =>
      '(tag, nextoffset) ← fdt_next_tag fdt offset;
      if tag =? FDT_BEGIN_NODE then Some (offset, option_map (Z.add 1) depth)
      else if tag =? FDT_END_NODE then
        match depth with
        | Some d => if d - 1 <? 0 then Some (nextoffset, Some (d - 1))
                    else next_node_loop fuel fdt nextoffset (Some (d - 1))
        | None => next_node_loop fuel fdt nextoffset None
        end
      else if tag =? FDT_END then
        Some (if (0 <=? nextoffset)
                 || ((nextoffset =? - FDT_ERR_TRUNCATED)
                     && match depth with None => true | Some _ => false end)
              then - FDT_ERR_NOTFOUND else nextoffset, depth)
      else next_node_loop fuel fdt nextoffset depth
  end.

Definition fdt_next_node (fdt : list Z) (offset : Z) (depth : option Z) : option (Z * option Z) :=
  nextoffset ← (if 0 <=? offset then _fdt_check_node_offset fdt offset else Some 0);
  if nextoffset <? 0 then Some (nextoffset, depth)
  else next_node_loop (length fdt + 1) fdt nextoffset depth.

(** The calls that pass [&depth]. *)
Definition fdt_next_node_depth (fdt : list Z) (offset depth : Z) : option (Z * Z) :=
  '(offset, d) ← fdt_next_node fdt offset (Some depth); d ← d; Some (offset, d).

Definition fdt_first_subnode (fdt : list Z) (offset : Z) : option Z :=
  '(offset, depth) ← fdt_next_node_depth fdt offset 0;
  Some (if (offset <? 0) || negb (depth =? 1) then - FDT_ERR_NOTFOUND else offset).

Fixpoint next_subnode_loop (fuel : nat) (fdt : list Z) (offset depth : Z) : option Z :=
  match fuel with
  | O => None
  | S fuel =>
      '(offset, depth) ← fdt_next_node_depth fdt offset depth;
      if (offset <? 0) || (depth <? 1) then Some (- FDT_ERR_NOTFOUND)
      else if 1 <? depth then next_subnode_loop fuel fdt offset depth
      else Some offset
  end.

Definition fdt_next_subnode (fdt : list Z) (offset : Z) : option Z :=
  next_subnode_loop (length fdt + 1) fdt offset 1.

(** ** fdt_ro.c *)

Definition _fdt_nodename_eq (fdt : list Z) (offset : Z) (s : list Z) (len : nat) : option bool :=
  p ← fdt_offset_ptr fdt (s32 (offset + FDT_TAGSIZE)) (Z.of_nat len + 1);
  match p with
  | None => Some false
  | Some p =>
      b ← at_ fdt p;
      r ← memcmp b s len;
      if negb (r =? 0) then Some false else
      c ← b !! len;
      if c =? 0 then Some true else
      m ← memchr s 64 len;
      Some (match m with None => c =? 64 | Some _ => false end)
  end.

Definition fdt_string (fdt : list Z) (stroffset : Z) : option Z :=
  off ← fdt_off_dt_strings fdt; Some (off + s32 stroffset).

Definition _fdt_string_eq (fdt : list Z) (stroffset : Z) (s : list Z) (len : nat) : option bool :=
  p ← fdt_string fdt stroffset;
  b ← at_ fdt p;
  n ← strnlen b (Z.of_nat len + 1);
  if (n =? len)%nat then r ← memcmp b s len; Some (r =? 0) else Some false.

Fixpoint _nextprop (fuel : nat) (fdt : list Z) (offset : Z) : option Z :=
  match fuel with
  | O => None
  | S fuel =>
      '(tag, nextoffset) ← fdt_next_tag fdt offset;
      if tag =? FDT_END then Some (if 0 <=? nextoffset then - FDT_ERR_BADSTRUCTURE else nextoffset)
      else if tag =? FDT_PROP then Some offset
      else if tag =? FDT_NOP then _nextprop fuel fdt nextoffset
      else Some (- FDT_ERR_NOTFOUND)
  end.

Definition nextprop (fdt : list Z) (offset : Z) : option Z := _nextprop (length fdt + 1) fdt offset.

Fixpoint subnode_loop (fuel : nat) (fdt : list Z) (offset depth : Z) (name : list Z) (namelen : nat)
    : option Z :=
  match fuel with
  | O => None
  | S fuel =>
      if (0 <=? offset) && (0 <=? depth) then
        b ← (if depth =? 1 then _fdt_nodename_eq fdt offset name namelen else Some false);
        if b : bool then Some offset else
        '(offset, depth) ← fdt_next_node_depth fdt offset depth;
        subnode_loop fuel fdt offset depth name namelen
      else if depth <? 0 then Some (- FDT_ERR_NOTFOUND)
      else Some offset
  end.

Definition fdt_subnode_offset_namelen (fdt : list Z) (offset : Z) (name : list Z) (namelen : nat)
    : option Z :=
  err ← fdt_check_header fdt;
  if negb (err =? 0) then Some err
  else subnode_loop (length fdt + 2) fdt offset 0 name namelen.

Definition fdt_subnode_offset (fdt : list Z) (parentoffset : Z) (name : list Z) : option Z :=
  n ← strlen name; fdt_subnode_offset_namelen fdt parentoffset name n.

(** The pointer and [*len]. *)
Definition fdt_get_name (fdt : list Z) (nodeoffset : Z) : option (option Z * Z) :=
  nh ← _fdt_offset_ptr fdt nodeoffset;
  err ← fdt_check_header fdt;
  if negb (err =? 0) then Some (None, err) else
  err ← _fdt_check_node_offset fdt nodeoffset;
  if err <? 0 then Some (None, err) else
  b ← at_ fdt (nh + FDT_TAGSIZE);
  n ← strlen b;
  Some (Some (nh + FDT_TAGSIZE), Z.of_nat n).

Definition fdt_first_property_offset (fdt : list Z) (nodeoffset : Z) : option Z :=
  offset ← _fdt_check_node_offset fdt nodeoffset;
  if offset <? 0 then Some offset else nextprop fdt offset.

Definition fdt_next_property_offset (fdt : list Z) (offset : Z) : option Z :=
  offset ← _fdt_check_prop_offset fdt offset;
  if offset <? 0 then Some offset else nextprop fdt offset.

(** A pointer to the property, and [*lenp]. *)
Definition fdt_get_property_by_offset (fdt : list Z) (offset : Z) : option (option Z * Z) :=
  err ← _fdt_check_prop_offset fdt offset;
  if err <? 0 then Some (None, err) else
  prop ← _fdt_offset_ptr fdt offset;
  len ← rd32 fdt (prop + 4);
  Some (Some prop, s32 len).

Fixpoint get_property_loop (fuel : nat) (fdt : list Z) (offset : Z) (name : list Z) (namelen : nat)
    : option (option Z * Z) :=
  match fuel with
  | O => None
  | S fuel =>
      if offset <? 0 then Some (None, offset) else
      '(prop, len) ← fdt_get_property_by_offset fdt offset;
      match prop with
      | None => Some (None, - FDT_ERR_INTERNAL)
      | Some prop =>
          nameoff ← rd32 fdt (prop + 8);
          b ← _fdt_string_eq fdt nameoff name namelen;
          if b : bool then Some (Some prop, len) else
          offset ← fdt_next_property_offset fdt offset;
          get_property_loop fuel fdt offset name namelen
      end
  end.

Definition fdt_get_property_namelen (fdt : list Z) (offset : Z) (name : list Z) (namelen : nat)
    : option (option Z * Z) :=
  offset ← fdt_first_property_offset fdt offset;
  get_property_loop (length fdt + 2) fdt offset name namelen.

(** A pointer to the value, and [*lenp]. *)
Definition fdt_getprop_namelen (fdt : list Z) (nodeoffset : Z) (name : list Z) (namelen : nat)
    : option (option Z * Z) :=
  '(prop, len) ← fdt_get_property_namelen fdt nodeoffset name namelen;
  Some (option_map (Z.add 12) prop, len).

Definition fdt_getprop (fdt : list Z) (nodeoffset : Z) (name : list Z) : option (option Z * Z) :=
  n ← strlen name; fdt_getprop_namelen fdt nodeoffset name n.

(** ** fdt_wip.c *)

Definition FDT_MAX_DEPTH : Z := 32.

Fixpoint str_in_list (s : list Z) (l : list (list Z)) : option bool :=
  match l with
  | [] => Some false
  | x :: l => r ← strcmp x s; if r =? 0 then Some true else str_in_list s l
  end.

Record fdt_region := Region { r_offset : Z; r_size : Z }.

(** The state of the loop of [fdt_find_regions]; [path] is the string built
    so far, [region] the entries that were stored, at most [max_regions]. *)
Record walk := Walk {
  nextoffset : Z;
  count : Z;
  start : Z;
  depth : Z;
  want : Z;
  stack : list Z;
  path : str;
  region : list fdt_region;
}.

(** [while (end > path && *--end != '/')] *)
Fixpoint path_up (n : nat) (p : str) : str :=
  match n with
  | O => []
  | S n => match p !! n with
           | Some c => if c =? 47 then take n p else path_up n p
           | None => []
           end
  end.

(** What the [switch] computes: [include], [stop_at], and the state. *)
Definition switch_tag (fdt : list Z) (inc exc_prop : list (list Z)) (path_len tag offset : Z)
    (w : walk) : option (Z + (bool * Z * walk)) :=
  let '(Walk nextoffset count start depth want stack path region) := w in
  if tag =? FDT_PROP then
    '(prop, _) ← fdt_get_property_by_offset fdt offset;
    prop ← prop;
    nameoff ← rd32 fdt (prop + 8);
    str ← fdt_string fdt nameoff;
    b ← at_ fdt str;
    excluded ← str_in_list b exc_prop;
    Some (inr (if excluded : bool then false else 2 <=? want, offset, w))
  else if tag =? FDT_NOP then Some (inr (2 <=? want, offset, w))
  else if tag =? FDT_BEGIN_NODE then
    let depth := depth + 1 in
    if depth =? FDT_MAX_DEPTH then Some (inl (- FDT_ERR_BADSTRUCTURE)) else
    '(name, len) ← fdt_get_name fdt offset;
    if path_len <=? Z.of_nat (length path) + 2 + len then Some (inl (- FDT_ERR_NOSPACE)) else
    name ← name;
    b ← at_ fdt name;
    n ← strlen b;
    let path := (if (length path =? 1)%nat then path else path ++ [47]) ++ take n b in
    let stack := take (Z.to_nat depth) stack ++ [want] in
    let stop_at := if want =? 1 then offset else nextoffset in
    found ← str_in_list (cstr path) inc;
    let '(want, stop_at) :=
      (if found : bool then (2, stop_at)
       else if negb (want =? 0) then (want - 1, stop_at)
       else (want, offset)) in
    Some (inr (negb (want =? 0), stop_at, Walk nextoffset count start depth want stack path region))
  else if tag =? FDT_END_NODE then
    old ← (if depth <? 0 then None else stack !! Z.to_nat depth);
    let path := path_up (length path) path in
    Some (inr (negb (want =? 0), nextoffset,
               Walk nextoffset count start (depth - 1) old stack path region))
  else Some (inr (true, nextoffset, w)).

(** Opening and closing a region behind the [switch]. *)
Definition note_region (base max_regions offset : Z) (include : bool) (stop_at : Z) (w : walk)
    : option walk :=
  let '(Walk nextoffset count start depth want stack path region) := w in
  '(count, start, region) ←
    (if include && (start =? -1) then
       if negb (count =? 0) && (count <=? max_regions) then
         r ← last region;
         if offset =? s32 (r_offset r + r_size r - base)
         then Some (count - 1, s32 (r_offset r - base), removelast region)
         else Some (count, offset, region)
       else Some (count, offset, region)
     else Some (count, start, region));
  Some (if negb include && negb (start =? -1) then
          Walk nextoffset (count + 1) (-1) depth want stack path
            (if count <? max_regions
             then region ++ [Region (s32 (base + start)) (s32 (stop_at - start))] else region)
        else Walk nextoffset count start depth want stack path region).

(** [inl] is a return from inside the loop. *)
Fixpoint find_regions_loop (fuel : nat) (fdt : list Z) (inc exc_prop : list (list Z))
    (base max_regions path_len : Z) (w : walk) : option (Z + walk) :=
  match fuel with
  | O => None
  | S fuel =>
      let offset := nextoffset w in
      '(tag, next) ← fdt_next_tag fdt offset;
      let w := Walk next (count w) (start w) (depth w) (want w) (stack w) (path w) (region w) in
      r ← switch_tag fdt inc exc_prop path_len tag offset w;
      match r with
      | inl err => Some (inl err)
      | inr (include, stop_at, w) =>
          w ← note_region base max_regions offset include stop_at w;
          if negb (tag =? FDT_END)
          then find_regions_loop fuel fdt inc exc_prop base max_regions path_len w
          else Some (inr w)
      end
  end.

(** The count and the entries of the array that were written. *)
Definition fdt_find_regions (fdt : list Z) (inc exc_prop : list (list Z)) (max_regions path_len : Z)
    (add_string_tab : bool) : option (Z * list fdt_region) :=
  off ← fdt_off_dt_struct fdt;
  let base := s32 off in
  r ← find_regions_loop (length fdt + 1) fdt inc exc_prop base max_regions path_len
        (Walk 0 0 (-1) (-1) 0 [] [] []);
  match r with
  | inl err => Some (err, [])
  | inr w =>
      size ← fdt_size_dt_struct fdt;
      if negb (u32 (nextoffset w) =? size) then Some (- FDT_ERR_BADLAYOUT, region w) else
      strs ← (if add_string_tab then fdt_size_dt_strings fdt else Some 0);
      let last_region :=
        Region (s32 (base + start w)) (s32 (nextoffset w - start w + strs)) in
      Some (count w + 1, if count w <? max_regions then region w ++ [last_region] else region w)
  end.

(** ** Arbitrary blobs *)

Lemma rd8_safe fdt p : 0 <= p < Z.of_nat (length fdt) -> exists c, rd8 fdt p = Some c.
Proof.
  intros Hp. unfold rd8. destruct (Z.ltb_spec p 0); [lia|]. apply lookup_lt_is_Some_2. lia.
Qed.

Lemma rd8_byte fdt p c : bytes fdt -> rd8 fdt p = Some c -> byte c.
Proof.
  unfold rd8. intros Hb. destruct (p <? 0); [done|]. intros Hc. by eapply Forall_lookup_1 in Hc.
Qed.

Lemma rd32_safe fdt p :
  bytes fdt -> 0 <= p -> p + 4 <= Z.of_nat (length fdt) ->
  exists v, rd32 fdt p = Some v /\ 0 <= v < 2 ^ 32.
Proof.
  intros Hb Hp Hlen. unfold rd32.
  destruct (rd8_safe fdt p) as [a Ha]; [lia|]. destruct (rd8_safe fdt (p + 1)) as [b Hb']; [lia|].
  destruct (rd8_safe fdt (p + 2)) as [c Hc]; [lia|]. destruct (rd8_safe fdt (p + 3)) as [d Hd]; [lia|].
  rewrite Ha, Hb', Hc, Hd. cbn [mbind option_bind]. eexists. split; [done|].
  apply (be_combine_word [a; b; c; d]). repeat constructor; by eapply rd8_byte.
Qed.

Lemma tagalign_bounds x : 0 <= x < 2 ^ 31 - 3 -> x <= FDT_TAGALIGN x < x + 4 /\ (4 | FDT_TAGALIGN x).
Proof.
  intros Hx. unfold FDT_TAGALIGN, FDT_TAGSIZE. cbn [Z.sub]. change (4 - 1) with 3.
  rewrite (u32_small (x + 3)) by lia.
  assert (E : (x + 3) .& Z.lnot 3 = 4 * ((x + 3) / 4)).
  { rewrite <- Z.ldiff_land. change 3 with (Z.ones 2) at 2.
    rewrite Z.ldiff_ones_r, Z.shiftl_mul_pow2, Z.shiftr_div_pow2 by lia. change (2 ^ 2) with 4. lia. }
  rewrite E. rewrite s32_small by (Z.div_mod_to_equations; lia).
  split; [Z.div_mod_to_equations; lia|]. exists ((x + 3) / 4). lia.
Qed.

Lemma divide4_step a b : (4 | a) -> (4 | b) -> a < b -> a + 4 <= b.
Proof. intros [x ->] [y ->] H. lia. Qed.

Section Blob.
Context (fdt : list Z).
Hypothesis fdt_bytes : bytes fdt.
Hypothesis fdt_len : 40 <= Z.of_nat (length fdt) < 2 ^ 31 - 16.

(** The header's [totalsize] is at most the size of the memory. *)
Context (total : Z).
Hypothesis fdt_total : fdt_totalsize fdt = Some total.
Hypothesis total_ok : total <= Z.of_nat (length fdt).

Lemma header_word p : 0 <= p <= 36 -> exists v, rd32 fdt p = Some v /\ 0 <= v < 2 ^ 32.
Proof. intros Hp. apply rd32_safe; [done|lia|lia]. Qed.

(** [fdt_offset_ptr] only lets ranges inside the blob through. *)
Lemma fdt_offset_ptr_safe offset len :
  - 2 ^ 31 <= offset < 2 ^ 31 -> 0 <= len < 2 ^ 32 ->
  exists off, fdt_off_dt_struct fdt = Some off /\ 0 <= off
    /\ (fdt_offset_ptr fdt offset len = Some None
        \/ (fdt_offset_ptr fdt offset len = Some (Some (off + offset))
            /\ 0 <= offset /\ off + offset + len <= total)).
Proof.
  intros Ho Hl. destruct (header_word 8) as (off & Hoff & Hr); [lia|].
  destruct (header_word 20) as (ver & Hver & _); [lia|].
  destruct (header_word 36) as (size & Hsize & _); [lia|].
  exists off. split; [done|]. split; [lia|]. unfold fdt_offset_ptr, _fdt_offset_ptr.
  unfold fdt_off_dt_struct, fdt_version, fdt_size_dt_struct. rewrite Hoff, fdt_total, Hver, Hsize.
  cbn [mbind option_bind].
  destruct (Z.ltb_spec (u32 (offset + off)) (u32 offset)) as [|H1]; [by left|].
  destruct (Z.ltb_spec (u32 (u32 (offset + off) + len)) (u32 (offset + off))) as [|H2]; [by left|].
  destruct (Z.ltb_spec total (u32 (u32 (offset + off) + len))) as [|H3]; [by left|].
  destruct (Z.leb_spec 0x11 ver) as [_|_].
  - destruct (u32 (offset + len) <? u32 offset); [by left|]. cbn [mbind option_bind].
    destruct (size <? u32 (offset + len)); [by left|]. right.
    split; [done|]. unfold wrap in *. Z.div_mod_to_equations. lia.
  - right. cbn [mbind option_bind]. split; [done|]. unfold wrap in *. Z.div_mod_to_equations. lia.
Qed.

Lemma skip_name_safe fuel offset :
  - 2 ^ 31 <= offset < 2 ^ 31 ->
  (forall off, fdt_off_dt_struct fdt = Some off -> Z.of_nat (length fdt) < off + offset + Z.of_nat fuel) ->
  (0 < fuel)%nat ->
  exists r, skip_name fuel fdt offset = Some r
    /\ match r with Some o => offset < o < 2 ^ 31 | None => True end.
Proof.
  intros Ho Hf Hpos. revert offset Ho Hf Hpos.
  induction fuel as [|fuel IH]; intros offset Ho Hf Hpos; [lia|].
  cbn [skip_name]. destruct (fdt_offset_ptr_safe offset 1 Ho) as (off & Hoff & Hr & [->|(-> & H0 & Hle)]);
    [lia|by exists None|].
  cbn [mbind option_bind]. destruct (rd8_safe fdt (off + offset)) as [c Hc]; [lia|]. rewrite Hc.
  cbn [mbind option_bind]. rewrite s32_small by lia. specialize (Hf off Hoff).
  destruct (c =? 0).
  - eexists. split; [done|]. cbn. lia.
  - destruct (IH (offset + 1)) as (r & -> & Hres); [lia| |lia|].
    + intros off' Hoff'. rewrite Hoff in Hoff'. injection Hoff' as <-. lia.
    + eexists. split; [done|]. destruct r; [lia|done].
Qed.

(** The tag of a property whose length makes the end wrap around to its start. *)
Definition stuck (offset : Z) : Prop :=
  exists off, fdt_off_dt_struct fdt = Some off
    /\ rd32 fdt (off + offset) = Some FDT_PROP /\ rd32 fdt (off + offset + 4) = Some (2 ^ 32 - 12).

Definition tags : list Z := [FDT_BEGIN_NODE; FDT_END_NODE; FDT_PROP; FDT_NOP; FDT_END].

Lemma item_end_safe off tag offset :
  fdt_off_dt_struct fdt = Some off -> 0 <= offset -> off + offset <= total ->
  offset < 2 ^ 31 - 4 -> 0 <= off ->
  exists r, item_end fdt tag offset = Some r
    /\ match r with
       | Some e => (e = offset \/ (tag = FDT_BEGIN_NODE /\ offset < e < 2 ^ 31)
                   \/ (tag = FDT_PROP /\ exists l, rd32 fdt (off + offset) = Some l /\ 0 <= l < 2 ^ 32
                       /\ e = s32 (offset + 8 + l)))
                   /\ tag ∈ tags
       | None => True
       end.
Proof.
  intros Hoff H0 Hle Hlt Hr. unfold item_end, tags.
  destruct (Z.eqb_spec tag FDT_BEGIN_NODE) as [->|Hb].
  { destruct (skip_name_safe (length fdt + 1) offset) as (r & -> & Hres);
      [lia|intros off' Hoff'; rewrite Hoff in Hoff'; injection Hoff' as <-; lia|lia|].
    exists r. split; [done|]. destruct r as [e|]; [|done]. split; [right; left; done|set_solver]. }
  destruct (Z.eqb_spec tag FDT_PROP) as [->|Hnp].
  { destruct (fdt_offset_ptr_safe offset 4) as (off' & Hoff' & _ & Hp'); [lia|lia|].
    rewrite Hoff in Hoff'. injection Hoff' as <-.
    destruct Hp' as [->|(-> & _ & Hle')]; cbn [mbind option_bind]; [by exists None|].
    destruct (rd32_safe fdt (off + offset)) as (l & Hl & Hlr); [done|lia|lia|]. rewrite Hl.
    cbn [mbind option_bind]. eexists. split; [done|]. cbn. split; [|set_solver]. eauto 8. }
  destruct ((tag =? FDT_END) || (tag =? FDT_END_NODE) || (tag =? FDT_NOP)) eqn:E; [|by exists None].
  eexists. split; [done|]. cbn. split; [by left|]. rewrite !orb_true_iff, !Z.eqb_eq in E. set_solver.
Qed.

Lemma fdt_next_tag_spec offset :
  - 2 ^ 31 <= offset < 2 ^ 31 - 8 ->
  exists tag next, fdt_next_tag fdt offset = Some (tag, next)
    /\ ((tag = FDT_END /\ (next = - FDT_ERR_TRUNCATED \/ next = - FDT_ERR_BADSTRUCTURE))
        \/ (0 <= offset /\ tag ∈ tags /\ offset <= next < Z.of_nat (length fdt) + 4 /\ (4 | next)
            /\ (offset = next -> stuck offset))).
Proof.
  intros Ho. unfold fdt_next_tag. change FDT_TAGSIZE with 4.
  destruct (fdt_offset_ptr_safe offset 4) as (off & Hoff & Hr & Hp); [lia|lia|].
  destruct Hp as [->|(-> & H0 & Hle)]; cbn [mbind option_bind].
  { eexists _, _. split; [done|]. left. eauto. }
  destruct (rd32_safe fdt (off + offset)) as (tag & Htag & _); [done|lia|lia|]. rewrite Htag.
  cbn [mbind option_bind]. rewrite (s32_small (offset + 4)) by lia.
  destruct (item_end_safe off tag (offset + 4)) as (r & -> & Hres); [done|lia|lia|lia|lia|].
  cbn [mbind option_bind]. destruct r as [e|]; [|eexists _, _; split; [done|left; eauto]].
  destruct Hres as [Hcase Htags].
  assert (He : - 2 ^ 31 <= e < 2 ^ 31)
    by (destruct Hcase as [->|[(_ & ?)|(_ & l & _ & _ & ->)]]; [lia|lia|apply s32_range]).
  destruct (fdt_offset_ptr_safe offset (u32 (e - offset))) as (off' & Hoff' & _ & Hp');
    [lia|apply (wrap_in_word 32); lia|].
  rewrite Hoff in Hoff'. injection Hoff' as <-.
  destruct Hp' as [->|(-> & _ & Hle')]; cbn [mbind option_bind];
    [eexists _, _; split; [done|left; eauto]|].
  eexists _, _. split; [done|]. right.
  assert (Hoe : offset <= e /\ e - offset = u32 (e - offset)).
  { unfold wrap in *. Z.div_mod_to_equations. lia. }
  destruct Hoe as [Hoe Heq]. rewrite <- Heq in Hle'.
  destruct (tagalign_bounds e) as [Hb Hdiv]; [lia|].
  split_and!; [lia|done|lia|lia|done|]. intros Hnext. assert (e = offset) as -> by lia.
  destruct Hcase as [?|[(_ & ?)|(-> & l & Hl & Hlr & E)]]; [lia|lia|].
  exists off. rewrite Z.add_assoc in Hl. split_and!; [done..|]. rewrite Hl. f_equal.
  unfold signed, wrap in E. change (32 - 1) with 31 in E. destruct (Z.ltb_spec ((offset + 4 + 8 + l) mod 2 ^ 32) (2 ^ 31));
    Z.div_mod_to_equations; lia.
Qed.

(** *** Termination *)

Hypothesis not_stuck : forall offset, ~ stuck offset.

Lemma next_node_loop_total fuel offset d :
  (4 | offset) -> 0 <= offset < Z.of_nat (length fdt) + 4 ->
  Z.of_nat (length fdt) + 4 - offset <= 4 * Z.of_nat fuel ->
  exists r, next_node_loop fuel fdt offset d = Some r /\ r.1 < Z.of_nat (length fdt) + 4.
Proof.
  revert offset d. induction fuel as [|fuel IH]; intros offset d Hdiv Ho Hf; [lia|].
  cbn [next_node_loop]. destruct (fdt_next_tag_spec offset) as (tag & next & -> & Hcase); [lia|].
  cbn [mbind option_bind].
  destruct (Z.eqb_spec tag FDT_BEGIN_NODE); [eexists; split; [done|]; cbn; lia|].
  destruct Hcase as [[-> Hnext]|(_ & _ & Hnext & Hd4 & Hst)].
  { cbn [Z.eqb Pos.eqb FDT_END FDT_END_NODE]. eexists. split; [done|]. cbn.
    unfold FDT_ERR_TRUNCATED, FDT_ERR_BADSTRUCTURE, FDT_ERR_NOTFOUND in *.
    destruct (_ || _); lia. }
  assert (offset + 4 <= next).
  { apply divide4_step; [done|done|]. destruct (decide (offset = next)) as [E|]; [|lia].
    by destruct (not_stuck offset (Hst E)). }
  destruct (Z.eqb_spec tag FDT_END_NODE).
  - destruct d as [d|]; [|apply IH; [done|lia|lia]].
    destruct (d - 1 <? 0); [eexists; split; [done|]; cbn; lia|]. apply IH; [done|lia|lia].
  - destruct (Z.eqb_spec tag FDT_END); [|apply IH; [done|lia|lia]].
    eexists. split; [done|]. cbn. unfold FDT_ERR_NOTFOUND. destruct (_ || _); lia.
Qed.

Lemma check_offset_total want offset :
  offset < 2 ^ 31 - 8 ->
  exists r, check_offset want fdt offset = Some r
    /\ (r < 0 \/ (0 <= r < Z.of_nat (length fdt) + 4 /\ (4 | r))).
Proof.
  intros Ho. unfold check_offset. destruct (Z.ltb_spec offset 0); cbn [orb].
  { eexists. split; [done|]. left. done. }
  destruct (misaligned offset); [eexists; split; [done|]; by left|].
  destruct (fdt_next_tag_spec offset) as (tag & next & -> & Hcase); [lia|]. cbn [mbind option_bind].
  eexists. split; [done|]. destruct (tag =? want); cbn [negb]; [|by left].
  destruct Hcase as [[-> Hnext]|(_ & _ & Hnext & Hd4 & _)]; [left|right; split; [lia|done]].
  unfold FDT_ERR_TRUNCATED, FDT_ERR_BADSTRUCTURE in *. lia.
Qed.

Lemma fdt_next_node_spec offset d :
  offset < 2 ^ 31 - 8 ->
  exists r, fdt_next_node fdt offset d = Some r /\ r.1 < Z.of_nat (length fdt) + 4.
Proof.
  intros Ho. unfold fdt_next_node.
  assert (Hn : exists n, (if 0 <=? offset then _fdt_check_node_offset fdt offset else Some 0) = Some n
    /\ (n < 0 \/ (0 <= n < Z.of_nat (length fdt) + 4 /\ (4 | n)))).
  { destruct (0 <=? offset); [by apply check_offset_total|]. exists 0. split; [done|]. right.
    split; [lia|]. exists 0. done. }
  destruct Hn as (n & -> & Hn). cbn [mbind option_bind]. destruct (Z.ltb_spec n 0).
  - eexists. split; [done|]. cbn. lia.
  - destruct Hn as [?|[? ?]]; [lia|]. apply next_node_loop_total; [done|lia|lia].
Qed.

End Blob.

(** ** Small blobs *)

(** A blob with this structure block and these strings. *)
Definition mkblob (S strings : list Z) : list Z :=
  concat (map (be_bytes 4)
    [FDT_MAGIC; 40 + Z.of_nat (length S) + Z.of_nat (length strings); 40; 40 + Z.of_nat (length S);
     40; 0x11; 0x10; 0; Z.of_nat (length strings); Z.of_nat (length S)]) ++ S ++ strings.

(** A root node without properties. *)
Definition root_blob : list Z := mkblob (concat (map (be_bytes 4) [1; 0; 2; 9])) [].

(** No property of that length is anywhere, aligned or not. *)
Lemma not_stuck_dec fdt :
  forallb (fun p => bool_decide (rd32 fdt (Z.of_nat p) <> Some (2 ^ 32 - 12))) (seq 0 (length fdt)) = true ->
  forall offset, ~ stuck fdt offset.
Proof.
  intros H offset (off & _ & _ & H4). rewrite forallb_forall in H.
  assert (Hp : 0 <= off + offset + 4 < Z.of_nat (length fdt)).
  { unfold rd32, rd8 in H4. destruct (Z.ltb_spec (off + offset + 4) 0); [done|].
    destruct (fdt !! Z.to_nat (off + offset + 4)) eqn:E; [|done]. apply lookup_lt_Some in E. lia. }
  specialize (H (Z.to_nat (off + offset + 4))). rewrite bool_decide_eq_true, Z2Nat.id in H by lia.
  apply H; [|done]. apply in_seq. lia.
Qed.

(** C24: On every blob the header of which does not claim more memory than
    there is, whatever its contents, [fdt_next_tag] reads only inside it and
    never moves backwards; it stands still only at a property of length
    2^32 - 12. *)
Theorem fdt_next_tag_safe fdt total offset :
  bytes fdt -> 40 <= Z.of_nat (length fdt) < 2 ^ 31 - 16 ->
  fdt_totalsize fdt = Some total -> total <= Z.of_nat (length fdt) ->
  - 2 ^ 31 <= offset < 2 ^ 31 - 8 ->
  exists tag next, fdt_next_tag fdt offset = Some (tag, next)
    /\ ((tag = FDT_END /\ (next = - FDT_ERR_TRUNCATED \/ next = - FDT_ERR_BADSTRUCTURE))
        \/ (0 <= offset /\ tag ∈ tags /\ offset <= next < Z.of_nat (length fdt) + 4 /\ (4 | next)
            /\ (offset = next -> stuck fdt offset))).
Proof. intros Hb Hl Ht Hle. by apply (fdt_next_tag_spec fdt Hb Hl total). Qed.

Lemma fdt_next_tag_safe_witness :
  exists tag next, fdt_next_tag root_blob 8 = Some (tag, next)
    /\ ((tag = FDT_END /\ (next = - FDT_ERR_TRUNCATED \/ next = - FDT_ERR_BADSTRUCTURE))
        \/ (0 <= 8 /\ tag ∈ tags /\ 8 <= next < Z.of_nat (length root_blob) + 4 /\ (4 | next)
            /\ (8 = next -> stuck root_blob 8))).
Proof.
  apply (fdt_next_tag_safe root_blob 56 8); [by apply (bool_decide_unpack _)|by vm_compute|done|by vm_compute|lia].
Defined.

(** The search for the next node ends on every blob without a property of
    length 2^32 - 12, and reads only inside the blob. *)
Theorem fdt_next_node_total fdt total offset d :
  bytes fdt -> 40 <= Z.of_nat (length fdt) < 2 ^ 31 - 16 ->
  fdt_totalsize fdt = Some total -> total <= Z.of_nat (length fdt) ->
  (forall o, ~ stuck fdt o) -> offset < 2 ^ 31 - 8 ->
  exists r, fdt_next_node fdt offset d = Some r /\ r.1 < Z.of_nat (length fdt) + 4.
Proof. intros Hb Hl Ht Hle Hs. by apply (fdt_next_node_spec fdt Hb Hl total). Qed.

Lemma fdt_next_node_total_witness :
  exists r, fdt_next_node root_blob (-1) (Some (-1)) = Some r /\ r.1 < Z.of_nat (length root_blob) + 4.
Proof.
  apply (fdt_next_node_total root_blob 56); [by apply (bool_decide_unpack _)|by vm_compute|done|by vm_compute| |lia].
  apply not_stuck_dec. by vm_compute.
Defined.

(** A property of length 2^32 - 12: its end is its start, and the search for
    the next node stays there however long it runs. *)
Definition stuck_blob : list Z := mkblob (concat (map (be_bytes 4) [1; 0; 3; 2 ^ 32 - 12; 0; 2; 9])) [].

Example stuck_stays : fdt_next_tag stuck_blob 8 = Some (FDT_PROP, 8).
Proof. by vm_compute. Qed.

Example stuck_diverges fuel d : next_node_loop fuel stuck_blob 8 d = None.
Proof. induction fuel as [|fuel IH]; [done|]. cbn [next_node_loop]. by rewrite stuck_stays. Qed.

(** A property whose name offset lies behind the blob is compared with
    whatever is there. *)
Definition far_name_blob : list Z := mkblob (concat (map (be_bytes 4) [1; 0; 3; 0; 1000; 2; 9])) [97; 0].

Example getprop_reads_behind : fdt_getprop far_name_blob 0 (bytes_of "a" ++ [0]) = None.
Proof. by vm_compute. Qed.

(** An end tag without a node: the depth is -1, and [stack[-1]] is read. *)
Example regions_read_before :
  fdt_find_regions (mkblob (concat (map (be_bytes 4) [2; 9])) []) [] [] 10 200 false = None.
Proof. by vm_compute. Qed.

Example regions_of_root :
  fdt_find_regions root_blob [[47; 0]] [] 10 200 false = Some (1, [Region 40 16]).
Proof. by vm_compute. Qed.

End Fdt.
