(* ===== verification/FdtTree.v ===== *)
(** * Device trees and their flattened form

    The specification of the read access of Fdt.v: a structure block is a
    sequence of items, a tree is a sequence of items in brackets.  The
    theorems say what the functions of lib/libfdt return on a blob that
    encodes a tree.  The bytes that fill an item up to a multiple of four may
    be any ([encodes1]): the editing functions leave old bytes there. *)

From S2P Require Import Prelude Cstring Fdt.

Module FdtTree.
Import Cstring Fdt.

(** ** Items *)

Inductive item :=
  | IBegin (name : str)
  | IProp (nameoff : Z) (value : list Z)
  | IEnd
  | INop.

Definition tag_of (t : item) : Z :=
  match t with
  | IBegin _ => FDT_BEGIN_NODE
  | IProp _ _ => FDT_PROP
  | IEnd => FDT_END_NODE
  | INop => FDT_NOP
  end.

Definition body (t : item) : list Z :=
  match t with
  | IBegin n => n ++ [0]
  | IProp off d => be_bytes 4 (Z.of_nat (length d)) ++ be_bytes 4 off ++ d
  | IEnd | INop => []
  end.

(** Zeros up to the next multiple of four. *)
Definition pad (l : list Z) : list Z := l ++ replicate (Z.to_nat ((- Z.of_nat (length l)) mod 4)) 0.

Definition enc (t : item) : list Z := be_bytes 4 (tag_of t) ++ pad (body t).

Definition encs (l : list item) : list Z := concat (map enc l).

(** The structure block: the items and the end tag. *)
Definition block (l : list item) : list Z := encs l ++ be_bytes 4 FDT_END.

Definition good_item (t : item) : Prop :=
  match t with
  | IBegin n => is_str n
  | IProp off d => 0 <= off < 2 ^ 31 /\ Z.of_nat (length d) < 2 ^ 31
  | IEnd | INop => True
  end.

#[global] Instance good_item_dec t : Decision (good_item t).
Proof. destruct t; apply _. Defined.

Lemma length_pad l : exists k, length (pad l) = (4 * k)%nat /\ (length l <= 4 * k < length l + 4)%nat.
Proof.
  unfold pad. rewrite length_app, length_replicate.
  set (z := (- Z.of_nat (length l)) mod 4).
  assert (Hz : exists q, Z.of_nat (length l) + z = 4 * q /\ 0 <= z < 4)
    by (exists (- (- Z.of_nat (length l) / 4)); unfold z; Z.div_mod_to_equations; lia).
  destruct Hz as (q & Hq & Hz). exists (Z.to_nat q). lia.
Qed.

Lemma length_enc t : exists k, length (enc t) = (4 * k)%nat /\ (4 + length (body t) <= 4 * k < 8 + length (body t))%nat.
Proof.
  unfold enc. rewrite length_app, length_be_bytes. destruct (length_pad (body t)) as (k & -> & Hk).
  exists (S k). lia.
Qed.

Lemma length_encs l : (4 | Z.of_nat (length (encs l))) /\ (4 * length l <= length (encs l))%nat.
Proof.
  induction l as [|t l [[k Hk] IH]]; [split; [by exists 0|done]|].
  unfold encs. cbn [map concat length]. fold (encs l). rewrite length_app.
  destruct (length_enc t) as (k' & Hk' & ?). split; [exists (k + Z.of_nat k'); lia|lia].
Qed.

Lemma encs_app l1 l2 : encs (l1 ++ l2) = encs l1 ++ encs l2.
Proof. unfold encs. by rewrite map_app, concat_app. Qed.

(** The bytes of an item and of items when the padding may be any bytes: what
    [enc] writes, and what the editing functions leave behind. *)
Definition encodes1 (t : item) (e : list Z) : Prop :=
  exists g, e = be_bytes 4 (tag_of t) ++ body t ++ g /\ length e = length (enc t).

Inductive encodes : list item -> list Z -> Prop :=
  | encodes_nil : encodes [] []
  | encodes_cons t e l E : encodes1 t e -> encodes l E -> encodes (t :: l) (e ++ E).

(** A structure block with these items. *)
Definition block_of (l : list item) (S : list Z) : Prop :=
  exists E, encodes l E /\ S = E ++ be_bytes 4 FDT_END.

Lemma encodes1_enc t : encodes1 t (enc t).
Proof. unfold encodes1, enc, pad. eexists. by rewrite <- ?app_assoc. Qed.

Lemma encodes_encs l : encodes l (encs l).
Proof. induction l; [constructor|]. unfold encs. cbn [map concat]. constructor; [apply encodes1_enc|done]. Qed.

Lemma encodes_length l E : encodes l E -> length E = length (encs l).
Proof.
  induction 1 as [|t e l E (g & _ & He) _ IH]; [done|]. unfold encs. cbn [map concat]. fold (encs l).
  rewrite !length_app. lia.
Qed.

Lemma encodes_app l1 l2 E :
  encodes (l1 ++ l2) E <-> exists E1 E2, encodes l1 E1 /\ encodes l2 E2 /\ E = E1 ++ E2.
Proof.
  split.
  - revert E. induction l1 as [|t l1 IH]; intros E H; cbn [app] in H.
    { exists [], E. split; [constructor|done]. }
    inversion H as [|? e ? E' He Hl]; subst. apply IH in Hl as (E1 & E2 & H1 & H2 & ->).
    exists (e ++ E1), E2. split; [by constructor|]. by rewrite <- app_assoc.
  - intros (E1 & E2 & H1 & H2 & ->). induction H1 as [|t e l E He _ IH]; [done|].
    rewrite <- app_assoc. by constructor.
Qed.

Lemma encodes_cons_inv t l E : encodes (t :: l) E -> exists e E', encodes1 t e /\ encodes l E' /\ E = e ++ E'.
Proof. intros H. inversion H; subst. eauto. Qed.

Lemma encodes_single t e : encodes [t] e <-> encodes1 t e.
Proof.
  split.
  - intros (e' & E & He & HE & ->)%encodes_cons_inv. inversion HE. by rewrite app_nil_r.
  - intros He. rewrite <- (app_nil_r e). constructor; [done|constructor].
Qed.

Lemma block_encodes l : block_of l (block l).
Proof. eexists. split; [apply encodes_encs|done]. Qed.

(** A block split at an item. *)
Lemma block_of_cons t l S : block_of (t :: l) S -> exists e S', encodes1 t e /\ block_of l S' /\ S = e ++ S'.
Proof.
  intros (E & (e & E' & He & HE & ->)%encodes_cons_inv & ->). exists e, (E' ++ be_bytes 4 FDT_END).
  split; [done|]. split; [by exists E'|]. by rewrite <- app_assoc.
Qed.

Lemma block_of_app l1 l2 S :
  block_of (l1 ++ l2) S <-> exists E S', encodes l1 E /\ block_of l2 S' /\ S = E ++ S'.
Proof.
  split.
  - intros (E & (E1 & E2 & H1 & H2 & ->)%encodes_app & ->). exists E1, (E2 ++ be_bytes 4 FDT_END).
    split; [done|]. split; [by exists E2|]. by rewrite <- app_assoc.
  - intros (E & S' & H1 & (E2 & H2 & ->) & ->). exists (E ++ E2). split; [|by rewrite <- app_assoc].
    apply encodes_app. eauto.
Qed.

Lemma block_of_length l S : block_of l S -> length S = (length (encs l) + 4)%nat.
Proof. intros (E & HE & ->). by rewrite length_app, length_be_bytes, (encodes_length l E). Qed.

(** ** Blobs that hold a structure block *)

Record layout (pre S post : list Z) : Prop := {
  lay_bytes : bytes (pre ++ S ++ post);
  lay_len : Z.of_nat (length (pre ++ S ++ post)) < 2 ^ 31 - 16;
  lay_magic : fdt_magic (pre ++ S ++ post) = Some FDT_MAGIC;
  lay_version : fdt_version (pre ++ S ++ post) = Some 0x11;
  lay_comp : fdt_last_comp_version (pre ++ S ++ post) = Some 0x10;
  lay_total : exists total, fdt_totalsize (pre ++ S ++ post) = Some total
    /\ Z.of_nat (length pre + length S) <= total;
  lay_off : fdt_off_dt_struct (pre ++ S ++ post) = Some (Z.of_nat (length pre));
  lay_size : fdt_size_dt_struct (pre ++ S ++ post) = Some (Z.of_nat (length S));
}.

Lemma rd8_at X c Y : rd8 (X ++ c :: Y) (Z.of_nat (length X)) = Some c.
Proof.
  unfold rd8. destruct (Z.ltb_spec (Z.of_nat (length X)) 0); [lia|].
  by rewrite Nat2Z.id, lookup_app_r, Nat.sub_diag by lia.
Qed.

Lemma rd32_at X v Y : 0 <= v < 2 ^ 32 -> rd32 (X ++ be_bytes 4 v ++ Y) (Z.of_nat (length X)) = Some v.
Proof.
  intros Hv. unfold rd32. remember (be_bytes 4 v) as l eqn:El.
  assert (Hl : length l = 4%nat) by (subst; apply length_be_bytes).
  destruct l as [|a [|b [|c [|d [|]]]]]; try done. cbn [app].
  rewrite rd8_at. cbn [mbind option_bind].
  assert (Hsh : forall k Z1 x Z2, X ++ a :: b :: c :: d :: Y = Z1 ++ x :: Z2 ->
    Z.of_nat (length Z1) = Z.of_nat (length X) + k ->
    rd8 (X ++ a :: b :: c :: d :: Y) (Z.of_nat (length X) + k) = Some x)
    by (intros k Z1 x Z2 -> <-; apply rd8_at).
  rewrite (Hsh 1 (X ++ [a]) b (c :: d :: Y)), (Hsh 2 (X ++ [a; b]) c (d :: Y)),
    (Hsh 3 (X ++ [a; b; c]) d Y) by (by rewrite <- ?app_assoc || (rewrite length_app; cbn [length]; lia)).
  cbn [mbind option_bind]. rewrite El, be_combine_bytes. f_equal. apply (wrap_small 32). done.
Qed.

Section Layout.
Context (pre S post : list Z) (L : layout pre S post).

Abbreviation fdt := (pre ++ S ++ post).

Lemma fdt_length : Z.of_nat (length pre + length S) < 2 ^ 31 - 16.
Proof. pose proof (lay_len _ _ _ L) as H. rewrite !length_app in H. lia. Qed.

Lemma check_header_ok : fdt_check_header fdt = Some 0.
Proof.
  unfold fdt_check_header. rewrite (lay_magic _ _ _ L). cbn [mbind option_bind].
  rewrite Z.eqb_refl, (lay_version _ _ _ L). cbn [mbind option_bind Z.ltb Z.compare Pos.compare].
  by rewrite (lay_comp _ _ _ L).
Qed.

(** A range inside the block. *)
Lemma ptr_ok a len :
  0 <= a -> 0 <= len -> a + len <= Z.of_nat (length S) ->
  fdt_offset_ptr fdt a len = Some (Some (Z.of_nat (length pre) + a)).
Proof.
  intros Ha Hl Hle. pose proof fdt_length. destruct (lay_total _ _ _ L) as (total & Ht & Htl).
  unfold fdt_offset_ptr, _fdt_offset_ptr. rewrite (lay_off _ _ _ L), Ht, (lay_version _ _ _ L), (lay_size _ _ _ L).
  cbn [mbind option_bind]. rewrite !u32_small by (rewrite ?u32_small; lia).
  destruct (Z.ltb_spec (a + Z.of_nat (length pre)) a); [lia|].
  destruct (Z.ltb_spec (a + Z.of_nat (length pre) + len) (a + Z.of_nat (length pre))); [lia|].
  destruct (Z.ltb_spec total (a + Z.of_nat (length pre) + len)); [lia|].
  change (0x11 <=? 0x11) with true. destruct (Z.ltb_spec (a + len) a); [lia|]. cbn [mbind option_bind].
  by destruct (Z.ltb_spec (Z.of_nat (length S)) (a + len)); [lia|].
Qed.

Lemma ptr_short a len :
  0 <= a -> 0 <= len < 2 ^ 31 -> Z.of_nat (length S) < a + len -> a <= Z.of_nat (length S) ->
  fdt_offset_ptr fdt a len = Some None.
Proof.
  intros Ha Hl Hlt Hle. pose proof fdt_length. destruct (lay_total _ _ _ L) as (total & Ht & Htl).
  unfold fdt_offset_ptr. rewrite (lay_off _ _ _ L), Ht, (lay_version _ _ _ L), (lay_size _ _ _ L).
  cbn [mbind option_bind]. rewrite !u32_small by (rewrite ?u32_small; lia).
  destruct (_ <? a); [done|]. destruct (_ <? a + Z.of_nat (length pre)); [done|].
  destruct (total <? _); [done|]. change (0x11 <=? 0x11) with true.
  destruct (Z.ltb_spec (a + len) a); [lia|]. cbn [mbind option_bind].
  by destruct (Z.ltb_spec (Z.of_nat (length S)) (a + len)); [|lia].
Qed.

Lemma fdt_at A B : S = A ++ B -> fdt = (pre ++ A) ++ B ++ post.
Proof. intros ->. by rewrite <- !app_assoc. Qed.

Lemma rd32_struct A v B :
  S = A ++ be_bytes 4 v ++ B -> 0 <= v < 2 ^ 32 ->
  rd32 fdt (Z.of_nat (length pre) + Z.of_nat (length A)) = Some v.
Proof.
  intros E Hv. rewrite (fdt_at _ _ E), <- !app_assoc, <- Nat2Z.inj_add, <- length_app.
  rewrite (app_assoc pre A). by apply rd32_at.
Qed.

Lemma rd8_struct A c B :
  S = A ++ c :: B -> rd8 fdt (Z.of_nat (length pre) + Z.of_nat (length A)) = Some c.
Proof.
  intros E. rewrite (fdt_at _ _ E), <- Nat2Z.inj_add, <- length_app. apply rd8_at.
Qed.

Lemma skip_name_ok fuel A n B :
  S = A ++ n ++ 0 :: B -> is_str n -> (length n < fuel)%nat ->
  skip_name fuel fdt (Z.of_nat (length A)) = Some (Some (Z.of_nat (length A + length n) + 1)).
Proof.
  intros E Hn. pose proof fdt_length as Hlen. revert A fuel E.
  induction Hn as [|c n Hc Hn IH]; intros A [|fuel] E Hf; cbn [length] in Hf; try lia; cbn [skip_name].
  all: assert (HA : (length A < length S)%nat) by (rewrite E, !length_app; cbn [length]; lia).
  all: rewrite ptr_ok by lia; cbn [mbind option_bind].
  - rewrite (rd8_struct A 0 B E). cbn [mbind option_bind Z.eqb]. rewrite s32_small by lia. do 2 f_equal. cbn [length]. lia.
  - rewrite (rd8_struct A c (n ++ 0 :: B) E). cbn [mbind option_bind]. destruct (Z.eqb_spec c 0); [lia|]. rewrite s32_small by lia.
    replace (Z.of_nat (length A) + 1) with (Z.of_nat (length (A ++ [c]))) by (rewrite length_app; cbn; lia).
    rewrite IH; [|by rewrite <- app_assoc|lia]. do 2 f_equal. rewrite length_app. cbn [length]. lia.
Qed.

Lemma tagalign_body (A : list Z) t :
  (4 | Z.of_nat (length A)) ->
  Z.of_nat (length A + 4 + length (body t)) < 2 ^ 31 - 8 ->
  FDT_TAGALIGN (Z.of_nat (length A) + 4 + Z.of_nat (length (body t))) = Z.of_nat (length A + length (enc t)).
Proof.
  intros [a Ha] Hlt. destruct (length_enc t) as (k & Hk & Hb).
  destruct (tagalign_bounds (Z.of_nat (length A) + 4 + Z.of_nat (length (body t)))) as [Hr [q Hq]]; [lia|].
  lia.
Qed.

(** [fdt_next_tag] reads one item. *)
Lemma next_tag_item A t e B :
  S = A ++ e ++ B -> encodes1 t e -> (4 | Z.of_nat (length A)) -> good_item t ->
  fdt_next_tag fdt (Z.of_nat (length A)) = Some (tag_of t, Z.of_nat (length A + length e)).
Proof.
  intros E (g & Eg & He) Hdiv Ht. pose proof fdt_length as Hlen. unfold fdt_next_tag. rewrite He.
  destruct (length_enc t) as (k & Hk & Hb).
  assert (HS : (length A + length (enc t) <= length S)%nat) by (rewrite E, !length_app; lia).
  change FDT_TAGSIZE with 4. rewrite ptr_ok by lia. cbn [mbind option_bind].
  rewrite Eg, <- !app_assoc in E.
  rewrite (rd32_struct A (tag_of t) (body t ++ g ++ B) E) by (by destruct t).
  cbn [mbind option_bind]. rewrite s32_small by lia.
  assert (Hend : item_end fdt (tag_of t) (Z.of_nat (length A) + 4)
    = Some (Some (Z.of_nat (length A) + 4 + Z.of_nat (length (body t))))).
  { unfold item_end. destruct t as [n|off d| |]; cbn [tag_of Z.eqb Pos.eqb FDT_BEGIN_NODE FDT_PROP FDT_END_NODE
      FDT_NOP FDT_END orb body].
    - replace (Z.of_nat (length A) + 4) with (Z.of_nat (length (A ++ be_bytes 4 FDT_BEGIN_NODE)))
        by (rewrite length_app, length_be_bytes; lia).
      cbn [body] in E. rewrite <- !app_assoc in E. cbn [app] in E.
      rewrite (skip_name_ok _ _ n (g ++ B));
        [|by rewrite <- !app_assoc|done|cbn [body] in *; rewrite !length_app in *; cbn [length] in *; lia].
      do 2 f_equal. rewrite !length_app, length_be_bytes. cbn [length]. lia.
    - cbn [body] in Hb, E. rewrite !length_app, !length_be_bytes in Hb.
      rewrite ptr_ok by lia. cbn [mbind option_bind].
      replace (Z.of_nat (length A) + 4) with (Z.of_nat (length (A ++ be_bytes 4 FDT_PROP)))
        by (rewrite length_app, length_be_bytes; lia).
      rewrite <- !app_assoc in E. destruct Ht as [Hoff Hd].
      erewrite rd32_struct; [|rewrite <- app_assoc; exact E|lia]. cbn [mbind option_bind].
      change (12 - FDT_TAGSIZE) with 8. rewrite s32_small by (rewrite length_app, length_be_bytes; lia).
      do 2 f_equal. rewrite !length_app, !length_be_bytes. lia.
    - by rewrite Z.add_0_r.
    - by rewrite Z.add_0_r. }
  rewrite Hend. cbn [mbind option_bind].
  rewrite (u32_small (_ - _)) by lia. rewrite ptr_ok by lia. cbn [mbind option_bind].
  rewrite tagalign_body by (done || lia). done.
Qed.

(** The end tag behind the items. *)
Lemma next_tag_end A :
  S = A ++ be_bytes 4 FDT_END ->
  fdt_next_tag fdt (Z.of_nat (length A)) = Some (FDT_END, FDT_TAGALIGN (Z.of_nat (length A) + 4)).
Proof.
  intros E. pose proof fdt_length as Hlen. unfold fdt_next_tag.
  assert (HS : length S = (length A + 4)%nat) by (rewrite E, length_app, length_be_bytes; lia).
  change FDT_TAGSIZE with 4. rewrite ptr_ok by lia. cbn [mbind option_bind].
  rewrite (rd32_struct A FDT_END []) by (by rewrite ?app_nil_r || (unfold FDT_END; lia)).
  cbn [mbind option_bind]. rewrite s32_small by lia. unfold item_end.
  cbn [Z.eqb Pos.eqb FDT_BEGIN_NODE FDT_PROP FDT_END orb mbind option_bind].
  rewrite u32_small by lia. rewrite ptr_ok by lia. done.
Qed.

End Layout.

(** ** Trees *)

Inductive node := Node (name : str) (props : list (Z * list Z)) (subs : list node).

Definition node_name (n : node) : str := match n with Node s _ _ => s end.

Definition prop_items (ps : list (Z * list Z)) : list item := map (fun p => IProp p.1 p.2) ps.

Fixpoint items (n : node) : list item :=
  match n with
  | Node s ps subs => IBegin s :: prop_items ps ++ concat (map items subs) ++ [IEnd]
  end.

Definition forest (l : list node) : list item := concat (map items l).

Definition node_size (n : node) : Z := Z.of_nat (length (encs (items n))).

(** Induction over trees. *)
Lemma node_induction (P : node -> Prop) :
  (forall s ps subs, Forall P subs -> P (Node s ps subs)) -> forall n, P n.
Proof.
  intros H. fix IH 1. intros [s ps subs]. apply H.
  induction subs as [|n subs IHs]; constructor; [apply IH|exact IHs].
Qed.

(** *** Node names *)

(** A name matches itself, and one without a unit address also matches it
    followed by one. *)
Definition name_match (n s : str) : bool :=
  bool_decide (n = s)
  || (negb (bool_decide (64 ∈ s)) && bool_decide (s `prefix_of` n)
      && bool_decide (n !! length s = Some 64)).

Lemma memchr_spec s y :
  exists r, memchr (s ++ y) 64 (length s) = Some r /\ (r = None <-> ~ 64 ∈ s).
Proof.
  induction s as [|c s (r & IH & Hr)]; cbn [app length memchr].
  { exists None. split; [done|]. split; [intros _; apply not_elem_of_nil|done]. }
  change (u8 64) with 64. destruct (Z.eqb_spec 64 c) as [<-|Hne].
  - eexists. split; [done|]. split; [done|]. set_solver.
  - rewrite IH. cbn [mbind option_bind]. eexists. split; [done|]. destruct r; cbn [option_map].
    + split; [done|]. intros Hn. destruct Hr as [_ Hr]. specialize (Hr ltac:(set_solver)). done.
    + split; [|done]. intros _. destruct Hr as [Hr _]. specialize (Hr eq_refl). set_solver.
Qed.

(** A name in a list of bytes in which it is followed by a NUL. *)
Lemma take_prefix_str (n s : str) x :
  is_str s -> (length s <= length (n ++ 0%Z :: x))%nat ->
  take (length s) (n ++ 0%Z :: x) = s <-> s `prefix_of` n.
Proof.
  intros Hs. revert n. induction Hs as [|c s Hc Hs IH]; intros n Hlen.
  - split; [intros _; apply prefix_nil|done].
  - destruct n as [|d n]; cbn [app length take] in *.
    + split; [intros [= <- _]; lia|]. intros [k Hk]. done.
    + split.
      * intros [= -> E]. apply prefix_cons, IH; [lia|done].
      * intros Hp. pose proof (prefix_cons_inv_1 _ _ _ _ Hp) as ->.
        apply prefix_cons_inv_2 in Hp. f_equal. apply IH; [lia|done].
Qed.

Section Search.
Context (pre S post : list Z) (L : layout pre S post).

Abbreviation fdt := (pre ++ S ++ post).

Lemma nodename_eq_ok A n e B name y :
  S = A ++ e ++ B -> encodes1 (IBegin n) e -> is_str n -> is_str name -> Z.of_nat (length name) < 2 ^ 30 ->
  _fdt_nodename_eq fdt (Z.of_nat (length A)) (name ++ y) (length name) = Some (name_match n name).
Proof.
  intros E (g & Eg & _) Hn Hs Hsl. pose proof (fdt_length _ _ _ L) as Hlen. unfold _fdt_nodename_eq.
  assert (Hex : exists x, S = (A ++ be_bytes 4 FDT_BEGIN_NODE) ++ n ++ 0 :: x).
  { rewrite Eg in E. cbn [body] in E. rewrite <- !app_assoc in E. cbn [app] in E.
    eexists. rewrite <- app_assoc. exact E. }
  destruct Hex as [x Ex]. set (A' := A ++ be_bytes 4 FDT_BEGIN_NODE) in *.
  assert (HA' : length A' = (length A + 4)%nat) by (unfold A'; rewrite length_app, length_be_bytes; lia).
  assert (HS : length S = (length A' + length n + 1 + length x)%nat)
    by (rewrite Ex, !length_app; cbn [length]; lia).
  change FDT_TAGSIZE with 4. rewrite s32_small by lia.
  replace (Z.of_nat (length A) + 4) with (Z.of_nat (length A')) by lia.
  destruct (decide (length A' + length name + 1 <= length S)%nat) as [Hfit|Hshort].
  - rewrite (ptr_ok pre S post L) by lia. cbn [mbind option_bind]. unfold at_.
    destruct (Z.ltb_spec (Z.of_nat (length pre) + Z.of_nat (length A')) 0); [lia|]. cbn [mbind option_bind].
    assert (Hat : drop (Z.to_nat (Z.of_nat (length pre) + Z.of_nat (length A'))) fdt = n ++ 0 :: x ++ post).
    { rewrite (fdt_at pre S post L _ _ Ex), drop_app_length' by (rewrite length_app; lia).
      by rewrite <- app_assoc. }
    rewrite Hat. destruct (memcmp_spec (n ++ 0 :: x ++ post) (name ++ y) (length name)) as (r & -> & Hr).
    { rewrite length_app. cbn [length]. rewrite length_app. lia. }
    { rewrite length_app. lia. }
    cbn [mbind option_bind]. rewrite take_app_length, take_prefix_str in Hr
      by (done || (rewrite length_app; cbn [length]; rewrite length_app; lia)).
    destruct (Z.eqb_spec r 0) as [Er|Er]; cbn [negb].
    + apply Hr in Er as [t ->]. unfold name_match. rewrite <- app_assoc, lookup_app_r, Nat.sub_diag by lia.
      rewrite (lookup_app_r name t), Nat.sub_diag by lia.
      rewrite (bool_decide_eq_true_2 (name `prefix_of` name ++ t)) by (by apply prefix_app_r).
      apply Forall_app in Hn as [_ Ht]. destruct Ht as [|c t Hc Ht]; cbn [app lookup list_lookup mbind option_bind].
      * rewrite app_nil_r. by rewrite bool_decide_eq_true_2.
      * destruct (Z.eqb_spec c 0); [lia|]. destruct (memchr_spec name y) as (m & -> & Hm).
        cbn [mbind option_bind]. f_equal.
        rewrite (bool_decide_eq_false_2 (name ++ c :: t = name)) by (intros E'; apply (f_equal length) in E';
          rewrite length_app in E'; cbn in E'; lia). cbn [orb]. rewrite andb_true_r.
        destruct m as [m|].
        -- rewrite bool_decide_eq_true_2; [done|]. destruct (decide (64 ∈ name)); [done|]. by apply Hm in n0.
        -- rewrite bool_decide_eq_false_2 by (by apply Hm). cbn [negb andb].
           destruct (Z.eqb_spec c 64) as [->|]; symmetry; [by apply bool_decide_eq_true_2|].
           apply bool_decide_eq_false_2. congruence.
    + unfold name_match. rewrite (bool_decide_eq_false_2 (name `prefix_of` n)) by (intros Hp; by apply Er, Hr).
      rewrite andb_false_r. cbn [andb orb]. rewrite bool_decide_eq_false_2; [done|].
      intros ->. by apply Er, Hr.
  - rewrite (ptr_short pre S post L) by lia. cbn [mbind option_bind]. unfold name_match.
    rewrite (bool_decide_eq_false_2 (name `prefix_of` n)) by (intros Hp%prefix_length; lia).
    rewrite andb_false_r. cbn [andb orb]. rewrite bool_decide_eq_false_2; [done|]. intros ->. lia.
Qed.

(** *** The search for a subnode *)

(** One pass over the items behind a node's name, [d] brackets deep. *)
Fixpoint search (name : str) (l : list item) (off d : Z) : Z :=
  match l with
  | [] => - FDT_ERR_NOTFOUND
  | IBegin n :: l =>
      if (d =? 0) && name_match n name then off
      else search name l (off + Z.of_nat (length (enc (IBegin n)))) (d + 1)
  | IEnd :: l =>
      if d - 1 <? 0 then - FDT_ERR_NOTFOUND
      else search name l (off + Z.of_nat (length (enc IEnd))) (d - 1)
  | t :: l => search name l (off + Z.of_nat (length (enc t))) d
  end.

Lemma encs_cons t l : encs (t :: l) = enc t ++ encs l.
Proof. done. Qed.

(** The structure block in front of an item, and the item as [next_tag_item]
    wants it. *)
Lemma snoc_div (A : list Z) t e :
  encodes1 t e -> (4 | Z.of_nat (length A)) -> (4 | Z.of_nat (length (A ++ e))).
Proof.
  intros (g & _ & He) [a Ha]. destruct (length_enc t) as (k & Hk & _). exists (a + Z.of_nat k).
  rewrite length_app. lia.
Qed.

Lemma aligned A : (4 | Z.of_nat (length A)) -> misaligned (Z.of_nat (length (A : list Z))) = false.
Proof.
  intros [a Ha]. unfold misaligned, FDT_TAGSIZE. rewrite Z.rem_mod_nonneg by lia. rewrite Ha. by rewrite Z.mod_mul.
Qed.

Lemma check_node_begin A n e B :
  S = A ++ e ++ B -> encodes1 (IBegin n) e -> (4 | Z.of_nat (length A)) -> is_str n ->
  _fdt_check_node_offset fdt (Z.of_nat (length A)) = Some (Z.of_nat (length (A ++ e))).
Proof.
  intros E He Hdiv Hn. unfold _fdt_check_node_offset, check_offset.
  destruct (Z.ltb_spec (Z.of_nat (length A)) 0); [lia|]. cbn [orb]. rewrite aligned by done.
  rewrite (next_tag_item pre S post L A (IBegin n) e B) by done. cbn [mbind option_bind].
  by rewrite length_app.
Qed.

Lemma next_node_begin A n e B d :
  S = A ++ e ++ B -> encodes1 (IBegin n) e -> (4 | Z.of_nat (length A)) -> is_str n ->
  fdt_next_node fdt (Z.of_nat (length A)) d
  = next_node_loop (length fdt + 1) fdt (Z.of_nat (length (A ++ e))) d.
Proof.
  intros E He Hdiv Hn. unfold fdt_next_node.
  destruct (Z.leb_spec 0 (Z.of_nat (length A))); [|lia]. rewrite (check_node_begin A n e B) by done.
  cbn [mbind option_bind]. by destruct (Z.ltb_spec (Z.of_nat (length (A ++ e))) 0); [lia|].
Qed.

(** From inside a call of [fdt_next_node] to the end of the search. *)
Definition continue_search (F fuel : nat) (off d : Z) (name : list Z) (namelen : nat) : option Z :=
  '(o, dd) ← next_node_loop F fdt off (Some d);
  dd ← dd;
  subnode_loop fuel fdt o dd name namelen.

Lemma continue_search_spec name y l A F fuel d :
  is_str name -> Z.of_nat (length name) < 2 ^ 30 ->
  (exists S', block_of l S' /\ S = A ++ S') -> (4 | Z.of_nat (length A)) -> Forall good_item l -> 0 <= d ->
  (length l < F)%nat -> (length l + 1 < fuel)%nat ->
  continue_search F fuel (Z.of_nat (length A)) d (name ++ y) (length name)
  = Some (search name l (Z.of_nat (length A)) d).
Proof.
  intros Hname Hnl. revert A F fuel d. induction l as [|t l IH]; intros A F fuel d (S' & HS' & E) Hdiv Hg Hd HF Hfuel.
  - destruct HS' as (E0 & H0 & ->). inversion H0; subst E0. cbn [app] in E. destruct F as [|F]; [cbn in HF; lia|]. destruct fuel as [|fuel]; [lia|].
    unfold continue_search. cbn [next_node_loop search].
    rewrite (next_tag_end pre S post L A) by done. cbn [mbind option_bind].
    change (FDT_END =? FDT_BEGIN_NODE) with false. change (FDT_END =? FDT_END_NODE) with false.
    rewrite Z.eqb_refl. pose proof (fdt_length _ _ _ L) as Hlen.
    assert (HS : length S = (length A + 4)%nat)
      by (rewrite E, length_app, length_be_bytes; lia).
    destruct (tagalign_bounds (Z.of_nat (length A) + 4)) as [Hb _]; [lia|].
    destruct (Z.leb_spec 0 (FDT_TAGALIGN (Z.of_nat (length A) + 4))); [|lia]. cbn [orb mbind option_bind].
    cbn [subnode_loop]. change (0 <=? - FDT_ERR_NOTFOUND) with false. cbn [andb].
    by destruct (Z.ltb_spec d 0); [lia|].
  - apply Forall_cons_1 in Hg as [Ht Hg]. cbn [length] in HF, Hfuel.
    destruct F as [|F]; [lia|].
    apply block_of_cons in HS' as (e & S1 & He & HS1 & ->).
    assert (E'' : S = (A ++ e) ++ S1) by (by rewrite <- app_assoc).
    assert (Hex : exists S', block_of l S' /\ S = (A ++ e) ++ S') by eauto.
    pose proof (snoc_div A t e He Hdiv) as Hdiv'.
    assert (Hlt : Z.of_nat (length A) + Z.of_nat (length (enc t)) = Z.of_nat (length (A ++ e)))
      by (destruct He as (? & _ & He); rewrite length_app; lia).
    unfold continue_search. cbn [next_node_loop]. rewrite (next_tag_item pre S post L A t e S1) by done.
    cbn [mbind option_bind]. rewrite <- length_app.
    destruct t as [n|off v| |]; cbn [search]; rewrite ?Hlt.
    + cbn [tag_of Z.eqb Pos.eqb FDT_BEGIN_NODE mbind option_bind option_map].
      destruct fuel as [|fuel]; [lia|]. cbn [subnode_loop].
      destruct (Z.leb_spec 0 (Z.of_nat (length A))); [|lia].
      destruct (Z.leb_spec 0 (1 + d)); [|lia]. cbn [andb].
      assert ((if 1 + d =? 1 then _fdt_nodename_eq fdt (Z.of_nat (length A)) (name ++ y) (length name)
               else Some false) = Some ((d =? 0) && name_match n name)) as ->.
      { destruct (Z.eqb_spec (1 + d) 1), (Z.eqb_spec d 0); try lia; [|done].
        by apply (nodename_eq_ok A n e S1). }
      cbn [mbind option_bind]. destruct ((d =? 0) && name_match n name); [done|].
      unfold fdt_next_node_depth. rewrite (next_node_begin A n e S1) by done.
      rewrite (Z.add_comm 1 d), option_bind_assoc. cbn beta.
      rewrite <- (IH (A ++ e) (length fdt + 1)%nat fuel (d + 1)); try done; try lia.
      * unfold continue_search. destruct (next_node_loop _ _ _ _) as [[o [dd|]]|]; done.
      * destruct (length_encs l) as [_ Hll]. apply block_of_length in HS1. apply (f_equal length) in E. rewrite !length_app in *. lia.
    + apply (IH (A ++ e) F fuel d); done || lia.
    + cbn [tag_of Z.eqb Pos.eqb FDT_BEGIN_NODE FDT_END_NODE]. destruct (Z.ltb_spec (d - 1) 0).
      * destruct fuel as [|fuel]; [lia|]. cbn [mbind option_bind subnode_loop].
        destruct (Z.leb_spec 0 (d - 1)); [lia|]. rewrite andb_false_r.
        by destruct (Z.ltb_spec (d - 1) 0); [|lia].
      * apply (IH (A ++ e) F fuel (d - 1)); done || lia.
    + apply (IH (A ++ e) F fuel d); done || lia.
Qed.

End Search.

(** *** Subnodes of a tree *)

Definition size_of (l : list item) : Z := Z.of_nat (length (encs l)).

Lemma size_of_app l1 l2 : size_of (l1 ++ l2) = size_of l1 + size_of l2.
Proof. unfold size_of. rewrite encs_app, length_app. lia. Qed.

Lemma size_of_cons t l : size_of (t :: l) = Z.of_nat (length (enc t)) + size_of l.
Proof. unfold size_of. rewrite encs_cons, length_app. lia. Qed.

Lemma search_props name ps l off d :
  search name (prop_items ps ++ l) off d = search name l (off + size_of (prop_items ps)) d.
Proof.
  revert off. induction ps as [|p ps IH]; intros off; [by rewrite Z.add_0_r|].
  cbn [prop_items map app search]. fold (prop_items ps). rewrite IH, size_of_cons. f_equal. lia.
Qed.

(** Inside a subnode nothing matches. *)
Lemma search_node name n : forall l off d,
  1 <= d -> search name (items n ++ l) off d = search name l (off + size_of (items n)) d.
Proof.
  induction n as [s ps subs IH] using node_induction. intros l off d Hd.
  cbn [items app search]. destruct (Z.eqb_spec d 0); [lia|]. cbn [andb].
  rewrite <- !app_assoc, search_props.
  assert (Hsubs : forall off r, search name (concat (map items subs) ++ r) off (d + 1)
    = search name r (off + size_of (concat (map items subs))) (d + 1)).
  { clear off. induction IH as [|c subs Hc _ IHs]; intros off r; cbn [map concat]; [by rewrite Z.add_0_r|].
    rewrite <- app_assoc, Hc, IHs, size_of_app by lia. f_equal. lia. }
  rewrite Hsubs. cbn [app search]. destruct (Z.ltb_spec (d + 1 - 1) 0); [lia|].
  rewrite size_of_cons, !size_of_app. change (size_of [IEnd]) with (Z.of_nat (length (enc IEnd))).
  f_equal; lia.
Qed.

(** The first subnode with a matching name and its offset; [off] is where the
    first one starts. *)
Fixpoint find_sub (name : str) (subs : list node) (off : Z) : option (Z * node) :=
  match subs with
  | [] => None
  | n :: subs =>
      if name_match (node_name n) name then Some (off, n) else find_sub name subs (off + size_of (items n))
  end.

Lemma search_forest name subs l off :
  search name (forest subs ++ IEnd :: l) off 0 = from_option fst (- FDT_ERR_NOTFOUND) (find_sub name subs off).
Proof.
  revert off. induction subs as [|[s ps cs] subs IH]; intros off; [done|].
  unfold forest. cbn [map concat find_sub node_name]. fold (forest subs).
  cbn [items app search Z.eqb andb]. destruct (name_match s name); [done|].
  rewrite <- !app_assoc, search_props.
  assert (Hsubs : forall off r, search name (concat (map items cs) ++ r) off 1
    = search name r (off + size_of (concat (map items cs))) 1).
  { clear. intros off r. revert off. induction cs as [|c cs IHc]; intros off; cbn [map concat]; [by rewrite Z.add_0_r|].
    rewrite <- app_assoc, search_node, IHc, size_of_app by lia. f_equal. lia. }
  change (0 + 1) with 1. rewrite Hsubs. cbn [app search]. change (1 - 1 <? 0) with false. cbn iota.
  change (1 - 1) with 0. rewrite IH. f_equal. f_equal.
  rewrite size_of_cons, !size_of_app. change (size_of [IEnd]) with (Z.of_nat (length (enc IEnd))). lia.
Qed.

Definition good_tree (n : node) : Prop := Forall good_item (items n).

(** A tree at its place in a structure block: what is before it, and the node. *)
Definition holds (pre S post : list Z) (l1 : list item) (n : node) (l2 : list item) : Prop :=
  layout pre S post /\ block_of (l1 ++ items n ++ l2) S /\ Forall good_item (l1 ++ items n ++ l2).

(** Where the subnodes of a node start. *)
Definition subs_at (off : Z) (nm : str) (ps : list (Z * list Z)) : Z :=
  off + Z.of_nat (length (enc (IBegin nm))) + size_of (prop_items ps).

(** The block around an item. *)
Lemma split_item S l1 t rest :
  block_of (l1 ++ t :: rest) S ->
  exists E e S', encodes l1 E /\ encodes1 t e /\ block_of rest S' /\ S = E ++ e ++ S'
    /\ Z.of_nat (length E) = size_of l1 /\ (4 | Z.of_nat (length E)) /\ length e = length (enc t).
Proof.
  intros (E & S1 & HE & (e & S' & He & HS' & ->)%block_of_cons & ->)%block_of_app. exists E, e, S'.
  pose proof (encodes_length l1 E HE) as Hl. pose proof He as (_ & _ & Hle). destruct (length_encs l1) as [Hd _].
  unfold size_of. rewrite Hl. done.
Qed.

Lemma subnode_namelen_spec pre S post l1 nm ps subs l2 name y :
  holds pre S post l1 (Node nm ps subs) l2 ->
  is_str name -> Z.of_nat (length name) < 2 ^ 30 ->
  fdt_subnode_offset_namelen (pre ++ S ++ post) (size_of l1) (name ++ y) (length name)
  = Some (from_option fst (- FDT_ERR_NOTFOUND) (find_sub name subs (subs_at (size_of l1) nm ps))).
Proof.
  intros (L & E & Hg) Hs Hl. unfold fdt_subnode_offset_namelen. rewrite (check_header_ok pre S post L).
  cbn [mbind option_bind Z.eqb negb].
  cbn [items app] in E, Hg. rewrite <- !app_assoc in E, Hg. cbn [app] in E, Hg. set (rest := prop_items ps ++ concat (map items subs) ++ IEnd :: l2) in *.
  destruct (split_item S l1 (IBegin nm) rest E) as (A & e & S' & HA & He & HS' & ES & Hsz & Hdiv & Hle). rewrite <- Hsz.
  destruct (length_encs rest) as [_ Hll]. pose proof (block_of_length rest S' HS') as HSl.
  apply Forall_app in Hg as [_ [Hnm Hg]%Forall_cons_1].
  assert (Hlen : (length rest <= length (pre ++ S ++ post))%nat) by (rewrite !length_app, ES, !length_app; lia).
  rewrite Nat.add_comm. cbn [Nat.add subnode_loop].
  destruct (Z.leb_spec 0 (Z.of_nat (length A))); [|lia]. cbn [andb Z.leb Z.compare Z.eqb mbind option_bind].
  unfold fdt_next_node_depth. rewrite (next_node_begin pre S post L A nm e S') by done.
  rewrite option_bind_assoc.
  assert (E2 : S = (A ++ e) ++ S') by (by rewrite <- app_assoc).
  pose proof (continue_search_spec pre S post L name y rest (A ++ e)
    (length (pre ++ S ++ post) + 1) (Datatypes.S (length (pre ++ S ++ post))) 0 Hs Hl ltac:(eauto)
    (snoc_div _ _ _ He Hdiv) Hg ltac:(lia) ltac:(lia)) as Hc.
  unfold rest in Hc at 2. rewrite search_props in Hc. fold (forest subs) in Hc. rewrite search_forest in Hc.
  unfold continue_search in Hc.
  unfold subs_at. replace (Z.of_nat (length A) + Z.of_nat (length (enc (IBegin nm)))) with (Z.of_nat (length (A ++ e)))
    by (rewrite length_app; lia).
  rewrite <- Hc.
  - destruct (next_node_loop _ _ _ _) as [[o [dd|]]|]; done.
  - assert (4 <= length (enc (IBegin nm)))%nat by (destruct (length_enc (IBegin nm)) as (k & ? & ?); lia).
    rewrite !length_app, ES, !length_app. lia.
Qed.

(** [fdt_subnode_offset] at a node of an encoded tree returns the offset
    of the first direct subnode with the name, with or without unit address,
    and -FDT_ERR_NOTFOUND when there is none; nodes further down are passed
    over. *)
Theorem fdt_subnode_offset_correct pre S post l1 nm ps subs l2 name y :
  holds pre S post l1 (Node nm ps subs) l2 ->
  is_str name -> Z.of_nat (length name) < 2 ^ 30 ->
  fdt_subnode_offset (pre ++ S ++ post) (size_of l1) (name ++ 0 :: y)
  = Some (from_option fst (- FDT_ERR_NOTFOUND) (find_sub name subs (subs_at (size_of l1) nm ps))).
Proof.
  intros H Hs Hl. unfold fdt_subnode_offset. rewrite strlen_cstr by done. cbn [mbind option_bind].
  by eapply subnode_namelen_spec.
Qed.

(** What was found is in the block. *)
Lemma find_sub_holds pre S post name subs : forall l1 l2 o n,
  layout pre S post -> block_of (l1 ++ forest subs ++ l2) S -> Forall good_item (l1 ++ forest subs ++ l2) ->
  find_sub name subs (size_of l1) = Some (o, n) ->
  exists l1' l2', holds pre S post l1' n l2' /\ o = size_of l1'.
Proof.
  induction subs as [|c subs IH]; intros l1 l2 o n L E Hg Hf; [done|].
  unfold forest in E, Hg. cbn [map concat] in E, Hg. fold (forest subs) in E, Hg.
  rewrite <- app_assoc in E, Hg. cbn [find_sub] in Hf. destruct (name_match _ _).
  - injection Hf as <- <-. by exists l1, (forest subs ++ l2).
  - rewrite <- size_of_app in Hf. apply (IH (l1 ++ items c) l2 o n); rewrite <- ?app_assoc; done.
Qed.

Lemma sub_holds pre S post l1 nm ps subs l2 name o n :
  holds pre S post l1 (Node nm ps subs) l2 ->
  find_sub name subs (subs_at (size_of l1) nm ps) = Some (o, n) ->
  exists l1' l2', holds pre S post l1' n l2' /\ o = size_of l1'.
Proof.
  intros (L & E & Hg) Hf.
  assert (Hl : l1 ++ items (Node nm ps subs) ++ l2
    = (l1 ++ IBegin nm :: prop_items ps) ++ forest subs ++ IEnd :: l2).
  { cbn [items app]. unfold forest. rewrite <- !app_assoc. cbn [app]. rewrite <- ?app_assoc. done. }
  rewrite Hl in E, Hg. apply (find_sub_holds pre S post name subs _ _ o n L E Hg).
  rewrite size_of_app, size_of_cons. unfold subs_at in Hf. by rewrite Z.add_assoc.
Qed.

(** ** Properties *)

(** The string at a place in the blob. *)
Fixpoint string_from (l : list Z) : str :=
  match l with
  | [] => []
  | c :: l => if c =? 0 then [] else c :: string_from l
  end.

Definition prop_name (fdt : list Z) (so off : Z) : str := string_from (drop (Z.to_nat (so + off)) fdt).

(** The name of a property lies in the blob and ends there. *)
Definition named (fdt : list Z) (so off : Z) : Prop :=
  0 <= so + off /\ exists n r, drop (Z.to_nat (so + off)) fdt = n ++ 0 :: r /\ is_str n.

Lemma string_from_spec n r : is_str n -> string_from (n ++ 0 :: r) = n.
Proof.
  induction 1 as [|c n Hc _ IH]; [done|]. cbn [app string_from]. destruct (Z.eqb_spec c 0); [lia|].
  by rewrite IH.
Qed.

Lemma strnlen_spec n r count :
  is_str n -> 0 <= count -> strnlen (n ++ 0 :: r) count = Some (Nat.min (length n) (Z.to_nat count)).
Proof.
  intros Hn. revert count. induction Hn as [|c n Hc Hn IH]; intros count Hcount; cbn [app strnlen].
  - destruct (count =? 0); done.
  - destruct (Z.eqb_spec count 0) as [->|]; [done|]. destruct (Z.eqb_spec c 0); [lia|].
    rewrite IH by lia. cbn [mbind option_bind length]. f_equal. lia.
Qed.

Lemma string_eq_ok fdt so off name y :
  fdt_off_dt_strings fdt = Some so -> 0 <= off < 2 ^ 31 -> named fdt so off -> is_str name ->
  _fdt_string_eq fdt off (name ++ 0 :: y) (length name) = Some (bool_decide (prop_name fdt so off = name)).
Proof.
  intros Hso Hoff (H0 & n & r & E & Hn) Hs. unfold _fdt_string_eq, fdt_string, prop_name. rewrite Hso.
  cbn [mbind option_bind]. rewrite s32_small by lia. unfold at_.
  destruct (Z.ltb_spec (so + off) 0); [lia|]. cbn [mbind option_bind].
  rewrite E, strnlen_spec, string_from_spec by (done || lia). cbn [mbind option_bind].
  destruct (Nat.eqb_spec (Nat.min (length n) (Z.to_nat (Z.of_nat (length name) + 1))) (length name)) as [El|El].
  - assert (Hl : length n = length name) by lia.
    destruct (memcmp_spec (n ++ 0 :: r) (name ++ 0 :: y) (length name)) as (c & -> & Hc);
      [rewrite length_app; lia..|]. cbn [mbind option_bind]. f_equal.
    rewrite <- Hl in Hc at 1. rewrite !take_app_length in Hc.
    destruct (Z.eqb_spec c 0) as [Ec|Ec]; symmetry; [by apply bool_decide_eq_true_2, Hc|].
    apply bool_decide_eq_false_2. intros En. by apply Ec, Hc.
  - rewrite bool_decide_eq_false_2; [done|]. intros ->. apply El. lia.
Qed.

(** The first property with the name: where its value is, and the value. *)
Fixpoint find_prop (nm : Z -> str) (name : str) (ps : list (Z * list Z)) (off : Z)
    : option (Z * list Z) :=
  match ps with
  | [] => None
  | (o, v) :: ps =>
      if bool_decide (nm o = name) then Some (off + 12, v)
      else find_prop nm name ps (off + Z.of_nat (length (enc (IProp o v))))
  end.

(** What follows the properties of a node. *)
Definition no_prop (l : list item) : Prop :=
  match l with IBegin _ :: _ | IEnd :: _ => True | _ => False end.

Section Props.
Context (pre S post : list Z) (L : layout pre S post).
Context (so : Z) (name y : list Z).

Abbreviation fdt := (pre ++ S ++ post).

Hypothesis strings_at : fdt_off_dt_strings fdt = Some so.
Hypothesis name_str : is_str name.

Lemma nextprop_item A t e B :
  S = A ++ e ++ B -> encodes1 t e -> (4 | Z.of_nat (length A)) -> good_item t ->
  nextprop fdt (Z.of_nat (length A)) =
  match t with
  | IProp _ _ => Some (Z.of_nat (length A))
  | INop => _nextprop (length fdt) fdt (Z.of_nat (length (A ++ e)))
  | _ => Some (- FDT_ERR_NOTFOUND)
  end.
Proof.
  intros E He Hdiv Ht. unfold nextprop. rewrite Nat.add_1_r. cbn [_nextprop].
  rewrite (next_tag_item pre S post L A t e B) by done. cbn [mbind option_bind].
  rewrite (length_app A). by destruct t.
Qed.

Lemma property_item A o v e B :
  S = A ++ e ++ B -> encodes1 (IProp o v) e -> (4 | Z.of_nat (length A)) -> good_item (IProp o v) ->
  _fdt_check_prop_offset fdt (Z.of_nat (length A)) = Some (Z.of_nat (length (A ++ e)))
  /\ fdt_get_property_by_offset fdt (Z.of_nat (length A))
     = Some (Some (Z.of_nat (length pre) + Z.of_nat (length A)), Z.of_nat (length v))
  /\ rd32 fdt (Z.of_nat (length pre) + Z.of_nat (length A) + 8) = Some o
  /\ take (length v) (drop (Z.to_nat (Z.of_nat (length pre) + (Z.of_nat (length A) + 12))) fdt) = v.
Proof.
  intros E He Hdiv Hg. pose proof (fdt_length _ _ _ L) as Hlen.
  assert (Hc : _fdt_check_prop_offset fdt (Z.of_nat (length A)) = Some (Z.of_nat (length (A ++ e)))).
  { unfold _fdt_check_prop_offset, check_offset.
    destruct (Z.ltb_spec (Z.of_nat (length A)) 0); [lia|]. cbn [orb]. rewrite aligned by done.
    rewrite (next_tag_item pre S post L A (IProp o v) e B) by done. cbn [mbind option_bind].
    by rewrite length_app. }
  split; [done|]. destruct Hg as [Ho Hv].
  pose proof He as (g & Eg & Hle). rewrite Eg in E. cbn [tag_of body] in E. rewrite <- !app_assoc in E.
  assert (H4 : rd32 fdt (Z.of_nat (length pre) + Z.of_nat (length A) + 4) = Some (Z.of_nat (length v))).
  { rewrite <- Z.add_assoc.
    replace (Z.of_nat (length A) + 4) with (Z.of_nat (length (A ++ be_bytes 4 FDT_PROP)))
      by (rewrite length_app, length_be_bytes; lia).
    eapply (rd32_struct pre S post L); [rewrite <- app_assoc; exact E|lia]. }
  assert (H8 : rd32 fdt (Z.of_nat (length pre) + Z.of_nat (length A) + 8) = Some o).
  { rewrite <- Z.add_assoc.
    replace (Z.of_nat (length A) + 8)
      with (Z.of_nat (length (A ++ be_bytes 4 FDT_PROP ++ be_bytes 4 (Z.of_nat (length v)))))
      by (rewrite !length_app, !length_be_bytes; lia).
    eapply (rd32_struct pre S post L); [rewrite <- !app_assoc; exact E|lia]. }
  split_and!; [|done|].
  - unfold fdt_get_property_by_offset, _fdt_offset_ptr. rewrite Hc, (lay_off _ _ _ L). cbn [mbind option_bind].
    destruct (Z.ltb_spec (Z.of_nat (length (A ++ e))) 0); [lia|].
    rewrite H4. cbn [mbind option_bind]. by rewrite s32_small by lia.
  - rewrite (fdt_at pre S post L _ _ E). rewrite <- !app_assoc.
    rewrite !(app_assoc (pre)), !(app_assoc (_ ++ A)).
    rewrite (app_assoc (_ ++ be_bytes 4 FDT_PROP)), (app_assoc (_ ++ be_bytes 4 (Z.of_nat (length v)))).
    rewrite drop_app_length' by (rewrite !length_app, !length_be_bytes; lia).
    by rewrite take_app_length.
Qed.

Lemma get_property_spec ps : forall A rest fuel,
  (exists S', block_of (prop_items ps ++ rest) S' /\ S = A ++ S') -> (4 | Z.of_nat (length A)) ->
  Forall good_item (prop_items ps ++ rest) -> no_prop rest ->
  Forall (fun p => named fdt so p.1) ps -> (length ps + 1 < fuel)%nat ->
  (o ← nextprop fdt (Z.of_nat (length A)); get_property_loop fuel fdt o (name ++ 0 :: y) (length name))
  = Some (match find_prop (prop_name fdt so) name ps (Z.of_nat (length A)) with
          | Some (p, v) => (Some (Z.of_nat (length pre) + (p - 12)), Z.of_nat (length v))
          | None => (None, - FDT_ERR_NOTFOUND)
          end).
Proof.
  induction ps as [|[o v] ps IH]; intros A rest fuel (S' & HS' & E) Hdiv Hg Hr Hn Hf; cbn [length] in Hf.
  - cbn [prop_items map app] in HS', Hg. destruct rest as [|t rest]; [done|].
    apply Forall_cons_1 in Hg as [Ht _]. apply block_of_cons in HS' as (e & S1 & He & _ & ->).
    rewrite (nextprop_item A t e S1) by done.
    destruct fuel as [|fuel]; [lia|]. by destruct t.
  - cbn [prop_items map app] in HS', Hg. fold (prop_items ps) in HS', Hg.
    apply Forall_cons_1 in Hg as [Ht Hg]. apply Forall_cons_1 in Hn as [Hno Hn]. cbn [fst snd] in *.
    apply block_of_cons in HS' as (e & S1 & He & HS1 & ->).
    rewrite (nextprop_item A (IProp o v) e S1) by done.
    cbn [mbind option_bind]. destruct fuel as [|fuel]; [lia|]. cbn [get_property_loop find_prop].
    destruct (Z.ltb_spec (Z.of_nat (length A)) 0); [lia|].
    destruct (property_item A o v e S1 E He Hdiv Ht) as (Hc & -> & H8 & _). cbn [mbind option_bind].
    rewrite H8. cbn [mbind option_bind]. rewrite (string_eq_ok fdt so o name y) by (done || apply Ht).
    cbn [mbind option_bind]. case_bool_decide.
    { do 2 f_equal. f_equal. lia. }
    unfold fdt_next_property_offset. rewrite Hc. cbn [mbind option_bind].
    destruct (Z.ltb_spec (Z.of_nat (length (A ++ e))) 0); [lia|].
    rewrite (IH (A ++ e) rest fuel); try done; try lia.
    + destruct He as (_ & _ & He). by rewrite length_app, Nat2Z.inj_add, He.
    + exists S1. by rewrite <- app_assoc.
    + by apply (snoc_div _ (IProp o v)).
Qed.

End Props.

(** The bytes at an offset of the structure block. *)
Definition value_at (pre : list Z) (fdt : list Z) (p : Z) (n : nat) : list Z :=
  take n (drop (Z.to_nat (Z.of_nat (length pre) + p)) fdt).

Lemma find_prop_value pre S post (L : layout pre S post) nm name ps : forall A rest p v,
  (exists S', block_of (prop_items ps ++ rest) S' /\ S = A ++ S') -> (4 | Z.of_nat (length A)) ->
  Forall good_item (prop_items ps ++ rest) ->
  find_prop nm name ps (Z.of_nat (length A)) = Some (p, v) ->
  value_at pre (pre ++ S ++ post) p (length v) = v.
Proof.
  induction ps as [|[o w] ps IH]; intros A rest p v (S' & HS' & E) Hdiv Hg Hf; [done|].
  cbn [prop_items map app find_prop] in HS', Hg, Hf. fold (prop_items ps) in HS', Hg.
  apply Forall_cons_1 in Hg as [Ht Hg]. cbn [fst snd] in *.
  apply block_of_cons in HS' as (e & S1 & He & HS1 & ->).
  case_bool_decide.
  - injection Hf as <- <-. by destruct (property_item pre S post L A o w e S1 E He Hdiv Ht) as (_ & _ & _ & ?).
  - apply (IH (A ++ e) rest); try done; [exists S1; by rewrite <- app_assoc|by apply (snoc_div _ (IProp o w))|].
    destruct He as (_ & _ & He). by rewrite length_app, Nat2Z.inj_add, He.
Qed.

Lemma get_property_namelen_spec pre S post l1 nm ps subs l2 so name y :
  holds pre S post l1 (Node nm ps subs) l2 -> is_str name ->
  fdt_off_dt_strings (pre ++ S ++ post) = Some so ->
  Forall (fun p => named (pre ++ S ++ post) so p.1) ps ->
  let found := find_prop (prop_name (pre ++ S ++ post) so) name ps
    (size_of l1 + Z.of_nat (length (enc (IBegin nm)))) in
  fdt_get_property_namelen (pre ++ S ++ post) (size_of l1) (name ++ 0 :: y) (length name)
  = Some (match found with
          | Some (p, v) => (Some (Z.of_nat (length pre) + (p - 12)), Z.of_nat (length v))
          | None => (None, - FDT_ERR_NOTFOUND)
          end)
  /\ forall p v, found = Some (p, v) -> value_at pre (pre ++ S ++ post) p (length v) = v.
Proof.
  intros (L & E & Hg) Hs Hso Hn found. cbn [items app] in E, Hg. rewrite <- !app_assoc in E, Hg.
  cbn [app] in E, Hg. set (rest := concat (map items subs) ++ IEnd :: l2) in *.
  assert (Hr : no_prop rest) by (subst rest; destruct subs as [|[] ?]; done).
  destruct (split_item S l1 (IBegin nm) (prop_items ps ++ rest) E) as (A & e & S' & HA & He & HS' & ES & Hsz & Hdiv & Hle).
  unfold found. clear found. rewrite <- Hsz, <- Hle.
  assert (E2 : exists S', block_of (prop_items ps ++ rest) S' /\ S = (A ++ e) ++ S')
    by (exists S'; by rewrite <- app_assoc).
  destruct (length_encs (prop_items ps ++ rest)) as [_ Hll]. pose proof (block_of_length _ S' HS') as HSl.
  apply Forall_app in Hg as [_ [Hnm Hg]%Forall_cons_1].
  assert (Hdiv2 : (4 | Z.of_nat (length (A ++ e)))) by (by apply (snoc_div _ (IBegin nm))).
  assert (Hlen : (length ps + 4 <= length (pre ++ S ++ post))%nat).
  { rewrite !length_app, ES, !length_app.
    rewrite length_app in Hll. unfold prop_items in Hll at 1. rewrite length_map in Hll. lia. }
  pose proof (get_property_spec pre S post L so name y Hso Hs ps _ rest (length (pre ++ S ++ post) + 2)
    E2 Hdiv2 Hg Hr Hn ltac:(lia)) as Hget.
  pose proof (fun p v => find_prop_value pre S post L (prop_name (pre ++ S ++ post) so) name ps
    _ rest p v E2 Hdiv2 Hg) as Hval.
  rewrite (length_app A), Nat2Z.inj_add in Hget.
  setoid_rewrite (length_app A) in Hval. setoid_rewrite Nat2Z.inj_add in Hval.
  unfold fdt_get_property_namelen, fdt_first_property_offset.
  rewrite (check_node_begin pre S post L A nm e S') by done.
  cbn [mbind option_bind]. rewrite (length_app A), Nat2Z.inj_add.
  destruct (Z.ltb_spec (Z.of_nat (length A) + Z.of_nat (length e)) 0); [lia|]. split; [exact Hget|].
  intros p v. apply Hval.
Qed.

(** C25: [fdt_getprop] at a node of an encoded tree returns a pointer to the
    value of the node's first property of that name together with the length
    of the value, and NULL with -FDT_ERR_NOTFOUND when the node has none;
    properties of its subnodes and of other nodes are not looked at. *)
Theorem fdt_getprop_correct pre S post l1 nm ps subs l2 so name y :
  holds pre S post l1 (Node nm ps subs) l2 -> is_str name ->
  fdt_off_dt_strings (pre ++ S ++ post) = Some so ->
  Forall (fun p => named (pre ++ S ++ post) so p.1) ps ->
  match find_prop (prop_name (pre ++ S ++ post) so) name ps
          (size_of l1 + Z.of_nat (length (enc (IBegin nm)))) with
  | Some (p, v) =>
      fdt_getprop (pre ++ S ++ post) (size_of l1) (name ++ 0 :: y)
        = Some (Some (Z.of_nat (length pre) + p), Z.of_nat (length v))
      /\ value_at pre (pre ++ S ++ post) p (length v) = v
  | None =>
      fdt_getprop (pre ++ S ++ post) (size_of l1) (name ++ 0 :: y) = Some (None, - FDT_ERR_NOTFOUND)
  end.
Proof.
  intros Hh Hs Hso Hn. destruct (get_property_namelen_spec pre S post l1 nm ps subs l2 so name y Hh Hs Hso Hn)
    as [Hget Hval].
  unfold fdt_getprop, fdt_getprop_namelen. rewrite strlen_cstr by done. cbn [mbind option_bind].
  rewrite Hget. cbn [mbind option_bind]. destruct (find_prop _ _ _ _) as [[p v]|]; [|done].
  split; [|by apply Hval]. cbn [option_map]. do 3 f_equal. lia.
Qed.

(** ** A tree to apply the theorems to *)

Definition sample_subs : list node :=
  [Node (bytes_of "images") []
     [Node (bytes_of "kernel@1") [(3, cstr (bytes_of "x")); (0, [7])] []];
   Node (bytes_of "configurations") [(3, cstr (bytes_of "c1"))] []].

Definition sample_tree : node := Node [] [(0, [1; 2; 3])] sample_subs.

Definition sample_pre : list Z := take 40 (mkblob (block (items sample_tree)) (cstr (bytes_of "ab") ++ cstr (bytes_of "default"))).
Definition sample_post : list Z := cstr (bytes_of "ab") ++ cstr (bytes_of "default").

Lemma sample_layout : layout sample_pre (block (items sample_tree)) sample_post.
Proof.
  split; [by apply (bool_decide_unpack _); vm_compute|by vm_compute..| |by vm_compute|by vm_compute].
  eexists. split; [by vm_compute|by vm_compute].
Qed.

Lemma sample_good : Forall good_item (items sample_tree).
Proof. apply (bool_decide_unpack _). vm_compute. done. Qed.

Lemma sample_holds : holds sample_pre (block (items sample_tree)) sample_post [] sample_tree [].
Proof.
  split; [apply sample_layout|]. cbn [app]. rewrite app_nil_r. split; [apply block_encodes|apply sample_good].
Qed.

Lemma fdt_subnode_offset_correct_witness :
  fdt_subnode_offset (sample_pre ++ block (items sample_tree) ++ sample_post) (size_of [])
    (bytes_of "configurations" ++ 0 :: [])
  = Some (from_option fst (- FDT_ERR_NOTFOUND)
      (find_sub (bytes_of "configurations") sample_subs
         (subs_at (size_of []) [] [(0, [1; 2; 3])]))).
Proof.
  apply (fdt_subnode_offset_correct _ _ _ [] _ _ _ []);
    [apply sample_holds|by apply (bool_decide_unpack _)|by vm_compute].
Defined.

Lemma fdt_getprop_correct_witness :
  fdt_getprop (sample_pre ++ block (items sample_tree) ++ sample_post) (size_of []) (bytes_of "ab" ++ 0 :: [])
  = Some (Some 60, 3).
Proof.
  pose proof (fdt_getprop_correct sample_pre (block (items sample_tree)) sample_post [] [] [(0, [1; 2; 3])]
    sample_subs [] (40 + Z.of_nat (length (block (items sample_tree)))) (bytes_of "ab") [] sample_holds
    ltac:(by apply (bool_decide_unpack _)) ltac:(by vm_compute)) as H.
  replace (find_prop _ _ _ _) with (Some (20, [1; 2; 3])) in H by (by vm_compute).
  apply H. constructor; [|constructor]. split; [by vm_compute|].
  exists (bytes_of "ab"), (cstr (bytes_of "default")).
  split; [by vm_compute|by apply (bool_decide_unpack _)].
Defined.

End FdtTree.
