(* ===== verification/FdtQuery.v ===== *)
(** * Flattened device trees: paths, parents, phandles, string lists and
      changes in place (lib/libfdt/fdt.c, fdt_ro.c, fdt_wip.c)

    The functions built on the access of Fdt.v, in the same conventions: an
    offset or a pointer is a [Z], the outer [None] is an access outside the
    memory or a loop that does not end within its fuel.  A string argument is
    the memory from the pointer on. *)

From S2P Require Import Prelude Cstring Fdt FdtTree.

Module FdtQuery.
Import Cstring Fdt.

Definition FDT_ERR_BADPHANDLE : Z := 6.
Definition FDT_ERR_BADVALUE : Z := 15.

(** [FDT_CHECK_HEADER(fdt)]: an early return with the error. *)
Definition FDT_CHECK_HEADER (fdt : list Z) (k : option Z) : option Z :=
  err ← fdt_check_header fdt; if negb (err =? 0) then Some err else k.

(** ** fdt.c *)

Fixpoint find_string_loop (n : nat) (p s : list Z) (len : nat) (off : Z) : option (option Z) :=
  match n with
  | O => Some None
  | S n => r ← memcmp p s len;
           if r =? 0 then Some (Some off) else find_string_loop n (drop 1 p) s len (off + 1)
  end.

(** The offset in the string table. *)
Definition _fdt_find_string (strtab : list Z) (tabsize : Z) (s : list Z) : option (option Z) :=
  n ← strlen s;
  let len := (n + 1)%nat in
  find_string_loop (Z.to_nat (tabsize - Z.of_nat len + 1)) strtab s len 0.

(** ** Memory reservations *)

Definition fdt_off_mem_rsvmap (fdt : list Z) : option Z := rd32 fdt 16.

Definition rd64 (fdt : list Z) (p : Z) : option Z :=
  hi ← rd32 fdt p; lo ← rd32 fdt (p + 4); Some (hi * 2 ^ 32 + lo).

Definition _fdt_mem_rsv (fdt : list Z) (n : Z) : option Z :=
  off ← fdt_off_mem_rsvmap fdt; Some (off + 16 * n).

(** The error code, or the address and the size. *)
Definition fdt_get_mem_rsv (fdt : list Z) (n : Z) : option (Z + Z * Z) :=
  err ← fdt_check_header fdt;
  if negb (err =? 0) then Some (inl err) else
  p ← _fdt_mem_rsv fdt n;
  address ← rd64 fdt p; size ← rd64 fdt (p + 8);
  Some (inr (address, size)).

Fixpoint num_mem_rsv_loop (fuel : nat) (fdt : list Z) (i : Z) : option Z :=
  match fuel with
  | O => None
  | S fuel =>
      p ← _fdt_mem_rsv fdt i;
      size ← rd64 fdt (p + 8);
      if negb (size =? 0) then num_mem_rsv_loop fuel fdt (i + 1) else Some i
  end.

Definition fdt_num_mem_rsv (fdt : list Z) : option Z := num_mem_rsv_loop (length fdt + 1) fdt 0.

(** ** Paths *)

Definition fdt_path_next_separator (path : list Z) (len : nat) : option (option nat) :=
  sep1 ← memchr path 47 len;
  sep2 ← memchr path 58 len;
  Some (match sep1, sep2 with
        | Some a, Some b => Some (if (a <? b)%nat then a else b)
        | Some a, None => Some a
        | None, _ => sep2
        end).

(** [while ( *p == '/') p++]: how many. *)
Fixpoint skip_slashes (p : list Z) : option nat :=
  match p with
  | [] => None
  | c :: p => if c =? 47 then n ← skip_slashes p; Some (S n) else Some 0%nat
  end.

(** The [while] loop of [fdt_path_offset_namelen]; [rest] is [end - p].  When
    the slashes lead past [end] the length given to [memchr] is negative, a
    search through all memory that ends outside the string. *)
Fixpoint path_walk (fuel : nat) (fdt : list Z) (p : list Z) (rest offset : Z) : option Z :=
  match fuel with
  | O => None
  | S fuel =>
      c ← head p;
      if negb (c =? 0) && (0 <? rest) then
        k ← skip_slashes p;
        let p := drop k p in
        let rest := rest - Z.of_nat k in
        c ← head p;
        if (c =? 0) || (c =? 58) then Some offset else
        if rest <? 0 then None else
        q ← fdt_path_next_separator p (Z.to_nat rest);
        let n := default (Z.to_nat rest) q in
        offset ← fdt_subnode_offset_namelen fdt offset p n;
        if offset <? 0 then Some offset
        else path_walk fuel fdt (drop n p) (rest - Z.of_nat n) offset
      else Some offset
  end.

(** A path that starts with a slash. *)
Definition path_from_root (fdt path : list Z) (namelen : nat) : option Z :=
  path_walk (namelen + 1) fdt path (Z.of_nat namelen) 0.

Definition fdt_get_alias_namelen (fdt name : list Z) (namelen : nat) : option (option Z) :=
  aliasoffset ← FDT_CHECK_HEADER fdt (path_from_root fdt (cstr (bytes_of "/aliases")) 8);
  if aliasoffset <? 0 then Some None else
  '(p, _) ← fdt_getprop_namelen fdt aliasoffset name namelen; Some p.

Definition fdt_get_alias (fdt name : list Z) : option (option Z) :=
  n ← strlen name; fdt_get_alias_namelen fdt name n.

(** An alias leads to another path; [fuel] bounds the aliases followed. *)
Fixpoint fdt_path_offset_namelen (fuel : nat) (fdt path : list Z) (namelen : nat) : option Z :=
  match fuel with
  | O => None
  | S fuel =>
      FDT_CHECK_HEADER fdt (
        c ← head path;
        if negb (c =? 47) then
          q ← fdt_path_next_separator path namelen;
          let n := default namelen q in
          p ← fdt_get_alias_namelen fdt path n;
          match p with
          | None => Some (- FDT_ERR_BADPATH)
          | Some p =>
              b ← at_ fdt p;
              l ← strlen b;
              offset ← fdt_path_offset_namelen fuel fdt b l;
              path_walk (namelen + 1) fdt (drop n path) (Z.of_nat namelen - Z.of_nat n) offset
          end
        else path_from_root fdt path namelen)
  end.

Definition fdt_path_offset (fuel : nat) (fdt path : list Z) : option Z :=
  n ← strlen path; fdt_path_offset_namelen fuel fdt path n.

(** ** Parents *)

(** [nodedepth] is stored when the node is reached. *)
Fixpoint supernode_loop (fuel : nat) (fdt : list Z) (nodeoffset supernodedepth supernodeoffset : Z)
    (offset depth : Z) : option (Z * option Z) :=
  match fuel with
  | O => None
  | S fuel =>
      if (0 <=? offset) && (offset <=? nodeoffset) then
        let supernodeoffset := if depth =? supernodedepth then offset else supernodeoffset in
        if offset =? nodeoffset then
          Some (if depth <? supernodedepth then - FDT_ERR_NOTFOUND else supernodeoffset, Some depth)
        else
          '(offset, depth) ← fdt_next_node_depth fdt offset depth;
          supernode_loop fuel fdt nodeoffset supernodedepth supernodeoffset offset depth
      else if (offset =? - FDT_ERR_NOTFOUND) || (0 <=? offset) then Some (- FDT_ERR_BADOFFSET, None)
      else if offset =? - FDT_ERR_BADOFFSET then Some (- FDT_ERR_BADSTRUCTURE, None)
      else Some (offset, None)
  end.

Definition fdt_supernode_atdepth_offset (fdt : list Z) (nodeoffset supernodedepth : Z)
    : option (Z * option Z) :=
  err ← fdt_check_header fdt;
  if negb (err =? 0) then Some (err, None) else
  if supernodedepth <? 0 then Some (- FDT_ERR_NOTFOUND, None) else
  supernode_loop (length fdt + 2) fdt nodeoffset supernodedepth (- FDT_ERR_INTERNAL) 0 0.

Definition fdt_node_depth (fdt : list Z) (nodeoffset : Z) : option Z :=
  '(err, nodedepth) ← fdt_supernode_atdepth_offset fdt nodeoffset 0;
  if negb (err =? 0) then Some (if err <? 0 then err else - FDT_ERR_INTERNAL) else nodedepth.

Definition fdt_parent_offset (fdt : list Z) (nodeoffset : Z) : option Z :=
  nodedepth ← fdt_node_depth fdt nodeoffset;
  if nodedepth <? 0 then Some nodedepth else
  '(r, _) ← fdt_supernode_atdepth_offset fdt nodeoffset (nodedepth - 1); Some r.

(** [do { p--; } while (buf[p-1] != '/')] *)
Fixpoint path_back (fuel : nat) (buf : list Z) (p : Z) : option Z :=
  match fuel with
  | O => None
  | S fuel => c ← rd8 buf (p - 2); if c =? 47 then Some (p - 1) else path_back fuel buf (p - 1)
  end.

(** [while (pdepth > depth)] *)
Fixpoint path_shorten (n : nat) (buf : list Z) (p : Z) : option Z :=
  match n with
  | O => Some p
  | S n => p ← path_back (length buf + 1) buf p; path_shorten n buf p
  end.

(** The loop of [fdt_get_path]: the error code and the buffer. *)
Fixpoint get_path_loop (fuel : nat) (fdt buf : list Z) (buflen nodeoffset : Z)
    (pdepth p offset depth : Z) : option (Z * list Z) :=
  match fuel with
  | O => None
  | S fuel =>
      if (0 <=? offset) && (offset <=? nodeoffset) then
        p ← path_shorten (Z.to_nat (pdepth - depth)) buf p;
        let pdepth := Z.min pdepth depth in
        r ← (if depth <=? pdepth then
               '(name, namelen) ← fdt_get_name fdt offset;
               match name with
               | None => Some (inl namelen)
               | Some name =>
                   b ← at_ fdt name;
                   if p + namelen + 1 <=? buflen then
                     if Z.of_nat (length buf) <? p + namelen + 1 then None else
                     Some (inr (memcpy buf (Z.to_nat p) (take (Z.to_nat namelen) b ++ [47]),
                                p + namelen + 1, pdepth + 1))
                   else Some (inr (buf, p, pdepth))
               end
             else Some (inr (buf, p, pdepth)));
        match r with
        | inl err => Some (err, buf)
        | inr (buf, p, pdepth) =>
            if offset =? nodeoffset then
              if pdepth <? depth + 1 then Some (- FDT_ERR_NOSPACE, buf) else
              let p := if 1 <? p then p - 1 else p in
              if Z.of_nat (length buf) <=? p then None
              else Some (0, <[Z.to_nat p := 0]> buf)
            else
              '(offset, depth) ← fdt_next_node_depth fdt offset depth;
              get_path_loop fuel fdt buf buflen nodeoffset pdepth p offset depth
        end
      else if (offset =? - FDT_ERR_NOTFOUND) || (0 <=? offset) then Some (- FDT_ERR_BADOFFSET, buf)
      else if offset =? - FDT_ERR_BADOFFSET then Some (- FDT_ERR_BADSTRUCTURE, buf)
      else Some (offset, buf)
  end.

Definition fdt_get_path (fdt : list Z) (nodeoffset : Z) (buf : list Z) (buflen : Z)
    : option (Z * list Z) :=
  err ← fdt_check_header fdt;
  if negb (err =? 0) then Some (err, buf) else
  if buflen <? 2 then Some (- FDT_ERR_NOSPACE, buf) else
  get_path_loop (length fdt + 2) fdt buf buflen nodeoffset 0 0 0 0.

(** ** Searches through all nodes *)

Definition next_offset (fdt : list Z) (offset : Z) : option Z :=
  '(offset, _) ← fdt_next_node fdt offset None; Some offset.

Definition fdt_get_phandle (fdt : list Z) (nodeoffset : Z) : option Z :=
  let get name otherwise :=
    '(php, len) ← fdt_getprop fdt nodeoffset (cstr (bytes_of name));
    match php with
    | Some p => if len =? 4 then rd32 fdt p else otherwise
    | None => otherwise
    end in
  get "phandle" (get "linux,phandle" (Some 0)).

Fixpoint max_phandle_loop (fuel : nat) (fdt : list Z) (offset max_phandle : Z) : option Z :=
  match fuel with
  | O => None
  | S fuel =>
      if offset =? - FDT_ERR_NOTFOUND then Some max_phandle
      else if offset <? 0 then Some (u32 (-1)) else
      phandle ← fdt_get_phandle fdt offset;
      next ← next_offset fdt offset;
      if phandle =? u32 (-1) then max_phandle_loop fuel fdt next max_phandle
      else max_phandle_loop fuel fdt next (if max_phandle <? phandle then phandle else max_phandle)
  end.

Definition fdt_get_max_phandle (fdt : list Z) : option Z :=
  offset ← next_offset fdt (-1); max_phandle_loop (length fdt + 2) fdt offset 0.

(** The loop [for (offset = ...; offset >= 0; offset = fdt_next_node(...))] with
    the test of its body: [None] goes on, [Some r] returns [r]. *)
Fixpoint scan_nodes (fuel : nat) (fdt : list Z) (test : Z -> option (option Z)) (offset : Z) : option Z :=
  match fuel with
  | O => None
  | S fuel =>
      if offset <? 0 then Some offset else
      r ← test offset;
      match r with
      | Some r => Some r
      | None => next ← next_offset fdt offset; scan_nodes fuel fdt test next
      end
  end.

Definition prop_value_test (fdt propname propval : list Z) (proplen offset : Z) : option (option Z) :=
  '(val, len) ← fdt_getprop fdt offset propname;
  match val with
  | Some p =>
      if len =? proplen then
        b ← at_ fdt p;
        r ← memcmp b propval (Z.to_nat len);
        Some (if r =? 0 then Some offset else None)
      else Some None
  | None => Some None
  end.

Definition fdt_node_offset_by_prop_value (fdt : list Z) (startoffset : Z) (propname propval : list Z)
    (proplen : Z) : option Z :=
  FDT_CHECK_HEADER fdt (
    offset ← next_offset fdt startoffset;
    scan_nodes (length fdt + 2) fdt (prop_value_test fdt propname propval proplen) offset).

Definition fdt_node_offset_by_phandle (fdt : list Z) (phandle : Z) : option Z :=
  if (phandle =? 0) || (phandle =? u32 (-1)) then Some (- FDT_ERR_BADPHANDLE) else
  FDT_CHECK_HEADER fdt (
    offset ← next_offset fdt (-1);
    scan_nodes (length fdt + 2) fdt
      (fun o => h ← fdt_get_phandle fdt o; Some (if h =? phandle then Some o else None)) offset).

(** ** String lists *)

Fixpoint fdt_stringlist_contains_loop (fuel : nat) (strlist : list Z) (listlen : Z) (s : list Z) (len : nat)
    : option bool :=
  match fuel with
  | O => None
  | S fuel =>
      if Z.of_nat len <=? listlen then
        r ← memcmp s strlist (len + 1);
        if r =? 0 then Some true else
        p ← memchr strlist 0 (Z.to_nat listlen);
        match p with
        | None => Some false
        | Some k => fdt_stringlist_contains_loop fuel (drop (k + 1) strlist) (listlen - (Z.of_nat k + 1)) s len
        end
      else Some false
  end.

Definition fdt_stringlist_contains (strlist : list Z) (listlen : Z) (s : list Z) : option bool :=
  len ← strlen s; fdt_stringlist_contains_loop (length strlist + 1) strlist listlen s len.

(** The [while (list < end)] loop shared by the three string-list queries:
    [rest] is [end - list]; [found] looks at one string and its length. *)
Fixpoint stringlist_loop {A} (fuel : nat) (list_ : list Z) (rest : Z) (idx : Z) (off : Z)
    (found : Z -> Z -> list Z -> Z -> option (option A)) (atend : Z -> A) (bad : A) : option A :=
  match fuel with
  | O => None
  | S fuel =>
      if 0 <? rest then
        n ← strnlen list_ rest;
        let length := Z.of_nat n + 1 in
        if rest <? length then Some bad else
        r ← found idx off list_ length;
        match r with
        | Some r => Some r
        | None => stringlist_loop fuel (drop (n + 1) list_) (rest - length) (idx + 1) (off + length) found atend bad
        end
      else Some (atend idx)
  end.

Definition fdt_stringlist_count (fdt : list Z) (nodeoffset : Z) (property : list Z) : option Z :=
  '(p, length_) ← fdt_getprop fdt nodeoffset property;
  match p with
  | None => Some length_
  | Some p =>
      b ← at_ fdt p;
      stringlist_loop (length fdt + 1) b length_ 0 p (fun _ _ _ _ => Some None) (fun count => count) (- FDT_ERR_BADVALUE)
  end.

Definition fdt_stringlist_search (fdt : list Z) (nodeoffset : Z) (property string_ : list Z) : option Z :=
  '(p, length_) ← fdt_getprop fdt nodeoffset property;
  match p with
  | None => Some length_
  | Some p =>
      n ← strlen string_;
      b ← at_ fdt p;
      stringlist_loop (length fdt + 1) b length_ 0 p
        (fun idx _ list_ length_ =>
           if length_ =? Z.of_nat n + 1 then
             r ← memcmp list_ string_ (Z.to_nat length_); Some (if r =? 0 then Some idx else None)
           else Some None)
        (fun _ => - FDT_ERR_NOTFOUND) (- FDT_ERR_BADVALUE)
  end.

(** The pointer and [*lenp]. *)
Definition fdt_stringlist_get (fdt : list Z) (nodeoffset : Z) (property : list Z) (idx : Z)
    : option (option Z * Z) :=
  '(p, length_) ← fdt_getprop fdt nodeoffset property;
  match p with
  | None => Some (None, length_)
  | Some p =>
      b ← at_ fdt p;
      stringlist_loop (length fdt + 1) b length_ 0 p
        (fun i off _ length_ => Some (if i =? idx then Some (Some off, length_ - 1) else None))
        (fun _ => (None, - FDT_ERR_NOTFOUND)) (None, - FDT_ERR_BADVALUE)
  end.

Definition fdt_node_check_compatible (fdt : list Z) (nodeoffset : Z) (compatible : list Z) : option Z :=
  '(prop, len) ← fdt_getprop fdt nodeoffset (cstr (bytes_of "compatible"));
  match prop with
  | None => Some len
  | Some p => b ← at_ fdt p; r ← fdt_stringlist_contains b len compatible;
              Some (if r : bool then 0 else 1)
  end.

Definition compatible_test (fdt compatible : list Z) (offset : Z) : option (option Z) :=
  err ← fdt_node_check_compatible fdt offset compatible;
  Some (if (err <? 0) && negb (err =? - FDT_ERR_NOTFOUND) then Some err
        else if err =? 0 then Some offset else None).

Definition fdt_node_offset_by_compatible (fdt : list Z) (startoffset : Z) (compatible : list Z) : option Z :=
  FDT_CHECK_HEADER fdt (
    offset ← next_offset fdt startoffset;
    scan_nodes (length fdt + 2) fdt (compatible_test fdt compatible) offset).

(** ** fdt_wip.c: changes that keep the size *)

(** [memcpy] into the blob. *)
Definition store (fdt : list Z) (p : Z) (val : list Z) : option (list Z) :=
  if (p <? 0) || (Z.of_nat (length fdt) <? p + Z.of_nat (length val)) then None
  else Some (memcpy fdt (Z.to_nat p) val).

Definition fdt_setprop_inplace_namelen_partial (fdt : list Z) (nodeoffset : Z) (name : list Z) (namelen : nat)
    (idx : Z) (val : list Z) (len : Z) : option (Z * list Z) :=
  '(propval, proplen) ← fdt_getprop_namelen fdt nodeoffset name namelen;
  match propval with
  | None => Some (proplen, fdt)
  | Some p =>
      if u32 proplen <? u32 (len + idx) then Some (- FDT_ERR_NOSPACE, fdt) else
      if (length val <? Z.to_nat len)%nat then None else
      fdt ← store fdt (p + idx) (take (Z.to_nat len) val); Some (0, fdt)
  end.

Definition fdt_setprop_inplace (fdt : list Z) (nodeoffset : Z) (name val : list Z) (len : Z)
    : option (Z * list Z) :=
  '(propval, proplen) ← fdt_getprop fdt nodeoffset name;
  match propval with
  | None => Some (proplen, fdt)
  | Some _ =>
      if negb (proplen =? len) then Some (- FDT_ERR_NOSPACE, fdt) else
      n ← strlen name;
      fdt_setprop_inplace_namelen_partial fdt nodeoffset name n 0 val len
  end.

(** [p < start + len] in steps of four. *)
Definition _fdt_nop_region (fdt : list Z) (start len : Z) : option (list Z) :=
  store fdt start (concat (replicate (Z.to_nat ((len + 3) / 4)) (be_bytes 4 FDT_NOP))).

Definition fdt_nop_property (fdt : list Z) (nodeoffset : Z) (name : list Z) : option (Z * list Z) :=
  n ← strlen name;
  '(prop, len) ← fdt_get_property_namelen fdt nodeoffset name n;
  match prop with
  | None => Some (len, fdt)
  | Some p => fdt ← _fdt_nop_region fdt p (len + 12); Some (0, fdt)
  end.

Fixpoint node_end_loop (fuel : nat) (fdt : list Z) (offset depth : Z) : option Z :=
  match fuel with
  | O => None
  | S fuel =>
      if (0 <=? offset) && (0 <=? depth) then
        '(offset, depth) ← fdt_next_node_depth fdt offset depth;
        node_end_loop fuel fdt offset depth
      else Some offset
  end.

Definition _fdt_node_end_offset (fdt : list Z) (offset : Z) : option Z :=
  node_end_loop (length fdt + 2) fdt offset 0.

Definition fdt_nop_node (fdt : list Z) (nodeoffset : Z) : option (Z * list Z) :=
  endoffset ← _fdt_node_end_offset fdt nodeoffset;
  if endoffset <? 0 then Some (endoffset, fdt) else
  p ← fdt_offset_ptr fdt nodeoffset 0;
  p ← p;
  fdt ← _fdt_nop_region fdt p (endoffset - nodeoffset); Some (0, fdt).

(** ** Paths in an encoded tree *)

Import FdtTree.

(** The node a path leads to: its offset, or the error. *)
Fixpoint resolve (cs : list str) (n : node) (off : Z) : Z :=
  match cs, n with
  | [], _ => off
  | c :: cs, Node nm ps subs =>
      match find_sub c subs (subs_at off nm ps) with
      | Some (o, n) => resolve cs n o
      | None => - FDT_ERR_NOTFOUND
      end
  end.

(** A component of a path. *)
Definition component (c : str) : Prop :=
  c <> [] /\ Forall (fun x => 0 < x < 256 /\ x <> 47 /\ x <> 58) c.

#[global] Instance component_dec c : Decision (component c).
Proof. unfold component. apply _. Defined.

Definition path_of (cs : list str) : str := concat (map (cons 47) cs).

Lemma memchr_skip s x c n :
  0 <= c < 256 -> Forall (fun a => a <> c) s ->
  memchr (s ++ x) c (length s + n) = r ← memchr x c n; Some (option_map (Nat.add (length s)) r).
Proof.
  intros Hc. induction 1 as [|a s Ha Hs IH]; cbn [app length Nat.add memchr].
  - destruct (memchr x c n) as [[k|]|]; done.
  - rewrite (wrap_small 8) by (unfold in_word; lia). destruct (Z.eqb_spec c a); [by subst|].
    rewrite IH. destruct (memchr x c n) as [[k|]|]; done.
Qed.

Lemma component_str c : component c -> is_str c.
Proof. intros [_ H]. eapply Forall_impl; [exact H|]. intros x (? & _ & _). done. Qed.

Lemma memchr_total s c n : (n <= length s)%nat -> exists r, memchr s c n = Some r.
Proof.
  revert s. induction n as [|n IH]; intros [|a s] Hn; cbn [length] in Hn; [by eexists..|lia|].
  cbn [memchr]. destruct (u8 c =? a); [by eexists|].
  destruct (IH s) as [r ->]; [lia|]. by eexists.
Qed.

(** The separator after a component. *)
Lemma separator_spec c cs y :
  component c ->
  fdt_path_next_separator (c ++ path_of cs ++ y) (length c + length (path_of cs))
  = Some (match cs with [] => None | _ => Some (length c) end).
Proof.
  intros [_ Hc]. unfold fdt_path_next_separator.
  rewrite (memchr_skip c _ 47), (memchr_skip c _ 58)
    by (lia || (eapply Forall_impl; [exact Hc|]; intros ? (_ & ? & ?); done)).
  destruct cs as [|d cs]; [done|].
  unfold path_of. cbn [map concat app length]. fold (path_of cs).
  rewrite <- app_assoc. set (x := d ++ path_of cs ++ y). cbn [memchr].
  change (u8 47 =? 47) with true. change (u8 58 =? 47) with false. cbn [mbind option_bind option_map].
  destruct (memchr_total x 58 (length (d ++ path_of cs))) as [r ->].
  { unfold x. rewrite !length_app. lia. }
  cbn [mbind option_bind]. destruct r as [k|]; cbn [option_map]; [|by rewrite Nat.add_0_r].
  rewrite Nat.add_0_r. by destruct (Nat.ltb_spec (length c) (length c + S k)); [|lia].
Qed.

Lemma path_walk_spec pre S post cs : forall l1 n l2 y fuel,
  holds pre S post l1 n l2 -> Forall component cs -> Z.of_nat (length (path_of cs)) < 2 ^ 30 ->
  (length cs < fuel)%nat ->
  path_walk fuel (pre ++ S ++ post) (path_of cs ++ 0 :: y) (Z.of_nat (length (path_of cs))) (size_of l1)
  = Some (resolve cs n (size_of l1)).
Proof.
  induction cs as [|c cs IH]; intros l1 n l2 y fuel Hh Hcs Hl Hf.
  { destruct fuel; [cbn in Hf; lia|]. done. }
  apply Forall_cons_1 in Hcs as [Hc Hcs]. cbn [length] in Hf. destruct fuel as [|fuel]; [lia|].
  destruct n as [nm ps subs]. pose proof (component_str c Hc) as Hstr.
  assert (E : path_of (c :: cs) ++ 0 :: y = 47 :: c ++ path_of cs ++ 0 :: y)
    by (unfold path_of; cbn [map concat]; by rewrite <- !app_assoc).
  assert (El : Z.of_nat (length (path_of (c :: cs))) = 1 + Z.of_nat (length c + length (path_of cs)))
    by (unfold path_of; cbn [map concat]; rewrite length_app; cbn [length]; lia).
  rewrite E. rewrite El in *. cbn [path_walk head mbind option_bind].
  change (47 =? 0) with false. cbn [negb].
  destruct (Z.ltb_spec 0 (1 + Z.of_nat (length c + length (path_of cs)))); [|lia]. cbn [andb skip_slashes].
  change (47 =? 47) with true. cbn iota.
  assert (skip_slashes (c ++ path_of cs ++ 0 :: y) = Some 0%nat) as ->.
  { destruct Hc as [Hne Hc]. destruct c as [|a c]; [done|]. apply Forall_cons_1 in Hc as [Ha _].
    cbn [app skip_slashes]. by destruct (Z.eqb_spec a 47); [lia|]. }
  cbn [mbind option_bind drop]. rewrite !drop_0.
  assert (exists a, head (c ++ path_of cs ++ 0 :: y) = Some a /\ a <> 0 /\ a <> 58) as (a & -> & Ha0 & Ha58).
  { destruct Hc as [Hne Hc]. destruct c as [|a c]; [done|]. apply Forall_cons_1 in Hc as [Ha _].
    exists a. cbn [app head]. split_and!; [done|lia|lia]. }
  cbn [mbind option_bind]. destruct (Z.eqb_spec a 0); [done|]. destruct (Z.eqb_spec a 58); [done|]. cbn [orb].
  replace (1 + Z.of_nat (length c + length (path_of cs)) - Z.of_nat 1)
    with (Z.of_nat (length c + length (path_of cs))) by lia.
  destruct (Z.ltb_spec (Z.of_nat (length c + length (path_of cs))) 0); [lia|].
  rewrite Nat2Z.id, separator_spec by done. cbn [mbind option_bind].
  assert (default (length c + length (path_of cs))%nat (match cs with [] => None | _ => Some (length c) end)
          = length c) as ->.
  { destruct cs; [|done]. cbn [default path_of map concat length]. lia. }
  rewrite (subnode_namelen_spec pre S post l1 nm ps subs l2) by (done || lia).
  cbn [mbind option_bind resolve]. destruct (find_sub c subs _) as [[o n']|] eqn:Hfind; [|done].
  cbn [from_option fst]. destruct (sub_holds pre S post l1 nm ps subs l2 c o n' Hh Hfind) as (l1' & l2' & Hh' & ->).
  destruct (Z.ltb_spec (size_of l1') 0); [unfold size_of in *; lia|].
  rewrite drop_app_length.
  replace (Z.of_nat (length c + length (path_of cs)) - Z.of_nat (length c))
    with (Z.of_nat (length (path_of cs))) by lia.
  apply (IH l1' n' l2' y fuel); [done|done|lia|lia].
Qed.

Lemma fdt_path_offset_spec pre S post root l2 cs y fuel :
  holds pre S post [] root l2 -> Forall component cs -> cs <> [] ->
  Z.of_nat (length (path_of cs)) < 2 ^ 30 -> (0 < fuel)%nat ->
  fdt_path_offset fuel (pre ++ S ++ post) (path_of cs ++ 0 :: y) = Some (resolve cs root 0).
Proof.
  intros Hh Hcs Hne Hl Hf. unfold fdt_path_offset. rewrite strlen_cstr.
  2: { unfold path_of, is_str. apply Forall_concat, Forall_map. eapply Forall_impl; [exact Hcs|].
       intros c Hc%component_str. constructor; [lia|done]. }
  cbn [mbind option_bind]. destruct fuel as [|fuel]; [lia|]. cbn [fdt_path_offset_namelen].
  unfold FDT_CHECK_HEADER. rewrite (check_header_ok pre S post) by apply Hh. cbn [mbind option_bind Z.eqb negb].
  destruct cs as [|c cs]; [done|]. change (head (path_of (c :: cs) ++ 0 :: y)) with (Some 47).
  cbn [mbind option_bind]. change (negb (47 =? 47)) with false. cbn iota. unfold path_from_root.
  pose proof (path_walk_spec pre S post (c :: cs) [] root l2 y) as Hw. change (size_of []) with 0 in Hw.
  apply Hw; try done.
  rewrite Nat.add_1_r. apply le_n_S. clear. induction (c :: cs) as [|d l IH]; [done|].
  unfold path_of in *. cbn [map concat]. rewrite length_app. cbn [length]. lia.
Qed.

(** C26: [fdt_path_offset] of an absolute path in an encoded tree returns the
    offset of the node reached by going from the root through the first
    matching subnode for each component, and -FDT_ERR_NOTFOUND when a
    component has no match. *)
Theorem fdt_path_offset_correct pre S post root l2 cs y fuel :
  holds pre S post [] root l2 -> Forall component cs -> cs <> [] ->
  Z.of_nat (length (path_of cs)) < 2 ^ 30 -> (0 < fuel)%nat ->
  fdt_path_offset fuel (pre ++ S ++ post) (path_of cs ++ 0 :: y) = Some (resolve cs root 0).
Proof. apply fdt_path_offset_spec. Qed.

(** An alias that stands for itself: the lookup calls itself without end. *)
Definition alias_blob : list Z :=
  mkblob (block (items (Node [] [] [Node (bytes_of "aliases") [(0, cstr (bytes_of "a"))] []])))
    (cstr (bytes_of "a")).

(** The memory at the value of the alias. *)
Definition alias_value : list Z := drop 72 alias_blob.

Example alias_leads_back :
  fdt_get_alias_namelen alias_blob alias_value 1 = Some (Some 72) /\ strlen alias_value = Some 1%nat
  /\ fdt_check_header alias_blob = Some 0 /\ head alias_value = Some 97
  /\ fdt_path_next_separator alias_value 1 = Some None.
Proof. by vm_compute. Qed.

Example alias_diverges fuel : fdt_path_offset_namelen fuel alias_blob alias_value 1 = None.
Proof.
  destruct alias_leads_back as (Ha & Hl & Hh & Hc & Hs).
  induction fuel as [|fuel IH]; [done|]. cbn [fdt_path_offset_namelen]. unfold FDT_CHECK_HEADER.
  rewrite Hh. cbn [mbind option_bind Z.eqb negb]. rewrite Hc. cbn [mbind option_bind].
  change (negb (97 =? 47)) with true. cbn iota. rewrite Hs. cbn [mbind option_bind default].
  rewrite Ha. cbn [mbind option_bind]. change (at_ alias_blob 72) with (Some alias_value).
  cbn [mbind option_bind]. rewrite Hl. cbn [mbind option_bind]. by rewrite IH.
Qed.

Lemma fdt_path_offset_correct_witness :
  fdt_path_offset 1 (sample_pre ++ block (items sample_tree) ++ sample_post)
    (path_of [bytes_of "images"; bytes_of "kernel"] ++ 0 :: [])
  = Some (resolve [bytes_of "images"; bytes_of "kernel"] sample_tree 0).
Proof.
  apply (fdt_path_offset_correct _ _ _ _ []); [apply sample_holds|by apply (bool_decide_unpack _)|done|by vm_compute|lia].
Defined.

End FdtQuery.
