(* ===== verification/FdtRw.v ===== *)
(** * Flattened device trees: changes of size (lib/libfdt/fdt_rw.c, fdt.c)

    The editing functions on the conventions of Fdt.v and FdtQuery.v: a blob
    is the list of the bytes from its start to the end of the memory it lies
    in, a function returns its code and the blob as it leaves it, also on an
    error, and the outer [None] is an access outside that memory.  A name or
    value argument is the memory from the pointer on, apart from the blob.
    [fdt_open_into] and [fdt_pack] work on one memory with both places as
    offsets, so that source and destination may overlap.  What the edits mean
    for the encoded tree is in FdtEdit.v. *)

From S2P Require Import Prelude Cstring Fdt FdtQuery.

Module FdtRw.
Import Cstring Fdt FdtQuery.

Definition FDT_ERR_EXISTS : Z := 2.

(** [sizeof(struct fdt_property)], [struct fdt_reserve_entry] and
    [struct fdt_node_header]; [FDT_ALIGN(sizeof(struct fdt_header), 8)]. *)
Definition PROP_SIZE : Z := 12.
Definition RSV_SIZE : Z := 16.
Definition NODE_SIZE : Z := 4.
Definition HDR_SIZE : Z := 40.

(** ** Writing *)

(** [*p = cpu_to_fdt32(v)] *)
Definition wr32 (fdt : list Z) (p v : Z) : option (list Z) := store fdt p (be_bytes 4 (u32 v)).
Definition wr64 (fdt : list Z) (p v : Z) : option (list Z) := store fdt p (be_bytes 8 (u64 v)).

Definition fdt_set_magic fdt v := wr32 fdt 0 v.
Definition fdt_set_totalsize fdt v := wr32 fdt 4 v.
Definition fdt_set_off_dt_struct fdt v := wr32 fdt 8 v.
Definition fdt_set_off_dt_strings fdt v := wr32 fdt 12 v.
Definition fdt_set_off_mem_rsvmap fdt v := wr32 fdt 16 v.
Definition fdt_set_version fdt v := wr32 fdt 20 v.
Definition fdt_set_last_comp_version fdt v := wr32 fdt 24 v.
Definition fdt_set_boot_cpuid_phys fdt v := wr32 fdt 28 v.
Definition fdt_set_size_dt_strings fdt v := wr32 fdt 32 v.
Definition fdt_set_size_dt_struct fdt v := wr32 fdt 36 v.

Definition fdt_boot_cpuid_phys (fdt : list Z) : option Z := rd32 fdt 28.

(** [memmove] between two places of one memory. *)
Definition move (mem : list Z) (dest src n : Z) : option (list Z) :=
  if (dest <? 0) || (src <? 0) || (n <? 0) then None
  else memmove mem (Z.to_nat dest) (Z.to_nat src) (Z.to_nat n).

(** [memcpy(fdt + p, val, len)] *)
Definition copy_in (fdt : list Z) (p : Z) (val : list Z) (len : Z) : option (list Z) :=
  if (len <? 0) || (Z.of_nat (length val) <? len) then None
  else store fdt p (take (Z.to_nat len) val).

(** ** The checks *)

Definition _fdt_blocks_misordered (fdt : list Z) (mem_rsv_size struct_size : Z) : option bool :=
  rsv ← fdt_off_mem_rsvmap fdt;
  if rsv <? HDR_SIZE then Some true else
  str ← fdt_off_dt_struct fdt;
  if str <? u32 (rsv + mem_rsv_size) then Some true else
  strings ← fdt_off_dt_strings fdt;
  if strings <? u32 (str + struct_size) then Some true else
  total ← fdt_totalsize fdt;
  size ← fdt_size_dt_strings fdt;
  Some (total <? u32 (strings + size)).

Definition _fdt_rw_check_header (fdt : list Z) : option (Z * list Z) :=
  err ← fdt_check_header fdt;
  if negb (err =? 0) then Some (err, fdt) else
  version ← fdt_version fdt;
  if version <? 17 then Some (- FDT_ERR_BADVERSION, fdt) else
  size ← fdt_size_dt_struct fdt;
  bad ← _fdt_blocks_misordered fdt RSV_SIZE (s32 size);
  if bad : bool then Some (- FDT_ERR_BADLAYOUT, fdt) else
  if 17 <? version then fdt ← fdt_set_version fdt 17; Some (0, fdt) else Some (0, fdt).

(** The macro: an early return with the error. *)
Definition FDT_RW_CHECK_HEADER (fdt : list Z) (k : list Z -> option (Z * list Z)) : option (Z * list Z) :=
  '(err, fdt) ← _fdt_rw_check_header fdt; if negb (err =? 0) then Some (err, fdt) else k fdt.

(** [if (err) return err;] behind a call that changes the blob. *)
Definition on_ok (r : option (Z * list Z)) (k : list Z -> option (Z * list Z)) : option (Z * list Z) :=
  '(err, fdt) ← r; if negb (err =? 0) then Some (err, fdt) else k fdt.

Definition _fdt_data_size (fdt : list Z) : option Z :=
  off ← fdt_off_dt_strings fdt; size ← fdt_size_dt_strings fdt; Some (s32 (off + size)).

(** ** Making and closing gaps *)

Definition _fdt_splice (fdt : list Z) (p oldlen newlen : Z) : option (Z * list Z) :=
  end_ ← _fdt_data_size fdt;
  if (p + oldlen <? p) || (end_ <? p + oldlen) then Some (- FDT_ERR_BADOFFSET, fdt) else
  if (p <? 0) || (end_ - oldlen + newlen <? 0) then Some (- FDT_ERR_BADOFFSET, fdt) else
  total ← fdt_totalsize fdt;
  if total <? end_ - oldlen + newlen then Some (- FDT_ERR_NOSPACE, fdt) else
  fdt ← move fdt (p + newlen) (p + oldlen) (end_ - p - oldlen);
  Some (0, fdt).

Definition _fdt_splice_mem_rsv (fdt : list Z) (p oldn newn : Z) : option (Z * list Z) :=
  let delta := s32 ((newn - oldn) * RSV_SIZE) in
  on_ok (_fdt_splice fdt p (oldn * RSV_SIZE) (newn * RSV_SIZE)) (fun fdt =>
    v ← fdt_off_dt_struct fdt; fdt ← fdt_set_off_dt_struct fdt (v + delta);
    v ← fdt_off_dt_strings fdt; fdt ← fdt_set_off_dt_strings fdt (v + delta);
    Some (0, fdt)).

Definition _fdt_splice_struct (fdt : list Z) (p oldlen newlen : Z) : option (Z * list Z) :=
  let delta := s32 (newlen - oldlen) in
  on_ok (_fdt_splice fdt p oldlen newlen) (fun fdt =>
    v ← fdt_size_dt_struct fdt; fdt ← fdt_set_size_dt_struct fdt (v + delta);
    v ← fdt_off_dt_strings fdt; fdt ← fdt_set_off_dt_strings fdt (v + delta);
    Some (0, fdt)).

Definition _fdt_splice_string (fdt : list Z) (newlen : Z) : option (Z * list Z) :=
  off ← fdt_off_dt_strings fdt; size ← fdt_size_dt_strings fdt;
  on_ok (_fdt_splice fdt (off + size) 0 newlen) (fun fdt =>
    v ← fdt_size_dt_strings fdt; fdt ← fdt_set_size_dt_strings fdt (v + newlen);
    Some (0, fdt)).

(** The offset of the string in the table, or the error. *)
Definition _fdt_find_add_string (fdt s : list Z) : option (Z * list Z) :=
  off ← fdt_off_dt_strings fdt;
  strtab ← at_ fdt off;
  n ← strlen s;
  let len := Z.of_nat n + 1 in
  size ← fdt_size_dt_strings fdt;
  p ← _fdt_find_string strtab (s32 size) s;
  match p with
  | Some p => Some (p, fdt)
  | None =>
      on_ok (_fdt_splice_string fdt len) (fun fdt =>
        fdt ← copy_in fdt (off + size) s len; Some (s32 size, fdt))
  end.

(** ** Memory reservations *)

Definition fdt_add_mem_rsv (fdt : list Z) (address size : Z) : option (Z * list Z) :=
  FDT_RW_CHECK_HEADER fdt (fun fdt =>
    n ← fdt_num_mem_rsv fdt;
    re ← _fdt_mem_rsv fdt n;
    on_ok (_fdt_splice_mem_rsv fdt re 0 1) (fun fdt =>
      fdt ← wr64 fdt re address; fdt ← wr64 fdt (re + 8) size; Some (0, fdt))).

Definition fdt_del_mem_rsv (fdt : list Z) (n : Z) : option (Z * list Z) :=
  re ← _fdt_mem_rsv fdt n;
  FDT_RW_CHECK_HEADER fdt (fun fdt =>
    num ← fdt_num_mem_rsv fdt;
    if num <=? n then Some (- FDT_ERR_NOTFOUND, fdt) else
    _fdt_splice_mem_rsv fdt re 1 0).

(** ** Properties *)

(** fdt_ro.c *)
Definition fdt_get_property (fdt : list Z) (nodeoffset : Z) (name : list Z) : option (option Z * Z) :=
  n ← strlen name; fdt_get_property_namelen fdt nodeoffset name n.

(** The code, the blob and [*prop]. *)
Definition _fdt_resize_property (fdt : list Z) (nodeoffset : Z) (name : list Z) (len : Z)
    : option (Z * list Z * option Z) :=
  '(prop, oldlen) ← fdt_get_property fdt nodeoffset name;
  match prop with
  | None => Some (oldlen, fdt, None)
  | Some p =>
      '(err, fdt) ← on_ok (_fdt_splice_struct fdt (p + PROP_SIZE) (FDT_TAGALIGN oldlen) (FDT_TAGALIGN len))
                      (fun fdt => fdt ← wr32 fdt (p + 4) len; Some (0, fdt));
      Some (err, fdt, prop)
  end.

Definition _fdt_add_property (fdt : list Z) (nodeoffset : Z) (name : list Z) (len : Z)
    : option (Z * list Z * option Z) :=
  nextoffset ← _fdt_check_node_offset fdt nodeoffset;
  if nextoffset <? 0 then Some (nextoffset, fdt, None) else
  '(namestroff, fdt) ← _fdt_find_add_string fdt name;
  if namestroff <? 0 then Some (namestroff, fdt, None) else
  p ← _fdt_offset_ptr fdt nextoffset;
  let proplen := s32 (PROP_SIZE + FDT_TAGALIGN len) in
  '(err, fdt) ← on_ok (_fdt_splice_struct fdt p 0 proplen) (fun fdt =>
    fdt ← wr32 fdt p FDT_PROP; fdt ← wr32 fdt (p + 8) namestroff; fdt ← wr32 fdt (p + 4) len;
    Some (0, fdt));
  Some (err, fdt, Some p).

Definition fdt_set_name (fdt : list Z) (nodeoffset : Z) (name : list Z) : option (Z * list Z) :=
  FDT_RW_CHECK_HEADER fdt (fun fdt =>
    '(namep, oldlen) ← fdt_get_name fdt nodeoffset;
    match namep with
    | None => Some (oldlen, fdt)
    | Some namep =>
        n ← strlen name;
        let newlen := Z.of_nat n in
        on_ok (_fdt_splice_struct fdt namep (FDT_TAGALIGN (oldlen + 1)) (FDT_TAGALIGN (newlen + 1)))
          (fun fdt => fdt ← copy_in fdt namep name (newlen + 1); Some (0, fdt))
    end).

Definition fdt_setprop (fdt : list Z) (nodeoffset : Z) (name val : list Z) (len : Z) : option (Z * list Z) :=
  FDT_RW_CHECK_HEADER fdt (fun fdt =>
    '(err, fdt, prop) ← _fdt_resize_property fdt nodeoffset name len;
    '(err, fdt, prop) ← (if err =? - FDT_ERR_NOTFOUND then _fdt_add_property fdt nodeoffset name len
                         else Some (err, fdt, prop));
    if negb (err =? 0) then Some (err, fdt) else
    p ← prop; fdt ← copy_in fdt (p + PROP_SIZE) val len; Some (0, fdt)).

Definition fdt_appendprop (fdt : list Z) (nodeoffset : Z) (name val : list Z) (len : Z) : option (Z * list Z) :=
  FDT_RW_CHECK_HEADER fdt (fun fdt =>
    '(prop, oldlen) ← fdt_get_property fdt nodeoffset name;
    match prop with
    | Some p =>
        let newlen := s32 (len + oldlen) in
        on_ok (_fdt_splice_struct fdt (p + PROP_SIZE) (FDT_TAGALIGN oldlen) (FDT_TAGALIGN newlen)) (fun fdt =>
          fdt ← wr32 fdt (p + 4) newlen;
          fdt ← copy_in fdt (p + PROP_SIZE + oldlen) val len; Some (0, fdt))
    | None =>
        '(err, fdt, prop) ← _fdt_add_property fdt nodeoffset name len;
        if negb (err =? 0) then Some (err, fdt) else
        p ← prop; fdt ← copy_in fdt (p + PROP_SIZE) val len; Some (0, fdt)
    end).

Definition fdt_delprop (fdt : list Z) (nodeoffset : Z) (name : list Z) : option (Z * list Z) :=
  FDT_RW_CHECK_HEADER fdt (fun fdt =>
    '(prop, len) ← fdt_get_property fdt nodeoffset name;
    match prop with
    | None => Some (len, fdt)
    | Some p => _fdt_splice_struct fdt p (s32 (PROP_SIZE + FDT_TAGALIGN len)) 0
    end).

(** ** Nodes *)

(** [do { offset = nextoffset; tag = fdt_next_tag(fdt, offset, &nextoffset); }
    while ((tag == FDT_PROP) || (tag == FDT_NOP));] *)
Fixpoint skip_props (fuel : nat) (fdt : list Z) (nextoffset : Z) : option Z :=
  match fuel with
  | O => None
  | S fuel =>
      let offset := nextoffset in
      '(tag, nextoffset) ← fdt_next_tag fdt offset;
      if (tag =? FDT_PROP) || (tag =? FDT_NOP) then skip_props fuel fdt nextoffset else Some offset
  end.

Definition fdt_add_subnode_namelen (fdt : list Z) (parentoffset : Z) (name : list Z) (namelen : nat)
    : option (Z * list Z) :=
  FDT_RW_CHECK_HEADER fdt (fun fdt =>
    offset ← fdt_subnode_offset_namelen fdt parentoffset name namelen;
    if 0 <=? offset then Some (- FDT_ERR_EXISTS, fdt) else
    if negb (offset =? - FDT_ERR_NOTFOUND) then Some (offset, fdt) else
    '(_, nextoffset) ← fdt_next_tag fdt parentoffset;
    offset ← skip_props (length fdt + 1) fdt nextoffset;
    nh ← _fdt_offset_ptr fdt offset;
    let namesize := FDT_TAGALIGN (Z.of_nat namelen + 1) in
    let nodelen := s32 (NODE_SIZE + namesize + FDT_TAGSIZE) in
    on_ok (_fdt_splice_struct fdt nh 0 nodelen) (fun fdt =>
      fdt ← wr32 fdt nh FDT_BEGIN_NODE;
      fdt ← store fdt (nh + 4) (replicate (Z.to_nat namesize) 0);
      fdt ← copy_in fdt (nh + 4) name (Z.of_nat namelen);
      fdt ← wr32 fdt (nh + nodelen - FDT_TAGSIZE) FDT_END_NODE;
      Some (offset, fdt))).

Definition fdt_add_subnode (fdt : list Z) (parentoffset : Z) (name : list Z) : option (Z * list Z) :=
  n ← strlen name; fdt_add_subnode_namelen fdt parentoffset name n.

Definition fdt_del_node (fdt : list Z) (nodeoffset : Z) : option (Z * list Z) :=
  FDT_RW_CHECK_HEADER fdt (fun fdt =>
    endoffset ← _fdt_node_end_offset fdt nodeoffset;
    if endoffset <? 0 then Some (endoffset, fdt) else
    p ← _fdt_offset_ptr fdt nodeoffset;
    _fdt_splice_struct fdt p (s32 (endoffset - nodeoffset)) 0).

(** ** Whole trees *)

(** An operation on the blob at [p] of a memory. *)
Definition on_blob (mem : list Z) (p : Z) (f : list Z -> option (list Z)) : option (list Z) :=
  fdt ← at_ mem p; fdt ← f fdt; Some (take (Z.to_nat p) mem ++ fdt).

Definition fdt_move (mem : list Z) (fdt buf bufsize : Z) : option (Z * list Z) :=
  f ← at_ mem fdt;
  err ← fdt_check_header f;
  if negb (err =? 0) then Some (err, mem) else
  total ← fdt_totalsize f;
  if u32 bufsize <? total then Some (- FDT_ERR_NOSPACE, mem) else
  mem ← move mem buf fdt total; Some (0, mem).

Definition _fdt_packblocks (mem : list Z) (old new mem_rsv_size struct_size : Z) : option (list Z) :=
  let mem_rsv_off := HDR_SIZE in
  let struct_off := s32 (mem_rsv_off + mem_rsv_size) in
  let strings_off := s32 (struct_off + struct_size) in
  f ← at_ mem old; off ← fdt_off_mem_rsvmap f;
  mem ← move mem (new + mem_rsv_off) (old + off) mem_rsv_size;
  mem ← on_blob mem new (fun f => fdt_set_off_mem_rsvmap f mem_rsv_off);
  f ← at_ mem old; off ← fdt_off_dt_struct f;
  mem ← move mem (new + struct_off) (old + off) struct_size;
  mem ← on_blob mem new (fun f => fdt_set_off_dt_struct f struct_off);
  mem ← on_blob mem new (fun f => fdt_set_size_dt_struct f struct_size);
  f ← at_ mem old; off ← fdt_off_dt_strings f; size ← fdt_size_dt_strings f;
  mem ← move mem (new + strings_off) (old + off) size;
  mem ← on_blob mem new (fun f => fdt_set_off_dt_strings f strings_off);
  f ← at_ mem old; size ← fdt_size_dt_strings f;
  on_blob mem new (fun f => fdt_set_size_dt_strings f size).

(** [while (fdt_next_tag(fdt, struct_size, &struct_size) != FDT_END) ;] *)
Fixpoint measure_struct (fuel : nat) (fdt : list Z) (struct_size : Z) : option Z :=
  match fuel with
  | O => None
  | S fuel =>
      '(tag, struct_size) ← fdt_next_tag fdt struct_size;
      if negb (tag =? FDT_END) then measure_struct fuel fdt struct_size else Some struct_size
  end.

Definition fdt_open_into (mem : list Z) (fdt buf bufsize : Z) : option (Z * list Z) :=
  f ← at_ mem fdt;
  total ← fdt_totalsize f;
  let fdtend := fdt + total in
  err ← fdt_check_header f;
  if negb (err =? 0) then Some (err, mem) else
  n ← fdt_num_mem_rsv f;
  let mem_rsv_size := s32 ((n + 1) * RSV_SIZE) in
  version ← fdt_version f;
  struct_size ← (if 17 <=? version then size ← fdt_size_dt_struct f; Some (s32 size)
                 else measure_struct (length f + 1) f 0);
  if (version <? 17) && (struct_size <? 0) then Some (struct_size, mem) else
  bad ← _fdt_blocks_misordered f mem_rsv_size struct_size;
  if negb bad then
    on_ok (fdt_move mem fdt buf bufsize) (fun mem =>
      mem ← on_blob mem buf (fun f => fdt_set_version f 17);
      mem ← on_blob mem buf (fun f => fdt_set_size_dt_struct f struct_size);
      mem ← on_blob mem buf (fun f => fdt_set_totalsize f bufsize);
      Some (0, mem))
  else
    size ← fdt_size_dt_strings f;
    let newsize := s32 (HDR_SIZE + mem_rsv_size + struct_size + size) in
    if bufsize <? newsize then Some (- FDT_ERR_NOSPACE, mem) else
    let overlaps := (fdt <? buf + newsize) && (buf <? fdtend) in
    let tmp := if overlaps then fdtend else buf in
    if overlaps && (buf + bufsize <? tmp + newsize) then Some (- FDT_ERR_NOSPACE, mem) else
    mem ← _fdt_packblocks mem fdt tmp mem_rsv_size struct_size;
    mem ← move mem buf tmp newsize;
    mem ← on_blob mem buf (fun f => fdt_set_magic f FDT_MAGIC);
    mem ← on_blob mem buf (fun f => fdt_set_totalsize f bufsize);
    mem ← on_blob mem buf (fun f => fdt_set_version f 17);
    mem ← on_blob mem buf (fun f => fdt_set_last_comp_version f 16);
    f ← at_ mem fdt; cpuid ← fdt_boot_cpuid_phys f;
    mem ← on_blob mem buf (fun f => fdt_set_boot_cpuid_phys f cpuid);
    Some (0, mem).

Definition fdt_pack (fdt : list Z) : option (Z * list Z) :=
  FDT_RW_CHECK_HEADER fdt (fun fdt =>
    n ← fdt_num_mem_rsv fdt;
    let mem_rsv_size := s32 ((n + 1) * RSV_SIZE) in
    size ← fdt_size_dt_struct fdt;
    fdt ← _fdt_packblocks fdt 0 0 mem_rsv_size (s32 size);
    total ← _fdt_data_size fdt;
    fdt ← fdt_set_totalsize fdt total; Some (0, fdt)).

(** The loop of [fdt_remove_unused_strings].  The property pointers are null
    only for an offset at which no property starts. *)
Fixpoint reuse_strings (fuel : nat) (old new : list Z) (offset : Z) : option (Z * list Z) :=
  match fuel with
  | O => None
  | S fuel =>
      '(tag, next_offset) ← fdt_next_tag old offset;
      if tag =? FDT_END then Some (0, new) else
      if negb (tag =? FDT_PROP) then reuse_strings fuel old new next_offset else
      '(old_prop, _) ← fdt_get_property_by_offset old offset;
      '(new_prop, _) ← fdt_get_property_by_offset new offset;
      o ← old_prop; nameoff ← rd32 old (o + 8);
      str ← fdt_string old nameoff; str ← at_ old str;
      '(ret, new) ← _fdt_find_add_string new str;
      if ret <? 0 then Some (ret, new) else
      n ← new_prop; new ← wr32 new (n + 8) ret;
      reuse_strings fuel old new next_offset
  end.

Definition fdt_remove_unused_strings (old new : list Z) : option (Z * list Z) :=
  size ← fdt_totalsize old;
  new ← copy_in new 0 old size;
  new ← fdt_set_size_dt_strings new 0;
  reuse_strings (length old + 1) old new 0.

End FdtRw.
