(* ===== verification/FdtParts.v ===== *)
(** * The parts of a flattened device tree

    A blob is given by its parts ([dtb]) and is the memory [flat] of them.
    The gap operations of FdtRw.v on it: [splice_struct_ok] makes room in the
    structure block and moves the later parts, [find_add_string_spec] extends
    the string table; without room the blob stays as it is. *)

From S2P Require Import Prelude Cstring Fdt FdtTree FdtQuery FdtRw.

Module FdtParts.
Import Cstring Fdt FdtTree FdtQuery FdtRw.

(** ** Headers *)

(** A list of big-endian words and what follows. *)
Definition image (ws body : list Z) : list Z := concat (map (be_bytes 4) ws) ++ body.

Lemma length_words ws : length (concat (map (be_bytes 4) ws)) = (4 * length ws)%nat.
Proof. induction ws as [|w ws IH]; [done|]. cbn [map concat length]. rewrite length_app, length_be_bytes, IH. lia. Qed.

Lemma image_split ws k v body :
  ws !! k = Some v ->
  image ws body = concat (map (be_bytes 4) (take k ws)) ++ be_bytes 4 v ++ concat (map (be_bytes 4) (drop (S k) ws)) ++ body
  /\ length (concat (map (be_bytes 4) (take k ws))) = (4 * k)%nat.
Proof.
  intros Hk. split.
  - unfold image. rewrite <- (take_drop_middle ws k v Hk) at 1. rewrite map_app, concat_app.
    cbn [map concat]. by rewrite <- !app_assoc.
  - rewrite length_words, length_take_le; [done|]. apply lookup_lt_Some in Hk. lia.
Qed.

Lemma rd32_word ws k v body p :
  p = 4 * Z.of_nat k -> ws !! k = Some v -> in_word 32 v -> rd32 (image ws body) p = Some v.
Proof.
  intros -> Hk Hv. destruct (image_split ws k v body Hk) as [-> Hl].
  replace (4 * Z.of_nat k) with (Z.of_nat (length (concat (map (be_bytes 4) (take k ws))))) by lia.
  by apply rd32_at.
Qed.

Lemma store_at X O Y O' p :
  p = Z.of_nat (length X) -> length O' = length O -> FdtQuery.store (X ++ O ++ Y) p O' = Some (X ++ O' ++ Y).
Proof.
  intros -> Hl. unfold FdtQuery.store. rewrite !length_app.
  destruct (Z.ltb_spec (Z.of_nat (length X)) 0); [lia|]. cbn [orb].
  destruct (Z.ltb_spec (Z.of_nat (length X + (length O + length Y))) (Z.of_nat (length X) + Z.of_nat (length O'))); [lia|].
  f_equal. unfold Prelude.memcpy. rewrite Nat2Z.id, take_app_length. do 2 f_equal.
  rewrite <- drop_drop, drop_app_length, Hl. apply drop_app_length.
Qed.

Lemma wr32_at X O Y p v :
  p = Z.of_nat (length X) -> length O = 4%nat -> wr32 (X ++ O ++ Y) p v = Some (X ++ be_bytes 4 v ++ Y).
Proof. intros -> Hl. unfold wr32. rewrite be_bytes_wrap by lia. apply store_at; [done|]. by rewrite length_be_bytes. Qed.

Lemma wr32_word ws k v v' body p :
  p = 4 * Z.of_nat k -> ws !! k = Some v -> wr32 (image ws body) p v' = Some (image (<[k := v']> ws) body).
Proof.
  intros -> Hk. pose proof (lookup_lt_Some _ _ _ Hk) as Hlt.
  destruct (image_split ws k v body Hk) as [-> Hl].
  rewrite wr32_at by (rewrite ?length_be_bytes; lia).
  destruct (image_split (<[k := v']> ws) k v' body) as [-> _]; [by rewrite list_lookup_insert_eq|].
  by rewrite take_insert_ge, drop_insert_lt by lia.
Qed.

(** [memmove] behind a prefix. *)
Lemma move_at X O Y Z0 n p q l :
  p = Z.of_nat (length X + n) -> q = Z.of_nat (length X + length O) -> l = Z.of_nat (length Y) ->
  (n + length Y <= length (O ++ Y ++ Z0))%nat ->
  move (X ++ O ++ Y ++ Z0) p q l
  = Some (X ++ take n (O ++ Y ++ Z0) ++ Y ++ drop (n + length Y) (O ++ Y ++ Z0)).
Proof.
  intros -> -> -> Hle. rewrite !length_app in Hle. unfold move.
  destruct (Z.ltb_spec (Z.of_nat (length X + n)) 0); [lia|].
  destruct (Z.ltb_spec (Z.of_nat (length X + length O)) 0); [lia|].
  destruct (Z.ltb_spec (Z.of_nat (length Y)) 0); [lia|]. cbn [orb]. rewrite !Nat2Z.id.
  rewrite memmove_spec by (rewrite !length_app; lia). f_equal. unfold Prelude.memcpy.
  rewrite <- drop_drop, drop_app_length, drop_app_length, take_app_length.
  rewrite take_app_add, <- app_assoc, <- Nat.add_assoc, <- drop_drop, drop_app_length. done.
Qed.

(** ** The parts of a blob *)

(** [b_rsv] is what lies between the header and the structure block, [b_gap]
    between it and the strings, [b_free] from the strings to the end of the
    memory. *)
Record dtb := Dtb {
  b_total : Z;
  b_rsvmap : Z;
  b_cpu : Z;
  b_rsv : list Z;
  b_struct : list Z;
  b_gap : list Z;
  b_strings : list Z;
  b_free : list Z;
}.

Definition off_struct (b : dtb) : Z := HDR_SIZE + Z.of_nat (length (b_rsv b)).
Definition off_strings (b : dtb) : Z := off_struct b + Z.of_nat (length (b_struct b) + length (b_gap b)).
Definition data_size (b : dtb) : Z := off_strings b + Z.of_nat (length (b_strings b)).

Definition words (b : dtb) : list Z :=
  [FDT_MAGIC; b_total b; off_struct b; off_strings b; b_rsvmap b; 17; 16; b_cpu b;
   Z.of_nat (length (b_strings b)); Z.of_nat (length (b_struct b))].

Definition pre (b : dtb) : list Z := image (words b) (b_rsv b).
Definition post (b : dtb) : list Z := b_gap b ++ b_strings b ++ b_free b.

(** The memory behind the total size. *)
Definition b_tail (b : dtb) : list Z := drop (Z.to_nat (b_total b - data_size b)) (b_free b).

(** The memory. *)
Definition flat (b : dtb) : list Z := pre b ++ b_struct b ++ post b.

Record wf (b : dtb) : Prop := {
  wf_bytes : bytes (b_rsv b ++ b_struct b ++ post b);
  wf_len : Z.of_nat (length (flat b)) < 2 ^ 31 - 16;
  wf_total : data_size b <= b_total b <= Z.of_nat (length (flat b));
  wf_rsvmap : HDR_SIZE <= b_rsvmap b /\ b_rsvmap b + RSV_SIZE <= off_struct b;
  wf_cpu : in_word 32 (b_cpu b);
}.

#[global] Instance wf_dec b : Decision (wf b).
Proof.
  refine (cast_if (decide (bytes (b_rsv b ++ b_struct b ++ post b)
    /\ Z.of_nat (length (flat b)) < 2 ^ 31 - 16 /\ (data_size b <= b_total b <= Z.of_nat (length (flat b)))
    /\ (HDR_SIZE <= b_rsvmap b /\ b_rsvmap b + RSV_SIZE <= off_struct b) /\ (0 <= b_cpu b < 2 ^ 32)))).
  - destruct_and!. by split.
  - intros H. destruct n. by destruct H.
Defined.

Definition with_struct (b : dtb) (S F : list Z) : dtb :=
  Dtb (b_total b) (b_rsvmap b) (b_cpu b) (b_rsv b) S (b_gap b) (b_strings b) F.

Definition with_strings (b : dtb) (T F : list Z) : dtb :=
  Dtb (b_total b) (b_rsvmap b) (b_cpu b) (b_rsv b) (b_struct b) (b_gap b) T F.

Lemma length_pre b : Z.of_nat (length (pre b)) = off_struct b.
Proof. unfold pre, image, off_struct, HDR_SIZE. rewrite length_app, length_words. cbn [length words]. lia. Qed.

Lemma flat_image b : flat b = image (words b) (b_rsv b ++ b_struct b ++ post b).
Proof. unfold flat, pre, image. by rewrite <- !app_assoc. Qed.

Lemma length_flat b : Z.of_nat (length (flat b)) = data_size b + Z.of_nat (length (b_free b)).
Proof.
  unfold flat, post, data_size, off_strings. rewrite !length_app. pose proof (length_pre b). lia.
Qed.

(** What the editing functions leave alone: nothing is written behind the
    total size, and strings are only added. *)
Record extends (b b' : dtb) : Prop := {
  ext_total : b_total b' = b_total b;
  ext_rsvmap : b_rsvmap b' = b_rsvmap b;
  ext_cpu : b_cpu b' = b_cpu b;
  ext_rsv : b_rsv b' = b_rsv b;
  ext_gap : b_gap b' = b_gap b;
  ext_strings : exists E, b_strings b' = b_strings b ++ E;
  ext_tail : b_tail b' = b_tail b;
}.

Lemma extends_struct b S F : b_tail (with_struct b S F) = b_tail b -> extends b (with_struct b S F).
Proof. intros Ht. split; try done. exists []. by rewrite app_nil_r. Qed.

(** A change in place. *)
Lemma extends_same b S : length S = length (b_struct b) -> extends b (with_struct b S (b_free b)).
Proof.
  intros Hl. apply extends_struct. unfold b_tail, data_size, off_strings, off_struct.
  cbn [with_struct b_struct b_free b_rsv b_gap b_strings b_total]. by rewrite Hl.
Qed.

Lemma extends_strings b E F : b_tail (with_strings b (b_strings b ++ E) F) = b_tail b ->
  extends b (with_strings b (b_strings b ++ E) F).
Proof. intros Ht. split; try done. by exists E. Qed.

Lemma extends_refl b : extends b b.
Proof. split; try done. exists []. by rewrite app_nil_r. Qed.

Lemma extends_trans b b' b'' : extends b b' -> extends b' b'' -> extends b b''.
Proof.
  intros [H1 H2 H3 H4 H5 [E H6] H7] [J1 J2 J3 J4 J5 [E' J6] J7]. split; try congruence.
  exists (E ++ E'). by rewrite J6, H6, app_assoc.
Qed.

Section Header.
Context (b : dtb) (W : wf b).

Lemma words_bound k v : words b !! k = Some v -> in_word 32 v.
Proof using W.
  pose proof (wf_len b W) as H1. pose proof (wf_total b W) as H2. pose proof (wf_rsvmap b W) as H3.
  pose proof (wf_cpu b W) as H4. rewrite length_flat in H1, H2.
  unfold data_size, off_strings, off_struct, HDR_SIZE, RSV_SIZE, in_word in *.
  assert (Forall (in_word 32) (words b)) as HF.
  { unfold words, in_word, off_strings, off_struct, HDR_SIZE. repeat constructor; try lia; unfold FDT_MAGIC; lia. }
  rewrite Forall_lookup in HF. apply HF.
Qed.

Lemma hdr k v p : words b !! k = Some v -> p = 4 * Z.of_nat k -> rd32 (flat b) p = Some v.
Proof using W. intros Hk ->. rewrite flat_image. apply (rd32_word _ k); [done|done|by eapply words_bound]. Qed.

Lemma hdr_totalsize : fdt_totalsize (flat b) = Some (b_total b).
Proof using W. by apply (hdr 1). Qed.
Lemma hdr_off_struct : fdt_off_dt_struct (flat b) = Some (off_struct b).
Proof using W. by apply (hdr 2). Qed.
Lemma hdr_off_strings : fdt_off_dt_strings (flat b) = Some (off_strings b).
Proof using W. by apply (hdr 3). Qed.
Lemma hdr_rsvmap : fdt_off_mem_rsvmap (flat b) = Some (b_rsvmap b).
Proof using W. by apply (hdr 4). Qed.
Lemma hdr_version : fdt_version (flat b) = Some 17.
Proof using W. by apply (hdr 5). Qed.
Lemma hdr_size_strings : fdt_size_dt_strings (flat b) = Some (Z.of_nat (length (b_strings b))).
Proof using W. by apply (hdr 8). Qed.
Lemma hdr_size_struct : fdt_size_dt_struct (flat b) = Some (Z.of_nat (length (b_struct b))).
Proof using W. by apply (hdr 9). Qed.

Lemma wf_layout : layout (pre b) (b_struct b) (post b).
Proof using W.
  pose proof (wf_len b W) as H1. pose proof (wf_total b W) as H2. pose proof (length_pre b) as H3.
  fold (flat b). split; fold (flat b).
  - unfold flat, pre, image. rewrite <- !app_assoc. apply Forall_app. split; [|apply (wf_bytes b W)].
    apply Forall_concat, Forall_map, Forall_true. intros ?. apply be_bytes_bytes.
  - done.
  - by apply (hdr 0).
  - apply hdr_version.
  - by apply (hdr 6).
  - exists (b_total b). split; [apply hdr_totalsize|].
    unfold data_size, off_strings in *. lia.
  - rewrite H3. apply hdr_off_struct.
  - apply hdr_size_struct.
Qed.

Lemma data_size_spec : _fdt_data_size (flat b) = Some (data_size b).
Proof using W.
  unfold _fdt_data_size. rewrite hdr_off_strings, hdr_size_strings. cbn [mbind option_bind].
  pose proof (wf_len b W) as H. rewrite length_flat in H.
  unfold data_size, off_strings, off_struct, HDR_SIZE in *. by rewrite s32_small by lia.
Qed.

Lemma rw_check_ok : _fdt_rw_check_header (flat b) = Some (0, flat b).
Proof using W.
  unfold _fdt_rw_check_header. pose proof (check_header_ok _ _ _ wf_layout) as Hc. fold (flat b) in Hc. rewrite Hc.
  cbn [mbind option_bind Z.eqb negb]. rewrite hdr_version. cbn [mbind option_bind].
  change (17 <? 17) with false. cbn iota. rewrite hdr_size_struct. cbn [mbind option_bind].
  pose proof (wf_len b W) as H1. pose proof (wf_total b W) as H2. pose proof (wf_rsvmap b W) as H3.
  rewrite length_flat in H1. unfold data_size, off_strings, off_struct, HDR_SIZE, RSV_SIZE in *.
  unfold _fdt_blocks_misordered. rewrite hdr_rsvmap. cbn [mbind option_bind]. unfold HDR_SIZE.
  destruct (Z.ltb_spec (b_rsvmap b) 40); [lia|]. rewrite hdr_off_struct. cbn [mbind option_bind].
  unfold off_struct, HDR_SIZE. rewrite (u32_small (_ + 16)) by lia.
  destruct (Z.ltb_spec (40 + Z.of_nat (length (b_rsv b))) (b_rsvmap b + 16)); [lia|].
  rewrite hdr_off_strings. cbn [mbind option_bind]. unfold off_strings, off_struct, HDR_SIZE.
  rewrite (s32_small (Z.of_nat _)), (u32_small (_ + Z.of_nat (length (b_struct b)))) by lia.
  destruct (Z.ltb_spec (40 + Z.of_nat (length (b_rsv b)) + Z.of_nat (length (b_struct b) + length (b_gap b)))
    (40 + Z.of_nat (length (b_rsv b)) + Z.of_nat (length (b_struct b)))); [lia|].
  rewrite hdr_totalsize, hdr_size_strings. cbn [mbind option_bind]. rewrite u32_small by lia.
  destruct (Z.ltb_spec (b_total b) (40 + Z.of_nat (length (b_rsv b))
    + Z.of_nat (length (b_struct b) + length (b_gap b)) + Z.of_nat (length (b_strings b)))); [lia|]. done.
Qed.

Lemma rw_check_bind k : FDT_RW_CHECK_HEADER (flat b) k = k (flat b).
Proof using W. unfold FDT_RW_CHECK_HEADER. by rewrite rw_check_ok. Qed.

(** *** Making room *)

(** The blob split where the gap is made: [X] in front, [O] what is replaced,
    [Y] up to the end of the strings. *)
Lemma splice_ok X O Y p n :
  flat b = X ++ O ++ Y ++ b_free b -> p = Z.of_nat (length X) ->
  data_size b - Z.of_nat (length O) + Z.of_nat n <= b_total b ->
  exists G F, length G = n /\ (length F + n = length O + length (b_free b))%nat
    /\ G = take n (O ++ Y ++ b_free b)
    /\ drop (Z.to_nat (b_total b - (data_size b - Z.of_nat (length O) + Z.of_nat n))) F = b_tail b
    /\ (bytes (O ++ Y ++ b_free b) -> bytes (G ++ F))
    /\ _fdt_splice (flat b) p (Z.of_nat (length O)) (Z.of_nat n) = Some (0, X ++ G ++ Y ++ F).
Proof using W.
  intros E -> Hok. pose proof (length_flat b) as Hl. pose proof (wf_total b W) as Ht.
  assert (Hd : data_size b = Z.of_nat (length X + length O + length Y)) by (rewrite E, !length_app in Hl; lia).
  set (V := O ++ Y ++ b_free b) in *.
  assert (HV : (n + length Y <= length V)%nat) by (unfold V; rewrite !length_app; lia).
  exists (take n V), (drop (n + length Y) V). split_and!.
  - rewrite length_take. lia.
  - rewrite length_drop. unfold V. rewrite !length_app. lia.
  - done.
  - unfold b_tail, V. rewrite drop_drop, app_assoc.
    replace (n + length Y + Z.to_nat (b_total b - (data_size b - Z.of_nat (length O) + Z.of_nat n)))%nat
      with (length (O ++ Y) + Z.to_nat (b_total b - data_size b))%nat by (rewrite length_app; lia).
    by rewrite <- drop_drop, drop_app_length.
  - intros HB. apply Forall_app. split; [by apply Forall_take|by apply Forall_drop].
  - unfold _fdt_splice. rewrite data_size_spec. cbn [mbind option_bind].
    destruct (Z.ltb_spec (Z.of_nat (length X) + Z.of_nat (length O)) (Z.of_nat (length X))); [lia|].
    destruct (Z.ltb_spec (data_size b) (Z.of_nat (length X) + Z.of_nat (length O))); [lia|].
    destruct (Z.ltb_spec (Z.of_nat (length X)) 0); [lia|].
    destruct (Z.ltb_spec (data_size b - Z.of_nat (length O) + Z.of_nat n) 0); [lia|]. cbn [orb].
    rewrite hdr_totalsize. cbn [mbind option_bind].
    destruct (Z.ltb_spec (b_total b) (data_size b - Z.of_nat (length O) + Z.of_nat n)); [lia|].
    rewrite E. unfold V in *. rewrite (move_at X O Y (b_free b) n) by lia. done.
Qed.

Lemma splice_full p o n :
  0 <= p -> 0 <= o -> 0 <= n -> p + o <= data_size b -> b_total b < data_size b - o + n ->
  _fdt_splice (flat b) p o n = Some (- FDT_ERR_NOSPACE, flat b).
Proof using W.
  intros Hp Ho Hn Hle Hlt. unfold _fdt_splice. rewrite data_size_spec. cbn [mbind option_bind].
  destruct (Z.ltb_spec (p + o) p); [lia|]. destruct (Z.ltb_spec (data_size b) (p + o)); [lia|].
  destruct (Z.ltb_spec p 0); [lia|]. destruct (Z.ltb_spec (data_size b - o + n) 0); [lia|]. cbn [orb].
  rewrite hdr_totalsize. cbn [mbind option_bind]. by destruct (Z.ltb_spec (b_total b) (data_size b - o + n)); [|lia].
Qed.

Lemma post_bytes : bytes (b_rsv b) /\ bytes (b_struct b) /\ bytes (b_gap b) /\ bytes (b_strings b) /\ bytes (b_free b).
Proof using W. pose proof (wf_bytes b W) as H. unfold post in H. by rewrite !Forall_app in H. Qed.

(** A change of the structure block that uses up or gives free memory. *)
Lemma wf_with_struct S F :
  bytes (S ++ F) -> (length S + length F = length (b_struct b) + length (b_free b))%nat ->
  data_size b - Z.of_nat (length (b_struct b)) + Z.of_nat (length S) <= b_total b ->
  wf (with_struct b S F).
Proof using W.
  intros HB Hl Hd. destruct post_bytes as (H1 & H2 & H3 & H4 & H5). apply Forall_app in HB as [HS HF].
  pose proof (length_flat b) as E1. pose proof (length_flat (with_struct b S F)) as E2.
  unfold data_size, off_strings, off_struct in *. cbn [with_struct b_struct b_free b_rsv b_gap b_strings] in *.
  split.
  - unfold post. cbn [with_struct b_struct b_free b_rsv b_gap b_strings]. by rewrite !Forall_app.
  - pose proof (wf_len b W). lia.
  - pose proof (wf_total b W). unfold data_size, off_strings, off_struct in *.
    cbn [with_struct b_struct b_free b_rsv b_gap b_strings b_total] in *. lia.
  - exact (wf_rsvmap b W).
  - exact (wf_cpu b W).
Qed.

Lemma flat_with_struct S F : flat (with_struct b S F) = image (words (with_struct b S F)) (b_rsv b ++ S ++ b_gap b ++ b_strings b ++ F).
Proof using. by rewrite flat_image. Qed.

Lemma splice_struct_ok A O B p n :
  b_struct b = A ++ O ++ B -> p = off_struct b + Z.of_nat (length A) ->
  data_size b - Z.of_nat (length O) + Z.of_nat n <= b_total b ->
  exists G F, length G = n /\ ((length O <= n)%nat -> exists G', G = O ++ G') /\ wf (with_struct b (A ++ G ++ B) F)
    /\ extends b (with_struct b (A ++ G ++ B) F)
    /\ _fdt_splice_struct (flat b) p (Z.of_nat (length O)) (Z.of_nat n)
       = Some (0, flat (with_struct b (A ++ G ++ B) F)).
Proof using W.
  intros E -> Hok. destruct post_bytes as (HR & HS & HM & HT & HF).
  destruct (splice_ok (pre b ++ A) O (B ++ b_gap b ++ b_strings b) (off_struct b + Z.of_nat (length A)) n)
    as (G & F & HG & HFl & HGt & Htl & HB & Hsp); [|rewrite length_app; pose proof (length_pre b); lia|done|].
  { unfold flat, post. rewrite E. by rewrite <- !app_assoc. }
  exists G, F. split; [done|].
  split.
  { intros Hle. rewrite HGt. replace n with (length O + (n - length O))%nat by lia. rewrite take_app_add. by eexists. }
  assert (Hw : wf (with_struct b (A ++ G ++ B) F)).
  { rewrite E in HS. rewrite !Forall_app in HS. destruct HS as (HA & HO & HB'). apply wf_with_struct.
    - rewrite !Forall_app in HB. rewrite !Forall_app. tauto.
    - rewrite E, !length_app. lia.
    - rewrite E, !length_app. lia. }
  split; [done|]. split.
  { apply extends_struct. rewrite <- Htl. unfold b_tail, data_size, off_strings, off_struct.
    cbn [with_struct b_struct b_free b_rsv b_gap b_strings b_total]. rewrite E, !length_app. f_equal. lia. }
  unfold _fdt_splice_struct, on_ok. rewrite Hsp. cbn [mbind option_bind Z.eqb negb].
  pose proof (wf_len b W) as Hlen. rewrite length_flat in Hlen. pose proof (wf_total b W) as Ht.
  pose proof (wf_len _ Hw) as Hlen'. rewrite length_flat in Hlen'.
  unfold data_size, off_strings, off_struct, HDR_SIZE in Hlen, Hlen', Ht, Hok.
  cbn [with_struct b_struct b_free b_rsv b_gap b_strings b_total] in Hlen'. rewrite E, !length_app in *.
  rewrite s32_small by lia.
  pose proof (words_bound 9 _ eq_refl) as B9. pose proof (words_bound 3 _ eq_refl) as B3.
  replace ((pre b ++ A) ++ G ++ (B ++ b_gap b ++ b_strings b) ++ F)
    with (image (words b) (b_rsv b ++ (A ++ G ++ B) ++ b_gap b ++ b_strings b ++ F))
    by (unfold pre, image; by rewrite <- !app_assoc).
  unfold fdt_size_dt_struct. rewrite (rd32_word _ 9 (Z.of_nat (length (b_struct b)))) by done. cbn [mbind option_bind].
  unfold fdt_set_size_dt_struct. erewrite (wr32_word _ 9) by done. cbn [mbind option_bind].
  unfold fdt_off_dt_strings. rewrite (rd32_word _ 3 (off_strings b)) by done. cbn [mbind option_bind].
  unfold fdt_set_off_dt_strings. erewrite (wr32_word _ 3) by done. cbn [mbind option_bind].
  rewrite flat_with_struct.
  unfold words, off_strings, off_struct. cbn [with_struct b_struct b_free b_rsv b_gap b_strings b_total b_rsvmap b_cpu].
  cbn [insert list_insert]. rewrite E, !length_app. apply (f_equal Some), (f_equal (pair 0)), (f_equal (fun ws => image ws _)).
  repeat (apply (f_equal2 (@cons Z)); [lia|]). done.
Qed.

Lemma splice_struct_full A O B p n :
  b_struct b = A ++ O ++ B -> p = off_struct b + Z.of_nat (length A) -> 0 <= n ->
  b_total b < data_size b - Z.of_nat (length O) + n ->
  _fdt_splice_struct (flat b) p (Z.of_nat (length O)) n = Some (- FDT_ERR_NOSPACE, flat b).
Proof using W.
  intros E -> Hn Hlt. unfold _fdt_splice_struct, on_ok.
  rewrite splice_full; [done|unfold off_struct, HDR_SIZE; lia|lia|lia| |done].
  unfold data_size, off_strings. rewrite E, !length_app. lia.
Qed.

(** Writing inside the structure block. *)
Lemma store_struct A O B O' p :
  b_struct b = A ++ O ++ B -> p = off_struct b + Z.of_nat (length A) -> length O' = length O ->
  FdtQuery.store (flat b) p O' = Some (flat (with_struct b (A ++ O' ++ B) (b_free b))).
Proof using.
  intros E -> Hl. unfold flat at 1. rewrite E.
  replace (pre b ++ (A ++ O ++ B) ++ post b) with ((pre b ++ A) ++ O ++ (B ++ post b)) by (by rewrite <- !app_assoc).
  rewrite (store_at _ O _ O') by (done || (rewrite length_app; pose proof (length_pre b); lia)). f_equal.
  rewrite flat_with_struct. unfold pre, image, post. rewrite <- !app_assoc. do 2 f_equal.
  unfold words, off_strings, off_struct. cbn [with_struct b_struct b_free b_rsv b_gap b_strings b_total b_rsvmap b_cpu].
  rewrite E, !length_app, Hl. done.
Qed.

Lemma wf_store_struct A O B O' :
  b_struct b = A ++ O ++ B -> length O' = length O -> bytes O' ->
  wf (with_struct b (A ++ O' ++ B) (b_free b)).
Proof using W.
  intros E Hl HO. destruct post_bytes as (HR & HS & HM & HT & HF). rewrite E, !Forall_app in HS.
  pose proof (wf_total b W). apply wf_with_struct.
  - rewrite !Forall_app. tauto.
  - rewrite E, !length_app. lia.
  - rewrite E, !length_app. lia.
Qed.

End Header.

(** ** The string table *)

(** The string at an offset of a table. *)
Definition in_table (T : list Z) (o : Z) (n : str) : Prop :=
  0 <= o /\ exists r, drop (Z.to_nat o) T = n ++ 0 :: r.

Lemma in_table_app T E o n : in_table T o n -> in_table (T ++ E) o n.
Proof.
  intros (Ho & r & Hr). split; [done|]. exists (r ++ E). rewrite drop_app_le, Hr by
    (apply (f_equal length) in Hr; rewrite length_drop, length_app in Hr; cbn [length] in Hr; lia).
  by rewrite <- app_assoc.
Qed.

Lemma in_table_bound T o n : in_table T o n -> 0 <= o /\ o + Z.of_nat (length n) < Z.of_nat (length T).
Proof.
  intros (Ho & r & Hr). apply (f_equal length) in Hr. rewrite length_drop, length_app in Hr.
  cbn [length] in Hr. lia.
Qed.

(** Two strings at one offset are the same. *)
Lemma in_table_fun T o n n' : is_str n -> is_str n' -> in_table T o n -> in_table T o n' -> n = n'.
Proof.
  intros Hn Hn' (_ & r & Hr) (_ & r' & Hr'). rewrite Hr in Hr'.
  rewrite <- (string_from_spec n r), <- (string_from_spec n' r') by done. by rewrite Hr'.
Qed.

Lemma find_string_loop_spec T F name y : is_str name ->
  forall n off,
  (off + n + length name <= length T)%nat ->
  match find_string_loop n (drop off (T ++ F)) (name ++ 0 :: y) (length name + 1) (Z.of_nat off) with
  | Some (Some o) => in_table T o name
  | Some None => forall o, (off <= o < off + n)%nat -> ~ in_table T (Z.of_nat o) name
  | None => False
  end.
Proof.
  intros Hn n. induction n as [|n IH]; intros off Hl; cbn [find_string_loop]; [lia|].
  destruct (memcmp_spec (drop off (T ++ F)) (name ++ 0 :: y) (length name + 1)) as (r & -> & Hr).
  { rewrite length_drop, length_app. lia. }
  { rewrite length_app. cbn [length]. lia. }
  cbn [mbind option_bind].
  assert (Et : take (length name + 1) (name ++ 0 :: y) = name ++ [0]).
  { rewrite take_app_add. done. }
  rewrite drop_app_le in Hr |- * by lia. rewrite take_app_le, Et in Hr by (rewrite length_drop; lia).
  destruct (Z.eqb_spec r 0) as [E|E].
  - split; [lia|]. apply Hr in E. exists (drop (length name + 1) (drop off T)).
    rewrite Nat2Z.id. rewrite <- (take_drop (length name + 1) (drop off T)) at 1. by rewrite E, <- app_assoc.
  - rewrite <- drop_app_le, drop_drop by lia.
    replace (Z.of_nat off + 1) with (Z.of_nat (off + 1)) by lia. specialize (IH (off + 1)%nat ltac:(lia)).
    destruct (find_string_loop _ _ _ _ _) as [[o|]|]; [done| |done].
    intros o Ho. destruct (decide (o = off)) as [->|]; [|apply IH; lia].
    intros (_ & x & Hx). apply E, Hr. rewrite Nat2Z.id in Hx. rewrite Hx. rewrite take_app_add. done.
Qed.

Lemma find_string_spec T F name y : is_str name ->
  match _fdt_find_string (T ++ F) (Z.of_nat (length T)) (name ++ 0 :: y) with
  | Some (Some o) => in_table T o name
  | Some None => forall o, ~ in_table T o name
  | None => False
  end.
Proof.
  intros Hn. unfold _fdt_find_string. rewrite strlen_cstr by done. cbn [mbind option_bind].
  destruct (decide (length name < length T)%nat) as [Hlt|Hge].
  - pose proof (find_string_loop_spec T F name y Hn
      (Z.to_nat (Z.of_nat (length T) - Z.of_nat (length name + 1) + 1)) 0 ltac:(lia)) as H.
    rewrite drop_0 in H. change (Z.of_nat 0) with 0 in H.
    destruct (find_string_loop _ _ _ _ _) as [[o|]|]; [done| |done].
    intros o Ho. pose proof (in_table_bound _ _ _ Ho). apply (H (Z.to_nat o)); [lia|]. by rewrite Z2Nat.id by lia.
  - replace (Z.to_nat (Z.of_nat (length T) - Z.of_nat (length name + 1) + 1)) with 0%nat by lia.
    cbn [find_string_loop]. intros o Ho%in_table_bound. lia.
Qed.

Section Strings.
Context (b : dtb) (W : wf b).

Lemma flat_strings : flat b = (pre b ++ b_struct b ++ b_gap b) ++ b_strings b ++ b_free b
  /\ off_strings b = Z.of_nat (length (pre b ++ b_struct b ++ b_gap b)).
Proof.
  split; [unfold flat, post; by rewrite <- !app_assoc|].
  rewrite !length_app. unfold off_strings. pose proof (length_pre b). lia.
Qed.

Lemma strtab_at : at_ (flat b) (off_strings b) = Some (b_strings b ++ b_free b).
Proof.
  destruct flat_strings as [E Ho]. unfold at_. rewrite E, Ho.
  destruct (Z.ltb_spec (Z.of_nat (length (pre b ++ b_struct b ++ b_gap b))) 0); [lia|].
  by rewrite Nat2Z.id, drop_app_length.
Qed.

(** A name in the table is the name of a property in the sense of FdtTree. *)
Lemma in_table_named o n :
  is_str n -> in_table (b_strings b) o n ->
  named (flat b) (off_strings b) o /\ prop_name (flat b) (off_strings b) o = n.
Proof.
  intros Hn Ht. pose proof (in_table_bound _ _ _ Ht) as [H0 Hb]. destruct (in_table_app _ (b_free b) _ _ Ht) as (_ & r & Hr).
  assert (Ed : drop (Z.to_nat (off_strings b + o)) (flat b) = n ++ 0 :: r).
  { destruct flat_strings as [E Ho]. rewrite E, Ho, <- Hr.
    rewrite Z2Nat.inj_add, Nat2Z.id by lia. by rewrite <- drop_drop, drop_app_length. }
  unfold named, prop_name. rewrite Ed. split; [|by apply string_from_spec].
  split; [unfold off_strings, off_struct, HDR_SIZE; lia|]. by exists n, r.
Qed.

Lemma splice_string_ok n :
  data_size b + Z.of_nat n <= b_total b ->
  exists G F, length G = n /\ wf (with_strings b (b_strings b ++ G) F)
    /\ extends b (with_strings b (b_strings b ++ G) F)
    /\ _fdt_splice_string (flat b) (Z.of_nat n) = Some (0, flat (with_strings b (b_strings b ++ G) F)).
Proof using W.
  intros Hok. destruct (post_bytes b W) as (HR & HS & HM & HT & HF).
  pose proof (length_pre b) as Hp. destruct (flat_strings) as [E Ho].
  destruct (splice_ok b W ((pre b ++ b_struct b ++ b_gap b) ++ b_strings b) [] [] (data_size b) n)
    as (G & F & HG & HFl & HGt & Htl & HB & Hsp).
  { rewrite E. by rewrite <- !app_assoc. }
  { unfold data_size. rewrite (length_app _ (b_strings b)). lia. }
  { cbn [length]. lia. }
  cbn [app length] in HB, HFl, Hsp. change (Z.of_nat 0) with 0 in Hsp. specialize (HB HF). apply Forall_app in HB as [HG' HF'].
  exists G, F. split; [done|].
  pose proof (length_flat b) as E1. pose proof (length_flat (with_strings b (b_strings b ++ G) F)) as E2.
  pose proof (wf_len b W) as Hlen. pose proof (wf_total b W) as Ht.
  assert (Hw : wf (with_strings b (b_strings b ++ G) F)).
  { unfold data_size, off_strings, off_struct in E1, E2, Hok, Ht.
    cbn [with_strings b_struct b_free b_rsv b_gap b_strings] in E2. rewrite !length_app in E2.
    split.
    - unfold post. cbn [with_strings b_struct b_free b_rsv b_gap b_strings]. by rewrite !Forall_app.
    - lia.
    - unfold data_size, off_strings, off_struct.
      cbn [with_strings b_struct b_free b_rsv b_gap b_strings b_total]. rewrite !length_app. lia.
    - exact (wf_rsvmap b W).
    - exact (wf_cpu b W). }
  split; [done|]. split.
  { apply extends_strings. rewrite <- Htl. unfold b_tail, data_size, off_strings, off_struct.
    cbn [with_strings b_struct b_free b_rsv b_gap b_strings b_total length]. rewrite !length_app. f_equal. lia. }
  unfold _fdt_splice_string. rewrite hdr_off_strings, hdr_size_strings by done.
  cbn [mbind option_bind]. fold (data_size b). rewrite Hsp. unfold on_ok. cbn [mbind option_bind Z.eqb negb].
  pose proof (words_bound b W 8 _ eq_refl) as B8.
  replace (((pre b ++ b_struct b ++ b_gap b) ++ b_strings b) ++ G ++ F)
    with (image (words b) (b_rsv b ++ b_struct b ++ b_gap b ++ (b_strings b ++ G) ++ F))
    by (unfold pre, image; by rewrite <- !app_assoc).
  unfold fdt_size_dt_strings. rewrite (rd32_word _ 8 (Z.of_nat (length (b_strings b)))) by done. cbn [mbind option_bind].
  unfold fdt_set_size_dt_strings. erewrite (wr32_word _ 8) by done. cbn [mbind option_bind].
  rewrite flat_image. unfold post, words, off_strings, off_struct.
  cbn [with_strings b_struct b_free b_rsv b_gap b_strings b_total b_rsvmap b_cpu].
  cbn [insert list_insert]. rewrite !length_app. apply (f_equal Some), (f_equal (pair 0)), (f_equal (fun ws => image ws _)).
  repeat (apply (f_equal2 (@cons Z)); [lia|]). done.
Qed.

(** The string table after a name was asked for: it is there, or it fits at
    the end, or there is no space. *)
Lemma find_add_string_spec name y :
  is_str name ->
  (exists o, in_table (b_strings b) o name
     /\ _fdt_find_add_string (flat b) (name ++ 0 :: y) = Some (o, flat b))
  \/ (forall o, ~ in_table (b_strings b) o name)
     /\ (if b_total b <? data_size b + Z.of_nat (length name) + 1
         then _fdt_find_add_string (flat b) (name ++ 0 :: y) = Some (- FDT_ERR_NOSPACE, flat b)
         else exists F, wf (with_strings b (b_strings b ++ name ++ [0]) F)
           /\ extends b (with_strings b (b_strings b ++ name ++ [0]) F)
           /\ _fdt_find_add_string (flat b) (name ++ 0 :: y)
              = Some (Z.of_nat (length (b_strings b)), flat (with_strings b (b_strings b ++ name ++ [0]) F))).
Proof using W.
  intros Hn. unfold _fdt_find_add_string. rewrite hdr_off_strings by done. cbn [mbind option_bind].
  rewrite strtab_at. cbn [mbind option_bind]. rewrite strlen_cstr by done. cbn [mbind option_bind].
  rewrite hdr_size_strings by done. cbn [mbind option_bind].
  pose proof (wf_len b W) as Hlen. pose proof (length_flat b) as E1. pose proof (wf_total b W) as Ht.
  unfold data_size, off_strings, off_struct, HDR_SIZE in E1.
  rewrite s32_small by lia. pose proof (find_string_spec (b_strings b) (b_free b) name y Hn) as Hf.
  destruct (_fdt_find_string _ _ _) as [[o|]|]; [left; by exists o| |done]. right. split; [done|].
  cbn [mbind option_bind].
  replace (Z.of_nat (length name) + 1) with (Z.of_nat (length (name ++ [0]))) by (rewrite length_app; cbn; lia).
  replace (data_size b + Z.of_nat (length name) + 1) with (data_size b + Z.of_nat (length (name ++ [0])))
    by (rewrite length_app; cbn; lia).
  set (nz := name ++ [0]). destruct (Z.ltb_spec (b_total b) (data_size b + Z.of_nat (length nz))) as [Hlt|Hge].
  - unfold on_ok, _fdt_splice_string. rewrite hdr_off_strings, hdr_size_strings by done. cbn [mbind option_bind].
    fold (data_size b). unfold on_ok. rewrite splice_full; [done|done| |lia..].
    unfold data_size, off_strings, off_struct, HDR_SIZE. lia.
  - destruct (splice_string_ok (length nz) Hge) as (G & F & HG & Hw & Htl & Hsp). exists F.
    unfold on_ok. rewrite Hsp. cbn [mbind option_bind Z.eqb negb].
    assert (Hc : copy_in (flat (with_strings b (b_strings b ++ G) F)) (off_strings b + Z.of_nat (length (b_strings b)))
        (name ++ 0 :: y) (Z.of_nat (length nz)) = Some (flat (with_strings b (b_strings b ++ nz) F))).
    { unfold copy_in. destruct (Z.ltb_spec (Z.of_nat (length nz)) 0); [lia|].
      destruct (Z.ltb_spec (Z.of_nat (length (name ++ 0 :: y))) (Z.of_nat (length nz))) as [Hl|_];
        [unfold nz in Hl; rewrite !length_app in Hl; cbn [length] in Hl; lia|]. cbn [orb].
      replace (name ++ 0 :: y) with (nz ++ y) by (unfold nz; by rewrite <- app_assoc).
      rewrite Nat2Z.id, take_app_length.
      set (X := pre b ++ b_struct b ++ b_gap b ++ b_strings b).
      assert (EX : forall L, length L = length nz -> flat (with_strings b (b_strings b ++ L) F)
        = image (words (with_strings b (b_strings b ++ nz) F)) (b_rsv b ++ b_struct b ++ b_gap b ++ b_strings b) ++ L ++ F).
      { intros L HL. rewrite flat_image. unfold post, image, words, off_strings, off_struct.
        cbn [with_strings b_struct b_free b_rsv b_gap b_strings b_total b_rsvmap b_cpu].
        rewrite !length_app, HL. by rewrite <- !app_assoc. }
      rewrite !EX by done. apply store_at; [|done].
      unfold image. rewrite !length_app, length_words. cbn [words length]. unfold off_strings, off_struct, HDR_SIZE. lia. }
    rewrite Hc. cbn [mbind option_bind].
    assert (Htl' : extends b (with_strings b (b_strings b ++ nz) F)).
    { apply extends_strings. rewrite <- (ext_tail _ _ Htl). unfold b_tail, data_size, off_strings, off_struct.
      cbn [with_strings b_struct b_free b_rsv b_gap b_strings b_total]. by rewrite !length_app, HG. }
    split; [|done]. clear Hc Hsp Htl Htl'. destruct (post_bytes b W) as (HR & HS & HM & HT & HF).
    destruct (post_bytes _ Hw) as (_ & _ & _ & _ & HF').
    pose proof (length_flat (with_strings b (b_strings b ++ G) F)) as E3.
    pose proof (length_flat (with_strings b (b_strings b ++ nz) F)) as E4.
    pose proof (wf_len _ Hw) as H1. pose proof (wf_total _ Hw) as H2.
    unfold data_size, off_strings, off_struct in *.
    cbn [with_strings b_struct b_free b_rsv b_gap b_strings b_total] in *. rewrite !length_app in *.
    split.
    + unfold post. cbn [with_strings b_struct b_free b_rsv b_gap b_strings]. rewrite !Forall_app. split_and!; try done.
      unfold nz. apply Forall_app. split; [|repeat constructor; done]. eapply Forall_impl; [exact Hn|].
      intros c Hc. cbn beta in Hc. unfold in_word. lia.
    + lia.
    + unfold data_size, off_strings, off_struct.
      cbn [with_strings b_struct b_free b_rsv b_gap b_strings b_total]. rewrite !length_app. lia.
    + exact (wf_rsvmap b W).
    + exact (wf_cpu b W).
Qed.

End Strings.
End FdtParts.
