(* ===== verification/FdtEdit.v ===== *)
(** * Edits of a flattened device tree as edits of the tree

    The specification of FdtRw.v on top of FdtParts.v: setting, extending and
    deleting a property, adding and deleting a node of a blob that encodes a
    tree gives a blob that encodes the changed tree, or the code for no space
    and the tree as it was.  Properties are named ([names]): the string table
    may grow, and names that are in it stay. *)

From S2P Require Import Prelude Cstring Fdt FdtTree FdtQuery FdtRw FdtParts.

Module FdtEdit.
Import Cstring Fdt FdtTree FdtQuery FdtRw FdtParts.

(** ** The bytes of a property *)

Definition prop_hdr (len o : Z) : list Z := be_bytes 4 FDT_PROP ++ be_bytes 4 len ++ be_bytes 4 o.

Lemma length_prop_hdr len o : length (prop_hdr len o) = 12%nat.
Proof. unfold prop_hdr. by rewrite !length_app, !length_be_bytes. Qed.

Definition aligned_len (v : list Z) : Z := FDT_TAGALIGN (Z.of_nat (length v)).

Lemma aligned_len_bounds v : Z.of_nat (length v) < 2 ^ 31 - 3 ->
  Z.of_nat (length v) <= aligned_len v < Z.of_nat (length v) + 4 /\ (4 | aligned_len v).
Proof. intros H. apply tagalign_bounds. lia. Qed.

Lemma encodes1_prop o v e :
  Z.of_nat (length v) < 2 ^ 31 - 3 ->
  encodes1 (IProp o v) e
  <-> exists g, e = prop_hdr (Z.of_nat (length v)) o ++ v ++ g /\ Z.of_nat (length (v ++ g)) = aligned_len v.
Proof.
  intros Hv. destruct (length_enc (IProp o v)) as (k & Hk & Hb). cbn [body] in Hb.
  rewrite !length_app, !length_be_bytes in Hb. destruct (aligned_len_bounds v Hv) as [Ha [q Hq]].
  split; intros (g & -> & Hl); exists g; cbn [tag_of body] in *; unfold prop_hdr in *;
    rewrite <- !app_assoc in *; (split; [done|]); rewrite !length_app, ?length_be_bytes in *; lia.
Qed.

Lemma wr32_struct b A O B p v :
  b_struct b = A ++ O ++ B -> p = off_struct b + Z.of_nat (length A) -> length O = 4%nat ->
  wr32 (flat b) p v = Some (flat (with_struct b (A ++ be_bytes 4 v ++ B) (b_free b))).
Proof.
  intros E Hp Hl. unfold wr32. rewrite be_bytes_wrap by lia.
  apply (store_struct b A O B _ p E Hp). by rewrite length_be_bytes.
Qed.

Lemma copy_struct b A O B p val z len :
  b_struct b = A ++ O ++ B -> p = off_struct b + Z.of_nat (length A) -> len = Z.of_nat (length val) ->
  (length val <= length O)%nat ->
  copy_in (flat b) p (val ++ z) len
  = Some (flat (with_struct b (A ++ (val ++ drop (length val) O) ++ B) (b_free b))).
Proof.
  intros E Hp -> Hl. unfold copy_in. destruct (Z.ltb_spec (Z.of_nat (length val)) 0); [lia|].
  destruct (Z.ltb_spec (Z.of_nat (length (val ++ z))) (Z.of_nat (length val))) as [Hz|_];
    [rewrite length_app in Hz; lia|]. cbn [orb]. rewrite Nat2Z.id, take_app_length.
  rewrite (store_struct b A (take (length val) O) (drop (length val) O ++ B) val p).
  - by rewrite <- !app_assoc.
  - rewrite E. rewrite <- (take_drop (length val) O) at 1. by rewrite <- app_assoc.
  - done.
  - rewrite length_take. lia.
Qed.

(** A property gets room for another length. *)
Lemma resize_ok b (W : wf b) A o v g B p len :
  b_struct b = A ++ (prop_hdr (Z.of_nat (length v)) o ++ v ++ g) ++ B ->
  p = off_struct b + Z.of_nat (length A) ->
  Z.of_nat (length (v ++ g)) = aligned_len v -> 0 <= len < 2 ^ 30 ->
  let step k := on_ok (_fdt_splice_struct (flat b) (p + PROP_SIZE) (aligned_len v) (FDT_TAGALIGN len))
                  (fun fdt => fdt ← wr32 fdt (p + 4) len; k fdt) in
  if b_total b <? data_size b + (FDT_TAGALIGN len - aligned_len v) then
    forall k, step k = Some (- FDT_ERR_NOSPACE, flat b)
  else exists G F, Z.of_nat (length G) = FDT_TAGALIGN len
    /\ (aligned_len v <= FDT_TAGALIGN len -> exists G', G = v ++ G')
    /\ let b' := with_struct b (A ++ (prop_hdr len o ++ G) ++ B) F in
       wf b' /\ extends b b' /\ forall k, step k = k (flat b').
Proof.
  intros E -> Hg Hlen step. destruct (tagalign_bounds len) as [Ha _]; [lia|].
  set (A' := A ++ prop_hdr (Z.of_nat (length v)) o).
  assert (HA' : Z.of_nat (length A') = Z.of_nat (length A) + 12) by (unfold A'; rewrite length_app, length_prop_hdr; lia).
  assert (E' : b_struct b = A' ++ (v ++ g) ++ B) by (rewrite E; unfold A'; by rewrite <- !app_assoc).
  unfold step. rewrite <- Hg. unfold PROP_SIZE.
  destruct (Z.ltb_spec (b_total b) (data_size b + (FDT_TAGALIGN len - Z.of_nat (length (v ++ g))))) as [Hns|Hok].
  - intros k. unfold on_ok. rewrite (splice_struct_full b W A' (v ++ g) B) by (done || lia). done.
  - destruct (splice_struct_ok b W A' (v ++ g) B (off_struct b + Z.of_nat (length A) + 12)
      (Z.to_nat (FDT_TAGALIGN len)) E' ltac:(lia) ltac:(lia)) as (G & F & HG & Hpre & Hw & Hext & Hsp).
    rewrite Z2Nat.id in Hsp by lia. exists G, F. split; [lia|]. split.
    { intros Hle. destruct Hpre as [G' ->]; [lia|]. rewrite <- app_assoc. by eexists. }
    set (b1 := with_struct b (A' ++ G ++ B) F) in *.
    assert (E1 : b_struct b1 = (A ++ be_bytes 4 FDT_PROP) ++ be_bytes 4 (Z.of_nat (length v)) ++ be_bytes 4 o ++ G ++ B)
      by (unfold b1, A', prop_hdr; cbn [with_struct b_struct]; by rewrite <- !app_assoc).
    cbv zeta. replace (A ++ (prop_hdr len o ++ G) ++ B)
      with ((A ++ be_bytes 4 FDT_PROP) ++ be_bytes 4 len ++ be_bytes 4 o ++ G ++ B)
      by (unfold prop_hdr; by rewrite <- !app_assoc).
    split; [apply (wf_store_struct b1 Hw _ _ _ _ E1); [by rewrite !length_be_bytes|apply be_bytes_bytes]|].
    split; [eapply extends_trans; [exact Hext|]; apply (extends_same b1); rewrite E1, !length_app, !length_be_bytes; lia|].
    intros k. unfold on_ok. rewrite Hsp. cbn [mbind option_bind Z.eqb negb]. fold b1.
    by rewrite (wr32_struct b1 _ _ _ _ len E1)
      by (rewrite ?length_app, ?length_be_bytes; change (off_struct b1) with (off_struct b); lia).
Qed.

(** Writing a value into its room. *)
Lemma fill_value b (W : wf b) A hdr G B val z p len :
  b_struct b = A ++ (hdr ++ G) ++ B ->
  p = off_struct b + Z.of_nat (length A) + Z.of_nat (length hdr) -> len = Z.of_nat (length val) ->
  (length val <= length G)%nat -> bytes val ->
  let b' := with_struct b (A ++ (hdr ++ val ++ drop (length val) G) ++ B) (b_free b) in
  wf b' /\ extends b b' /\ copy_in (flat b) p (val ++ z) len = Some (flat b').
Proof.
  intros E -> -> Hl HB.
  assert (E' : b_struct b = (A ++ hdr) ++ G ++ B) by (rewrite E; by rewrite <- !app_assoc).
  cbv zeta. replace (A ++ (hdr ++ val ++ drop (length val) G) ++ B) with ((A ++ hdr) ++ (val ++ drop (length val) G) ++ B)
    by (by rewrite <- !app_assoc).
  split_and!.
  - apply (wf_store_struct b W _ G _ _ E'); [rewrite length_app, length_drop; lia|].
    apply Forall_app. split; [done|]. apply Forall_drop. destruct (post_bytes b W) as (_ & HS & _).
    rewrite E', !Forall_app in HS. tauto.
  - apply extends_same. rewrite E', !length_app, length_drop. lia.
  - apply (copy_struct b _ G _ _ _ _ _ E'); [|done|lia]. rewrite length_app. lia.
Qed.

(** ** Properties by name *)

(** The properties of a node with the names their offsets stand for. *)
Definition names (T : list Z) (ps : list (Z * list Z)) (nps : list (str * list Z)) : Prop :=
  Forall2 (fun p q => is_str q.1 /\ in_table T p.1 q.1 /\ p.2 = q.2) ps nps.

(** The value of the first property with the name. *)
Fixpoint assoc (name : str) (nps : list (str * list Z)) : option (list Z) :=
  match nps with
  | [] => None
  | (n, v) :: nps => if bool_decide (n = name) then Some v else assoc name nps
  end.

(** A change of the first property with the name. *)
Fixpoint update (name : str) (f : list Z -> list (str * list Z)) (nps : list (str * list Z)) : list (str * list Z) :=
  match nps with
  | [] => []
  | (n, v) :: nps => if bool_decide (n = name) then f v ++ nps else (n, v) :: update name f nps
  end.

(** The first property of the name gets the value; a new one goes in front. *)
Definition set_prop (name : str) (val : list Z) (nps : list (str * list Z)) : list (str * list Z) :=
  match assoc name nps with
  | Some _ => update name (fun _ => [(name, val)]) nps
  | None => (name, val) :: nps
  end.

Definition append_prop (name : str) (val : list Z) (nps : list (str * list Z)) : list (str * list Z) :=
  match assoc name nps with
  | Some _ => update name (fun v => [(name, v ++ val)]) nps
  | None => (name, val) :: nps
  end.

Definition del_prop (name : str) (nps : list (str * list Z)) : list (str * list Z) := update name (fun _ => []) nps.

Lemma assoc_app_none name nps1 nps2 : assoc name nps1 = None -> assoc name (nps1 ++ nps2) = assoc name nps2.
Proof.
  induction nps1 as [|[n v] nps1 IH]; [done|]. cbn [app assoc]. case_bool_decide; [done|exact IH].
Qed.

Lemma update_split name f nps1 v nps2 :
  assoc name nps1 = None -> update name f (nps1 ++ (name, v) :: nps2) = nps1 ++ f v ++ nps2.
Proof.
  induction nps1 as [|[n w] nps1 IH]; cbn [app assoc update].
  - intros _. by rewrite bool_decide_eq_true_2.
  - case_bool_decide; [done|]. intros H'. by rewrite IH.
Qed.

(** What a lookup by name gives before and after a change. *)
Lemma assoc_set_prop name val nps n :
  assoc n (set_prop name val nps) = if bool_decide (name = n) then Some val else assoc n nps.
Proof.
  unfold set_prop. destruct (assoc name nps) as [w|] eqn:E; [|done].
  induction nps as [|[m v] nps IH]; [done|]. cbn [assoc update] in *. destruct (decide (m = name)) as [->|Hm].
  - rewrite bool_decide_eq_true_2 by done. cbn [app assoc]. by case_bool_decide.
  - rewrite bool_decide_eq_false_2 in E |- * by done. cbn [assoc].
    destruct (decide (m = n)) as [->|]; [by rewrite !bool_decide_eq_true_2, bool_decide_eq_false_2 by done|].
    rewrite (bool_decide_eq_false_2 (m = n)) by done. by apply IH.
Qed.

Lemma names_app T E ps nps : names T ps nps -> names (T ++ E) ps nps.
Proof. intros H. eapply Forall2_impl; [exact H|]. intros p q (H1 & H2 & H3). eauto using in_table_app. Qed.

(** The first property of a name, among offsets and among names. *)
Lemma names_assoc T nm name ps nps : 
  is_str name -> (forall o n, is_str n -> in_table T o n -> nm o = n) -> names T ps nps ->
  forall off,
  match assoc name nps with
  | None => find_prop nm name ps off = None
  | Some v => exists ps1 o ps2 nps1 nps2,
      ps = ps1 ++ (o, v) :: ps2 /\ nps = nps1 ++ (name, v) :: nps2
      /\ names T ps1 nps1 /\ names T ps2 nps2 /\ in_table T o name /\ assoc name nps1 = None
      /\ find_prop nm name ps off = Some (off + size_of (prop_items ps1) + 12, v)
  end.
Proof.
  intros Hs Hnm H. induction H as [|[o v] [n w] ps nps (Hn & Ht & Hv) H IH]; intros off; cbn [assoc find_prop]; [done|].
  cbn [fst snd] in Hn, Ht, Hv. subst w. rewrite (Hnm o n Hn Ht). case_bool_decide as Heq.
  - subst n. exists [], o, ps, [], nps. cbn [app prop_items map assoc]. split_and!; try done; [by constructor|].
    do 2 f_equal. unfold size_of. cbn [encs map concat length]. lia.
  - specialize (IH (off + Z.of_nat (length (enc (IProp o v))))). destruct (assoc name nps) as [w|]; [|done].
    destruct IH as (ps1 & o' & ps2 & nps1 & nps2 & -> & -> & H1 & H2 & Ht' & Ha & Hf).
    exists ((o, v) :: ps1), o', ps2, ((n, v) :: nps1), nps2. split_and!; try done.
    + by constructor.
    + cbn [assoc]. by rewrite bool_decide_eq_false_2.
    + rewrite Hf. cbn [prop_items map fst snd]. fold (prop_items ps1). rewrite size_of_cons. do 2 f_equal. lia.
Qed.

(** ** A node in a blob *)

(** The blob holds the node with these properties between the items [l1] and
    [l2]; [ps] are the properties with the offsets of their names. *)
Record at_node (b : dtb) (l1 : list item) (nm : str) (ps : list (Z * list Z)) (nps : list (str * list Z))
    (subs : list node) (l2 : list item) : Prop := {
  an_wf : wf b;
  an_block : block_of (l1 ++ items (Node nm ps subs) ++ l2) (b_struct b);
  an_good : Forall good_item (l1 ++ items (Node nm ps subs) ++ l2);
  an_names : names (b_strings b) ps nps;
}.

Lemma at_node_holds b l1 nm ps nps subs l2 :
  at_node b l1 nm ps nps subs l2 -> holds (pre b) (b_struct b) (post b) l1 (Node nm ps subs) l2.
Proof. intros [W H1 H2 _]. split; [by apply wf_layout|done]. Qed.

(** The items around the properties. *)
Definition behind (subs : list node) (l2 : list item) : list item := forest subs ++ IEnd :: l2.

Lemma node_items l1 nm ps subs l2 :
  l1 ++ items (Node nm ps subs) ++ l2 = (l1 ++ [IBegin nm]) ++ prop_items ps ++ behind subs l2.
Proof. cbn [items app]. unfold behind, forest. rewrite <- !app_assoc. cbn [app]. by rewrite <- ?app_assoc. Qed.

(** [fdt_get_property] by name. *)
Lemma get_property_spec_at b l1 nm ps nps subs l2 name y :
  at_node b l1 nm ps nps subs l2 -> is_str name ->
  match assoc name nps with
  | None => fdt_get_property (flat b) (size_of l1) (name ++ 0 :: y) = Some (None, - FDT_ERR_NOTFOUND)
  | Some v => exists ps1 o ps2 nps1 nps2,
      ps = ps1 ++ (o, v) :: ps2 /\ nps = nps1 ++ (name, v) :: nps2
      /\ names (b_strings b) ps1 nps1 /\ names (b_strings b) ps2 nps2
      /\ in_table (b_strings b) o name /\ assoc name nps1 = None
      /\ fdt_get_property (flat b) (size_of l1) (name ++ 0 :: y)
         = Some (Some (off_struct b + size_of ((l1 ++ [IBegin nm]) ++ prop_items ps1)), Z.of_nat (length v))
  end.
Proof.
  intros H Hn. pose proof (at_node_holds _ _ _ _ _ _ _ H) as Hh. destruct H as [W Hb Hg Hnames].
  unfold fdt_get_property. rewrite strlen_cstr by done. cbn [mbind option_bind].
  destruct (get_property_namelen_spec _ _ _ _ _ _ _ _ (off_strings b) name y Hh Hn (hdr_off_strings b W)) as [Hget _].
  { clear -Hnames. induction Hnames as [|p q ps nps (H1 & H2 & _) _ IH]; constructor; [|done].
    by destruct (in_table_named b p.1 q.1 H1 H2). }
  cbv zeta in Hget. fold (flat b) in Hget. rewrite Hget. 
  pose proof (names_assoc (b_strings b) (prop_name (flat b) (off_strings b)) name ps nps Hn
    (fun o n H1 H2 => proj2 (in_table_named b o n H1 H2)) Hnames
    (size_of l1 + Z.of_nat (length (enc (IBegin nm))))) as Hf.
  destruct (assoc name nps) as [v|]; [|by rewrite Hf].
  destruct Hf as (ps1 & o & ps2 & nps1 & nps2 & E1 & E2 & H1 & H2 & Ht & Ha & Hf).
  exists ps1, o, ps2, nps1, nps2. split_and!; try done. rewrite Hf, length_pre. do 3 f_equal.
  rewrite !size_of_app. unfold size_of. cbn [encs map concat]. rewrite app_nil_r. lia.
Qed.

(** [fdt_getprop] by name: a pointer to the bytes of the value. *)
Lemma getprop_spec_at b l1 nm ps nps subs l2 name y :
  at_node b l1 nm ps nps subs l2 -> is_str name ->
  match assoc name nps with
  | None => fdt_getprop (flat b) (size_of l1) (name ++ 0 :: y) = Some (None, - FDT_ERR_NOTFOUND)
  | Some v => exists p, fdt_getprop (flat b) (size_of l1) (name ++ 0 :: y) = Some (Some p, Z.of_nat (length v))
      /\ take (length v) (drop (Z.to_nat p) (flat b)) = v
  end.
Proof.
  intros H Hn. pose proof (at_node_holds _ _ _ _ _ _ _ H) as Hh. destruct H as [W Hb Hg Hnames].
  destruct (get_property_namelen_spec _ _ _ _ _ _ _ _ (off_strings b) name y Hh Hn (hdr_off_strings b W)) as [Hget Hval].
  { clear -Hnames. induction Hnames as [|p q ps nps (H1 & H2 & _) _ IH]; constructor; [|done].
    by destruct (in_table_named b p.1 q.1 H1 H2). }
  cbv zeta in Hget, Hval. fold (flat b) in Hget, Hval.
  pose proof (names_assoc (b_strings b) (prop_name (flat b) (off_strings b)) name ps nps Hn
    (fun o n H1 H2 => proj2 (in_table_named b o n H1 H2)) Hnames
    (size_of l1 + Z.of_nat (length (enc (IBegin nm))))) as Hf.
  unfold fdt_getprop, fdt_getprop_namelen. rewrite strlen_cstr by done. cbn [mbind option_bind].
  rewrite Hget. destruct (assoc name nps) as [v|]; [|by rewrite Hf].
  destruct Hf as (ps1 & o & ps2 & nps1 & nps2 & _ & _ & _ & _ & _ & _ & Hf). rewrite Hf in Hval |- *.
  cbn [mbind option_bind option_map]. eexists. split; [done|]. specialize (Hval _ _ eq_refl). unfold value_at in Hval.
  etransitivity; [|exact Hval]. do 3 f_equal. lia.
Qed.

(** The block split at a property, and put together again. *)
Lemma prop_split b l1 nm ps1 o v ps2 nps subs l2 :
  at_node b l1 nm (ps1 ++ (o, v) :: ps2) nps subs l2 ->
  exists A g B, b_struct b = A ++ (prop_hdr (Z.of_nat (length v)) o ++ v ++ g) ++ B
    /\ Z.of_nat (length A) = size_of ((l1 ++ [IBegin nm]) ++ prop_items ps1)
    /\ Z.of_nat (length (v ++ g)) = aligned_len v
    /\ encodes ((l1 ++ [IBegin nm]) ++ prop_items ps1) A
    /\ block_of (prop_items ps2 ++ behind subs l2) B.
Proof.
  intros [W Hb Hg _]. rewrite node_items in Hb, Hg. unfold prop_items in Hb, Hg. rewrite map_app in Hb, Hg.
  fold (prop_items ps1) in Hb, Hg. cbn [map fst snd] in Hb, Hg. fold (prop_items ps2) in Hb, Hg.
  rewrite <- (app_assoc (prop_items ps1)), (app_assoc (l1 ++ _)) in Hb, Hg. cbn [app] in Hb, Hg.
  destruct (split_item _ _ _ _ Hb) as (A & e & B & HA & He & HB & E & Hl & _).
  apply Forall_app in Hg as [_ [[_ Hv] _]%Forall_cons_1].
  assert (Hv' : Z.of_nat (length v) < 2 ^ 31 - 3).
  { pose proof (wf_len b W) as Hlen. pose proof (length_flat b) as Hf. unfold data_size, off_strings, off_struct in Hf.
    rewrite E, !length_app in Hf. destruct He as (g & -> & _). cbn [body] in Hf. rewrite !length_app in Hf.
    unfold HDR_SIZE in Hf. lia. }
  apply encodes1_prop in He as (g & -> & Hgl); [|done]. by exists A, g, B.
Qed.

Lemma prop_join b' l1 nm ps1 o v ps2 nps subs l2 A g B :
  wf b' -> b_struct b' = A ++ (prop_hdr (Z.of_nat (length v)) o ++ v ++ g) ++ B ->
  Z.of_nat (length (v ++ g)) = aligned_len v ->
  encodes ((l1 ++ [IBegin nm]) ++ prop_items ps1) A -> block_of (prop_items ps2 ++ behind subs l2) B ->
  Forall good_item (l1 ++ items (Node nm (ps1 ++ ps2) subs) ++ l2) -> 0 <= o < 2 ^ 31 ->
  names (b_strings b') (ps1 ++ (o, v) :: ps2) nps ->
  at_node b' l1 nm (ps1 ++ (o, v) :: ps2) nps subs l2.
Proof.
  intros W E Hl HA HB Hg Ho Hn.
  assert (Hv : Z.of_nat (length v) < 2 ^ 31 - 3).
  { pose proof (wf_len b' W) as Hlen. pose proof (length_flat b') as Hf. unfold data_size, off_strings, off_struct in Hf.
    rewrite E, !length_app in Hf. unfold HDR_SIZE in Hf. lia. }
  assert (Ei : forall q, l1 ++ items (Node nm (ps1 ++ q) subs) ++ l2
    = ((l1 ++ [IBegin nm]) ++ prop_items ps1) ++ prop_items q ++ behind subs l2).
  { intros q. rewrite node_items. unfold prop_items. rewrite map_app. by rewrite <- !app_assoc. }
  split; [done| |by rewrite Ei in *; cbn [prop_items map app] in *; 
    apply Forall_app in Hg as [Hg1 Hg2]; apply Forall_app; split; [done|]; constructor; [|done]; split; cbn [fst snd]; lia|done].
  rewrite Ei, E. apply block_of_app. exists A, ((prop_hdr (Z.of_nat (length v)) o ++ v ++ g) ++ B).
  split; [done|]. split; [|done]. destruct HB as (B' & HB & ->).
  exists ((prop_hdr (Z.of_nat (length v)) o ++ v ++ g) ++ B'). split; [|by rewrite <- !app_assoc].
  cbn [prop_items map app fst snd]. constructor; [|done]. apply encodes1_prop; [done|]. by exists g.
Qed.

Lemma good_props l1 nm ps1 o v ps2 subs l2 :
  Forall good_item (l1 ++ items (Node nm (ps1 ++ (o, v) :: ps2) subs) ++ l2) ->
  Forall good_item (l1 ++ items (Node nm (ps1 ++ ps2) subs) ++ l2) /\ 0 <= o < 2 ^ 31.
Proof.
  rewrite !node_items. unfold prop_items. rewrite !map_app, !Forall_app. cbn [map fst snd].
  intros (H1 & (H2 & [[Ho _] H3]%Forall_cons_1) & H4). tauto.
Qed.

(** *** A new property *)

Definition has_name (T : list Z) (name : str) : bool :=
  existsb (fun o => bool_decide (take (length name + 1) (drop o T) = name ++ [0])) (seq 0 (length T)).

Lemma has_name_spec T name : has_name T name = true <-> exists o, in_table T o name.
Proof.
  unfold has_name. rewrite existsb_exists. split.
  - intros (o & _ & Ho%bool_decide_eq_true). exists (Z.of_nat o). split; [lia|]. rewrite Nat2Z.id.
    exists (drop (length name + 1) (drop o T)). rewrite <- (take_drop (length name + 1) (drop o T)) at 1.
    by rewrite Ho, <- app_assoc.
  - intros (o & Ht). pose proof (in_table_bound _ _ _ Ht) as [H0 Hb]. destruct Ht as (_ & r & Hr).
    exists (Z.to_nat o). split; [apply in_seq; lia|]. apply bool_decide_eq_true. rewrite Hr, take_app_add. done.
Qed.

(** The bytes a name takes in the string table when it is asked for. *)
Definition name_growth (T : list Z) (name : str) : Z :=
  if has_name T name then 0 else Z.of_nat (length name) + 1.

Lemma find_add_string_ok b name y :
  wf b -> is_str name ->
  if b_total b <? data_size b + name_growth (b_strings b) name then
    _fdt_find_add_string (flat b) (name ++ 0 :: y) = Some (- FDT_ERR_NOSPACE, flat b)
  else exists o T F, let b' := with_strings b (b_strings b ++ T) F in
    wf b' /\ extends b b' /\ _fdt_find_add_string (flat b) (name ++ 0 :: y) = Some (o, flat b')
    /\ in_table (b_strings b') o name /\ data_size b' = data_size b + name_growth (b_strings b) name.
Proof.
  intros W Hn. pose proof (wf_total b W) as Ht. unfold name_growth.
  destruct (find_add_string_spec b W name y Hn) as [(o & Ho & E)|[Hno Hcase]].
  - assert (has_name (b_strings b) name = true) as -> by (apply has_name_spec; eauto).
    destruct (Z.ltb_spec (b_total b) (data_size b + 0)); [lia|]. exists o, [], (b_free b). cbv zeta.
    rewrite app_nil_r. replace (with_strings b (b_strings b) (b_free b)) with b by (by destruct b).
    split_and!; [done|apply extends_refl|done|done|lia].
  - destruct (has_name (b_strings b) name) eqn:Eh; [by apply has_name_spec in Eh as [o Ho]; destruct (Hno o)|].
    rewrite Z.add_assoc. destruct (Z.ltb_spec (b_total b) (data_size b + Z.of_nat (length name) + 1)) as [|Hge]; [done|].
    destruct Hcase as (F & Hw & Hext & E). exists (Z.of_nat (length (b_strings b))), (name ++ [0]), F. cbv zeta. split_and!; [done..| |].
    + split; [lia|]. exists []. cbn [with_strings b_strings]. by rewrite Nat2Z.id, drop_app_length.
    + unfold data_size, off_strings, off_struct. cbn [with_strings b_struct b_gap b_rsv b_strings].
      rewrite !length_app. cbn [length]. lia.
Qed.

Lemma split3 (G : list Z) : (12 <= length G)%nat ->
  exists g1 g2 g3 G', G = g1 ++ g2 ++ g3 ++ G' /\ length g1 = 4%nat /\ length g2 = 4%nat /\ length g3 = 4%nat.
Proof.
  intros Hl. exists (take 4 G), (take 4 (drop 4 G)), (take 4 (drop 8 G)), (drop 12 G).
  rewrite !length_take, !length_drop. split; [|lia].
  replace (drop 8 G) with (drop 4 (drop 4 G)) by (by rewrite drop_drop).
  replace (drop 12 G) with (drop 4 (drop 4 (drop 4 G))) by (by rewrite !drop_drop).
  by rewrite !take_drop.
Qed.

(** [_fdt_add_property]: the header and the room in front of the node's
    properties. *)
Lemma add_property_ok b l1 nm ps nps subs l2 name y len :
  at_node b l1 nm ps nps subs l2 -> is_str name -> 0 <= len < 2 ^ 30 ->
  if b_total b <? data_size b + (name_growth (b_strings b) name + 12 + FDT_TAGALIGN len) then
    exists b' p, _fdt_add_property (flat b) (size_of l1) (name ++ 0 :: y) len = Some (- FDT_ERR_NOSPACE, flat b', p)
      /\ at_node b' l1 nm ps nps subs l2 /\ extends b b' /\ b_struct b' = b_struct b
  else exists b' o A G B,
    _fdt_add_property (flat b) (size_of l1) (name ++ 0 :: y) len
      = Some (0, flat b', Some (off_struct b' + Z.of_nat (length A)))
    /\ wf b' /\ extends b b' /\ b_struct b' = A ++ (prop_hdr len o ++ G) ++ B
    /\ Z.of_nat (length G) = FDT_TAGALIGN len /\ in_table (b_strings b') o name
    /\ encodes (l1 ++ [IBegin nm]) A /\ block_of (prop_items ps ++ behind subs l2) B
    /\ data_size b' = data_size b + (name_growth (b_strings b) name + 12 + FDT_TAGALIGN len).
Proof.
  intros H Hn Hlen. pose proof H as [W Hb Hg Hnames]. destruct (tagalign_bounds len) as [Ha _]; [lia|].
  unfold _fdt_add_property.
  assert (Hb' : block_of (l1 ++ IBegin nm :: prop_items ps ++ behind subs l2) (b_struct b))
    by (rewrite node_items, <- app_assoc in Hb; done).
  destruct (split_item _ _ _ _ Hb') as (A0 & e & B & HA & He & HB & E & Hl & Hdiv & _).
  rewrite node_items, <- app_assoc in Hg. apply Forall_app in Hg as [Hg1 [Hnm Hg2]%Forall_cons_1].
  pose proof (check_node_begin _ _ _ (wf_layout b W) A0 nm e B E He Hdiv Hnm) as Hc. fold (flat b) in Hc.
  rewrite <- Hl, Hc. cbn [mbind option_bind]. destruct (Z.ltb_spec (Z.of_nat (length (A0 ++ e))) 0); [lia|].
  pose proof (find_add_string_ok b name y W Hn) as Hs.
  destruct (Z.ltb_spec (b_total b) (data_size b + name_growth (b_strings b) name)) as [Hs1|Hs1].
  { rewrite Hs. cbn [mbind option_bind]. change (- FDT_ERR_NOSPACE <? 0) with true. cbn iota.
    destruct (Z.ltb_spec (b_total b) (data_size b + (name_growth (b_strings b) name + 12 + FDT_TAGALIGN len))); [|lia].
    exists b, None. split_and!; [done|done|apply extends_refl|done]. }
  destruct Hs as (o & T & F & W1 & Hx1 & Hs & Ho & Hd). cbv zeta in *. set (b1 := with_strings b (b_strings b ++ T) F) in *.
  rewrite Hs. cbn [mbind option_bind]. destruct (in_table_bound _ _ _ Ho) as [Ho0 _].
  destruct (Z.ltb_spec o 0); [lia|]. unfold _fdt_offset_ptr. rewrite hdr_off_struct by done. cbn [mbind option_bind].
  unfold PROP_SIZE. rewrite s32_small by lia.
  assert (E1 : b_struct b1 = (A0 ++ e) ++ [] ++ B) by (unfold b1; cbn [with_strings b_struct app]; by rewrite <- app_assoc).
  destruct (Z.ltb_spec (b_total b) (data_size b + (name_growth (b_strings b) name + 12 + FDT_TAGALIGN len))) as [Hns|Hok].
  { exists b1, (Some (off_struct b1 + Z.of_nat (length (A0 ++ e)))). split_and!.
    - unfold on_ok. change 0 with (Z.of_nat (length (@nil Z))) at 1.
      rewrite (splice_struct_full b1 W1 (A0 ++ e) [] B _ _ E1); [done|done|lia|]. change (b_total b1) with (b_total b). cbn [length]. lia.
    - split; [done| |by rewrite node_items, <- app_assoc; apply Forall_app; split; [|constructor]|by apply names_app].
      by rewrite node_items, <- app_assoc.
    - exact Hx1.
    - done. }
  destruct (splice_struct_ok b1 W1 (A0 ++ e) [] B _ (Z.to_nat (12 + FDT_TAGALIGN len)) E1 eq_refl)
    as (G & F' & HG & _ & W2 & Hx2 & Hsp); [change (b_total b1) with (b_total b); cbn [length]; lia|].
  rewrite Z2Nat.id in Hsp by lia. change (Z.of_nat (length [])) with 0 in Hsp.
  unfold on_ok. rewrite Hsp. cbn [mbind option_bind Z.eqb negb].
  set (b2 := with_struct b1 ((A0 ++ e) ++ G ++ B) F') in *.
  destruct (split3 G) as (g1 & g2 & g3 & G' & EG & L1 & L2 & L3); [lia|].
  set (A := A0 ++ e) in *. set (p := off_struct b1 + Z.of_nat (length A)).
  assert (Ep : p = HDR_SIZE + Z.of_nat (length (b_rsv b2)) + Z.of_nat (length A)) by done.
  assert (E2 : b_struct b2 = A ++ g1 ++ g2 ++ g3 ++ G' ++ B)
    by (unfold b2; cbn [with_struct b_struct]; rewrite EG; by rewrite <- !app_assoc).
  rewrite (wr32_struct b2 A g1 _ p FDT_PROP E2) by done. cbn [mbind option_bind].
  rewrite (wr32_struct _ (A ++ be_bytes 4 FDT_PROP ++ g2) g3 (G' ++ B) (p + 8) o);
    [|cbn [with_struct b_struct]; by rewrite <- !app_assoc
     |rewrite Ep, !length_app, length_be_bytes; unfold off_struct; cbn [with_struct b_rsv]; lia|done].
  cbn [mbind option_bind with_struct b_total b_rsvmap b_cpu b_rsv b_gap b_strings b_struct b_free].
  rewrite (wr32_struct _ (A ++ be_bytes 4 FDT_PROP) g2 (be_bytes 4 o ++ G' ++ B) (p + 4) len);
    [|cbn [b_struct]; by rewrite <- !app_assoc
     |rewrite Ep, !length_app, length_be_bytes; unfold off_struct; cbn [with_struct b_rsv]; lia|done].
  set (S' := (A ++ be_bytes 4 FDT_PROP) ++ be_bytes 4 len ++ be_bytes 4 o ++ G' ++ B).
  assert (ES : S' = A ++ (prop_hdr len o ++ G') ++ B) by (unfold S', prop_hdr; by rewrite <- !app_assoc).
  exists (with_struct b2 S' F'), o, A, G', B. split_and!.
  - done.
  - rewrite ES. replace (A ++ (prop_hdr len o ++ G') ++ B) with (A ++ prop_hdr len o ++ (G' ++ B)) by (by rewrite <- !app_assoc).
    apply (wf_store_struct b2 W2 _ (g1 ++ g2 ++ g3)).
    + by rewrite E2, <- !app_assoc.
    + rewrite length_prop_hdr, !length_app. lia.
    + unfold prop_hdr. rewrite !Forall_app. split_and!; apply be_bytes_bytes.
  - eapply extends_trans; [exact Hx1|]. eapply extends_trans; [exact Hx2|]. apply (extends_same b2).
    rewrite ES, E2, !length_app, length_prop_hdr. lia.
  - done.
  - rewrite EG, !length_app in HG. lia.
  - done.
  - apply encodes_app. exists A0, e. split; [done|]. split; [by apply encodes_single|done].
  - done.
  - unfold data_size, off_strings, off_struct in *. rewrite ES. subst b1 b2.
    cbn [with_struct with_strings b_struct b_strings b_gap b_rsv] in *.
    rewrite E in *. rewrite EG in HG. rewrite !length_app, ?length_prop_hdr in *.
    assert (length A = (length A0 + length e)%nat) by (unfold A; apply length_app). lia.
Qed.

Lemma aligned_len_le v v' :
  (length v <= length v')%nat -> Z.of_nat (length v') < 2 ^ 31 - 3 -> aligned_len v <= aligned_len v'.
Proof.
  intros Hle Hlt. destruct (aligned_len_bounds v) as [Hb [q Hq]]; [lia|].
  destruct (aligned_len_bounds v') as [Hb' [q' Hq']]; [lia|]. lia.
Qed.

(** A property whose value becomes [val] behind nothing or behind the old
    value. *)
Lemma rewrite_value b l1 nm ps1 o v ps2 nps1 name nps2 subs l2 w val z :
  at_node b l1 nm (ps1 ++ (o, v) :: ps2) (nps1 ++ (name, v) :: nps2) subs l2 ->
  names (b_strings b) ps1 nps1 -> names (b_strings b) ps2 nps2 ->
  is_str name -> in_table (b_strings b) o name -> (w = [] \/ w = v) -> bytes val ->
  Z.of_nat (length (w ++ val)) < 2 ^ 30 ->
  let p := off_struct b + size_of ((l1 ++ [IBegin nm]) ++ prop_items ps1) in
  let step k := on_ok (_fdt_splice_struct (flat b) (p + PROP_SIZE) (aligned_len v) (aligned_len (w ++ val)))
                  (fun fdt => fdt ← wr32 fdt (p + 4) (Z.of_nat (length (w ++ val))); k fdt) in
  if b_total b <? data_size b + (aligned_len (w ++ val) - aligned_len v) then
    forall k, step k = Some (- FDT_ERR_NOSPACE, flat b)
  else exists b1 b', (forall k, step k = k (flat b1))
    /\ copy_in (flat b1) (p + PROP_SIZE + Z.of_nat (length w)) (val ++ z) (Z.of_nat (length val)) = Some (flat b')
    /\ extends b b' /\ at_node b' l1 nm (ps1 ++ (o, w ++ val) :: ps2) (nps1 ++ (name, w ++ val) :: nps2) subs l2
    /\ data_size b' = data_size b + (aligned_len (w ++ val) - aligned_len v).
Proof.
  intros H Hn1 Hn2 Hn Ht Hw HB Hlen p step. pose proof H as [W _ Hg _].
  destruct (prop_split b l1 nm ps1 o v ps2 _ subs l2 H) as (A & g & B & E & HA & Hgl & HEA & HEB).
  assert (Ep : p = off_struct b + Z.of_nat (length A)) by (unfold p; lia).
  pose proof (resize_ok b W A o v g B p (Z.of_nat (length (w ++ val))) E Ep Hgl ltac:(lia)) as Hr.
  fold (aligned_len (w ++ val)) in Hr. cbv zeta in Hr. fold step in Hr. unfold step.
  destruct (Z.ltb_spec (b_total b) (data_size b + (aligned_len (w ++ val) - aligned_len v))) as [|Hok]; [done|].
  destruct Hr as (G & F & HG & Hpre & W1 & Hx1 & Hk). destruct (aligned_len_bounds (w ++ val)) as [Hal _]; [lia|].
  set (b1 := with_struct b (A ++ (prop_hdr (Z.of_nat (length (w ++ val))) o ++ G) ++ B) F) in *.
  assert (exists G1, G = w ++ G1) as [G1 ->].
  { destruct Hw as [-> | ->]; [by exists G|]. apply Hpre, aligned_len_le; [rewrite length_app|]; lia. }
  rewrite !length_app in HG. rewrite length_app in Hal, Hlen.
  destruct (fill_value b1 W1 A (prop_hdr (Z.of_nat (length (w ++ val))) o ++ w) G1 B val z
    (p + PROP_SIZE + Z.of_nat (length w)) (Z.of_nat (length val))) as (W2 & Hx2 & Hc); [|unfold PROP_SIZE|done|lia|done|].
  { unfold b1. cbn [with_struct b_struct]. by rewrite <- !app_assoc. }
  { rewrite length_app, length_prop_hdr. change (off_struct b1) with (off_struct b). lia. }
  eexists b1, _. split; [exact Hk|]. split; [exact Hc|]. split; [|split].
  - eapply extends_trans; [exact Hx1|exact Hx2].
  - eapply (prop_join _ l1 nm ps1 o (w ++ val) ps2 _ subs l2 A (drop (length val) G1) B W2).
    + cbn [with_struct b_struct]. by rewrite <- !app_assoc.
    + rewrite !length_app, length_drop. lia.
    + done.
    + done.
    + by eapply good_props.
    + by apply (good_props _ _ _ _ _ _ _ _ Hg).
    + apply Forall2_app; [exact Hn1|]. constructor; [done|exact Hn2].
  - unfold data_size, off_strings, off_struct. cbn [with_struct b_struct b_strings b_gap b_rsv b1].
    rewrite E, !length_app, !length_prop_hdr, length_drop. rewrite length_app in Hgl. lia.
Qed.

(** ** Setting a property *)

(** The bytes a property of a node needs beyond those it has. *)
Definition set_growth (T : list Z) (name : str) (val : list Z) (nps : list (str * list Z)) : Z :=
  match assoc name nps with
  | Some v => aligned_len val - aligned_len v
  | None => name_growth T name + 12 + aligned_len val
  end.

Definition append_growth (T : list Z) (name : str) (val : list Z) (nps : list (str * list Z)) : Z :=
  match assoc name nps with
  | Some v => aligned_len (v ++ val) - aligned_len v
  | None => name_growth T name + 12 + aligned_len val
  end.

(** A new property with its value. *)
Lemma add_value b l1 nm ps nps subs l2 name y val z :
  at_node b l1 nm ps nps subs l2 -> is_str name -> bytes val -> Z.of_nat (length val) < 2 ^ 30 ->
  let need := name_growth (b_strings b) name + 12 + aligned_len val in
  exists b1 err p,
    _fdt_add_property (flat b) (size_of l1) (name ++ 0 :: y) (Z.of_nat (length val)) = Some (err, flat b1, p) /\
    if b_total b <? data_size b + need then
      err = - FDT_ERR_NOSPACE /\ extends b b1 /\ at_node b1 l1 nm ps nps subs l2 /\ b_struct b1 = b_struct b
    else err = 0 /\ exists q b' o, p = Some q
      /\ copy_in (flat b1) (q + PROP_SIZE) (val ++ z) (Z.of_nat (length val)) = Some (flat b')
      /\ extends b b' /\ at_node b' l1 nm ((o, val) :: ps) ((name, val) :: nps) subs l2
      /\ data_size b' = data_size b + need.
Proof.
  intros H Hn HB Hlen need. pose proof H as [W _ Hg Hnames]. destruct (aligned_len_bounds val) as [Hal _]; [lia|].
  pose proof (add_property_ok b l1 nm ps nps subs l2 name y (Z.of_nat (length val)) H Hn ltac:(lia)) as Ha.
  fold (aligned_len val) in Ha. fold need in Ha. destruct (Z.ltb_spec (b_total b) (data_size b + need)) as [|Hok].
  { destruct Ha as (b' & p & Ha & H1 & H2 & H3). by exists b', (- FDT_ERR_NOSPACE), p. }
  destruct Ha as (b1 & o & A & G & B & Ha & W1 & He & E & HG & Ht & HA & HBl & Hd).
  exists b1, 0, (Some (off_struct b1 + Z.of_nat (length A))). split; [done|]. split; [done|].
  eexists _, _, o. split; [done|].
  destruct (fill_value b1 W1 A (prop_hdr (Z.of_nat (length val)) o) G B val z
    (off_struct b1 + Z.of_nat (length A) + PROP_SIZE) (Z.of_nat (length val)) E) as (W2 & Hx2 & Hc);
    [rewrite length_prop_hdr; done|done|lia|done|].
  split; [exact Hc|]. split; [|split].
  - eapply extends_trans; [exact He|exact Hx2].
  - apply (prop_join _ l1 nm [] o val ps _ subs l2 A (drop (length val) G) B W2); cbn [app]; try done.
    + rewrite length_app, length_drop. lia.
    + cbn [prop_items map]. by rewrite app_nil_r.
    + destruct (in_table_bound _ _ _ Ht). pose proof (wf_len b1 W1) as Hl1. pose proof (length_flat b1) as Hf.
      unfold data_size, off_strings, off_struct, HDR_SIZE in Hf. lia.
    + constructor; [done|]. destruct He as [_ _ _ _ _ [T ET] _]. cbn [with_struct b_strings]. rewrite ET. by apply names_app.
  - rewrite <- Hd. unfold data_size, off_strings, off_struct. cbn [with_struct b_struct b_strings b_gap b_rsv].
    rewrite E, !length_app, length_drop. lia.
Qed.

Lemma fdt_setprop_spec b l1 nm ps nps subs l2 name y val z :
  at_node b l1 nm ps nps subs l2 -> is_str name -> bytes val -> Z.of_nat (length val) < 2 ^ 30 ->
  exists err b', fdt_setprop (flat b) (size_of l1) (name ++ 0 :: y) (val ++ z) (Z.of_nat (length val)) = Some (err, flat b')
    /\ extends b b' /\
  if b_total b <? data_size b + set_growth (b_strings b) name val nps then
    err = - FDT_ERR_NOSPACE /\ at_node b' l1 nm ps nps subs l2 /\ b_struct b' = b_struct b
  else err = 0 /\ (exists ps', at_node b' l1 nm ps' (set_prop name val nps) subs l2)
    /\ data_size b' = data_size b + set_growth (b_strings b) name val nps.
Proof.
  intros H Hn HB Hlen. pose proof H as [W _ _ _]. unfold fdt_setprop. rewrite (rw_check_bind b W).
  unfold _fdt_resize_property. pose proof (get_property_spec_at b l1 nm ps nps subs l2 name y H Hn) as Hget.
  unfold set_growth, set_prop. destruct (assoc name nps) as [v|] eqn:Ea.
  - destruct Hget as (ps1 & o & ps2 & nps1 & nps2 & -> & -> & Hn1 & Hn2 & Ht & Ha & Hget).
    rewrite Hget. cbn [mbind option_bind]. fold (aligned_len v) (aligned_len val).
    pose proof (rewrite_value b l1 nm ps1 o v ps2 nps1 name nps2 subs l2 [] val z H Hn1 Hn2 Hn Ht
      ltac:(by left) HB Hlen) as Hr. cbn [app length] in Hr. cbv zeta in Hr.
    destruct (Z.ltb_spec (b_total b) (data_size b + (aligned_len val - aligned_len v))) as [|Hok].
    + rewrite Hr. cbn [mbind option_bind]. change (- FDT_ERR_NOSPACE =? - FDT_ERR_NOTFOUND) with false. cbn iota.
      cbn [mbind option_bind]. change (negb (- FDT_ERR_NOSPACE =? 0)) with true. cbn iota.
      eexists _, b. split; [done|]. split; [apply extends_refl|done].
    + destruct Hr as (b1 & b' & Hk & Hc & He & Hat & Hd). rewrite Hk. cbn [mbind option_bind].
      change (0 =? - FDT_ERR_NOTFOUND) with false. cbn [mbind option_bind Z.eqb negb].
      rewrite Z.add_0_r in Hc. rewrite Hc. cbn [mbind option_bind].
      eexists _, b'. split; [done|]. split; [done|]. split; [done|]. split; [|done].
      rewrite update_split by done. eauto.
  - rewrite Hget. cbn [mbind option_bind]. rewrite Z.eqb_refl.
    destruct (add_value b l1 nm ps nps subs l2 name y val z H Hn HB Hlen) as (b1 & err & p & Hadd & Hcase).
    rewrite Hadd. cbn [mbind option_bind].
    destruct (Z.ltb_spec (b_total b) (data_size b + (name_growth (b_strings b) name + 12 + aligned_len val))) as [|Hok].
    + destruct Hcase as (-> & He & Hat & Hs). change (negb (- FDT_ERR_NOSPACE =? 0)) with true. cbn iota.
      by eexists _, b1.
    + destruct Hcase as (-> & q & b' & o & -> & Hc & He & Hat & Hd). cbn [mbind option_bind Z.eqb negb].
      rewrite Hc. cbn [mbind option_bind]. eexists _, b'. split; [done|]. split; [done|]. eauto.
Qed.

(** C27: [fdt_setprop] at a node of an encoded tree.  When the blob has room
    for what the property grows by, it returns 0 and the blob encodes the tree
    in which the node's first property of that name has the new value, or in
    which the property is the node's first when there was none; nothing else
    of the tree changes.  Otherwise it returns -FDT_ERR_NOSPACE and the
    structure block is as it was.  In both cases the string table is only
    extended and the rest of the blob stays. *)
Theorem fdt_setprop_correct b l1 nm ps nps subs l2 name y val z :
  at_node b l1 nm ps nps subs l2 -> is_str name -> bytes val -> Z.of_nat (length val) < 2 ^ 30 ->
  exists err b', fdt_setprop (flat b) (size_of l1) (name ++ 0 :: y) (val ++ z) (Z.of_nat (length val)) = Some (err, flat b')
    /\ extends b b' /\
  if b_total b <? data_size b + set_growth (b_strings b) name val nps then
    err = - FDT_ERR_NOSPACE /\ at_node b' l1 nm ps nps subs l2 /\ b_struct b' = b_struct b
  else err = 0 /\ (exists ps', at_node b' l1 nm ps' (set_prop name val nps) subs l2)
    /\ data_size b' = data_size b + set_growth (b_strings b) name val nps.
Proof. apply fdt_setprop_spec. Qed.

(** What [fdt_getprop] gives a caller: the bytes of the value. *)
Definition read_prop (fdt : list Z) (nodeoffset : Z) (name : list Z) : option (option (list Z)) :=
  '(p, len) ← fdt_getprop fdt nodeoffset name;
  Some (option_map (fun p => take (Z.to_nat len) (drop (Z.to_nat p) fdt)) p).

Lemma read_prop_at b l1 nm ps nps subs l2 name y :
  at_node b l1 nm ps nps subs l2 -> is_str name ->
  read_prop (flat b) (size_of l1) (name ++ 0 :: y) = Some (assoc name nps).
Proof.
  intros H Hn. pose proof (getprop_spec_at b l1 nm ps nps subs l2 name y H Hn) as Hg. unfold read_prop.
  destruct (assoc name nps) as [v|]; [|by rewrite Hg]. destruct Hg as (p & -> & Hv).
  cbn [mbind option_bind option_map]. by rewrite Nat2Z.id, Hv.
Qed.

(** Reading after setting.  When [fdt_setprop] returned 0, [fdt_getprop]
    at the node gives the bytes that were set under that name, and under
    every other name what it gave before. *)
Theorem fdt_setprop_getprop b l1 nm ps nps subs l2 name y val z fdt' :
  at_node b l1 nm ps nps subs l2 -> is_str name -> bytes val -> Z.of_nat (length val) < 2 ^ 30 ->
  fdt_setprop (flat b) (size_of l1) (name ++ 0 :: y) (val ++ z) (Z.of_nat (length val)) = Some (0, fdt') ->
  forall n x, is_str n ->
    read_prop fdt' (size_of l1) (n ++ 0 :: x)
    = if bool_decide (name = n) then Some (Some val) else read_prop (flat b) (size_of l1) (n ++ 0 :: x).
Proof.
  intros H Hn HB Hlen Hset m x Hm.
  destruct (fdt_setprop_spec b l1 nm ps nps subs l2 name y val z H Hn HB Hlen) as (err & b' & E & _ & Hcase).
  rewrite E in Hset. injection Hset as -> <-. destruct (_ <? _); [by destruct Hcase as [? _]|].
  destruct Hcase as (_ & (ps' & Hat) & _). rewrite (read_prop_at b l1 nm ps nps subs l2) by done.
  rewrite (read_prop_at b' l1 nm ps' _ subs l2 m x Hat Hm), assoc_set_prop. by case_bool_decide.
Qed.

(** [fdt_appendprop] likewise: the value grows by the new bytes. *)
Theorem fdt_appendprop_correct b l1 nm ps nps subs l2 name y val z :
  at_node b l1 nm ps nps subs l2 -> is_str name -> bytes val ->
  Z.of_nat (length (default [] (assoc name nps) ++ val)) < 2 ^ 30 ->
  exists err b', fdt_appendprop (flat b) (size_of l1) (name ++ 0 :: y) (val ++ z) (Z.of_nat (length val)) = Some (err, flat b')
    /\ extends b b' /\
  if b_total b <? data_size b + append_growth (b_strings b) name val nps then
    err = - FDT_ERR_NOSPACE /\ at_node b' l1 nm ps nps subs l2 /\ b_struct b' = b_struct b
  else err = 0 /\ (exists ps', at_node b' l1 nm ps' (append_prop name val nps) subs l2)
    /\ data_size b' = data_size b + append_growth (b_strings b) name val nps.
Proof.
  intros H Hn HB Hlen. pose proof H as [W _ _ _]. unfold fdt_appendprop. rewrite (rw_check_bind b W).
  pose proof (get_property_spec_at b l1 nm ps nps subs l2 name y H Hn) as Hget.
  unfold append_growth, append_prop. destruct (assoc name nps) as [v|] eqn:Ea; cbn [default from_option id] in Hlen.
  - destruct Hget as (ps1 & o & ps2 & nps1 & nps2 & -> & -> & Hn1 & Hn2 & Ht & Ha & Hget).
    rewrite Hget. cbn [mbind option_bind].
    replace (s32 (Z.of_nat (length val) + Z.of_nat (length v))) with (Z.of_nat (length (v ++ val)))
      by (rewrite length_app in Hlen |- *; rewrite s32_small by lia; lia).
    fold (aligned_len v) (aligned_len (v ++ val)).
    pose proof (rewrite_value b l1 nm ps1 o v ps2 nps1 name nps2 subs l2 v val z H Hn1 Hn2 Hn Ht
      ltac:(by right) HB Hlen) as Hr. cbv zeta in Hr.
    destruct (Z.ltb_spec (b_total b) (data_size b + (aligned_len (v ++ val) - aligned_len v))) as [|Hok].
    + rewrite Hr. eexists _, b. split; [done|]. split; [apply extends_refl|done].
    + destruct Hr as (b1 & b' & Hk & Hc & He & Hat & Hd). rewrite Hk, Hc. cbn [mbind option_bind].
      eexists _, b'. split; [done|]. split; [done|]. split; [done|]. split; [|done].
      rewrite update_split by done. eauto.
  - rewrite Hget. cbn [mbind option_bind].
    destruct (add_value b l1 nm ps nps subs l2 name y val z H Hn HB Hlen) as (b1 & err & p & Hadd & Hcase).
    rewrite Hadd. cbn [mbind option_bind].
    destruct (Z.ltb_spec (b_total b) (data_size b + (name_growth (b_strings b) name + 12 + aligned_len val))) as [|Hok].
    + destruct Hcase as (-> & He & Hat & Hs). change (negb (- FDT_ERR_NOSPACE =? 0)) with true. cbn iota.
      by eexists _, b1.
    + destruct Hcase as (-> & q & b' & o & -> & Hc & He & Hat & Hd). cbn [mbind option_bind Z.eqb negb].
      rewrite Hc. cbn [mbind option_bind]. eexists _, b'. split; [done|]. split; [done|]. eauto.
Qed.

(** ** Deleting a property *)

(** The node after a cut in its items. *)
Lemma at_node_cut b l1 nm ps nps subs l2 ps' subs' nps' A O B :
  at_node b l1 nm ps nps subs l2 -> b_struct b = A ++ O ++ B ->
  (exists la lb, encodes la A /\ block_of lb B /\ la ++ lb = l1 ++ items (Node nm ps' subs') ++ l2) ->
  Forall good_item (l1 ++ items (Node nm ps' subs') ++ l2) -> names (b_strings b) ps' nps' ->
  exists b', _fdt_splice_struct (flat b) (off_struct b + Z.of_nat (length A)) (Z.of_nat (length O)) 0 = Some (0, flat b')
    /\ extends b b' /\ at_node b' l1 nm ps' nps' subs' l2
    /\ data_size b' = data_size b - Z.of_nat (length O).
Proof.
  intros [W _ _ _] E (la & lb & HA & HB & Ei) Hg Hn. pose proof (wf_total b W) as Ht.
  destruct (splice_struct_ok b W A O B _ 0 E eq_refl) as (G & F & HG & _ & Hw & Hx & Hsp); [lia|].
  destruct G; [|done]. cbn [app] in *. exists (with_struct b (A ++ B) F).
  split_and!; [exact Hsp|exact Hx| |].
  - split; [done| |done|done]. cbn [with_struct b_struct]. rewrite <- Ei. apply block_of_app. eauto.
  - unfold data_size, off_strings, off_struct. cbn [with_struct b_struct b_strings b_gap b_rsv].
    rewrite E, !length_app. lia.
Qed.

(** [fdt_delprop] at a node of an encoded tree removes the node's first
    property of that name and nothing else, and needs no room; without such a
    property it returns -FDT_ERR_NOTFOUND and changes nothing. *)
Theorem fdt_delprop_correct b l1 nm ps nps subs l2 name y :
  at_node b l1 nm ps nps subs l2 -> is_str name ->
  match assoc name nps with
  | Some v => exists b' ps', fdt_delprop (flat b) (size_of l1) (name ++ 0 :: y) = Some (0, flat b')
      /\ extends b b' /\ at_node b' l1 nm ps' (del_prop name nps) subs l2
      /\ data_size b' = data_size b - (12 + aligned_len v)
  | None => fdt_delprop (flat b) (size_of l1) (name ++ 0 :: y) = Some (- FDT_ERR_NOTFOUND, flat b)
  end.
Proof.
  intros H Hn. pose proof H as [W _ Hg _]. unfold fdt_delprop. rewrite (rw_check_bind b W).
  pose proof (get_property_spec_at b l1 nm ps nps subs l2 name y H Hn) as Hget.
  destruct (assoc name nps) as [v|]; [|by rewrite Hget].
  destruct Hget as (ps1 & o & ps2 & nps1 & nps2 & -> & -> & Hn1 & Hn2 & _ & Ha & Hget).
  rewrite Hget. cbn [mbind option_bind].
  destruct (prop_split b l1 nm ps1 o v ps2 _ subs l2 H) as (A & g & B & E & HA & Hgl & HEA & HEB).
  destruct (at_node_cut b l1 nm _ _ subs l2 (ps1 ++ ps2) subs (nps1 ++ nps2) A _ B H E) as (b' & Hsp & He & Hat & Hd).
  - eexists _, _. split; [exact HEA|]. split; [exact HEB|]. rewrite node_items. unfold prop_items. rewrite map_app.
    by rewrite <- !app_assoc.
  - by eapply good_props.
  - by apply Forall2_app.
  - rewrite !length_app, length_prop_hdr in Hsp, Hd. rewrite length_app in Hgl.
    exists b', (ps1 ++ ps2). split_and!; [|done| |lia].
    + rewrite <- HA, <- Hsp. f_equal. fold (aligned_len v). unfold PROP_SIZE. rewrite s32_small; [lia|].
      pose proof (wf_len b W) as Hl1. pose proof (length_flat b) as Hf. unfold data_size, off_strings, off_struct, HDR_SIZE in Hf.
      rewrite E, !length_app, length_prop_hdr in Hf. lia.
    + unfold del_prop. by rewrite update_split.
Qed.

(** ** Adding a node *)

Section Walk.
Context (pre S post : list Z) (L : layout pre S post).

Lemma skip_props_spec ps : forall A rest fuel S',
  block_of (prop_items ps ++ rest) S' -> S = A ++ S' -> (4 | Z.of_nat (length A)) ->
  Forall good_item (prop_items ps ++ rest) -> no_prop rest -> (length ps < fuel)%nat ->
  skip_props fuel (pre ++ S ++ post) (Z.of_nat (length A)) = Some (Z.of_nat (length A) + size_of (prop_items ps)).
Proof using L.
  induction ps as [|[o v] ps IH]; intros A rest [|fuel] S' HS E Hdiv Hg Hr Hf; cbn [length] in Hf; try lia.
  - cbn [prop_items map app] in HS, Hg. destruct rest as [|t rest]; [done|].
    apply Forall_cons_1 in Hg as [Ht _]. apply block_of_cons in HS as (e & S1 & He & _ & ->).
    cbn [skip_props]. rewrite (next_tag_item pre S post L A t e S1) by done. cbn [mbind option_bind].
    assert ((tag_of t =? FDT_PROP) || (tag_of t =? FDT_NOP) = false) as -> by (by destruct t).
    f_equal. unfold size_of. cbn [encs map concat length prop_items]. lia.
  - cbn [prop_items map app] in HS, Hg. fold (prop_items ps) in HS, Hg.
    apply Forall_cons_1 in Hg as [Ht Hg]. cbn [fst snd] in *.
    apply block_of_cons in HS as (e & S1 & He & HS1 & ->). cbn [skip_props].
    rewrite (next_tag_item pre S post L A (IProp o v) e S1) by done. cbn [mbind option_bind tag_of].
    change ((FDT_PROP =? FDT_PROP) || (FDT_PROP =? FDT_NOP)) with true. cbn iota. rewrite <- length_app.
    rewrite (IH (A ++ e) rest fuel S1); try done; try lia.
    + f_equal. destruct He as (_ & _ & He). cbn [prop_items map fst snd]. fold (prop_items ps).
      rewrite size_of_cons, length_app. lia.
    + by rewrite <- app_assoc.
    + by apply (snoc_div A (IProp o v)).
Qed.

End Walk.

Lemma behind_no_prop subs l2 : no_prop (behind subs l2).
Proof. unfold behind, forest. by destruct subs as [|[] ?]. Qed.

(** The bytes of a node without content. *)
Definition name_size (name : str) : Z := FDT_TAGALIGN (Z.of_nat (length name) + 1).

Definition node_bytes (name : str) : list Z :=
  be_bytes 4 FDT_BEGIN_NODE ++ (name ++ replicate (Z.to_nat (name_size name) - length name) 0) ++ be_bytes 4 FDT_END_NODE.

Lemma name_size_bounds name : Z.of_nat (length name) < 2 ^ 30 ->
  Z.of_nat (length name) + 1 <= name_size name < Z.of_nat (length name) + 5 /\ (4 | name_size name).
Proof. intros H. destruct (tagalign_bounds (Z.of_nat (length name) + 1)) as [? ?]; [lia|]. unfold name_size. split; [lia|done]. Qed.

Lemma length_node_bytes name : Z.of_nat (length name) < 2 ^ 30 ->
  Z.of_nat (length (node_bytes name)) = 8 + name_size name.
Proof.
  intros H. destruct (name_size_bounds name H). unfold node_bytes.
  rewrite !length_app, !length_be_bytes, length_replicate. lia.
Qed.

Lemma encodes_node_bytes name : Z.of_nat (length name) < 2 ^ 30 -> encodes (items (Node name [] [])) (node_bytes name).
Proof.
  intros H. destruct (name_size_bounds name H) as [Hb [q Hq]]. unfold node_bytes. rewrite app_assoc.
  cbn [items prop_items map concat app]. constructor.
  - destruct (length_enc (IBegin name)) as (k & Hk & Hl). cbn [body] in Hl. rewrite length_app in Hl. cbn [length] in Hl.
    exists (replicate (Z.to_nat (name_size name) - length name - 1) 0). split.
    + cbn [tag_of body]. rewrite <- !app_assoc. do 2 f_equal.
      destruct (Z.to_nat (name_size name) - length name)%nat as [|j] eqn:Ej; [lia|].
      cbn [replicate app Nat.sub]. by rewrite Nat.sub_0_r.
    + rewrite !length_app, length_be_bytes, length_replicate. lia.
  - apply encodes_single. exists []. split; [reflexivity|by rewrite length_be_bytes].
Qed.

(** A new node written into the gap behind the parent's properties. *)
Lemma write_node b (W : wf b) A B name y :
  b_struct b = A ++ B -> Z.of_nat (length name) < 2 ^ 30 -> is_str name ->
  let nh := off_struct b + Z.of_nat (length A) in
  let nodelen := 8 + name_size name in
  let step k := on_ok (_fdt_splice_struct (flat b) nh 0 nodelen) (fun fdt =>
      fdt ← wr32 fdt nh FDT_BEGIN_NODE;
      fdt ← FdtQuery.store fdt (nh + 4) (replicate (Z.to_nat (name_size name)) 0);
      fdt ← copy_in fdt (nh + 4) (name ++ y) (Z.of_nat (length name));
      fdt ← wr32 fdt (nh + nodelen - FDT_TAGSIZE) FDT_END_NODE;
      k fdt) in
  if b_total b <? data_size b + nodelen then forall k, step k = Some (- FDT_ERR_NOSPACE, flat b)
  else exists F, let b' := with_struct b (A ++ node_bytes name ++ B) F in
    wf b' /\ extends b b' /\ (forall k, step k = k (flat b')).
Proof.
  intros E Hl Hs nh nodelen step. destruct (name_size_bounds name Hl) as [Hb _].
  assert (E0 : b_struct b = A ++ [] ++ B) by done.
  destruct (Z.ltb_spec (b_total b) (data_size b + nodelen)) as [Hns|Hok].
  { intros k. unfold step, on_ok.
    by rewrite (splice_struct_full b W A [] B nh nodelen E0 eq_refl
      ltac:(unfold nodelen; lia) ltac:(cbn [length]; lia) : _fdt_splice_struct _ _ 0 _ = _). }
  destruct (splice_struct_ok b W A [] B nh (Z.to_nat nodelen) E0 eq_refl) as (G & F & HG & _ & W1 & Hx & Hsp);
    [cbn [length]; unfold nodelen in *; lia|].
  rewrite Z2Nat.id in Hsp by (unfold nodelen; lia). change (Z.of_nat (length [])) with 0 in Hsp.
  set (b1 := with_struct b (A ++ G ++ B) F) in *.
  set (ns := Z.to_nat (name_size name)).
  assert (exists g1 g2 g3, G = g1 ++ g2 ++ g3 /\ length g1 = 4%nat /\ length g2 = ns /\ length g3 = 4%nat)
    as (g1 & g2 & g3 & EG & L1 & L2 & L3).
  { exists (take 4 G), (take ns (drop 4 G)), (drop ns (drop 4 G)). rewrite !take_drop.
    rewrite !length_take, !length_drop. unfold nodelen in HG. split; [done|]. lia. }
  assert (E1 : b_struct b1 = A ++ g1 ++ g2 ++ g3 ++ B)
    by (unfold b1; cbn [with_struct b_struct]; rewrite EG; by rewrite <- !app_assoc).
  exists F. split.
  { replace (A ++ node_bytes name ++ B) with (A ++ node_bytes name ++ B) by done.
    apply (wf_store_struct b1 W1 A G); [done|pose proof (length_node_bytes name Hl); unfold nodelen in HG; lia|].
    unfold node_bytes. rewrite !Forall_app. split_and!; try apply be_bytes_bytes.
    - eapply Forall_impl; [exact Hs|]. intros c Hc. cbn beta in Hc. unfold in_word. lia.
    - apply Forall_replicate. by unfold in_word. }
  split.
  { eapply extends_trans; [exact Hx|]. apply (extends_same b1). unfold b1. cbn [with_struct b_struct].
    pose proof (length_node_bytes name Hl). unfold nodelen in HG. rewrite !length_app. lia. }
  intros k. unfold step, on_ok. rewrite Hsp. cbn [mbind option_bind Z.eqb negb]. fold b1.
  assert (Eo : nh = HDR_SIZE + Z.of_nat (length (b_rsv b1)) + Z.of_nat (length A)) by done.
  rewrite (wr32_struct b1 A g1 _ nh FDT_BEGIN_NODE E1) by done. cbn [mbind option_bind].
  rewrite (store_struct _ (A ++ be_bytes 4 FDT_BEGIN_NODE) g2 (g3 ++ B));
    [|cbn [with_struct b_struct]; by rewrite <- !app_assoc
     |rewrite Eo, !length_app, length_be_bytes; unfold off_struct; cbn [with_struct b_rsv]; lia
     |rewrite length_replicate; done].
  cbn [mbind option_bind with_struct b_total b_rsvmap b_cpu b_rsv b_gap b_strings b_struct b_free].
  rewrite (copy_struct _ (A ++ be_bytes 4 FDT_BEGIN_NODE) (replicate ns 0) (g3 ++ B));
    [|cbn [with_struct b_struct]; by rewrite <- !app_assoc
     |rewrite Eo, !length_app, length_be_bytes; unfold off_struct; cbn [with_struct b_rsv]; lia
     |done|rewrite length_replicate; unfold ns; lia].
  cbn [mbind option_bind with_struct b_total b_rsvmap b_cpu b_rsv b_gap b_strings b_struct b_free].
  rewrite drop_replicate.
  rewrite (wr32_struct _ (A ++ be_bytes 4 FDT_BEGIN_NODE ++ name ++ replicate (ns - length name) 0) g3 B);
    [|cbn [with_struct b_struct]; by rewrite <- !app_assoc
     |rewrite Eo, !length_app, length_be_bytes, length_replicate; unfold off_struct, nodelen, FDT_TAGSIZE, ns; cbn [with_struct b_rsv]; lia
     |done].
  cbn [mbind option_bind with_struct b_total b_rsvmap b_cpu b_rsv b_gap b_strings b_struct b_free].
  do 2 f_equal. unfold node_bytes, with_struct. by rewrite <- !app_assoc.
Qed.

Lemma find_sub_offset name subs : forall off o n, 0 <= off -> find_sub name subs off = Some (o, n) -> 0 <= o.
Proof.
  induction subs as [|c subs IH]; intros off o n Ho; cbn [find_sub]; [done|].
  destruct (name_match _ _); [by intros [= <- _]|]. apply IH. unfold size_of. lia.
Qed.

Lemma node_items_behind l1 nm ps subs l2 :
  l1 ++ items (Node nm ps subs) ++ l2 = (l1 ++ IBegin nm :: prop_items ps) ++ behind subs l2.
Proof. rewrite node_items, app_assoc. f_equal. by rewrite <- app_assoc. Qed.

Lemma fdt_add_subnode_spec b l1 nm ps nps subs l2 name y :
  at_node b l1 nm ps nps subs l2 -> is_str name -> Z.of_nat (length name) < 2 ^ 30 ->
  match find_sub name subs (subs_at (size_of l1) nm ps) with
  | Some _ => fdt_add_subnode (flat b) (size_of l1) (name ++ 0 :: y) = Some (- FDT_ERR_EXISTS, flat b)
  | None =>
      if b_total b <? data_size b + (8 + name_size name)
      then fdt_add_subnode (flat b) (size_of l1) (name ++ 0 :: y) = Some (- FDT_ERR_NOSPACE, flat b)
      else exists b', fdt_add_subnode (flat b) (size_of l1) (name ++ 0 :: y) = Some (subs_at (size_of l1) nm ps, flat b')
        /\ extends b b' /\ at_node b' l1 nm ps nps (Node name [] [] :: subs) l2
        /\ data_size b' = data_size b + (8 + name_size name)
  end.
Proof.
  intros H Hn Hlen. pose proof H as [W Hb Hg Hnames]. unfold fdt_add_subnode, fdt_add_subnode_namelen.
  rewrite strlen_cstr by done. cbn [mbind option_bind]. rewrite (rw_check_bind b W).
  pose proof (subnode_namelen_spec _ _ _ _ _ _ _ _ name (0 :: y) (at_node_holds _ _ _ _ _ _ _ H) Hn Hlen) as Hsub.
  fold (flat b) in Hsub. rewrite Hsub. cbn [mbind option_bind].
  assert (Hoff : 0 <= subs_at (size_of l1) nm ps) by (unfold subs_at, size_of; lia).
  destruct (find_sub name subs _) as [[o n]|] eqn:Hf; cbn [from_option fst].
  { pose proof (find_sub_offset _ _ _ _ _ Hoff Hf). by destruct (Z.leb_spec 0 o); [|lia]. }
  change (0 <=? - FDT_ERR_NOTFOUND) with false. cbn iota. rewrite Z.eqb_refl. cbn [negb].
  rewrite node_items, <- app_assoc in Hb, Hg. cbn [app] in Hb, Hg.
  destruct (split_item _ _ _ _ Hb) as (A0 & e & B & HA & He & HB & E & Hl & Hdiv & Hle).
  apply Forall_app in Hg as [Hg1 [Hnm Hg2]%Forall_cons_1].
  pose proof (next_tag_item _ _ _ (wf_layout b W) A0 (IBegin nm) e B E He Hdiv Hnm) as Htag.
  fold (flat b) in Htag. rewrite <- Hl, Htag. cbn [mbind option_bind]. rewrite <- length_app.
  assert (E2 : b_struct b = (A0 ++ e) ++ B) by (by rewrite <- app_assoc).
  pose proof (skip_props_spec _ _ _ (wf_layout b W) ps (A0 ++ e) (behind subs l2) (length (flat b) + 1) B HB E2
    (snoc_div _ _ _ He Hdiv) Hg2 (behind_no_prop subs l2)) as Hskip. fold (flat b) in Hskip.
  rewrite Hskip.
  2: { apply block_of_length in HB. destruct (length_encs (prop_items ps ++ behind subs l2)) as [_ Hll].
       rewrite length_app in Hll. unfold prop_items in Hll at 1. rewrite length_map in Hll.
       unfold flat. rewrite !length_app, E, !length_app. lia. }
  cbn [mbind option_bind]. unfold _fdt_offset_ptr. rewrite hdr_off_struct by done. cbn [mbind option_bind].
  apply block_of_app in HB as (Bp & Br & HBp & HBr & ->).
  assert (Eps : size_of (prop_items ps) = Z.of_nat (length Bp)) by (unfold size_of; by rewrite (encodes_length _ _ HBp)).
  assert (E3 : b_struct b = ((A0 ++ e) ++ Bp) ++ Br) by (rewrite E; by rewrite <- !app_assoc).
  assert (Esub : subs_at (Z.of_nat (length A0)) nm ps = Z.of_nat (length ((A0 ++ e) ++ Bp)))
    by (unfold subs_at; rewrite !length_app; lia).
  destruct (name_size_bounds name Hlen) as [Hns _].
  fold (name_size name). unfold NODE_SIZE, FDT_TAGSIZE. rewrite s32_small by lia.
  replace (4 + name_size name + 4) with (8 + name_size name) by lia.
  rewrite Eps, <- Nat2Z.inj_add, <- length_app.
  pose proof (write_node b W _ Br name (0 :: y) E3 Hlen Hn) as Hw. cbv zeta in Hw. unfold FDT_TAGSIZE in Hw.
  destruct (Z.ltb_spec (b_total b) (data_size b + (8 + name_size name))) as [|Hok]; [by rewrite Hw|].
  destruct Hw as (F & W' & Hx & Hw). rewrite Hw, Esub. eexists. split; [done|]. split; [exact Hx|]. split.
  - split; [done| | |done].
    + rewrite node_items_behind. cbn [with_struct b_struct]. apply block_of_app. eexists _, _. split; [|split; [|done]].
      * change (IBegin nm :: prop_items ps) with ([IBegin nm] ++ prop_items ps). apply encodes_app.
        exists A0, (e ++ Bp). split; [done|]. split; [by constructor|]. by rewrite <- app_assoc.
      * unfold behind, forest. cbn [map concat]. rewrite <- app_assoc. apply block_of_app.
        eexists _, _. split; [by apply encodes_node_bytes|]. by split.
    + rewrite node_items, <- app_assoc. apply Forall_app. split; [done|]. cbn [app]. constructor; [done|].
      apply Forall_app in Hg2 as [Hp Hr]. apply Forall_app. split; [done|].
      unfold behind, forest. cbn [map concat items app prop_items]. constructor; [done|]. constructor; done.
  - unfold data_size, off_strings, off_struct. cbn [with_struct b_struct b_strings b_gap b_rsv].
    pose proof (length_node_bytes name Hlen). rewrite E3, !length_app in *. lia.
Qed.

(** C28: [fdt_add_subnode] at a node of an encoded tree returns -FDT_ERR_EXISTS
    when a direct subnode matches the name, -FDT_ERR_NOSPACE when the empty
    node does not fit, both with the blob as it was, and otherwise the offset
    at which the blob now has an empty node of that name, the first subnode
    of its parent; the rest of the tree is unchanged. *)
Theorem fdt_add_subnode_correct b l1 nm ps nps subs l2 name y :
  at_node b l1 nm ps nps subs l2 -> is_str name -> Z.of_nat (length name) < 2 ^ 30 ->
  match find_sub name subs (subs_at (size_of l1) nm ps) with
  | Some _ => fdt_add_subnode (flat b) (size_of l1) (name ++ 0 :: y) = Some (- FDT_ERR_EXISTS, flat b)
  | None =>
      if b_total b <? data_size b + (8 + name_size name)
      then fdt_add_subnode (flat b) (size_of l1) (name ++ 0 :: y) = Some (- FDT_ERR_NOSPACE, flat b)
      else exists b', fdt_add_subnode (flat b) (size_of l1) (name ++ 0 :: y) = Some (subs_at (size_of l1) nm ps, flat b')
        /\ extends b b' /\ at_node b' l1 nm ps nps (Node name [] [] :: subs) l2
        /\ data_size b' = data_size b + (8 + name_size name)
  end.
Proof. apply fdt_add_subnode_spec. Qed.

(** ** Deleting a node *)

(** Where the bracket that is [d] deep closes, [d] counted from the node. *)
Fixpoint closing (l : list item) (off d : Z) : Z :=
  match l with
  | [] => - FDT_ERR_NOTFOUND
  | t :: l =>
      let off := off + Z.of_nat (length (enc t)) in
      match t with
      | IBegin _ => closing l off (d + 1)
      | IEnd => if d - 1 <? 0 then off else closing l off (d - 1)
      | _ => closing l off d
      end
  end.

Lemma closing_props ps l off d : closing (prop_items ps ++ l) off d = closing l (off + size_of (prop_items ps)) d.
Proof.
  revert off. induction ps as [|p ps IH]; intros off; [by rewrite Z.add_0_r|].
  cbn [prop_items map app closing]. fold (prop_items ps). rewrite IH, size_of_cons. f_equal. lia.
Qed.

Lemma closing_node n : forall l off d, 0 <= d -> closing (items n ++ l) off d = closing l (off + size_of (items n)) d.
Proof.
  induction n as [s ps subs IH] using node_induction. intros l off d Hd. cbn [items app closing].
  rewrite <- !app_assoc, closing_props.
  assert (Hsubs : forall off r, closing (concat (map items subs) ++ r) off (d + 1)
    = closing r (off + size_of (concat (map items subs))) (d + 1)).
  { clear off. induction IH as [|c subs Hc _ IHs]; intros off r; cbn [map concat]; [by rewrite Z.add_0_r|].
    rewrite <- app_assoc, Hc, IHs, size_of_app by lia. f_equal. lia. }
  rewrite Hsubs. cbn [app closing]. destruct (Z.ltb_spec (d + 1 - 1) 0); [lia|].
  rewrite size_of_cons, !size_of_app. change (size_of [IEnd]) with (Z.of_nat (length (enc IEnd))).
  f_equal; lia.
Qed.

Lemma closing_behind subs l off :
  closing (behind subs l) off 0 = off + size_of (forest subs ++ [IEnd]).
Proof.
  unfold behind. revert off. induction subs as [|c subs IH]; intros off.
  - cbn [forest map concat app closing]. reflexivity.
  - unfold forest in *. cbn [map concat]. rewrite <- !app_assoc, closing_node, IH, (size_of_app (items c)) by lia. lia.
Qed.

Section End_.
Context (pre S post : list Z) (L : layout pre S post).

Abbreviation fdt := (pre ++ S ++ post).

(** From inside a call of [fdt_next_node] to the end of the loop. *)
Definition continue_end (F fuel : nat) (off d : Z) : option Z :=
  '(o, dd) ← next_node_loop F fdt off (Some d); dd ← dd; node_end_loop fuel fdt o dd.

Lemma continue_end_spec l : forall A F fuel d S',
  block_of l S' -> S = A ++ S' -> (4 | Z.of_nat (length A)) -> Forall good_item l -> 0 <= d ->
  (length l < F)%nat -> (length l + 1 < fuel)%nat ->
  continue_end F fuel (Z.of_nat (length A)) d = Some (closing l (Z.of_nat (length A)) d).
Proof using L.
  induction l as [|t l IH]; intros A [|F] [|fuel] d S' HS E Hdiv Hg Hd HF Hfuel; cbn [length] in HF, Hfuel; try lia.
  - destruct HS as (E0 & H0 & ->). inversion H0; subst E0. cbn [app] in E.
    unfold continue_end. cbn [next_node_loop closing].
    rewrite (next_tag_end pre S post L A) by done. cbn [mbind option_bind].
    change (FDT_END =? FDT_BEGIN_NODE) with false. change (FDT_END =? FDT_END_NODE) with false.
    rewrite Z.eqb_refl. pose proof (fdt_length _ _ _ L) as Hlen.
    rewrite E, length_app, length_be_bytes in Hlen.
    destruct (tagalign_bounds (Z.of_nat (length A) + 4)) as [Hb _]; [lia|].
    destruct (Z.leb_spec 0 (FDT_TAGALIGN (Z.of_nat (length A) + 4))); [|lia]. by cbn [orb mbind option_bind].
  - apply Forall_cons_1 in Hg as [Ht Hg]. apply block_of_cons in HS as (e & S1 & He & HS1 & ->).
    assert (E2 : S = (A ++ e) ++ S1) by (by rewrite <- app_assoc).
    pose proof (snoc_div A t e He Hdiv) as Hdiv'.
    assert (Hlt : Z.of_nat (length A) + Z.of_nat (length (enc t)) = Z.of_nat (length (A ++ e)))
      by (destruct He as (? & _ & He); rewrite length_app; lia).
    unfold continue_end. cbn [next_node_loop closing]. rewrite (next_tag_item pre S post L A t e S1) by done.
    cbn [mbind option_bind]. rewrite <- length_app, Hlt.
    destruct t as [n|off v| |].
    + cbn [tag_of Z.eqb Pos.eqb FDT_BEGIN_NODE mbind option_bind option_map node_end_loop].
      destruct (Z.leb_spec 0 (Z.of_nat (length A))); [|lia].
      destruct (Z.leb_spec 0 (1 + d)); [|lia]. cbn [andb].
      unfold fdt_next_node_depth. rewrite (next_node_begin pre S post L A n e S1) by done.
      rewrite (Z.add_comm 1 d), option_bind_assoc. cbn beta.
      rewrite <- (IH (A ++ e) (length fdt + 1)%nat fuel (d + 1) S1); try done; try lia.
      * unfold continue_end. destruct (next_node_loop _ _ _ _) as [[o [dd|]]|]; done.
      * destruct (length_encs l) as [_ Hll]. apply block_of_length in HS1.
        apply (f_equal length) in E. rewrite !length_app in *. lia.
    + apply (IH (A ++ e) F _ d S1); done || lia.
    + cbn [tag_of Z.eqb Pos.eqb FDT_BEGIN_NODE FDT_END_NODE]. destruct (Z.ltb_spec (d - 1) 0).
      * cbn [mbind option_bind node_end_loop]. destruct (Z.leb_spec 0 (d - 1)); [lia|]. by rewrite andb_false_r.
      * apply (IH (A ++ e) F _ (d - 1) S1); done || lia.
    + apply (IH (A ++ e) F _ d S1); done || lia.
Qed.

End End_.

(** [fdt_del_node] at a node of an encoded tree removes exactly the items
    of that node, its subnodes included, needs no room and returns 0. *)
Theorem fdt_del_node_correct b l1 n l2 :
  wf b -> block_of (l1 ++ items n ++ l2) (b_struct b) -> Forall good_item (l1 ++ items n ++ l2) ->
  exists b', fdt_del_node (flat b) (size_of l1) = Some (0, flat b') /\ extends b b' /\ wf b'
    /\ block_of (l1 ++ l2) (b_struct b') /\ data_size b' = data_size b - size_of (items n).
Proof.
  intros W Hb Hg. destruct n as [nm ps subs]. unfold fdt_del_node. rewrite (rw_check_bind b W).
  pose proof (wf_total b W) as Ht.
  pose proof Hb as (A & Sn & HA & (N & B & HN & HB & ->)%block_of_app & E)%block_of_app.
  assert (EA : Z.of_nat (length A) = size_of l1) by (unfold size_of; by rewrite (encodes_length l1 A HA)).
  assert (EN : Z.of_nat (length N) = size_of (items (Node nm ps subs)))
    by (unfold size_of; by rewrite (encodes_length _ N HN)).
  assert (Hend : _fdt_node_end_offset (flat b) (Z.of_nat (length A)) = Some (Z.of_nat (length A) + Z.of_nat (length N))).
  { rewrite node_items, <- app_assoc in Hb, Hg. cbn [app] in Hb, Hg.
    destruct (split_item _ _ _ _ Hb) as (A0 & e & Sr & HA0 & He & HSr & E0 & Hl & Hdiv & Hle).
    apply Forall_app in Hg as [_ [Hnm Hg]%Forall_cons_1].
    assert (Hll : (length (prop_items ps ++ behind subs l2) + 4 < length (flat b))%nat).
    { destruct (length_encs (prop_items ps ++ behind subs l2)) as [_ Hll]. apply block_of_length in HSr.
      destruct (length_enc (IBegin nm)) as (k & Hk & Hk2). set (r := prop_items ps ++ behind subs l2) in *.
      unfold flat. rewrite !length_app, E0, !length_app. lia. }
    unfold _fdt_node_end_offset. rewrite Nat.add_comm. cbn [Nat.add node_end_loop].
    rewrite EA, <- Hl. destruct (Z.leb_spec 0 (Z.of_nat (length A0))); [|lia]. cbn [andb Z.leb Z.compare].
    unfold fdt_next_node_depth.
    pose proof (next_node_begin _ _ _ (wf_layout b W) A0 nm e Sr (Some 0) E0 He Hdiv Hnm) as Hnn. fold (flat b) in Hnn.
    rewrite Hnn, option_bind_assoc. cbn beta.
    assert (E2 : b_struct b = (A0 ++ e) ++ Sr) by (by rewrite <- app_assoc).
    pose proof (continue_end_spec _ _ _ (wf_layout b W) _ (A0 ++ e) (length (flat b) + 1) (Datatypes.S (length (flat b))) 0
      Sr HSr E2 (snoc_div _ _ _ He Hdiv) Hg ltac:(lia) ltac:(lia) ltac:(lia)) as Hc.
    fold (flat b) in Hc. unfold continue_end in Hc. fold (flat b) in Hc.
    rewrite closing_props, closing_behind in Hc.
    rewrite EN. unfold forest in Hc. cbn [items]. rewrite size_of_cons, !size_of_app in *.
    rewrite length_app in Hc at 2.
    transitivity (Some (Z.of_nat (length A0 + length e) + size_of (prop_items ps)
      + (size_of (concat (map items subs)) + size_of [IEnd]))); [|f_equal; lia].
    rewrite <- Hc. destruct (next_node_loop _ _ _ _) as [[o [dd|]]|]; done. }
  rewrite <- EA, Hend. cbn [mbind option_bind].
  destruct (Z.ltb_spec (Z.of_nat (length A) + Z.of_nat (length N)) 0); [lia|].
  unfold _fdt_offset_ptr. rewrite hdr_off_struct by done. cbn [mbind option_bind].
  replace (Z.of_nat (length A) + Z.of_nat (length N) - Z.of_nat (length A)) with (Z.of_nat (length N)) by lia.
  destruct (splice_struct_ok b W A N B _ 0 E eq_refl) as (G & F & HG & _ & Hw & Hx & Hsp); [lia|].
  destruct G; [|done]. cbn [app] in *. exists (with_struct b (A ++ B) F). split_and!.
  - rewrite s32_small; [exact Hsp|]. pose proof (wf_len b W) as Hl1. pose proof (length_flat b) as Hf.
    unfold data_size, off_strings, off_struct, HDR_SIZE in Hf. rewrite E, !length_app in Hf. lia.
  - exact Hx.
  - done.
  - apply block_of_app. cbn [with_struct b_struct]. eauto.
  - unfold data_size, off_strings, off_struct. cbn [with_struct b_struct b_strings b_gap b_rsv].
    rewrite E, !length_app. lia.
Qed.

(** ** A blob to apply the theorems to: the tree of FdtTree.v with some room *)

Definition sample_strings : list Z := cstr (bytes_of "ab") ++ cstr (bytes_of "default").

Definition sample_dtb (room : nat) : dtb :=
  Dtb (40 + 16 + Z.of_nat (length (block (items sample_tree)) + length sample_strings + room)) 40 0
    (replicate 16 0) (block (items sample_tree)) [] sample_strings (replicate room 0).

Lemma sample_wf room : (room <= 100)%nat -> wf (sample_dtb room).
Proof.
  intros Hr. pose proof (length_flat (sample_dtb room)) as Hl.
  assert (Hs : length (block (items sample_tree)) = 140%nat) by (by vm_compute).
  assert (Ht : length sample_strings = 11%nat) by (by vm_compute).
  unfold data_size, off_strings, off_struct in Hl.
  cbn [sample_dtb b_total b_rsv b_struct b_gap b_strings b_free length] in Hl.
  rewrite Hs, Ht, !length_replicate in Hl. unfold HDR_SIZE in Hl.
  split.
  - unfold post. cbn [sample_dtb b_rsv b_struct b_gap b_strings b_free]. rewrite !Forall_app.
    split_and!; [by apply Forall_replicate|by apply (bool_decide_unpack _); vm_compute|done
      |by apply (bool_decide_unpack _); vm_compute|by apply Forall_replicate].
  - lia.
  - unfold data_size, off_strings, off_struct.
    cbn [sample_dtb b_total b_rsv b_struct b_gap b_strings b_free length]. rewrite Hs, Ht, !length_replicate in *.
    unfold HDR_SIZE. lia.
  - done.
  - done.
Qed.

Lemma sample_at room : (room <= 100)%nat ->
  at_node (sample_dtb room) [] [] [(0, [1; 2; 3])] [(bytes_of "ab", [1; 2; 3])] sample_subs [].
Proof.
  intros Hr. split; [by apply sample_wf| | |].
  - cbn [app]. rewrite app_nil_r. apply block_encodes.
  - cbn [app]. rewrite app_nil_r. apply sample_good.
  - constructor; [|constructor]. split; [by apply (bool_decide_unpack _)|]. split; [|done].
    split; [done|]. by exists (cstr (bytes_of "default")).
Qed.

Lemma str_ab : is_str (bytes_of "ab").
Proof. by apply (bool_decide_unpack _). Qed.

Lemma str_new : is_str (bytes_of "bootargs").
Proof. by apply (bool_decide_unpack _). Qed.

Lemma fdt_setprop_correct_witness :
  exists err b', fdt_setprop (flat (sample_dtb 100)) (size_of []) (bytes_of "bootargs" ++ 0 :: []) ([7; 8; 9; 10; 11] ++ [])
      (Z.of_nat (length [7; 8; 9; 10; 11])) = Some (err, flat b')
    /\ extends (sample_dtb 100) b' /\ err = 0.
Proof.
  destruct (fdt_setprop_correct (sample_dtb 100) [] [] [(0, [1; 2; 3])] [(bytes_of "ab", [1; 2; 3])] sample_subs []
    (bytes_of "bootargs") [] [7; 8; 9; 10; 11] [] (sample_at 100 ltac:(lia)) str_new
    ltac:(by apply (bool_decide_unpack _)) ltac:(by vm_compute)) as (err & b' & E & He & Hc).
  exists err, b'. split; [exact E|]. split; [exact He|].
  replace (_ <? _) with false in Hc by (by vm_compute). apply Hc.
Defined.

Lemma fdt_setprop_getprop_witness :
  exists fdt', fdt_setprop (flat (sample_dtb 100)) (size_of []) (bytes_of "ab" ++ 0 :: []) ([7; 8; 9; 10; 11] ++ []) 5 = Some (0, fdt')
    /\ read_prop fdt' (size_of []) (bytes_of "ab" ++ 0 :: []) = Some (Some [7; 8; 9; 10; 11]).
Proof.
  eexists. split; [vm_compute; reflexivity|].
  rewrite (fdt_setprop_getprop (sample_dtb 100) [] [] [(0, [1; 2; 3])] [(bytes_of "ab", [1; 2; 3])] sample_subs []
    (bytes_of "ab") [] [7; 8; 9; 10; 11] [] _ (sample_at 100 ltac:(lia)) str_ab
    ltac:(by apply (bool_decide_unpack _)) ltac:(by vm_compute) ltac:(vm_compute; reflexivity) (bytes_of "ab") [] str_ab).
  by rewrite bool_decide_eq_true_2.
Defined.

Lemma fdt_appendprop_correct_witness :
  exists err b', fdt_appendprop (flat (sample_dtb 100)) (size_of []) (bytes_of "ab" ++ 0 :: []) ([7; 8] ++ [])
      (Z.of_nat (length [7; 8])) = Some (err, flat b')
    /\ extends (sample_dtb 100) b' /\ err = 0.
Proof.
  destruct (fdt_appendprop_correct (sample_dtb 100) [] [] [(0, [1; 2; 3])] [(bytes_of "ab", [1; 2; 3])] sample_subs []
    (bytes_of "ab") [] [7; 8] [] (sample_at 100 ltac:(lia)) str_ab
    ltac:(by apply (bool_decide_unpack _)) ltac:(by vm_compute)) as (err & b' & E & He & Hc).
  exists err, b'. split; [exact E|]. split; [exact He|].
  replace (_ <? _) with false in Hc by (by vm_compute). apply Hc.
Defined.

Lemma fdt_delprop_correct_witness :
  exists b' ps', fdt_delprop (flat (sample_dtb 0)) (size_of []) (bytes_of "ab" ++ 0 :: []) = Some (0, flat b')
    /\ at_node b' [] [] ps' [] sample_subs [].
Proof.
  destruct (fdt_delprop_correct (sample_dtb 0) [] [] [(0, [1; 2; 3])] [(bytes_of "ab", [1; 2; 3])] sample_subs []
    (bytes_of "ab") [] (sample_at 0 ltac:(lia)) str_ab) as (b' & ps' & E & _ & Hat & _).
  exists b', ps'. split; [exact E|exact Hat].
Defined.

Example sample_room :
  find_sub (bytes_of "chosen") sample_subs (subs_at (size_of []) [] [(0, [1; 2; 3])]) = None
  /\ (b_total (sample_dtb 100) <? data_size (sample_dtb 100) + (8 + name_size (bytes_of "chosen"))) = false.
Proof. split; vm_compute; reflexivity. Qed.

Lemma fdt_add_subnode_correct_witness :
  exists b', fdt_add_subnode (flat (sample_dtb 100)) (size_of []) (bytes_of "chosen" ++ 0 :: [])
    = Some (subs_at (size_of []) [] [(0, [1; 2; 3])], flat b') /\ extends (sample_dtb 100) b'.
Proof.
  pose proof (fdt_add_subnode_correct (sample_dtb 100) [] [] [(0, [1; 2; 3])] [(bytes_of "ab", [1; 2; 3])] sample_subs []
    (bytes_of "chosen") [] (sample_at 100 ltac:(lia)) ltac:(by apply (bool_decide_unpack _)) ltac:(by vm_compute)) as H.
  destruct sample_room as [E1 E2]. rewrite E1, E2 in H.
  destruct H as (b' & E & He & _). exact (ex_intro _ b' (conj E He)).
Defined.

Lemma fdt_del_node_correct_witness :
  exists b', fdt_del_node (flat (sample_dtb 0)) (size_of []) = Some (0, flat b') /\ block_of [] (b_struct b').
Proof.
  destruct (fdt_del_node_correct (sample_dtb 0) [] sample_tree [] (sample_wf 0 ltac:(lia))) as (b' & E & _ & _ & Hb & _).
  - apply (an_block _ _ _ _ _ _ _ (sample_at 0 ltac:(lia))).
  - apply (an_good _ _ _ _ _ _ _ (sample_at 0 ltac:(lia))).
  - exists b'. split; [exact E|exact Hb].
Defined.

End FdtEdit.
