(* ===== verification/FdtOpen.v ===== *)
(** * Reservations, moving and opening a flattened device tree

    The specification of the rest of FdtRw.v that boot code uses: the memory
    reservation list and [fdt_open_into], and a tree edited from opening to
    reading back. *)

From S2P Require Import Prelude Cstring Fdt FdtTree FdtQuery FdtRw FdtParts FdtEdit.

Module FdtOpen.
Import Cstring Fdt FdtTree FdtQuery FdtRw FdtParts FdtEdit.

(** ** The reservation list *)

Definition entry (p : Z * Z) : list Z := be_bytes 8 p.1 ++ be_bytes 8 p.2.
Definition entries (rs : list (Z * Z)) : list Z := concat (map entry rs).

(** A list of reservations in the bytes between header and structure block,
    ended by one of size zero. *)
Definition rsvs (b : dtb) (rs : list (Z * Z)) : Prop :=
  exists X t Y, b_rsv b = X ++ entries rs ++ entry (t, 0) ++ Y
    /\ b_rsvmap b = HDR_SIZE + Z.of_nat (length X) /\ in_word 64 t
    /\ Forall (fun p => in_word 64 p.1 /\ in_word 64 p.2 /\ p.2 <> 0) rs.

Lemma length_entry p : length (entry p) = 16%nat.
Proof. unfold entry. by rewrite length_app, !length_be_bytes. Qed.

Lemma length_entries rs : length (entries rs) = (16 * length rs)%nat.
Proof.
  induction rs as [|p rs IH]; [done|]. unfold entries. cbn [map concat length].
  rewrite length_app, length_entry. fold (entries rs). lia.
Qed.

Lemma entries_app rs rs' : entries (rs ++ rs') = entries rs ++ entries rs'.
Proof. unfold entries. by rewrite map_app, concat_app. Qed.

Lemma entries_snoc rs a s : entries (rs ++ [(a, s)]) = entries rs ++ be_bytes 8 a ++ be_bytes 8 s.
Proof. rewrite entries_app. unfold entries at 2. cbn [map concat]. by rewrite app_nil_r. Qed.

Lemma entry_bytes p : bytes (entry p).
Proof. apply Forall_app. split; apply be_bytes_bytes. Qed.

Lemma be_bytes_8 v : be_bytes 8 v = be_bytes 4 (v / 2 ^ 32) ++ be_bytes 4 v.
Proof. rewrite <- Z.shiftr_div_pow2 by lia. exact (be_bytes_app 4 4 v). Qed.

Lemma rd64_at X v Y p : p = Z.of_nat (length X) -> in_word 64 v -> rd64 (X ++ be_bytes 8 v ++ Y) p = Some v.
Proof.
  intros -> Hv. unfold rd64. rewrite be_bytes_8, <- app_assoc.
  assert (in_word 32 (v / 2 ^ 32)) by (unfold in_word in *; split; [apply Z.div_pos; lia|apply Z.div_lt_upper_bound; lia]).
  rewrite rd32_at by done. cbn [mbind option_bind].
  rewrite <- (be_bytes_wrap 4 32 v) by lia.
  replace (X ++ be_bytes 4 (v / 2 ^ 32) ++ be_bytes 4 (wrap 32 v) ++ Y)
    with ((X ++ be_bytes 4 (v / 2 ^ 32)) ++ be_bytes 4 (wrap 32 v) ++ Y) by (by rewrite <- app_assoc).
  replace (Z.of_nat (length X) + 4) with (Z.of_nat (length (X ++ be_bytes 4 (v / 2 ^ 32))))
    by (rewrite length_app, length_be_bytes; lia).
  rewrite rd32_at by (apply wrap_in_word; lia). cbn [mbind option_bind]. f_equal. unfold wrap.
  pose proof (Z.div_mod v (2 ^ 32)). lia.
Qed.

Lemma wr64_at X O Y p v : p = Z.of_nat (length X) -> length O = 8%nat -> wr64 (X ++ O ++ Y) p v = Some (X ++ be_bytes 8 v ++ Y).
Proof. intros -> Hl. unfold wr64. rewrite be_bytes_wrap by lia. apply store_at; [done|]. by rewrite length_be_bytes. Qed.

Section Rsv.
Context (b : dtb) (W : wf b).

(** The blob around the reservation list. *)
Lemma flat_rsv X E Y : b_rsv b = X ++ E ++ Y ->
  flat b = image (words b) X ++ E ++ Y ++ b_struct b ++ post b
  /\ Z.of_nat (length (image (words b) X)) = HDR_SIZE + Z.of_nat (length X).
Proof.
  intros E'. rewrite flat_image, E'. unfold image. split; [by rewrite <- !app_assoc|].
  rewrite length_app, length_words. cbn [words length]. unfold HDR_SIZE. lia.
Qed.

Lemma num_mem_rsv_loop_spec rs2 : forall rs1 fuel,
  rsvs b (rs1 ++ rs2) -> (length rs2 < fuel)%nat ->
  num_mem_rsv_loop fuel (flat b) (Z.of_nat (length rs1)) = Some (Z.of_nat (length (rs1 ++ rs2))).
Proof using W.
  induction rs2 as [|[a s] rs2 IH]; intros rs1 [|fuel] H Hf; cbn [length] in Hf; try lia.
  - pose proof H as (X & t & Y & E & Hm & Ht & HF). rewrite app_nil_r in *.
    cbn [num_mem_rsv_loop]. unfold _fdt_mem_rsv. rewrite hdr_rsvmap by done. cbn [mbind option_bind].
    assert (E2 : b_rsv b = (X ++ entries rs1 ++ be_bytes 8 t) ++ be_bytes 8 0 ++ Y)
      by (rewrite E; unfold entry; by rewrite <- !app_assoc).
    destruct (flat_rsv _ _ _ E2) as [-> Hl].
    rewrite rd64_at; [|rewrite Hl, Hm, !length_app, length_entries, length_be_bytes; lia|by unfold in_word].
    done.
  - pose proof H as (X & t & Y & E & Hm & Ht & HF). cbn [num_mem_rsv_loop]. unfold _fdt_mem_rsv.
    rewrite hdr_rsvmap by done. cbn [mbind option_bind].
    rewrite entries_app in E. unfold entries in E at 2. cbn [map concat] in E. fold (entries rs2) in E.
    apply Forall_app in HF as [_ [(Ha & Hs & Hs0) _]%Forall_cons_1]. cbn [fst snd] in *.
    assert (E2 : b_rsv b = (X ++ entries rs1 ++ be_bytes 8 a) ++ be_bytes 8 s ++ entries rs2 ++ entry (t, 0) ++ Y)
      by (rewrite E; unfold entry; by rewrite <- !app_assoc).
    destruct (flat_rsv _ _ _ E2) as [Ef Hl]. rewrite Ef at 1.
    rewrite rd64_at; [|rewrite Hl, Hm, !length_app, length_entries, length_be_bytes; lia|done].
    cbn [mbind option_bind]. destruct (Z.eqb_spec s 0); [done|]. cbn [negb].
    specialize (IH (rs1 ++ [(a, s)]) fuel). rewrite <- app_assoc in IH. cbn [app] in IH.
    rewrite <- IH by (done || lia). f_equal. rewrite length_app. cbn [length]. lia.
Qed.

Lemma rsvs_length rs : rsvs b rs -> Z.of_nat (16 * length rs) + 16 <= Z.of_nat (length (b_rsv b)) - (b_rsvmap b - HDR_SIZE).
Proof using. intros (X & t & Y & E & -> & _). rewrite E, !length_app, length_entries, length_entry. lia. Qed.

Lemma num_mem_rsv_spec rs : rsvs b rs -> fdt_num_mem_rsv (flat b) = Some (Z.of_nat (length rs)).
Proof using W.
  intros H. apply (num_mem_rsv_loop_spec rs [] _ H). pose proof (rsvs_length rs H). pose proof (wf_rsvmap b W) as [H1 _].
  pose proof (length_flat b) as Hf. unfold data_size, off_strings, off_struct, HDR_SIZE in *. lia.
Qed.

End Rsv.

(** [fdt_get_mem_rsv] returns the reservations in their order and
    [fdt_num_mem_rsv] their number. *)
Lemma fdt_get_mem_rsv_spec b rs n a s :
  wf b -> rsvs b rs -> rs !! n = Some (a, s) -> fdt_get_mem_rsv (flat b) (Z.of_nat n) = Some (inr (a, s)).
Proof.
  intros W (X & t & Y & E & Hm & Ht & HF) Hn. unfold fdt_get_mem_rsv.
  pose proof (check_header_ok _ _ _ (wf_layout b W)) as Hc. fold (flat b) in Hc. rewrite Hc.
  cbn [mbind option_bind Z.eqb negb]. unfold _fdt_mem_rsv. rewrite hdr_rsvmap by done. cbn [mbind option_bind].
  pose proof (Forall_lookup_1 _ _ _ _ HF Hn) as (Ha & Hs & _). cbn [fst snd] in *.
  pose proof (lookup_lt_Some _ _ _ Hn) as Hlt.
  rewrite <- (take_drop_middle rs n (a, s) Hn), entries_app in E. unfold entries in E at 2.
  cbn [map concat] in E. fold (entries (drop (S n) rs)) in E.
  assert (E1 : b_rsv b = (X ++ entries (take n rs)) ++ be_bytes 8 a
    ++ be_bytes 8 s ++ entries (drop (S n) rs) ++ entry (t, 0) ++ Y)
    by (rewrite E; unfold entry; by rewrite <- !app_assoc).
  assert (E2 : b_rsv b = (X ++ entries (take n rs) ++ be_bytes 8 a) ++ be_bytes 8 s
    ++ entries (drop (S n) rs) ++ entry (t, 0) ++ Y)
    by (rewrite E; unfold entry; by rewrite <- !app_assoc).
  destruct (flat_rsv b _ _ _ E1) as [F1 L1]. destruct (flat_rsv b _ _ _ E2) as [F2 L2].
  rewrite F1 at 1. rewrite rd64_at; [|rewrite L1, Hm, !length_app, length_entries, length_take; lia|done].
  cbn [mbind option_bind]. rewrite F2 at 1.
  rewrite rd64_at; [|rewrite L2, Hm, !length_app, length_entries, length_take, length_be_bytes; lia|done]. done.
Qed.

(** *** Changing the list *)

Definition with_rsv (b : dtb) (R F : list Z) : dtb :=
  Dtb (b_total b) (b_rsvmap b) (b_cpu b) R (b_struct b) (b_gap b) (b_strings b) F.

Lemma wf_with_rsv b (W : wf b) R F :
  bytes (R ++ F) -> (length R + length F = length (b_rsv b) + length (b_free b))%nat ->
  data_size b - Z.of_nat (length (b_rsv b)) + Z.of_nat (length R) <= b_total b ->
  b_rsvmap b + RSV_SIZE <= HDR_SIZE + Z.of_nat (length R) ->
  wf (with_rsv b R F).
Proof.
  intros HB Hl Hd Hr. destruct (post_bytes b W) as (H1 & H2 & H3 & H4 & H5). apply Forall_app in HB as [HR HF].
  pose proof (length_flat b) as E1. pose proof (length_flat (with_rsv b R F)) as E2.
  pose proof (wf_len b W). pose proof (wf_total b W). pose proof (wf_rsvmap b W) as [Hr1 _].
  unfold data_size, off_strings, off_struct in *.
  cbn [with_rsv b_struct b_free b_rsv b_gap b_strings b_total b_rsvmap] in *.
  split; unfold post, data_size, off_strings, off_struct;
    cbn [with_rsv b_struct b_free b_rsv b_gap b_strings b_total b_rsvmap]; [|lia|lia|lia|exact (wf_cpu b W)].
  by rewrite !Forall_app.
Qed.

Section Change.
Context (b : dtb) (W : wf b).

Lemma splice_mem_rsv_ok A O B oldn newn :
  b_rsv b = A ++ O ++ B -> length O = (16 * oldn)%nat -> (oldn <= 1)%nat -> (newn <= 1)%nat ->
  data_size b - Z.of_nat (16 * oldn) + Z.of_nat (16 * newn) <= b_total b ->
  b_rsvmap b + RSV_SIZE <= HDR_SIZE + Z.of_nat (length A + 16 * newn + length B) ->
  exists G F, length G = (16 * newn)%nat /\ wf (with_rsv b (A ++ G ++ B) F)
    /\ b_tail (with_rsv b (A ++ G ++ B) F) = b_tail b
    /\ _fdt_splice_mem_rsv (flat b) (HDR_SIZE + Z.of_nat (length A)) (Z.of_nat oldn) (Z.of_nat newn)
       = Some (0, flat (with_rsv b (A ++ G ++ B) F)).
Proof using W.
  intros E HO Ho Hn Hok Hr. destruct (post_bytes b W) as (HR & HS & HM & HT & HF).
  destruct (flat_rsv b _ _ _ E) as [Ef Hl].
  destruct (splice_ok b W (image (words b) A) O (B ++ b_struct b ++ b_gap b ++ b_strings b)
    (HDR_SIZE + Z.of_nat (length A)) (16 * newn)) as (G & F & HG & HFl & _ & Htl & HB & Hsp).
  { rewrite Ef. unfold post. by rewrite <- !app_assoc. }
  { lia. }
  { lia. }
  exists G, F. split; [done|].
  assert (Hw : wf (with_rsv b (A ++ G ++ B) F)).
  { rewrite E in HR. rewrite !Forall_app in HR. destruct HR as (HA & HO' & HB'). apply wf_with_rsv; [done| | | |].
    - rewrite !Forall_app in HB. rewrite !Forall_app. tauto.
    - rewrite E, !length_app. lia.
    - rewrite E, !length_app. lia.
    - rewrite !length_app. lia. }
  split; [done|]. split.
  { rewrite <- Htl. unfold b_tail, data_size, off_strings, off_struct.
    cbn [with_rsv b_struct b_free b_rsv b_gap b_strings b_total]. f_equal. rewrite E, !length_app. lia. }
  unfold _fdt_splice_mem_rsv, on_ok, RSV_SIZE.
  replace (Z.of_nat oldn * 16) with (Z.of_nat (length O)) by lia.
  replace (Z.of_nat newn * 16) with (Z.of_nat (16 * newn)) by lia. rewrite Hsp.
  cbn [mbind option_bind Z.eqb negb]. rewrite s32_small by lia.
  pose proof (words_bound b W 2 _ eq_refl) as B2. pose proof (words_bound b W 3 _ eq_refl) as B3.
  replace (image (words b) A ++ G ++ (B ++ b_struct b ++ b_gap b ++ b_strings b) ++ F)
    with (image (words b) ((A ++ G ++ B) ++ b_struct b ++ b_gap b ++ b_strings b ++ F))
    by (unfold image; by rewrite <- !app_assoc).
  unfold fdt_off_dt_struct. rewrite (rd32_word _ 2 (off_struct b)) by done. cbn [mbind option_bind].
  unfold fdt_set_off_dt_struct. erewrite (wr32_word _ 2) by done. cbn [mbind option_bind].
  unfold fdt_off_dt_strings. rewrite (rd32_word _ 3 (off_strings b)) by done. cbn [mbind option_bind].
  unfold fdt_set_off_dt_strings. erewrite (wr32_word _ 3) by done. cbn [mbind option_bind].
  rewrite flat_image. unfold post, words, off_strings, off_struct.
  cbn [with_rsv b_struct b_free b_rsv b_gap b_strings b_total b_rsvmap b_cpu].
  cbn [insert list_insert]. rewrite E, !length_app.
  apply (f_equal Some), (f_equal (pair 0)), (f_equal (fun ws => image ws _)).
  repeat (apply (f_equal2 (@cons Z)); [lia|]). done.
Qed.

Lemma store64_rsv A O B p v :
  b_rsv b = A ++ O ++ B -> p = HDR_SIZE + Z.of_nat (length A) -> length O = 8%nat ->
  wr64 (flat b) p v = Some (flat (with_rsv b (A ++ be_bytes 8 v ++ B) (b_free b))).
Proof using.
  intros E -> HO. destruct (flat_rsv b _ _ _ E) as [-> Hl]. rewrite wr64_at by (done || lia).
  rewrite flat_image. unfold post, words, off_strings, off_struct, image.
  cbn [with_rsv b_struct b_free b_rsv b_gap b_strings b_total b_rsvmap b_cpu].
  rewrite E, !length_app, length_be_bytes, HO. by rewrite <- !app_assoc.
Qed.

End Change.

(** [fdt_add_mem_rsv] puts a reservation at the end of the list, or
    returns -FDT_ERR_NOSPACE and changes nothing; tree and strings stay, only
    their place moves. *)
Theorem fdt_add_mem_rsv_correct b rs a s :
  wf b -> rsvs b rs -> in_word 64 a -> in_word 64 s -> s <> 0 ->
  if b_total b <? data_size b + RSV_SIZE then fdt_add_mem_rsv (flat b) a s = Some (- FDT_ERR_NOSPACE, flat b)
  else exists R F, let b' := with_rsv b R F in
    fdt_add_mem_rsv (flat b) a s = Some (0, flat b') /\ wf b' /\ rsvs b' (rs ++ [(a, s)])
    /\ data_size b' = data_size b + RSV_SIZE /\ b_tail b' = b_tail b.
Proof.
  intros W H Ha Hs Hs0. unfold fdt_add_mem_rsv. rewrite (rw_check_bind b W).
  rewrite (num_mem_rsv_spec b W rs H). cbn [mbind option_bind]. unfold _fdt_mem_rsv. rewrite hdr_rsvmap by done.
  cbn [mbind option_bind]. pose proof H as (X & t & Y & E & Hm & Ht & HF).
  assert (E1 : b_rsv b = (X ++ entries rs) ++ [] ++ entry (t, 0) ++ Y) by (rewrite E; by rewrite <- !app_assoc).
  assert (Ep : b_rsvmap b + 16 * Z.of_nat (length rs) = HDR_SIZE + Z.of_nat (length (X ++ entries rs)))
    by (rewrite length_app, length_entries; lia).
  rewrite Ep. unfold RSV_SIZE. destruct (Z.ltb_spec (b_total b) (data_size b + 16)) as [Hns|Hok].
  { unfold on_ok, _fdt_splice_mem_rsv, on_ok, RSV_SIZE. change (0 * 16) with 0. change (1 * 16) with 16.
    rewrite splice_full; [done|done| |lia|lia| |lia]; [unfold HDR_SIZE; lia|].
    unfold data_size, off_strings, off_struct. rewrite E1, !length_app. lia. }
  destruct (splice_mem_rsv_ok b W _ _ _ 0 1 E1 eq_refl ltac:(lia) ltac:(lia) ltac:(lia)) as (G & F & HG & W1 & Htl & Hsp).
  { rewrite !length_app, length_entry. unfold RSV_SIZE. lia. }
  unfold on_ok. change (Z.of_nat 0) with 0 in Hsp. change (Z.of_nat 1) with 1 in Hsp. rewrite Hsp.
  cbn [mbind option_bind Z.eqb negb].
  set (b1 := with_rsv b ((X ++ entries rs) ++ G ++ entry (t, 0) ++ Y) F) in *.
  assert (EG : G = take 8 G ++ drop 8 G) by (by rewrite take_drop).
  assert (E2 : b_rsv b1 = (X ++ entries rs) ++ take 8 G ++ drop 8 G ++ entry (t, 0) ++ Y)
    by (unfold b1; cbn [with_rsv b_rsv]; rewrite EG at 1; by rewrite <- !app_assoc).
  rewrite (store64_rsv b1 _ _ _ _ a E2) by (done || (rewrite length_take; lia)). cbn [mbind option_bind].
  rewrite (store64_rsv _ ((X ++ entries rs) ++ be_bytes 8 a) (drop 8 G) (entry (t, 0) ++ Y) _ s);
    [|cbn [with_rsv b_rsv]; by rewrite <- !app_assoc|rewrite (length_app _ (be_bytes 8 a)), length_be_bytes; lia
     |rewrite length_drop; lia].
  cbn [mbind option_bind].
  set (R := ((X ++ entries rs) ++ be_bytes 8 a) ++ be_bytes 8 s ++ entry (t, 0) ++ Y).
  exists R, F. cbv zeta. split; [done|].
  assert (ER : R = X ++ entries (rs ++ [(a, s)]) ++ entry (t, 0) ++ Y).
  { unfold R. rewrite entries_snoc. by rewrite <- !app_assoc. }
  assert (Hlen : length R = (length (b_rsv b) + 16)%nat).
  { rewrite ER, E, !length_app, !length_entries, length_entry, length_app. cbn [length]. lia. }
  split_and!.
  - destruct (post_bytes _ W1) as (HR1 & _ & _ & _ & HF1). destruct (post_bytes _ W) as (HR & _ & _ & _ & _).
    pose proof (wf_rsvmap b W) as [_ Hr]. unfold off_struct in Hr.
    pose proof (length_flat b) as L0. pose proof (length_flat b1) as L1.
    pose proof (wf_with_rsv b1 W1 R F) as Hw. cbn [b1 with_rsv b_total b_rsvmap b_cpu b_struct b_gap b_strings] in Hw.
    apply Hw.
    + apply Forall_app. split; [|exact HF1]. rewrite E, !Forall_app in HR. destruct HR as (HX & _ & HTm & HY).
      rewrite ER, !Forall_app. split_and!; try done.
      apply Forall_concat, Forall_map, Forall_true. intros ?. apply entry_bytes.
    + rewrite Hlen. unfold b1. cbn [with_rsv b_rsv b_free]. rewrite E, !length_app, length_entries, length_entry. lia.
    + pose proof (wf_total _ W1) as Ht1. unfold data_size, off_strings, off_struct in *. cbn [b1 with_rsv b_rsv b_struct b_gap b_strings b_total] in *.
      rewrite Hlen. rewrite E, !length_app in *. lia.
    + rewrite Hlen. unfold RSV_SIZE in *. lia.
  - exists X, t, Y. cbn [with_rsv b_rsv b_rsvmap]. split_and!; [done|done|done|]. apply Forall_app. split; [done|].
    constructor; [done|constructor].
  - unfold data_size, off_strings, off_struct. cbn [with_rsv b_rsv b_struct b_gap b_strings]. rewrite Hlen. lia.
  - rewrite <- Htl. unfold b_tail, b1, data_size, off_strings, off_struct.
    cbn [with_rsv b_struct b_free b_rsv b_gap b_strings b_total]. f_equal.
    rewrite Hlen, E, !length_app, length_entries, length_entry. lia.
Qed.

(** [fdt_del_mem_rsv] takes the reservation with that number out of the
    list, and returns -FDT_ERR_NOTFOUND for a number that is not in it. *)
Theorem fdt_del_mem_rsv_correct b rs n :
  wf b -> rsvs b rs ->
  if (n <? length rs)%nat
  then exists R F, let b' := with_rsv b R F in
    fdt_del_mem_rsv (flat b) (Z.of_nat n) = Some (0, flat b') /\ wf b' /\ rsvs b' (take n rs ++ drop (S n) rs)
    /\ data_size b' = data_size b - RSV_SIZE /\ b_tail b' = b_tail b
  else fdt_del_mem_rsv (flat b) (Z.of_nat n) = Some (- FDT_ERR_NOTFOUND, flat b).
Proof.
  intros W H. unfold fdt_del_mem_rsv, _fdt_mem_rsv. rewrite hdr_rsvmap by done. cbn [mbind option_bind].
  rewrite (rw_check_bind b W), (num_mem_rsv_spec b W rs H). cbn [mbind option_bind].
  destruct (Nat.ltb_spec n (length rs)) as [Hn|Hn].
  2: { by destruct (Z.leb_spec (Z.of_nat (length rs)) (Z.of_nat n)); [|lia]. }
  destruct (Z.leb_spec (Z.of_nat (length rs)) (Z.of_nat n)); [lia|].
  pose proof H as (X & t & Y & E & Hm & Ht & HF). pose proof (wf_total b W) as Htot.
  destruct (lookup_lt_is_Some_2 rs n Hn) as [q Hq].
  rewrite <- (take_drop_middle rs n q Hq), entries_app in E. unfold entries in E at 2. cbn [map concat] in E.
  fold (entries (drop (S n) rs)) in E.
  assert (E1 : b_rsv b = (X ++ entries (take n rs)) ++ entry q ++ entries (drop (S n) rs) ++ entry (t, 0) ++ Y)
    by (rewrite E; by rewrite <- !app_assoc).
  destruct (splice_mem_rsv_ok b W _ _ _ 1 0 E1 (length_entry q) ltac:(lia) ltac:(lia) ltac:(lia))
    as (G & F & HG & W1 & Htl & Hsp).
  { rewrite !length_app, length_entry. unfold RSV_SIZE. lia. }
  destruct G; [|done]. cbn [app] in W1, Htl, Hsp. eexists _, F. cbv zeta. split_and!.
  - rewrite <- Hsp. f_equal. rewrite length_app, length_entries, length_take. lia.
  - exact W1.
  - exists X, t, Y. cbn [with_rsv b_rsv b_rsvmap]. split_and!; [by rewrite entries_app, <- !app_assoc|done|done|].
    apply Forall_app. split; [by apply Forall_take|by apply Forall_drop].
  - unfold data_size, off_strings, off_struct. cbn [with_rsv b_rsv b_struct b_gap b_strings].
    rewrite E1, !length_app, !length_entry. unfold RSV_SIZE. lia.
  - exact Htl.
Qed.

(** ** Opening into a buffer *)

Definition with_total (b : dtb) (total : Z) (F : list Z) : dtb :=
  Dtb total (b_rsvmap b) (b_cpu b) (b_rsv b) (b_struct b) (b_gap b) (b_strings b) F.

Lemma at_split mem p l : at_ mem p = Some l -> 0 <= p /\ l = drop (Z.to_nat p) mem.
Proof. unfold at_. destruct (Z.ltb_spec p 0); [done|]. by intros [= <-]. Qed.

(** A store into the header of the blob at a place of the memory. *)
Lemma on_blob_word mem p ws body k v v' q :
  0 <= p -> at_ mem p = Some (image ws body) -> q = 4 * Z.of_nat k -> ws !! k = Some v ->
  on_blob mem p (fun f => wr32 f q v') = Some (take (Z.to_nat p) mem ++ image (<[k := v']> ws) body).
Proof.
  intros Hp Ha Hq Hk. unfold on_blob. rewrite Ha. cbn [mbind option_bind].
  by rewrite (wr32_word ws k v v' body q Hq Hk).
Qed.

Lemma at_app (l r : list Z) p : p = Z.of_nat (length l) -> at_ (l ++ r) p = Some r.
Proof. intros ->. unfold at_. destruct (Z.ltb_spec (Z.of_nat (length l)) 0); [lia|]. by rewrite Nat2Z.id, drop_app_length. Qed.

Lemma take_at (l r : list Z) p : p = Z.of_nat (length l) -> take (Z.to_nat p) (l ++ r) = l.
Proof. intros ->. by rewrite Nat2Z.id, take_app_length. Qed.

Lemma misordered_ok b rs :
  wf b -> rsvs b rs ->
  _fdt_blocks_misordered (flat b) (s32 ((Z.of_nat (length rs) + 1) * RSV_SIZE)) (Z.of_nat (length (b_struct b))) = Some false.
Proof.
  intros W H. pose proof (rsvs_length b rs H) as Hr. unfold _fdt_blocks_misordered. rewrite hdr_rsvmap by done.
  pose proof (wf_len b W) as H1. pose proof (wf_total b W) as H2. pose proof (wf_rsvmap b W) as H3.
  rewrite length_flat in H1. unfold data_size, off_strings, off_struct, HDR_SIZE, RSV_SIZE in *.
  cbn [mbind option_bind]. destruct (Z.ltb_spec (b_rsvmap b) 40); [lia|].
  rewrite hdr_off_struct by done. cbn [mbind option_bind]. rewrite (s32_small (_ * 16)) by lia.
  unfold off_struct, HDR_SIZE. rewrite (u32_small (_ + _ * 16)) by lia.
  destruct (Z.ltb_spec (40 + Z.of_nat (length (b_rsv b))) (b_rsvmap b + (Z.of_nat (length rs) + 1) * 16)); [lia|].
  rewrite hdr_off_strings by done. cbn [mbind option_bind]. unfold off_strings, off_struct, HDR_SIZE.
  rewrite (u32_small (_ + Z.of_nat (length (b_struct b)))) by lia.
  destruct (Z.ltb_spec (40 + Z.of_nat (length (b_rsv b)) + Z.of_nat (length (b_struct b) + length (b_gap b)))
    (40 + Z.of_nat (length (b_rsv b)) + Z.of_nat (length (b_struct b)))); [lia|].
  rewrite hdr_totalsize, hdr_size_strings by done. cbn [mbind option_bind]. rewrite u32_small by lia.
  destruct (Z.ltb_spec (b_total b) (40 + Z.of_nat (length (b_rsv b))
    + Z.of_nat (length (b_struct b) + length (b_gap b)) + Z.of_nat (length (b_strings b)))); [lia|]. done.
Qed.

(** The blob moved to [buf], in front of what the memory has behind it. *)
Lemma move_blob mem fdt buf b :
  wf b -> at_ mem fdt = Some (flat b) -> 0 <= buf -> buf + b_total b <= Z.of_nat (length mem) ->
  exists F, move mem buf fdt (b_total b)
    = Some (take (Z.to_nat buf) mem ++ flat (with_total b (b_total b) F))
    /\ (length F = length mem - Z.to_nat buf - Z.to_nat (data_size b))%nat
    /\ drop (Z.to_nat (b_total b - data_size b)) F = drop (Z.to_nat (buf + b_total b)) mem
    /\ (bytes mem -> bytes F).
Proof.
  intros W Ha Hb Hle. apply at_split in Ha as [Hf Ha].
  pose proof (wf_total b W) as Ht. pose proof (length_flat b) as Hl.
  assert (Hd : 40 <= data_size b) by (unfold data_size, off_strings, off_struct, HDR_SIZE; lia).
  assert (Hm : Z.of_nat (length (flat b)) = Z.of_nat (length mem) - fdt)
    by (rewrite Ha, length_drop; rewrite Ha, length_drop in Hl, Ht; lia).
  set (T := drop (Z.to_nat (buf + b_total b)) mem).
  exists (take (Z.to_nat (b_total b - data_size b)) (b_free b) ++ T). split_and!.
  - unfold move. destruct (Z.ltb_spec buf 0); [lia|]. destruct (Z.ltb_spec fdt 0); [lia|].
    destruct (Z.ltb_spec (b_total b) 0); [lia|]. cbn [orb]. rewrite memmove_spec by lia. f_equal.
    rewrite <- Ha. unfold Prelude.memcpy. f_equal. rewrite length_take_le by lia.
    replace (Z.to_nat buf + Z.to_nat (b_total b))%nat with (Z.to_nat (buf + b_total b)) by lia. fold T.
    assert (Ef : forall F, flat (with_total b (b_total b) F)
      = (pre b ++ b_struct b ++ b_gap b ++ b_strings b) ++ F)
      by (intros F; unfold flat, pre, post, image; by rewrite <- !app_assoc).
    rewrite Ef, app_assoc. f_equal.
    assert (Ef0 : flat b = (pre b ++ b_struct b ++ b_gap b ++ b_strings b) ++ b_free b)
      by (unfold flat, post; by rewrite <- !app_assoc).
    rewrite Ef0.
    assert (Hp : Z.of_nat (length (pre b ++ b_struct b ++ b_gap b ++ b_strings b)) = data_size b).
    { rewrite !length_app. unfold data_size, off_strings. pose proof (length_pre b). lia. }
    replace (Z.to_nat (b_total b))
      with (length (pre b ++ b_struct b ++ b_gap b ++ b_strings b) + Z.to_nat (b_total b - data_size b))%nat by lia.
    apply take_app_add.
  - unfold T. rewrite length_app, length_take, length_drop. lia.
  - rewrite drop_app_length'; [done|]. rewrite length_take. lia.
  - intros HB. apply Forall_app. split; [|by apply Forall_drop].
    apply Forall_take. by apply (post_bytes b W).
Qed.

Lemma fdt_open_into_spec mem fdt buf bufsize b rs :
  bytes mem -> wf b -> rsvs b rs -> at_ mem fdt = Some (flat b) -> 0 <= buf -> 0 <= bufsize ->
  buf + bufsize <= Z.of_nat (length mem) -> Z.of_nat (length mem) - buf < 2 ^ 31 - 16 ->
  if bufsize <? b_total b then fdt_open_into mem fdt buf bufsize = Some (- FDT_ERR_NOSPACE, mem)
  else exists F, let b' := with_total b bufsize F in
    fdt_open_into mem fdt buf bufsize = Some (0, take (Z.to_nat buf) mem ++ flat b')
    /\ wf b' /\ drop (Z.to_nat (b_total b - data_size b)) F = drop (Z.to_nat (buf + b_total b)) mem.
Proof.
  intros HB W Hrs Ha Hbuf Hsz Hle Hsmall. unfold fdt_open_into. rewrite Ha. cbn [mbind option_bind].
  rewrite hdr_totalsize by done. cbn [mbind option_bind].
  pose proof (check_header_ok _ _ _ (wf_layout b W)) as Hc. fold (flat b) in Hc. rewrite Hc.
  cbn [mbind option_bind Z.eqb negb]. rewrite (num_mem_rsv_spec b W rs Hrs). cbn [mbind option_bind].
  rewrite hdr_version by done. cbn [mbind option_bind].
  change (17 <=? 17) with true. cbn iota. rewrite hdr_size_struct by done. cbn [mbind option_bind].
  pose proof (wf_len b W) as H1. pose proof (wf_total b W) as H2. rewrite length_flat in H1.
  assert (Hss : s32 (Z.of_nat (length (b_struct b))) = Z.of_nat (length (b_struct b))).
  { apply s32_small. unfold data_size, off_strings, off_struct, HDR_SIZE in *. lia. }
  rewrite Hss. change (17 <? 17) with false. cbn [andb]. rewrite (misordered_ok b rs W Hrs).
  cbn [mbind option_bind negb]. unfold fdt_move. rewrite Ha. cbn [mbind option_bind].
  rewrite Hc. cbn [mbind option_bind Z.eqb negb]. rewrite hdr_totalsize by done. cbn [mbind option_bind].
  rewrite u32_small by lia. destruct (Z.ltb_spec bufsize (b_total b)) as [Hlt|Hge]; [done|].
  destruct (move_blob mem fdt buf b W Ha Hbuf ltac:(lia)) as (F & Hm & HFl & HF & HFb). rewrite Hm.
  unfold on_ok. cbn [mbind option_bind Z.eqb negb]. exists F. cbv zeta.
  assert (Hlb : Z.of_nat (length (take (Z.to_nat buf) mem)) = buf) by (rewrite length_take_le; lia).
  set (M := take (Z.to_nat buf) mem) in *. set (b0 := with_total b (b_total b) F).
  set (body := b_rsv b ++ b_struct b ++ post b0).
  assert (E0 : flat b0 = image (words b0) body) by (by rewrite flat_image).
  rewrite E0. unfold fdt_set_version.
  rewrite (on_blob_word _ buf (words b0) body 5 17 17) by (done || by apply at_app). cbn [mbind option_bind].
  rewrite (take_at M) by done. unfold fdt_set_size_dt_struct.
  erewrite (on_blob_word _ buf _ body 9) by (done || by apply at_app). cbn [mbind option_bind].
  rewrite (take_at M) by done. unfold fdt_set_totalsize.
  erewrite (on_blob_word _ buf _ body 1) by (done || by apply at_app). cbn [mbind option_bind].
  rewrite (take_at M) by done. split; [by rewrite (flat_image (with_total b bufsize F))|]. split; [|done].
  destruct (post_bytes b W) as (B1 & B2 & B3 & B4 & _).
  pose proof (length_flat (with_total b bufsize F)) as Hl2. change (data_size (with_total b bufsize F)) with (data_size b) in Hl2.
  cbn [with_total b_free] in Hl2.
  assert (0 <= data_size b) by (unfold data_size, off_strings, off_struct, HDR_SIZE; lia).
  split.
  - unfold post. cbn [with_total b_rsv b_struct b_gap b_strings b_free].
    specialize (HFb HB). by rewrite !Forall_app.
  - lia.
  - change (data_size (with_total b bufsize F)) with (data_size b). cbn [with_total b_total]. lia.
  - exact (wf_rsvmap b W).
  - exact (wf_cpu b W).
Qed.

(** C29: [fdt_open_into] copies a tree with its parts in order, the source
    and the buffer overlapping or not: afterwards the buffer holds the same
    reservations, structure and strings with the buffer's size as the total,
    and the memory around the buffer is as it was.  A buffer smaller than the
    tree is refused. *)
Theorem fdt_open_into_correct mem fdt buf bufsize b rs :
  bytes mem -> wf b -> rsvs b rs -> at_ mem fdt = Some (flat b) -> 0 <= buf -> 0 <= bufsize ->
  buf + bufsize <= Z.of_nat (length mem) -> Z.of_nat (length mem) - buf < 2 ^ 31 - 16 ->
  if bufsize <? b_total b then fdt_open_into mem fdt buf bufsize = Some (- FDT_ERR_NOSPACE, mem)
  else exists F, let b' := with_total b bufsize F in
    fdt_open_into mem fdt buf bufsize = Some (0, take (Z.to_nat buf) mem ++ flat b')
    /\ wf b' /\ drop (Z.to_nat (b_total b - data_size b)) F = drop (Z.to_nat (buf + b_total b)) mem.
Proof. apply fdt_open_into_spec. Qed.

(** ** Witnesses and whole runs *)

Lemma sample_rsvs room : rsvs (sample_dtb room) [].
Proof. exists [], 0, []. split_and!; [done|done|done|constructor]. Qed.

Lemma fdt_add_mem_rsv_correct_witness :
  exists R F, fdt_add_mem_rsv (flat (sample_dtb 100)) 0x1000 0x200 = Some (0, flat (with_rsv (sample_dtb 100) R F))
    /\ rsvs (with_rsv (sample_dtb 100) R F) ([] ++ [(0x1000, 0x200)]).
Proof.
  pose proof (fdt_add_mem_rsv_correct (sample_dtb 100) [] 0x1000 0x200 (sample_wf 100 ltac:(lia)) (sample_rsvs 100)
    ltac:(done) ltac:(done) ltac:(done)) as H.
  replace (_ <? _) with false in H by (by vm_compute).
  destruct H as (R & F & E & _ & Hr & _). exists R, F. split; [exact E|exact Hr].
Defined.

Lemma fdt_del_mem_rsv_correct_witness :
  fdt_del_mem_rsv (flat (sample_dtb 0)) (Z.of_nat 0) = Some (- FDT_ERR_NOTFOUND, flat (sample_dtb 0)).
Proof. exact (fdt_del_mem_rsv_correct (sample_dtb 0) [] 0 (sample_wf 0 ltac:(lia)) (sample_rsvs 0)). Defined.

(** Opened eight bytes further up, over itself. *)
Definition sample_mem : list Z := flat (sample_dtb 0) ++ replicate 100 0.

Definition sample_src : dtb :=
  with_total (sample_dtb 0) (b_total (sample_dtb 0)) (replicate 100 0).

Lemma sample_src_wf : wf sample_src.
Proof.
  split.
  - apply (bool_decide_unpack _). vm_compute. reflexivity.
  - vm_compute. reflexivity.
  - split; vm_compute; discriminate.
  - split; vm_compute; discriminate.
  - split; vm_compute; [discriminate|reflexivity].
Qed.

Example sample_src_at : at_ sample_mem 0 = Some (flat sample_src).
Proof. vm_compute. reflexivity. Qed.

Example sample_mem_facts :
  bytes sample_mem /\ (8 + 250 <=? Z.of_nat (length sample_mem)) = true
  /\ (Z.of_nat (length sample_mem) - 8 <? 2 ^ 31 - 16) = true /\ (250 <? b_total sample_src) = false.
Proof. split; [apply (bool_decide_unpack _)|split_and!]; vm_compute; reflexivity. Qed.

Lemma fdt_open_into_correct_witness :
  exists F, fdt_open_into sample_mem 0 8 250
    = Some (0, take (Z.to_nat 8) sample_mem ++ flat (with_total sample_src 250 F)).
Proof.
  destruct sample_mem_facts as (HB & H1%Z.leb_le & H2%Z.ltb_lt & H3).
  pose proof (fdt_open_into_correct sample_mem 0 8 250 sample_src [] HB sample_src_wf (sample_rsvs 0)
    sample_src_at ltac:(lia) ltac:(lia) H1 H2) as H.
  rewrite H3 in H. destruct H as (F & E & _). exact (ex_intro _ F E).
Defined.

(** Opening, a node, a property, a reservation, packing and reading back. *)
Definition edit_run : option (Z * option (list Z) * (Z + Z * Z)) :=
  '(_, m) ← fdt_open_into sample_mem 0 0 300;
  let fdt := take 300 m in
  '(node, fdt) ← fdt_add_subnode fdt 0 (cstr (bytes_of "chosen"));
  '(_, fdt) ← fdt_setprop fdt node (cstr (bytes_of "bootargs")) (cstr (bytes_of "ro")) 3;
  '(_, fdt) ← fdt_add_mem_rsv fdt 0x1000 0x200;
  '(_, fdt) ← fdt_pack fdt;
  node ← fdt_path_offset 2 fdt (cstr (bytes_of "/chosen"));
  v ← read_prop fdt node (cstr (bytes_of "bootargs"));
  rsv ← fdt_get_mem_rsv fdt 0;
  total ← fdt_totalsize fdt;
  Some (total, v, rsv).

Example edit_run_result : edit_run = Some (264, Some (cstr (bytes_of "ro")), inr (0x1000, 0x200)).
Proof. vm_compute. reflexivity. Qed.

(** A tree whose strings lie in front of the structure is put in order.  Into
    its own place it goes by way of the memory behind it, and the number of
    the boot processor is then taken from there instead of from the old
    header. *)
Definition unordered : list Z :=
  concat (map (be_bytes 4) [FDT_MAGIC; 80; 64; 56; 40; 17; 16; 3; 2; 16]) ++ replicate 16 0 ++ [97; 0] ++ [0; 0; 0; 0; 0; 0]
  ++ concat (map (be_bytes 4) [1; 0; 2; 9]).

Example reordered_elsewhere :
  ('(err, m) ← fdt_open_into (unordered ++ replicate 200 0) 0 100 150;
  f ← at_ m 100; c ← fdt_check_header f; o ← fdt_off_dt_struct f; s ← fdt_off_dt_strings f;
  cpu ← fdt_boot_cpuid_phys f; Some (err, c, o, s, cpu))
  = Some (0, 0, 56, 72, 3).
Proof. vm_compute. reflexivity. Qed.

Example reordered_in_place :
  ('(err, m) ← fdt_open_into (unordered ++ replicate 200 7) 0 0 200;
   cpu ← fdt_boot_cpuid_phys m; Some (err, cpu)) = Some (0, 0x07070707).
Proof. vm_compute. reflexivity. Qed.

End FdtOpen.
