(* ===== verification/FdtPaths.v ===== *)
(** * Trees as callers see them: nodes by path, properties by name

    The specification the fix-ups of the boot loader are stated against: a
    blob holds a [tree] of names and values, [tree_at] and [edit_at] go to the
    node a path leads to, and an edit of the blob at that node is an edit of
    the tree there.  The offsets of FdtTree.v are gone from the statements. *)

From S2P Require Import Prelude Cstring Fdt FdtTree FdtQuery FdtRw FdtParts FdtEdit FdtOpen.

Module FdtPaths.
Import Cstring Fdt FdtTree FdtQuery FdtRw FdtParts FdtEdit FdtOpen.

Inductive tree := Tree (name : str) (props : list (str * list Z)) (subs : list tree).

Definition tree_name (t : tree) : str := match t with Tree nm _ _ => nm end.
Definition tree_props (t : tree) : list (str * list Z) := match t with Tree _ ps _ => ps end.

(** The first child a name matches. *)
Fixpoint child (c : str) (ts : list tree) : option tree :=
  match ts with
  | [] => None
  | t :: ts => if name_match (tree_name t) c then Some t else child c ts
  end.

Fixpoint edit_child (c : str) (f : tree -> tree) (ts : list tree) : list tree :=
  match ts with
  | [] => []
  | t :: ts => if name_match (tree_name t) c then f t :: ts else t :: edit_child c f ts
  end.

Fixpoint tree_at (cs : list str) (t : tree) : option tree :=
  match cs, t with
  | [], _ => Some t
  | c :: cs, Tree _ _ ts => s ← child c ts; tree_at cs s
  end.

Fixpoint edit_at (cs : list str) (f : tree -> tree) (t : tree) : tree :=
  match cs, t with
  | [], _ => f t
  | c :: cs, Tree nm ps ts => Tree nm ps (edit_child c (edit_at cs f) ts)
  end.

(** The edits. *)
Definition set_in (name : str) (val : list Z) (t : tree) : tree :=
  match t with Tree nm ps ts => Tree nm (set_prop name val ps) ts end.

Definition add_in (name : str) (t : tree) : tree :=
  match t with Tree nm ps ts => Tree nm ps (Tree name [] [] :: ts) end.

(** The value of a property at a path. *)
Definition value (cs : list str) (name : str) (t : tree) : option (list Z) :=
  t ← tree_at cs t; assoc name (tree_props t).

Lemma name_match_refl n : name_match n n = true.
Proof. unfold name_match. by rewrite bool_decide_eq_true_2. Qed.

Lemma tree_at_edit cs f : (forall t, tree_name (f t) = tree_name t) -> forall t t',
  tree_at cs t = Some t' -> tree_at cs (edit_at cs f t) = Some (f t').
Proof.
  intros Hf. assert (Hn : forall cs t, tree_name (edit_at cs f t) = tree_name t) by (intros [|] []; [apply Hf|done]).
  induction cs as [|c cs IH]; intros [nm ps ts] t'; [by intros [= <-]|]. cbn [tree_at edit_at].
  induction ts as [|t ts IHts]; cbn [child edit_child]; [done|].
  destruct (name_match (tree_name t) c) eqn:E; cbn [child]; [rewrite Hn, E|rewrite E; exact IHts].
  cbn [mbind option_bind]. apply IH.
Qed.

Lemma tree_at_add cs c : forall t t' nm, tree_at cs t = Some t' -> name_match nm c = true ->
  tree_at (cs ++ [c]) (edit_at cs (add_in nm) t) = Some (Tree nm [] []).
Proof.
  induction cs as [|d cs IH]; intros [rn ps ts] t' nm; cbn [tree_at edit_at app].
  { intros _ Hm. cbn [add_in tree_at child tree_name]. by rewrite Hm. }
  assert (Hn : forall cs t, tree_name (edit_at cs (add_in nm) t) = tree_name t) by (intros [|] []; done).
  intros Hat Hm. induction ts as [|t ts IHts]; cbn [child edit_child] in *; [done|].
  destruct (name_match (tree_name t) d) eqn:E; cbn [child]; [|rewrite E; by apply IHts].
  rewrite Hn, E. cbn [mbind option_bind] in Hat |- *. by apply (IH _ t').
Qed.

Lemma value_set cs name val t t' n : tree_at cs t = Some t' ->
  value cs n (edit_at cs (set_in name val) t) = if bool_decide (name = n) then Some val else value cs n t.
Proof.
  intros H. unfold value. rewrite (tree_at_edit cs _) with (t' := t'); [|by intros []|done]. rewrite H.
  destruct t' as [nm ps ts]. cbn [mbind option_bind set_in tree_props]. rewrite assoc_set_prop. by case_bool_decide.
Qed.

(** Setting a property leaves every path where it is. *)
Lemma tree_at_set cs' cs name val : forall t,
  is_Some (tree_at cs' (edit_at cs (set_in name val) t)) <-> is_Some (tree_at cs' t).
Proof.
  assert (Hn : forall cs t, tree_name (edit_at cs (set_in name val) t) = tree_name t) by (intros [|] []; done).
  revert cs. induction cs' as [|c' cs' IH]; intros [|c cs] [nm ps ts]; cbn [tree_at edit_at set_in]; [split; by eexists..|done|].
  induction ts as [|t ts IHts]; cbn [edit_child child]; [done|].
  destruct (name_match (tree_name t) c); cbn [child]; [rewrite Hn|];
    (destruct (name_match (tree_name t) c'); cbn [mbind option_bind]; [try apply IH; done|done || exact IHts]).
Qed.

(** ** What a blob holds *)

Inductive tree_of (T : list Z) : node -> tree -> Prop :=
  | tree_of_node nm ps nps subs ts :
      names T ps nps -> Forall2 (tree_of T) subs ts -> tree_of T (Node nm ps subs) (Tree nm nps ts).

Definition holds_tree (b : dtb) (t : tree) : Prop :=
  exists n, wf b /\ block_of (items n) (b_struct b) /\ Forall good_item (items n) /\ tree_of (b_strings b) n t.

Lemma tree_of_app T E n : forall t, tree_of T n t -> tree_of (T ++ E) n t.
Proof.
  induction n as [s ps subs IH] using node_induction. intros t H. inversion H as [? ? nps ? ts Hn Hs]; subst.
  constructor; [by apply names_app|]. clear -IH Hs. induction Hs as [|n t subs ts H _ IHs]; constructor.
  - apply Forall_cons_1 in IH as [IH _]. by apply IH.
  - apply Forall_cons_1 in IH as [_ IH]. by apply IHs.
Qed.

Lemma trees_of_app T E subs ts : Forall2 (tree_of T) subs ts -> Forall2 (tree_of (T ++ E)) subs ts.
Proof. intros H. eapply Forall2_impl; [exact H|]. intros n t. apply tree_of_app. Qed.

(** A child in the list of nodes and in the list of trees. *)
Lemma child_split T c subs ts : Forall2 (tree_of T) subs ts -> forall off,
  match child c ts with
  | None => find_sub c subs off = None
  | Some t => exists s1 n s2 t1 t2, subs = s1 ++ n :: s2 /\ Forall2 (tree_of T) s1 t1 /\ Forall2 (tree_of T) s2 t2
      /\ tree_of T n t /\ find_sub c subs off = Some (off + size_of (forest s1), n)
      /\ forall f, edit_child c f ts = t1 ++ f t :: t2
  end.
Proof.
  induction 1 as [|n t subs ts Hnt Hs IH]; intros off; cbn [child find_sub edit_child]; [done|].
  assert (En : node_name n = tree_name t) by (by inversion Hnt). rewrite En.
  destruct (name_match (tree_name t) c).
  { exists [], n, subs, [], ts. split_and!; try done. do 2 f_equal. change (size_of (forest [])) with 0. lia. }
  specialize (IH (off + size_of (items n))). destruct (child c ts) as [t'|]; [|done].
  destruct IH as (s1 & n' & s2 & t1 & t2 & -> & H1 & H2 & H3 & -> & He).
  exists (n :: s1), n', s2, (t :: t1), t2. split_and!; try done; [by constructor| |by intros f; rewrite He].
  unfold forest. cbn [map concat]. rewrite size_of_app. do 2 f_equal. lia.
Qed.

(** The node a path leads to, and the tree around it. *)
Lemma focus T cs : forall n t off, tree_of T n t ->
  match tree_at cs t with
  | None => resolve cs n off = - FDT_ERR_NOTFOUND
  | Some t' => exists m1 n' m2, items n = m1 ++ items n' ++ m2 /\ resolve cs n off = off + size_of m1
      /\ tree_of T n' t'
      /\ forall E n2 f, tree_of (T ++ E) n2 (f t') ->
           exists n3, items n3 = m1 ++ items n2 ++ m2 /\ tree_of (T ++ E) n3 (edit_at cs f t)
  end.
Proof.
  induction cs as [|c cs IH]; intros n t off H.
  { exists [], n, []. cbn [app resolve edit_at]. rewrite app_nil_r. change (size_of []) with 0.
    split_and!; [done|lia|done|]. intros E n2 f Hf. exists n2. by rewrite app_nil_r. }
  inversion H as [nm ps nps subs ts Hn Hs E1 E2]; subst. cbn [tree_at resolve edit_at].
  pose proof (child_split T c subs ts Hs (subs_at off nm ps)) as Hc. destruct (child c ts) as [t'|]; [|by rewrite Hc].
  destruct Hc as (s1 & n' & s2 & t1 & t2 & -> & H1 & H2 & H3 & Hf & He). rewrite Hf.
  specialize (IH n' t' (subs_at off nm ps + size_of (forest s1)) H3). cbn [mbind option_bind].
  destruct (tree_at cs t') as [u|]; [|exact IH].
  destruct IH as (m1 & nu & m2 & Em & Hr & Hu & Hback).
  set (l1 := IBegin nm :: prop_items ps ++ forest s1).
  assert (Hsh : forall x, items (Node nm ps (s1 ++ x :: s2)) = l1 ++ items x ++ forest s2 ++ [IEnd]).
  { intros x. cbn [items]. fold (forest (s1 ++ x :: s2)). unfold l1, forest. rewrite map_app, concat_app.
    cbn [map concat app]. by rewrite <- !app_assoc. }
  exists (l1 ++ m1), nu, (m2 ++ forest s2 ++ [IEnd]). split_and!.
  - rewrite Hsh, Em. by rewrite <- !app_assoc.
  - rewrite Hr, size_of_app. unfold l1, subs_at. rewrite size_of_cons, size_of_app. lia.
  - done.
  - intros E n2 f H'. destruct (Hback E n2 f H') as (n3 & E3 & Ht3).
    exists (Node nm ps (s1 ++ n3 :: s2)). split; [rewrite Hsh, E3; by rewrite <- !app_assoc|].
    constructor; [by apply names_app|]. rewrite He. apply Forall2_app; [by apply trees_of_app|].
    constructor; [done|by apply trees_of_app].
Qed.

(** From a held tree to a node of FdtEdit.v and back. *)
Lemma open_at b t cs : holds_tree b t ->
  match tree_at cs t with
  | None => forall y fuel, Forall component cs -> cs <> [] -> Z.of_nat (length (path_of cs)) < 2 ^ 30 -> (0 < fuel)%nat ->
      fdt_path_offset fuel (flat b) (path_of cs ++ 0 :: y) = Some (- FDT_ERR_NOTFOUND)
  | Some (Tree nm nps ts) => exists l1 ps subs l2, at_node b l1 nm ps nps subs l2 /\ Forall2 (tree_of (b_strings b)) subs ts
      /\ (cs = [] -> l1 = [])
      /\ (forall y fuel, Forall component cs -> cs <> [] -> Z.of_nat (length (path_of cs)) < 2 ^ 30 -> (0 < fuel)%nat ->
            fdt_path_offset fuel (flat b) (path_of cs ++ 0 :: y) = Some (size_of l1))
      /\ forall b' ps' subs' f nps' ts', f (Tree nm nps ts) = Tree nm nps' ts' ->
           at_node b' l1 nm ps' nps' subs' l2 -> (exists E, b_strings b' = b_strings b ++ E) ->
           Forall2 (tree_of (b_strings b')) subs' ts' -> holds_tree b' (edit_at cs f t)
  end.
Proof.
  intros (n & W & Hb & Hg & Ht).
  assert (Hp : forall y fuel, Forall component cs -> cs <> [] -> Z.of_nat (length (path_of cs)) < 2 ^ 30 -> (0 < fuel)%nat ->
    fdt_path_offset fuel (flat b) (path_of cs ++ 0 :: y) = Some (resolve cs n 0)).
  { intros y fuel H1 H2 H3 H4. apply (fdt_path_offset_spec (pre b) (b_struct b) (post b) n []); try done.
    split; [by apply wf_layout|]. cbn [app]. by rewrite app_nil_r. }
  pose proof (focus _ cs n t 0 Ht) as Hf. destruct (tree_at cs t) as [[nm nps ts]|] eqn:Hat; [|by rewrite Hf in Hp].
  destruct Hf as (l1 & n' & l2 & E & Hr & Hn' & Hback). inversion Hn' as [? ps ? subs ? Hn Hs]; subst.
  exists l1, ps, subs, l2. rewrite E in Hb, Hg. split_and!; try done.
  - intros ->. cbn [resolve] in Hr. destruct l1 as [|i l1]; [done|]. rewrite size_of_cons in Hr.
    destruct (length_enc i) as (k & ? & ?). unfold size_of in Hr. lia.
  - intros y fuel H1 H2 H3 H4. rewrite Hp by done. f_equal. lia.
  - intros b' ps' subs' f nps' ts' Hfe [W' Hb' Hg' Hn2] [X HX] Hs'. rewrite HX in *.
    destruct (Hback X (Node nm ps' subs') f) as (n3 & E3 & Ht3); [rewrite Hfe; by constructor|].
    exists n3. rewrite E3, HX. done.
Qed.

(** Changes outside of structure and strings. *)
Lemma holds_tree_same b b' t : holds_tree b t -> wf b' -> b_struct b' = b_struct b -> b_strings b' = b_strings b ->
  holds_tree b' t.
Proof. intros (n & _ & H) W Es Et. exists n. by rewrite Es, Et. Qed.

(** ** Reading and editing by path *)

(** Side conditions of a path. *)
Definition path_ok (cs : list str) : Prop :=
  Forall component cs /\ cs <> [] /\ Z.of_nat (length (path_of cs)) < 2 ^ 30.

#[global] Instance path_ok_dec cs : Decision (path_ok cs).
Proof. unfold path_ok. apply _. Defined.

(** Reading a property at a path through the code. *)
Definition read_at (fdt path name : list Z) : option (option (list Z)) :=
  off ← fdt_path_offset 1 fdt path;
  if off <? 0 then Some None else read_prop fdt off name.

Lemma size_of_nonneg l : 0 <= size_of l.
Proof. unfold size_of. lia. Qed.

Lemma read_at_value b t cs name y x : holds_tree b t -> path_ok cs -> is_str name ->
  read_at (flat b) (path_of cs ++ 0 :: x) (name ++ 0 :: y) = Some (value cs name t).
Proof.
  intros H (H1 & H2 & H3) Hn. unfold read_at, value. pose proof (open_at b t cs H) as Ho.
  destruct (tree_at cs t) as [[nm nps ts]|]; [|by rewrite Ho by (done || lia)].
  destruct Ho as (l1 & ps & subs & l2 & Hat & _ & _ & Hp & _). rewrite Hp by (done || lia).
  cbn [mbind option_bind]. pose proof (size_of_nonneg l1). destruct (Z.ltb_spec (size_of l1) 0); [lia|].
  cbn [tree_props]. by apply (read_prop_at b l1 nm ps nps subs l2).
Qed.

(** ** Edits by path

    [node_off b t cs off]: the blob holds the tree, and [off] is the offset of
    the node the path leads to; whatever is put there is put into the tree. *)
Definition node_off (b : dtb) (t : tree) (cs : list str) (off : Z) : Prop :=
  exists l1 nm ps nps subs l2 ts,
    off = size_of l1 /\ tree_at cs t = Some (Tree nm nps ts) /\ at_node b l1 nm ps nps subs l2
    /\ Forall2 (tree_of (b_strings b)) subs ts
    /\ forall b' ps' subs' f nps' ts', f (Tree nm nps ts) = Tree nm nps' ts' ->
         at_node b' l1 nm ps' nps' subs' l2 -> (exists E, b_strings b' = b_strings b ++ E) ->
         Forall2 (tree_of (b_strings b')) subs' ts' -> holds_tree b' (edit_at cs f t).

Lemma edit_at_id cs : forall t, edit_at cs id t = t.
Proof.
  induction cs as [|c cs IH]; intros [nm ps ts]; [done|]. cbn [edit_at]. f_equal.
  induction ts as [|t ts IHts]; cbn [edit_child]; [done|]. rewrite IH, IHts. by case_match.
Qed.

Lemma edit_at_edit cs f g : (forall t, tree_name (g t) = tree_name t) ->
  forall t, edit_at cs f (edit_at cs g t) = edit_at cs (fun t => f (g t)) t.
Proof.
  intros Hg. assert (Hn : forall cs t, tree_name (edit_at cs g t) = tree_name t) by (intros [|] []; [apply Hg|done]).
  induction cs as [|c cs IH]; intros [nm ps ts]; [done|]. cbn [edit_at]. f_equal.
  induction ts as [|t ts IHts]; cbn [edit_child]; [done|].
  destruct (name_match (tree_name t) c) eqn:E; cbn [edit_child]; [rewrite Hn, E, IH|rewrite E, IHts]; done.
Qed.

Lemma edit_at_added cs nm f : forall t,
  edit_at (cs ++ [nm]) f (edit_at cs (add_in nm) t)
  = edit_at cs (fun t => match t with Tree rn ps ts => Tree rn ps (f (Tree nm [] []) :: ts) end) t.
Proof.
  induction cs as [|c cs IH]; intros [rn ps ts]; cbn [app edit_at add_in].
  { cbn [edit_child tree_name edit_at]. by rewrite name_match_refl. }
  f_equal. assert (Hn : forall cs t, tree_name (edit_at cs (add_in nm) t) = tree_name t) by (intros [|] []; done).
  induction ts as [|t ts IHts]; cbn [edit_child]; [done|].
  destruct (name_match (tree_name t) c) eqn:E; cbn [edit_child]; [rewrite Hn, E, IH|rewrite E, IHts]; done.
Qed.

Lemma node_off_open b t cs : holds_tree b t ->
  match tree_at cs t with
  | None => path_ok cs -> forall y fuel, (0 < fuel)%nat ->
      fdt_path_offset fuel (flat b) (path_of cs ++ 0 :: y) = Some (- FDT_ERR_NOTFOUND)
  | Some _ => exists off, 0 <= off /\ node_off b t cs off /\ (cs = [] -> off = 0)
      /\ (path_ok cs -> forall y fuel, (0 < fuel)%nat ->
           fdt_path_offset fuel (flat b) (path_of cs ++ 0 :: y) = Some off)
  end.
Proof.
  intros H. pose proof (open_at b t cs H) as Ho. destruct (tree_at cs t) as [[nm nps ts]|] eqn:E.
  - destruct Ho as (l1 & ps & subs & l2 & Hat & Hs & H0 & Hp & Hback). exists (size_of l1).
    split; [apply size_of_nonneg|]. split; [by exists l1, nm, ps, nps, subs, l2, ts|].
    split; [by intros ->%H0|]. intros (H1 & H2 & H3) y fuel Hf. by apply Hp.
  - intros (H1 & H2 & H3) y fuel Hf. by apply Ho.
Qed.

Lemma node_off_holds b t cs off : node_off b t cs off -> holds_tree b t.
Proof.
  intros (l1 & nm & ps & nps & subs & l2 & ts & _ & _ & Hat & Hs & Hback).
  rewrite <- (edit_at_id cs t). apply (Hback b ps subs id nps ts); try done. exists []. by rewrite app_nil_r.
Qed.

Lemma node_off_wf b t cs off : node_off b t cs off -> wf b.
Proof. intros (n & W & _)%node_off_holds. done. Qed.

Lemma node_off_same b b' t cs off : node_off b t cs off ->
  wf b' -> b_struct b' = b_struct b -> b_strings b' = b_strings b -> node_off b' t cs off.
Proof.
  intros (l1 & nm & ps & nps & subs & l2 & ts & Ho & Ht & [W H1 H2 H3] & Hs & Hback) W' Es Et.
  exists l1, nm, ps, nps, subs, l2, ts. rewrite Et. split_and!; try done. split; [done|by rewrite Es|done|by rewrite Et].
Qed.

(** The node's properties. *)
Definition props_at (cs : list str) (t : tree) : list (str * list Z) := from_option tree_props [] (tree_at cs t).

Lemma value_assoc cs name t : value cs name t = assoc name (props_at cs t).
Proof. unfold value, props_at. by destruct (tree_at cs t). Qed.

Lemma node_off_read b t cs off name y : node_off b t cs off -> is_str name ->
  read_prop (flat b) off (name ++ 0 :: y) = Some (value cs name t).
Proof.
  intros (l1 & nm & ps & nps & subs & l2 & ts & -> & Ht & Hat & _) Hn. unfold value. rewrite Ht.
  by apply (read_prop_at b l1 nm ps nps subs l2).
Qed.

(** The pointer that is tested against NULL. *)
Lemma node_off_getprop b t cs off name y : node_off b t cs off -> is_str name ->
  exists p len, fdt_getprop (flat b) off (name ++ 0 :: y) = Some (p, len)
    /\ (p = None <-> value cs name t = None)
    /\ forall q v, p = Some q -> value cs name t = Some v -> 0 <= q /\ take (length v) (drop (Z.to_nat q) (flat b)) = v.
Proof.
  intros (l1 & nm & ps & nps & subs & l2 & ts & -> & Ht & Hat & _) Hn. unfold value. rewrite Ht. cbn [mbind option_bind tree_props].
  pose proof (getprop_spec_at b l1 nm ps nps subs l2 name y Hat Hn) as Hg.
  pose proof (get_property_spec_at b l1 nm ps nps subs l2 name y Hat Hn) as Hp.
  destruct (assoc name nps) as [v|]; [|by eexists _, _].
  destruct Hg as (p & Hg & Hv). eexists _, _. split; [exact Hg|]. split; [done|]. intros q w [= <-] [= <-]. split; [|done].
  destruct Hp as (ps1 & o & ps2 & nps1 & nps2 & _ & _ & _ & _ & _ & _ & Hp).
  unfold fdt_getprop, fdt_getprop_namelen in Hg. unfold fdt_get_property in Hp. rewrite strlen_cstr in Hg, Hp by done.
  cbn [mbind option_bind] in Hg, Hp. rewrite Hp in Hg. cbn [mbind option_bind option_map] in Hg. injection Hg as <-.
  pose proof (size_of_nonneg ((l1 ++ [IBegin nm]) ++ prop_items ps1)). unfold off_struct, HDR_SIZE. lia.
Qed.

(** The word a property starts with. *)
Lemma rd32_take fdt q : 0 <= q -> length (take 4 (drop (Z.to_nat q) fdt)) = 4%nat ->
  rd32 fdt q = Some (be_combine (take 4 (drop (Z.to_nat q) fdt))).
Proof.
  intros Hq Hl. assert (Hr : forall i, (i < 4)%nat -> rd8 fdt (q + Z.of_nat i) = take 4 (drop (Z.to_nat q) fdt) !! i).
  { intros i Hi. unfold rd8. destruct (Z.ltb_spec (q + Z.of_nat i) 0); [lia|].
    rewrite lookup_take_lt, lookup_drop by done. f_equal. lia. }
  pose proof (Hr 0%nat ltac:(lia)) as H0. rewrite Z.add_0_r in H0. unfold rd32. rewrite H0.
  rewrite (Hr 1%nat ltac:(lia) : rd8 fdt (q + 1) = _), (Hr 2%nat ltac:(lia) : rd8 fdt (q + 2) = _),
    (Hr 3%nat ltac:(lia) : rd8 fdt (q + 3) = _).
  by destruct (take 4 _) as [|a [|b [|c [|d []]]]].
Qed.

Lemma node_off_getproperty b t cs off name y : node_off b t cs off -> is_str name ->
  exists p len, fdt_get_property (flat b) off (name ++ 0 :: y) = Some (p, len)
    /\ (p = None <-> value cs name t = None).
Proof.
  intros (l1 & nm & ps & nps & subs & l2 & ts & -> & Ht & Hat & _) Hn. unfold value. rewrite Ht. cbn [mbind option_bind tree_props].
  pose proof (get_property_spec_at b l1 nm ps nps subs l2 name y Hat Hn) as Hg.
  destruct (assoc name nps) as [v|]; [|by eexists _, _].
  destruct Hg as (ps1 & o & ps2 & nps1 & nps2 & _ & _ & _ & _ & _ & _ & Hg). eexists _, _. by split; [exact Hg|].
Qed.

Lemma node_off_set b t cs off name y val z len : node_off b t cs off -> is_str name -> bytes val ->
  len = Z.of_nat (length val) -> len < 2 ^ 30 ->
  let need := set_growth (b_strings b) name val (props_at cs t) in
  exists err b', fdt_setprop (flat b) off (name ++ 0 :: y) (val ++ z) len = Some (err, flat b') /\ extends b b' /\
  if b_total b <? data_size b + need then err = - FDT_ERR_NOSPACE /\ node_off b' t cs off
  else err = 0 /\ node_off b' (edit_at cs (set_in name val) t) cs off /\ data_size b' = data_size b + need.
Proof.
  intros (l1 & nm & ps & nps & subs & l2 & ts & -> & Ht & Hat & Hs & Hback) Hn HB -> Hl. unfold props_at. rewrite Ht.
  cbn [from_option tree_props]. cbv zeta.
  destruct (fdt_setprop_spec b l1 nm ps nps subs l2 name y val z Hat Hn HB Hl) as (err & b' & E & He & Hc).
  exists err, b'. split; [done|]. split; [done|]. pose proof (ext_strings _ _ He) as [X HX].
  assert (Hs' : Forall2 (tree_of (b_strings b')) subs ts) by (rewrite HX; by apply trees_of_app).
  destruct (_ <? _).
  - destruct Hc as (-> & Hat' & _). split; [done|]. exists l1, nm, ps, nps, subs, l2, ts. split_and!; try done.
    intros b2 ps2 subs2 f nps2 ts2 Hf Hat2 [Y HY]. apply (Hback b2 ps2 subs2 f nps2 ts2 Hf Hat2).
    exists (X ++ Y). by rewrite HY, HX, app_assoc.
  - destruct Hc as (-> & (ps' & Hat') & Hd). split; [done|]. split; [|done].
    assert (Hname : forall t, tree_name (set_in name val t) = tree_name t) by (by intros []).
    exists l1, nm, ps', (set_prop name val nps), subs, l2, ts. split_and!; try done.
    + by apply (tree_at_edit cs (set_in name val) Hname) in Ht.
    + intros b2 ps2 subs2 f nps2 ts2 Hf Hat2 [Y HY] Hs2. rewrite edit_at_edit by done.
      apply (Hback b2 ps2 subs2 (fun t => f (set_in name val t)) nps2 ts2); [exact Hf|exact Hat2| |exact Hs2].
      exists (X ++ Y). by rewrite HY, HX, app_assoc.
Qed.

(** A value that is set takes what it needs and at most its name and header. *)
Lemma set_growth_le b t cs off name val : node_off b t cs off -> is_str name ->
  0 <= aligned_len val ->
  set_growth (b_strings b) name val (props_at cs t) <= Z.of_nat (length name) + 1 + 12 + aligned_len val.
Proof.
  intros (l1 & nm & ps & nps & subs & l2 & ts & -> & Ht & Hat & _) Hn Hv. unfold set_growth, props_at. rewrite Ht.
  cbn [from_option tree_props]. pose proof (get_property_spec_at b l1 nm ps nps subs l2 name [] Hat Hn) as Hg.
  destruct (assoc name nps) as [v|].
  - destruct Hg as (ps1 & o & ps2 & nps1 & nps2 & -> & _).
    destruct (prop_split b l1 nm ps1 o v ps2 nps subs l2 Hat) as (A & g & B & _ & _ & Hl & _). lia.
  - unfold name_growth. case_match; lia.
Qed.

(** The same with the bound in place of the exact size, and the code as the
    case. *)
Definition prop_room (name : str) (val : list Z) : Z := Z.of_nat (length name) + 13 + aligned_len val.

Lemma node_off_set_le b t cs off name y val z len : node_off b t cs off -> is_str name -> bytes val ->
  len = Z.of_nat (length val) -> len < 2 ^ 30 ->
  exists err b', fdt_setprop (flat b) off (name ++ 0 :: y) (val ++ z) len = Some (err, flat b') /\ extends b b' /\
  if err <? 0 then err = - FDT_ERR_NOSPACE /\ node_off b' t cs off /\ b_total b < data_size b + prop_room name val
  else err = 0 /\ node_off b' (edit_at cs (set_in name val) t) cs off /\ data_size b' <= data_size b + prop_room name val.
Proof.
  intros Hn Hs HB Hlen Hl. destruct (node_off_set b t cs off name y val z len Hn Hs HB Hlen Hl) as (err & b' & E & He & Hc).
  pose proof (set_growth_le b t cs off name val Hn Hs ltac:(destruct (aligned_len_bounds val); lia)) as Hg.
  exists err, b'. split; [done|]. split; [done|]. unfold prop_room.
  destruct (Z.ltb_spec (b_total b) (data_size b + set_growth (b_strings b) name val (props_at cs t))).
  - destruct Hc as [-> Hn']. change (- FDT_ERR_NOSPACE <? 0) with true. cbn iota. split_and!; [done|done|lia].
  - destruct Hc as (-> & Hn' & Hd). change (0 <? 0) with false. cbn iota. split_and!; [done|done|lia].
Qed.

(** A new node, at the offset the function returns. *)
Lemma node_off_add b t cs off name y : node_off b t cs off -> is_str name -> Z.of_nat (length name) < 2 ^ 30 ->
  tree_at (cs ++ [name]) t = None ->
  if b_total b <? data_size b + (8 + name_size name)
  then fdt_add_subnode (flat b) off (name ++ 0 :: y) = Some (- FDT_ERR_NOSPACE, flat b)
  else exists new b', 0 <= new /\ fdt_add_subnode (flat b) off (name ++ 0 :: y) = Some (new, flat b') /\ extends b b'
    /\ node_off b' (edit_at cs (add_in name) t) (cs ++ [name]) new
    /\ data_size b' = data_size b + (8 + name_size name).
Proof.
  intros (l1 & nm & ps & nps & subs & l2 & ts & -> & Ht & Hat & Hs & Hback) Hn Hl Hnone.
  pose proof (fdt_add_subnode_spec b l1 nm ps nps subs l2 name y Hat Hn Hl) as Ha.
  assert (child name ts = None) as Hch.
  { clear -Ht Hnone. revert t Ht Hnone. induction cs as [|c cs IH]; intros [rn rps rts]; cbn [app tree_at].
    - intros [= <- <- <-]. by destruct (child name rts).
    - destruct (child c rts) as [u|]; [|done]. apply IH. }
  pose proof (child_split _ name subs ts Hs (subs_at (size_of l1) nm ps)) as Hc. rewrite Hch in Hc. rewrite Hc in Ha.
  destruct (_ <? _); [done|]. destruct Ha as (b' & E & He & Hat' & Hd).
  exists (subs_at (size_of l1) nm ps), b'. split; [unfold subs_at; pose proof (size_of_nonneg l1); pose proof (size_of_nonneg (prop_items ps)); lia|].
  split; [done|]. split; [done|]. split; [|done].
  set (l1' := l1 ++ IBegin nm :: prop_items ps). set (l2' := forest subs ++ IEnd :: l2).
  assert (Hsh : forall x, l1 ++ items (Node nm ps (x :: subs)) ++ l2 = l1' ++ items x ++ l2').
  { intros x. rewrite node_items_behind. unfold l1', l2', behind, forest. cbn [map concat]. rewrite <- (app_assoc (items x)). reflexivity. }
  destruct Hat' as [W1 HB1 HG1 HN1]. rewrite Hsh in HB1, HG1. pose proof (ext_strings _ _ He) as [X HX].
  exists l1', name, [], [], [], l2', []. split_and!.
  - unfold l1', subs_at. rewrite size_of_app, size_of_cons. lia.
  - exact (tree_at_add cs name t _ name Ht (name_match_refl name)).
  - split; [done|done|done|constructor].
  - constructor.
  - intros b2 ps2 subs2 f nps2 ts2 Hf [W2 HB2 HG2 HN2] [Y HY] Hs2. rewrite edit_at_added.
    apply (Hback b2 ps (Node name ps2 subs2 :: subs) _ nps (Tree name nps2 ts2 :: ts)).
    + by rewrite Hf.
    + split; rewrite ?Hsh; try done. rewrite HY. by apply names_app.
    + exists (X ++ Y). by rewrite HY, HX, app_assoc.
    + constructor; [by constructor|]. rewrite HY, HX. by do 2 apply trees_of_app.
Qed.

End FdtPaths.
