(* ===== verification/Vsprintf.v ===== *)
(** * Numbers and formatted output (lib/vsprintf.c)

    Conversions read the memory from the string on and return the result with
    the memory from [*endp] on.  Formatting returns the characters that are
    stored; whether they fit is the caller's matter, since the build is
    without CONFIG_SYS_VSNPRINTF and every [snprintf] is a [sprintf]. *)

From S2P Require Import Prelude Cstring.

Module Vsprintf.
Import Cstring.

(** ** Numbers from strings *)

Definition digit_value (c : Z) : Z :=
  if isdigit c then c - 48 else (if islower c then toupper c else c) - 65 + 10.

(** The [while] loop; [w] is the width of the result. *)
Fixpoint digits_loop (w : Z) (cp : list Z) (base result : Z) : option (Z * list Z) :=
  match cp with
  | [] => None
  | c :: cp' =>
      if isxdigit c && (digit_value c <? base)
      then digits_loop w cp' base (wrap w (result * base + digit_value c))
      else Some (result, cp)
  end.

(** The prefix: the base and where the digits start. *)
Definition number_prefix (cp : list Z) (base : Z) : option (Z * list Z) :=
  c ← head cp;
  '(base, cp) ←
    (if c =? 48 then
       let cp := drop 1 cp in
       c ← head cp;
       hex ← (if c =? 120 then d ← cp !! 1%nat; Some (isxdigit d) else Some false);
       let '(base, cp) := if hex : bool then (16, drop 1 cp) else (base, cp) in
       Some (if base =? 0 then 8 else base, cp)
     else Some (base, cp));
  Some (if base =? 0 then 10 else base, cp).

Definition simple_strtoul (cp : list Z) (base : Z) : option (Z * list Z) :=
  '(base, cp) ← number_prefix cp base; digits_loop 32 cp base 0.

Definition simple_strtoull (cp : list Z) (base : Z) : option (Z * list Z) :=
  '(base, cp) ← number_prefix cp base; digits_loop 64 cp base 0.

Definition EINVAL : Z := 22.

(** The code and [*res]. *)
Definition strict_strtoul (cp : list Z) (base : Z) : option (Z * Z) :=
  len ← strlen cp;
  if (len =? 0)%nat then Some (- EINVAL, 0) else
  '(val, tail) ← simple_strtoul cp base;
  if (length tail =? length cp)%nat then Some (- EINVAL, 0) else
  c ← head tail;
  if (c =? 0) || ((len =? length cp - length tail + 1)%nat && (c =? 10)) then Some (0, val)
  else Some (- EINVAL, 0).

(** [long] arithmetic. *)
Definition simple_strtol (cp : list Z) (base : Z) : option (Z * list Z) :=
  c ← head cp;
  if c =? 45 then '(v, e) ← simple_strtoul (drop 1 cp) base; Some (s32 (- v), e)
  else '(v, e) ← simple_strtoul cp base; Some (s32 v, e).

Definition ustrtoul (cp : list Z) (base : Z) : option (Z * list Z) :=
  '(result, endp) ← simple_strtoul cp base;
  c ← head endp;
  let result := if c =? 71 then u32 (result * 1024) else result in
  let result := if (c =? 71) || (c =? 77) then u32 (result * 1024) else result in
  if (c =? 71) || (c =? 77) || (c =? 75) || (c =? 107) then
    let result := u32 (result * 1024) in
    d ← endp !! 1%nat;
    if d =? 105 then
      e ← endp !! 2%nat;
      Some (result, if e =? 66 then drop 3 endp else drop 2 endp)
    else Some (result, endp)
  else Some (result, endp).

(** ** Strings from numbers *)

(** The least significant digit first; [unsigned] arithmetic stays small. *)
Definition put_dec_trunc (q : Z) : list Z :=
  let d1 := (q .>> 4) .& 0xf in
  let d2 := (q .>> 8) .& 0xf in
  let d3 := q .>> 12 in
  let d0 := 6 * (d3 + d2 + d1) + (q .& 0xf) in
  let q := (d0 * 0xcd) .>> 11 in
  let d0 := d0 - 10 * q in
  let d1 := q + 9 * d3 + 5 * d2 + d1 in
  (d0 + 48) ::
  (if negb (d1 =? 0) then
     let q := (d1 * 0xcd) .>> 11 in
     let d1 := d1 - 10 * q in
     let d2 := q + 2 * d2 in
     (d1 + 48) ::
     (if negb (d2 =? 0) || negb (d3 =? 0) then
        let q := (d2 * 0xd) .>> 7 in
        let d2 := d2 - 10 * q in
        let d3 := q + 4 * d3 in
        (d2 + 48) ::
        (if negb (d3 =? 0) then
           let q := (d3 * 0xcd) .>> 11 in
           let d3 := d3 - 10 * q in
           (d3 + 48) :: (if negb (q =? 0) then [q + 48] else [])
         else [])
      else [])
   else []).

Definition put_dec_full (q : Z) : list Z :=
  let d1 := (q .>> 4) .& 0xf in
  let d2 := (q .>> 8) .& 0xf in
  let d3 := q .>> 12 in
  let d0 := 6 * (d3 + d2 + d1) + (q .& 0xf) in
  let q := (d0 * 0xcd) .>> 11 in
  let d0 := d0 - 10 * q in
  let d1 := q + 9 * d3 + 5 * d2 + d1 in
  let q := (d1 * 0xcd) .>> 11 in
  let d1 := d1 - 10 * q in
  let d2 := q + 2 * d2 in
  let q := (d2 * 0xd) .>> 7 in
  let d2 := d2 - 10 * q in
  let d3 := q + 4 * d3 in
  let q := (d3 * 0xcd) .>> 11 in
  let d3 := d3 - 10 * q in
  [d0 + 48; d1 + 48; d2 + 48; d3 + 48; q + 48].

(** [fuel]: a [u64] has at most four groups of five digits. *)
Fixpoint put_dec (fuel : nat) (num : Z) : list Z :=
  if num <? 100000 then put_dec_trunc num else
  match fuel with
  | O => []
  | S fuel => put_dec_full (num mod 100000) ++ put_dec fuel (num / 100000)
  end.

Definition ZEROPAD : Z := 1.
Definition SIGN : Z := 2.
Definition PLUS : Z := 4.
Definition SPACE : Z := 8.
Definition LEFT : Z := 16.
Definition SMALL : Z := 32.
Definition SPECIAL : Z := 64.

Definition has (flags flag : Z) : bool := negb (flags .& flag =? 0).

Definition digits : list Z := bytes_of "0123456789ABCDEF".

(** [do { tmp[i++] = ...; num >>= shift; } while (num)] *)
Fixpoint pow2_digits (fuel : nat) (num mask shift locase : Z) : list Z :=
  match fuel with
  | O => []
  | S fuel =>
      (nth (Z.to_nat (u8 num .& mask)) digits 0 .| locase) ::
      (if negb (num .>> shift =? 0) then pow2_digits fuel (num .>> shift) mask shift locase else [])
  end.

(** [while (--n >= 0) ADDCH(buf, c)]: the characters, and [n] behind the loop. *)
Definition padding (n c : Z) : list Z := replicate (Z.to_nat n) c.
Definition after_padding (n : Z) : Z := if 0 <? n then -1 else n - 1.

(** [tmp], least significant digit first. *)
Definition number_digits (num base locase : Z) : list Z :=
  if num =? 0 then [48]
  else if negb (base =? 10) then
    pow2_digits 66 num (base - 1) (if base =? 16 then 4 else 3) locase
  else put_dec 4 num.

Definition number (num base size precision type : Z) : list Z :=
  let need_pfx := has type SPECIAL && negb (base =? 10) in
  let locase := type .& SMALL in
  let type := if has type LEFT then type .& Z.lnot ZEROPAD else type in
  let '(sign, num, size) :=
    (if has type SIGN then
       if s64 num <? 0 then ([45], u64 (- s64 num), size - 1)
       else if has type PLUS then ([43], num, size - 1)
       else if has type SPACE then ([32], num, size - 1)
       else ([], num, size)
     else ([], num, size)) in
  let size := if need_pfx then (if base =? 16 then size - 2 else size - 1) else size in
  let tmp := number_digits num base locase in
  let i := Z.of_nat (length tmp) in
  let precision := if precision <? i then i else precision in
  let size := size - precision in
  let '(lead, size) :=
    (if negb (has type (ZEROPAD + LEFT)) then (padding size 32, after_padding size) else ([], size)) in
  let pfx := if need_pfx then 48 :: (if base =? 16 then [88 .| locase] else []) else [] in
  let '(fill, size) :=
    (if negb (has type LEFT)
     then (padding size (if has type ZEROPAD then 48 else 32), after_padding size) else ([], size)) in
  lead ++ sign ++ pfx ++ fill ++ padding (precision - i) 48 ++ rev tmp ++ padding size 32.

(** [s] is [None] for a null pointer. *)
Definition string_ (s : option (list Z)) (field_width precision flags : Z) : option (list Z) :=
  let s := default (cstr (bytes_of "<NULL>")) s in
  len ← strnlen s (u32 precision);
  let pad := field_width - Z.of_nat len in
  Some ((if negb (has flags LEFT) then padding pad 32 else []) ++ take len s
        ++ (if has flags LEFT then padding pad 32 else [])).

Definition hex_asc : list Z := bytes_of "0123456789abcdef".

Definition pack_hex_byte (b : Z) : list Z :=
  [nth (Z.to_nat ((b .& 0xf0) .>> 4)) hex_asc 0; nth (Z.to_nat (b .& 0x0f)) hex_asc 0].

(** [addr] is the memory at the pointer. *)
Definition mac_address_string (addr : list Z) (field_width precision flags : Z) : option (list Z) :=
  if (length addr <? 6)%nat then None else
  let mac := concat (imap (fun i b => pack_hex_byte b
                      ++ (if negb (has flags SPECIAL) && negb (i =? 5)%nat then [58] else [])) (take 6 addr)) in
  string_ (Some (cstr mac)) field_width precision (flags .& Z.lnot SPECIAL).

Definition ip6_addr_string (addr : list Z) (field_width precision flags : Z) : option (list Z) :=
  if (length addr <? 16)%nat then None else
  let ip := concat (imap (fun i b => pack_hex_byte b
                     ++ (if negb (has flags SPECIAL) && Nat.odd i && negb (i =? 15)%nat then [58] else []))
                     (take 16 addr)) in
  string_ (Some (cstr ip)) field_width precision (flags .& Z.lnot SPECIAL).

Definition ip4_addr_string (addr : list Z) (field_width precision flags : Z) : option (list Z) :=
  if (length addr <? 4)%nat then None else
  let ip := concat (imap (fun i b => rev (put_dec_trunc b) ++ (if negb (i =? 3)%nat then [46] else []))
                     (take 4 addr)) in
  string_ (Some (cstr ip)) field_width precision (flags .& Z.lnot SPECIAL).

(** ** The formatter *)

(** The arguments behind the format: an [int], [long] or [size_t] as its
    32-bit word, a [long long], a string, a pointer with the memory there. *)
Inductive arg :=
  | AInt (v : Z)
  | ALongLong (v : Z)
  | AStr (s : option (list Z))
  | APtr (addr : Z) (mem : list Z)
  | AStore.

Definition pointer (fmt : list Z) (addr : Z) (mem : list Z) (field_width precision flags : Z)
    : option (list Z) :=
  let plain flags :=
    let flags := flags .| SMALL in
    let '(field_width, flags) :=
      if field_width =? -1 then (8, flags .| ZEROPAD) else (field_width, flags) in
    Some (number addr 16 field_width precision flags) in
  c ← head fmt;
  if c =? 109 then mac_address_string mem field_width precision (flags .| SPECIAL)
  else if c =? 77 then mac_address_string mem field_width precision flags
  else if (c =? 105) || (c =? 73) then
    let flags := if c =? 105 then flags .| SPECIAL else flags in
    d ← fmt !! 1%nat;
    if d =? 54 then ip6_addr_string mem field_width precision flags
    else if d =? 52 then ip4_addr_string mem field_width precision flags
    else plain (flags .& Z.lnot SPECIAL)
  else plain flags.

Definition is_digit (c : Z) : bool := (48 <=? c) && (c <=? 57).

Fixpoint skip_atoi (s : list Z) (i : Z) : option (Z * list Z) :=
  match s with
  | [] => None
  | c :: s' => if is_digit c then skip_atoi s' (s32 (i * 10 + c - 48)) else Some (i, s)
  end.

(** [repeat: ++fmt; switch ( *fmt)] *)
Fixpoint parse_flags (fmt : list Z) (flags : Z) : option (Z * list Z) :=
  match fmt with
  | [] => None
  | c :: fmt' =>
      if c =? 45 then parse_flags fmt' (flags .| LEFT)
      else if c =? 43 then parse_flags fmt' (flags .| PLUS)
      else if c =? 32 then parse_flags fmt' (flags .| SPACE)
      else if c =? 35 then parse_flags fmt' (flags .| SPECIAL)
      else if c =? 48 then parse_flags fmt' (flags .| ZEROPAD)
      else Some (flags, fmt)
  end.

(** A number or [*]: the value, the format and the arguments behind it. *)
Definition parse_width (fmt : list Z) (args : list arg) : option (option Z * list Z * list arg) :=
  c ← head fmt;
  if is_digit c then '(v, fmt) ← skip_atoi fmt 0; Some (Some v, fmt, args)
  else if c =? 42 then
    match args with
    | AInt v :: args => Some (Some (s32 v), drop 1 fmt, args)
    | _ => None
    end
  else Some (None, fmt, args).

Definition parse_precision (fmt : list Z) (args : list arg) : option (Z * list Z * list arg) :=
  c ← head fmt;
  if c =? 46 then
    '(v, fmt, args) ← parse_width (drop 1 fmt) args;
    let precision := default (-1) v in
    Some (if precision <? 0 then 0 else precision, fmt, args)
  else Some (-1, fmt, args).

(** [h l L Z z t]; [ll] is [L]. *)
Definition parse_qualifier (fmt : list Z) : option (Z * list Z) :=
  c ← head fmt;
  if (c =? 104) || (c =? 108) || (c =? 76) || (c =? 90) || (c =? 122) || (c =? 116) then
    d ← fmt !! 1%nat;
    if (c =? 108) && (d =? 108) then Some (76, drop 2 fmt) else Some (c, drop 1 fmt)
  else Some (-1, fmt).

Definition isalnum (c : Z) : bool := negb (__ismask c .& 0x07 =? 0).

(** [while (isalnum(fmt[1])) fmt++] *)
Fixpoint skip_alnum (fmt : list Z) : option (list Z) :=
  match fmt with
  | [] => None
  | c :: fmt' => if isalnum c then skip_alnum fmt' else Some fmt
  end.

(** The next argument as the [u64] that is printed. *)
Definition integer_arg (qualifier flags : Z) (args : list arg) : option (Z * list arg) :=
  match args with
  | ALongLong v :: args => if qualifier =? 76 then Some (u64 v, args) else None
  | AInt v :: args =>
      if qualifier =? 76 then None
      else if qualifier =? 108 then Some (if has flags SIGN then u64 (s32 v) else u32 v, args)
      else if (qualifier =? 90) || (qualifier =? 122) then Some (u32 v, args)
      else if qualifier =? 116 then Some (u64 (s32 v), args)
      else if qualifier =? 104 then Some (if has flags SIGN then u64 (signed 16 v) else u16 v, args)
      else Some (if has flags SIGN then u64 (s32 v) else u32 v, args)
  | _ => None
  end.

(** The [switch] on the conversion character: the output, the format and the
    arguments that are left; [%n] stores the length [n] so far. *)
Definition conversion (flags field_width precision qualifier : Z) (fmt : list Z) (args : list arg) (n : Z)
    : option (list Z * list Z * list arg * list Z) :=
  c ← head fmt;
  let fmt' := drop 1 fmt in
  let integer base flags :=
    '(num, args) ← integer_arg qualifier flags args;
    Some (number num base field_width precision flags, fmt', args, []) in
  if c =? 99 then
    match args with
    | AInt v :: args =>
        let pad := padding (field_width - 1) 32 in
        Some (if has flags LEFT then u8 v :: pad else pad ++ [u8 v], fmt', args, [])
    | _ => None
    end
  else if c =? 115 then
    match args with
    | AStr s :: args => o ← string_ s field_width precision flags; Some (o, fmt', args, [])
    | _ => None
    end
  else if c =? 112 then
    match args with
    | APtr addr mem :: args =>
        o ← pointer fmt' addr mem field_width precision flags;
        fmt' ← skip_alnum fmt';
        Some (o, fmt', args, [])
    | _ => None
    end
  else if c =? 110 then
    match args with AStore :: args => Some ([], fmt', args, [n]) | _ => None end
  else if c =? 37 then Some ([37], fmt', args, [])
  else if c =? 111 then integer 8 flags
  else if c =? 120 then integer 16 (flags .| SMALL)
  else if c =? 88 then integer 16 flags
  else if (c =? 100) || (c =? 105) then integer 10 (flags .| SIGN)
  else if c =? 117 then integer 10 flags
  else if c =? 0 then Some ([37], fmt, args, [])
  else Some ([37; c], fmt', args, []).

(** The characters stored before the final NUL and the values stored by [%n]. *)
Fixpoint vsnprintf_internal (fuel : nat) (fmt : list Z) (args : list arg) (out stores : list Z)
    : option (list Z * list Z) :=
  match fuel with
  | O => None
  | S fuel =>
      c ← head fmt;
      if c =? 0 then Some (out, stores) else
      if negb (c =? 37) then vsnprintf_internal fuel (drop 1 fmt) args (out ++ [c]) stores else
      '(flags, fmt) ← parse_flags (drop 1 fmt) 0;
      star ← head fmt;
      '(width, fmt, args) ← parse_width fmt args;
      let field_width := default (-1) width in
      let '(field_width, flags) :=
        if (star =? 42) && (field_width <? 0) then (- field_width, flags .| LEFT)
        else (field_width, flags) in
      '(precision, fmt, args) ← parse_precision fmt args;
      '(qualifier, fmt) ← parse_qualifier fmt;
      '(o, fmt, args, st) ←
        conversion flags field_width precision qualifier fmt args (Z.of_nat (length out));
      vsnprintf_internal fuel fmt args (out ++ o) (stores ++ st)
  end.

(** What [sprintf(buf, fmt, ...)] leaves in [buf], the NUL included. *)
Definition sprintf (fmt : str) (args : list arg) : option (list Z) :=
  '(out, _) ← vsnprintf_internal (length fmt + 1) (cstr fmt) args [] []; Some (out ++ [0]).

(** The digits of [simple_itoa]; [local] has room for 21. *)
Fixpoint simple_itoa_loop (fuel : nat) (i : Z) (acc : list Z) : list Z :=
  match fuel with
  | O => acc
  | S fuel =>
      let acc := (48 + i mod 10) :: acc in
      if 0 <? i / 10 then simple_itoa_loop fuel (i / 10) acc else acc
  end.

Definition simple_itoa (i : Z) : list Z := simple_itoa_loop 21 i [].

Example sprintf_ex :
  sprintf (bytes_of "ubi %s 0x%x %-4d|%5.3d|%+d %08lx %pM %pI4%%")
    [AStr (Some (cstr (bytes_of "read"))); AInt 0xc0ffee; AInt 7; AInt 7; AInt (u32 (-12));
     AInt 0xbeef; APtr 0 [0; 0x1b; 0x21; 255; 1; 2]; APtr 0 [192; 168; 0; 1]]
  = Some (cstr (bytes_of "ubi read 0xc0ffee 7   |  007|-12 0000beef 00:1b:21:ff:01:02 192.168.0.1%")).
Proof. by vm_compute. Qed.

(** ** Printing and reading back *)

(** A digit character of a base. *)
Definition digit (base c : Z) : Prop := isxdigit c = true /\ 0 <= digit_value c < base.

#[global] Instance digit_dec base c : Decision (digit base c).
Proof. unfold digit. apply _. Defined.

(** The value of digits, least significant first. *)
Definition value (base : Z) (l : list Z) : Z := foldr (fun c v => digit_value c + base * v) 0 l.

Lemma value_app base l1 l2 : value base (l1 ++ l2) = value base l1 + base ^ Z.of_nat (length l1) * value base l2.
Proof.
  induction l1 as [|c l IH]; [cbn [app length]; change (Z.of_nat 0) with 0; rewrite Z.pow_0_r; change (value base []) with 0; lia|]. cbn [app value foldr length]. fold (value base (l ++ l2)) (value base l).
  rewrite IH, Nat2Z.inj_succ, Z.pow_succ_r by lia. lia.
Qed.

Lemma value_nonneg base l : 0 <= base -> Forall (digit base) l -> 0 <= value base l.
Proof.
  intros Hb. induction 1 as [|c l [_ Hc] _ IH]; [done|]. cbn [value foldr]. fold (value base l).
  nia.
Qed.

(** What stops the conversion: neither a digit nor the x of a prefix. *)
Definition stops (y : list Z) : Prop :=
  match y with c :: _ => isxdigit c = false /\ c <> 120 | [] => False end.

Lemma digits_loop_value w base l y : forall acc,
  stops y -> Forall (digit base) l ->
  digits_loop w (rev l ++ y) base (wrap w acc) = Some (wrap w (acc * base ^ Z.of_nat (length l) + value base l), y).
Proof.
  intros acc Hy Hl. revert acc. induction l as [|c l IH] using rev_ind; intros acc.
  - cbn [rev app length]. destruct y as [|c y]; [done|]. destruct Hy as [Hy _]. cbn [digits_loop value foldr].
    rewrite Hy. cbn [andb]. do 3 f_equal. cbn. lia.
  - apply Forall_app in Hl as [Hl Hc]. rewrite Forall_singleton in Hc. destruct Hc as [Hx Hv].
    rewrite rev_app_distr. cbn [rev app digits_loop]. rewrite Hx.
    destruct (Z.ltb_spec (digit_value c) base); [|lia]. cbn [andb].
    rewrite <- (wrap_add_l w (wrap w acc * base)).
    assert (E : wrap w (wrap w acc * base) = wrap w (acc * base)) by (unfold wrap; by rewrite Zmult_mod_idemp_l).
    rewrite E, wrap_add_l, IH by done. do 3 f_equal.
    rewrite value_app, length_app. cbn [value foldr length].
    rewrite Nat2Z.inj_add, Z.pow_add_r by lia. change (Z.of_nat 1) with 1. rewrite Z.pow_1_r. ring.
Qed.

Lemma prefix_digits base l y :
  stops y -> Forall (digit base) l -> l <> [] -> 0 < base ->
  exists l', number_prefix (rev l ++ y) base = Some (base, rev l' ++ y)
    /\ Forall (digit base) l' /\ value base l' = value base l.
Proof.
  intros Hy Hl Hne Hb. destruct l as [|c l _] using rev_ind; [done|].
  apply Forall_app in Hl as [Hl Hc]. rewrite Forall_singleton in Hc. destruct Hc as [Hx Hv].
  rewrite rev_app_distr. cbn [rev app]. unfold number_prefix. cbn [head mbind option_bind].
  destruct (Z.eqb_spec c 48) as [->|Hne0].
  - exists l. cbn [drop]. rewrite drop_0.
    assert (Hh : exists d, head (rev l ++ y) = Some d /\ d <> 120).
    { destruct l as [|d l _] using rev_ind.
      - destruct y as [|d y]; [done|]. exists d. split; [done|]. apply Hy.
      - apply Forall_app in Hl as [_ Hd]. rewrite Forall_singleton in Hd. destruct Hd as [Hd _].
        rewrite rev_app_distr. exists d. split; [done|]. intros ->. done. }
    destruct Hh as (d & -> & Hd). cbn [mbind option_bind]. destruct (Z.eqb_spec d 120); [done|].
    cbn [mbind option_bind]. destruct (Z.eqb_spec base 0); [lia|].
    cbn [mbind option_bind]. destruct (Z.eqb_spec base 0); [lia|]. split_and!; [done..|].
    rewrite value_app. cbn [value foldr]. change (digit_value 48) with 0. lia.
  - exists (l ++ [c]). cbn [mbind option_bind]. destruct (Z.eqb_spec base 0); [lia|].
    rewrite rev_app_distr. split_and!; [done| |done]. apply Forall_app. by rewrite Forall_singleton.
Qed.

Lemma strtoul_value base l y :
  stops y -> Forall (digit base) l -> l <> [] -> 0 < base ->
  simple_strtoul (rev l ++ y) base = Some (u32 (value base l), y).
Proof.
  intros Hy Hl Hne Hb. unfold simple_strtoul.
  destruct (prefix_digits base l y Hy Hl Hne Hb) as (l' & -> & Hl' & <-). cbn [mbind option_bind].
  pose proof (digits_loop_value 32 base l' y 0 Hy Hl') as H. change (wrap 32 0) with 0 in H.
  rewrite H. done.
Qed.

(** *** Decimal digits *)

(** The multiplications that stand for divisions by ten. *)
Lemma div10_205 x : 0 <= x < 400 -> (x * 0xcd) .>> 11 = x / 10.
Proof.
  intros Hx. assert (H : forallb (fun k => (Z.of_nat k * 0xcd) .>> 11 =? Z.of_nat k / 10) (seq 0 400) = true)
    by (by vm_compute).
  rewrite forallb_forall in H. specialize (H (Z.to_nat x) ltac:(apply in_seq; lia)).
  by rewrite Z.eqb_eq, Z2Nat.id in H by lia.
Qed.

Lemma div10_13 x : 0 <= x < 69 -> (x * 0xd) .>> 7 = x / 10.
Proof.
  intros Hx. assert (H : forallb (fun k => (Z.of_nat k * 0xd) .>> 7 =? Z.of_nat k / 10) (seq 0 69) = true)
    by (by vm_compute).
  rewrite forallb_forall in H. specialize (H (Z.to_nat x) ltac:(apply in_seq; lia)).
  by rewrite Z.eqb_eq, Z2Nat.id in H by lia.
Qed.

Lemma dec_digit d : 0 <= d < 10 -> digit 10 (d + 48) /\ digit_value (d + 48) = d.
Proof.
  intros Hd. assert (H : forallb (fun k => bool_decide (digit 10 (Z.of_nat k + 48))
    && (digit_value (Z.of_nat k + 48) =? Z.of_nat k)) (seq 0 10) = true) by (by vm_compute).
  rewrite forallb_forall in H. specialize (H (Z.to_nat d) ltac:(apply in_seq; lia)).
  by rewrite andb_true_iff, bool_decide_eq_true, Z.eqb_eq, Z2Nat.id in H by lia.
Qed.

(** The hexadecimal digits of the number the code starts from. *)
Lemma nibbles q :
  0 <= q < 100000 ->
  q = (q .& 0xf) + 16 * ((q .>> 4) .& 0xf) + 256 * ((q .>> 8) .& 0xf) + 4096 * (q .>> 12)
  /\ 0 <= q .& 0xf < 16 /\ 0 <= (q .>> 4) .& 0xf < 16 /\ 0 <= (q .>> 8) .& 0xf < 16 /\ 0 <= q .>> 12 < 25.
Proof.
  intros Hq. change 0xf with (Z.ones 4). rewrite !Z.land_ones, !Z.shiftr_div_pow2 by lia.
  change (2 ^ 4) with 16. change (2 ^ 8) with 256. change (2 ^ 12) with 4096.
  Z.div_mod_to_equations. lia.
Qed.

(** The digits of a number below ten to the fifth, with the nibbles of [q]. *)
Section Dec.
Context (q n0 n1 n2 n3 : Z).
Hypothesis bounds : 0 <= n0 < 16 /\ 0 <= n1 < 16 /\ 0 <= n2 < 16 /\ 0 <= n3 < 25.
Hypothesis q_small : q < 100000.
Hypothesis value_q : q = n0 + 16 * n1 + 256 * n2 + 4096 * n3.

#[local] Abbreviation e0 := (6 * (n3 + n2 + n1) + n0).
#[local] Abbreviation e1 := (e0 / 10 + 9 * n3 + 5 * n2 + n1).
#[local] Abbreviation e2 := (e1 / 10 + 2 * n2).
#[local] Abbreviation e3 := (e2 / 10 + 4 * n3).

Lemma dec_sum :
  q = e0 mod 10 + 10 * (e1 mod 10 + 10 * (e2 mod 10 + 10 * (e3 mod 10 + 10 * (e3 / 10))))
  /\ 0 <= e0 < 400 /\ 0 <= e1 < 400 /\ 0 <= e2 < 69 /\ 0 <= e3 < 100.
Proof. Z.div_mod_to_equations. lia. Qed.

End Dec.

Lemma mod10_sub x : x - 10 * (x / 10) = x mod 10.
Proof. Z.div_mod_to_equations. lia. Qed.

Lemma value_digits l :
  Forall (fun d => 0 <= d < 10) l ->
  Forall (digit 10) (map (fun d => d + 48) l)
  /\ value 10 (map (fun d => d + 48) l) = foldr (fun d v => d + 10 * v) 0 l.
Proof.
  induction 1 as [|d l Hd _ [IH1 IH2]]; [split; [constructor|done]|].
  destruct (dec_digit d Hd) as [H1 H2]. cbn [map]. split; [by constructor|].
  cbn [value foldr]. fold (value 10 (map (fun d => d + 48) l)). by rewrite H2, IH2.
Qed.

Ltac digits_in := repeat (apply Forall_cons_2; [by first [apply Z.mod_pos_bound|assumption]|]); apply Forall_nil_2.

Lemma dec_digits q :
  0 <= q < 100000 ->
  (Forall (digit 10) (put_dec_trunc q) /\ value 10 (put_dec_trunc q) = q)
  /\ Forall (digit 10) (put_dec_full q) /\ value 10 (put_dec_full q) = q.
Proof.
  intros Hq. destruct (nibbles q Hq) as (Eq & Hn0 & Hn1 & Hn2 & Hn3).
  unfold put_dec_trunc, put_dec_full.
  set (n0 := q .& 0xf) in *. set (n1 := (q .>> 4) .& 0xf) in *.
  set (n2 := (q .>> 8) .& 0xf) in *. set (n3 := q .>> 12) in *.
  destruct (dec_sum q n0 n1 n2 n3) as (Hsum & H0 & H1 & H2 & H3); [lia|lia|lia|].
  cbv zeta. rewrite (div10_205 _ H0), mod10_sub.
  set (x0 := 6 * (n3 + n2 + n1) + n0) in *. set (x1 := x0 / 10 + 9 * n3 + 5 * n2 + n1) in *.
  rewrite (div10_205 _ H1), mod10_sub. set (x2 := x1 / 10 + 2 * n2) in *.
  rewrite (div10_13 _ H2), mod10_sub. set (x3 := x2 / 10 + 4 * n3) in *.
  rewrite (div10_205 x3) by lia. rewrite mod10_sub.
  assert (Hm : forall x, 0 <= x mod 10 < 10) by (intros; apply Z.mod_pos_bound; lia).
  assert (Ht : 0 <= x3 / 10 < 10) by (Z.div_mod_to_equations; lia).
  split.
  - destruct (Z.eqb_spec x1 0) as [E1|E1]; cbn [negb].
    { destruct (value_digits [x0 mod 10]) as [? Hv]; [digits_in|]. split; [done|].
      cbn [map] in Hv. rewrite Hv. cbn [foldr]. unfold x1, x2, x3 in *. Z.div_mod_to_equations. lia. }
    destruct (Z.eqb_spec x2 0) as [E2|E2], (Z.eqb_spec n3 0) as [E3|E3]; cbn [negb orb].
    { destruct (value_digits [x0 mod 10; x1 mod 10]) as [? Hv]; [digits_in|].
      split; [done|]. cbn [map] in Hv. rewrite Hv. cbn [foldr]. unfold x3 in *. Z.div_mod_to_equations. lia. }
    all: destruct (Z.eqb_spec x3 0) as [E4|E4]; cbn [negb];
      [destruct (value_digits [x0 mod 10; x1 mod 10; x2 mod 10]) as [? Hv];
        [digits_in|];
        split; [done|]; cbn [map] in Hv; rewrite Hv; cbn [foldr]; rewrite E4, Zmod_0_l, Zdiv_0_l in Hsum; lia|].
    all: destruct (Z.eqb_spec (x3 / 10) 0) as [E5|E5]; cbn [negb];
      [destruct (value_digits [x0 mod 10; x1 mod 10; x2 mod 10; x3 mod 10]) as [? Hv]; [digits_in|]
      |destruct (value_digits [x0 mod 10; x1 mod 10; x2 mod 10; x3 mod 10; x3 / 10]) as [? Hv]; [digits_in|]];
      (split; [done|]; cbn [map] in Hv; rewrite Hv; cbn [foldr]; lia).
  - destruct (value_digits [x0 mod 10; x1 mod 10; x2 mod 10; x3 mod 10; x3 / 10]) as [? Hv];
      [digits_in|].
    split; [done|]. cbn [map] in Hv. rewrite Hv. cbn [foldr]. lia.
Qed.

Lemma put_dec_value fuel num :
  0 <= num < 100000 ^ (Z.of_nat fuel + 1) ->
  Forall (digit 10) (put_dec fuel num) /\ value 10 (put_dec fuel num) = num /\ put_dec fuel num <> [].
Proof.
  revert num. induction fuel as [|fuel IH]; intros num Hn; cbn [put_dec].
  - destruct (Z.ltb_spec num 100000); [|lia]. destruct (dec_digits num) as [[? ?] _]; [lia|]. done.
  - destruct (Z.ltb_spec num 100000).
    { destruct (dec_digits num) as [[? ?] _]; [lia|]. done. }
    destruct (dec_digits (num mod 100000)) as [_ [Hf Hv]]; [apply Z.mod_pos_bound; lia|].
    destruct (IH (num / 100000)) as (Hd & Hv' & _).
    { split; [apply Z.div_pos; lia|]. apply Z.div_lt_upper_bound; [lia|].
      rewrite Nat2Z.inj_succ, <- Z.add_1_r, Z.pow_add_r in Hn by lia. lia. }
    split_and!; [by apply Forall_app| |done].
    rewrite value_app, Hv, Hv'. change (10 ^ Z.of_nat (length (put_dec_full (num mod 100000)))) with 100000.
    rewrite (Z.div_mod num 100000) at 3 by lia. lia.
Qed.

(** *** Hexadecimal digits *)

Lemma hex_digit k locase :
  0 <= k < 16 -> locase = 0 \/ locase = 32 ->
  isxdigit (nth (Z.to_nat k) digits 0 .| locase) = true
  /\ digit_value (nth (Z.to_nat k) digits 0 .| locase) = k.
Proof.
  intros Hk Hl. assert (Hall : forallb (fun k => forallb (fun lc =>
    isxdigit (nth k digits 0 .| lc) && (digit_value (nth k digits 0 .| lc) =? Z.of_nat k)) [0; 32]) (seq 0 16) = true)
    by (by vm_compute).
  rewrite forallb_forall in Hall. specialize (Hall (Z.to_nat k) ltac:(apply in_seq; lia)).
  rewrite forallb_forall in Hall. specialize (Hall locase ltac:(cbn; intuition)).
  rewrite andb_true_iff, Z.eqb_eq, Z2Nat.id in Hall by lia. done.
Qed.

Lemma hex_value fuel num locase :
  0 <= num < 16 ^ Z.of_nat fuel -> locase = 0 \/ locase = 32 -> (0 < fuel)%nat ->
  Forall (digit 16) (pow2_digits fuel num 15 4 locase) /\ value 16 (pow2_digits fuel num 15 4 locase) = num
  /\ pow2_digits fuel num 15 4 locase <> [].
Proof.
  revert num. induction fuel as [|fuel IH]; intros num Hn Hl Hf; [lia|]. cbn [pow2_digits].
  assert (Hm : u8 num .& 15 = num mod 16).
  { change 15 with (Z.ones 4). rewrite Z.land_ones by lia. unfold wrap.
    change (2 ^ 8) with 256. change (2 ^ 4) with 16. clear. Z.div_mod_to_equations. lia. }
  assert (Hs : num .>> 4 = num / 16) by (by rewrite Z.shiftr_div_pow2).
  rewrite Hm, Hs. pose proof (Z.mod_pos_bound num 16 ltac:(lia)) as Hb.
  destruct (hex_digit (num mod 16) locase Hb Hl) as [Hx Hv].
  pose proof (Z.div_mod num 16 ltac:(lia)) as Hd.
  destruct (Z.eqb_spec (num / 16) 0) as [E|E]; cbn [negb].
  - split_and!; [|cbn [value foldr]; lia|done]. constructor; [|constructor]. split; [done|lia].
  - destruct fuel as [|fuel]; [change (16 ^ Z.of_nat 1) with 16 in Hn; exfalso; apply E, Z.div_small; lia|].
    destruct (IH (num / 16)) as (Hd' & Hv' & _); [|done|lia|].
    { split; [apply Z.div_pos; lia|]. apply Z.div_lt_upper_bound; [lia|].
      rewrite Nat2Z.inj_succ, Z.pow_succ_r in Hn by lia. lia. }
    split_and!; [constructor; [split; [done|lia]|done]| |done].
    cbn [value foldr]. fold (value 16 (pow2_digits (S fuel) (num / 16) 15 4 locase)). lia.
Qed.

Lemma number_plain num base locase :
  locase = 0 \/ locase = SMALL -> number num base (-1) (-1) locase = rev (number_digits num base locase).
Proof.
  intros Hl. unfold number.
  assert (Hhas : forall f, f = SPECIAL \/ f = LEFT \/ f = SIGN \/ f = ZEROPAD \/ f = ZEROPAD + LEFT -> has locase f = false)
    by (intros f Hf; destruct Hl as [->| ->]; destruct Hf as [->|[->|[->|[->| ->]]]]; done).
  rewrite !Hhas by auto 10. cbn [andb negb].
  assert (locase .& SMALL = locase) as -> by (destruct Hl as [->| ->]; done).
  set (i := Z.of_nat (length _)). destruct (Z.ltb_spec (-1) i); [|lia].
  unfold padding, after_padding.
  replace (Z.to_nat (-1 - i)) with 0%nat by lia. replace (Z.to_nat (i - i)) with 0%nat by lia.
  destruct (Z.ltb_spec 0 (-1 - i)); [lia|]. replace (Z.to_nat (-1 - i - 1)) with 0%nat by lia.
  destruct (Z.ltb_spec 0 (-1 - i - 1)); [lia|]. replace (Z.to_nat (-1 - i - 1 - 1)) with 0%nat by lia.
  cbn [replicate app]. by rewrite app_nil_r.
Qed.

Lemma hex_digits_ok n :
  0 <= n < 2 ^ 32 ->
  Forall (digit 16) (number_digits n 16 32) /\ value 16 (number_digits n 16 32) = n /\ number_digits n 16 32 <> [].
Proof.
  intros Hn. unfold number_digits. destruct (Z.eqb_spec n 0) as [->|]; [by apply (bool_decide_unpack _)|].
  change (negb (16 =? 10)) with true. change (16 =? 16) with true. cbn iota. change (16 - 1) with 15.
  apply hex_value; [|auto|lia]. split; [lia|]. apply (Z.lt_trans _ (16 ^ 8)); [cbn; lia|].
  apply Z.pow_lt_mono_r; lia.
Qed.

(** Hexadecimal digits behind 0x. *)
Lemma strtoul_0x l y :
  stops y -> Forall (digit 16) l -> l <> [] ->
  simple_strtoul (48 :: 120 :: rev l ++ y) 16 = Some (u32 (value 16 l), y).
Proof.
  intros Hy Hl Hne. unfold simple_strtoul, number_prefix. cbn [head mbind option_bind Z.eqb Pos.eqb drop].
  rewrite drop_0. cbn [head mbind option_bind Z.eqb Pos.eqb].
  assert (Hx : exists d rest, rev l ++ y = d :: rest /\ isxdigit d = true).
  { destruct l as [|d l _] using rev_ind; [done|]. apply Forall_app in Hl as [_ Hd].
    rewrite Forall_singleton in Hd. destruct Hd as [Hd _]. exists d, (rev l ++ y). by rewrite rev_app_distr. }
  destruct Hx as (d & rest & E & Hd). rewrite E. cbn [lookup list_lookup mbind option_bind drop]. rewrite Hd.
  cbn [mbind option_bind Z.eqb Pos.eqb]. rewrite <- E.
  pose proof (digits_loop_value 32 16 l y 0 Hy Hl) as H. change (wrap 32 0) with 0 in H. by rewrite H.
Qed.

(** Characters that are not conversions are copied. *)
Definition text (s : list Z) : Prop := Forall (fun c => c <> 0 /\ c <> 37) s.

Lemma vsnprintf_text s fmt args st fuel : forall out,
  text s ->
  vsnprintf_internal (length s + fuel) (s ++ fmt) args out st = vsnprintf_internal fuel fmt args (out ++ s) st.
Proof.
  intros out Hs. revert out. induction Hs as [|c s [H0 H37] _ IH]; intros out; [by rewrite app_nil_r|].
  cbn [length Nat.add app vsnprintf_internal head mbind option_bind].
  destruct (Z.eqb_spec c 0); [done|]. destruct (Z.eqb_spec c 37); [done|]. cbn [negb drop].
  by rewrite drop_0, IH, <- app_assoc.
Qed.

Lemma sprintf_hex pre post n :
  text pre -> text post -> 0 <= n < 2 ^ 32 ->
  sprintf (pre ++ 37 :: 120 :: post) [AInt n] = Some (pre ++ rev (number_digits n 16 32) ++ post ++ [0]).
Proof.
  intros Hpre Hpost Hn. unfold sprintf, cstr. rewrite length_app. cbn [length].
  replace (length pre + S (S (length post)) + 1)%nat with (length pre + S (length post + 2))%nat by lia.
  rewrite <- app_assoc. cbn [app]. rewrite vsnprintf_text by done. cbn [app].
  change (vsnprintf_internal (S (length post + 2)) (37 :: 120 :: post ++ [0]) [AInt n] pre [])
    with (vsnprintf_internal (length post + 2) (post ++ [0]) [] (pre ++ number (u32 n) 16 (-1) (-1) 32) []).
  rewrite vsnprintf_text by done. cbn [vsnprintf_internal head mbind option_bind Z.eqb].
  rewrite u32_small, number_plain by auto. by rewrite <- !app_assoc.
Qed.

(** What [sprintf] prints of a 32-bit number with %lu or %lx,
    [simple_strtoul] in that base reads back as the number, and stops where
    the digits end. *)
Theorem print_read_roundtrip n y :
  0 <= n < 2 ^ 32 -> stops y ->
  (exists o, sprintf (bytes_of "%lu") [AInt n] = Some (o ++ [0]) /\ simple_strtoul (o ++ y) 10 = Some (n, y))
  /\ exists o, sprintf (bytes_of "%lx") [AInt n] = Some (o ++ [0]) /\ simple_strtoul (o ++ y) 16 = Some (n, y).
Proof.
  intros Hn Hy. split.
  - exists (rev (number_digits n 10 0)). split.
    + change (sprintf (bytes_of "%lu") [AInt n]) with (Some (number (u32 n) 10 (-1) (-1) 0 ++ [0])).
      rewrite u32_small, number_plain by auto. done.
    + assert (Hd : Forall (digit 10) (number_digits n 10 0) /\ value 10 (number_digits n 10 0) = n
        /\ number_digits n 10 0 <> []).
      { unfold number_digits. destruct (Z.eqb_spec n 0) as [->|]; [by apply (bool_decide_unpack _)|].
        cbn [negb Z.eqb Pos.eqb]. apply put_dec_value. change (100000 ^ (Z.of_nat 4 + 1)) with (10 ^ 25). lia. }
      destruct Hd as (Hd & Hv & Hne). rewrite strtoul_value, Hv, u32_small by (done || lia). done.
  - exists (rev (number_digits n 16 32)). split.
    + change (sprintf (bytes_of "%lx") [AInt n]) with (Some (number (u32 n) 16 (-1) (-1) 32 ++ [0])).
      rewrite u32_small, number_plain by auto. done.
    + pose proof (hex_digits_ok n Hn) as Hd.
      destruct Hd as (Hd & Hv & Hne). rewrite strtoul_value, Hv, u32_small by (done || lia). done.
Qed.

Lemma print_read_roundtrip_witness :
  (exists o, sprintf (bytes_of "%lu") [AInt 4000000000] = Some (o ++ [0])
     /\ simple_strtoul (o ++ [32; 0]) 10 = Some (4000000000, [32; 0]))
  /\ exists o, sprintf (bytes_of "%lx") [AInt 4000000000] = Some (o ++ [0])
     /\ simple_strtoul (o ++ [32; 0]) 16 = Some (4000000000, [32; 0]).
Proof. apply (print_read_roundtrip 4000000000 [32; 0]); [lia|by vm_compute]. Defined.

(** The result wraps around without an error. *)
Example strtoul_overflow : simple_strtoul (cstr (bytes_of "0x100000001")) 16 = Some (1, [0]).
Proof. by vm_compute. Qed.

End Vsprintf.
