(* ===== verification/FdtSupport.v ===== *)
(** * What the boot loader writes into a device tree (common/fdt_support.c)

    The fix-ups of the tree that is handed to Linux: command line and initial
    ramdisk in /chosen, memory banks, MAC addresses.  They are built on the
    editing functions of FdtRw.v and keep their conventions.  [getenv] is an
    argument; what is printed is left out.  [CONFIG_OF_STDOUT_VIA_ALIAS] and
    [OF_STDOUT_PATH] are not set. *)

From S2P Require Import Prelude Cstring Fdt FdtTree FdtQuery Vsprintf FdtRw FdtParts FdtEdit FdtOpen FdtPaths.

Module FdtSupport.
Import Cstring Fdt FdtQuery Vsprintf FdtRw.

(** Absolute paths need no alias. *)
Definition path_offset (fdt path : list Z) : option Z := fdt_path_offset 1 fdt path.

Definition null {A} (p : option A) : bool := match p with None => true | Some _ => false end.

Definition fdt_getprop_u32_default (fdt path prop : list Z) (dflt : Z) : option Z :=
  off ← path_offset fdt path;
  if off <? 0 then Some dflt else
  '(val, _) ← fdt_getprop fdt off prop;
  match val with Some p => rd32 fdt p | None => Some dflt end.

(** [fuel] is for a path that starts with an alias. *)
Definition fdt_find_and_setprop (fuel : nat) (fdt node prop val : list Z) (len : Z) (create : bool)
    : option (Z * list Z) :=
  nodeoff ← fdt_path_offset fuel fdt node;
  if nodeoff <? 0 then Some (nodeoff, fdt) else
  '(p, _) ← fdt_get_property fdt nodeoff prop;
  if negb create && null p then Some (0, fdt) else fdt_setprop fdt nodeoff prop val len.

(** ** /chosen *)

Definition CHOSEN : list Z := cstr (bytes_of "/chosen").

(** The loop that looks for an old entry; an address that [fdt_get_mem_rsv]
    does not store is never looked at. *)
Fixpoint del_old_rsv (n : nat) (fdt : list Z) (j initrd_start : Z) : option (list Z) :=
  match n with
  | O => Some fdt
  | S n =>
      r ← fdt_get_mem_rsv fdt j;
      match r with
      | inl _ => None
      | inr (addr, _) =>
          if addr =? initrd_start then '(_, fdt) ← fdt_del_mem_rsv fdt j; Some fdt
          else del_old_rsv n fdt (j + 1) initrd_start
      end
  end.

Definition fdt_initrd (fdt : list Z) (initrd_start initrd_end : Z) (force : bool) : option (Z * list Z) :=
  nodeoffset ← path_offset fdt CHOSEN;
  if nodeoffset <? 0 then Some (nodeoffset, fdt) else
  if (initrd_start =? 0) || (initrd_end =? 0) then Some (0, fdt) else
  total ← fdt_num_mem_rsv fdt;
  fdt ← del_old_rsv (Z.to_nat total) fdt 0 initrd_start;
  '(err, fdt) ← fdt_add_mem_rsv fdt initrd_start (u32 (initrd_end - initrd_start));
  if err <? 0 then Some (err, fdt) else
  '(path, _) ← fdt_getprop fdt nodeoffset (cstr (bytes_of "linux,initrd-start"));
  if null path || force then
    '(err, fdt) ← fdt_setprop fdt nodeoffset (cstr (bytes_of "linux,initrd-start")) (be_bytes 4 initrd_start) 4;
    if err <? 0 then Some (err, fdt) else
    '(err, fdt) ← fdt_setprop fdt nodeoffset (cstr (bytes_of "linux,initrd-end")) (be_bytes 4 initrd_end) 4;
    if err <? 0 then Some (err, fdt) else Some (0, fdt)
  else Some (0, fdt).

(** [bootargs] is the variable of that name. *)
Definition fdt_chosen (fdt : list Z) (bootargs : option (list Z)) (force : bool) : option (Z * list Z) :=
  err ← fdt_check_header fdt;
  if err <? 0 then Some (err, fdt) else
  nodeoffset ← path_offset fdt CHOSEN;
  '(nodeoffset, fdt) ← (if nodeoffset <? 0 then fdt_add_subnode fdt 0 (cstr (bytes_of "chosen"))
                        else Some (nodeoffset, fdt));
  if nodeoffset <? 0 then Some (nodeoffset, fdt) else
  match bootargs with
  | None => Some (err, fdt)
  | Some str =>
      '(path, _) ← fdt_getprop fdt nodeoffset (cstr (bytes_of "bootargs"));
      if null path || force then
        n ← strlen str; fdt_setprop fdt nodeoffset (cstr (bytes_of "bootargs")) str (Z.of_nat n + 1)
      else Some (err, fdt)
  end.

(** ** Fix-ups by path, value and compatible string *)

Definition do_fixup_by_path (fuel : nat) (fdt path prop val : list Z) (len : Z) (create : bool) : option (list Z) :=
  '(_, fdt) ← fdt_find_and_setprop fuel fdt path prop val len create; Some fdt.

Definition do_fixup_by_path_u32 (fuel : nat) (fdt path prop : list Z) (val : Z) (create : bool) : option (list Z) :=
  do_fixup_by_path fuel fdt path prop (be_bytes 4 val) 4 create.

(** [while (off != -FDT_ERR_NOTFOUND)]: any other error goes round again. *)
Fixpoint fixup_loop (fuel : nat) (next : list Z -> Z -> option Z) (fdt prop val : list Z) (len : Z) (create : bool)
    (off : Z) : option (list Z) :=
  match fuel with
  | O => None
  | S fuel =>
      if off =? - FDT_ERR_NOTFOUND then Some fdt else
      '(p, _) ← fdt_get_property fdt off prop;
      fdt ← (if create || negb (null p) then '(_, fdt) ← fdt_setprop fdt off prop val len; Some fdt else Some fdt);
      off ← next fdt off;
      fixup_loop fuel next fdt prop val len create off
  end.

Definition do_fixup_by_prop (fuel : nat) (fdt pname pval : list Z) (plen : Z) (prop val : list Z) (len : Z)
    (create : bool) : option (list Z) :=
  let next fdt off := fdt_node_offset_by_prop_value fdt off pname pval plen in
  off ← next fdt (-1); fixup_loop fuel next fdt prop val len create off.

Definition do_fixup_by_prop_u32 (fuel : nat) (fdt pname pval : list Z) (plen : Z) (prop : list Z) (val : Z)
    (create : bool) : option (list Z) :=
  do_fixup_by_prop fuel fdt pname pval plen prop (be_bytes 4 val) 4 create.

Definition do_fixup_by_compat (fuel : nat) (fdt compat prop val : list Z) (len : Z) (create : bool)
    : option (list Z) :=
  let next fdt off := fdt_node_offset_by_compatible fdt off compat in
  off ← next fdt (-1); fixup_loop fuel next fdt prop val len create off.

Definition do_fixup_by_compat_u32 (fuel : nat) (fdt compat prop : list Z) (val : Z) (create : bool)
    : option (list Z) :=
  do_fixup_by_compat fuel fdt compat prop (be_bytes 4 val) 4 create.

(** ** Memory banks *)

Definition get_cells_len (blob nr_cells_name : list Z) : option Z :=
  '(cell, _) ← fdt_getprop blob 0 nr_cells_name;
  match cell with
  | Some p => v ← rd32 blob p; Some (if v =? 2 then 8 else 4)
  | None => Some 4
  end.

(** The bytes from [addr] on. *)
Fixpoint write_cell (val : Z) (size : nat) : list Z :=
  match size with
  | O => []
  | S size => ((val .>> (Z.of_nat size * 8)) .& 0xff) :: write_cell val size
  end.

(** [start] and [size] of the banks. *)
Definition fdt_fixup_memory_banks (blob : list Z) (banks : list (Z * Z)) : option (Z * list Z) :=
  err ← fdt_check_header blob;
  if err <? 0 then Some (err, blob) else
  nodeoffset ← path_offset blob (cstr (bytes_of "/memory"));
  if nodeoffset <? 0 then fdt_add_subnode blob 0 (cstr (bytes_of "memory")) else
  '(err, blob) ← fdt_setprop blob nodeoffset (cstr (bytes_of "device_type")) (cstr (bytes_of "memory")) 7;
  if err <? 0 then Some (err, blob) else
  addr_cell_len ← get_cells_len blob (cstr (bytes_of "#address-cells"));
  size_cell_len ← get_cells_len blob (cstr (bytes_of "#size-cells"));
  let tmp := concat (map (fun b => write_cell b.1 (Z.to_nat addr_cell_len) ++ write_cell b.2 (Z.to_nat size_cell_len)) banks) in
  '(err, blob) ← fdt_setprop blob nodeoffset (cstr (bytes_of "reg")) tmp (Z.of_nat (length tmp));
  Some (if err <? 0 then err else 0, blob).

Definition fdt_fixup_memory (blob : list Z) (start size : Z) : option (Z * list Z) :=
  fdt_fixup_memory_banks blob [(start, size)].

(** ** MAC addresses *)

(** The six numbers of a MAC address and what separates them. *)
Fixpoint mac_bytes (n : nat) (tmp : list Z) : option (list Z) :=
  match n with
  | O => Some []
  | S n =>
      '(v, end_) ← simple_strtoul tmp 16;
      c ← head end_;
      rest ← mac_bytes n (if negb (c =? 0) then drop 1 end_ else end_);
      Some (u8 v :: rest)
  end.

(** [sprintf] into a buffer of sixteen bytes. *)
Definition name16 (fmt : str) (i : Z) : option (list Z) :=
  s ← sprintf fmt [AInt i]; if (16 <? length s)%nat then None else Some s.

(** The [while] loop; [mac] is the name of the variable. *)
Fixpoint fixup_macs (fuel : nat) (getenv : list Z -> option (list Z)) (fdt : list Z) (node i : Z) (mac : list Z)
    : option (list Z) :=
  match fuel with
  | O => None
  | S fuel =>
      match getenv mac with
      | None => Some fdt
      | Some tmp =>
          enet ← name16 (bytes_of "ethernet%d") i;
          '(path, _) ← fdt_getprop fdt node enet;
          fdt ← match path with
                | None => Some fdt
                | Some path =>
                    mac_addr ← mac_bytes 6 tmp;
                    p ← at_ fdt path;
                    fdt ← do_fixup_by_path fuel fdt p (cstr (bytes_of "mac-address")) mac_addr 6 false;
                    p ← at_ fdt path;
                    do_fixup_by_path fuel fdt p (cstr (bytes_of "local-mac-address")) mac_addr 6 true
                end;
          mac ← name16 (bytes_of "eth%daddr") (i + 1);
          fixup_macs fuel getenv fdt node (i + 1) mac
      end
  end.

Definition fdt_fixup_ethernet (fuel : nat) (getenv : list Z -> option (list Z)) (fdt : list Z) : option (list Z) :=
  node ← path_offset fdt (cstr (bytes_of "/aliases"));
  if node <? 0 then Some fdt
  else fixup_macs fuel getenv fdt node 0 (cstr (bytes_of "ethaddr")).

(** ** The size of the tree *)

(** The loop that takes out the reservation of the tree itself. *)
Definition fdt_shrink_to_minimum (addr : Z) (blob : list Z) : option (Z * list Z) :=
  if addr =? 0 then Some (0, blob) else
  total ← fdt_num_mem_rsv blob;
  blob ← del_old_rsv (Z.to_nat total) blob 0 addr;
  off ← fdt_off_dt_strings blob; size ← fdt_size_dt_strings blob;
  let actualsize := u32 (off + size + 5 * RSV_SIZE) in
  let actualsize := u32 (u32 (actualsize + (addr .& 0xfff) + 0xfff) .& Z.lnot 0xfff) in
  let actualsize := u32 (actualsize - (addr .& 0xfff)) in
  blob ← fdt_set_totalsize blob actualsize;
  '(ret, blob) ← fdt_add_mem_rsv blob addr actualsize;
  Some (if ret <? 0 then ret else s32 actualsize, blob).

(** ** /chosen in the tree *)

Import FdtTree FdtParts FdtEdit FdtOpen FdtPaths.

Definition chosen : list str := [bytes_of "chosen"].

(** What the tree is given: the node if there is none, and the command line
    unless there is one that is to stay. *)
Definition chosen_tree (bootargs : option str) (force : bool) (t : tree) : tree :=
  let t := match tree_at chosen t with Some _ => t | None => add_in (bytes_of "chosen") t end in
  match bootargs with
  | None => t
  | Some a =>
      if null (value chosen (bytes_of "bootargs") t) || force
      then edit_at chosen (set_in (bytes_of "bootargs") (cstr a)) t else t
  end.

(** The most that is needed for it: the node, the name and the value. *)
Definition chosen_size (bootargs : option str) : Z :=
  16 + match bootargs with None => 0 | Some a => 9 + 12 + aligned_len (cstr a) end.

Lemma CHOSEN_path : CHOSEN = path_of chosen ++ 0 :: [].
Proof. done. Qed.

Lemma chosen_ok : path_ok chosen.
Proof. by apply (bool_decide_unpack _). Qed.

Lemma null_spec {A} (p q : option A) : (p = None <-> q = None) -> null p = null q.
Proof. destruct p, q; cbn [null]; naive_solver. Qed.

Lemma null_value {A B} (p : option A) (v : option B) : (p = None <-> v = None) -> null p = null v.
Proof. destruct p, v; cbn [null]; naive_solver. Qed.

Lemma bytes_cstr a : is_str a -> bytes (cstr a).
Proof. intros H. unfold cstr. apply Forall_app. split; [|by repeat constructor]. eapply Forall_impl; [exact H|]. unfold in_word. lia. Qed.

Lemma cstr_aligned a : Z.of_nat (length a) < 2 ^ 30 - 1 -> 0 <= aligned_len (cstr a).
Proof.
  intros H. destruct (aligned_len_bounds (cstr a)) as [? _]; unfold cstr in *; rewrite length_app in *; cbn [length] in *; lia.
Qed.

(** The node, found or added. *)
Lemma chosen_node b t : holds_tree b t ->
  exists off r b', path_offset (flat b) CHOSEN = Some off /\ extends b b'
    /\ (if off <? 0 then fdt_add_subnode (flat b) 0 (cstr (bytes_of "chosen")) else Some (off, flat b)) = Some (r, flat b')
    /\ if r <? 0 then r = - FDT_ERR_NOSPACE /\ b' = b /\ b_total b < data_size b + 16
       else node_off b' (chosen_tree None false t) chosen r /\ data_size b' <= data_size b + 16.
Proof.
  intros H. unfold path_offset. rewrite CHOSEN_path. pose proof (node_off_open b t chosen H) as Ho.
  unfold chosen_tree. destruct (tree_at chosen t) as [u|] eqn:E.
  - destruct Ho as (off & Hoff & Hn & _ & Hp). exists off, off, b. rewrite Hp by (apply chosen_ok || lia).
    destruct (Z.ltb_spec off 0); [lia|]. split_and!; [done|apply extends_refl|done|done|lia].
  - exists (- FDT_ERR_NOTFOUND). rewrite Ho by (apply chosen_ok || lia). change (- FDT_ERR_NOTFOUND <? 0) with true. cbn iota.
    pose proof (node_off_open b t [] H) as Hr. cbn [tree_at] in Hr. destruct t as [rn rps rts].
    destruct Hr as (off & Hoff & Hn & Hz & _). rewrite (Hz eq_refl) in Hn.
    pose proof (node_off_add b _ [] 0 (bytes_of "chosen") [] Hn ltac:(by apply (bool_decide_unpack _)) ltac:(by vm_compute) E) as Ha.
    change (8 + name_size (bytes_of "chosen")) with 16 in Ha.
    change (cstr (bytes_of "chosen")) with (bytes_of "chosen" ++ 0 :: []).
    destruct (Z.ltb_spec (b_total b) (data_size b + 16)).
    + exists (- FDT_ERR_NOSPACE), b. rewrite Ha. split_and!; [done|apply extends_refl|done|done].
    + destruct Ha as (new & b' & Hnew & Ha & He & Hn' & Hd). exists new, b'. rewrite Ha.
      destruct (Z.ltb_spec new 0); [lia|]. split_and!; try done. lia.
Qed.

Lemma fdt_chosen_spec b t bootargs force z :
  holds_tree b t -> (forall a, bootargs = Some a -> is_str a /\ Z.of_nat (length a) < 2 ^ 30 - 1) ->
  exists err b', fdt_chosen (flat b) (option_map (fun a => a ++ 0 :: z) bootargs) force = Some (err, flat b')
    /\ extends b b' /\
    (err = 0 /\ holds_tree b' (chosen_tree bootargs force t) /\ data_size b' <= data_size b + chosen_size bootargs
     \/ err = - FDT_ERR_NOSPACE /\ b_total b < data_size b + chosen_size bootargs
        /\ (b' = b \/ holds_tree b' (chosen_tree None force t))).
Proof.
  intros H Ha. unfold fdt_chosen. pose proof H as (n & W & _).
  pose proof (check_header_ok _ _ _ (wf_layout b W)) as Hc. fold (flat b) in Hc. rewrite Hc. cbn [mbind option_bind].
  change (0 <? 0) with false. cbn iota. destruct (chosen_node b t H) as (off & r & b1 & -> & He & Hadd & Hr).
  cbn [mbind option_bind]. rewrite Hadd. cbn [mbind option_bind]. destruct (r <? 0).
  { destruct Hr as (-> & -> & Hs). exists (- FDT_ERR_NOSPACE), b. split_and!; [done|apply extends_refl|]. right.
    split_and!; [done| |by left]. unfold chosen_size. destruct bootargs as [a|]; [|lia].
    destruct (Ha a eq_refl) as [_ Hl]. pose proof (cstr_aligned a Hl). lia. }
  destruct Hr as [Hn Hd]. set (t1 := chosen_tree None false t) in *.
  assert (Et : forall force, chosen_tree None force t = t1) by done.
  destruct bootargs as [a|]; cbn [option_map].
  2: { exists 0, b1. split_and!; [done|done|]. left. split_and!; [done|rewrite Et; by eapply node_off_holds|unfold chosen_size; lia]. }
  destruct (Ha a eq_refl) as [Hs Hl].
  destruct (node_off_getprop b1 t1 chosen r (bytes_of "bootargs") [] Hn str_new) as (p & len & Hg & Hnull & _).
  change (cstr (bytes_of "bootargs")) with (bytes_of "bootargs" ++ 0 :: []). rewrite Hg. cbn [mbind option_bind].
  assert (E : chosen_tree (Some a) force t = if null p || force
    then edit_at chosen (set_in (bytes_of "bootargs") (cstr a)) t1 else t1)
    by (unfold chosen_tree; fold (chosen_tree None false t); by rewrite (null_value _ _ Hnull)).
  pose proof (cstr_aligned a Hl) as Hal. rewrite E, Et. destruct (null p || force).
  2: { exists 0, b1. split_and!; [done|done|]. left. split_and!; [done|by eapply node_off_holds|unfold chosen_size; lia]. }
  rewrite strlen_cstr by done. cbn [mbind option_bind].
  destruct (node_off_set_le b1 t1 chosen r (bytes_of "bootargs") [] (cstr a) z (Z.of_nat (length a) + 1) Hn str_new
    (bytes_cstr a Hs)) as (err & b' & Hset & He' & Hcase); [unfold cstr; rewrite length_app; cbn [length]; lia|lia|].
  replace (a ++ 0 :: z) with (cstr a ++ z) by (unfold cstr; by rewrite <- app_assoc).
  rewrite Hset. exists err, b'. split; [done|]. split; [by eapply extends_trans|].
  rewrite (ext_total _ _ He) in Hcase. destruct (err <? 0).
  - destruct Hcase as (-> & Hn' & Hroom). right. unfold prop_room in Hroom.
    split_and!; [done|unfold chosen_size; change (Z.of_nat (length (bytes_of "bootargs"))) with 8 in Hroom; lia|].
    right. by eapply node_off_holds.
  - destruct Hcase as (-> & Hn' & Hd'). left. unfold prop_room in Hd'. change (Z.of_nat (length (bytes_of "bootargs"))) with 8 in Hd'.
    split_and!; [done|by eapply node_off_holds|unfold chosen_size; lia].
Qed.

(** C32: the command line in the tree for Linux.  On a blob that holds a tree,
    [fdt_chosen] returns 0 and the blob then holds the tree with a /chosen
    node whose bootargs are the given command line, except that an existing
    value stays when [force] is not set, and nothing else changed; or it
    returns -FDT_ERR_NOSPACE, and only when the room behind the tree is below
    what node, name and value can need, leaving at most an added node. *)
Theorem fdt_chosen_correct b t bootargs force z :
  holds_tree b t -> (forall a, bootargs = Some a -> is_str a /\ Z.of_nat (length a) < 2 ^ 30 - 1) ->
  exists err b', fdt_chosen (flat b) (option_map (fun a => a ++ 0 :: z) bootargs) force = Some (err, flat b')
    /\ extends b b' /\
    (err = 0 /\ holds_tree b' (chosen_tree bootargs force t) /\ data_size b' <= data_size b + chosen_size bootargs
     \/ err = - FDT_ERR_NOSPACE /\ b_total b < data_size b + chosen_size bootargs
        /\ (b' = b \/ holds_tree b' (chosen_tree None force t))).
Proof. apply fdt_chosen_spec. Qed.

(** ** The initial ramdisk *)

Fixpoint drop_first (a : Z) (rs : list (Z * Z)) : list (Z * Z) :=
  match rs with
  | [] => []
  | (x, s) :: rs => if x =? a then rs else (x, s) :: drop_first a rs
  end.

Lemma rsvs_extends b b' rs : extends b b' -> rsvs b rs -> rsvs b' rs.
Proof. intros [_ H1 _ H2 _ _ _] H. unfold rsvs. by rewrite H1, H2. Qed.

(** The search for an old entry. *)
Lemma del_old_rsv_spec b a rs2 : forall rs1, wf b -> rsvs b (rs1 ++ rs2) ->
  exists b', del_old_rsv (length rs2) (flat b) (Z.of_nat (length rs1)) a = Some (flat b') /\ wf b'
    /\ b_struct b' = b_struct b /\ b_strings b' = b_strings b /\ b_total b' = b_total b
    /\ rsvs b' (rs1 ++ drop_first a rs2) /\ data_size b' <= data_size b /\ b_tail b' = b_tail b.
Proof.
  induction rs2 as [|[x s] rs2 IH]; intros rs1 W H; cbn [length del_old_rsv drop_first]; [by exists b|].
  rewrite (fdt_get_mem_rsv_spec b _ (length rs1) x s W H) by (by rewrite list_lookup_middle). cbn [mbind option_bind].
  destruct (x =? a).
  - pose proof (fdt_del_mem_rsv_correct b _ (length rs1) W H) as Hd. rewrite length_app in Hd. cbn [length] in Hd.
    destruct (Nat.ltb_spec (length rs1) (length rs1 + S (length rs2))); [|lia].
    destruct Hd as (R & F & Hd & W' & Hr & Hs & Htl). cbv zeta in *. rewrite Hd. cbn [mbind option_bind].
    exists (with_rsv b R F). split_and!; try done; [|unfold RSV_SIZE in *; lia].
    rewrite take_app_length, drop_app_ge, Nat.sub_succ_l, Nat.sub_diag in Hr by lia. exact Hr.
  - specialize (IH (rs1 ++ [(x, s)]) W). rewrite <- !app_assoc in IH. cbn [app] in IH.
    rewrite length_app in IH. cbn [length] in IH. replace (Z.of_nat (length rs1 + 1)) with (Z.of_nat (length rs1) + 1) in IH by lia.
    destruct (IH H) as (b' & E & W' & H1 & H2 & H3 & H4 & H5 & H6). by exists b'.
Qed.

Definition initrd_start_name : str := bytes_of "linux,initrd-start".
Definition initrd_end_name : str := bytes_of "linux,initrd-end".

Definition initrd_tree (initrd_start initrd_end : Z) (force : bool) (t : tree) : tree :=
  if null (value chosen initrd_start_name t) || force
  then edit_at chosen (set_in initrd_end_name (be_bytes 4 initrd_end))
         (edit_at chosen (set_in initrd_start_name (be_bytes 4 initrd_start)) t)
  else t.

(** One reservation, two properties and their names. *)
Definition initrd_size : Z := 84.

Lemma fdt_initrd_spec b t rs s e force :
  holds_tree b t -> rsvs b rs -> 0 < s < e -> e < 2 ^ 32 ->
  match tree_at chosen t with
  | None => fdt_initrd (flat b) s e force = Some (- FDT_ERR_NOTFOUND, flat b)
  | Some _ => exists err b', fdt_initrd (flat b) s e force = Some (err, flat b')
      /\ b_total b' = b_total b /\ b_tail b' = b_tail b /\
      (err = 0 /\ rsvs b' (drop_first s rs ++ [(s, e - s)]) /\ holds_tree b' (initrd_tree s e force t)
       \/ err = - FDT_ERR_NOSPACE /\ b_total b < data_size b + initrd_size)
  end.
Proof.
  intros H Hr Hs He. unfold fdt_initrd, path_offset. rewrite CHOSEN_path. pose proof (node_off_open b t chosen H) as Ho.
  destruct (tree_at chosen t) as [u|]; [|by rewrite Ho by (apply chosen_ok || lia)].
  destruct Ho as (off & Hoff & Hn & _ & Hp). rewrite Hp by (apply chosen_ok || lia). cbn [mbind option_bind].
  destruct (Z.ltb_spec off 0); [lia|]. destruct (Z.eqb_spec s 0); [lia|]. destruct (Z.eqb_spec e 0); [lia|]. cbn [orb].
  pose proof (node_off_wf _ _ _ _ Hn) as W. rewrite (num_mem_rsv_spec b W rs Hr). cbn [mbind option_bind]. rewrite Nat2Z.id.
  destruct (del_old_rsv_spec b s rs [] W Hr) as (b1 & Hd & W1 & E1 & E2 & E3 & Hr1 & Hd1 & Htl1). cbn [app length] in Hd, Hr1.
  change (Z.of_nat 0) with 0 in Hd. rewrite Hd. cbn [mbind option_bind]. rewrite u32_small by lia.
  pose proof (fdt_add_mem_rsv_correct b1 (drop_first s rs) s (e - s) W1 Hr1 ltac:(unfold in_word; lia)
    ltac:(unfold in_word; lia) ltac:(lia)) as Ha. rewrite E3 in Ha. unfold RSV_SIZE in Ha.
  destruct (Z.ltb_spec (b_total b) (data_size b1 + 16)).
  { rewrite Ha. cbn [mbind option_bind]. change (- FDT_ERR_NOSPACE <? 0) with true. cbn iota.
    exists (- FDT_ERR_NOSPACE), b1. split_and!; [done..|]. right. unfold initrd_size. split; [done|lia]. }
  destruct Ha as (R & F & Ha & W2 & Hr2 & Hd2 & Htl2). cbv zeta in *. rewrite Ha. cbn [mbind option_bind].
  change (0 <? 0) with false. cbn iota. set (b2 := with_rsv b1 R F) in *.
  assert (Hn2 : node_off b2 t chosen off) by (by apply (node_off_same b)).
  assert (Et2 : b_total b2 = b_total b) by done.
  assert (Hs1 : is_str initrd_start_name) by (by apply (bool_decide_unpack _)).
  assert (Hs2 : is_str initrd_end_name) by (by apply (bool_decide_unpack _)).
  change (cstr (bytes_of "linux,initrd-start")) with (initrd_start_name ++ 0 :: []).
  change (cstr (bytes_of "linux,initrd-end")) with (initrd_end_name ++ 0 :: []).
  destruct (node_off_getprop b2 t chosen off _ [] Hn2 Hs1) as (p & len & Hg & Hnull & _).
  rewrite Hg. cbn [mbind option_bind]. unfold initrd_tree. rewrite (null_value _ _ Hnull).
  assert (Htl : b_tail b2 = b_tail b) by (rewrite Htl2; exact Htl1).
  destruct (null (value chosen initrd_start_name t) || force).
  2: { exists 0, b2. split_and!; [done|done|done|]. left. split_and!; [done|done|by eapply node_off_holds]. }
  destruct (node_off_set_le b2 t chosen off _ [] (be_bytes 4 s) [] 4 Hn2 Hs1 (be_bytes_bytes _ _)
    ltac:(by rewrite length_be_bytes) ltac:(lia)) as (err & b3 & Hset1 & He3 & Hc3).
  rewrite app_nil_r in Hset1. rewrite Hset1. cbn [mbind option_bind].
  change (prop_room initrd_start_name (be_bytes 4 s)) with 35 in Hc3. rewrite Et2 in Hc3.
  destruct (err <? 0).
  { destruct Hc3 as (-> & _ & Hroom). exists (- FDT_ERR_NOSPACE), b3. split_and!; [done|by rewrite (ext_total _ _ He3)|by rewrite (ext_tail _ _ He3)|]. right. unfold initrd_size. split; [done|lia]. }
  destruct Hc3 as (-> & Hn3 & Hd3).
  destruct (node_off_set_le b3 _ chosen off _ [] (be_bytes 4 e) [] 4 Hn3 Hs2 (be_bytes_bytes _ _)
    ltac:(by rewrite length_be_bytes) ltac:(lia)) as (err & b4 & Hset2 & He4 & Hc4).
  rewrite app_nil_r in Hset2. rewrite Hset2. cbn [mbind option_bind].
  change (prop_room initrd_end_name (be_bytes 4 e)) with 33 in Hc4. rewrite (ext_total _ _ He3), Et2 in Hc4.
  destruct (err <? 0).
  { destruct Hc4 as (-> & _ & Hroom). exists (- FDT_ERR_NOSPACE), b4. split_and!; [done|by rewrite (ext_total _ _ He4), (ext_total _ _ He3)|by rewrite (ext_tail _ _ He4), (ext_tail _ _ He3)|]. right. unfold initrd_size. split; [done|lia]. }
  destruct Hc4 as (-> & Hn4 & _). exists 0, b4.
  split_and!; [done|by rewrite (ext_total _ _ He4), (ext_total _ _ He3)|by rewrite (ext_tail _ _ He4), (ext_tail _ _ He3)|].
  left. split; [done|]. split; [|by eapply node_off_holds].
  eapply rsvs_extends; [eapply extends_trans; [exact He3|exact He4]|exact Hr2].
Qed.

(** The ramdisk in the tree for Linux.  With a /chosen node,
    [fdt_initrd] returns 0, the ramdisk's memory is reserved in place of the
    first reservation that started at the same address, and /chosen names its
    start and end, except that existing properties stay when [force] is not
    set; or it returns -FDT_ERR_NOSPACE, and only when there is no room for
    that.  Without a /chosen node it returns -FDT_ERR_NOTFOUND and changes
    nothing. *)
Theorem fdt_initrd_correct b t rs s e force :
  holds_tree b t -> rsvs b rs -> 0 < s < e -> e < 2 ^ 32 ->
  match tree_at chosen t with
  | None => fdt_initrd (flat b) s e force = Some (- FDT_ERR_NOTFOUND, flat b)
  | Some _ => exists err b', fdt_initrd (flat b) s e force = Some (err, flat b')
      /\ b_total b' = b_total b /\ b_tail b' = b_tail b /\
      (err = 0 /\ rsvs b' (drop_first s rs ++ [(s, e - s)]) /\ holds_tree b' (initrd_tree s e force t)
       \/ err = - FDT_ERR_NOSPACE /\ b_total b < data_size b + initrd_size)
  end.
Proof. apply fdt_initrd_spec. Qed.

(** ** Memory banks *)

Definition memory : list str := [bytes_of "memory"].

(** The bytes of an address or a size, from the cells property of the root. *)
Definition cells (name : str) (t : tree) : nat :=
  match value [] name t with
  | Some v => if be_combine (take 4 v) =? 2 then 8 else 4
  | None => 4
  end.

Definition bank_bytes (na ns : nat) (banks : list (Z * Z)) : list Z :=
  concat (map (fun p => be_bytes na p.1 ++ be_bytes ns p.2) banks).

Definition memory_tree (banks : list (Z * Z)) (t : tree) : tree :=
  edit_at memory (set_in (bytes_of "reg")
      (bank_bytes (cells (bytes_of "#address-cells") t) (cells (bytes_of "#size-cells") t) banks))
    (edit_at memory (set_in (bytes_of "device_type") (cstr (bytes_of "memory"))) t).

Definition memory_size (banks : list (Z * Z)) : Z := 48 + 16 * Z.of_nat (length banks).

Lemma write_cell_spec v n : write_cell v n = be_bytes n v.
Proof.
  induction n as [|n IH]; [done|]. cbn [write_cell be_bytes]. rewrite IH. f_equal. rewrite Z.mul_comm.
  change 0xff with (Z.ones 8). rewrite Z.land_ones by lia. done.
Qed.

Lemma get_cells_len_spec b t off name y : node_off b t [] off -> off = 0 -> is_str name ->
  (forall v, value [] name t = Some v -> (4 <= length v)%nat) ->
  get_cells_len (flat b) (name ++ 0 :: y) = Some (Z.of_nat (cells name t)).
Proof.
  intros H -> Hn Hv. unfold get_cells_len, cells.
  destruct (node_off_getprop b t [] 0 name y H Hn) as (p & len & Hg & Hnull & Hval). rewrite Hg. cbn [mbind option_bind].
  destruct (value [] name t) as [v|] eqn:Ev; destruct p as [q|]; try (by naive_solver).
  specialize (Hv v eq_refl). destruct (Hval q v eq_refl eq_refl) as [Hq Ht].
  assert (E : take 4 (drop (Z.to_nat q) (flat b)) = take 4 v) by (rewrite <- Ht, take_take; f_equal; lia).
  rewrite rd32_take; [|done|by rewrite E, length_take_le]. cbn [mbind option_bind]. rewrite E. by case_match.
Qed.

Lemma length_bank_bytes na ns banks : length (bank_bytes na ns banks) = ((na + ns) * length banks)%nat.
Proof.
  unfold bank_bytes. induction banks as [|p banks IH]; cbn [map concat length]; [lia|].
  rewrite !length_app, !length_be_bytes, IH. lia.
Qed.

Lemma cells_bound name t : (cells name t = 4 \/ cells name t = 8)%nat.
Proof. unfold cells. repeat case_match; auto. Qed.

Lemma value_root c cs f name t : value [] name (edit_at (c :: cs) f t) = value [] name t.
Proof. by destruct t. Qed.

Lemma bank_bytes_bytes na ns banks : bytes (bank_bytes na ns banks).
Proof. unfold bank_bytes. apply Forall_concat, Forall_map, Forall_true. intros p. apply Forall_app. split; apply be_bytes_bytes. Qed.

Lemma bank_bytes_size na ns banks : (na = 4 \/ na = 8)%nat -> (ns = 4 \/ ns = 8)%nat ->
  16 * Z.of_nat (length banks) < 2 ^ 30 ->
  Z.of_nat (length (bank_bytes na ns banks)) < 2 ^ 30 /\ aligned_len (bank_bytes na ns banks) <= 16 * Z.of_nat (length banks).
Proof.
  intros Ha Hs Hl. pose proof (length_bank_bytes na ns banks) as Hlen.
  assert (Hd : exists k, length (bank_bytes na ns banks) = (4 * k)%nat /\ (k <= 4 * length banks)%nat).
  { destruct Ha as [-> | ->], Hs as [-> | ->]; rewrite Hlen;
      [exists (2 * length banks)%nat|exists (3 * length banks)%nat|exists (3 * length banks)%nat|exists (4 * length banks)%nat]; lia. }
  destruct Hd as (k & Hk & Hle). destruct (aligned_len_bounds (bank_bytes na ns banks)) as [Hb [q Hq]]; lia.
Qed.

(** The cells are those of the root, before and after a change of /memory. *)
Lemma get_cells_len_set b mem t off n y : let t1 := edit_at memory (set_in (bytes_of "device_type") mem) t in
  node_off b t1 memory off -> is_str n -> (forall v, value [] n t = Some v -> (4 <= length v)%nat) ->
  get_cells_len (flat b) (n ++ 0 :: y) = Some (Z.of_nat (cells n t)).
Proof.
  intros t1 Hn Hs Hv. pose proof (node_off_open b t1 [] (node_off_holds _ _ _ _ Hn)) as Hr. cbn [tree_at] in Hr.
  destruct Hr as (o & _ & Hr & Hz & _).
  replace (cells n t) with (cells n t1) by (unfold cells, t1, memory; by rewrite value_root).
  apply (get_cells_len_spec b t1 o n y Hr (Hz eq_refl) Hs). intros v. unfold t1, memory. rewrite value_root. apply Hv.
Qed.

Lemma fdt_fixup_memory_banks_spec b t banks :
  holds_tree b t -> 16 * Z.of_nat (length banks) < 2 ^ 30 ->
  (forall n v, n = bytes_of "#address-cells" \/ n = bytes_of "#size-cells" -> value [] n t = Some v -> (4 <= length v)%nat) ->
  match tree_at memory t with
  | Some _ => exists err b', fdt_fixup_memory_banks (flat b) banks = Some (err, flat b') /\ extends b b' /\
      (err = 0 /\ holds_tree b' (memory_tree banks t) /\ data_size b' <= data_size b + memory_size banks
       \/ err = - FDT_ERR_NOSPACE /\ b_total b < data_size b + memory_size banks)
  | None => exists r b', fdt_fixup_memory_banks (flat b) banks = Some (r, flat b') /\
      (0 <= r /\ holds_tree b' (add_in (bytes_of "memory") t) \/ r = - FDT_ERR_NOSPACE /\ b' = b)
  end.
Proof.
  intros H Hl Hcells. unfold fdt_fixup_memory_banks, path_offset. pose proof H as (n & W & _).
  pose proof (check_header_ok _ _ _ (wf_layout b W)) as Hc. fold (flat b) in Hc. rewrite Hc. cbn [mbind option_bind].
  change (0 <? 0) with false. cbn iota. change (cstr (bytes_of "/memory")) with (path_of memory ++ 0 :: []).
  assert (Hok : path_ok memory) by (by apply (bool_decide_unpack _)).
  pose proof (node_off_open b t memory H) as Ho. destruct (tree_at memory t) as [u|] eqn:Eat.
  2: { rewrite Ho by (done || lia). cbn [mbind option_bind]. change (- FDT_ERR_NOTFOUND <? 0) with true. cbn iota.
    pose proof (node_off_open b t [] H) as Hr. cbn [tree_at] in Hr. destruct t as [rn rps rts].
    destruct Hr as (off & _ & Hn & Hz & _). rewrite (Hz eq_refl) in Hn.
    pose proof (node_off_add b _ [] 0 (bytes_of "memory") [] Hn ltac:(by apply (bool_decide_unpack _)) ltac:(by vm_compute) Eat) as Ha.
    change (cstr (bytes_of "memory")) with (bytes_of "memory" ++ 0 :: []). destruct (_ <? _).
    - rewrite Ha. exists (- FDT_ERR_NOSPACE), b. split; [done|]. by right.
    - destruct Ha as (new & b' & Hnew & Ha & _ & Hn' & _). rewrite Ha. exists new, b'. split; [done|]. left.
      split; [done|]. by eapply node_off_holds. }
  destruct Ho as (off & Hoff & Hn & _ & Hp). rewrite Hp by (done || lia). cbn [mbind option_bind].
  destruct (Z.ltb_spec off 0); [lia|]. assert (Hs1 : is_str (bytes_of "device_type")) by (by apply (bool_decide_unpack _)).
  set (mem := cstr (bytes_of "memory")).
  destruct (node_off_set_le b t memory off (bytes_of "device_type") [] mem [] 7 Hn Hs1
    ltac:(by apply (bool_decide_unpack _)) eq_refl ltac:(lia)) as (err & b1 & Hset & He1 & Hc1). rewrite app_nil_r in Hset.
  change (cstr (bytes_of "device_type")) with (bytes_of "device_type" ++ 0 :: []). rewrite Hset. cbn [mbind option_bind].
  change (prop_room (bytes_of "device_type") mem) with 32 in Hc1. unfold memory_size. destruct (err <? 0).
  { destruct Hc1 as (-> & _ & Hroom). exists (- FDT_ERR_NOSPACE), b1. split_and!; [done|done|]. right. split; [done|lia]. }
  destruct Hc1 as (-> & Hn1 & Hd1). set (t1 := edit_at memory (set_in (bytes_of "device_type") mem) t) in *.
  change (cstr (bytes_of "#address-cells")) with (bytes_of "#address-cells" ++ 0 :: []).
  change (cstr (bytes_of "#size-cells")) with (bytes_of "#size-cells" ++ 0 :: []).
  rewrite (get_cells_len_set b1 mem t off (bytes_of "#address-cells") [] Hn1), (get_cells_len_set b1 mem t off (bytes_of "#size-cells") [] Hn1)
    by (eauto || by apply (bool_decide_unpack _)). cbn [mbind option_bind].
  unfold memory_tree. fold mem t1.
  pose proof (cells_bound (bytes_of "#address-cells") t) as Hca. pose proof (cells_bound (bytes_of "#size-cells") t) as Hcs.
  set (na := cells (bytes_of "#address-cells") t) in *. set (ns := cells (bytes_of "#size-cells") t) in *.
  rewrite !Nat2Z.id. rewrite (map_ext _ (fun p => be_bytes na p.1 ++ be_bytes ns p.2)) by (intros p; by rewrite !write_cell_spec).
  fold (bank_bytes na ns banks). destruct (bank_bytes_size na ns banks Hca Hcs) as [Hlen Hal]; [done|].
  destruct (node_off_set_le b1 t1 memory off (bytes_of "reg") [] (bank_bytes na ns banks) []
    (Z.of_nat (length (bank_bytes na ns banks))) Hn1 ltac:(by apply (bool_decide_unpack _)) (bank_bytes_bytes _ _ _)
    eq_refl ltac:(lia)) as (err & b2 & Hset2 & He2 & Hc2).
  rewrite app_nil_r in Hset2. change (cstr (bytes_of "reg")) with (bytes_of "reg" ++ 0 :: []). rewrite Hset2. cbn [mbind option_bind].
  unfold prop_room in Hc2. change (Z.of_nat (length (bytes_of "reg"))) with 3 in Hc2. rewrite (ext_total _ _ He1) in Hc2.
  eexists _, b2. split; [done|]. split; [by eapply extends_trans|]. destruct (err <? 0).
  - destruct Hc2 as (-> & _ & Hroom). right. split; [done|lia].
  - destruct Hc2 as (-> & Hn2 & Hd2). left. split_and!; [done|by eapply node_off_holds|unfold prop_room in Hd2; lia].
Qed.

(** C33: the memory banks in the tree for Linux.  With a /memory node,
    [fdt_fixup_memory_banks] returns 0 and the node's device_type is memory
    and its reg the banks, in the number of cells the root asks for, big
    endian; or it returns -FDT_ERR_NOSPACE, and only when there is no room for
    that.  Without the node it returns the offset of the empty node it adds,
    or -FDT_ERR_NOSPACE. *)
Theorem fdt_fixup_memory_banks_correct b t banks :
  holds_tree b t -> 16 * Z.of_nat (length banks) < 2 ^ 30 ->
  (forall n v, n = bytes_of "#address-cells" \/ n = bytes_of "#size-cells" -> value [] n t = Some v -> (4 <= length v)%nat) ->
  match tree_at memory t with
  | Some _ => exists err b', fdt_fixup_memory_banks (flat b) banks = Some (err, flat b') /\ extends b b' /\
      (err = 0 /\ holds_tree b' (memory_tree banks t) /\ data_size b' <= data_size b + memory_size banks
       \/ err = - FDT_ERR_NOSPACE /\ b_total b < data_size b + memory_size banks)
  | None => exists r b', fdt_fixup_memory_banks (flat b) banks = Some (r, flat b') /\
      (0 <= r /\ holds_tree b' (add_in (bytes_of "memory") t) \/ r = - FDT_ERR_NOSPACE /\ b' = b)
  end.
Proof. apply fdt_fixup_memory_banks_spec. Qed.

(** ** Fix-ups by path *)

(** One call of [do_fixup_by_path] by its cases. *)
Lemma fixup_by_path_spec fuel b t cs name val x y z len create :
  holds_tree b t -> (0 < fuel)%nat -> path_ok cs -> is_str name -> bytes val -> len = Z.of_nat (length val) -> len < 2 ^ 30 ->
  if null (tree_at cs t) || (negb create && null (value cs name t))
  then do_fixup_by_path fuel (flat b) (path_of cs ++ 0 :: x) (name ++ 0 :: y) (val ++ z) len create = Some (flat b)
  else exists b', do_fixup_by_path fuel (flat b) (path_of cs ++ 0 :: x) (name ++ 0 :: y) (val ++ z) len create = Some (flat b')
    /\ extends b b' /\
    (holds_tree b' (edit_at cs (set_in name val) t) /\ data_size b' <= data_size b + prop_room name val
     \/ b_total b < data_size b + prop_room name val /\ holds_tree b' t).
Proof.
  intros H Hf Hok Hs HB Hlen Hl. unfold do_fixup_by_path, fdt_find_and_setprop.
  pose proof (node_off_open b t cs H) as Ho. destruct (tree_at cs t) as [u|]; [|by rewrite Ho by (done || lia)].
  destruct Ho as (off & Hoff & Hn & _ & Hp). rewrite Hp by (done || lia). cbn [mbind option_bind null orb].
  destruct (Z.ltb_spec off 0); [lia|].
  destruct (node_off_getproperty b t cs off name y Hn Hs) as (p & l & Hg & Hnull). rewrite Hg. cbn [mbind option_bind].
  rewrite (null_value _ _ Hnull). destruct (negb create && null (value cs name t)); [done|].
  destruct (node_off_set_le b t cs off name y val z len Hn Hs HB Hlen Hl) as (err & b' & E & He & Hc).
  rewrite E. cbn [mbind option_bind]. exists b'. split; [done|]. split; [done|].
  destruct (err <? 0).
  - destruct Hc as (_ & Hn' & Hroom). right. split; [done|by eapply node_off_holds].
  - destruct Hc as (_ & Hn' & Hd). left. split; [by eapply node_off_holds|done].
Qed.

(** [do_fixup_by_path] sets the property of the node at the path; a missing
    node, and without [create] a missing property, leave the tree as it was,
    as does a lack of room. *)
Theorem do_fixup_by_path_correct b t cs name val x y z len create :
  holds_tree b t -> path_ok cs -> is_str name -> bytes val -> len = Z.of_nat (length val) -> len < 2 ^ 30 ->
  exists b', do_fixup_by_path 1 (flat b) (path_of cs ++ 0 :: x) (name ++ 0 :: y) (val ++ z) len create = Some (flat b')
    /\ extends b b' /\
    (holds_tree b' (if null (tree_at cs t) || (negb create && null (value cs name t)) then t else edit_at cs (set_in name val) t)
     \/ b_total b < data_size b + prop_room name val /\ holds_tree b' t).
Proof.
  intros H Hok Hs HB Hlen Hl. pose proof (fixup_by_path_spec 1 b t cs name val x y z len create H ltac:(lia) Hok Hs HB Hlen Hl) as Hc.
  destruct (_ || _).
  - exists b. split_and!; [done|apply extends_refl|by left].
  - destruct Hc as (b' & E & He & Hc). exists b'. split; [done|]. split; [done|]. destruct Hc as [[? _]|?]; [by left|by right].
Qed.

(** ** The MAC address *)

Definition aliases : list str := [bytes_of "aliases"].

(** What [fdt_fixup_ethernet] is to do with one network port: nothing without
    a MAC address or an alias for the port, else the address goes to the node
    the alias names. *)
Inductive mac_fix (getenv : list Z -> option (list Z)) (t : tree) : tree -> Prop :=
  | no_mac : getenv (cstr (bytes_of "ethaddr")) = None -> mac_fix getenv t t
  | no_aliases : tree_at aliases t = None -> mac_fix getenv t t
  | no_alias s :
      getenv (cstr (bytes_of "ethaddr")) = Some s -> getenv (cstr (bytes_of "eth1addr")) = None ->
      value aliases (bytes_of "ethernet0") t = None -> mac_fix getenv t t
  | one_mac s mac cs x :
      getenv (cstr (bytes_of "ethaddr")) = Some s -> getenv (cstr (bytes_of "eth1addr")) = None ->
      mac_bytes 6 s = Some mac -> path_ok cs ->
      value aliases (bytes_of "ethernet0") t = Some (path_of cs ++ 0 :: x) ->
      value cs (bytes_of "mac-address") t = None ->
      mac_fix getenv t (if null (tree_at cs t) then t else edit_at cs (set_in (bytes_of "local-mac-address") mac) t).

Lemma mac_bytes_ok n : forall s mac, mac_bytes n s = Some mac -> bytes mac /\ length mac = n.
Proof.
  induction n as [|n IH]; intros s mac; cbn [mac_bytes]; [by intros [= <-]|].
  intros ([v e] & _ & (c & _ & (rest & Hr & [= <-])%bind_Some)%bind_Some)%bind_Some.
  apply IH in Hr as [Hb <-]. split; [|done]. constructor; [auto with word|done].
Qed.

Lemma aliases_ok : path_ok aliases.
Proof. by apply (bool_decide_unpack _). Qed.

(** [fdt_fixup_ethernet] with one port: the blob then holds the tree with the
    address, when there is room for it. *)
Theorem fdt_fixup_ethernet_correct fuel getenv b t t' :
  holds_tree b t -> (2 < fuel)%nat -> mac_fix getenv t t' -> data_size b + 38 <= b_total b ->
  exists b', fdt_fixup_ethernet fuel getenv (flat b) = Some (flat b') /\ extends b b' /\ holds_tree b' t'
    /\ data_size b' <= data_size b + 38.
Proof.
  intros H Hf Hfix Hroom. unfold fdt_fixup_ethernet, path_offset.
  change (cstr (bytes_of "/aliases")) with (path_of aliases ++ 0 :: []).
  assert (Hsame : exists b', Some (flat b) = Some (flat b') /\ extends b b' /\ holds_tree b' t /\ data_size b' <= data_size b + 38)
    by (exists b; split_and!; [done|apply extends_refl|done|lia]).
  pose proof (node_off_open b t aliases H) as Ho. destruct (tree_at aliases t) as [u|] eqn:Et.
  2: { rewrite Ho by (apply aliases_ok || lia). cbn [mbind option_bind].
       destruct Hfix as [|_|s|s mac cs x _ _ _ _ Hv]; try done. unfold value in Hv. by rewrite Et in Hv. }
  destruct Ho as (off & Hoff & Hn & _ & Hp). rewrite Hp by (apply aliases_ok || lia). cbn [mbind option_bind].
  destruct (Z.ltb_spec off 0); [lia|]. destruct fuel as [|fuel]; [lia|]. cbn [fixup_macs].
  assert (Hstr : is_str (bytes_of "ethernet0")) by (by apply (bool_decide_unpack _)).
  assert (Hlast : forall f fdt, getenv (cstr (bytes_of "eth1addr")) = None -> (0 < f)%nat ->
    fixup_macs f getenv fdt off (0 + 1) (cstr (bytes_of "eth1addr")) = Some fdt)
    by (intros [|f] fdt E Hlt; [lia|]; cbn [fixup_macs]; by rewrite E).
  assert (N0 : name16 (bytes_of "ethernet%d") 0 = Some (bytes_of "ethernet0" ++ 0 :: [])) by (by vm_compute).
  assert (N1 : name16 (bytes_of "eth%daddr") (0 + 1) = Some (cstr (bytes_of "eth1addr"))) by (by vm_compute).
  destruct (node_off_getprop b t aliases off (bytes_of "ethernet0") [] Hn Hstr) as (p & len & Hg & Hnull & Hval).
  destruct Hfix as [E|E|s E0 E1 Hv|s mac cs x E0 E1 Hmac Hcs Hv Hnone].
  - by rewrite E.
  - congruence.
  - rewrite E0, N0. cbn [mbind option_bind]. rewrite Hg. cbn [mbind option_bind].
    rewrite (proj2 Hnull Hv), N1. cbn [mbind option_bind]. by rewrite Hlast by (done || lia).
  - rewrite E0, N0. cbn [mbind option_bind]. rewrite Hg. cbn [mbind option_bind].
    destruct p as [q|]; [|exfalso; rewrite (proj1 Hnull eq_refl) in Hv; done].
    destruct (Hval q _ eq_refl Hv) as [Hq Htake].
    assert (Hat : at_ (flat b) q = Some (path_of cs ++ 0 :: (x ++ drop (length (path_of cs ++ 0 :: x)) (drop (Z.to_nat q) (flat b))))).
    { unfold at_. destruct (Z.ltb_spec q 0); [lia|]. f_equal.
      rewrite <- (take_drop (length (path_of cs ++ 0 :: x)) (drop (Z.to_nat q) (flat b))) at 1.
      rewrite Htake, <- app_assoc. done. }
    set (rest := x ++ _) in Hat. rewrite Hmac. cbn [mbind option_bind]. rewrite Hat. cbn [mbind option_bind].
    destruct (mac_bytes_ok 6 s mac Hmac) as [HB Hlen].
    pose proof (fixup_by_path_spec fuel b t cs (bytes_of "mac-address") mac rest [] [] 6 false H ltac:(lia) Hcs
      ltac:(by apply (bool_decide_unpack _)) HB ltac:(by rewrite Hlen) ltac:(lia)) as H1.
    rewrite Hnone in H1. cbn [null negb andb] in H1. rewrite orb_true_r, app_nil_r in H1.
    change (cstr (bytes_of "mac-address")) with (bytes_of "mac-address" ++ 0 :: []). rewrite H1. cbn [mbind option_bind].
    rewrite Hat. cbn [mbind option_bind].
    pose proof (fixup_by_path_spec fuel b t cs (bytes_of "local-mac-address") mac rest [] [] 6 true H ltac:(lia) Hcs
      ltac:(by apply (bool_decide_unpack _)) HB ltac:(by rewrite Hlen) ltac:(lia)) as H2.
    cbn [null negb andb] in H2. rewrite orb_false_r, app_nil_r in H2.
    change (cstr (bytes_of "local-mac-address")) with (bytes_of "local-mac-address" ++ 0 :: []).
    assert (Hpr : prop_room (bytes_of "local-mac-address") mac = 38) by (unfold prop_room, aligned_len; by rewrite Hlen).
    destruct (null (tree_at cs t)).
    + rewrite H2. cbn [mbind option_bind]. rewrite N1. cbn [mbind option_bind]. by rewrite Hlast by (done || lia).
    + destruct H2 as (b' & H2 & He & Hc). rewrite H2. cbn [mbind option_bind]. rewrite N1. cbn [mbind option_bind].
      rewrite Hlast by (done || lia). exists b'. split; [done|]. split; [done|]. rewrite Hpr in Hc. destruct Hc as [[? ?]|[? _]]; [done|lia].
Qed.

(** ** A tree to apply the theorems to *)

Definition linux_node : node :=
  Node [] [(0, be_bytes 4 2)] [Node (bytes_of "memory") [] []; Node (bytes_of "chosen") [] []].

Definition linux_tree : tree :=
  Tree [] [(bytes_of "#address-cells", be_bytes 4 2)]
    [Tree (bytes_of "memory") [] []; Tree (bytes_of "chosen") [] []].

Definition linux_strings : list Z := cstr (bytes_of "#address-cells").

Definition linux_dtb : dtb :=
  Dtb 500 40 0 (replicate 16 0) (block (items linux_node)) [] linux_strings (replicate 365 0).

Lemma linux_holds : holds_tree linux_dtb linux_tree.
Proof.
  exists linux_node. split_and!.
  - apply (bool_decide_unpack _). vm_compute. done.
  - apply block_encodes.
  - apply (bool_decide_unpack _). vm_compute. done.
  - constructor; [|repeat constructor]. constructor; [|constructor].
    split; [by apply (bool_decide_unpack _)|]. split; [|done]. split; [done|]. by exists [].
Qed.

Lemma linux_rsvs : rsvs linux_dtb [].
Proof. exists [], 0, []. split_and!; done || constructor. Qed.

Lemma fdt_chosen_correct_witness :
  exists b', fdt_chosen (flat linux_dtb) (Some (bytes_of "console=ttyS0" ++ 0 :: [])) true = Some (0, flat b')
    /\ holds_tree b' (chosen_tree (Some (bytes_of "console=ttyS0")) true linux_tree).
Proof.
  destruct (fdt_chosen_correct linux_dtb linux_tree (Some (bytes_of "console=ttyS0")) true [] linux_holds)
    as (err & b' & E & _ & [(-> & H & _)|(_ & Hroom & _)]).
  - intros a [= <-]. split; [by apply (bool_decide_unpack _)|by vm_compute].
  - exists b'. split; [exact E|exact H].
  - exfalso. revert Hroom. by vm_compute.
Defined.

Lemma fdt_initrd_correct_witness :
  exists b', fdt_initrd (flat linux_dtb) 0x4000000 0x4100000 true = Some (0, flat b')
    /\ rsvs b' [(0x4000000, 0x4100000 - 0x4000000)] /\ holds_tree b' (initrd_tree 0x4000000 0x4100000 true linux_tree).
Proof.
  pose proof (fdt_initrd_correct linux_dtb linux_tree [] 0x4000000 0x4100000 true linux_holds linux_rsvs
    ltac:(lia) ltac:(lia)) as H0. change (tree_at chosen linux_tree) with (Some (Tree (bytes_of "chosen") [] [])) in H0.
  destruct H0 as (err & b' & E & _ & _ & [(-> & H1 & H2)|(_ & Hroom)]).
  - exists b'. split; [exact E|]. split; [exact H1|exact H2].
  - exfalso. revert Hroom. by vm_compute.
Defined.

Lemma fdt_fixup_memory_banks_correct_witness :
  exists b', fdt_fixup_memory_banks (flat linux_dtb) [(0, 0x20000000)] = Some (0, flat b')
    /\ holds_tree b' (memory_tree [(0, 0x20000000)] linux_tree).
Proof.
  assert (Hc : forall n v, n = bytes_of "#address-cells" \/ n = bytes_of "#size-cells" ->
    value [] n linux_tree = Some v -> (4 <= length v)%nat)
    by (intros n v [-> | ->]; vm_compute; [intros [= <-]; repeat constructor|done]).
  pose proof (fdt_fixup_memory_banks_correct linux_dtb linux_tree [(0, 0x20000000)] linux_holds ltac:(by vm_compute) Hc) as H0.
  change (tree_at memory linux_tree) with (Some (Tree (bytes_of "memory") [] [])) in H0.
  destruct H0 as (err & b' & E & _ & [(-> & H & _)|(_ & Hroom)]).
  - exists b'. split; [exact E|exact H].
  - exfalso. revert Hroom. by vm_compute.
Defined.

Lemma do_fixup_by_path_correct_witness :
  exists b', do_fixup_by_path 1 (flat linux_dtb) (path_of chosen ++ 0 :: []) (bytes_of "a" ++ 0 :: []) ([1; 2] ++ []) 2 true
      = Some (flat b') /\ holds_tree b' (edit_at chosen (set_in (bytes_of "a") [1; 2]) linux_tree).
Proof.
  destruct (do_fixup_by_path_correct linux_dtb linux_tree chosen (bytes_of "a") [1; 2] [] [] [] 2 true linux_holds chosen_ok)
    as (b' & E & _ & [H|[Hroom _]]); [by apply (bool_decide_unpack _)|by apply (bool_decide_unpack _)|done|done| |].
  - exists b'. split; [exact E|exact H].
  - exfalso. revert Hroom. by vm_compute.
Defined.

(** The whole run: command line, ramdisk and memory, read back by path. *)
Definition linux_run : option (list (option (list Z))) :=
  '(_, fdt) ← fdt_chosen (flat linux_dtb) (Some (cstr (bytes_of "ro"))) true;
  '(_, fdt) ← fdt_initrd fdt 0x4000000 0x4100000 true;
  '(_, fdt) ← fdt_fixup_memory_banks fdt [(0, 0x20000000)];
  let get p n := read_at fdt (cstr (bytes_of p)) (cstr (bytes_of n)) in
  a ← get "/chosen" "bootargs"; s ← get "/chosen" "linux,initrd-start"; r ← get "/memory" "reg";
  Some [a; s; r].

Example linux_run_result : linux_run
  = Some [Some (cstr (bytes_of "ro")); Some (be_bytes 4 0x4000000); Some (be_bytes 8 0 ++ be_bytes 4 0x20000000)].
Proof. vm_compute. reflexivity. Qed.

(** A tree without /memory gets an empty node and no banks, and the caller a
    positive number. *)
Example memory_not_described :
  ('(r, fdt) ← fdt_fixup_memory_banks (flat (sample_dtb 100)) [(0, 0x20000000)];
   v ← read_at fdt (cstr (bytes_of "/memory")) (cstr (bytes_of "reg")); Some (0 <? r, v)) = Some (true, None).
Proof. vm_compute. reflexivity. Qed.

(** The MAC address goes where the alias points. *)
Definition ether_dtb : dtb :=
  let n := Node [] [] [Node (bytes_of "aliases") [(0, cstr (bytes_of "/eth"))] []; Node (bytes_of "eth") [] []] in
  Dtb 300 40 0 (replicate 16 0) (block (items n)) [] (cstr (bytes_of "ethernet0"))
    (replicate (Z.to_nat (300 - 56 - size_of (items n) - 14)) 0).

Example ethernet_run :
  (fdt ← fdt_fixup_ethernet 3 (fun n => if bool_decide (take 8 n = cstr (bytes_of "ethaddr"))
                                        then Some (cstr (bytes_of "88:15:44:00:00:fe")) else None) (flat ether_dtb);
   read_at fdt (cstr (bytes_of "/eth")) (cstr (bytes_of "local-mac-address")))
  = Some (Some [0x88; 0x15; 0x44; 0; 0; 0xfe]).
Proof. vm_compute. reflexivity. Qed.

(** The offset of /aliases is looked up once.  When the node of the first port
    lies in front of it, setting its address moves /aliases, and the second
    port gets none. *)
Definition ether2_dtb : dtb :=
  let n := Node [] [] [Node (bytes_of "eth") [] []; Node (bytes_of "eth2") [] [];
    Node (bytes_of "aliases") [(0, cstr (bytes_of "/eth")); (10, cstr (bytes_of "/eth2"))] []] in
  let strings := cstr (bytes_of "ethernet0") ++ cstr (bytes_of "ethernet1") in
  Dtb 400 40 0 (replicate 16 0) (block (items n)) [] strings (replicate (Z.to_nat (400 - 56 - size_of (items n) - 4 - 20)) 0).

Example second_mac_lost :
  (fdt ← fdt_fixup_ethernet 4 (fun n => if bool_decide (n = cstr (bytes_of "ethaddr")) || bool_decide (n = cstr (bytes_of "eth1addr"))
                                        then Some (cstr (bytes_of "88:15:44:00:00:fe")) else None) (flat ether2_dtb);
   first ← read_at fdt (cstr (bytes_of "/eth")) (cstr (bytes_of "local-mac-address"));
   second ← read_at fdt (cstr (bytes_of "/eth2")) (cstr (bytes_of "local-mac-address")); Some (first, second))
  = Some (Some [0x88; 0x15; 0x44; 0; 0; 0xfe], None).
Proof. vm_compute. reflexivity. Qed.

(** When the search for nodes gives an error other than not found, the loop
    over the nodes does not end. *)
Example fixup_diverges fdt prop val len create fuel e :
  e <> - FDT_ERR_NOTFOUND -> (forall off, fdt_get_property fdt off prop = Some (None, e)) -> create = false ->
  fixup_loop fuel (fun _ _ => Some e) fdt prop val len create e = None.
Proof.
  intros He Hg ->. induction fuel as [|fuel IH]; [done|]. cbn [fixup_loop].
  destruct (Z.eqb_spec e (- FDT_ERR_NOTFOUND)); [done|]. rewrite Hg. cbn [mbind option_bind orb negb null]. exact IH.
Qed.

End FdtSupport.
