(* ===== verification/EnvStore.v ===== *)
(** * The stored environment (common/env_common.c, common/env_nand.c,
    common/env_nowhere.c, common/cmd_nvedit.c)

    The environment is a hash table in memory, loaded at start from the flash
    or from the default environment compiled in, changed by [setenv] and the
    [env] commands, and written back by [saveenv] behind a CRC-32.  [W] is the
    state of the hooks of the hash table, with [gd] in it; the arguments of the
    commands are strings without the terminating NUL.  Messages are left out;
    [malloc] of a few bytes is taken to succeed.  [None] is a loop that does not
    end or an access outside of a buffer. *)

From S2P Require Import Prelude Crc32 Cstring Qsort Hashtable HashtableMap EnvText EnvVars EnvFlags EnvAttr Nand Vsprintf.

From stdpp Require Import gmap.

#[local] Open Scope Z_scope.
#[local] Open Scope word_scope.

Module EnvStore.
Import Cstring Hashtable HashtableMap EnvText EnvVars Nand.

Definition CMD_RET_USAGE : Z := -1.
Definition ENV_HEADER_SIZE : Z := 4.
Definition ENV_SIZE : Z := CONFIG_ENV_SIZE - ENV_HEADER_SIZE.
Definition CONFIG_ENV_RANGE : Z := 0x20000.
Definition CONFIG_ENV_OFFSET : Z := 0x800000 - CONFIG_ENV_RANGE.
Definition CONFIG_SYS_PBSIZE : Z := 1024 + 11 + 16.

(** [gd] in the state of the hooks. *)
Class EnvGd (W : Type) := {
  gd_of : W -> gd_t;
  with_gd : gd_t -> W -> W;
  gd_with g w : gd_of (with_gd g w) = g;
}.

Definition set_env_ready {W} `{!EnvGd W} (w : W) : W := with_gd (Gd true (reloc (gd_of w)) (env_valid (gd_of w))) w.
Definition set_env_valid {W} `{!EnvGd W} (v : Z) (w : W) : W :=
  with_gd (Gd (env_ready (gd_of w)) (reloc (gd_of w)) v) w.

(** ** The environment in NAND *)

Section Nand.
Context {F : Type} `{!NandInfo F}.

(** [offset] is the parameter of [writeenv] that gives [end]; the loop starts
    at [CONFIG_ENV_OFFSET] whatever it is. *)
Fixpoint writeenv_loop (fuel : nat) (f : F) (blocksize end_ offset amount_saved len : Z) (buf : list Z)
    : option (Z * F) :=
  match fuel with
  | O => None
  | S fuel =>
      if (amount_saved <? CONFIG_ENV_SIZE) && (offset <? end_) then
        if negb (nand_block_isbad f offset =? 0)
        then writeenv_loop fuel f blocksize end_ (u32 (offset + blocksize)) amount_saved len buf
        else
          data ← front (drop (Z.to_nat amount_saved) buf) len;
          let '(r, len, f) := nand_write f offset data in
          if negb (r =? 0) then Some (1, f)
          else writeenv_loop fuel f blocksize end_ (u32 (offset + blocksize)) (amount_saved + len) len buf
      else Some (if negb (amount_saved =? CONFIG_ENV_SIZE) then 1 else 0, f)
  end.

(** A turn for every block of the range, one to leave; with blocks of no bytes
    the loop does not end. *)
Definition env_turns : nat := Z.to_nat (CONFIG_ENV_RANGE / erasesize) + 2.

Definition writeenv (f : F) (offset : Z) (buf : list Z) : option (Z * F) :=
  let end_ := offset + CONFIG_ENV_RANGE in
  let len := if erasesize <? CONFIG_ENV_SIZE then erasesize else CONFIG_ENV_SIZE in
  writeenv_loop env_turns f erasesize end_ CONFIG_ENV_OFFSET 0 len buf.

(** Return value, the buffer and the chip. *)
Fixpoint readenv_loop (fuel : nat) (f : F) (blocksize end_ offset amount_loaded len : Z) (buf : list Z)
    : option (Z * list Z * F) :=
  match fuel with
  | O => None
  | S fuel =>
      if (amount_loaded <? CONFIG_ENV_SIZE) && (offset <? end_) then
        if negb (nand_block_isbad f offset =? 0)
        then readenv_loop fuel f blocksize end_ (u32 (offset + blocksize)) amount_loaded len buf
        else
          '(r, len, part, f) ← nand_read_skip_bad f offset len (drop (Z.to_nat amount_loaded) buf);
          let buf := take (Z.to_nat amount_loaded) buf ++ part in
          if negb (r =? 0) then Some (1, buf, f)
          else readenv_loop fuel f blocksize end_ (u32 (offset + blocksize)) (amount_loaded + len) len buf
      else Some (if negb (amount_loaded =? CONFIG_ENV_SIZE) then 1 else 0, buf, f)
  end.

Definition readenv (f : F) (offset : Z) (buf : list Z) : option (Z * list Z * F) :=
  let end_ := offset + CONFIG_ENV_RANGE in
  if erasesize =? 0 then Some (1, buf, f) else
  let len := if erasesize <? CONFIG_ENV_SIZE then erasesize else CONFIG_ENV_SIZE in
  readenv_loop env_turns f erasesize end_ CONFIG_ENV_OFFSET 0 len buf.

End Nand.

Section Env.
Context {F : Type} `{!NandInfo F}.
Context {W : Type} `{!EnvHooks W} `{!EnvGd W}.
Context (default_environment env_at : list Z).

(** The address of [env_t.data] in the caller's buffer, for the alignment of
    [crc32]. *)
Context (data_addr : Z).

#[local] Abbreviation St := (hsearch_data * W)%type.

(** ** Default environment, import *)

Definition set_default_env (s : option str) (st : St) : option St :=
  if ENV_SIZE <? Z.of_nat (length default_environment) then Some st else
  let flags := match s with
               | Some s => if default 0 (head s) =? 33 then 0 else H_INTERACTIVE
               | None => 0
               end in
  '(_, (h, w)) ← himport_r default_environment 0 flags [] st;
  Some (h, set_env_ready w).

Definition set_default_vars (vars : list str) (st : St) : option (Z * St) :=
  himport_r default_environment 0 (H_NOCLEAR .| H_INTERACTIVE) vars st.

(** [env_t]: the checksum and the data. *)
Definition env_crc (buf : list Z) : Z := le_combine (take 4 buf).
Definition env_data (buf : list Z) : list Z := take (Z.to_nat ENV_SIZE) (drop 4 buf).

Definition env_import (buf : list Z) (check : bool) (st : St) : option (Z * St) :=
  if Z.of_nat (length buf) <? CONFIG_ENV_SIZE then None else
  if check && negb (Crc32.crc32 0 data_addr (env_data buf) =? env_crc buf)
  then st ← set_default_env (Some (bytes_of "!bad CRC")) st; Some (0, st)
  else
    '(r, (h, w)) ← himport_r (env_data buf) 0 0 [] st;
    if negb (r =? 0) then Some (1, (h, set_env_ready w))
    else st ← set_default_env (Some (bytes_of "!import failed")) (h, w); Some (0, st).

(** [junk] is the stack under the buffer. *)
Definition env_relocate_spec (junk : list Z) (f : F) (st : St) : option (St * F) :=
  '(ret, buf, f) ← readenv f CONFIG_ENV_OFFSET junk;
  if negb (ret =? 0) then st ← set_default_env (Some (bytes_of "!readenv() failed")) st; Some (st, f)
  else '(_, st) ← env_import buf true st; Some (st, f).

(** A release build has CONFIG_ENV_IS_NOWHERE, the others CONFIG_ENV_IS_IN_NAND. *)
Definition env_init (nowhere : bool) (w : W) : W := set_env_valid (if nowhere then 0 else 1) w.

Definition env_relocate (nowhere : bool) (junk : list Z) (f : F) (st : St) : option (St * F) :=
  if env_valid (gd_of st.2) =? 0 then
    st ← set_default_env (if nowhere then None else Some (bytes_of "!bad CRC")) st; Some (st, f)
  else if nowhere then Some (st, f)
  else env_relocate_spec junk f st.

(** [env_new] is overwritten in full. *)
Definition saveenv (h : hsearch_data) (f : F) : option (Z * F) :=
  if CONFIG_ENV_RANGE <? CONFIG_ENV_SIZE then Some (1, f) else
  '(len, data) ← hexport_r h 0 0 ENV_SIZE [];
  if len <? 0 then Some (1, f) else
  let env_new := le_bytes 4 (Crc32.crc32 0 data_addr data) ++ data in
  '(r, f) ← nand_erase_opts f (EraseOpts CONFIG_ENV_RANGE CONFIG_ENV_OFFSET false false false);
  if negb (r =? 0) then Some (1, f) else
  '(r, f) ← writeenv f CONFIG_ENV_OFFSET env_new;
  Some (if negb (r =? 0) then 1 else 0, f).

Definition do_env_save (h : hsearch_data) (f : F) : option (Z * F) :=
  '(r, f) ← saveenv h f; Some (if negb (r =? 0) then 1 else 0, f).

(** ** Reading and setting variables *)

Definition getenv (st : St) (name : str) : option (option str) :=
  EnvVars.getenv default_environment env_at (gd_of st.2) st.1 name.

Definition getenv_yesno (st : St) (var : str) : option Z :=
  EnvVars.getenv_yesno default_environment env_at (gd_of st.2) st.1 var.

Definition getenv_ulong (st : St) (name : str) (base default_val : Z) : option Z :=
  s ← getenv st name;
  match s with
  | Some s => '(v, _) ← Vsprintf.simple_strtoul (cstr s) base; Some v
  | None => Some default_val
  end.

(** The environment and [env_id], which counts the changes. *)
Record nvedit := Nvedit { st : St; env_id : Z }.

Definition get_env_id (s : nvedit) : Z := env_id s.

(** The letters behind '-'; [None] is a letter that is not an option. *)
Fixpoint option_letters (arg : str) (env_flag : Z) : option Z :=
  match arg with
  | [] => Some env_flag
  | c :: arg => if c =? 102 then option_letters arg (env_flag .| H_FORCE) else None
  end.

(** The arguments behind the options. *)
Fixpoint env_options (args : list str) (env_flag : Z) : option (list str * Z) :=
  match args with
  | (45 :: letters) :: rest => env_flag ← option_letters letters env_flag; env_options rest env_flag
  | _ => Some (args, env_flag)
  end.

(** The values, a blank between two. *)
Fixpoint join_args (l : list str) : str :=
  match l with
  | [] => []
  | [a] => a
  | a :: l => a ++ 32 :: join_args l
  end.

(** [args] are [argv + 1]; the name is [argv[1]] behind the options, NULL when
    there is none, which [strchr] reads. *)
Definition _do_env_set (args : list str) (s : nvedit) : option (Z * nvedit) :=
  match env_options args H_INTERACTIVE with
  | None => Some (CMD_RET_USAGE, s)
  | Some ([], _) => None
  | Some (name :: values, env_flag) =>
      eq ← strchr (cstr name) 61;
      match eq with
      | Some _ => Some (1, s)
      | None =>
          let id := env_id s + 1 in
          match values with
          | [] => '(r, st) ← hdelete_r name (st s) env_flag; Some (if ret r =? 0 then 1 else 0, Nvedit st id)
          | _ =>
              '(r, st) ← hsearch_r name (Some (join_args values)) ENTER (st s) env_flag;
              Some (match retval r with None => 1 | Some _ => 0 end, Nvedit st id)
          end
      end
  end.

Definition setenv (varname : str) (varvalue : option str) (s : nvedit) : option (Z * nvedit) :=
  match varvalue with
  | None | Some [] => _do_env_set [varname] s
  | Some value => _do_env_set [varname; value] s
  end.

Definition setenv_ulong (varname : str) (value : Z) (s : nvedit) : option (Z * nvedit) :=
  setenv varname (Some (Vsprintf.simple_itoa value)) s.

Definition setenv_addr (varname : str) (addr : Z) (s : nvedit) : option (Z * nvedit) :=
  str ← Vsprintf.sprintf (bytes_of "%lx") [Vsprintf.AInt addr];
  setenv varname (Some (until_nul str)) s.

(** [argc < 2] is no argument here. *)
Definition do_env_set (args : list str) (s : nvedit) : option (Z * nvedit) :=
  match args with [] => Some (CMD_RET_USAGE, s) | _ => _do_env_set args s end.

Fixpoint delete_vars (names : list str) (env_flag : Z) (st : St) (ret_ : Z) : option (Z * St) :=
  match names with
  | [] => Some (ret_, st)
  | name :: names =>
      '(r, st) ← hdelete_r name st env_flag;
      delete_vars names env_flag st (if ret r =? 0 then 1 else ret_)
  end.

Definition do_env_delete (args : list str) (s : nvedit) : option (Z * nvedit) :=
  match env_options args H_INTERACTIVE with
  | None => Some (CMD_RET_USAGE, s)
  | Some (names, env_flag) =>
      '(r, st) ← delete_vars names env_flag (st s) 0; Some (r, Nvedit st (env_id s + 1))
  end.

(** The letters of [env default]; [cmd_usage] returns 1. *)
Fixpoint default_letters (arg : str) (all : bool) : option bool :=
  match arg with
  | [] => Some all
  | c :: arg => if c =? 97 then default_letters arg true
                else if c =? 102 then default_letters arg all else None
  end.

Fixpoint default_options (args : list str) (all : bool) : option (list str * bool) :=
  match args with
  | (45 :: letters) :: rest => all ← default_letters letters all; default_options rest all
  | _ => Some (args, all)
  end.

Definition do_env_default (args : list str) (s : nvedit) : option (Z * nvedit) :=
  match default_options args false with
  | None => Some (1, s)
  | Some ([], true) =>
      st ← set_default_env (Some (bytes_of "## Resetting to default environment")) (st s);
      Some (0, Nvedit st (env_id s))
  | Some (vars, false) =>
      match vars with
      | [] => Some (1, s)
      | _ => '(_, st) ← set_default_vars vars (st s); Some (0, Nvedit st (env_id s))
      end
  | Some _ => Some (1, s)
  end.

(** ** Printing *)

(** [printf("%s=%s\n", ...)] through a buffer of [CONFIG_SYS_PBSIZE] bytes that
    [vsprintf] does not check: the output, [None] when it overruns. *)
Definition printf_line (text : list Z) : option (list Z) :=
  if Z.of_nat (length text) <? CONFIG_SYS_PBSIZE then Some text else None.

(** Return value and output. *)
Definition env_print (name : option str) (flag : Z) (st : St) : option (Z * list Z) :=
  match name with
  | Some name =>
      '(r, _) ← hsearch_r name None FIND st flag;
      match retval r with
      | None => Some (0, [])
      | Some idx =>
          s ← get_slot st.1 idx;
          text ← printf_line (key (entry s) ++ 61 :: data (entry s) ++ [10]);
          Some (Z.of_nat (length text), text)
      end
  | None =>
      '(len, res) ← hexport_r st.1 10 flag 0 [];
      Some (if len =? 0 then (0, []) else (len, until_nul res))
  end.

Fixpoint print_vars (names : list str) (flag : Z) (st : St) (rcode : Z) (out : list Z) : option (Z * list Z) :=
  match names with
  | [] => Some (rcode, out)
  | name :: names =>
      '(rc, text) ← env_print (Some name) flag st;
      print_vars names flag st (if rc =? 0 then rcode + 1 else rcode) (out ++ text)
  end.

(** Return value and output, without the line about the size. *)
Definition do_env_print (args : list str) (st : St) : option (Z * list Z) :=
  let '(args, env_flag) :=
    match args with
    | (45 :: 97 :: _) :: rest => (rest, 0)
    | _ => (args, H_HIDE_DOT)
    end in
  match args with
  | [] =>
      '(rcode, text) ← env_print None env_flag st;
      Some (if rcode =? 0 then 1 else 0, text)
  | _ => print_vars args 0 st 0 []
  end.

End Env.

(** ** The blocks of the environment *)

Section NandSpec.
Context {F : Type} `{NandOk F}.
Implicit Types (f : F).

(** The range is on the chip and made of whole blocks. *)
Definition env_geometry : Prop := erase_bits <= 17 /\ CONFIG_ENV_OFFSET + CONFIG_ENV_RANGE <= nand_size.

Hypothesis geometry : env_geometry.

#[local] Abbreviation end_ := (CONFIG_ENV_OFFSET + CONFIG_ENV_RANGE).
#[local] Abbreviation chunk := (if erasesize <? CONFIG_ENV_SIZE then erasesize else CONFIG_ENV_SIZE).

(** The pieces of the environment in the good blocks from [off] on, [a] bytes
    of it being before them. *)
Inductive placed (f : F) : Z -> Z -> list (Z * Z) -> Prop :=
  | placed_done off : placed f off CONFIG_ENV_SIZE []
  | placed_bad off a l :
      a < CONFIG_ENV_SIZE -> off < end_ -> good f off = false ->
      placed f (off + erasesize) a l -> placed f off a l
  | placed_good off a l :
      a < CONFIG_ENV_SIZE -> off < end_ -> good f off = true ->
      placed f (off + erasesize) (a + chunk) l -> placed f off a ((off, chunk) :: l).

(** Whole blocks from [off] on; the rest of the environment is whole chunks. *)
Definition at_block (off a : Z) : Prop :=
  CONFIG_ENV_OFFSET <= off <= end_ /\ (erasesize | end_ - off) /\ 0 <= a <= CONFIG_ENV_SIZE
  /\ (chunk | CONFIG_ENV_SIZE - a).

Lemma end_value : end_ = 0x800000 /\ CONFIG_ENV_OFFSET = 0x7e0000 /\ CONFIG_ENV_SIZE = 0x10000.
Proof. done. Qed.

Lemma erasesize_cases : exists k, 0 <= k <= 17 /\ erasesize = 2 ^ k.
Proof. destruct geometry, erasesize_pow. by exists erase_bits. Qed.

Lemma chunk_bounds : 0 < chunk /\ chunk <= erasesize /\ chunk <= CONFIG_ENV_SIZE /\ erasesize <= CONFIG_ENV_RANGE.
Proof.
  destruct erasesize_cases as (k & Hk & E). pose proof erasesize_pos.
  assert (erasesize <= 2 ^ 17) by (rewrite E; apply Z.pow_le_mono_r; lia).
  unfold CONFIG_ENV_SIZE, CONFIG_ENV_RANGE. destruct (Z.ltb_spec erasesize 0x10000); lia.
Qed.

Lemma at_block_start : at_block CONFIG_ENV_OFFSET 0.
Proof.
  destruct erasesize_cases as (k & Hk & E). unfold at_block, CONFIG_ENV_OFFSET, CONFIG_ENV_RANGE, CONFIG_ENV_SIZE.
  split; [lia|]. split; [|split; [lia|]].
  - exists (2 ^ (17 - k)). rewrite E, <- Z.pow_add_r by lia. by replace (17 - k + k) with 17 by lia.
  - destruct (Z.ltb_spec erasesize 0x10000) as [Hlt|]; [|by exists 1].
    exists (2 ^ (16 - k)). rewrite E in *.
    assert (k <= 16) by (apply (Z.pow_le_mono_r_iff 2); lia).
    rewrite <- Z.pow_add_r by lia. by replace (16 - k + k) with 16 by lia.
Qed.

Lemma at_block_next off a :
  at_block off a -> a < CONFIG_ENV_SIZE -> off < end_ ->
  at_block (off + erasesize) a /\ at_block (off + erasesize) (a + chunk) /\ off + erasesize <= end_
  /\ a + chunk <= CONFIG_ENV_SIZE /\ off mod erasesize = 0.
Proof.
  intros (Ho & [q Hq] & Ha & [r Hr]) Hlt Hend. pose proof erasesize_pos. pose proof chunk_bounds.
  assert (1 <= q) by nia. assert (1 <= r) by nia.
  assert (off + erasesize <= end_) by nia. assert (a + chunk <= CONFIG_ENV_SIZE) by nia.
  destruct at_block_start as (_ & [q0 Hq0] & _).
  split_and!; try done.
  - split; [lia|]. split; [exists (q - 1); lia|]. split; [lia|by exists r].
  - split; [lia|]. split; [exists (q - 1); lia|]. split; [lia|]. exists (r - 1). lia.
  - destruct erasesize_cases as (k & Hk & E).
    assert (Hd : (erasesize | off)).
    { assert ((erasesize | 0x800000)) by (exists (2 ^ (23 - k)); rewrite E, <- Z.pow_add_r by lia; 
        by replace (23 - k + k) with 23 by lia).
      replace off with (0x800000 - (end_ - off)) by (unfold CONFIG_ENV_OFFSET; lia).
      apply Z.divide_sub_r; [done|by exists q]. }
    by apply Z.mod_divide; [lia|].
Qed.

(** The good blocks from [off] on are erased. *)
Definition blank_from (f : F) (off : Z) : Prop :=
  forall b x, off <= b < end_ -> (erasesize | end_ - b) -> good f b = true ->
  b <= x < b + erasesize -> cells f x = 0xff.

Lemma blank_next f f' off :
  same_bad f f' -> (forall x, off + erasesize <= x -> cells f' x = cells f x) ->
  blank_from f off -> blank_from f' (off + erasesize).
Proof.
  intros Hs Hc Hb b x Hbr Hd Hg Hx. pose proof erasesize_pos. rewrite Hc by lia.
  apply (Hb b); try done; [lia|]. unfold good in *. by rewrite <- Hs.
Qed.

Lemma placed_ext f f' off a l : same_bad f f' -> placed f off a l -> placed f' off a l.
Proof.
  intros Hs. induction 1; constructor; try done; unfold good in *; by rewrite Hs.
Qed.

Lemma placed_from f off a l : placed f off a l -> Forall (fun p => off <= p.1) l.
Proof.
  pose proof erasesize_pos.
  induction 1 as [|off a l _ _ _ _ IH|off a l _ _ _ _ IH]; [constructor| |constructor; [cbn; lia|]];
    (eapply Forall_impl; [exact IH|]); intros p Hp; cbn in *; lia.
Qed.

Lemma gather_ext (m m' : Z -> Z) off l :
  Forall (fun p => off <= p.1) l -> (forall x, off <= x -> m x = m' x) -> gather m l = gather m' l.
Proof.
  intros Hl Hm. unfold gather. f_equal. apply map_ext_in. intros p Hp. rewrite Forall_forall in Hl.
  apply load_ext. intros x Hx. apply Hm. specialize (Hl p ltac:(by apply list_elem_of_In)). cbn in Hl. lia.
Qed.

Lemma turns_next off fuel :
  (Z.to_nat ((end_ - off) / erasesize) + 1 <= S fuel)%nat -> off + erasesize <= end_ ->
  (Z.to_nat ((end_ - (off + erasesize)) / erasesize) + 1 <= fuel)%nat.
Proof.
  intros Hf Hle. pose proof erasesize_pos.
  replace (end_ - off) with (end_ - (off + erasesize) + 1 * erasesize) in Hf by lia.
  rewrite Z.div_add in Hf by lia.
  assert (0 <= (end_ - (off + erasesize)) / erasesize) by (apply Z.div_pos; lia). lia.
Qed.

Lemma writeenv_loop_spec fuel f off a buf :
  at_block off a -> length buf = Z.to_nat CONFIG_ENV_SIZE -> blank_from f off ->
  (Z.to_nat ((end_ - off) / erasesize) + 1 <= fuel)%nat ->
  exists r f', writeenv_loop fuel f erasesize end_ off a chunk buf = Some (r, f')
    /\ (r = 0 -> same_bad f f' /\ (forall x, x < off -> cells f' x = cells f x)
          /\ exists l, placed f off a l /\ gather (cells f') l = drop (Z.to_nat a) buf).
Proof.
  pose proof erasesize_pos. pose proof chunk_bounds as (Hc0 & Hce & Hcs & Her).
  revert f off a. induction fuel as [|fuel IH]; intros f off a Hat Hbuf Hblank Hf; [lia|].
  cbn [writeenv_loop].
  pose proof Hat as (Ho & _ & Ha & _).
  destruct ((a <? CONFIG_ENV_SIZE) && (off <? end_)) eqn:Ego.
  2: { destruct (Z.eqb_spec a CONFIG_ENV_SIZE) as [->|]; cbn [negb]; do 2 eexists; (split; [reflexivity|]).
       - intros _. split_and!; [done..|]. exists []. split; [constructor|]. by rewrite drop_ge by lia.
       - done. }
  apply andb_true_iff in Ego as [Hlt%Z.ltb_lt Hend%Z.ltb_lt].
  destruct (at_block_next off a Hat Hlt Hend) as (Hb1 & Hb2 & Hle & Hac & _).
  rewrite u32_small by (pose proof end_value; lia).
  destruct (nand_block_isbad f off =? 0) eqn:Eb; cbn [negb].
  - destruct (front_some (drop (Z.to_nat a) buf) chunk) as (d & -> & Hd & Hdl); [rewrite length_drop; lia|].
    cbn [mbind option_bind]. destruct (nand_write f off d) as [[r n] f1] eqn:Ew.
    destruct (Z.eqb_spec r 0) as [->|]; cbn [negb]; [|by do 2 eexists].
    destruct (write_cells f off d n f1 Ew) as (-> & Hs1 & Hcell).
    { intros x Hx. apply (Hblank off); try done; [by destruct Hat as (_ & ? & _)|lia]. }
    rewrite Hdl.
    destruct (IH f1 (off + erasesize) (a + chunk)) as (r & f2 & -> & Hok); [done|done| |by apply turns_next|].
    { eapply blank_next; [exact Hs1| |done]. intros x Hx. rewrite Hcell, store_out by lia. done. }
    do 2 eexists. split; [done|]. intros Hr. destruct (Hok Hr) as (Hs2 & Hlow & l & Hpl & Hg).
    split; [by etrans|]. split; [intros x Hx; rewrite Hlow, Hcell, store_out by lia; done|].
    exists ((off, chunk) :: l). split.
    { apply placed_good; try done. eapply placed_ext; [|exact Hpl]. intros b. by rewrite Hs1. }
    unfold gather in *. cbn [map concat fst snd]. rewrite Hg.
    rewrite (load_ext (cells f2) (store (cells f) off d)) by (intros x Hx; rewrite Hlow by lia; apply Hcell).
    replace (Z.to_nat chunk) with (length d) by lia. rewrite load_store, Hd.
    replace (Z.to_nat (a + chunk)) with (Z.to_nat a + Z.to_nat chunk)%nat by lia.
    by rewrite <- drop_drop, take_drop.
  - destruct (IH f (off + erasesize) a) as (r & f2 & -> & Hok); [done|done| |by apply turns_next|].
    { by eapply blank_next. }
    do 2 eexists. split; [done|]. intros Hr. destruct (Hok Hr) as (Hs2 & Hlow & l & Hpl & Hg).
    split; [done|]. split; [intros x Hx; apply Hlow; lia|]. exists l. split; [|done].
    by apply placed_bad.
Qed.

(** One good block. *)
Lemma pieces_block f off a :
  at_block off a -> a < CONFIG_ENV_SIZE -> off < end_ -> good f off = true ->
  pieces turns f off chunk = Some [(off, chunk)].
Proof.
  intros Hat Hlt Hend Hg. destruct (at_block_next off a Hat Hlt Hend) as (_ & _ & _ & _ & Hm).
  pose proof chunk_bounds as (? & ? & ? & ?). destruct geometry as [_ Hsz].
  unfold turns. rewrite Nat.add_comm. cbn [Nat.add pieces].
  destruct (Z.leb_spec chunk 0); [lia|]. destruct (Z.leb_spec nand_size off); [lia|].
  rewrite Hm, Z.sub_0_r, Hg, Z.sub_0_r. cbn [negb]. rewrite Z.min_l, Z.sub_diag by lia. done.
Qed.

Lemma page_aligned off : off mod erasesize = 0 -> off .& (writesize - 1) = 0.
Proof.
  intros Hm. destruct writesize_pow as (j & Hj & ->). destruct erasesize_pow as [Hb E].
  replace (2 ^ j - 1) with (Z.ones j) by (rewrite Z.ones_equiv; lia). rewrite Z.land_ones by lia.
  apply Z.mod_divide; [lia|]. apply Z.mod_divide in Hm; [|lia]. etrans; [|exact Hm].
  exists (2 ^ (erase_bits - j)). rewrite E, <- Z.pow_add_r by lia. f_equal. lia.
Qed.

Lemma readenv_loop_spec fuel f off a l buf :
  read_works (F:=F) -> at_block off a -> length buf = Z.to_nat CONFIG_ENV_SIZE -> placed f off a l ->
  (Z.to_nat ((end_ - off) / erasesize) + 1 <= fuel)%nat ->
  exists f', readenv_loop fuel f erasesize end_ off a chunk buf
    = Some (0, take (Z.to_nat a) buf ++ gather (cells f) l, f').
Proof.
  intros Hrw. pose proof erasesize_pos. pose proof chunk_bounds as (Hc0 & Hce & Hcs & Her).
  revert f off a l buf. induction fuel as [|fuel IH]; intros f off a l buf Hat Hbuf Hpl Hf; [lia|].
  cbn [readenv_loop].
  destruct Hpl as [off|off a l Hlt Hend Hg Hpl|off a l Hlt Hend Hg Hpl].
  { rewrite Z.ltb_irrefl. cbn [andb]. rewrite Z.eqb_refl. cbn [negb]. exists f.
    unfold gather. cbn [map concat]. rewrite app_nil_r, take_ge by lia. done. }
  all: destruct (Z.ltb_spec a CONFIG_ENV_SIZE); [|lia].
  all: destruct (Z.ltb_spec off end_); [|lia]; cbn [andb].
  all: destruct (at_block_next off a Hat Hlt Hend) as (Hb1 & Hb2 & Hle & Hac & Hm).
  all: rewrite u32_small by (pose proof end_value; destruct Hat; lia).
  all: unfold good in Hg; rewrite Hg; cbn [negb].
  - destruct (IH f (off + erasesize) a l buf) as (f' & ->); try done; [by apply turns_next|]. by eexists.
  - pose proof Hat as (Ho & _ & Ha & _).
    destruct (read_skip_ok f off chunk [(off, chunk)] (drop (Z.to_nat a) buf))
      as (rval & n & part & f1 & -> & Hs1 & Hc1 & Hok & Hworks).
    { pose proof end_value. lia. }
    { pose proof end_value. lia. }
    { by apply page_aligned. }
    { by eapply pieces_block. }
    rewrite (Hworks Hrw) in Hok |- *. destruct (Hok eq_refl) as [-> ->]. cbn [mbind option_bind negb Z.eqb].
    assert (Hd : gather (cells f) [(off, chunk)] = load (cells f) off (Z.to_nat chunk))
      by (unfold gather; cbn [map concat fst snd]; by rewrite app_nil_r).
    rewrite Hd. unfold memcpy. rewrite take_0, load_length. cbn [app Nat.add]. rewrite drop_drop.
    destruct (IH f1 (off + erasesize) (a + chunk) l
      (take (Z.to_nat a) buf ++ load (cells f) off (Z.to_nat chunk) ++ drop (Z.to_nat a + Z.to_nat chunk) buf))
      as (f' & ->); [done| | |by apply turns_next|].
    { rewrite !length_app, length_take, length_drop, load_length. lia. }
    { by eapply placed_ext. }
    exists f'. do 3 f_equal. unfold gather. cbn [map concat fst snd]. rewrite !app_assoc. f_equal.
    + rewrite take_app_le by (rewrite length_app, length_take, load_length; lia).
      apply take_ge. rewrite length_app, length_take, load_length. lia.
    + f_equal. apply map_ext. intros p. by apply load_ext.
Qed.

Lemma env_turns_enough : (Z.to_nat ((end_ - CONFIG_ENV_OFFSET) / erasesize) + 1 <= env_turns)%nat.
Proof. unfold env_turns. replace (end_ - CONFIG_ENV_OFFSET) with CONFIG_ENV_RANGE by lia. lia. Qed.

(** What [writeenv] wrote into erased blocks, [readenv] reads. *)
Lemma writeenv_spec f buf :
  length buf = Z.to_nat CONFIG_ENV_SIZE -> blank_from f CONFIG_ENV_OFFSET ->
  exists r f1, writeenv f CONFIG_ENV_OFFSET buf = Some (r, f1)
    /\ (r = 0 -> read_works (F:=F) -> forall junk, length junk = Z.to_nat CONFIG_ENV_SIZE ->
          exists f2, readenv f1 CONFIG_ENV_OFFSET junk = Some (0, buf, f2)).
Proof.
  intros Hbuf Hblank. unfold writeenv, readenv.
  destruct (writeenv_loop_spec env_turns f CONFIG_ENV_OFFSET 0 buf) as (r & f1 & E & Hok);
    [apply at_block_start|done|done|apply env_turns_enough|].
  rewrite E. do 2 eexists. split; [done|]. intros Hr Hrw junk Hj.
  destruct (Hok Hr) as (Hs & _ & l & Hpl & Hg). pose proof erasesize_pos.
  destruct (Z.eqb_spec erasesize 0); [lia|].
  destruct (readenv_loop_spec env_turns f1 CONFIG_ENV_OFFSET 0 l junk) as (f2 & ->); try done.
  - apply at_block_start.
  - by eapply placed_ext.
  - apply env_turns_enough.
  - exists f2. by rewrite Hg.
Qed.

(** Erasing the range leaves its good blocks erased. *)
Lemma erase_env_spec f :
  erase_works (F:=F) ->
  exists r f1, nand_erase_opts f (EraseOpts CONFIG_ENV_RANGE CONFIG_ENV_OFFSET false false false) = Some (r, f1)
    /\ (r = 0 -> blank_from f1 CONFIG_ENV_OFFSET).
Proof.
  intros Hw. pose proof erasesize_pos. pose proof chunk_bounds as (_ & _ & _ & Hle).
  destruct (at_block_next CONFIG_ENV_OFFSET 0 at_block_start) as (_ & _ & _ & _ & Hm); [done..|].
  unfold nand_erase_opts. cbn [e_offset e_length scrub]. rewrite mask_mod, Hm. cbn [negb Z.eqb].
  destruct at_block_start as (_ & [q Hq] & _).
  assert (Hq' : CONFIG_ENV_RANGE = q * erasesize) by lia.
  assert (Hn : (CONFIG_ENV_RANGE + erasesize - 1) / erasesize = q).
  { replace (CONFIG_ENV_RANGE + erasesize - 1) with (erasesize - 1 + q * erasesize) by lia.
    rewrite Z.div_add, Z.div_small by lia. lia. }
  assert (Hqb : 0 <= q <= CONFIG_ENV_RANGE) by nia.
  rewrite Hn, u32_small by (unfold CONFIG_ENV_RANGE in *; lia).
  destruct (erase_loop_spec (Z.to_nat q + turns) f
    (EraseOpts CONFIG_ENV_RANGE CONFIG_ENV_OFFSET false false false) CONFIG_ENV_OFFSET 0 q)
    as (r & f1 & -> & Hok); try done; [lia|unfold turns; lia|].
  do 2 eexists. split; [done|]. intros Hr. destruct (Hok Hr) as (Hs & _ & Hin).
  intros b x Hb [i Hi] Hg Hx. apply (Hin (q - i)); [nia| |nia].
  unfold good in *. rewrite Hs in Hg. by replace (CONFIG_ENV_OFFSET + (q - i) * erasesize) with b by lia.
Qed.

End NandSpec.

(** ** Theorems *)

Section EnvSpec.
Context {F : Type} `{NandOk F}.
Context {W : Type} `{HF : HooksFrame W} `{!EnvGd W}.
Context (default_environment env_at : list Z).
Implicit Types (f : F) (w : W).

Lemma good_text_bytes l : Forall (good_entry 0) l -> bytes (text 0 l).
Proof.
  intros Hl. unfold text. rewrite Forall_concat, Forall_map. eapply Forall_impl; [exact Hl|].
  intros e ((Hk & _) & Hd & _). unfold put_entry, put_value.
  assert (Hs : forall s, is_str s -> bytes s)
    by (intros s Hs; eapply Forall_impl; [exact Hs|]; intros c Hc; cbn in Hc; split; lia).
  apply Forall_app_2; [by apply Hs|]. apply Forall_app_2; [by repeat constructor|].
  apply Forall_app_2; [|by repeat constructor].
  rewrite Forall_concat, Forall_map. eapply Forall_impl; [exact (Hs _ Hd)|].
  intros c Hc. destruct (escaped 0 c); [apply Forall_cons; split; [done|]|]; by apply Forall_singleton.
Qed.

Lemma crc_stored a1 a2 m data_ :
  bytes data_ -> length data_ = Z.to_nat ENV_SIZE ->
  let buf := le_bytes 4 (Crc32.crc32 0 a1 m) ++ data_ in
  length buf = Z.to_nat CONFIG_ENV_SIZE /\ env_data buf = data_
  /\ (bytes m -> env_crc buf = Crc32.crc32 0 a2 m).
Proof.
  intros Hb Hl buf. unfold buf.
  split; [rewrite length_app, length_le_bytes, Hl; done|].
  split.
  - unfold env_data. rewrite drop_app_length' by (by rewrite length_le_bytes). apply take_ge. lia.
  - intros Hm. unfold env_crc. rewrite take_app_length' by (by rewrite length_le_bytes).
    rewrite le_combine_le_bytes. change (8 * Z.of_nat 4) with 32.
    destruct (Crc32.crc32_raw 0 a1 m) as [E1 Hw]; [split; lia|done|].
    destruct (Crc32.crc32_raw 0 a2 m) as [E2 _]; [split; lia|done|].
    rewrite (wrap_small _ _ Hw). by rewrite E1, E2.
Qed.

(** [env_import] with a right checksum. *)
Lemma import_saved a1 a2 h T out h0 w0 :
  all_welcome 0 (entries T) -> wf h T -> Forall (good_entry 0) (entries T) ->
  (length (entries T) <= 512)%nat -> sum_len 0 (entries T) + 1 < 2 ^ 32 ->
  hexport_r h 0 0 ENV_SIZE [] = Some (ENV_SIZE, out) ->
  length (le_bytes 4 (Crc32.crc32 0 a1 out) ++ out) = Z.to_nat CONFIG_ENV_SIZE
  /\ exists h' w' T', env_import default_environment a2 (le_bytes 4 (Crc32.crc32 0 a1 out) ++ out) true (h0, w0)
       = Some (1, (h', set_env_ready w')) /\ wf h' T' /\ abs T' = abs T.
Proof.
  intros Hnr Hwf Hgood Hlen Hsum Hexp.
  destruct (export_text h T 0 ENV_SIZE ENV_SIZE out) as (l & zeros & Eout & Hl & Hn & _); try done; [by left|].
  assert (Hbytes : bytes out).
  { rewrite Eout. apply Forall_app_2; [apply good_text_bytes; by rewrite Hl|].
    constructor; [split; lia|]. apply Forall_replicate. split; lia. }
  destruct (crc_stored a1 a2 out out Hbytes) as (Hlen' & Hdata & Hcrc); [lia|].
  split; [done|]. unfold env_import. rewrite Hlen', Hdata, Hcrc by done.
  rewrite Z2Nat.id, Z.ltb_irrefl, Z.eqb_refl by done. cbn [negb andb].
  destruct (exported_read h T 0 ENV_SIZE ENV_SIZE out h0 w0) as (h' & w' & T' & -> & ? & ?); try done.
  { by left. }
  cbn [mbind option_bind negb Z.eqb]. by exists h', w', T'.
Qed.

End EnvSpec.


(** C8: a stored environment with an error of at most four bytes in a row is
    not used: [env_import] sees that the checksum is wrong and takes the default
    environment. *)
Theorem damaged_env_rejected {W} `{!EnvHooks W} `{!EnvGd W} default_environment a1 a2 pre x y post (st : hsearch_data * W) :
  bytes (pre ++ x ++ post) -> bytes y -> length x = length y -> (length x <= 4)%nat -> x <> y ->
  length (pre ++ y ++ post) = Z.to_nat ENV_SIZE ->
  env_import default_environment a2 (le_bytes 4 (Crc32.crc32 0 a1 (pre ++ x ++ post)) ++ pre ++ y ++ post) true st
  = st ← set_default_env default_environment (Some (bytes_of "!bad CRC")) st; Some (0, st).
Proof.
  intros Hb Hy Hxy H4 Hne Hlen. pose proof Hb as Hb'.
  apply Forall_app in Hb' as [Hbp Hb']. apply Forall_app in Hb' as [Hbx Hbq].
  destruct (crc_stored a1 a2 (pre ++ x ++ post) (pre ++ y ++ post)) as (Hl & Hdata & Hcrc); [|done|].
  { by repeat apply Forall_app_2. }
  unfold env_import. rewrite Hl, Hdata, Hcrc by done. rewrite Z2Nat.id, Z.ltb_irrefl by done.
  destruct (Z.eqb_spec (Crc32.crc32 0 a2 (pre ++ y ++ post)) (Crc32.crc32 0 a2 (pre ++ x ++ post))) as [E|]; [|done].
  destruct Hne. symmetry. apply (Crc32.crc32_window 0 a2 a2 pre y x post); try done. lia.
Qed.

(** *** Setting a variable *)

Section SetSpec.
Context {W : Type} `{HF : HooksFrame W} `{!EnvGd W}.
Context (default_environment env_at : list Z).

(** A name that [setenv] takes for one. *)
Definition settable (name : str) : Prop := is_str name /\ (61 ∉ name) /\ head name <> Some 45.

Lemma no_options name values flag :
  head name <> Some 45 -> env_options (name :: values) flag = Some (name :: values, flag).
Proof.
  intros Hh. destruct name as [|c name]; [done|]. cbn [env_options].
  destruct (decide (c = 45)) as [->|]; [done|]. destruct c as [|p|p]; try done.
  repeat (destruct p as [p|p|]; try done).
Qed.

Lemma no_equals name : is_str name -> 61 ∉ name -> strchr (cstr name) 61 = Some None.
Proof.
  intros Hn Heq. destruct (EnvAttr.strchr_spec name 61 [] Hn) as [[_ E]|(s1 & s2 & E & _)]; [lia|done|].
  destruct Heq. rewrite E. apply elem_of_app. right. by left.
Qed.

Lemma getenv_table h T (w : W) name :
  wf h T -> is_str name -> env_ready (gd_of w) = true ->
  getenv default_environment env_at (h, w) name = Some (abs T !! name).
Proof.
  intros Hwf Hn Hr. unfold getenv, EnvVars.getenv. cbn [fst snd]. rewrite Hr.
  destruct (EnvVars.find_live h T name Hwf Hn) as [[Ha ->]|(i & s & Hl & Hk & ->)]; cbn [mbind option_bind].
  - by rewrite (proj2 (abs_absent h T Hwf name) Ha).
  - pose proof Hl as (Hi & Hs & _). rewrite (get_slot_at h T Hwf i s) by (done || lia). cbn [mbind option_bind].
    rewrite (proj2 (abs_lookup h T Hwf name (data (entry s)))); [done|by exists i, s].
Qed.

Lemma refused_ret (r : result) : r = failure EPERM \/ r = failure Hashtable.EINVAL -> ret r = 0 /\ retval r = None.
Proof. by intros [-> | ->]. Qed.

End SetSpec.

(** C11: [setenv] on the table as a map: with an empty slot left and a name that
    is one, a value is entered under the name, no value or an empty one deletes
    it; the return value is 0 and [getenv] finds the new state of the variable.
    Otherwise the return value is 1, the map is unchanged, and a hook refused
    the change or there was nothing to delete. *)
Theorem setenv_correct {W} `{HF : HooksFrame W} `{!EnvGd W} default_environment env_at
    h T (w : W) id name value i :
  wf h T -> settable name -> 1 <= i <= size h -> empty T i ->
  let new := match value with None | Some [] => None | Some v => Some v end in
  exists rc h' w' T', setenv name value (Nvedit (h, w) id) = Some (rc, Nvedit (h', w') (id + 1))
    /\ wf h' T'
    /\ ((rc = 0 /\ abs T' = match new with Some v => <[name := v]> (abs T) | None => delete name (abs T) end
          /\ (env_ready (gd_of w') = true ->
              getenv default_environment env_at (h', w') name = Some new))
        \/ (rc = 1 /\ abs T' = abs T
            /\ (refused name new H_INTERACTIVE \/ new = None /\ abs T !! name = None))).
Proof.
  intros Hwf (Hn & Heq & Hh) Hi He new.
  assert (Hset : setenv name value (Nvedit (h, w) id)
    = match new with
      | None => '(r, st) ← hdelete_r name (h, w) H_INTERACTIVE; Some (if ret r =? 0 then 1 else 0, Nvedit st (id + 1))
      | Some v => '(r, st) ← hsearch_r name (Some v) ENTER (h, w) H_INTERACTIVE;
                  Some (match retval r with None => 1 | Some _ => 0 end, Nvedit st (id + 1))
      end).
  { unfold setenv, new, _do_env_set.
    destruct value as [[|c v]|]; rewrite no_options, no_equals by done; done. }
  rewrite Hset. clear Hset. destruct new as [v|].
  - destruct (enter_spec h T w name v H_INTERACTIVE i Hwf Hn Hi He)
      as (r & h' & w' & T' & -> & Hwf' & _ & [(idx & _ & Hr & Ha & _)|(Hr & Href & Ha)]);
      cbn [mbind option_bind].
    + rewrite Hr. exists 0, h', w', T'. split; [done|]. split; [done|]. left. split_and!; [done..|].
      intros Hrdy. rewrite (getenv_table _ _ h' T') by done. by rewrite Ha, lookup_insert_eq.
    + destruct (refused_ret r Hr) as [_ ->]. exists 1, h', w', T'. split; [done|]. split; [done|]. right. auto.
  - destruct (delete_spec h T w name H_INTERACTIVE Hwf Hn)
      as (r & h' & w' & T' & -> & Hwf' & _ & [(-> & Hab & ->)|[(Hr & _ & Ha)|(Hr & _ & Href & Ha)]]);
      cbn [mbind option_bind].
    + exists 1, h, w', T. split; [done|]. split; [done|]. right. auto.
    + rewrite Hr. exists 0, h', w', T'. split; [done|]. split; [done|]. left. split_and!; [done..|].
      intros Hrdy. rewrite (getenv_table _ _ h' T') by done. by rewrite Ha, lookup_delete_eq.
    + destruct (refused_ret r Hr) as [-> _]. exists 1, h', w', T'. split; [done|]. split; [done|]. right. auto.
Qed.

(** ** Samples *)

(** [gd] alone, no hooks. *)
#[global] Instance plain_gd : EnvGd gd_t := {
  gd_of w := w;
  with_gd g _ := g;
  gd_with _ _ := eq_refl;
}.

#[local] Instance plain_hooks : EnvHooks gd_t := {
  change_ok := None;
  run_callback _ _ _ _ _ st := (false, st);
  Hashtable.env_callback_init e st := (e, st.2);
  Hashtable.env_flags_init e st := (e, st.2);
}.

#[local] Instance plain_hooks_frame : HooksFrame gd_t.
Proof.
  split; try done. intros cb k v op flag h w T Ht. exists false, T, w.
  split; [|done]. destruct h. cbn in *. by subst.
Qed.

Lemma plain_welcome flag l : all_welcome (W:=gd_t) flag l.
Proof. intros e _ (e' & op & _ & [Hv|[st Hc]]); [done|]. unfold call_back in Hc. by destruct (callback e'). Qed.

(** The chip of the board: erase blocks of 128 KiB. *)
Record flash := Flash { fl_cells : Z -> Z; fl_bad : list Z }.

#[global] Instance flash_info : NandInfo flash := {
  erasesize := 2 ^ 17;
  writesize := 2 ^ 11;
  nand_size := 2 ^ 30;
  oobavail := 0;
  nand_block_isbad c a := if bool_decide (a / 2 ^ 17 ∈ fl_bad c) then 1 else 0;
  nand_read c a len := (0, len, load (fl_cells c) a (Z.to_nat len), c);
  nand_write c a data := (0, Z.of_nat (length data), Flash (store (fl_cells c) a data) (fl_bad c));
  nand_erase c a len _ := (0, Flash (store (fl_cells c) a (replicate (Z.to_nat len) 0xff)) (fl_bad c));
  write_cleanmarker c a := (0, c);
  drop_bbt c := c;
  scan_bbt c := c;
}.

#[global] Instance flash_ok : NandOk flash.
Proof.
  refine {| cells := fl_cells; erase_bits := 17 |}.
  - done.
  - by exists 11.
  - split; [done|]. by exists (2 ^ 13).
  - intros f a data n f' E _. injection E as <- <-. by split_and!.
  - intros f a len rval n data f' E. injection E as <- <- <- <-. by split_and!.
  - intros f a sc f' E.
    assert (E' : (0, Flash (store (fl_cells f) a (replicate (Z.to_nat erasesize) 0xff)) (fl_bad f)) = (0, f'))
      by exact E.
    apply (f_equal snd) in E'. cbn [snd] in E'. subst f'. split; [done|]. intros x. cbn [fl_cells].
    rewrite store_replicate.
    by rewrite Z2Nat.id by done.
Defined.

Definition new_flash : flash := Flash (fun _ => 0xff) [].

Lemma demo_entries : entries demo_table = [Entry [97] [120] None 0].
Proof. vm_compute. reflexivity. Qed.

Lemma demo_good : Forall (good_entry 0) (entries demo_table).
Proof.
  rewrite demo_entries. apply Forall_singleton. unfold good_entry, good_name. cbn [key data].
  split_and!; [by repeat constructor|by repeat constructor|by exists 97, []|by repeat constructor|done].
Qed.

Lemma export_demo : exists out, hexport_r demo 0 0 ENV_SIZE [] = Some (ENV_SIZE, out) /\ Z.of_nat (length out) = ENV_SIZE.
Proof.
  assert (Hsel : selected [] 0 demo_table = [Entry [97] [120] None 0]) by (by rewrite selected_all, demo_entries).
  destruct (hexport_spec demo demo_table 0 0 ENV_SIZE []) as (l & _ & Hl & ->);
    [apply demo_table_wf|done|rewrite Hsel; done|].
  rewrite Hsel in *. apply Permutation_singleton_r in Hl as ->. cbn zeta.
  change (negb (ENV_SIZE =? 0) && (ENV_SIZE <? sum_len 0 [Entry [97] [120] None 0] + 1)) with false.
  change (negb (ENV_SIZE =? 0)) with true. cbn iota. rewrite decide_True by done.
  eexists. split; [reflexivity|]. rewrite length_app, length_replicate. unfold ENV_SIZE, CONFIG_ENV_SIZE, ENV_HEADER_SIZE.
  change (length (text 0 [Entry [97] [120] None 0])) with 4%nat. lia.
Qed.

(** The block of the range is good: the environment is saved. *)
Lemma save_demo : exists f1, saveenv 0 demo new_flash = Some (0, f1).
Proof.
  destruct export_demo as (out & E & Hlen). unfold saveenv. rewrite E.
  change (CONFIG_ENV_RANGE <? CONFIG_ENV_SIZE) with false. change (ENV_SIZE <? 0) with false. cbn iota.
  cbn [mbind option_bind]. set (buf := le_bytes 4 _ ++ out).
  assert (Hbuf : Z.of_nat (length buf) = CONFIG_ENV_SIZE)
    by (unfold buf; rewrite length_app, length_le_bytes; unfold ENV_SIZE, CONFIG_ENV_SIZE, ENV_HEADER_SIZE in *; lia).
  assert (He : exists c, nand_erase_opts new_flash (EraseOpts CONFIG_ENV_RANGE CONFIG_ENV_OFFSET false false false)
    = Some (0, Flash c [])) by (eexists; reflexivity).
  destruct He as (c & ->). cbn [mbind option_bind negb Z.eqb].
  assert (Hw : exists f1, writeenv (Flash c []) CONFIG_ENV_OFFSET buf = Some (0, f1)).
  { unfold writeenv. change env_turns with 3%nat.
    change (if erasesize <? CONFIG_ENV_SIZE then erasesize else CONFIG_ENV_SIZE) with CONFIG_ENV_SIZE.
    cbn [writeenv_loop].
    change ((0 <? CONFIG_ENV_SIZE) && (CONFIG_ENV_OFFSET <? CONFIG_ENV_OFFSET + CONFIG_ENV_RANGE)) with true.
    change (negb (nand_block_isbad (Flash c []) CONFIG_ENV_OFFSET =? 0)) with false. cbn iota.
    change (Z.to_nat 0) with 0%nat. rewrite drop_0.
    destruct (front_some buf CONFIG_ENV_SIZE) as (d & -> & _ & Hd); [rewrite Hbuf; done|].
    cbn [mbind option_bind nand_write flash_info negb Z.eqb]. rewrite Hd.
    change ((0 + CONFIG_ENV_SIZE <? CONFIG_ENV_SIZE) && _) with false.
    change (0 + CONFIG_ENV_SIZE =? CONFIG_ENV_SIZE) with true. by eexists. }
  destruct Hw as (f1 & ->). by exists f1.
Qed.


(** The range of the board is one block: when it is bad, nothing can be saved. *)
Example no_spare_block :
  writeenv (Flash (fun _ => 0xff) [63]) CONFIG_ENV_OFFSET [] = Some (1, Flash (fun _ => 0xff) [63]).
Proof. reflexivity. Qed.

Lemma damaged_env_rejected_witness :
  exists post, env_import [0; 0] 0 (le_bytes 4 (Crc32.crc32 0 0 ([] ++ [97] ++ post)) ++ [] ++ [98] ++ post) true
      (Htab None 0 0, Gd false true 1)
    = st ← set_default_env [0; 0] (Some (bytes_of "!bad CRC")) (Htab None 0 0, Gd false true 1); Some (0, st).
Proof.
  exists (replicate (Z.to_nat (ENV_SIZE - 1)) 0). apply damaged_env_rejected.
  - apply Forall_cons. split; [split; lia|]. apply Forall_replicate. split; lia.
  - by repeat constructor.
  - done.
  - cbn [length]. lia.
  - done.
  - cbn [app length]. rewrite length_replicate. unfold ENV_SIZE, CONFIG_ENV_SIZE, ENV_HEADER_SIZE. lia.
Defined.

Lemma setenv_correct_witness :
  let new := Some [120; 121] in
  exists rc h' w' T', setenv [98] (Some [120; 121]) (Nvedit (demo, Gd true true 1) 7)
      = Some (rc, Nvedit (h', w') (7 + 1))
    /\ wf h' T'
    /\ ((rc = 0 /\ abs T' = <[[98] := [120; 121]]> (abs demo_table)
          /\ (env_ready (gd_of w') = true -> getenv [] [] (h', w') [98] = Some new))
        \/ (rc = 1 /\ abs T' = abs demo_table
            /\ (refused (W:=gd_t) [98] new H_INTERACTIVE \/ new = None /\ abs demo_table !! [98] = None))).
Proof.
  apply (setenv_correct (W:=gd_t) [] [] demo demo_table (Gd true true 1) 7 [98] (Some [120; 121]) 1).
  - apply demo_table_wf.
  - split_and!; [repeat constructor; lia| |done]. apply not_elem_of_cons. split; [done|apply not_elem_of_nil].
  - vm_compute. done.
  - exists zero_slot. vm_compute. done.
Defined.

(** [setenv -f] has no name: a NULL pointer is read. *)
Example set_without_name : do_env_set [bytes_of "-f"] (Nvedit (demo, Gd true true 1) 1) = None.
Proof. reflexivity. Qed.

(** A long value does not fit the buffer of [printf]. *)
Example print_overrun :
  option_map fst (print_vars [[97]] 0
    (match hsearch_r [97] (Some (replicate 1100 120)) ENTER (demo, Gd true true 1) 0 with
     | Some (_, st) => st | None => (demo, Gd true true 1) end) 0 []) = None.
Proof. vm_compute. reflexivity. Qed.

End EnvStore.
