(* ===== verification/Hash.v ===== *)
(** * The table of hash algorithms and hashing of regions
      (common/hash.c, lib/rsa/rsa-checksum.c)

    Clients reach the hashes through a table of records of function pointers.
    A record's laws ([HashAlgoOk]) say which function of the message it
    computes; [hash_block] and [hash_calculate] are verified against the laws,
    and the routines of Sha1, Sha2 and Crc32 discharge them.  Memory from
    [malloc] is the argument [junk]; allocation succeeds. *)

From S2P Require Import Prelude Crc32 BlockHash Sha2 Sha1 Cstring.

Module Hash.
Import Cstring.

Definition EPROTONOSUPPORT : Z := 93.
Definition ENOSPC : Z := 28.

(** ** Contexts *)

(** What [void *ctx] points to. *)
Inductive hash_context :=
  | Sha1Ctx (c : Sha1.sha1_context)
  | Sha256Ctx (c : Sha256.sha256_context)
  | Sha512Ctx (c : Sha512.sha512_context)
  | Crc32Ctx (c : Z).

(** A piece of memory: its address and its contents. *)
Record chunk := Chunk { c_addr : Z; c_data : list Z }.

Record hash_algo := HashAlgo {
  ha_name : str;
  digest_size : Z;
  (** junk, input, chunk size *)
  hash_func_ws : list Z -> chunk -> nat -> list Z;
  chunk_size : nat;
  hash_init : option (list Z -> Z * hash_context);
  (** [None] is a context of another algorithm. *)
  hash_update : hash_context -> chunk -> bool -> option (Z * hash_context);
  (** digest size, context, buffer size: the code and the bytes stored *)
  hash_finish : Z -> hash_context -> Z -> option (Z * list Z);
}.

Definition hash_init_sha1 (junk : list Z) : Z * hash_context :=
  (0, Sha1Ctx (Sha1.sha1_starts (take 64 junk))).

Definition hash_update_sha1 (ctx : hash_context) (b : chunk) (is_last : bool) : option (Z * hash_context) :=
  match ctx with
  | Sha1Ctx c => Some (0, Sha1Ctx (Sha1.sha1_update c (c_data b)))
  | _ => None
  end.

Definition hash_finish_sha1 (digest_size : Z) (ctx : hash_context) (size : Z) : option (Z * list Z) :=
  if size <? digest_size then Some (-1, []) else
  match ctx with Sha1Ctx c => Some (0, Sha1.sha1_finish c) | _ => None end.

Definition hash_init_sha256 (junk : list Z) : Z * hash_context :=
  (0, Sha256Ctx (Sha256.sha256_starts (take 64 junk))).

Definition hash_update_sha256 (ctx : hash_context) (b : chunk) (is_last : bool) : option (Z * hash_context) :=
  match ctx with
  | Sha256Ctx c => Some (0, Sha256Ctx (Sha256.sha256_update c (c_data b)))
  | _ => None
  end.

Definition hash_finish_sha256 (digest_size : Z) (ctx : hash_context) (size : Z) : option (Z * list Z) :=
  if size <? digest_size then Some (-1, []) else
  match ctx with Sha256Ctx c => Some (0, Sha256.sha256_finish c) | _ => None end.

Definition hash_init_sha384 (junk : list Z) : Z * hash_context :=
  (0, Sha512Ctx (Sha512.sha512_starts (take 128 junk) 1)).

Definition hash_init_sha512 (junk : list Z) : Z * hash_context :=
  (0, Sha512Ctx (Sha512.sha512_starts (take 128 junk) 0)).

Definition hash_update_sha512 (ctx : hash_context) (b : chunk) (is_last : bool) : option (Z * hash_context) :=
  match ctx with
  | Sha512Ctx c => Some (0, Sha512Ctx (Sha512.sha512_update c (c_data b)))
  | _ => None
  end.

Definition hash_finish_sha512 (digest_size : Z) (ctx : hash_context) (size : Z) : option (Z * list Z) :=
  if size <? digest_size then Some (-1, []) else
  match ctx with Sha512Ctx c => Some (0, Sha512.sha512_finish c) | _ => None end.

Definition hash_init_crc32 (junk : list Z) : Z * hash_context := (0, Crc32Ctx 0).

Definition hash_update_crc32 (ctx : hash_context) (b : chunk) (is_last : bool) : option (Z * hash_context) :=
  match ctx with
  | Crc32Ctx c => Some (0, Crc32Ctx (Crc32.crc32 c (c_addr b) (c_data b)))
  | _ => None
  end.

(** A little-endian store of a [uint32_t]. *)
Definition le32 (v : Z) : list Z := [u8 v; u8 (v .>> 8); u8 (v .>> 16); u8 (v .>> 24)].

Definition hash_finish_crc32 (digest_size : Z) (ctx : hash_context) (size : Z) : option (Z * list Z) :=
  if size <? digest_size then Some (-1, []) else
  match ctx with Crc32Ctx c => Some (0, le32 c) | _ => None end.

(** ** The table *)

Definition CHUNKSZ : nat := Z.to_nat (64 * 1024).

Definition sha1_algo : hash_algo :=
  HashAlgo (bytes_of "sha1") 20 (fun junk b n => Sha1.sha1_csum_wd (take 64 junk) (c_data b) n) CHUNKSZ
    (Some hash_init_sha1) hash_update_sha1 hash_finish_sha1.

Definition sha256_algo : hash_algo :=
  HashAlgo (bytes_of "sha256") 32 (fun junk b n => Sha256.sha256_csum_wd (take 64 junk) (c_data b) n) CHUNKSZ
    (Some hash_init_sha256) hash_update_sha256 hash_finish_sha256.

Definition sha384_algo : hash_algo :=
  HashAlgo (bytes_of "sha384") 48 (fun junk b n => Sha512.sha384_csum_wd (take 128 junk) (c_data b) n) CHUNKSZ
    (Some hash_init_sha384) hash_update_sha512 hash_finish_sha512.

Definition sha512_algo : hash_algo :=
  HashAlgo (bytes_of "sha512") 64 (fun junk b n => Sha512.sha512_csum_wd (take 128 junk) (c_data b) n) CHUNKSZ
    (Some hash_init_sha512) hash_update_sha512 hash_finish_sha512.

Definition crc32_algo : hash_algo :=
  HashAlgo (bytes_of "crc32") 4 (fun _ b n => Crc32.crc32_wd_buf (c_addr b) (c_data b) n) CHUNKSZ
    (Some hash_init_crc32) hash_update_crc32 hash_finish_crc32.

(** [hash_algo[]] of the build: SHA-1 (image.h defines it for FIT images),
    SHA-256, SHA-512, no hardware acceleration. *)
Definition hash_algos : list hash_algo :=
  [sha1_algo; sha256_algo; sha384_algo; sha512_algo; crc32_algo].

Fixpoint lookup_loop (l : list hash_algo) (progressive : bool) (algo_name : list Z)
    : option (Z + hash_algo) :=
  match l with
  | [] => Some (inl (- EPROTONOSUPPORT))
  | a :: l =>
      r ← strcmp algo_name (cstr (ha_name a));
      if (r =? 0) && (negb progressive || bool_decide (is_Some (hash_init a))) then Some (inr a)
      else lookup_loop l progressive algo_name
  end.

(** The error code or the algorithm. *)
Definition hash_lookup_algo (algo_name : list Z) : option (Z + hash_algo) :=
  lookup_loop hash_algos false algo_name.

Definition hash_progressive_lookup_algo (algo_name : list Z) : option (Z + hash_algo) :=
  lookup_loop hash_algos true algo_name.

(** The code, [*output_size] and the bytes stored in [output]. *)
Definition hash_block (junk algo_name : list Z) (b : chunk) (output_size : option Z)
    : option (Z * option Z * list Z) :=
  r ← hash_lookup_algo algo_name;
  match r with
  | inl ret => Some (ret, output_size, [])
  | inr algo =>
      if match output_size with Some s => s <? digest_size algo | None => false end
      then Some (- ENOSPC, output_size, [])
      else Some (0, option_map (fun _ => digest_size algo) output_size,
                 hash_func_ws algo junk b (chunk_size algo))
  end.

(** ** rsa-checksum.c *)

(** The updates of [hash_calculate]; the last region is fed with [is_last]. *)
Fixpoint update_regions (algo : hash_algo) (ctx : hash_context) (region : list chunk)
    : option (Z * hash_context) :=
  match region with
  | [] => None
  | [b] => hash_update algo ctx b true
  | b :: region =>
      '(ret, ctx) ← hash_update algo ctx b false;
      if negb (ret =? 0) then Some (ret, ctx) else update_regions algo ctx region
  end.

(** The code and the bytes stored in [checksum].  With no region at all the
    code reads [region[0]]. *)
Definition hash_calculate (junk name : list Z) (region : list chunk) : option (Z * list Z) :=
  r ← hash_progressive_lookup_algo name;
  match r with
  | inl ret => Some (ret, [])
  | inr algo =>
      init ← hash_init algo;
      let '(ret, ctx) := init junk in
      if negb (ret =? 0) then Some (ret, []) else
      '(ret, ctx) ← update_regions algo ctx region;
      if negb (ret =? 0) then Some (ret, []) else
      hash_finish algo (digest_size algo) ctx (digest_size algo)
  end.

(** ** Laws of an algorithm *)

Definition chunk_ok (b : chunk) : Prop := bytes (c_data b) /\ Z.of_nat (length (c_data b)) < 2 ^ 32.

(** All updates, the flag aside. *)
Fixpoint updates (algo : hash_algo) (ctx : hash_context) (region : list chunk) (last : bool)
    : option hash_context :=
  match region with
  | [] => Some ctx
  | b :: region =>
      '(ret, ctx) ← hash_update algo ctx b (last && bool_decide (region = []));
      if ret =? 0 then updates algo ctx region last else None
  end.

Class HashAlgoOk (algo : hash_algo) (digest : list Z -> list Z) : Prop := {
  ok_progressive junk region :
    length junk = 128%nat -> Forall chunk_ok region ->
    exists init ctx ctx',
      hash_init algo = Some init /\ init junk = (0, ctx)
      /\ updates algo ctx region true = Some ctx'
      /\ hash_finish algo (digest_size algo) ctx' (digest_size algo)
         = Some (0, digest (concat (map c_data region)));
  ok_oneshot junk b :
    length junk = 128%nat -> chunk_ok b -> hash_func_ws algo junk b (chunk_size algo) = digest (c_data b);
}.

#[global] Instance chunk_eq_dec : EqDecision chunk.
Proof. solve_decision. Defined.

Lemma update_regions_updates algo ctx region ctx' :
  region <> [] -> updates algo ctx region true = Some ctx' ->
  update_regions algo ctx region = Some (0, ctx').
Proof.
  revert ctx. induction region as [|b region IH]; intros ctx Hne Hu; [done|].
  cbn [updates] in Hu. destruct region as [|b' region]; cbn [update_regions].
  - rewrite bool_decide_eq_true_2 in Hu by done. cbn [andb] in Hu.
    destruct (hash_update algo ctx b true) as [[ret c]|]; [|done]. cbn [mbind option_bind] in Hu.
    cbn [updates] in Hu. destruct (Z.eqb_spec ret 0) as [->|]; congruence.
  - rewrite bool_decide_eq_false_2 in Hu by done. cbn [andb] in Hu.
    destruct (hash_update algo ctx b false) as [[ret c]|]; [|done]. cbn [mbind option_bind] in Hu |- *.
    destruct (Z.eqb_spec ret 0) as [->|]; [|done]. by apply IH.
Qed.

(** Updates that keep to one kind of context are a fold. *)
Lemma updates_fold {C} (inj : C -> hash_context) (f : C -> chunk -> C) algo :
  (forall c b last, hash_update algo (inj c) b last = Some (0, inj (f c b))) ->
  forall region last c, updates algo (inj c) region last = Some (inj (fold_left f region c)).
Proof.
  intros Hf region last. induction region as [|b region IH]; intros c; [done|].
  cbn [updates fold_left]. rewrite Hf. cbn [mbind option_bind Z.eqb]. apply IH.
Qed.

Lemma chunks_ok region :
  Forall chunk_ok region ->
  Forall (fun c => bytes c /\ Z.of_nat (length c) < 2 ^ 32) (map c_data region).
Proof. intros H. by apply Forall_map. Qed.

Lemma CHUNKSZ_pos : (0 < CHUNKSZ)%nat.
Proof. unfold CHUNKSZ. lia. Qed.

Lemma pieces_ok fuel m :
  bytes m -> Z.of_nat (length m) < 2 ^ 32 ->
  Forall (fun c => bytes c /\ Z.of_nat (length c) < 2 ^ 32) (pieces fuel CHUNKSZ m).
Proof. apply bytes_pieces. Qed.

#[local] Opaque CHUNKSZ.

#[export] Instance sha1_ok : HashAlgoOk sha1_algo Sha1.sha1_spec.
Proof.
  split; intros junk r Hj Hr; cbn [sha1_algo hash_init hash_finish hash_func_ws chunk_size digest_size].
  - eexists _, _, _. split_and!; [done|done| |].
    + apply (updates_fold Sha1Ctx (fun c b => Sha1.sha1_update c (c_data b))); done.
    + unfold hash_finish_sha1. cbn [Z.ltb Z.compare Pos.compare Pos.compare_cont].
      rewrite <- fold_left_map, Sha1.sha1_stream; [done|by rewrite length_take, Hj|by apply chunks_ok].
  - destruct Hr as [Hb Hl]. unfold Sha1.sha1_csum_wd.
    rewrite Sha1.sha1_wd_loop_pieces, Sha1.sha1_stream, concat_pieces; try done;
      [apply CHUNKSZ_pos|by rewrite length_take, Hj|by apply pieces_ok].
Qed.

#[export] Instance sha256_ok : HashAlgoOk sha256_algo Sha256.sha256_spec.
Proof.
  split; intros junk r Hj Hr; cbn [sha256_algo hash_init hash_finish hash_func_ws chunk_size digest_size].
  - eexists _, _, _. split_and!; [done|done| |].
    + apply (updates_fold Sha256Ctx (fun c b => Sha256.sha256_update c (c_data b))); done.
    + unfold hash_finish_sha256. cbn [Z.ltb Z.compare Pos.compare Pos.compare_cont].
      rewrite <- fold_left_map, Sha256.sha256_stream; [done|by rewrite length_take, Hj|by apply chunks_ok].
  - destruct Hr as [Hb Hl]. unfold Sha256.sha256_csum_wd.
    rewrite Sha256.sha256_wd_loop_pieces, Sha256.sha256_stream, concat_pieces; try done;
      [apply CHUNKSZ_pos|by rewrite length_take, Hj|by apply pieces_ok].
Qed.

Lemma sha512_family junk v384 region :
  length junk = 128%nat -> Forall chunk_ok region ->
  Sha512.sha512_finish (fold_left (fun c b => Sha512.sha512_update c (c_data b)) region
    (Sha512.sha512_starts (take 128 junk) v384)) = Sha512.sha512_spec v384 (concat (map c_data region)).
Proof.
  intros Hj Hr. rewrite <- fold_left_map, Sha512.sha512_stream; [done|by rewrite length_take, Hj|by apply chunks_ok].
Qed.

#[export] Instance sha384_ok : HashAlgoOk sha384_algo (Sha512.sha512_spec 1).
Proof.
  split; intros junk r Hj Hr; cbn [sha384_algo hash_init hash_finish hash_func_ws chunk_size digest_size].
  - eexists _, _, _. split_and!; [done|done| |].
    + apply (updates_fold Sha512Ctx (fun c b => Sha512.sha512_update c (c_data b))); done.
    + unfold hash_finish_sha512. cbn [Z.ltb Z.compare Pos.compare Pos.compare_cont].
      by rewrite sha512_family.
  - destruct Hr as [Hb Hl]. unfold Sha512.sha384_csum_wd.
    rewrite Sha512.sha512_wd_loop_pieces, Sha512.sha512_stream, concat_pieces; try done;
      [apply CHUNKSZ_pos|by rewrite length_take, Hj|by apply pieces_ok].
Qed.

#[export] Instance sha512_ok : HashAlgoOk sha512_algo (Sha512.sha512_spec 0).
Proof.
  split; intros junk r Hj Hr; cbn [sha512_algo hash_init hash_finish hash_func_ws chunk_size digest_size].
  - eexists _, _, _. split_and!; [done|done| |].
    + apply (updates_fold Sha512Ctx (fun c b => Sha512.sha512_update c (c_data b))); done.
    + unfold hash_finish_sha512. cbn [Z.ltb Z.compare Pos.compare Pos.compare_cont].
      by rewrite sha512_family.
  - destruct Hr as [Hb Hl]. unfold Sha512.sha512_csum_wd.
    rewrite Sha512.sha512_wd_loop_pieces, Sha512.sha512_stream, concat_pieces; try done;
      [apply CHUNKSZ_pos|by rewrite length_take, Hj|by apply pieces_ok].
Qed.

Lemma crc32_fold region : forall c,
  in_word 32 c -> Forall chunk_ok region ->
  fold_left (fun c b => Crc32.crc32 c (c_addr b) (c_data b)) region c
  = Crc32.crc32 c 0 (concat (map c_data region)).
Proof.
  induction region as [|b region IH]; intros c Hc Hr; cbn [fold_left map concat].
  - destruct (Crc32.crc32_raw c 0 []) as [-> _]; [done..|]. cbn. by rewrite Crc32.lxor_ones32_twice.
  - apply Forall_cons_1 in Hr as [[Hb _] Hr].
    rewrite IH; [|by apply Crc32.crc32_raw|done].
    apply Crc32.crc32_app; [done|done|]. apply Forall_concat, Forall_map.
    eapply Forall_impl; [exact Hr|]. by intros ? [? _].
Qed.

#[export] Instance crc32_ok : HashAlgoOk crc32_algo (fun m => le32 (Crc32.crc32 0 0 m)).
Proof.
  split; intros junk r Hj Hr; cbn [crc32_algo hash_init hash_finish hash_func_ws chunk_size digest_size].
  - eexists _, _, _. split_and!; [done|done| |].
    + apply (updates_fold Crc32Ctx (fun c b => Crc32.crc32 c (c_addr b) (c_data b))); done.
    + unfold hash_finish_crc32. cbn [Z.ltb Z.compare Pos.compare Pos.compare_cont].
      by rewrite crc32_fold.
  - destruct Hr as [Hb Hl]. unfold Crc32.crc32_wd_buf, Crc32.crc32_wd.
    by rewrite (Crc32.crc32_wd_loop_spec _ 0 _ 0) by (done || apply CHUNKSZ_pos || lia).
Qed.

(** What each name of the table stands for. *)
Definition digest_of (name : str) : option (list Z -> list Z) :=
  if bool_decide (name = bytes_of "sha1") then Some Sha1.sha1_spec
  else if bool_decide (name = bytes_of "sha256") then Some Sha256.sha256_spec
  else if bool_decide (name = bytes_of "sha384") then Some (Sha512.sha512_spec 1)
  else if bool_decide (name = bytes_of "sha512") then Some (Sha512.sha512_spec 0)
  else if bool_decide (name = bytes_of "crc32") then Some (fun m => le32 (Crc32.crc32 0 0 m))
  else None.

Lemma lookup_step a l p name y :
  is_str name -> is_str (ha_name a) -> is_Some (hash_init a) ->
  lookup_loop (a :: l) p (name ++ 0 :: y)
  = if bool_decide (name = ha_name a) then Some (inr a) else lookup_loop l p (name ++ 0 :: y).
Proof.
  intros Hn Ha Hi. cbn [lookup_loop]. unfold cstr.
  destruct (strcmp_spec name (ha_name a) y [] Hn Ha) as (r & -> & Hr & _). cbn [mbind option_bind].
  rewrite (bool_decide_eq_true_2 (is_Some _)) by done. rewrite orb_true_r, andb_true_r.
  destruct (Z.eqb_spec r 0) as [E|E]; [apply Hr in E|].
  - by rewrite bool_decide_eq_true_2.
  - rewrite bool_decide_eq_false_2; [done|]. intros Hs. by apply E, Hr.
Qed.

Lemma lookup_spec p name y :
  is_str name ->
  match digest_of name with
  | Some digest => exists algo, lookup_loop hash_algos p (name ++ 0 :: y) = Some (inr algo)
                                /\ HashAlgoOk algo digest /\ ha_name algo = name
  | None => lookup_loop hash_algos p (name ++ 0 :: y) = Some (inl (- EPROTONOSUPPORT))
  end.
Proof.
  intros Hn. unfold hash_algos, digest_of.
  rewrite !lookup_step by (done || by apply (bool_decide_unpack _)).
  cbn [ha_name sha1_algo sha256_algo sha384_algo sha512_algo crc32_algo].
  repeat (case_bool_decide; [eexists; split; [done|split; [apply _|done]]|]). done.
Qed.

Lemma hash_calculate_spec junk name y region :
  is_str name -> length junk = 128%nat -> Forall chunk_ok region -> region <> [] ->
  hash_calculate junk (name ++ 0 :: y) region
  = Some (match digest_of name with
          | Some digest => (0, digest (concat (map c_data region)))
          | None => (- EPROTONOSUPPORT, [])
          end).
Proof.
  intros Hn Hj Hr Hne. unfold hash_calculate, hash_progressive_lookup_algo.
  pose proof (lookup_spec true name y Hn) as Hl. destruct (digest_of name) as [digest|].
  - destruct Hl as (algo & -> & Hok & _). cbn [mbind option_bind].
    destruct (ok_progressive junk region Hj Hr) as (init & ctx & ctx' & -> & Hi & Hu & Hf).
    cbn [mbind option_bind]. rewrite Hi. cbn [Z.eqb negb].
    rewrite (update_regions_updates _ _ _ _ Hne Hu). cbn [mbind option_bind Z.eqb negb]. done.
  - by rewrite Hl.
Qed.

(** [hash_calculate] over any non-empty list of regions and [hash_block]
    over one piece of memory return the same digest, that of the algorithm the
    name stands for, when the regions make up the piece; an unknown name gives
    -EPROTONOSUPPORT in both, and a short output buffer -ENOSPC. *)
Theorem hash_calculate_correct junk name y region b size :
  is_str name -> length junk = 128%nat -> Forall chunk_ok region -> region <> [] ->
  chunk_ok b -> c_data b = concat (map c_data region) ->
  hash_calculate junk (name ++ 0 :: y) region
  = Some (match digest_of name with
          | Some digest => (0, digest (c_data b))
          | None => (- EPROTONOSUPPORT, [])
          end)
  /\ exists algo, hash_lookup_algo (name ++ 0 :: y) = Some algo
     /\ hash_block junk (name ++ 0 :: y) b (Some size)
        = Some (match digest_of name, algo with
                | Some digest, inr algo =>
                    if size <? digest_size algo then (- ENOSPC, Some size, [])
                    else (0, Some (digest_size algo), digest (c_data b))
                | _, _ => (- EPROTONOSUPPORT, Some size, [])
                end).
Proof.
  intros Hn Hj Hr Hne Hb Hcat. rewrite hash_calculate_spec, <- Hcat by done. split; [done|].
  unfold hash_block, hash_lookup_algo. pose proof (lookup_spec false name y Hn) as Hl.
  destruct (digest_of name) as [digest|].
  - destruct Hl as (algo & -> & Hok & _). eexists. split; [done|]. cbn [mbind option_bind].
    destruct (size <? digest_size algo); [done|]. by rewrite ok_oneshot.
  - rewrite Hl. eexists. split; [done|]. done.
Qed.

Lemma hash_calculate_correct_witness :
  hash_calculate (replicate 128 7) (bytes_of "sha256" ++ 0 :: []) [Chunk 4096 [97]; Chunk 8193 [98; 99]]
  = Some (0, Sha256.sha256_spec [97; 98; 99])
  /\ exists algo, hash_lookup_algo (bytes_of "sha256" ++ 0 :: []) = Some algo
     /\ hash_block (replicate 128 7) (bytes_of "sha256" ++ 0 :: []) (Chunk 3 [97; 98; 99]) (Some 32)
        = Some (match algo with
                | inr algo =>
                    if 32 <? digest_size algo then (- ENOSPC, Some 32, [])
                    else (0, Some (digest_size algo), Sha256.sha256_spec [97; 98; 99])
                | _ => (- EPROTONOSUPPORT, Some 32, [])
                end).
Proof.
  apply (hash_calculate_correct (replicate 128 7) (bytes_of "sha256") []
    [Chunk 4096 [97]; Chunk 8193 [98; 99]] (Chunk 3 [97; 98; 99]) 32);
    [by apply (bool_decide_unpack _)|done| |done| |done].
  - repeat constructor; cbn; lia.
  - repeat constructor; cbn; lia.
Defined.

(** Without a region the code uses [region[0]]. *)
Example hash_calculate_empty : hash_calculate (replicate 128 0) (cstr (bytes_of "sha256")) [] = None.
Proof. by vm_compute. Qed.

End Hash.
