(* ===== verification/Image.v ===== *)
(** * Image headers and tables (common/image.c, include/image.h)

    A legacy image is the memory from its header on; its fields are read at
    their offsets.  The outer [None] is a read outside that memory. *)

From S2P Require Import Prelude Crc32 Cstring Fdt Vsprintf Hash.

Module Image.
Import Cstring Fdt Vsprintf.

(** ** Codes and their names *)

(** [table_entry_t]: id, short name (or NULL), long name. *)
Record table_entry := Entry { te_id : Z; te_sname : option str; te_lname : str }.

Definition entry (id : Z) (sname lname : string) : table_entry :=
  Entry id (Some (bytes_of sname)) (bytes_of lname).

(** The tables without their last entry, the id of which is negative. *)
Definition uimage_arch : list table_entry :=
  [Entry 0 None (bytes_of "Invalid ARCH"); entry 1 "alpha" "Alpha"; entry 2 "arm" "ARM";
   entry 3 "x86" "Intel x86"; entry 4 "ia64" "IA64"; entry 12 "m68k" "M68K";
   entry 14 "microblaze" "MicroBlaze"; entry 5 "mips" "MIPS"; entry 6 "mips64" "MIPS 64 Bit";
   entry 15 "nios2" "NIOS II"; entry 7 "powerpc" "PowerPC"; entry 7 "ppc" "PowerPC";
   entry 8 "s390" "IBM S390"; entry 9 "sh" "SuperH"; entry 10 "sparc" "SPARC";
   entry 11 "sparc64" "SPARC 64 Bit"; entry 16 "blackfin" "Blackfin"; entry 17 "avr32" "AVR32";
   entry 20 "nds32" "NDS32"; entry 21 "or1k" "OpenRISC 1000"].

(** With CONFIG_CMD_ELF, without CONFIG_LYNXKDI and CONFIG_INTEGRITY. *)
Definition uimage_os : list table_entry :=
  [Entry 0 None (bytes_of "Invalid OS"); entry 5 "linux" "Linux"; entry 2 "netbsd" "NetBSD";
   entry 22 "ose" "Enea OSE"; entry 18 "rtems" "RTEMS"; entry 17 "u-boot" "U-Boot";
   entry 16 "qnx" "QNX"; entry 14 "vxworks" "VxWorks"].

Definition uimage_type : list table_entry :=
  [entry 13 "aisimage" "Davinci AIS image"; entry 7 "filesystem" "Filesystem Image";
   entry 5 "firmware" "Firmware"; entry 8 "flat_dt" "Flat Device Tree"; entry 2 "kernel" "Kernel Image";
   entry 14 "kernel_noload" "Kernel Image (no loading done)"; entry 9 "kwbimage" "Kirkwood Boot Image";
   entry 10 "imximage" "Freescale i.MX Boot Image"; Entry 0 None (bytes_of "Invalid Image");
   entry 4 "multi" "Multi-File Image"; entry 12 "omapimage" "TI OMAP SPL With GP CH";
   entry 15 "pblimage" "Freescale PBL Boot Image"; entry 3 "ramdisk" "RAMDisk Image";
   entry 6 "script" "Script"; entry 1 "standalone" "Standalone Program";
   entry 11 "ublimage" "Davinci UBL image"].

Definition uimage_comp : list table_entry :=
  [entry 0 "none" "uncompressed"; entry 2 "bzip2" "bzip2 compressed"; entry 1 "gzip" "gzip compressed";
   entry 3 "lzma" "lzma compressed"; entry 4 "lzo" "lzo compressed"].

Fixpoint get_table_entry_name (table : list table_entry) (msg : str) (id : Z) : str :=
  match table with
  | [] => msg
  | t :: table => if te_id t =? id then te_lname t else get_table_entry_name table msg id
  end.

Fixpoint get_table_entry_id (table : list table_entry) (name : list Z) : option Z :=
  match table with
  | [] => Some (-1)
  | t :: table =>
      found ← match te_sname t with
              | Some s => r ← strcmp (cstr s) name; Some (r =? 0)
              | None => Some false
              end;
      if found : bool then Some (te_id t) else get_table_entry_id table name
  end.

Definition genimg_get_os_name (os : Z) : str := get_table_entry_name uimage_os (bytes_of "Unknown OS") os.
Definition genimg_get_arch_name (arch : Z) : str :=
  get_table_entry_name uimage_arch (bytes_of "Unknown Architecture") arch.
Definition genimg_get_type_name (type : Z) : str :=
  get_table_entry_name uimage_type (bytes_of "Unknown Image") type.
Definition genimg_get_comp_name (comp : Z) : str :=
  get_table_entry_name uimage_comp (bytes_of "Unknown Compression") comp.

Definition genimg_get_os_id (name : list Z) : option Z := get_table_entry_id uimage_os name.
Definition genimg_get_arch_id (name : list Z) : option Z := get_table_entry_id uimage_arch name.
Definition genimg_get_type_id (name : list Z) : option Z := get_table_entry_id uimage_type name.
Definition genimg_get_comp_id (name : list Z) : option Z := get_table_entry_id uimage_comp name.

Definition IH_ARCH_ARM : Z := 2.
Definition IH_ARCH_DEFAULT : Z := IH_ARCH_ARM.
Definition IH_OS_LINUX : Z := 5.
Definition IH_TYPE_STANDALONE : Z := 1.
Definition IH_TYPE_KERNEL : Z := 2.
Definition IH_TYPE_RAMDISK : Z := 3.
Definition IH_TYPE_MULTI : Z := 4.
Definition IH_TYPE_KERNEL_NOLOAD : Z := 14.

(** ** The legacy header *)

Definition IH_MAGIC : Z := 0x27051956.
Definition image_get_header_size : Z := 64.

Definition image_get_magic (hdr : list Z) : option Z := rd32 hdr 0.
Definition image_get_hcrc (hdr : list Z) : option Z := rd32 hdr 4.
Definition image_get_time (hdr : list Z) : option Z := rd32 hdr 8.
Definition image_get_size (hdr : list Z) : option Z := rd32 hdr 12.
Definition image_get_load (hdr : list Z) : option Z := rd32 hdr 16.
Definition image_get_ep (hdr : list Z) : option Z := rd32 hdr 20.
Definition image_get_dcrc (hdr : list Z) : option Z := rd32 hdr 24.
Definition image_get_os (hdr : list Z) : option Z := rd8 hdr 28.
Definition image_get_arch (hdr : list Z) : option Z := rd8 hdr 29.
Definition image_get_type (hdr : list Z) : option Z := rd8 hdr 30.
Definition image_get_comp (hdr : list Z) : option Z := rd8 hdr 31.

Definition image_check_magic (hdr : list Z) : option bool := m ← image_get_magic hdr; Some (m =? IH_MAGIC).

Definition image_check_target_arch (hdr : list Z) : option bool :=
  a ← image_get_arch hdr; Some (a =? IH_ARCH_DEFAULT).

(** [n] bytes from an offset on. *)
Definition mem_read (mem : list Z) (p n : Z) : option (list Z) :=
  if (p <? 0) || (n <? 0) || (Z.of_nat (length mem) <? p + n) then None
  else Some (take (Z.to_nat n) (drop (Z.to_nat p) mem)).

(** The header with its checksum field zero; the copy is on the stack, aligned. *)
Definition image_check_hcrc (hdr : list Z) : option bool :=
  h ← mem_read hdr 0 image_get_header_size;
  hcrc ← image_get_hcrc hdr;
  Some (Crc32.crc32 0 0 (memcpy h 4 [0; 0; 0; 0]) =? hcrc).

(** [addr] is the address of the header. *)
Definition image_check_dcrc (addr : Z) (hdr : list Z) : option bool :=
  len ← image_get_size hdr;
  data ← mem_read hdr image_get_header_size len;
  dcrc ← image_get_dcrc hdr;
  Some (Crc32.crc32_wd 0 (u32 (addr + image_get_header_size)) data Hash.CHUNKSZ =? dcrc).

(** [for (i = 0; size[i]; ++i) count++] *)
Fixpoint multi_count_loop (fuel : nat) (hdr : list Z) (i : Z) : option Z :=
  match fuel with
  | O => None
  | S fuel =>
      s ← rd32 hdr (image_get_header_size + 4 * i);
      if s =? 0 then Some i else multi_count_loop fuel hdr (i + 1)
  end.

Definition image_multi_count (hdr : list Z) : option Z := multi_count_loop (length hdr + 1) hdr 0.

(** [for (i = 0; i < idx; i++) offset += (uimage_to_cpu(size[i]) + 3) & ~3] *)
Fixpoint multi_offset (n : nat) (hdr : list Z) : option Z :=
  match n with
  | O => Some 0
  | S n =>
      offset ← multi_offset n hdr;
      s ← rd32 hdr (image_get_header_size + 4 * Z.of_nat n);
      Some (u32 (offset + (u32 (s + 3) .& 0xfffffffc)))
  end.

(** [*data] and [*len]. *)
Definition image_multi_getimg (addr : Z) (hdr : list Z) (idx : Z) : option (Z * Z) :=
  count ← image_multi_count hdr;
  let img_data := u32 (addr + image_get_header_size + (count + 1) * 4) in
  if idx <? count then
    len ← rd32 hdr (image_get_header_size + 4 * idx);
    offset ← multi_offset (Z.to_nat idx) hdr;
    Some (u32 (img_data + offset), len)
  else Some (0, 0).

(** ** Formats *)

Definition IMAGE_FORMAT_INVALID : Z := 0.
Definition IMAGE_FORMAT_LEGACY : Z := 1.
Definition IMAGE_FORMAT_FIT : Z := 2.

Definition genimg_get_format (mem : list Z) : option Z :=
  magic ← image_check_magic mem;
  if magic : bool then Some IMAGE_FORMAT_LEGACY else
  e ← fdt_check_header mem;
  Some (if e =? 0 then IMAGE_FORMAT_FIT else IMAGE_FORMAT_INVALID).

(** *** Image specifications on the command line *)

(** The address and the memory at the name, when there is a separator. *)
Definition fit_parse_spec (spec : list Z) (sepc addr_curr : Z) : option (option (Z * list Z)) :=
  sep ← strchr spec sepc;
  match sep with
  | None => Some None
  | Some n =>
      addr ← (if (0 <? n)%nat then '(v, _) ← simple_strtoul spec 16; Some v else Some addr_curr);
      Some (Some (addr, drop (n + 1) spec))
  end.

Definition fit_parse_conf (spec : list Z) (addr_curr : Z) : option (option (Z * list Z)) :=
  fit_parse_spec spec 35 addr_curr.

Definition fit_parse_subimage (spec : list Z) (addr_curr : Z) : option (option (Z * list Z)) :=
  fit_parse_spec spec 58 addr_curr.

(** *** [image_get_kernel] of cmd_bootm.c *)

Definition image_get_kernel (addr : Z) (hdr : list Z) (verify : bool) : option bool :=
  magic ← image_check_magic hdr;
  if negb magic then Some false else
  hcrc ← image_check_hcrc hdr;
  if negb hcrc then Some false else
  dcrc ← (if verify then image_check_dcrc addr hdr else Some true);
  if negb dcrc then Some false else
  image_check_target_arch hdr.

End Image.
