(* ===== verification/Fit.v ===== *)
(** * FIT images (the fit_ routines of common/image.c, include/image.h)

    [fit] is the memory from the image on.  Loops over the nodes of the image
    are the two combinators [for_nodes] and [for_subnodes]; what is printed is
    left out.  [junk] is the uninitialised memory of a hash context, [base]
    the address of the image (it matters only to the alignment handling of
    [crc32]). *)

From S2P Require Import Prelude Crc32 BlockHash Sha2 Sha1 Md5 Cstring Fdt FdtTree FdtQuery Hash Image.

Module Fit.
Import Cstring Fdt FdtQuery Image.

(** ** Loops over nodes *)

Section Loops.
Context {R St : Type} (fdt : list Z).

(** [for (; noffset >= 0 && ndepth > 0; noffset = fdt_next_node(fdt, noffset, &ndepth))];
    the body returns from the function ([inl]) or goes on ([inr]).  The result
    has the offset the loop ends with. *)
Fixpoint for_nodes (fuel : nat) (body : Z -> Z -> St -> option (R + St)) (noffset ndepth : Z) (st : St)
    : option (R + Z * St) :=
  match fuel with
  | O => None
  | S fuel =>
      if (0 <=? noffset) && (0 <? ndepth) then
        r ← body noffset ndepth st;
        match r with
        | inl r => Some (inl r)
        | inr st =>
            '(noffset, ndepth) ← fdt_next_node_depth fdt noffset ndepth;
            for_nodes fuel body noffset ndepth st
        end
      else Some (inr (noffset, st))
  end.

(** Started with [ndepth = 0, noffset = fdt_next_node(fdt, parent, &ndepth)]. *)
Definition for_nodes_below (parent : Z) (body : Z -> Z -> St -> option (R + St)) (st : St)
    : option (R + Z * St) :=
  '(noffset, ndepth) ← fdt_next_node_depth fdt parent 0;
  for_nodes (length fdt + 2) body noffset ndepth st.

(** [fdt_for_each_subnode(node, fdt, parent)] *)
Fixpoint for_subnodes (fuel : nat) (body : Z -> St -> option (R + St)) (node : Z) (st : St)
    : option (R + Z * St) :=
  match fuel with
  | O => None
  | S fuel =>
      if 0 <=? node then
        r ← body node st;
        match r with
        | inl r => Some (inl r)
        | inr st => node ← fdt_next_subnode fdt node; for_subnodes fuel body node st
        end
      else Some (inr (node, st))
  end.

Definition fdt_for_each_subnode (parent : Z) (body : Z -> St -> option (R + St)) (st : St)
    : option (R + Z * St) :=
  node ← fdt_first_subnode fdt parent; for_subnodes (length fdt + 2) body node st.

End Loops.

(** ** What the loops visit, on any blob *)

(** From one position of the loop over nodes to a later one. *)
Inductive reach (fdt : list Z) : Z -> Z -> Z -> Z -> Prop :=
  | reach_here o d : 0 <= o -> 0 < d -> reach fdt o d o d
  | reach_next o d o1 d1 o2 d2 :
      0 <= o -> 0 < d -> fdt_next_node_depth fdt o d = Some (o1, d1) -> reach fdt o1 d1 o2 d2 ->
      reach fdt o d o2 d2.

(** A node the loop below [parent] comes to, [d] levels down. *)
Definition below (fdt : list Z) (parent o d : Z) : Prop :=
  exists o1 d1, fdt_next_node_depth fdt parent 0 = Some (o1, d1) /\ reach fdt o1 d1 o d.

(** From one subnode to a later one. *)
Inductive sibling (fdt : list Z) : Z -> Z -> Prop :=
  | sibling_here n : 0 <= n -> sibling fdt n n
  | sibling_next n n1 n2 :
      0 <= n -> fdt_next_subnode fdt n = Some n1 -> sibling fdt n1 n2 -> sibling fdt n n2.

Definition child (fdt : list Z) (parent n : Z) : Prop :=
  exists f, fdt_first_subnode fdt parent = Some f /\ sibling fdt f n.

(** A loop that ran to its end went on at every node. *)
Lemma for_nodes_end {R} fdt fuel (body : Z -> Z -> unit -> option (R + unit)) : forall o d r,
  for_nodes fdt fuel body o d tt = Some (inr r) ->
  forall o' d', reach fdt o d o' d' -> body o' d' tt = Some (inr tt).
Proof.
  induction fuel as [|fuel IH]; intros o d r H o' d' Hr; [done|]. cbn [for_nodes] in H.
  assert (Hg : (0 <=? o) && (0 <? d) = true)
    by (inversion Hr; subst; rewrite andb_true_iff, Z.leb_le, Z.ltb_lt; done).
  rewrite Hg in H. apply bind_Some in H as ([e|[]] & Hb & H); [done|].
  apply bind_Some in H as ([o1 d1] & Hn & H). inversion Hr as [|? ? o1' d1' ? ? _ _ Hn' Hr']; subst; [done|].
  rewrite Hn in Hn'. injection Hn' as <- <-. eapply IH; eauto.
Qed.

Lemma for_nodes_below_end {R} fdt parent (body : Z -> Z -> unit -> option (R + unit)) r :
  for_nodes_below fdt parent body tt = Some (inr r) ->
  forall o d, below fdt parent o d -> body o d tt = Some (inr tt).
Proof.
  unfold for_nodes_below. intros H o d (o1 & d1 & Hn & Hr). rewrite Hn in H. cbn [mbind option_bind] in H.
  eapply for_nodes_end; eauto.
Qed.

(** A loop that was left was left at a subnode. *)
Lemma for_subnodes_left {R} fdt fuel (body : Z -> unit -> option (R + unit)) : forall n r,
  for_subnodes fdt fuel body n tt = Some (inl r) ->
  exists n', sibling fdt n n' /\ body n' tt = Some (inl r).
Proof.
  induction fuel as [|fuel IH]; intros n r H; [done|]. cbn [for_subnodes] in H.
  destruct (Z.leb_spec 0 n); [|done]. apply bind_Some in H as ([e|[]] & Hb & H).
  - injection H as ->. exists n. split; [by constructor|done].
  - apply bind_Some in H as (n1 & Hn & H). destruct (IH _ _ H) as (n' & Hs & Hb').
    exists n'. split; [by eapply sibling_next|done].
Qed.

Lemma for_each_subnode_left {R} fdt parent (body : Z -> unit -> option (R + unit)) r :
  fdt_for_each_subnode fdt parent body tt = Some (inl r) ->
  exists n, child fdt parent n /\ body n tt = Some (inl r).
Proof.
  unfold fdt_for_each_subnode. intros (f & Hf & H)%bind_Some.
  destruct (for_subnodes_left _ _ _ _ _ H) as (n & Hs & Hb). exists n. split; [by exists f|done].
Qed.

(** ** Properties of nodes *)

Definition FIT_IMAGES_PATH : str := bytes_of "/images".
Definition FIT_CONFS_PATH : str := bytes_of "/configurations".
Definition FIT_HASH_NODENAME : str := bytes_of "hash".
Definition FIT_SIG_NODENAME : str := bytes_of "signature".
Definition FIT_MAX_HASH_LEN : Z := 64.

(** A pointer to the value, or the error. *)
Definition prop (fit : list Z) (noffset : Z) (name : string) : option (option Z * Z) :=
  fdt_getprop fit noffset (cstr (bytes_of name)).

(** Only absolute paths are looked up, so no alias is followed. *)
Definition path_offset (fit : list Z) (path : str) : option Z := fdt_path_offset 1 fit (cstr path).

Definition fit_get_name (fit : list Z) (noffset : Z) : option (option Z) :=
  '(name, _) ← fdt_get_name fit noffset; Some name.

(** The error code and the pointer. *)
Definition fit_get_desc (fit : list Z) (noffset : Z) : option (Z * option Z) :=
  '(p, _) ← prop fit noffset "description"; Some (match p with Some _ => 0 | None => -1 end, p).

Definition fit_get_timestamp (fit : list Z) (noffset : Z) : option (Z + Z) :=
  '(p, len) ← prop fit noffset "timestamp";
  match p with
  | None => Some (inl (-1))
  | Some p => if negb (len =? 4) then Some (inl (-2)) else v ← rd32 fit p; Some (inr v)
  end.

Definition fit_image_get_node (fit : list Z) (image_uname : list Z) : option Z :=
  images_noffset ← path_offset fit FIT_IMAGES_PATH;
  if images_noffset <? 0 then Some images_noffset
  else fdt_subnode_offset fit images_noffset image_uname.

(** A property that holds the name of a code: the code as [uint8_t], or an error. *)
Definition get_code (name : string) (id : list Z -> option Z) (fit : list Z) (noffset : Z) : option (Z * Z) :=
  '(p, _) ← prop fit noffset name;
  match p with
  | None => Some (-1, u8 (-1))
  | Some p => b ← at_ fit p; v ← id b; Some (0, u8 v)
  end.

Definition fit_image_get_os : list Z -> Z -> option (Z * Z) := get_code "os" genimg_get_os_id.
Definition fit_image_get_arch : list Z -> Z -> option (Z * Z) := get_code "arch" genimg_get_arch_id.
Definition fit_image_get_type : list Z -> Z -> option (Z * Z) := get_code "type" genimg_get_type_id.
Definition fit_image_get_comp : list Z -> Z -> option (Z * Z) := get_code "compression" genimg_get_comp_id.

(** An address property: the error code, or the value. *)
Definition get_word (name : string) (fit : list Z) (noffset : Z) : option (Z + Z) :=
  '(p, _) ← prop fit noffset name;
  match p with None => Some (inl (-1)) | Some p => v ← rd32 fit p; Some (inr v) end.

Definition fit_image_get_load : list Z -> Z -> option (Z + Z) := get_word "load".
Definition fit_image_get_entry : list Z -> Z -> option (Z + Z) := get_word "entry".

(** The pointer and [*size]; [None] inside is -1. *)
Definition fit_image_get_data (fit : list Z) (noffset : Z) : option (option (Z * Z)) :=
  '(p, len) ← prop fit noffset "data"; Some (match p with None => None | Some p => Some (p, u32 len) end).

Definition fit_image_hash_get_algo (fit : list Z) (noffset : Z) : option (option Z) :=
  '(p, _) ← prop fit noffset "algo"; Some p.

(** The pointer and [*value_len]. *)
Definition fit_image_hash_get_value (fit : list Z) (noffset : Z) : option (option (Z * Z)) :=
  '(p, len) ← prop fit noffset "value"; Some (match p with None => None | Some p => Some (p, len) end).

(** A load of an [int] in memory order. *)
Definition rd_le32 (fit : list Z) (p : Z) : option Z :=
  a ← rd8 fit p; b ← rd8 fit (p + 1); c ← rd8 fit (p + 2); d ← rd8 fit (p + 3);
  Some (s32 (le_combine [a; b; c; d])).

Definition fit_image_hash_get_ignore (fit : list Z) (noffset : Z) : option Z :=
  '(p, len) ← prop fit noffset "uboot-ignore";
  match p with
  | None => Some 0
  | Some p => if negb (len =? 4) then Some 0 else rd_le32 fit p
  end.

(** ** Hashes of the images *)

Section Hashes.
Context (base : Z) (junk : list Z).

(** The code and the value stored. *)
Definition calculate_hash (data : Hash.chunk) (algo : list Z) : option (Z * list Z) :=
  crc ← strcmp algo (cstr (bytes_of "crc32"));
  if crc =? 0 then
    Some (0, be_bytes 4 (Crc32.crc32_wd 0 (Hash.c_addr data) (Hash.c_data data) Hash.CHUNKSZ)) else
  sha1 ← strcmp algo (cstr (bytes_of "sha1"));
  if sha1 =? 0 then Some (0, Sha1.sha1_csum_wd (take 64 junk) (Hash.c_data data) Hash.CHUNKSZ) else
  md5 ← strcmp algo (cstr (bytes_of "md5"));
  if md5 =? 0 then Some (0, Md5.md5_wd (take 64 junk) (Hash.c_data data) Hash.CHUNKSZ)
  else Some (-1, []).

(** [strncmp(name, prefix, strlen(prefix)) == 0] at a node; a null name is read. *)
Definition has_prefix (fit : list Z) (noffset : Z) (prefix : str) : option bool :=
  name ← fit_get_name fit noffset;
  name ← name;
  b ← at_ fit name;
  r ← strncmp b (cstr prefix) (Z.of_nat (length prefix));
  Some (r =? 0).

(** The body of the loop at a direct subnode: [false] is [goto error]. *)
Definition check_hash_node (fit : list Z) (data size noffset : Z) : option bool :=
  hash ← has_prefix fit noffset FIT_HASH_NODENAME;
  if negb hash then Some true else
  algo ← fit_image_hash_get_algo fit noffset;
  match algo with
  | None => Some false
  | Some algo =>
      ignore ← fit_image_hash_get_ignore fit noffset;
      if negb (ignore =? 0) then Some true else
      v ← fit_image_hash_get_value fit noffset;
      match v with
      | None => Some false
      | Some (fit_value, fit_value_len) =>
          algo ← at_ fit algo;
          bytes ← mem_read fit data size;
          '(err, value) ← calculate_hash (Hash.Chunk (u32 (base + data)) bytes) algo;
          if negb (err =? 0) then Some false else
          if negb (Z.of_nat (length value) =? fit_value_len) then Some false else
          b ← at_ fit fit_value;
          r ← memcmp value b (length value);
          Some (r =? 0)
      end
  end.

Definition fit_image_check_hashes (fit : list Z) (image_noffset : Z) : option bool :=
  d ← fit_image_get_data fit image_noffset;
  match d with
  | None => Some false
  | Some (data, size) =>
      r ← for_nodes_below fit image_noffset
            (fun noffset ndepth (_ : unit) =>
               ok ← (if ndepth =? 1 then check_hash_node fit data size noffset else Some true);
               Some (if ok : bool then inr tt else inl tt)) tt;
      match r with
      | inl _ => Some false
      | inr (noffset, _) =>
          Some (negb ((noffset =? - FDT_ERR_TRUNCATED) || (noffset =? - FDT_ERR_BADSTRUCTURE)))
      end
  end.

Definition fit_all_image_check_hashes (fit : list Z) : option bool :=
  images_noffset ← path_offset fit FIT_IMAGES_PATH;
  if images_noffset <? 0 then Some false else
  r ← for_nodes_below fit images_noffset
        (fun noffset ndepth (_ : unit) =>
           ok ← (if ndepth =? 1 then fit_image_check_hashes fit noffset else Some true);
           Some (if ok : bool then inr tt else inl tt)) tt;
  Some (match r with inl _ => false | inr _ => true end).

End Hashes.

(** ** What a passed check means *)

(** The value a hash node has to have, by the name of the algorithm. *)
Definition hash_value (algo : str) (m : list Z) : option (list Z) :=
  if bool_decide (algo = bytes_of "crc32") then
    Some (be_bytes 4 (Crc32.crc_spec 0xffffffff m ^^ 0xffffffff))
  else if bool_decide (algo = bytes_of "sha1") then Some (Sha1.sha1_spec m)
  else if bool_decide (algo = bytes_of "md5") then Some (Md5.md5_spec m)
  else None.

(** A node named hash* that is not to be ignored has the value of its
    algorithm for the [size] bytes at [data]. *)
Definition hash_holds (fit : list Z) (data size n : Z) : Prop :=
  has_prefix fit n FIT_HASH_NODENAME = Some true -> fit_image_hash_get_ignore fit n = Some 0 ->
  exists m pa algo rest pv v rest',
    mem_read fit data size = Some m
    /\ fit_image_hash_get_algo fit n = Some (Some pa) /\ at_ fit pa = Some (algo ++ 0 :: rest)
    /\ fit_image_hash_get_value fit n = Some (Some (pv, Z.of_nat (length v)))
    /\ at_ fit pv = Some (v ++ rest')
    /\ hash_value algo m = Some v.

Lemma calculate_hash_spec junk addr m algo v :
  length junk = 128%nat -> bytes junk -> bytes m -> Z.of_nat (length m) < 2 ^ 32 -> bytes algo ->
  calculate_hash junk (Hash.Chunk addr m) algo = Some (0, v) ->
  exists name rest, algo = name ++ 0 :: rest /\ hash_value name m = Some v.
Proof.
  intros Hj Hjb Hm Hl Ha. unfold calculate_hash. cbn [Hash.c_addr Hash.c_data].
  intros (r1 & H1 & H)%bind_Some. destruct (Z.eqb_spec r1 0) as [->|].
  { apply strcmp_eq_cstr in H1 as (rest & ->); [|done|by apply (bool_decide_unpack _)].
    exists (bytes_of "crc32"), rest. split; [done|]. injection H as <-. unfold Crc32.crc32_wd.
    rewrite (Crc32.crc32_wd_loop_spec _ _ _ 0); [|split; lia|done|apply Hash.CHUNKSZ_pos|done].
    by destruct (Crc32.crc32_raw 0 0 m) as [-> _]; [split; lia|done|]. }
  apply bind_Some in H as (r2 & H2 & H). destruct (Z.eqb_spec r2 0) as [->|].
  { apply strcmp_eq_cstr in H2 as (rest & ->); [|done|by apply (bool_decide_unpack _)].
    exists (bytes_of "sha1"), rest. split; [done|]. injection H as <-.
    unfold Sha1.sha1_csum_wd. rewrite Sha1.sha1_wd_loop_pieces, Sha1.sha1_stream, BlockHash.concat_pieces;
      [done|apply Hash.CHUNKSZ_pos|done|by rewrite length_take, Hj|by apply Hash.pieces_ok]. }
  apply bind_Some in H as (r3 & H3 & H). destruct (Z.eqb_spec r3 0) as [->|]; [|done].
  apply strcmp_eq_cstr in H3 as (rest & ->); [|done|by apply (bool_decide_unpack _)].
  exists (bytes_of "md5"), rest. split; [done|]. injection H as <-.
  unfold Md5.md5_wd. rewrite Md5.md5_wd_loop_pieces, Md5.md5_stream, BlockHash.concat_pieces;
    [done|apply Hash.CHUNKSZ_pos|done|by rewrite length_take, Hj|by apply Forall_take|by apply Hash.pieces_ok].
Qed.

Lemma mem_read_ok mem p n b : bytes mem -> mem_read mem p n = Some b -> bytes b /\ Z.of_nat (length b) = n.
Proof.
  unfold mem_read. intros Hm H. destruct (_ || _) eqn:E; [done|]. injection H as <-.
  rewrite !orb_false_iff, !Z.ltb_ge in E. destruct E as [[? ?] ?].
  split; [by apply Forall_take, Forall_drop|]. rewrite length_take, length_drop. lia.
Qed.

Lemma at_bytes fit p b : bytes fit -> at_ fit p = Some b -> bytes b.
Proof. unfold at_. intros Hf. destruct (p <? 0); [done|]. intros [= <-]. by apply Forall_drop. Qed.

Lemma memcmp_prefix v : forall b, memcmp v b (length v) = Some 0 -> exists rest, b = v ++ rest.
Proof.
  induction v as [|x v IH]; intros b; [by exists b|]. destruct b as [|y b]; cbn [length memcmp]; [done|].
  destruct (Z.eqb_spec (x - y) 0) as [E|E]; cbn [negb]; [|by intros [= ?]].
  intros (rest & ->)%IH. exists rest. cbn [app]. f_equal. lia.
Qed.

Section Checked.
Context (base : Z) (junk fit : list Z).
Hypotheses (Hj : length junk = 128%nat) (Hjb : bytes junk) (Hfit : bytes fit).

Lemma check_hash_node_ok data size n :
  size < 2 ^ 32 -> check_hash_node base junk fit data size n = Some true -> hash_holds fit data size n.
Proof.
  intros Hs H Hp Hi. unfold check_hash_node in H. rewrite Hp in H. cbn [mbind option_bind negb] in H.
  apply bind_Some in H as (pa & Ha & H). destruct pa as [pa|]; [|done].
  rewrite Hi in H. cbn [mbind option_bind Z.eqb negb] in H.
  apply bind_Some in H as (v & Hv & H). destruct v as [[pv len]|]; [|done].
  apply bind_Some in H as (al & Hal & H). apply bind_Some in H as (m & Hm & H).
  apply bind_Some in H as ([err val] & Hc & H). destruct (Z.eqb_spec err 0) as [->|]; [|done].
  cbn [negb] in H. destruct (Z.eqb_spec (Z.of_nat (length val)) len) as [Hlen|]; [|done].
  apply bind_Some in H as (b & Hb & H). apply bind_Some in H as (r & Hr & H). injection H as H.
  apply Z.eqb_eq in H as ->.
  destruct (mem_read_ok _ _ _ _ Hfit Hm) as [Hm' Hl].
  apply calculate_hash_spec in Hc as (name & rest & -> & Hval); [|done|done|done|lia|exact (at_bytes _ _ _ Hfit Hal)].
  destruct (memcmp_prefix _ _ Hr) as (rest' & ->).
  by exists m, pa, name, rest, pv, val, rest'; subst len.
Qed.

Lemma check_hashes_ok image :
  fit_image_check_hashes base junk fit image = Some true ->
  exists data size, fit_image_get_data fit image = Some (Some (data, size))
    /\ forall n, below fit image n 1 -> hash_holds fit data size n.
Proof.
  unfold fit_image_check_hashes. intros (d & Hd & H)%bind_Some. destruct d as [[data size]|]; [|done].
  apply bind_Some in H as (r & Hr & H). destruct r as [|[o []]]; [done|].
  exists data, size. split; [done|]. intros n Hn.
  pose proof (for_nodes_below_end _ _ _ _ Hr _ _ Hn) as Hb. cbn [Z.eqb Pos.eqb] in Hb.
  apply bind_Some in Hb as (ok & Hok & Hb). destruct ok; [|done].
  apply check_hash_node_ok; [|done]. unfold fit_image_get_data in Hd.
  apply bind_Some in Hd as ([[p|] len] & _ & Hd); [|done]. injection Hd as <- <-.
  pose proof (Z.mod_pos_bound len (2 ^ 32)). unfold wrap. lia.
Qed.

End Checked.

(** ** Checks of an image *)

Definition check_code (get : list Z -> Z -> option (Z * Z)) (fit : list Z) (noffset want : Z) : option bool :=
  '(err, v) ← get fit noffset; Some (if negb (err =? 0) then false else want =? v).

Definition fit_image_check_os : list Z -> Z -> Z -> option bool := check_code fit_image_get_os.
Definition fit_image_check_arch : list Z -> Z -> Z -> option bool := check_code fit_image_get_arch.
Definition fit_image_check_type : list Z -> Z -> Z -> option bool := check_code fit_image_get_type.
Definition fit_image_check_comp : list Z -> Z -> Z -> option bool := check_code fit_image_get_comp.

Definition fit_image_check_target_arch (fit : list Z) (node : Z) : option bool :=
  fit_image_check_arch fit node IH_ARCH_DEFAULT.

(** Without CONFIG_TIMESTAMP and CONFIG_CMD_DATE. *)
Definition fit_check_format (fit : list Z) : option bool :=
  '(desc, _) ← prop fit 0 "description";
  match desc with
  | None => Some false
  | Some _ => images ← path_offset fit FIT_IMAGES_PATH; Some (negb (images <? 0))
  end.

(** ** Configurations *)

(** [conf_uname] is [None] for NULL: the default configuration. *)
Definition fit_conf_get_node (fit : list Z) (conf_uname : option (list Z)) : option Z :=
  confs_noffset ← path_offset fit FIT_CONFS_PATH;
  if confs_noffset <? 0 then Some confs_noffset else
  match conf_uname with
  | Some name => fdt_subnode_offset fit confs_noffset name
  | None =>
      '(p, len) ← prop fit confs_noffset "default";
      match p with
      | None => Some len
      | Some p => b ← at_ fit p; fdt_subnode_offset fit confs_noffset b
      end
  end.

Definition __fit_conf_get_prop_node (fit : list Z) (noffset : Z) (prop_name : string) : option Z :=
  '(p, len) ← prop fit noffset prop_name;
  match p with
  | None => Some len
  | Some p => b ← at_ fit p; fit_image_get_node fit b
  end.

Definition fit_conf_get_kernel_node (fit : list Z) (noffset : Z) : option Z :=
  __fit_conf_get_prop_node fit noffset "kernel".
Definition fit_conf_get_ramdisk_node (fit : list Z) (noffset : Z) : option Z :=
  __fit_conf_get_prop_node fit noffset "ramdisk".
Definition fit_conf_get_fdt_node (fit : list Z) (noffset : Z) : option Z :=
  __fit_conf_get_prop_node fit noffset "fdt".

(** The best match so far: its offset (0 for none) and its position. *)
Record best_match := Best { best_offset : Z; best_pos : Z }.

(** The loop over the compatible strings of the boot loader's own tree. *)
Fixpoint compat_loop (fuel : nat) (kfdt cur : list Z) (len i noffset : Z) (best : best_match)
    : option best_match :=
  match fuel with
  | O => None
  | S fuel =>
      if (0 <? len) && ((best_offset best =? 0) || (i <? best_pos best)) then
        n ← strlen cur;
        r ← fdt_node_check_compatible kfdt 0 cur;
        if r =? 0 then Some (Best noffset i)
        else compat_loop fuel kfdt (drop (n + 1) cur) (len - (Z.of_nat n + 1)) (i + 1) noffset best
      else Some best
  end.

Definition find_compat_body (fit compat : list Z) (compat_len images_noffset noffset ndepth : Z)
    (best : best_match) : option best_match :=
  if 1 <? ndepth then Some best else
  '(kfdt_name, _) ← prop fit noffset "fdt";
  match kfdt_name with
  | None => Some best
  | Some p =>
      b ← at_ fit p;
      kfdt_noffset ← fdt_subnode_offset fit images_noffset b;
      if kfdt_noffset <? 0 then Some best else
      d ← fit_image_get_data fit kfdt_noffset;
      match d with
      | None => Some best
      | Some (kfdt, _) =>
          kfdt ← at_ fit kfdt;
          compat_loop (length compat + 1) kfdt compat compat_len 0 noffset best
      end
  end.

Definition fit_conf_find_compat (fit fdt : list Z) : option Z :=
  confs_noffset ← path_offset fit FIT_CONFS_PATH;
  images_noffset ← path_offset fit FIT_IMAGES_PATH;
  if (confs_noffset <? 0) || (images_noffset <? 0) then Some (-1) else
  '(fdt_compat, fdt_compat_len) ← prop fdt 0 "compatible";
  match fdt_compat with
  | None => Some (-1)
  | Some p =>
      compat ← at_ fdt p;
      r ← for_nodes_below (R := Empty_set) fit confs_noffset
            (fun noffset ndepth best =>
               best ← find_compat_body fit compat fdt_compat_len images_noffset noffset ndepth best;
               Some (inr best)) (Best 0 0);
      match r with
      | inl e => match (e : Empty_set) with end
      | inr (_, best) => Some (if best_offset best =? 0 then -1 else best_offset best)
      end
  end.

End Fit.
