(* ===== verification/FitSample.v ===== *)
(** * A small signed image

    Trees, key tree and elliptic-curve stub that the theorems on FIT images
    are applied to. *)

From S2P Require Import Prelude Sha2 Sha1 Cstring Fdt FdtTree.

Module FitSample.
Import Cstring Fdt FdtTree.

(** The strings block and the offset of a name in it. *)
Definition names : list string :=
  ["description"; "data"; "type"; "arch"; "os"; "compression"; "load"; "entry"; "algo"; "value"; "kernel";
   "default"; "key-name-hint"; "hashed-nodes"; "hashed-strings"; "pubkey"; "uboot-ignore"; "required";
   "fdt"; "compatible"; "timestamp"]%string.

Definition strings_block : list Z := concat (map (fun n => cstr (bytes_of n)) names).

Fixpoint name_offset (l : list string) (n : string) (off : Z) : Z :=
  match l with
  | [] => -1
  | x :: l => if String.eqb x n then off else name_offset l n (off + Z.of_nat (String.length x) + 1)
  end.

Definition p_bytes (n : string) (v : list Z) : Z * list Z := (name_offset names n 0, v).
Definition p_str (n v : string) : Z * list Z := p_bytes n (cstr (bytes_of v)).

Definition blob_of (t : node) : list Z := mkblob (block (items t)) strings_block.

Definition kernel_data : list Z := bytes_of "a kernel".

(** The hash of the kernel. *)
Definition hash_node : node :=
  Node (bytes_of "hash@1") [p_str "algo" "sha1"; p_bytes "value" (Sha1.sha1_spec kernel_data)] [].

Definition kernel_node (name : string) (hashes : list node) : node :=
  Node (bytes_of name)
    [p_bytes "data" kernel_data; p_str "type" "kernel"; p_str "arch" "arm"; p_str "os" "linux";
     p_str "compression" "none"; p_bytes "load" (be_bytes 4 0x8000); p_bytes "entry" (be_bytes 4 0x8000)] hashes.

Definition hashed_nodes : list Z :=
  concat (map (fun n => cstr (bytes_of n))
    ["/"; "/configurations/conf@1"; "/images/kernel@1"; "/images/kernel@1/hash@1"]%string).

Definition signature_node (algo hint : string) (nodes sig : list Z) : node :=
  Node (bytes_of "signature@1")
    [p_str "algo" algo; p_str "key-name-hint" hint; p_bytes "hashed-nodes" nodes; p_bytes "value" sig] [].

(** The image: one signed configuration, and what is put beside it. *)
Definition fit_tree (confs images : list node) (sig : node) : node :=
  Node [] [p_str "description" "sample"]
    [Node (bytes_of "images") [] (kernel_node "kernel@1" [hash_node] :: images);
     Node (bytes_of "configurations") [p_str "default" "conf@1"]
       (Node (bytes_of "conf@1") [p_str "kernel" "kernel@1"] [sig] :: confs)].

(** The tree with the public key. *)
Definition key_tree : node :=
  Node [] []
    [Node (bytes_of "signature") [] [Node (bytes_of "key-dev") [p_bytes "pubkey" [1; 2; 3]] []]].

Definition keys : list Z := blob_of key_tree.

Definition junk : list Z := replicate 128 0xa5.
Definition stack : list Z := replicate 64 0x5a.

Lemma junk_bytes : bytes junk.
Proof. by apply (bool_decide_unpack _). Qed.

End FitSample.
