(* ===== verification/FitSig.v ===== *)
(** * Signatures of FIT images
      (common/image-sig.c, lib/ecdsa/ecdsa-verify.c, include/u-boot/rsa.h)

    [fit] is the memory from the image on, [keys] the memory from the tree
    with the public keys on (CONFIG_FDT_SIGNATURE_ADDR).  The elliptic-curve
    library is a parameter.  The uninitialised memory the code works in is
    [junk] (hash contexts) and [stack] (the hash buffer of [ecdsa_verify]). *)

From S2P Require Import Prelude BlockHash Sha2 Sha1 Cstring Fdt FdtTree FdtQuery Vsprintf Hash Image Fit FitSample.

Module FitSig.
Import Cstring Fdt FdtQuery Vsprintf Image Fit.

Definition EPERM : Z := 1.
Definition ENOENT : Z := 2.
Definition ENXIO : Z := 6.
Definition EFAULT : Z := 14.
Definition IMAGE_MAX_HASHED_NODES : Z := 100.

(** ** Algorithms *)

Record checksum_algo := Checksum { cs_name : str; checksum_len : Z }.

Definition checksum_algos : list checksum_algo :=
  [Checksum (bytes_of "sha1") 20; Checksum (bytes_of "sha256") 32;
   Checksum (bytes_of "sha384") 48; Checksum (bytes_of "sha512") 64].

(** Which [verify] an entry points to. *)
Inductive verifier := Rsa | Ecdsa.

Record crypto_algo := Crypto { cr_name : str; key_len : Z; verify_fn : verifier }.

Definition crypto_algos : list crypto_algo :=
  [Crypto (bytes_of "rsa2048") 256 Rsa; Crypto (bytes_of "rsa4096") 512 Rsa;
   Crypto (bytes_of "secp256r1") 32 Ecdsa; Crypto (bytes_of "secp384r1") 48 Ecdsa].

Fixpoint checksum_loop (l : list checksum_algo) (full_name : list Z) : option (option checksum_algo) :=
  match l with
  | [] => Some None
  | a :: l =>
      r ← strncmp (cstr (cs_name a)) full_name (Z.of_nat (length (cs_name a)));
      if r =? 0 then
        c ← full_name !! length (cs_name a);
        if c =? 44 then Some (Some a) else checksum_loop l full_name
      else checksum_loop l full_name
  end.

Definition image_get_checksum_algo (full_name : list Z) : option (option checksum_algo) :=
  checksum_loop checksum_algos full_name.

Fixpoint crypto_loop (l : list crypto_algo) (name : list Z) : option (option crypto_algo) :=
  match l with
  | [] => Some None
  | a :: l => r ← strcmp (cstr (cr_name a)) name; if r =? 0 then Some (Some a) else crypto_loop l name
  end.

Definition image_get_crypto_algo (full_name : list Z) : option (option crypto_algo) :=
  p ← strchr full_name 44;
  match p with
  | None => Some None
  | Some n => crypto_loop crypto_algos (drop (n + 1) full_name)
  end.

(** [data] is a pointer into the image, an offset from its start. *)
Record image_region := IRegion { ir_data : Z; ir_size : Z }.

Definition fit_region_make_list (fdt_regions : list fdt_region) : list image_region :=
  map (fun r => IRegion (r_offset r) (r_size r)) fdt_regions.

(** The memory of the regions, for the hash functions. *)
Fixpoint region_chunks (base : Z) (fit : list Z) (region : list image_region) : option (list Hash.chunk) :=
  match region with
  | [] => Some []
  | r :: l =>
      b ← mem_read fit (ir_data r) (u32 (ir_size r));
      l ← region_chunks base fit l;
      Some (Hash.Chunk (u32 (base + ir_data r)) b :: l)
  end.

(** ** The elliptic-curve library *)

(** lib/mbedtls: groups, points, and the calls [ecdsa_verify_key] makes; every
    call returns its code and what it stores. *)
Class Mbedtls (Group Point : Type) := {
  mbedtls_ecp_curve_info_from_name : str -> option Z;
  mbedtls_ecp_group_load : Z -> Z * Group;
  mbedtls_ecp_point_read_binary : Group -> list Z -> Z * Point;
  mbedtls_ecdsa_read_signature : list Z -> Z * (Z * Z);
  mbedtls_ecdsa_verify : Group -> list Z -> Point -> Z -> Z -> Z;
}.

Section Sig.
Context {Group Point : Type} `{!Mbedtls Group Point}.
Context (base : Z) (junk stack : list Z) (fit keys : list Z).

(** [struct image_sign_info]; strings are offsets into [fit]. *)
Record image_sign_info := SignInfo {
  keyname : option Z;
  node_offset : Z;
  algo_name : Z;
  checksum : checksum_algo;
  crypto : crypto_algo;
  required_keynode : Z;
}.

Definition ecdsa_verify_key (info : image_sign_info) (pubkey sig hash : list Z) : Z :=
  match mbedtls_ecp_curve_info_from_name (cr_name (crypto info)) with
  | None => - EINVAL
  | Some grp_id =>
      let '(ret, grp) := mbedtls_ecp_group_load grp_id in
      if ret <? 0 then - EINVAL else
      let '(ret, Q) := mbedtls_ecp_point_read_binary grp pubkey in
      if ret <? 0 then - EINVAL else
      let '(ret, (r, s)) := mbedtls_ecdsa_read_signature sig in
      if ret <? 0 then - EINVAL else
      let ret := mbedtls_ecdsa_verify grp (take (Z.to_nat (key_len (crypto info))) hash) Q r s in
      if ret <? 0 then - EINVAL else ret
  end.

(** The name of the key node; [char name[100]] and no bound on what [snprintf]
    stores (CONFIG_SYS_VSNPRINTF is not set). *)
Definition key_node_name (info : image_sign_info) : option (list Z) :=
  hint ← match keyname info with None => Some None | Some p => b ← at_ fit p; Some (Some b) end;
  name ← sprintf (bytes_of "key-%s") [AStr hint];
  if (100 <? length name)%nat then None else Some name.

(** [hash] is [key_len] bytes of the stack, the digest stored at its start. *)
Definition ecdsa_verify (info : image_sign_info) (region : list image_region) (sig sig_len : Z) : option Z :=
  if key_len (crypto info) <? checksum_len (checksum info) then Some (- EINVAL) else
  sig_node ← fdt_subnode_offset keys 0 (cstr FIT_SIG_NODENAME);
  if sig_node <? 0 then Some (- ENOENT) else
  chunks ← region_chunks base fit region;
  '(ret, digest) ← Hash.hash_calculate junk (cstr (cs_name (checksum info))) chunks;
  if ret <? 0 then Some (- EINVAL) else
  name ← key_node_name info;
  node ← fdt_subnode_offset keys sig_node name;
  if node <? 0 then Some (- ENOENT) else
  '(pubkey, pubkey_len) ← fdt_getprop keys node (cstr (bytes_of "pubkey"));
  match pubkey with
  | None => Some (- EFAULT)
  | Some pubkey =>
      if pubkey_len <=? 0 then Some (- EFAULT) else
      q ← mem_read keys pubkey pubkey_len;
      sig ← mem_read fit sig (u32 sig_len);
      Some (ecdsa_verify_key info q sig (memcpy (take (Z.to_nat (key_len (crypto info))) stack) 0 digest))
  end.

Definition rsa_verify (info : image_sign_info) (region : list image_region) (sig sig_len : Z) : option Z :=
  Some (- ENXIO).

Definition verify (info : image_sign_info) (region : list image_region) (sig sig_len : Z) : option Z :=
  match verify_fn (crypto info) with
  | Rsa => rsa_verify info region sig sig_len
  | Ecdsa => ecdsa_verify info region sig sig_len
  end.

(** ** One signature *)

(** [None] inside is -1. *)
Definition fit_image_setup_verify (noffset required_keynode : Z) : option (option image_sign_info) :=
  algo ← fit_image_hash_get_algo fit noffset;
  match algo with
  | None => Some None
  | Some p =>
      name ← at_ fit p;
      '(hint, _) ← prop fit noffset "key-name-hint";
      cs ← image_get_checksum_algo name;
      cr ← image_get_crypto_algo name;
      Some (match cs, cr with
            | Some cs, Some cr => Some (SignInfo hint noffset p cs cr required_keynode)
            | _, _ => None
            end)
  end.

Definition fit_image_check_sig (noffset data size required_keynode : Z) : option Z :=
  info ← fit_image_setup_verify noffset required_keynode;
  match info with
  | None => Some (-1)
  | Some info =>
      v ← fit_image_hash_get_value fit noffset;
      match v with
      | None => Some (-1)
      | Some (value, len) =>
          r ← verify info [IRegion data size] value len;
          Some (if negb (r =? 0) then -1 else 0)
      end
  end.

(** [for (name = prop, count = 0; name < end; name++) if (! *name) count++] *)
Definition count_strings (l : list Z) : nat := length (filter (fun c => c = 0) l).

(** The list of node names: the strings that start before [end], each the
    memory from there on; [node_inc] has room for [count]. *)
Fixpoint node_list (fuel count : nat) (p : list Z) (rest : Z) : option (list (list Z)) :=
  match fuel with
  | O => None
  | S fuel =>
      if 0 <? rest then
        match count with
        | O => None
        | S count =>
            n ← strlen p;
            l ← node_list fuel count (drop (n + 1) p) (rest - (Z.of_nat n + 1));
            Some (p :: l)
        end
      else Some []
  end.

Definition exc_prop : list (list Z) := [cstr (bytes_of "data")].

(** The regions that are hashed, or -1. *)
Definition config_regions (noffset : Z) : option (option (list fdt_region)) :=
  '(p, prop_len) ← prop fit noffset "hashed-nodes";
  names ← match p with
          | None => Some []
          | Some p => if prop_len <=? 0 then Some [] else mem_read fit p prop_len
          end;
  let count := count_strings names in
  if (count =? 0)%nat then Some None else
  if IMAGE_MAX_HASHED_NODES <? Z.of_nat count then Some None else
  p ← p;
  b ← at_ fit p;
  node_inc ← node_list (length b + 1) count b prop_len;
  let max_regions := 20 + Z.of_nat count * 7 in
  '(n, fdt_regions) ← fdt_find_regions fit node_inc exc_prop (max_regions - 1) 200 false;
  if n <? 0 then Some None else
  if n =? 0 then Some None else
  if max_regions - 1 <=? n then Some None else
  '(strings, _) ← prop fit noffset "hashed-strings";
  match strings with
  | None => Some (Some fdt_regions)
  | Some p =>
      off ← fdt_off_dt_strings fit;
      a ← rd32 fit p;
      s ← rd32 fit (p + 4);
      Some (Some (fdt_regions ++ [Region (s32 (off + a)) (s32 s)]))
  end.

Definition fit_config_check_sig (noffset required_keynode : Z) : option Z :=
  info ← fit_image_setup_verify noffset required_keynode;
  match info with
  | None => Some (-1)
  | Some info =>
      v ← fit_image_hash_get_value fit noffset;
      match v with
      | None => Some (-1)
      | Some (value, len) =>
          rs ← config_regions noffset;
          match rs with
          | None => Some (-1)
          | Some rs =>
              r ← verify info (fit_region_make_list rs) value len;
              Some (if negb (r =? 0) then -1 else 0)
          end
      end
  end.

(** ** All signatures of a node *)

(** The loop of [fit_config_verify_sig] and [fit_image_verify_sig]: [break] at
    the first signature that is good. *)
Definition verify_sig_loop (parent : Z) (check : Z -> option Z) : option Z :=
  r ← fdt_for_each_subnode fit parent
        (fun noffset (_ : unit) =>
           sig ← has_prefix fit noffset FIT_SIG_NODENAME;
           if sig : bool then
             ret ← check noffset;
             Some (if negb (ret =? 0) then inr tt else inl noffset)
           else Some (inr tt)) tt;
  let '(noffset, verified) := match r with inl n => (n, true) | inr (n, _) => (n, false) end in
  Some (if (noffset =? - FDT_ERR_TRUNCATED) || (noffset =? - FDT_ERR_BADSTRUCTURE) then -1
        else if verified : bool then 0 else - EPERM).

Definition fit_config_verify_sig (conf_noffset sig_offset : Z) : option Z :=
  verify_sig_loop conf_noffset (fun noffset => fit_config_check_sig noffset sig_offset).

Definition fit_image_verify_sig (image_noffset data size : Z) : option Z :=
  verify_sig_loop image_noffset (fun noffset => fit_image_check_sig noffset data size (-1)).

(** The loop over the keys with the given [required] property: the code of the
    first that fails, or how many were verified. *)
Definition required_loop (sig_blob : list Z) (what : string) (check : Z -> option Z) : option (Z + Z) :=
  sig_node ← fdt_subnode_offset sig_blob 0 (cstr FIT_SIG_NODENAME);
  if sig_node <? 0 then Some (inr 0) else
  r ← fdt_for_each_subnode sig_blob sig_node
        (fun noffset count =>
           '(required, _) ← prop sig_blob noffset "required";
           match required with
           | None => Some (inr count)
           | Some p =>
               b ← at_ sig_blob p;
               c ← strcmp b (cstr (bytes_of what));
               if negb (c =? 0) then Some (inr count) else
               ret ← check noffset;
               Some (if negb (ret =? 0) then inl ret else inr (count + 1))
           end) 0;
  Some (match r with inl ret => inl ret | inr (_, count) => inr count end).

Definition fit_config_verify_required_sigs (conf_noffset : Z) (sig_blob : list Z) : option Z :=
  r ← required_loop sig_blob "conf" (fun noffset => fit_config_verify_sig conf_noffset noffset);
  Some (match r with inl ret => ret | inr _ => 0 end).

(** The code and [*no_sigsp]. *)
Definition fit_image_verify_required_sigs (image_noffset data size : Z) (sig_blob : list Z) : option (Z * Z) :=
  r ← required_loop sig_blob "image" (fun _ => fit_image_verify_sig image_noffset data size);
  Some (match r with inl ret => (ret, 1) | inr count => (0, if count =? 0 then 1 else 0) end).

(** CONFIG_FORCE_CONFIG_VERIFY is set. *)
Definition fit_config_verify (conf_noffset : Z) : option Z := fit_config_verify_sig conf_noffset (-1).

(** ** What an accepted signature means *)

(** The key that belongs to a signature: the property [pubkey] of the node
    /signature/key-<hint> of the key tree. *)
Definition key_of (info : image_sign_info) (q : list Z) : Prop :=
  exists sig_node name node p len,
    fdt_subnode_offset keys 0 (cstr FIT_SIG_NODENAME) = Some sig_node /\ 0 <= sig_node
    /\ key_node_name info = Some name
    /\ fdt_subnode_offset keys sig_node name = Some node /\ 0 <= node
    /\ fdt_getprop keys node (cstr (bytes_of "pubkey")) = Some (Some p, len) /\ 0 < len
    /\ mem_read keys p len = Some q.

(** The library accepts [sig] as a signature of [hash] under the key [q]. *)
Definition library_accepts (name : str) (q sig hash : list Z) : Prop :=
  exists grp_id e1 grp e2 Q e3 r s,
    mbedtls_ecp_curve_info_from_name name = Some grp_id
    /\ mbedtls_ecp_group_load grp_id = (e1, grp) /\ 0 <= e1
    /\ mbedtls_ecp_point_read_binary grp q = (e2, Q) /\ 0 <= e2
    /\ mbedtls_ecdsa_read_signature sig = (e3, (r, s)) /\ 0 <= e3
    /\ mbedtls_ecdsa_verify grp hash Q r s = 0.

(** The bytes of the regions, one after the other. *)
Definition signed_message (region : list image_region) (m : list Z) : Prop :=
  exists chunks, region_chunks base fit region = Some chunks /\ m = concat (map Hash.c_data chunks).

(** What was checked of a list of regions under a signature node. *)
Definition checked (info : image_sign_info) (region : list image_region) (sig : list Z) : Prop :=
  exists m digest q,
    signed_message region m
    /\ verify_fn (crypto info) = Ecdsa
    /\ checksum_len (checksum info) <= key_len (crypto info)
    /\ Hash.digest_of (cs_name (checksum info)) = Some digest
    /\ key_of info q
    /\ library_accepts (cr_name (crypto info)) q sig
         (take (Z.to_nat (key_len (crypto info)))
            (memcpy (take (Z.to_nat (key_len (crypto info))) stack) 0 (digest m))).

Definition config_signature (conf node : Z) : Prop :=
  child fit conf node /\ has_prefix fit node FIT_SIG_NODENAME = Some true
  /\ exists info rs p len sig,
       fit_image_setup_verify node (-1) = Some (Some info)
       /\ config_regions node = Some (Some rs)
       /\ fit_image_hash_get_value fit node = Some (Some (p, len))
       /\ mem_read fit p (u32 len) = Some sig
       /\ checked info (fit_region_make_list rs) sig.

Lemma ecdsa_verify_key_ok info q sig hash :
  ecdsa_verify_key info q sig hash = 0 ->
  library_accepts (cr_name (crypto info)) q sig (take (Z.to_nat (key_len (crypto info))) hash).
Proof.
  unfold ecdsa_verify_key, library_accepts, EINVAL.
  destruct (mbedtls_ecp_curve_info_from_name _) as [grp_id|]; [|done].
  destruct (mbedtls_ecp_group_load grp_id) as [e1 grp] eqn:E1.
  destruct (Z.ltb_spec e1 0); [done|].
  destruct (mbedtls_ecp_point_read_binary grp q) as [e2 Q] eqn:E2. destruct (Z.ltb_spec e2 0); [done|].
  destruct (mbedtls_ecdsa_read_signature sig) as [e3 [r s]] eqn:E3. destruct (Z.ltb_spec e3 0); [done|].
  set (ret := mbedtls_ecdsa_verify _ _ _ _ _). destruct (Z.ltb_spec ret 0); [done|]. intros Hret.
  exists grp_id, e1, grp, e2, Q, e3, r, s. split_and!; done.
Qed.

Hypothesis junk_len : length junk = 128%nat.
Hypothesis fit_bytes : bytes fit.

Lemma region_chunks_ok region chunks :
  region_chunks base fit region = Some chunks -> Forall Hash.chunk_ok chunks.
Proof.
  revert chunks. induction region as [|r l IH]; intros chunks H; cbn [region_chunks] in H.
  - injection H as <-. constructor.
  - apply bind_Some in H as (b & Hb & H). apply bind_Some in H as (l' & Hl & H). injection H as <-.
    constructor; [|by apply IH]. destruct (mem_read_ok _ _ _ _ fit_bytes Hb) as [? Hlen].
    split; [done|]. cbn [Hash.c_data]. rewrite Hlen. apply (wrap_in_word 32). lia.
Qed.

Lemma hash_calculate_ok name chunks ret digest :
  is_str name -> Forall Hash.chunk_ok chunks -> 0 <= ret ->
  Hash.hash_calculate junk (cstr name) chunks = Some (ret, digest) ->
  exists d, Hash.digest_of name = Some d /\ digest = d (concat (map Hash.c_data chunks)).
Proof.
  intros Hn Hc Hret H. unfold cstr in H. destruct (decide (chunks = [])) as [->|Hne].
  - exfalso. unfold Hash.hash_calculate, Hash.hash_progressive_lookup_algo in H.
    pose proof (Hash.lookup_spec true name [] Hn) as Hs. destruct (Hash.digest_of name) as [d|].
    + destruct Hs as (algo & Hl & Hok & _). rewrite Hl in H. cbn [mbind option_bind] in H.
      destruct (Hash.ok_progressive junk [] junk_len (Forall_nil_2 _)) as (init & ctx & ctx' & Hi & Hj & _).
      rewrite Hi in H. cbn [mbind option_bind] in H. by rewrite Hj in H.
    + rewrite Hs in H. injection H as <- _. unfold Hash.EPROTONOSUPPORT in Hret. lia.
  - rewrite Hash.hash_calculate_spec in H by done.
    destruct (Hash.digest_of name) as [d|]; injection H as <- <-; [by exists d|].
    unfold Hash.EPROTONOSUPPORT in Hret. lia.
Qed.

Lemma cs_names_str info noffset rk :
  fit_image_setup_verify noffset rk = Some (Some info) -> is_str (cs_name (checksum info)).
Proof.
  unfold fit_image_setup_verify. intros (p & _ & H)%bind_Some. destruct p as [p|]; [|done].
  apply bind_Some in H as (name & _ & H). apply bind_Some in H as ([hint ?] & _ & H).
  apply bind_Some in H as (cs & Hcs & H). apply bind_Some in H as (cr & _ & H).
  destruct cs as [cs|]; [|done]. destruct cr as [cr|]; [|done]. injection H as <-. cbn [checksum].
  unfold image_get_checksum_algo in Hcs.
  assert (Hin : forall l, checksum_loop l name = Some (Some cs) -> cs ∈ l).
  { clear. induction l as [|a l IH]; [done|]. cbn [checksum_loop]. intros (r & _ & H)%bind_Some.
    destruct (r =? 0); [|right; by apply IH].
    apply bind_Some in H as (c & _ & H). destruct (c =? 44); [|right; by apply IH].
    injection H as ->. constructor. }
  specialize (Hin _ Hcs). assert (Hall : Forall (fun a => is_str (cs_name a)) checksum_algos)
    by (by apply (bool_decide_unpack _)).
  by eapply Forall_forall in Hall.
Qed.

Lemma ecdsa_verify_ok info region sig sig_len :
  is_str (cs_name (checksum info)) -> ecdsa_verify info region sig sig_len = Some 0 ->
  exists m digest q b,
    signed_message region m /\ checksum_len (checksum info) <= key_len (crypto info)
    /\ Hash.digest_of (cs_name (checksum info)) = Some digest /\ key_of info q
    /\ mem_read fit sig (u32 sig_len) = Some b
    /\ library_accepts (cr_name (crypto info)) q b
         (take (Z.to_nat (key_len (crypto info)))
            (memcpy (take (Z.to_nat (key_len (crypto info))) stack) 0 (digest m))).
Proof.
  intros Hname H. unfold ecdsa_verify in H.
  destruct (Z.ltb_spec (key_len (crypto info)) (checksum_len (checksum info))) as [|Hlen]; [done|].
  apply bind_Some in H as (sig_node & Hsn & H). destruct (Z.ltb_spec sig_node 0); [done|].
  apply bind_Some in H as (chunks & Hch & H). apply bind_Some in H as ([ret dg] & Hcalc & H).
  destruct (Z.ltb_spec ret 0) as [|Hret]; [done|].
  apply bind_Some in H as (name & Hkn & H). apply bind_Some in H as (node & Hnode & H).
  destruct (Z.ltb_spec node 0); [done|]. apply bind_Some in H as ([pk len] & Hpk & H).
  destruct pk as [pk|]; [|done]. destruct (Z.leb_spec len 0); [done|].
  apply bind_Some in H as (q & Hq & H). apply bind_Some in H as (b & Hb & H).
  injection H as H. apply ecdsa_verify_key_ok in H.
  destruct (hash_calculate_ok _ _ _ _ Hname (region_chunks_ok _ _ Hch) Hret Hcalc) as (d & Hd & ->).
  exists (concat (map Hash.c_data chunks)), d, q, b. split_and!; try done; [by exists chunks|].
  exists sig_node, name, node, pk, len. split_and!; done.
Qed.

Lemma verify_ok info region sig sig_len :
  is_str (cs_name (checksum info)) -> verify info region sig sig_len = Some 0 ->
  exists b, mem_read fit sig (u32 sig_len) = Some b /\ checked info region b.
Proof.
  intros Hname. unfold verify, rsa_verify, ENXIO. destruct (verify_fn (crypto info)) eqn:Ev; [done|].
  intros (m & d & q & b & ? & ? & ? & ? & ? & ?)%ecdsa_verify_ok; [|done].
  exists b. split; [done|]. exists m, d, q. split_and!; done.
Qed.

Lemma config_check_sig_ok node rk :
  fit_config_check_sig node rk = Some 0 ->
  exists info rs p len sig,
    fit_image_setup_verify node rk = Some (Some info)
    /\ config_regions node = Some (Some rs)
    /\ fit_image_hash_get_value fit node = Some (Some (p, len))
    /\ mem_read fit p (u32 len) = Some sig
    /\ checked info (fit_region_make_list rs) sig.
Proof.
  unfold fit_config_check_sig. intros (info & Hi & H)%bind_Some. destruct info as [info|]; [|done].
  apply bind_Some in H as (v & Hv & H). destruct v as [[p len]|]; [|done].
  apply bind_Some in H as (rs & Hrs & H). destruct rs as [rs|]; [|done].
  apply bind_Some in H as (r & Hr & H). destruct (Z.eqb_spec r 0) as [->|]; [|done].
  destruct (verify_ok _ _ _ _ (cs_names_str _ _ _ Hi) Hr) as (b & Hb & Hc).
  exists info, rs, p, len, b. split_and!; done.
Qed.

Lemma verify_sig_loop_ok parent check :
  verify_sig_loop parent check = Some 0 ->
  exists node, child fit parent node /\ has_prefix fit node FIT_SIG_NODENAME = Some true
               /\ check node = Some 0.
Proof.
  unfold verify_sig_loop. intros (r & Hr & H)%bind_Some. destruct r as [n|[n []]].
  - apply for_each_subnode_left in Hr as (node & Hc & Hb). exists node. split; [done|].
    apply bind_Some in Hb as (sig & Hs & Hb). destruct sig; [|done]. split; [done|].
    apply bind_Some in Hb as (ret & Hret & Hb). destruct (Z.eqb_spec ret 0) as [->|]; done.
  - exfalso. unfold EPERM in H. destruct (_ || _); done.
Qed.

Lemma config_verify_ok conf :
  fit_config_verify conf = Some 0 -> exists node, config_signature conf node.
Proof.
  intros (node & Hc & Hp & H)%verify_sig_loop_ok. exists node. split_and!; [done..|].
  by apply config_check_sig_ok.
Qed.

End Sig.

(** C5: When [fit_config_verify] accepts a configuration of any image,
    however it is made up, one of the configuration's subnodes is a signature
    node, and the elliptic-curve library accepted the signature in it under
    the key with the hinted name from the boot loader's own key tree, for the
    digest (SHA-1, SHA-2) of the concatenation of the regions that
    [fdt_find_regions] finds for the node's list of hashed nodes. *)
Theorem fit_config_verify_sound {Group Point} `{!Mbedtls Group Point} base junk stack fit keys conf :
  length junk = 128%nat -> bytes fit ->
  fit_config_verify base junk stack fit keys conf = Some 0 ->
  exists node, config_signature base stack fit keys conf node.
Proof. intros Hj Hb H. by apply (config_verify_ok base junk stack fit keys Hj Hb). Qed.

(** ** The sample *)

(** A stand-in for the library: a "signature" is the sum of hash and key. *)
#[local] Instance toy_library : Mbedtls Z Z := {|
  mbedtls_ecp_curve_info_from_name name :=
    if bool_decide (name = bytes_of "secp256r1") then Some 1
    else if bool_decide (name = bytes_of "secp384r1") then Some 2 else None;
  mbedtls_ecp_group_load id := (0, id);
  mbedtls_ecp_point_read_binary _ q := (0, be_combine q);
  mbedtls_ecdsa_read_signature sig := (0, (be_combine sig, 0));
  mbedtls_ecdsa_verify _ hash Q r _ := if r =? be_combine hash + Q then 0 else -1;
|}.

(** The digest of the regions of an image, as the node at [noffset] lists them. *)
Definition regions_digest (fit : list Z) (noffset : Z) : option (list Z) :=
  rs ← config_regions fit noffset;
  rs ← rs;
  chunks ← region_chunks 0 fit (fit_region_make_list rs);
  Some (Sha256.sha256_spec (concat (map Hash.c_data chunks))).

Definition sample_sig (v : list Z) : FdtTree.node :=
  FitSample.signature_node "sha256,secp256r1" "dev" FitSample.hashed_nodes v.

(** The offset of /configurations/<conf>/signature@1. *)
Definition sig_offset (fit : list Z) (conf : string) : option Z :=
  c ← fit_conf_get_node fit (Some (cstr (bytes_of conf)));
  fdt_subnode_offset fit c (cstr (bytes_of "signature@1")).

(** The value that belongs to the image: the node is not among the hashed ones. *)
Definition sign (t : FdtTree.node -> FdtTree.node) : list Z :=
  let fit := FitSample.blob_of (t (sample_sig (replicate 33 0))) in
  default [] (n ← sig_offset fit "conf@1"; d ← regions_digest fit n;
              Some (be_bytes 33 (be_combine d + be_combine [1; 2; 3]))).

Definition sample_value : list Z := Eval vm_compute in sign (FitSample.fit_tree [] []).

Definition sample_fit : list Z := Eval vm_compute in FitSample.blob_of (FitSample.fit_tree [] [] (sample_sig sample_value)).

Definition conf_at (fit : list Z) (conf : string) : Z :=
  default (-1) (fit_conf_get_node fit (Some (cstr (bytes_of conf)))).

Definition verify_in (stack fit : list Z) (conf : string) : option Z :=
  fit_config_verify 0 FitSample.junk stack fit FitSample.keys (conf_at fit conf).

Example sample_accepted :
  fit_config_verify 0 FitSample.junk FitSample.stack sample_fit FitSample.keys (conf_at sample_fit "conf@1") = Some 0.
Proof. by vm_compute. Qed.

Lemma sample_fit_bytes : bytes sample_fit.
Proof. apply (bool_decide_unpack _). by vm_compute. Qed.

Lemma fit_config_verify_sound_witness :
  exists node, config_signature 0 FitSample.stack sample_fit FitSample.keys (conf_at sample_fit "conf@1") node.
Proof.
  exact (fit_config_verify_sound 0 FitSample.junk FitSample.stack sample_fit FitSample.keys
    (conf_at sample_fit "conf@1") eq_refl sample_fit_bytes sample_accepted).
Defined.

(** A changed configuration is rejected. *)
Example changed_rejected :
  verify_in FitSample.stack
    (FitSample.blob_of (FdtTree.Node [] [FitSample.p_str "description" "changed"]
       (match FitSample.fit_tree [] [] (sample_sig sample_value) with FdtTree.Node _ _ subs => subs end))) "conf@1"
  = Some (- EPERM).
Proof. by vm_compute. Qed.

(** *** What the signature does not cover *)

(** A second configuration, with a copy of the signature node of the first and
    an unsigned kernel without a hash. *)
Definition evil_kernel : FdtTree.node :=
  match FitSample.kernel_node "kernel@2" [] with
  | FdtTree.Node n ((o, _) :: ps) subs => FdtTree.Node n ((o, bytes_of "evil") :: ps) subs
  | n => n
  end.

Definition evil_fit : list Z := Eval vm_compute in
  FitSample.blob_of (FitSample.fit_tree
    [FdtTree.Node (bytes_of "conf@2") [FitSample.p_str "kernel" "kernel@2"] [sample_sig sample_value]]
    [evil_kernel] (sample_sig sample_value)).

Example copied_signature_accepted : verify_in FitSample.stack evil_fit "conf@2" = Some 0.
Proof. by vm_compute. Qed.

(** *** Memory errors before the signature is checked *)

(** A hint of 96 characters overruns the buffer for the name of the key node. *)
Example long_hint_overruns :
  verify_in FitSample.stack
    (FitSample.blob_of (FitSample.fit_tree [] []
       (FitSample.signature_node "sha256,secp256r1"
          "aaaaaaaaaaaaaaaaaaaaaaaaaaaaaaaaaaaaaaaaaaaaaaaaaaaaaaaaaaaaaaaaaaaaaaaaaaaaaaaaaaaaaaaaaaaaaaaa"
          FitSample.hashed_nodes sample_value))) "conf@1" = None.
Proof. by vm_compute. Qed.

(** A list of nodes without a NUL at its end has one name more than [node_inc]. *)
Example unterminated_nodes_overrun :
  verify_in FitSample.stack
    (FitSample.blob_of (FitSample.fit_tree [] []
       (FitSample.signature_node "sha256,secp256r1" "dev" (cstr (bytes_of "/") ++ bytes_of "/im") sample_value)))
    "conf@1" = None.
Proof. by vm_compute. Qed.

(** *** The length of the hash *)

(** For a digest shorter than the key the library is given stack memory behind it. *)
Lemma hash_with_stack (stack digest : list Z) n :
  (length digest <= n)%nat -> (n <= length stack)%nat ->
  take n (memcpy (take n stack) 0 digest) = digest ++ drop (length digest) (take n stack).
Proof.
  intros H1 H2. unfold memcpy. rewrite take_0. cbn [app Nat.add].
  apply take_ge. rewrite length_app, length_drop, length_take. lia.
Qed.

Definition mixed_tree (v : list Z) : FdtTree.node :=
  FitSample.fit_tree [] [] (FitSample.signature_node "sha256,secp384r1" "dev" FitSample.hashed_nodes v).

Definition mixed_fit : list Z := Eval vm_compute in
  FitSample.blob_of (mixed_tree
    (let fit := FitSample.blob_of (mixed_tree (replicate 33 0)) in
     default [] (n ← sig_offset fit "conf@1"; d ← regions_digest fit n;
                 Some (be_bytes 49 (be_combine (d ++ replicate 16 0) + be_combine [1; 2; 3]))))).

(** Whether such a signature is accepted depends on what the stack held. *)
Example mixed_depends_on_stack :
  verify_in (replicate 64 0) mixed_fit "conf@1" = Some 0
  /\ verify_in FitSample.stack mixed_fit "conf@1" = Some (- EPERM).
Proof. by vm_compute. Qed.

End FitSig.
