(* ===== verification/Bootm.v ===== *)
(** * Finding and checking the kernel (common/cmd_bootm.c)

    [mem addr] is the memory from an address on.  [bootm] takes the image from
    the address of its argument, looks up the configuration and the kernel in
    it and checks signature, hashes, architecture and type.  What is printed
    and the boot-stage marks are left out; loading and starting the kernel is
    BootmRun.v. *)

From S2P Require Import Prelude Crc32 BlockHash Sha2 Sha1 Md5 Cstring Fdt FdtTree FdtQuery Vsprintf Hash.
From S2P Require Import Image Fit FitSample FitSig.

Module Bootm.
Import Cstring Fdt FdtQuery Vsprintf Image Fit FitSig.

(** What [boot_get_kernel] finds: the image, the data and its length; for a
    FIT image the configuration and the node of the kernel. *)
Record kernel_image := Kernel {
  k_addr : Z;
  os_data : Z;
  os_len : Z;
  k_fit : option (option Z * Z);
}.

Section Bootm.
Context {Group Point : Type} `{!Mbedtls Group Point}.
Context (mem : Z -> list Z) (junk stack keys : list Z) (load_addr : Z).

Definition fit_check_kernel (base : Z) (fit : list Z) (os_noffset : Z) (verify : bool) : option bool :=
  hashes ← (if verify then fit_image_check_hashes base junk fit os_noffset else Some true);
  if negb hashes then Some false else
  arch ← fit_image_check_target_arch fit os_noffset;
  if negb arch then Some false else
  kernel ← fit_image_check_type fit os_noffset IH_TYPE_KERNEL;
  if kernel : bool then Some true else fit_image_check_type fit os_noffset IH_TYPE_KERNEL_NOLOAD.

(** The legacy branch of the [switch]. *)
Definition get_legacy_kernel (addr : Z) (verify : bool) : option (option kernel_image) :=
  let hdr := mem addr in
  ok ← image_get_kernel addr hdr verify;
  if negb ok then Some None else
  type ← image_get_type hdr;
  if (type =? IH_TYPE_KERNEL) || (type =? IH_TYPE_KERNEL_NOLOAD) || (type =? IH_TYPE_STANDALONE) then
    size ← image_get_size hdr;
    Some (Some (Kernel addr (u32 (addr + image_get_header_size)) size None))
  else if type =? IH_TYPE_MULTI then
    '(data, len) ← image_multi_getimg addr hdr 0;
    Some (Some (Kernel addr data len None))
  else Some None.

(** The configuration of a FIT image, verified: [None] inside is a return with
    NULL. *)
Definition get_config (addr : Z) (fit_uname_config : option (list Z)) (verify : bool) : option (option Z) :=
  let fit := mem addr in
  cfg_noffset ← fit_conf_get_node fit fit_uname_config;
  if cfg_noffset <? 0 then Some None else
  ok ← (if verify then
          r ← fit_config_verify addr junk stack fit keys cfg_noffset; Some (r =? 0)
        else Some true);
  Some (if ok : bool then Some cfg_noffset else None).

(** The FIT branch of the [switch]. *)
Definition get_fit_kernel (addr : Z) (fit_uname_config fit_uname_kernel : option (list Z)) (verify : bool)
    : option (option kernel_image) :=
  let fit := mem addr in
  ok ← fit_check_format fit;
  if negb ok then Some None else
  node ← match fit_uname_kernel with
         | None =>
             cfg ← get_config addr fit_uname_config verify;
             match cfg with
             | None => Some None
             | Some cfg => os ← fit_conf_get_kernel_node fit cfg; Some (Some (Some cfg, os))
             end
         | Some name => os ← fit_image_get_node fit name; Some (Some (None, os))
         end;
  match node with
  | None => Some None
  | Some (cfg, os_noffset) =>
      if os_noffset <? 0 then Some None else
      ok ← fit_check_kernel addr fit os_noffset verify;
      if negb ok then Some None else
      d ← fit_image_get_data fit os_noffset;
      Some (match d with
            | None => None
            | Some (data, len) => Some (Kernel addr (u32 (addr + data)) len (Some (cfg, os_noffset)))
            end)
  end.

(** The address and the names of configuration and kernel in the argument. *)
Definition parse_argument (arg : option (list Z)) : option (Z * option (list Z) * option (list Z)) :=
  match arg with
  | None => Some (load_addr, None, None)
  | Some arg =>
      conf ← fit_parse_conf arg load_addr;
      match conf with
      | Some (addr, name) => Some (addr, Some name, None)
      | None =>
          sub ← fit_parse_subimage arg load_addr;
          match sub with
          | Some (addr, name) => Some (addr, None, Some name)
          | None => '(addr, _) ← simple_strtoul arg 16; Some (addr, None, None)
          end
      end
  end.

Definition boot_get_kernel (arg : option (list Z)) (verify : bool) : option (option kernel_image) :=
  '(addr, conf, kernel) ← parse_argument arg;
  format ← genimg_get_format (mem addr);
  if format =? IMAGE_FORMAT_LEGACY then get_legacy_kernel addr verify
  else if format =? IMAGE_FORMAT_FIT then get_fit_kernel addr conf kernel verify
  else Some None.

(** ** What is accepted as a kernel *)

Definition crc_of (m : list Z) : Z := Crc32.crc_spec 0xffffffff m ^^ 0xffffffff.

(** A legacy image: both checksums are right, and it is for this architecture.
    Nothing of it is signed. *)
Definition legacy_accepted (k : kernel_image) : Prop :=
  let hdr := mem (k_addr k) in
  exists h size data,
    image_get_magic hdr = Some IH_MAGIC
    /\ mem_read hdr 0 image_get_header_size = Some h
    /\ image_get_hcrc hdr = Some (crc_of (memcpy h 4 [0; 0; 0; 0]))
    /\ image_get_size hdr = Some size /\ mem_read hdr image_get_header_size size = Some data
    /\ image_get_dcrc hdr = Some (crc_of data)
    /\ image_get_arch hdr = Some IH_ARCH_DEFAULT.

(** The image at [os] of a FIT image: every hash node of it is right for the
    data that is booted. *)
Definition image_accepted (k : kernel_image) (os : Z) : Prop :=
  let fit := mem (k_addr k) in
  exists data,
    fit_image_get_data fit os = Some (Some (data, os_len k))
    /\ os_data k = u32 (k_addr k + data)
    /\ (forall n, below fit os n 1 -> hash_holds fit data (os_len k) n)
    /\ fit_image_get_arch fit os = Some (0, IH_ARCH_DEFAULT)
    /\ exists type, fit_image_get_type fit os = Some (0, type)
                    /\ (type = IH_TYPE_KERNEL \/ type = IH_TYPE_KERNEL_NOLOAD).

(** The three ways to a kernel: a legacy image; an image of a FIT image by its
    name; the image of a configuration that has an accepted signature. *)
Definition accepted (uname : option (list Z)) (k : kernel_image) : Prop :=
  match k_fit k with
  | None => legacy_accepted k
  | Some (None, os) =>
      image_accepted k os
      /\ exists name, uname = Some name /\ fit_image_get_node (mem (k_addr k)) name = Some os
  | Some (Some conf, os) =>
      image_accepted k os /\ uname = None
      /\ fit_conf_get_kernel_node (mem (k_addr k)) conf = Some os
      /\ exists node, config_signature (k_addr k) stack (mem (k_addr k)) keys conf node
  end.

Lemma check_code_ok get fit n want :
  check_code get fit n want = Some true -> exists v, get fit n = Some (0, v) /\ v = want.
Proof.
  unfold check_code. intros ([err v] & Hg & H)%bind_Some. destruct (Z.eqb_spec err 0) as [->|]; [|done].
  exists v. split; [done|]. cbn [negb] in H. injection H as H. by apply Z.eqb_eq in H.
Qed.

Hypothesis junk_len : length junk = 128%nat.
Hypothesis junk_bytes : bytes junk.
Hypothesis mem_bytes : forall addr, bytes (mem addr).

Lemma check_kernel_ok addr os :
  fit_check_kernel addr (mem addr) os true = Some true ->
  exists data size,
    fit_image_get_data (mem addr) os = Some (Some (data, size))
    /\ (forall n, below (mem addr) os n 1 -> hash_holds (mem addr) data size n)
    /\ fit_image_get_arch (mem addr) os = Some (0, IH_ARCH_DEFAULT)
    /\ exists type, fit_image_get_type (mem addr) os = Some (0, type)
                    /\ (type = IH_TYPE_KERNEL \/ type = IH_TYPE_KERNEL_NOLOAD).
Proof.
  unfold fit_check_kernel. intros (hashes & Hh & H)%bind_Some. destruct hashes; [|done]. cbn [negb] in H.
  apply check_hashes_ok in Hh as (data & size & Hd & Hok); [|done..].
  apply bind_Some in H as (arch & Ha & H). destruct arch; [|done]. cbn [negb] in H.
  apply check_code_ok in Ha as (? & Ha & ->).
  exists data, size. split_and!; [done..|]. apply bind_Some in H as (kernel & Hk & H).
  destruct kernel; [apply check_code_ok in Hk as (t & ? & ?)|apply check_code_ok in H as (t & ? & ?)]; eauto.
Qed.

(** Both checksums of a legacy header and its data. *)
Definition crcs_right (hdr : list Z) : Prop :=
  exists h size data,
    mem_read hdr 0 image_get_header_size = Some h
    /\ image_get_hcrc hdr = Some (crc_of (memcpy h 4 [0; 0; 0; 0]))
    /\ image_get_size hdr = Some size /\ mem_read hdr image_get_header_size size = Some data
    /\ image_get_dcrc hdr = Some (crc_of data).

Lemma crcs_ok addr hdr : bytes hdr ->
  image_check_hcrc hdr = Some true -> image_check_dcrc addr hdr = Some true -> crcs_right hdr.
Proof using.
  clear. intros HB Hh Hd.
  apply bind_Some in Hh as (h & Hh & E). apply bind_Some in E as (hc & Hhc & E). injection E as <-%Z.eqb_eq.
  apply bind_Some in Hd as (size & Hs & E). apply bind_Some in E as (data & Hd & E).
  apply bind_Some in E as (dc & Hdc & E). injection E as <-%Z.eqb_eq.
  destruct (mem_read_ok _ _ _ _ HB Hh) as [Hhb _]. destruct (mem_read_ok _ _ _ _ HB Hd) as [Hdb _].
  destruct (Crc32.crc32_raw 0 0 (memcpy h 4 [0; 0; 0; 0])) as [Ec _];
    [split; lia|unfold memcpy; repeat apply Forall_app_2; [by apply Forall_take|repeat constructor; lia|
     by apply Forall_drop]|].
  unfold Crc32.crc32_wd in Hdc.
  rewrite (Crc32.crc32_wd_loop_spec _ _ _ 0) in Hdc; [|split; lia|done|apply Hash.CHUNKSZ_pos|done].
  destruct (Crc32.crc32_raw 0 0 data) as [Ed _]; [split; lia|done|].
  rewrite Ec in Hhc. rewrite Ed in Hdc. exists h, size, data. split_and!; done.
Qed.

Lemma legacy_ok addr k :
  get_legacy_kernel addr true = Some (Some k) -> k_addr k = addr /\ k_fit k = None /\ legacy_accepted k.
Proof.
  unfold get_legacy_kernel. intros (ok & Hk & H)%bind_Some. destruct ok; [|done]. cbn [negb] in H.
  assert (Hkk : k_addr k = addr /\ k_fit k = None).
  { apply bind_Some in H as (type & _ & H). destruct (_ || _).
    - apply bind_Some in H as (size & _ & H). by injection H as <-.
    - destruct (type =? IH_TYPE_MULTI); [|done]. apply bind_Some in H as ([data len] & _ & H).
      by injection H as <-. }
  destruct Hkk as [<- Hf]. split; [done|]. split; [done|]. clear H. unfold image_get_kernel in Hk.
  apply bind_Some in Hk as (magic & Hmg & Hk). destruct magic; [|done]. cbn [negb] in Hk.
  apply bind_Some in Hk as (hcrc & Hh & Hk). destruct hcrc; [|done]. cbn [negb] in Hk.
  apply bind_Some in Hk as (dcrc & Hd & Hk). destruct dcrc; [|done]. cbn [negb] in Hk.
  apply bind_Some in Hmg as (m & Hmg & E). injection E as ->%Z.eqb_eq.
  apply bind_Some in Hk as (arch & Ha & E). injection E as ->%Z.eqb_eq.
  destruct (crcs_ok _ _ (mem_bytes _) Hh Hd) as (h & size & data & ?). exists h, size, data. naive_solver.
Qed.

Lemma get_fit_ok addr conf uname k :
  get_fit_kernel addr conf uname true = Some (Some k) -> k_addr k = addr /\ accepted uname k.
Proof.
  unfold get_fit_kernel. intros (ok & _ & H)%bind_Some. destruct ok; [|done]. cbn [negb] in H.
  apply bind_Some in H as (node & Hn & H). destruct node as [[cfg os]|]; [|done].
  destruct (os <? 0); [done|]. apply bind_Some in H as (ok & Hck & H). destruct ok; [|done]. cbn [negb] in H.
  apply bind_Some in H as (d & Hd & H). destruct d as [[data len]|]; [|done]. injection H as <-.
  split; [done|]. apply check_kernel_ok in Hck as (data' & len' & Hd' & Hrest).
  rewrite Hd in Hd'. injection Hd' as <- <-. unfold accepted. cbn [k_fit k_addr].
  assert (Hi : image_accepted (Kernel addr (u32 (addr + data)) len (Some (cfg, os))) os)
    by (exists data; cbn; tauto).
  destruct uname as [name|].
  - apply bind_Some in Hn as (o & Ho & E). injection E as <- <-. eauto.
  - apply bind_Some in Hn as (c & Hc & E). destruct c as [c|]; [|done].
    apply bind_Some in E as (o & Ho & E). injection E as <- <-. split_and!; [done..|].
    unfold get_config in Hc. apply bind_Some in Hc as (cc & _ & Hc). destruct (cc <? 0); [done|].
    apply bind_Some in Hc as (ok & Hv & Hc). destruct ok; [|done]. injection Hc as <-.
    apply bind_Some in Hv as (r & Hv & E). injection E as ->%Z.eqb_eq. by eapply config_verify_ok.
Qed.

End Bootm.

Lemma boot_get_kernel_ok {Group Point} `{!Mbedtls Group Point} mem junk stack keys load_addr arg
    addr conf uname k :
  length junk = 128%nat -> bytes junk -> (forall addr, bytes (mem addr)) ->
  parse_argument load_addr arg = Some (addr, conf, uname) ->
  boot_get_kernel mem junk stack keys load_addr arg true = Some (Some k) ->
  k_addr k = addr /\ accepted mem stack keys uname k.
Proof.
  intros Hj Hjb Hm Hp. unfold boot_get_kernel. rewrite Hp. cbn [mbind option_bind].
  intros (fmt & _ & H)%bind_Some. destruct (fmt =? IMAGE_FORMAT_LEGACY).
  - eapply legacy_ok in H as (? & Hf & ?); [|done..]. unfold accepted. by rewrite Hf.
  - destruct (fmt =? IMAGE_FORMAT_FIT); [|done]. by eapply get_fit_ok.
Qed.

(** C3: With verification on, [boot_get_kernel] accepts a kernel in three ways
    only: a legacy image whose header and data have the right CRC-32; an image
    of a FIT image that the argument names itself; or the kernel of a
    configuration for which the elliptic-curve library accepted a signature
    with a key of the boot loader's key tree.  In the last two, every hash node
    of the image (not marked to be ignored) holds the CRC-32, SHA-1 or MD5 of
    exactly the bytes that are booted, and the image is a kernel for ARM. *)
Theorem boot_get_kernel_sound {Group Point} `{!Mbedtls Group Point} mem junk stack keys load_addr arg
    addr conf uname k :
  length junk = 128%nat -> bytes junk -> (forall addr, bytes (mem addr)) ->
  parse_argument load_addr arg = Some (addr, conf, uname) ->
  boot_get_kernel mem junk stack keys load_addr arg true = Some (Some k) ->
  k_addr k = addr /\ accepted mem stack keys uname k.
Proof. apply boot_get_kernel_ok. Qed.

(** ** Samples *)

#[local] Existing Instance toy_library.

Definition at_addr : Z := 0x2000000.
Definition mem_of (image : list Z) (addr : Z) : list Z := if addr =? at_addr then image else [].

Definition boot (image : list Z) (arg : option string) : option (option kernel_image) :=
  boot_get_kernel (mem_of image) FitSample.junk FitSample.stack FitSample.keys at_addr
    (option_map (fun a => cstr (bytes_of a)) arg) true.

Example sample_boots :
  boot_get_kernel (mem_of sample_fit) FitSample.junk FitSample.stack FitSample.keys at_addr None true
  = Some (Some (Kernel at_addr (at_addr + 108) 8 (Some (Some 300, 40)))).
Proof. vm_compute. reflexivity. Qed.

Lemma boot_get_kernel_sound_witness :
  let k := Kernel at_addr (at_addr + 108) 8 (Some (Some 300, 40)) in
  k_addr k = at_addr /\ accepted (mem_of sample_fit) FitSample.stack FitSample.keys None k.
Proof.
  refine (boot_get_kernel_sound (mem_of sample_fit) FitSample.junk FitSample.stack FitSample.keys at_addr None
    at_addr None None _ eq_refl _ _ eq_refl sample_boots).
  - exact FitSample.junk_bytes.
  - intros addr. unfold mem_of. destruct (addr =? at_addr); [apply sample_fit_bytes|constructor].
Defined.

(** *** Kernels nobody signed, with verification on *)

(** The configuration with the copied signature, and its kernel by name. *)
Example unsigned_kernels_boot :
  boot evil_fit (Some "#conf@2"%string) = Some (Some (Kernel at_addr (at_addr + 324) 4 (Some (Some 680, 256))))
  /\ boot evil_fit (Some ":kernel@2"%string) = Some (Some (Kernel at_addr (at_addr + 324) 4 (Some (None, 256)))).
Proof. by vm_compute. Qed.

(** A legacy image: [data] behind a header with the right checksums. *)
Definition legacy_header (os : Z) (data : list Z) (hcrc : Z) : list Z :=
  be_bytes 4 IH_MAGIC ++ be_bytes 4 hcrc ++ be_bytes 4 0 ++ be_bytes 4 (Z.of_nat (length data))
  ++ be_bytes 4 0x8000 ++ be_bytes 4 0x8000 ++ be_bytes 4 (Crc32.crc32 0 0 data)
  ++ [os; IH_ARCH_DEFAULT; IH_TYPE_KERNEL; 0] ++ replicate 32 0.

Definition legacy_image (os : Z) (data : list Z) : list Z :=
  legacy_header os data (Crc32.crc32 0 0 (legacy_header os data 0)) ++ data.

Example legacy_boots :
  boot (legacy_image 5 (bytes_of "evil")) None = Some (Some (Kernel at_addr (at_addr + 64) 4 None)).
Proof. by vm_compute. Qed.

(** A changed byte of the kernel is found by its hash. *)
Example changed_kernel_rejected :
  boot (<[108%nat := 0]> sample_fit) None = Some None.
Proof. by vm_compute. Qed.

End Bootm.
