(* ===== verification/BootImages.v ===== *)
(** * Ramdisk and device tree of a kernel (common/image.c)

    Finding and checking the ramdisk and the device tree that [bootm] boots a
    kernel with, and moving both to memory the kernel can reach.  [m] is the
    memory, [view m addr] what a routine finds from an address on; RAM ends at
    [ram_end].  [CONFIG_SUPPORT_RAW_INITRD], dataflash, [CONFIG_MP] and the
    watchdog are not configured; what is printed and the boot-stage marks are
    left out. *)

From S2P Require Import Prelude Crc32 Cstring Fdt FdtTree FdtQuery FdtRw FdtParts FdtOpen FdtPaths Vsprintf Hash Lmb.
From S2P Require Import Image Fit Bootm FdtSupport.

Module BootImages.
Import Cstring Fdt FdtQuery FdtRw Vsprintf Image Fit Bootm.

Definition IH_TYPE_FLATDT : Z := 8.
Definition IH_COMP_NONE : Z := 0.
Definition IH_INITRD_ARCH : Z := IH_ARCH_DEFAULT.
Definition CONFIG_SYS_FDT_PAD : Z := 0x3000.
Definition CONFIG_SYS_SDRAM_BASE : Z := 0.
Definition CONFIG_SYS_BOOTMAPSZ : Z := 16 .<< 20.

Definition image_check_type (hdr : list Z) (type : Z) : option bool := t ← image_get_type hdr; Some (t =? type).
Definition image_check_arch (hdr : list Z) (arch : Z) : option bool := a ← image_get_arch hdr; Some (a =? arch).
Definition image_check_os (hdr : list Z) (os : Z) : option bool := o ← image_get_os hdr; Some (o =? os).

(** The fields of [bootm_headers_t] these routines read: address and type of a
    legacy kernel image when [legacy_hdr_valid] is set; the FIT image of the
    kernel, whether [fit_uname_os] is set, and [fit_uname_cfg]; the FIT image
    of the ramdisk when [fit_uname_rd] is set; [verify]. *)
Record boot_images := Images {
  legacy_os : option (Z * Z);
  fit_hdr_os : Z;
  fit_uname_os : bool;
  fit_uname_cfg : option (list Z);
  fit_hdr_rd : option Z;
  verify : bool;
}.

Definition with_rd (rd : option Z) (im : boot_images) : boot_images :=
  Images (legacy_os im) (fit_hdr_os im) (fit_uname_os im) (fit_uname_cfg im) rd (verify im).

Definition genimg_has_config (im : boot_images) : bool := negb (FdtSupport.null (fit_uname_cfg im)).

(** ** Checks of an image *)

Definition image_get_ramdisk (rd_addr : Z) (rd_hdr : list Z) (arch : Z) (verify : bool) : option bool :=
  magic ← image_check_magic rd_hdr;
  if negb magic then Some false else
  hcrc ← image_check_hcrc rd_hdr;
  if negb hcrc then Some false else
  dcrc ← (if verify then image_check_dcrc rd_addr rd_hdr else Some true);
  if negb dcrc then Some false else
  os ← image_check_os rd_hdr IH_OS_LINUX;
  if negb os then Some false else
  a ← image_check_arch rd_hdr arch;
  if negb a then Some false else
  image_check_type rd_hdr IH_TYPE_RAMDISK.

Definition image_get_fdt (fdt_addr : Z) (fdt_hdr : list Z) : option bool :=
  hcrc ← image_check_hcrc fdt_hdr;
  if negb hcrc then Some false else
  dcrc ← image_check_dcrc fdt_addr fdt_hdr;
  if negb dcrc then Some false else
  t ← image_check_type fdt_hdr IH_TYPE_FLATDT;
  if negb t then Some false else
  c ← image_get_comp fdt_hdr;
  if negb (c =? IH_COMP_NONE) then Some false else
  data ← at_ fdt_hdr image_get_header_size;
  e ← fdt_check_header data; Some (e =? 0).

(** Memory: [memmove], and an operation on the blob at an address. *)
Definition memmove (m : Z -> Z) (dest src n : Z) : Z -> Z := Prelude.store m dest (load m src (Z.to_nat n)).

(** [memmove_wd] without a watchdog. *)
Definition memmove_wd (m : Z -> Z) (to from len : Z) : Z -> Z := if to =? from then m else memmove m to from len.

Section BootImages.
Context (ram_end : Z) (junk : list Z) (load_addr : Z).

Definition view (m : Z -> Z) (addr : Z) : list Z := load m addr (Z.to_nat (ram_end - addr)).

Definition on_fdt {A} (m : Z -> Z) (addr : Z) (f : list Z -> option (A * list Z)) : option (A * (Z -> Z)) :=
  '(r, l) ← f (view m addr); Some (r, Prelude.store m addr l).

Definition fit_check_ramdisk (base : Z) (fit : list Z) (rd_noffset arch : Z) (verify : bool) : option bool :=
  hashes ← (if verify then fit_image_check_hashes base junk fit rd_noffset else Some true);
  if negb hashes then Some false else
  os ← fit_image_check_os fit rd_noffset IH_OS_LINUX;
  if negb os then Some false else
  a ← fit_image_check_arch fit rd_noffset arch;
  if negb a then Some false else
  fit_image_check_type fit rd_noffset IH_TYPE_RAMDISK.

Definition fit_check_fdt (base : Z) (fit : list Z) (fdt_noffset : Z) (verify : bool) : option bool :=
  hashes ← (if verify then fit_image_check_hashes base junk fit fdt_noffset else Some true);
  if negb hashes then Some false else
  t ← fit_image_check_type fit fdt_noffset IH_TYPE_FLATDT;
  if negb t then Some false else
  fit_image_check_comp fit fdt_noffset IH_COMP_NONE.

(** ** [boot_get_ramdisk] *)

(** The image and the names in it, or an early return. *)
Definition ramdisk_argument (im : boot_images) (arg : option (list Z)) (m : Z -> Z)
    : option (Z + Z * option (list Z) * option (list Z)) :=
  match arg with
  | Some _ =>
      let default_addr := if fit_uname_os im then fit_hdr_os im else load_addr in
      r ← parse_argument default_addr arg; Some (inr r)
  | None =>
      let fit := view m (fit_hdr_os im) in
      cfg_noffset ← fit_conf_get_node fit (fit_uname_cfg im);
      if cfg_noffset <? 0 then Some (inl 1) else
      rd_noffset ← fit_conf_get_ramdisk_node fit cfg_noffset;
      if rd_noffset <? 0 then Some (inl 0) else Some (inr (fit_hdr_os im, fit_uname_cfg im, None))
  end.

(** The node of the component in a FIT image, and whether its name is known;
    [None] inside for no configuration. *)
Definition component_node (get : list Z -> Z -> option Z) (fit : list Z) (conf uname : option (list Z))
    : option (option (Z * bool)) :=
  match uname with
  | None =>
      cfg_noffset ← fit_conf_get_node fit conf;
      if cfg_noffset <? 0 then Some None else
      noffset ← get fit cfg_noffset; name ← fit_get_name fit noffset; Some (Some (noffset, negb (FdtSupport.null name)))
  | Some name => noffset ← fit_image_get_node fit name; Some (Some (noffset, true))
  end.

(** The FIT branch of the [switch]: data and length, and [fit_hdr_rd]. *)
Definition get_fit_ramdisk (addr : Z) (conf uname : option (list Z)) (arch : Z) (verify : bool) (m : Z -> Z)
    : option (option (Z * Z * option Z)) :=
  let fit := view m addr in
  ok ← fit_check_format fit;
  if negb ok then Some None else
  node ← component_node fit_conf_get_ramdisk_node fit conf uname;
  match node with
  | None => Some None
  | Some (rd_noffset, named) =>
      if rd_noffset <? 0 then Some None else
      ok ← fit_check_ramdisk addr fit rd_noffset arch verify;
      if negb ok then Some None else
      d ← fit_image_get_data fit rd_noffset;
      match d with
      | None => Some None
      | Some (data, size) =>
          l ← fit_image_get_load fit rd_noffset;
          Some (match l with
                | inl _ => None
                | inr _ => Some (u32 (addr + data), size, if named : bool then Some addr else None)
                end)
      end
  end.

(** Return value, [*rd_start] and [*rd_end], and the images.  [args] are the
    arguments from the kernel's on. *)
Definition boot_get_ramdisk (im : boot_images) (args : list (list Z)) (arch : Z) (m : Z -> Z)
    : option (Z * (Z * Z) * boot_images) :=
  let finish rd_data rd_len im :=
    Some (0, if rd_data =? 0 then (0, 0) else (rd_data, u32 (rd_data + rd_len)), im) in
  let arg := args !! 1%nat in
  skip ← match arg with Some a => r ← strcmp a (cstr (bytes_of "-")); Some (r =? 0) | None => Some false end;
  if skip : bool then finish 0 0 im else
  if negb (FdtSupport.null arg) || genimg_has_config im then
    place ← ramdisk_argument im arg m;
    match place with
    | inl ret => Some (ret, (0, 0), im)
    | inr (rd_addr, conf, uname) =>
        let hdr := view m rd_addr in
        format ← genimg_get_format hdr;
        if format =? IMAGE_FORMAT_LEGACY then
          ok ← image_get_ramdisk rd_addr hdr arch (verify im);
          if negb ok then Some (1, (0, 0), im) else
          size ← image_get_size hdr;
          finish (u32 (rd_addr + image_get_header_size)) size im
        else if format =? IMAGE_FORMAT_FIT then
          r ← get_fit_ramdisk rd_addr conf uname arch (verify im) m;
          match r with
          | None => Some (1, (0, 0), im)
          | Some (data, len, hdr) => finish data len (with_rd hdr im)
          end
        else Some (1, (0, 0), im)
    end
  else
    match legacy_os im with
    | Some (addr, type) =>
        if type =? IH_TYPE_MULTI
        then '(data, len) ← image_multi_getimg addr (view m addr) 1; finish data len im
        else finish 0 0 im
    | None => finish 0 0 im
    end.

(** ** [boot_get_fdt] *)

Definition fdt_argument (im : boot_images) (arg : option (list Z)) (m : Z -> Z)
    : option (Z + Z * option (list Z) * option (list Z)) :=
  match arg with
  | Some _ =>
      let default_addr :=
        match fit_hdr_rd im with
        | Some rd => rd
        | None => if fit_uname_os im then fit_hdr_os im else load_addr
        end in
      r ← parse_argument default_addr arg; Some (inr r)
  | None =>
      let fit := view m (fit_hdr_os im) in
      cfg_noffset ← fit_conf_get_node fit (fit_uname_cfg im);
      if cfg_noffset <? 0 then Some (inl 0) else
      fdt_noffset ← fit_conf_get_fdt_node fit cfg_noffset;
      if fdt_noffset <? 0 then Some (inl 0) else Some (inr (fit_hdr_os im, fit_uname_cfg im, None))
  end.

(** The place of the tree and the memory; [None] inside for [goto error]. *)
Definition get_legacy_fdt (fdt_addr : Z) (m : Z -> Z) : option (option Z * (Z -> Z)) :=
  let hdr := view m fdt_addr in
  ok ← image_get_fdt fdt_addr hdr;
  if negb ok then Some (None, m) else
  size ← image_get_size hdr;
  load_start ← image_get_load hdr;
  let image_data := u32 (fdt_addr + image_get_header_size) in
  let image_end := u32 (fdt_addr + (size + image_get_header_size)) in
  let load_end := u32 (load_start + size) in
  if (load_start =? fdt_addr) || (load_start =? image_data) then Some (Some image_data, m)
  else if (load_start <? image_end) && (fdt_addr <? load_end) then Some (None, m)
  else Some (Some load_start, memmove m load_start image_data size).

Definition get_fit_fdt (addr : Z) (conf uname : option (list Z)) (verify : bool) (m : Z -> Z)
    : option (option Z * (Z -> Z)) :=
  let fit := view m addr in
  node ← component_node fit_conf_get_fdt_node fit conf uname;
  match node with
  | None => Some (None, m)
  | Some (fdt_noffset, _) =>
      if fdt_noffset <? 0 then Some (None, m) else
      ok ← fit_check_fdt addr fit fdt_noffset verify;
      if negb ok then Some (None, m) else
      d ← fit_image_get_data fit fdt_noffset;
      match d with
      | None => Some (None, m)
      | Some (data, size) =>
          b ← at_ fit data;
          e ← fdt_check_header b;
          if negb (e =? 0) then Some (None, m) else
          total ← fdt_totalsize fit;
          let image_end := u32 (addr + total) in
          l ← fit_image_get_load fit fdt_noffset;
          Some (match l with
                | inr load_start =>
                    if (load_start <? image_end) && (addr <? u32 (load_start + size)) then (None, m)
                    else (Some load_start, memmove m load_start (u32 (addr + data)) size)
                | inl _ => (Some (u32 (addr + data)), m)
                end)
      end
  end.

(** Return value, [*of_flat_tree] and [*of_size], and memory. *)
Definition boot_get_fdt (im : boot_images) (args : list (list Z)) (m : Z -> Z)
    : option (Z * (Z * Z) * (Z -> Z)) :=
  let done_ blob m := total ← fdt_totalsize (view m blob); Some (0, (blob, total), m) in
  let arg := args !! 2%nat in
  if negb (FdtSupport.null arg) || genimg_has_config im then
    place ← fdt_argument im arg m;
    match place with
    | inl ret => Some (ret, (0, 0), m)
    | inr (fdt_addr, conf, uname) =>
        let hdr := view m fdt_addr in
        format ← genimg_get_format hdr;
        '(blob, m) ←
          (if format =? IMAGE_FORMAT_LEGACY then get_legacy_fdt fdt_addr m
           else if format =? IMAGE_FORMAT_FIT then
             fit ← fit_check_format hdr;
             if fit : bool then get_fit_fdt fdt_addr conf uname (verify im) m else Some (Some fdt_addr, m)
           else Some (None, m));
        match blob with Some blob => done_ blob m | None => Some (1, (0, 0), m) end
    end
  else
    match legacy_os im with
    | Some (addr, type) =>
        if type =? IH_TYPE_MULTI then
          '(fdt_data, fdt_len) ← image_multi_getimg addr (view m addr) 2;
          if fdt_len =? 0 then Some (0, (0, 0), m) else
          let blob := view m fdt_data in
          e ← fdt_check_header blob;
          if negb (e =? 0) then Some (1, (0, 0), m) else
          total ← fdt_totalsize blob;
          if negb (total =? fdt_len) then Some (1, (0, 0), m) else done_ fdt_data m
        else Some (0, (0, 0), m)
    | None => Some (0, (0, 0), m)
    end.

(** ** Moving to where the kernel can reach *)

Section Environment.
Context (getenv : list Z -> option (list Z)) (dram_size : Z).

Definition getenv_hex (name : str) : option (option Z) :=
  match getenv (cstr name) with
  | None => Some None
  | Some s => '(v, _) ← simple_strtoul s 16; Some (Some v)
  end.

(** A [phys_size_t] has 32 bits. *)
Definition getenv_size (name : str) : option (option Z) :=
  match getenv (cstr name) with
  | None => Some None
  | Some s => '(v, _) ← simple_strtoull s 16; Some (Some (u32 v))
  end.

Definition getenv_bootm_low : option Z := v ← getenv_hex (bytes_of "bootm_low"); Some (default CONFIG_SYS_SDRAM_BASE v).

Definition getenv_bootm_size : option Z :=
  v ← getenv_size (bytes_of "bootm_size");
  match v with
  | Some v => Some v
  | None => low ← getenv_size (bytes_of "bootm_low"); Some (u32 (dram_size - default 0 low))
  end.

Definition getenv_bootm_mapsize : option Z :=
  v ← getenv_size (bytes_of "bootm_mapsize"); Some (default CONFIG_SYS_BOOTMAPSZ v).

(** The reservations of the tree are taken out of the memory to allocate
    from; addresses and sizes are cut to 32 bits. *)
Fixpoint add_rsv_regions (n : nat) (i : Z) (blob : list Z) (l : Lmb.lmb) : option Lmb.lmb :=
  match n with
  | O => Some l
  | S n =>
      r ← fdt_get_mem_rsv blob i;
      l ← match r with
          | inl _ => Some l
          | inr (addr, size) => '(_, l) ← Lmb.lmb_reserve l (u32 addr) (u32 size); Some l
          end;
      add_rsv_regions n (i + 1) blob l
  end.

Definition boot_fdt_add_mem_rsv_regions (l : Lmb.lmb) (blob : list Z) : option Lmb.lmb :=
  e ← fdt_check_header blob;
  if negb (e =? 0) then Some l else
  total ← fdt_num_mem_rsv blob;
  add_rsv_regions (Z.to_nat total) 0 blob l.

(** Return value, [*initrd_start] and [*initrd_end], tables and memory. *)
Definition boot_ramdisk_high (l : Lmb.lmb) (rd_data rd_len : Z) (initrd : Z * Z) (m : Z -> Z)
    : option (Z * (Z * Z) * Lmb.lmb * (Z -> Z)) :=
  v ← getenv_hex (bytes_of "initrd_high");
  let initrd_high := default 0xffffffff v in
  let initrd_copy_to_ram := match v with Some v => negb (v =? 0xffffffff) | None => true end in
  if rd_data =? 0 then Some (0, (0, 0), l, m) else
  if negb initrd_copy_to_ram then
    '(_, l) ← Lmb.lmb_reserve l rd_data rd_len; Some (0, (rd_data, u32 (rd_data + rd_len)), l, m)
  else
    '(initrd_start, l) ← (if initrd_high =? 0 then Lmb.lmb_alloc l rd_len 0x1000
                          else Lmb.lmb_alloc_base l rd_len 0x1000 initrd_high);
    if initrd_start =? 0 then Some (-1, (initrd_start, initrd.2), l, m) else
    Some (0, (initrd_start, u32 (initrd_start + rd_len)), l, memmove_wd m initrd_start rd_data rd_len).

(** Where the tree goes: [inl] is a failure, [inr (start, in place)]. *)
Definition fdt_place (l : Lmb.lmb) (fdt_blob of_len : Z) : option (option (Z * bool) * Lmb.lmb) :=
  v ← getenv_hex (bytes_of "fdt_high");
  '(of_start, in_place, l) ←
    match v with
    | Some desired_addr =>
        if desired_addr =? 0xffffffff then '(_, l) ← Lmb.lmb_reserve l fdt_blob of_len; Some (fdt_blob, true, l)
        else if negb (desired_addr =? 0) then
          '(a, l) ← Lmb.lmb_alloc_base l of_len 0x1000 desired_addr; Some (a, false, l)
        else '(a, l) ← Lmb.lmb_alloc l of_len 0x1000; Some (a, false, l)
    | None =>
        mapsize ← getenv_bootm_mapsize; low ← getenv_bootm_low;
        '(a, l) ← Lmb.lmb_alloc_base l of_len 0x1000 (u32 (mapsize + low)); Some (a, false, l)
    end;
  Some (if of_start =? 0 then None else Some (of_start, in_place), l).

(** Return value, [*of_flat_tree] and [*of_size], tables and memory; that the
    address also goes into the environment is left to the caller. *)
Definition boot_relocate_fdt (l : Lmb.lmb) (tree : Z * Z) (m : Z -> Z)
    : option (Z * (Z * Z) * Lmb.lmb * (Z -> Z)) :=
  let '(fdt_blob, of_size) := tree in
  if of_size =? 0 then Some (0, tree, l, m) else
  e ← fdt_check_header (view m fdt_blob);
  if negb (e =? 0) then Some (1, tree, l, m) else
  let of_len := u32 (of_size + CONFIG_SYS_FDT_PAD) in
  '(place, l) ← fdt_place l fdt_blob of_len;
  match place with
  | None => Some (1, tree, l, m)
  | Some (of_start, true) =>
      blob ← fdt_set_totalsize (view m of_start) of_len;
      Some (0, (of_start, of_len), l, Prelude.store m of_start blob)
  | Some (of_start, false) =>
      '(err, ram) ← fdt_open_into (view m 0) fdt_blob of_start of_len;
      let m := Prelude.store m 0 ram in
      if negb (err =? 0) then Some (1, tree, l, m) else Some (0, (of_start, of_len), l, m)
  end.

End Environment.
End BootImages.

(** ** Memory *)

Lemma load_drop m a n k : drop k (load m a n) = load m (a + Z.of_nat k) (n - k).
Proof.
  destruct (decide (k <= n)%nat).
  - replace n with (k + (n - k))%nat at 1 by lia. rewrite load_app. apply drop_app_length'. by rewrite load_length.
  - replace (n - k)%nat with 0%nat by lia. apply drop_ge. rewrite load_length. lia.
Qed.

Lemma load_take m a n k : take k (load m a n) = load m a (Nat.min k n).
Proof.
  destruct (decide (k <= n)%nat).
  - replace n with (k + (n - k))%nat at 1 by lia. rewrite load_app, Nat.min_l by done. apply take_app_length'. by rewrite load_length.
  - rewrite Nat.min_r by lia. apply take_ge. rewrite load_length. lia.
Qed.

Lemma view_drop ram_end m a k : (k <= Z.to_nat (ram_end - a))%nat -> drop k (view ram_end m a) = view ram_end m (a + Z.of_nat k).
Proof. intros Hk. unfold view. rewrite load_drop. f_equal. lia. Qed.

Lemma at_view ram_end m p : 0 <= p <= ram_end -> at_ (view ram_end m 0) p = Some (view ram_end m p).
Proof.
  intros Hp. unfold at_. destruct (Z.ltb_spec p 0); [lia|]. rewrite view_drop by lia. do 2 f_equal. lia.
Qed.

Lemma length_view ram_end m a : length (view ram_end m a) = Z.to_nat (ram_end - a).
Proof. apply load_length. Qed.

Lemma bytes_load m a n : (forall x, in_word 8 (m x)) -> bytes (load m a n).
Proof. intros H. unfold load. by apply Forall_map, Forall_true. Qed.

(** What moving does: the bytes are there and nothing else changes. *)
Lemma memmove_wd_spec m to from len : 0 <= len ->
  load (memmove_wd m to from len) to (Z.to_nat len) = load m from (Z.to_nat len)
  /\ forall x, x < to \/ to + len <= x -> memmove_wd m to from len x = m x.
Proof.
  intros Hl. unfold memmove_wd, memmove. destruct (Z.eqb_spec to from) as [->|]; [done|]. split.
  - pose proof (load_store m to (load m from (Z.to_nat len))) as H. by rewrite load_length in H.
  - intros x Hx. apply store_out. rewrite load_length. lia.
Qed.

(** A store changes only what differs. *)
Lemma store_same m a l x : (a <= x < a + Z.of_nat (length l) -> l !! Z.to_nat (x - a) = Some (m x)) ->
  Prelude.store m a l x = m x.
Proof.
  intros H. destruct (decide (a <= x < a + Z.of_nat (length l))) as [Hx|Hx]; [|apply store_out; lia].
  unfold Prelude.store. destruct (Z.leb_spec a x); [|lia]. destruct (Z.ltb_spec x (a + Z.of_nat (length l))); [|lia].
  cbn [andb]. by apply nth_lookup_Some, H.
Qed.

Lemma load_lookup m a n i : (i < n)%nat -> load m a n !! i = Some (m (a + Z.of_nat i)).
Proof. intros Hi. unfold load. rewrite list_lookup_fmap, lookup_seq_lt by done. done. Qed.

Lemma store_tail_same m a l k x : drop k l = drop k (load m a (length l)) -> a + Z.of_nat k <= x ->
  Prelude.store m a l x = m x.
Proof.
  intros Hd Hx. apply store_same. intros Hin. replace (Z.to_nat (x - a)) with (k + Z.to_nat (x - a - Z.of_nat k))%nat by lia.
  rewrite <- lookup_drop, Hd, lookup_drop, load_lookup by lia. do 2 f_equal. lia.
Qed.

Lemma store_head_same m a l k x : take k l = take k (load m a (length l)) -> x < a + Z.of_nat k ->
  Prelude.store m a l x = m x.
Proof.
  intros Ht Hx. apply store_same. intros Hin. rewrite <- (lookup_take_lt l k) by lia. rewrite Ht, lookup_take_lt, load_lookup by lia.
  do 2 f_equal. lia.
Qed.

(** ** The ramdisk *)

(** No page of free memory below the limit, or no row for the reservation. *)
Definition no_place (l : Lmb.lmb) (len limit : Z) : Prop :=
  Lmb.cnt (Lmb.reserved l) = Lmb.MAX_LMB_REGIONS
  \/ forall p c, p ∈ Lmb.active (Lmb.memory l) -> ~ Lmb.fits len 12 limit (Lmb.reserved l) p c.

Lemma boot_ramdisk_high_spec getenv l rd_data rd_len initrd m high :
  getenv_hex getenv (bytes_of "initrd_high") = Some high -> high <> Some 0xffffffff ->
  rd_data <> 0 -> 0 < rd_len < 2 ^ 32 ->
  let limit := default 0xffffffff high in
  limit = 0 \/ rd_len <= limit < 2 ^ 32 ->
  Lmb.pages l -> Lmb.lmb_ok Lmb.table (Lmb.reserved l) ->
  exists ret se l' m', boot_ramdisk_high getenv l rd_data rd_len initrd m = Some (ret, se, l', m')
    /\ Lmb.memory l' = Lmb.memory l /\
    (ret = 0 /\ se.2 = se.1 + rd_len /\ Lmb.taken l rd_len limit se.1 l'
       /\ load m' se.1 (Z.to_nat rd_len) = load m rd_data (Z.to_nat rd_len)
       /\ (forall x, x < se.1 \/ se.1 + rd_len <= x -> m' x = m x)
     \/ ret = -1 /\ m' = m
        /\ no_place l rd_len limit)
    /\ (ret = 0 -> Lmb.lmb_ok Lmb.separated (Lmb.reserved l) -> Lmb.long 0x1000 (Lmb.reserved l) ->
        Lmb.lmb_ok Lmb.table (Lmb.reserved l')).
Proof.
  intros Hg Hne Hrd Hlen limit Hlim Hp Hok. unfold boot_ramdisk_high. rewrite Hg. cbn [mbind option_bind].
  fold limit. destruct (Z.eqb_spec rd_data 0); [done|].
  replace (negb match high with Some v => negb (v =? 0xffffffff) | None => true end) with false
    by (destruct high as [v|]; [by destruct (Z.eqb_spec v 0xffffffff); [subst|]|done]).
  destruct (Lmb.lmb_alloc_page l rd_len limit Hlen Hlim Hp Hok) as (a & l' & E & Hm & Hcase & Hkeep).
  replace (if limit =? 0 then Lmb.lmb_alloc l rd_len 0x1000 else Lmb.lmb_alloc_base l rd_len 0x1000 limit) with (Some (a, l'))
    by (destruct (Z.eqb_spec limit 0) as [E0|]; [unfold Lmb.lmb_alloc, Lmb.LMB_ALLOC_ANYWHERE; by rewrite <- E0|done]).
  cbn [mbind option_bind]. destruct (Z.eqb_spec a 0) as [->|Ha].
  - eexists _, _, l', m. split; [done|]. split; [done|]. split; [|done]. right. split_and!; [done|done|].
    destruct Hcase as [[? _]|[_ Hno]]; [done|exact Hno].
  - destruct Hcase as [Ht|[? _]]; [|done]. destruct (memmove_wd_spec m a rd_data rd_len) as [Hb Hout]; [lia|].
    eexists _, _, l', _. split; [done|]. split; [done|]. cbn [fst snd]. split; [|by intros _; apply Hkeep]. left.
    assert (He : a + rd_len < 2 ^ 32 /\ 0 <= a).
    { destruct Ht as (_ & (b & Hin & Hfit) & _). destruct Hp as (_ & Hv & Hroom). rewrite Forall_forall in Hv, Hroom.
      specialize (Hroom b Hin). specialize (Hv b Hin). destruct Hfit as (_ & _ & H1 & H2 & _).
      destruct Hv as [(? & ? & ?)| ->]; cbn [Lmb.base Lmb.size] in *; lia. }
    rewrite u32_small by lia. done.
Qed.


(** ** What finding the images changes *)

Lemma boot_get_ramdisk_found ram_end junk load_addr im args arch m ret r im' :
  boot_get_ramdisk ram_end junk load_addr im args arch m = Some (ret, r, im') -> exists rd, im' = with_rd rd im.
Proof.
  assert (Hs : forall i, i = im -> exists rd, i = with_rd rd im) by (intros i ->; exists (fit_hdr_rd im); by destruct im).
  unfold boot_get_ramdisk. intros (skip & _ & H)%bind_Some. destruct skip; [injection H as _ _ H; by apply Hs|].
  destruct (_ || _).
  - apply bind_Some in H as (place & _ & H). destruct place as [e|[[addr conf] uname]]; [injection H as _ _ H; by apply Hs|].
    apply bind_Some in H as (format & _ & H). destruct (format =? _).
    + apply bind_Some in H as (ok & _ & H). destruct ok; [|injection H as _ _ H; by apply Hs].
      apply bind_Some in H as (size & _ & H). injection H as _ _ H. by apply Hs.
    + destruct (format =? _); [|injection H as _ _ H; by apply Hs]. apply bind_Some in H as (x & _ & H).
      destruct x as [[[data len] hdr]|]; injection H as _ _ H; [by eexists|by apply Hs].
  - destruct (legacy_os im) as [[addr type]|]; [|injection H as _ _ H; by apply Hs].
    destruct (type =? _); [|injection H as _ _ H; by apply Hs]. apply bind_Some in H as ([data len] & _ & H).
    injection H as _ _ H. by apply Hs.
Qed.

(** Memory as it was, or with a block moved: a tree to its load address. *)
Definition tree_moved (m m' : Z -> Z) : Prop := m' = m \/ exists dest src n, m' = memmove m dest src n.

Lemma get_legacy_fdt_memory ram_end addr m r m' : get_legacy_fdt ram_end addr m = Some (r, m') -> tree_moved m m'.
Proof.
  unfold get_legacy_fdt. intros (ok & _ & H)%bind_Some. destruct ok; [|injection H as _ <-; by left]. cbn [negb] in H.
  apply bind_Some in H as (size & _ & H). apply bind_Some in H as (start & _ & H).
  destruct (_ || _); [injection H as _ <-; by left|]. destruct (_ && _); injection H as _ <-; [by left|right; by eexists _, _, _].
Qed.

Lemma get_fit_fdt_memory ram_end junk addr conf uname v m r m' :
  get_fit_fdt ram_end junk addr conf uname v m = Some (r, m') -> tree_moved m m'.
Proof.
  unfold get_fit_fdt. intros (node & _ & H)%bind_Some. destruct node as [[n named]|]; [|injection H as _ <-; by left].
  destruct (n <? 0); [injection H as _ <-; by left|]. apply bind_Some in H as (ok & _ & H).
  destruct ok; [|injection H as _ <-; by left]. cbn [negb] in H. apply bind_Some in H as (d & _ & H).
  destruct d as [[data size]|]; [|injection H as _ <-; by left].
  apply bind_Some in H as (b & _ & H). apply bind_Some in H as (e & _ & H). destruct (negb _); [injection H as _ <-; by left|].
  apply bind_Some in H as (total & _ & H). apply bind_Some in H as (l & _ & H).
  destruct l as [|l]; [injection H as _ <-; by left|]. destruct (_ && _); injection H as _ <-; [by left|right; by eexists _, _, _].
Qed.

Lemma boot_get_fdt_memory ram_end junk load_addr im args m ret f m' :
  boot_get_fdt ram_end junk load_addr im args m = Some (ret, f, m') -> tree_moved m m'.
Proof.
  assert (Hd : forall blob m1, (total ← fdt_totalsize (view ram_end m1 blob); Some (0, (blob, total), m1)) = Some (ret, f, m') -> m' = m1)
    by (intros blob m1 (t & _ & E)%bind_Some; by injection E).
  unfold boot_get_fdt. destruct (_ || _).
  - intros (place & _ & H)%bind_Some. destruct place as [e|[[addr conf] uname]]; [injection H as _ _ <-; by left|].
    apply bind_Some in H as (format & _ & H). apply bind_Some in H as ([blob m1] & Hm & H).
    assert (tree_moved m m1).
    { destruct (format =? _); [by eapply get_legacy_fdt_memory|]. destruct (format =? _); [|injection Hm as _ <-; by left].
      apply bind_Some in Hm as (fit & _ & Hm). destruct fit; [by eapply get_fit_fdt_memory|injection Hm as _ <-; by left]. }
    destruct blob as [blob|]; [by rewrite (Hd _ _ H)|by injection H as _ _ <-].
  - destruct (legacy_os im) as [[addr type]|]; [|intros H; injection H as _ _ <-; by left].
    destruct (type =? _); [|intros H; injection H as _ _ <-; by left]. intros ([data len] & _ & H)%bind_Some.
    destruct (len =? 0); [injection H as _ _ <-; by left|]. apply bind_Some in H as (e & _ & H).
    destruct (negb _); [injection H as _ _ <-; by left|]. apply bind_Some in H as (total & _ & H).
    destruct (negb _); [injection H as _ _ <-; by left|]. left. by apply Hd in H.
Qed.

(** ** What is accepted as a ramdisk *)

Section Accepted.
Context (ram_end : Z) (junk : list Z) (load_addr : Z) (m : Z -> Z).
Hypothesis junk_len : length junk = 128%nat.
Hypothesis junk_bytes : bytes junk.
Hypothesis m_bytes : forall x, in_word 8 (m x).

(** A legacy ramdisk image at [addr], with both checksums right. *)
Definition legacy_ramdisk (addr arch start len : Z) : Prop :=
  let hdr := view ram_end m addr in
  image_get_magic hdr = Some IH_MAGIC /\ crcs_right hdr
  /\ image_get_os hdr = Some IH_OS_LINUX /\ image_get_arch hdr = Some arch /\ image_get_type hdr = Some IH_TYPE_RAMDISK
  /\ image_get_size hdr = Some len /\ start = u32 (addr + image_get_header_size).

(** A component of the FIT image at [addr], of which every hash is right. *)
Definition fit_ramdisk (addr arch start len : Z) : Prop :=
  let fit := view ram_end m addr in
  exists n data, fit_image_get_data fit n = Some (Some (data, len)) /\ start = u32 (addr + data)
    /\ (forall k, below fit n k 1 -> hash_holds fit data len k)
    /\ fit_image_get_os fit n = Some (0, IH_OS_LINUX) /\ fit_image_get_arch fit n = Some (0, arch)
    /\ fit_image_get_type fit n = Some (0, IH_TYPE_RAMDISK).

(** The second component of the kernel's own image. *)
Definition second_component (im : boot_images) (start len : Z) : Prop :=
  exists addr, legacy_os im = Some (addr, IH_TYPE_MULTI)
    /\ image_multi_getimg addr (view ram_end m addr) 1 = Some (start, len).

Lemma check_ok (get : list Z -> option Z) hdr v :
  (o ← get hdr; Some (o =? v)) = Some true -> get hdr = Some v.
Proof using. intros (o & -> & [= ->%Z.eqb_eq])%bind_Some. done. Qed.

Lemma legacy_ramdisk_ok addr arch len : image_get_ramdisk addr (view ram_end m addr) arch true = Some true ->
  image_get_size (view ram_end m addr) = Some len ->
  legacy_ramdisk addr arch (u32 (addr + image_get_header_size)) len.
Proof using m_bytes.
  unfold image_get_ramdisk. intros (magic & Hm & H)%bind_Some Hs. destruct magic; [|done]. cbn [negb] in H.
  apply bind_Some in H as (hcrc & Hh & H). destruct hcrc; [|done]. cbn [negb] in H.
  apply bind_Some in H as (dcrc & Hd & H). destruct dcrc; [|done]. cbn [negb] in H.
  apply bind_Some in H as (os & Ho & H). destruct os; [|done]. cbn [negb] in H.
  apply bind_Some in H as (a & Ha & H). destruct a; [|done]. cbn [negb] in H.
  apply check_ok in Hm, Ho, Ha, H. unfold legacy_ramdisk. split_and!; try done.
  apply (crcs_ok addr); [by apply bytes_load|done|done].
Qed.

Lemma fit_ramdisk_ok addr conf uname arch start len hdr :
  get_fit_ramdisk ram_end junk addr conf uname arch true m = Some (Some (start, len, hdr)) -> fit_ramdisk addr arch start len.
Proof using junk_len junk_bytes m_bytes.
  unfold get_fit_ramdisk. intros (ok & _ & H)%bind_Some. destruct ok; [|done]. cbn [negb] in H.
  apply bind_Some in H as (node & _ & H). destruct node as [[n named]|]; [|done]. destruct (n <? 0); [done|].
  apply bind_Some in H as (ok & Hck & H). destruct ok; [|done]. cbn [negb] in H.
  apply bind_Some in H as (d & Hd & H). destruct d as [[data size]|]; [|done].
  apply bind_Some in H as (l & _ & H). destruct l as [|l]; [done|]. injection H as <- <- <-.
  unfold fit_check_ramdisk in Hck. apply bind_Some in Hck as (hashes & Hh & H). destruct hashes; [|done]. cbn [negb] in H.
  apply check_hashes_ok in Hh as (data' & size' & Hd' & Hok); [|done|done|by apply bytes_load].
  rewrite Hd in Hd'. injection Hd' as <- <-. exists n, data. split; [done|]. split; [done|]. split; [done|].
  apply bind_Some in H as (os & Ho & H). destruct os; [|done]. cbn [negb] in H.
  apply bind_Some in H as (a & Ha & H). destruct a; [|done]. cbn [negb] in H.
  apply check_code_ok in Ho as (? & ? & ->), Ha as (? & ? & ->), H as (? & ? & ->). done.
Qed.

(** C30: with verification on, a ramdisk that [boot_get_ramdisk] hands to the
    kernel is a legacy ramdisk image for Linux on this architecture with both
    checksums right, a component of a FIT image of that kind with every hash
    right, or the second component of the kernel's own legacy image; its
    length is that of the data checked. *)
Theorem boot_get_ramdisk_sound im args arch start end_ im' :
  verify im = true ->
  boot_get_ramdisk ram_end junk load_addr im args arch m = Some (0, (start, end_), im') -> start <> 0 ->
  exists len, end_ = u32 (start + len) /\
    ((exists addr, legacy_ramdisk addr arch start len) \/ (exists addr, fit_ramdisk addr arch start len)
     \/ second_component im start len).
Proof using junk_len junk_bytes m_bytes.
  intros Hv H Hs. unfold boot_get_ramdisk in H. rewrite Hv in H.
  assert (Hfin : forall (data len : Z) (i : boot_images),
    Some (0, if data =? 0 then (0, 0) else (data, u32 (data + len)), i) = Some (0, (start, end_), im') ->
    data = start /\ end_ = u32 (start + len)).
  { intros data len i E. destruct (data =? 0); by injection E as <- <- <-. }
  apply bind_Some in H as (skip & _ & H). destruct skip; [by apply Hfin in H as [<- _]|].
  destruct (_ || _).
  - apply bind_Some in H as (place & _ & H). destruct place as [ret|[[addr conf] uname]]; [by injection H as _ <- _ _|].
    apply bind_Some in H as (format & _ & H). destruct (format =? IMAGE_FORMAT_LEGACY).
    + apply bind_Some in H as (ok & Hok & H). destruct ok; [|done]. cbn [negb] in H.
      apply bind_Some in H as (size & Hsz & H). apply Hfin in H as [<- ->]. exists size. split; [done|]. left.
      exists addr. by apply legacy_ramdisk_ok.
    + destruct (format =? IMAGE_FORMAT_FIT); [|done]. apply bind_Some in H as (r & Hr & H).
      destruct r as [[[data len] hdr]|]; [|done]. apply Hfin in H as [-> ->]. exists len. split; [done|]. right. left.
      exists addr. by eapply fit_ramdisk_ok.
  - destruct (legacy_os im) as [[addr type]|] eqn:El; [|by apply Hfin in H as [<- _]].
    destruct (Z.eqb_spec type IH_TYPE_MULTI) as [->|]; [|by apply Hfin in H as [<- _]].
    apply bind_Some in H as ([data len] & Hg & H). apply Hfin in H as [-> ->]. exists len. split; [done|]. right. right.
    by exists addr.
Qed.

End Accepted.

(** A ramdisk in a legacy image, named by its address. *)
Definition ramdisk_header (data : list Z) (hcrc : Z) : list Z :=
  be_bytes 4 IH_MAGIC ++ be_bytes 4 hcrc ++ be_bytes 4 0 ++ be_bytes 4 (Z.of_nat (length data)) ++ be_bytes 4 0 ++ be_bytes 4 0
  ++ be_bytes 4 (Crc32.crc32 0 0 data) ++ [IH_OS_LINUX; IH_INITRD_ARCH; IH_TYPE_RAMDISK; 0] ++ replicate 32 0.

Definition ramdisk_image : list Z :=
  let data := bytes_of "initrd" in ramdisk_header data (Crc32.crc32 0 0 (ramdisk_header data 0)) ++ data.

Definition ramdisk_memory : Z -> Z := Prelude.store (fun _ => 0) 0x2000000 ramdisk_image.

Definition some_images : boot_images := Images None 0 false None None true.

Example ramdisk_found :
  boot_get_ramdisk 0x2000046 (replicate 128 0) 0x2000000 some_images [cstr (bytes_of "1000000"); cstr (bytes_of "2000000")]
    IH_INITRD_ARCH ramdisk_memory = Some (0, (0x2000040, 0x2000046), some_images).
Proof. vm_compute. reflexivity. Qed.

Lemma boot_get_ramdisk_sound_witness :
  exists len, 0x2000046 = u32 (0x2000040 + len) /\
    ((exists addr, legacy_ramdisk 0x2000046 ramdisk_memory addr IH_INITRD_ARCH 0x2000040 len)
     \/ (exists addr, fit_ramdisk 0x2000046 ramdisk_memory addr IH_INITRD_ARCH 0x2000040 len)
     \/ second_component 0x2000046 ramdisk_memory some_images 0x2000040 len).
Proof.
  refine (boot_get_ramdisk_sound 0x2000046 (replicate 128 0) 0x2000000 ramdisk_memory eq_refl _ _ some_images
    [cstr (bytes_of "1000000"); cstr (bytes_of "2000000")] IH_INITRD_ARCH 0x2000040 0x2000046 some_images eq_refl ramdisk_found _);
    [apply (bool_decide_unpack _); vm_compute; exact I| |done].
  apply store_bytes; [done|]. apply (bool_decide_unpack _). vm_compute. exact I.
Defined.

(** ** The tree *)

Import FdtParts FdtOpen.

(** The limit for the tree, 0 for none; with all ones it stays in place. *)
Definition fdt_limit (getenv : list Z -> option (list Z)) : option Z :=
  v ← getenv_hex getenv (bytes_of "fdt_high");
  match v with
  | Some desired_addr => Some desired_addr
  | None => mapsize ← getenv_bootm_mapsize getenv; low ← getenv_bootm_low getenv; Some (u32 (mapsize + low))
  end.

Lemma fdt_place_spec getenv l blob len limit :
  fdt_limit getenv = Some limit -> getenv_hex getenv (bytes_of "fdt_high") <> Some (Some 0xffffffff) ->
  fdt_place getenv l blob len
  = '(a, l') ← Lmb.lmb_alloc_base l len 0x1000 limit; Some (if a =? 0 then None else Some (a, false), l').
Proof.
  unfold fdt_limit, fdt_place. destruct (getenv_hex _ _) as [[d|]|]; [| |done]; cbn [mbind option_bind].
  - intros [= ->] Hne. destruct (Z.eqb_spec limit 0xffffffff) as [->|]; [done|].
    destruct (Z.eqb_spec limit 0) as [->|]; cbn [negb]; unfold Lmb.lmb_alloc, Lmb.LMB_ALLOC_ANYWHERE;
      by destruct (Lmb.lmb_alloc_base _ _ _ _) as [[a l']|].
  - intros (ms & -> & (low & -> & [= <-])%bind_Some)%bind_Some _. cbn [mbind option_bind].
    by destruct (Lmb.lmb_alloc_base _ _ _ _) as [[a l']|].
Qed.

(** Memory that can be handed out is RAM. *)
Definition in_ram (ram_end : Z) (l : Lmb.lmb) : Prop :=
  Forall (fun p => Lmb.base p + Lmb.size p <= ram_end) (Lmb.active (Lmb.memory l)).

Lemma taken_in_ram ram_end l s limit a l' : 0 < s -> Lmb.pages l -> in_ram ram_end l -> Lmb.taken l s limit a l' ->
  0 <= a /\ a + s <= ram_end.
Proof.
  intros Hs (_ & Hv & _) Hr (_ & (b & Hin & Hfit) & _). rewrite Forall_forall in Hv. unfold in_ram in Hr.
  rewrite Forall_forall in Hr. specialize (Hv b Hin). specialize (Hr b Hin). destruct Hfit as (_ & _ & H1 & H2 & _).
  destruct Hv as [(? & ? & ?)| ->]; cbn [Lmb.base Lmb.size] in *; lia.
Qed.

Lemma boot_relocate_fdt_spec ram_end getenv l blob m b rs limit :
  0 <= blob <= ram_end -> ram_end < 2 ^ 31 - 16 -> (forall x, in_word 8 (m x)) ->
  wf b -> rsvs b rs -> view ram_end m blob = flat b ->
  fdt_limit getenv = Some limit -> getenv_hex getenv (bytes_of "fdt_high") <> Some (Some 0xffffffff) ->
  let len := b_total b + CONFIG_SYS_FDT_PAD in
  limit = 0 \/ len <= limit < 2 ^ 32 ->
  Lmb.pages l -> in_ram ram_end l -> Lmb.lmb_ok Lmb.table (Lmb.reserved l) ->
  exists ret tree l' m', boot_relocate_fdt ram_end getenv l (blob, b_total b) m = Some (ret, tree, l', m')
    /\ Lmb.memory l' = Lmb.memory l /\
    (ret = 0 /\ tree.2 = len /\ Lmb.taken l len limit tree.1 l'
       /\ (exists F, wf (with_total b len F) /\ view ram_end m' tree.1 = flat (with_total b len F))
       /\ (forall x, x < tree.1 \/ tree.1 + len <= x -> m' x = m x)
     \/ ret = 1 /\ m' = m
        /\ no_place l len limit).
Proof.
  intros Hblob Hram HB W Hrs Hv Hlimit Hne len Hlim Hp Hr Hok. pose proof (wf_total b W) as Ht. pose proof (wf_len b W) as Hl.
  assert (0 < data_size b) by (unfold data_size, off_strings, off_struct, HDR_SIZE; lia).
  unfold boot_relocate_fdt. destruct (Z.eqb_spec (b_total b) 0); [lia|]. rewrite Hv.
  pose proof (FdtTree.check_header_ok _ _ _ (wf_layout b W)) as Hc. fold (flat b) in Hc. rewrite Hc.
  cbn [mbind option_bind Z.eqb negb]. rewrite (fdt_place_spec getenv l blob _ limit) by done.
  assert (El : u32 (b_total b + CONFIG_SYS_FDT_PAD) = len) by (unfold len, CONFIG_SYS_FDT_PAD; rewrite u32_small by lia; done).
  rewrite El. assert (Hlen : 0 < len < 2 ^ 32) by (unfold len, CONFIG_SYS_FDT_PAD; lia).
  destruct (Lmb.lmb_alloc_page l len limit Hlen Hlim Hp Hok) as (a & l' & E & Hm & Hcase & _).
  rewrite E. cbn [mbind option_bind]. destruct (Z.eqb_spec a 0) as [->|Ha].
  { eexists _, _, l', m. split; [done|]. split; [done|]. right. destruct Hcase as [[? _]|[_ Hno]]; done. }
  destruct Hcase as [Htk|[? _]]; [|done]. destruct (taken_in_ram ram_end l len limit a l' ltac:(lia) Hp Hr Htk) as [Ha0 Hae].
  pose proof (fdt_open_into_spec (view ram_end m 0) blob a len b rs (bytes_load _ _ _ HB) W Hrs
    ltac:(rewrite at_view by done; by rewrite Hv) ltac:(lia) ltac:(lia)
    ltac:(rewrite length_view; lia) ltac:(rewrite length_view; lia)) as Ho.
  destruct (Z.ltb_spec len (b_total b)); [unfold len, CONFIG_SYS_FDT_PAD in *; lia|].
  destruct Ho as (F & Ho & W' & HF). rewrite Ho. cbn [mbind option_bind Z.eqb negb].
  set (ram := take (Z.to_nat a) (view ram_end m 0) ++ flat (with_total b len F)) in *.
  assert (Hfl : Z.of_nat (length (flat (with_total b len F))) = ram_end - a).
  { assert (Hd : length (drop (Z.to_nat (b_total b - data_size b)) F) = length (drop (Z.to_nat (a + b_total b)) (view ram_end m 0)))
      by (by rewrite HF). rewrite !length_drop, length_view in Hd.
    pose proof (length_flat (with_total b len F)) as Hlf. change (data_size (with_total b len F)) with (data_size b) in Hlf.
    pose proof (wf_total _ W') as Ht'. cbn [with_total b_total b_free] in *.
    assert (Hge : (Z.to_nat (b_total b - data_size b) < length F)%nat) by (unfold len, CONFIG_SYS_FDT_PAD in *; lia).
    unfold len, CONFIG_SYS_FDT_PAD in *. lia. }
  assert (Hrl : length ram = Z.to_nat ram_end) by (unfold ram; rewrite length_app, length_take, length_view; lia).
  eexists _, _, l', _. split; [done|]. split; [done|]. left. cbn [fst snd]. split_and!; [done|done|done| |].
  - exists F. split; [done|]. replace a with (0 + Z.of_nat (Z.to_nat a)) at 1 by lia.
    rewrite <- view_drop by lia. unfold view. rewrite Z.sub_0_r, <- Hrl, load_store. unfold ram.
    apply drop_app_length'. rewrite length_take, length_view. lia.
  - intros x Hx. assert (Ez : load m 0 (length ram) = view ram_end m 0) by (unfold view; by rewrite Hrl, Z.sub_0_r).
    destruct Hx as [Hx|Hx].
    + apply (store_head_same _ _ _ (Z.to_nat a)); [|lia]. rewrite Ez. unfold ram.
      apply take_app_length'. rewrite length_take, length_view. lia.
    + apply (store_tail_same _ _ _ (Z.to_nat (a + b_total b))); [|unfold len, CONFIG_SYS_FDT_PAD in *; lia].
      rewrite Ez, <- HF. unfold ram. rewrite drop_app_ge by (rewrite length_take; lia).
      rewrite length_take_le by (rewrite length_view; lia). rewrite flat_image.
      pose proof (length_flat (with_total b len F)) as Hlf. rewrite flat_image in Hlf.
      change (data_size (with_total b len F)) with (data_size b) in Hlf.
      unfold image in *. unfold post in *. cbn [with_total b_rsv b_struct b_gap b_strings b_free] in *.
      rewrite !app_assoc in *. set (P := _ ++ b_strings b) in *. rewrite length_app in Hlf.
      rewrite drop_app_ge by lia. f_equal. lia.
Qed.

(** The tree where the kernel can reach it.  Unless fdt_high asks to leave
    it in place, [boot_relocate_fdt] returns 0 with the tree at a page of free
    memory below the limit that fdt_high or bootm_mapsize and bootm_low give:
    same reservations, structure and strings, the total size grown by the pad,
    all of that reserved, and nothing else of memory changed.  It returns 1
    only when there is no such page or the table of reservations is full, and
    then memory is as it was. *)
Theorem boot_relocate_fdt_correct ram_end getenv l blob m b rs limit :
  0 <= blob <= ram_end -> ram_end < 2 ^ 31 - 16 -> (forall x, in_word 8 (m x)) ->
  wf b -> rsvs b rs -> view ram_end m blob = flat b ->
  fdt_limit getenv = Some limit -> getenv_hex getenv (bytes_of "fdt_high") <> Some (Some 0xffffffff) ->
  let len := b_total b + CONFIG_SYS_FDT_PAD in
  limit = 0 \/ len <= limit < 2 ^ 32 ->
  Lmb.pages l -> in_ram ram_end l -> Lmb.lmb_ok Lmb.table (Lmb.reserved l) ->
  exists ret tree l' m', boot_relocate_fdt ram_end getenv l (blob, b_total b) m = Some (ret, tree, l', m')
    /\ Lmb.memory l' = Lmb.memory l /\
    (ret = 0 /\ tree.2 = len /\ Lmb.taken l len limit tree.1 l'
       /\ (exists F, wf (with_total b len F) /\ view ram_end m' tree.1 = flat (with_total b len F))
       /\ (forall x, x < tree.1 \/ tree.1 + len <= x -> m' x = m x)
     \/ ret = 1 /\ m' = m
        /\ no_place l len limit).
Proof. apply boot_relocate_fdt_spec. Qed.

End BootImages.
