(* ===== verification/BootmRun.v ===== *)
(** * Loading and starting the kernel (common/cmd_bootm.c)

    The [bootm] command: it fills the global [images] from the image that
    [boot_get_kernel] accepted, moves or decompresses the kernel to its load
    address and calls the function of the operating system.  Its subcommands do
    the same step by step, with [images.state] to keep their order.

    Memory is a function of the address; [ram_end] bounds it.  Ramdisk and
    device tree are found and moved by BootImages.  The environment, the
    board, the decompressors and the functions of the operating systems are
    the class [BootServices] on a state [S].  A command ends with an
    [outcome]; [None] is an access outside of memory or a table. *)

From S2P Require Import Prelude Crc32 Lmb Cstring Command Fdt FdtQuery Vsprintf Hash Image Fit FitSample FitSig Bootm BootImages.

Module BootmRun.
Import Cstring Fdt Vsprintf Image Fit FitSig Bootm.

#[local] Abbreviation view := BootImages.view.

Definition CMD_RET_USAGE : Z := -1.

Definition BOOTM_STATE_START : Z := 0x1.
Definition BOOTM_STATE_LOADOS : Z := 0x2.
Definition BOOTM_STATE_RAMDISK : Z := 0x4.
Definition BOOTM_STATE_FDT : Z := 0x8.
Definition BOOTM_STATE_OS_CMDLINE : Z := 0x10.
Definition BOOTM_STATE_OS_BD_T : Z := 0x20.
Definition BOOTM_STATE_OS_PREP : Z := 0x40.
Definition BOOTM_STATE_OS_GO : Z := 0x80.

Definition BOOTM_ERR_RESET : Z := -1.
Definition BOOTM_ERR_OVERLAP : Z := -2.
Definition BOOTM_ERR_UNIMPLEMENTED : Z := -3.

Definition IH_COMP_NONE : Z := 0.
Definition IH_COMP_GZIP : Z := 1.
Definition IH_COMP_BZIP2 : Z := 2.
Definition IH_COMP_LZO : Z := 4.

Definition CONFIG_SYS_BOOTM_LEN : Z := 0x800000.

Record image_info := ImageInfo {
  start : Z;
  end_ : Z;
  image_start : Z;
  image_len : Z;
  load_to : Z;
  comp : Z;
  type : Z;
  os : Z;
}.

(** [bootm_headers_t]; [found] is where the images are. *)
Record bootm_headers := Headers {
  found : BootImages.boot_images;
  fit_noffset_os : Z;
  os_info : image_info;
  ep : Z;
  rd : Z * Z;            (* rd_start, rd_end *)
  ft : Z * Z;            (* ft_addr, ft_len *)
  initrd : Z * Z;        (* initrd_start, initrd_end *)
  state : Z;
  lmb : Lmb.lmb;
}.

Definition legacy_hdr_valid (h : bootm_headers) : bool :=
  match BootImages.legacy_os (found h) with Some _ => true | None => false end.

Definition set_found (i : BootImages.boot_images) (h : bootm_headers) : bootm_headers :=
  Headers i (fit_noffset_os h) (os_info h) (ep h) (rd h) (ft h) (initrd h) (state h) (lmb h).
Definition set_os (o : image_info) (h : bootm_headers) : bootm_headers :=
  Headers (found h) (fit_noffset_os h) o (ep h) (rd h) (ft h) (initrd h) (state h) (lmb h).
Definition set_ep (e : Z) (h : bootm_headers) : bootm_headers :=
  Headers (found h) (fit_noffset_os h) (os_info h) e (rd h) (ft h) (initrd h) (state h) (lmb h).
Definition set_rd (r : Z * Z) (h : bootm_headers) : bootm_headers :=
  Headers (found h) (fit_noffset_os h) (os_info h) (ep h) r (ft h) (initrd h) (state h) (lmb h).
Definition set_ft (f : Z * Z) (h : bootm_headers) : bootm_headers :=
  Headers (found h) (fit_noffset_os h) (os_info h) (ep h) (rd h) f (initrd h) (state h) (lmb h).
Definition set_initrd (i : Z * Z) (h : bootm_headers) : bootm_headers :=
  Headers (found h) (fit_noffset_os h) (os_info h) (ep h) (rd h) (ft h) i (state h) (lmb h).
Definition set_state (s : Z) (h : bootm_headers) : bootm_headers :=
  Headers (found h) (fit_noffset_os h) (os_info h) (ep h) (rd h) (ft h) (initrd h) s (lmb h).
Definition set_lmb (l : Lmb.lmb) (h : bootm_headers) : bootm_headers :=
  Headers (found h) (fit_noffset_os h) (os_info h) (ep h) (rd h) (ft h) (initrd h) (state h) l.

(** How a command ends: it returns; it passes control to the function of an
    operating system, or to the address of a standalone program; it resets the
    board; it hangs; it enters a kernel with values in the first registers; it
    calls through a pointer that is none. *)
Inductive outcome :=
  | Return (rc : Z)
  | Hang
  | Enter (kernel_entry r0 r1 r2 : Z)
  | Boot (os flag : Z)
  | Call (addr : Z)
  | Reset_board
  | Wild_call.

(** Environment, size of the first bank, the platform's reservations of memory,
    decompressors ([uncompress comp] writes its output to the destination; 0 is
    success), functions of the operating systems. *)
Class BootServices (S : Type) := {
  getenv : S -> list Z -> option (list Z);
  setenv : list Z -> list Z -> S -> option S;
  dram_size : Z;
  lmb_reserve_platform : Lmb.lmb -> option Lmb.lmb;
  uncompress : Z -> (Z -> Z) -> Z -> Z -> Z -> Z -> Z * list Z;
  os_command : Z -> Z -> bootm_headers -> (Z -> Z) -> S -> option (outcome * bootm_headers * (Z -> Z) * S);
}.

Section Bootm.
Context {Group Point : Type} `{!Mbedtls Group Point}.
Context {S : Type} `{!BootServices S}.
Context (ram_end : Z) (junk stack keys : list Z) (load_addr : Z).

Record world := World { images : bootm_headers; ram : Z -> Z; ext : S }.

(** ** Variables *)

(** 1 for a first letter of yes or true, -1 for a variable that is not set. *)
Definition getenv_yesno (s : S) (var : str) : option Z :=
  match getenv s (cstr var) with
  | None => Some (-1)
  | Some v => c ← head v; Some (if bool_decide (c ∈ bytes_of "1yYtT") then 1 else 0)
  end.

(** [sprintf] of a number into a variable. *)
Definition setenv_num (name : str) (fmt : string) (v : Z) (s : S) : option S :=
  t ← sprintf (bytes_of fmt) [AInt v]; setenv (cstr name) t s.

Definition set_working_fdt_addr (addr : Z) (s : S) : option S := setenv_num (bytes_of "fdtaddr") "%lx" addr s.

Definition autostart_no (s : S) : option bool :=
  match getenv s (cstr (bytes_of "autostart")) with
  | None => Some false
  | Some v => r ← strcmp v (cstr (bytes_of "no")); Some (r =? 0)
  end.

(** ** [bootm_start] *)

Definition no_info : image_info := ImageInfo 0 0 0 0 0 0 0 0.
Definition no_blocks : list Lmb.lmb_property := replicate 9 (Lmb.Block 0 0).

(** [boot_start_lmb] on empty tables. *)
Definition boot_start_lmb (s : S) : option Lmb.lmb :=
  low ← BootImages.getenv_bootm_low (getenv s); size ← BootImages.getenv_bootm_size (getenv s) dram_size;
  '(_, l) ← Lmb.lmb_add (Lmb.lmb_init no_blocks no_blocks) low size;
  lmb_reserve_platform l.

(** [memset(&images, 0, ...)], [images.verify] and the memory. *)
Definition clear_images (s : S) : option bootm_headers :=
  v ← getenv_yesno s (bytes_of "verify"); l ← boot_start_lmb s;
  Some (Headers (BootImages.Images None 0 false None None (negb (v =? 0))) 0 no_info 0 (0, 0) (0, 0) (0, 0) 0 l).

(** Where [boot_get_kernel] found the kernel: a legacy image with its type, or
    a FIT image with the name of the configuration. *)
Definition kernel_found (k : kernel_image) (mem : list Z) (verify : bool) : option BootImages.boot_images :=
  match k_fit k with
  | None => t ← image_get_type mem; Some (BootImages.Images (Some (k_addr k, t)) 0 false None None verify)
  | Some (cfg, _) =>
      conf ← match cfg with
             | None => Some None
             | Some c =>
                 n ← fit_get_name mem c;
                 match n with None => Some None | Some off => p ← at_ mem off; Some (Some p) end
             end;
      Some (BootImages.Images None (k_addr k) true conf None verify)
  end.

(** What [boot_get_kernel] leaves in [images]. *)
Definition with_kernel (k : kernel_image) (f : BootImages.boot_images) (h : bootm_headers) : bootm_headers :=
  Headers f (match k_fit k with None => 0 | Some (_, n) => n end) (ImageInfo 0 0 (os_data k) (os_len k) 0 0 0 0)
    (ep h) (rd h) (ft h) (initrd h) (state h) (lmb h).

(** The image parameters, with the return value: 0 to go on, or 1. *)
Definition legacy_info (hdr : list Z) (addr : Z) (h : bootm_headers) : option (Z * bootm_headers) :=
  t ← image_get_type hdr; c ← image_get_comp hdr; o ← image_get_os hdr;
  size ← image_get_size hdr; l ← image_get_load hdr; e ← image_get_ep hdr;
  let i := os_info h in
  Some (0, set_ep e (set_os (ImageInfo (start i) (u32 (addr + (size + image_get_header_size))) (image_start i)
                               (image_len i) l c t o) h)).

Definition fit_info (fit : list Z) (addr noffset : Z) (h : bootm_headers) : option (Z * bootm_headers) :=
  let i := os_info h in
  '(e1, t) ← fit_image_get_type fit noffset;
  let i := ImageInfo (start i) (end_ i) (image_start i) (image_len i) (load_to i) (comp i) (u8 t) (os i) in
  if negb (e1 =? 0) then Some (1, set_os i h) else
  '(e2, c) ← fit_image_get_comp fit noffset;
  let i := ImageInfo (start i) (end_ i) (image_start i) (image_len i) (load_to i) (u8 c) (type i) (os i) in
  if negb (e2 =? 0) then Some (1, set_os i h) else
  '(e3, o) ← fit_image_get_os fit noffset;
  let i := ImageInfo (start i) (end_ i) (image_start i) (image_len i) (load_to i) (comp i) (type i) (u8 o) in
  if negb (e3 =? 0) then Some (1, set_os i h) else
  total ← fdt_totalsize fit;
  let i := ImageInfo (start i) (u32 (addr + total)) (image_start i) (image_len i) (load_to i) (comp i) (type i) (os i) in
  l ← fit_image_get_load fit noffset;
  match l with
  | inl _ => Some (1, set_os i h)
  | inr l =>
      let i := ImageInfo (start i) (end_ i) (image_start i) (image_len i) l (comp i) (type i) (os i) in
      e ← fit_image_get_entry fit noffset;
      Some (match e with inl _ => (1, set_os i h) | inr e => (0, set_ep e (set_os i h)) end)
  end.

(** A kernel that is not to be moved stays where its data is. *)
Definition fix_noload (h : bootm_headers) : bootm_headers :=
  let i := os_info h in
  if type i =? IH_TYPE_KERNEL_NOLOAD
  then set_ep (u32 (ep h + image_start i))
         (set_os (ImageInfo (start i) (end_ i) (image_start i) (image_len i) (image_start i) (comp i) (type i) (os i)) h)
  else h.

(** Ramdisk and device tree of a Linux kernel. *)
Definition get_companions (args : list (list Z)) (w : world) : option (Z * world) :=
  let i := os_info (images w) in
  if ((type i =? IH_TYPE_KERNEL) || (type i =? IH_TYPE_KERNEL_NOLOAD) || (type i =? IH_TYPE_MULTI))
     && (os i =? IH_OS_LINUX)
  then
    '(ret, r, f) ← BootImages.boot_get_ramdisk ram_end junk load_addr (found (images w)) args BootImages.IH_INITRD_ARCH (ram w);
    let w := World (set_rd r (set_found f (images w))) (ram w) (ext w) in
    if negb (ret =? 0) then Some (1, w) else
    '(ret, f, m) ← BootImages.boot_get_fdt ram_end junk load_addr (found (images w)) args (ram w);
    let w := World (set_ft f (images w)) m (ext w) in
    if negb (ret =? 0) then Some (1, w) else
    s ← set_working_fdt_addr f.1 (ext w); Some (0, World (images w) (ram w) s)
  else Some (0, w).

(** [args] are [argv + 1]. *)
Definition bootm_start (args : list (list Z)) (w : world) : option (Z * world) :=
  h ← clear_images (ext w);
  let mem := view ram_end (ram w) in
  k ← boot_get_kernel mem junk stack keys load_addr (head args) (BootImages.verify (found h));
  match k with
  | None => Some (1, World h (ram w) (ext w))
  | Some k =>
      f ← kernel_found k (mem (k_addr k)) (BootImages.verify (found h));
      let h := with_kernel k f h in
      if os_len k =? 0 then Some (1, World h (ram w) (ext w)) else
      '(r, h) ← match k_fit k with
                | None => legacy_info (mem (k_addr k)) (k_addr k) h
                | Some (_, n) => fit_info (mem (k_addr k)) (k_addr k) n h
                end;
      if negb (r =? 0) then Some (r, World h (ram w) (ext w)) else
      '(r, w) ← get_companions args (World (fix_noload h) (ram w) (ext w));
      if negb (r =? 0) then Some (r, w) else
      let i := os_info (images w) in
      let i := ImageInfo (k_addr k) (end_ i) (image_start i) (image_len i) (load_to i) (comp i) (type i) (os i) in
      Some (0, World (set_state BOOTM_STATE_START (set_os i (images w))) (ram w) (ext w))
  end.

(** ** [bootm_load_os] *)

(** Return value, [*load_end] when it is set, and memory. *)
Definition bootm_load_os (o : image_info) (m : Z -> Z) : Z * option Z * (Z -> Z) :=
  let finish (no_overlap : bool) (load_end : Z) (m : Z -> Z) :=
    if negb no_overlap && (load_to o <? end_ o) && (start o <? load_end)
    then (BOOTM_ERR_OVERLAP, Some load_end, m) else (0, Some load_end, m) in
  if comp o =? IH_COMP_NONE then
    if (load_to o =? start o) || (load_to o =? image_start o)
    then finish true (u32 (load_to o + image_len o)) m
    else finish false (u32 (load_to o + image_len o))
           (store m (load_to o) (load m (image_start o) (Z.to_nat (image_len o))))
  else if (comp o =? IH_COMP_GZIP) || (comp o =? IH_COMP_BZIP2) || (comp o =? IH_COMP_LZO) then
    let '(ret, out) := uncompress (comp o) m (load_to o) CONFIG_SYS_BOOTM_LEN (image_start o) (image_len o) in
    let m := store m (load_to o) out in
    if negb (ret =? 0) then (BOOTM_ERR_RESET, None, m)
    else finish false (u32 (load_to o + Z.of_nat (length out))) m
  else (BOOTM_ERR_UNIMPLEMENTED, None, m).

(** ** The operating systems *)

(** [boot_os]: NetBSD, Linux, VxWorks, QNX and RTEMS have a function; the array
    ends with RTEMS. *)
Definition boot_os : list bool := map (fun i => bool_decide (i ∈ [2; 5; 14; 16; 18]%nat)) (seq 0 19).

(** The function of an operating system: NULL is [Some false], [None] a read
    behind the array. *)
Definition boot_fn (os : Z) : option bool := boot_os !! Z.to_nat os.

(** [ntohl] on this target. *)
Definition ntohl (v : Z) : Z := le_combine (be_bytes 4 v).

Definition bootm_start_standalone (w : world) : option (outcome * world) :=
  no ← autostart_no (ext w);
  if no : bool
  then s ← setenv_num (bytes_of "filesize") "%lX" (image_len (os_info (images w))) (ext w);
       Some (Return 0, World (images w) (ram w) s)
  else Some (Call (ntohl (ep (images w))), w).

(** ** The subcommands *)

Definition cmd_bootm_sub : list (str * Z) :=
  [(bytes_of "start", BOOTM_STATE_START); (bytes_of "loados", BOOTM_STATE_LOADOS);
   (bytes_of "ramdisk", BOOTM_STATE_RAMDISK); (bytes_of "fdt", BOOTM_STATE_FDT);
   (bytes_of "cmdline", BOOTM_STATE_OS_CMDLINE); (bytes_of "bdt", BOOTM_STATE_OS_BD_T);
   (bytes_of "prep", BOOTM_STATE_OS_PREP); (bytes_of "go", BOOTM_STATE_OS_GO)].

(** A call of [boot_fn] that returns. *)
Definition call_boot_fn (flag : Z) (w : world) : option (outcome * world) :=
  match boot_fn (os (os_info (images w))) with
  | Some true =>
      '(o, h, m, s) ← os_command (os (os_info (images w))) flag (images w) (ram w) (ext w);
      Some (o, World h m s)
  | _ => Some (Wild_call, w)
  end.

(** The [switch] of the subcommands. *)
Definition run_state (st : Z) (w : world) : option (outcome * world) :=
  let h := images w in
  if st =? BOOTM_STATE_LOADOS then
    let '(ret, load_end, m) := bootm_load_os (os_info h) (ram w) in
    if negb (ret =? 0) then Some (Return ret, World h m (ext w)) else
    le ← load_end;
    '(_, l) ← Lmb.lmb_reserve (lmb h) (load_to (os_info h)) (u32 (le - load_to (os_info h)));
    Some (Return 0, World (set_lmb l h) m (ext w))
  else if st =? BOOTM_STATE_RAMDISK then
    '(ret, r, l, m) ←
      BootImages.boot_ramdisk_high (getenv (ext w)) (lmb h) (rd h).1 (u32 ((rd h).2 - (rd h).1)) (initrd h) (ram w);
    let w := World (set_initrd r (set_lmb l h)) m (ext w) in
    if negb (ret =? 0) then Some (Return ret, w) else
    s ← setenv_num (bytes_of "initrd_start") "%lx" r.1 (ext w);
    s ← setenv_num (bytes_of "initrd_end") "%lx" r.2 s;
    Some (Return 0, World (images w) (ram w) s)
  else if st =? BOOTM_STATE_FDT then
    l ← BootImages.boot_fdt_add_mem_rsv_regions (lmb h) (view ram_end (ram w) (ft h).1);
    '(ret, f, l, m) ← BootImages.boot_relocate_fdt ram_end (getenv (ext w)) l (ft h) (ram w);
    s ← (if (ret =? 0) && negb ((ft h).2 =? 0) then set_working_fdt_addr f.1 (ext w) else Some (ext w));
    Some (Return ret, World (set_ft f (set_lmb l h)) m s)
  else if st =? BOOTM_STATE_OS_GO then
    Some (match boot_fn (os (os_info h)) with
          | Some true => (Boot (os (os_info h)) BOOTM_STATE_OS_GO, w)
          | _ => (Wild_call, w)
          end)
  else call_boot_fn st w.

Definition do_bootm_subcommand (args : list (list Z)) (w : world) : option (outcome * world) :=
  arg ← head args;
  c ← Command.find_cmd_tbl arg (map fst cmd_bootm_sub);
  match c with
  | None => Some (Return CMD_RET_USAGE, w)
  | Some i =>
      '(_, st) ← cmd_bootm_sub !! i;
      if st =? BOOTM_STATE_START then '(r, w) ← bootm_start (tail args) w; Some (Return r, w) else
      if st <=? state (images w) then Some (Return CMD_RET_USAGE, w) else
      run_state st (World (set_state (state (images w) .| st) (images w)) (ram w) (ext w))
  end.

(** ** [do_bootm] *)

(** The argument is a subcommand when it is no number and names no part of a
    FIT image. *)
Definition is_subcommand (args : list (list Z)) : option bool :=
  match args with
  | [] => Some false
  | arg :: _ =>
      '(_, endp) ← simple_strtoul arg 16;
      c ← head endp;
      Some (negb (c =? 0) && negb (c =? 58) && negb (c =? 35))
  end.

(** From the loaded kernel on. *)
Definition start_os (load_end : Z) (w : world) : option (outcome * world) :=
  let h := images w in
  '(_, l) ← Lmb.lmb_reserve (lmb h) (load_to (os_info h)) (u32 (load_end - load_to (os_info h)));
  let w := World (set_lmb l h) (ram w) (ext w) in
  if type (os_info h) =? IH_TYPE_STANDALONE then bootm_start_standalone w else
  Some (match boot_fn (os (os_info h)) with
        | None => (Wild_call, w)
        | Some false => (Return 1, w)
        | Some true => (Boot (os (os_info h)) 0, w)
        end).

Definition do_bootm (args : list (list Z)) (w : world) : option (outcome * world) :=
  sub ← is_subcommand args;
  if sub : bool then do_bootm_subcommand args w else
  '(r, w) ← bootm_start args w;
  if negb (r =? 0) then Some (Return 1, w) else
  let '(ret, load_end, m) := bootm_load_os (os_info (images w)) (ram w) in
  let w := World (images w) m (ext w) in
  if ret =? BOOTM_ERR_RESET then Some (Reset_board, w) else
  if (ret =? BOOTM_ERR_OVERLAP) && negb (legacy_hdr_valid (images w)) then Some (Reset_board, w) else
  if ret =? BOOTM_ERR_UNIMPLEMENTED then Some (Return 1, w) else
  start_os (default 0 load_end) w.

End Bootm.

(** ** The loaded kernel *)

Section Spec.
Context {Group Point : Type} `{!Mbedtls Group Point}.
Context {S : Type} `{!BootServices S}.
Context (ram_end : Z) (junk stack keys : list Z) (load_addr : Z).
Implicit Types (w : @world S).

(** What stands at the load address, [n] bytes, for a kernel with the given
    data: the data itself, where it is or moved; the data inside an image that
    is loaded where it is; or what the decompressor made of the data. *)
Definition kernel_in_place (o : image_info) (data : list Z) (m : Z -> Z) (n : Z) : Prop :=
  (comp o = IH_COMP_NONE /\ n = image_len o
   /\ (load m (load_to o) (Z.to_nat n) = data
       \/ load_to o = start o /\ load m (image_start o) (Z.to_nat n) = data))
  \/ exists m0 out, load m0 (image_start o) (Z.to_nat (image_len o)) = data
      /\ uncompress (comp o) m0 (load_to o) CONFIG_SYS_BOOTM_LEN (image_start o) (image_len o) = (0, out)
      /\ n = Z.of_nat (length out) /\ load m (load_to o) (Z.to_nat n) = out.

(** The kernel does not lie over the image it comes from. *)
Definition apart (o : image_info) (n : Z) : Prop :=
  load_to o = start o \/ load_to o = image_start o
  \/ end_ o <= load_to o \/ u32 (load_to o + n) <= start o.

(** A load that reports no error, or only that the image is overwritten. *)
Lemma load_os_spec o m data ret load_end m' :
  load m (image_start o) (Z.to_nat (image_len o)) = data ->
  bootm_load_os o m = (ret, load_end, m') -> ret = 0 \/ ret = BOOTM_ERR_OVERLAP ->
  exists n, kernel_in_place o data m' n /\ load_end = Some (u32 (load_to o + n)) /\ (ret = 0 -> apart o n).
Proof.
  intros Hd. unfold bootm_load_os. intros Hl Hret.
  assert (Hfin : forall m1 no le, (if negb no && (load_to o <? end_ o) && (start o <? le)
      then (BOOTM_ERR_OVERLAP, Some le, m1) else (0, Some le, m1)) = (ret, load_end, m') ->
    m' = m1 /\ load_end = Some le /\ (ret = 0 -> no = true \/ end_ o <= load_to o \/ le <= start o)).
  { intros m1 no le. destruct no; cbn [negb andb]; [intros [= <- <- <-]; auto|].
    destruct (Z.ltb_spec (load_to o) (end_ o)), (Z.ltb_spec (start o) le); cbn [andb];
      intros [= <- <- <-]; split_and!; try done; intros; right; lia. }
  unfold apart. destruct (Z.eqb_spec (comp o) IH_COMP_NONE) as [Hc|Hc].
  - exists (image_len o).
    destruct ((load_to o =? start o) || (load_to o =? image_start o)) eqn:Ex.
    + destruct (Hfin m true _ Hl) as (-> & -> & _). rewrite orb_true_iff, !Z.eqb_eq in Ex.
      split_and!; [left; split_and!; [done..|]|done|tauto].
      destruct Ex as [Ex|Ex]; [by right|left; by rewrite Ex].
    + destruct (Hfin _ false _ Hl) as (-> & -> & Hov).
      split_and!; [left; split_and!; [done..|left]|done|intros Hr; destruct (Hov Hr) as [?|[?|?]]; auto; done].
      rewrite Hd. replace (Z.to_nat (image_len o)) with (length data) by (subst data; apply load_length).
      apply load_store.
  - destruct (_ || _); [|injection Hl as <- _ _; destruct Hret; done].
    destruct (uncompress (comp o) m (load_to o) CONFIG_SYS_BOOTM_LEN (image_start o) (image_len o)) as [r out] eqn:Eu.
    destruct (Z.eqb_spec r 0) as [->|]; cbn [negb] in Hl; [|injection Hl as <- _ _; destruct Hret; done].
    destruct (Hfin _ false _ Hl) as (-> & -> & Hov). exists (Z.of_nat (length out)).
    split_and!; [|done|intros Hr; destruct (Hov Hr) as [?|[?|?]]; auto; done].
    right. exists m, out. split_and!; try done. rewrite Nat2Z.id. apply load_store.
Qed.

Lemma load_os_ret o m ret load_end m' :
  bootm_load_os o m = (ret, load_end, m') ->
  ret = 0 \/ ret = BOOTM_ERR_RESET \/ ret = BOOTM_ERR_OVERLAP \/ ret = BOOTM_ERR_UNIMPLEMENTED.
Proof.
  unfold bootm_load_os. destruct (comp o =? IH_COMP_NONE); [|destruct (_ || _)].
  - destruct (_ || _); cbn [negb andb]; [intros [= <- <- <-]; auto|].
    destruct (_ && _); intros [= <- <- <-]; auto.
  - destruct (uncompress _ _ _ _ _ _) as [r out]. destruct (negb (r =? 0)); [intros [= <- <- <-]; auto|].
    destruct (_ && _); intros [= <- <- <-]; auto.
  - intros [= <- <- <-]. auto.
Qed.

Lemma companions_ok args w r w' : get_companions ram_end junk load_addr args w = Some (r, w') ->
  os_info (images w') = os_info (images w) /\ legacy_hdr_valid (images w') = legacy_hdr_valid (images w)
  /\ ep (images w') = ep (images w) /\ state (images w') = state (images w) /\ BootImages.tree_moved (ram w) (ram w').
Proof.
  unfold get_companions. destruct (_ && _); [|intros [= <- <-]; split_and!; [done..|by left]].
  intros ([[ret r1] f1] & Hr & H)%bind_Some. apply BootImages.boot_get_ramdisk_found in Hr as [rd ->].
  destruct (negb (ret =? 0)); [injection H as <- <-; split_and!; [done..|by left]|].
  apply bind_Some in H as ([[ret2 f] m2] & Hf & H). cbn [images ram ext] in *. apply BootImages.boot_get_fdt_memory in Hf.
  destruct (negb (ret2 =? 0)); [injection H as <- <-; by split_and!|].
  apply bind_Some in H as (s & _ & H). injection H as <- <-. by split_and!.
Qed.

(** The steps of [bootm_start] keep where the kernel's data is, and the state. *)
Definition same_data (h h' : bootm_headers) : Prop :=
  image_start (os_info h') = image_start (os_info h) /\ image_len (os_info h') = image_len (os_info h)
  /\ legacy_hdr_valid h' = legacy_hdr_valid h /\ state h' = state h.

Lemma legacy_info_data hdr addr h r h' : legacy_info hdr addr h = Some (r, h') -> same_data h h'.
Proof.
  unfold legacy_info. intros (t & _ & H)%bind_Some. repeat (apply bind_Some in H as (? & _ & H)).
  by injection H as <- <-.
Qed.

Lemma fit_info_data fit addr n h r h' : fit_info fit addr n h = Some (r, h') -> same_data h h'.
Proof.
  unfold fit_info. intros ([e1 t] & _ & H)%bind_Some. destruct (negb (e1 =? 0)); [by injection H as <- <-|].
  apply bind_Some in H as ([e2 c] & _ & H). destruct (negb (e2 =? 0)); [by injection H as <- <-|].
  apply bind_Some in H as ([e3 o] & _ & H). destruct (negb (e3 =? 0)); [by injection H as <- <-|].
  apply bind_Some in H as (total & _ & H). apply bind_Some in H as (l & _ & H).
  destruct l; [by injection H as <- <-|]. apply bind_Some in H as (e & _ & H).
  destruct e; by injection H as <- <-.
Qed.

Lemma fix_noload_data h : same_data h (fix_noload h).
Proof. unfold fix_noload. by destruct (type (os_info h) =? IH_TYPE_KERNEL_NOLOAD). Qed.

Lemma bootm_start_ok args w w' :
  getenv_yesno (ext w) (bytes_of "verify") <> Some 0 ->
  bootm_start ram_end junk stack keys load_addr args w = Some (0, w') ->
  exists k, boot_get_kernel (view ram_end (ram w)) junk stack keys load_addr (head args) true = Some (Some k)
    /\ let i := os_info (images w') in
       image_start i = os_data k /\ image_len i = os_len k /\ start i = k_addr k
       /\ legacy_hdr_valid (images w') = bool_decide (k_fit k = None)
       /\ BootImages.tree_moved (ram w) (ram w').
Proof.
  intros Hv. unfold bootm_start. intros (h & Hh & Hb)%bind_Some.
  assert (Hvh : BootImages.verify (found h) = true).
  { unfold clear_images in Hh. apply bind_Some in Hh as (v & Ev & Hh). apply bind_Some in Hh as (l & _ & Hh).
    injection Hh as <-. rewrite Ev in Hv. cbn. by destruct (Z.eqb_spec v 0); [subst|]. }
  rewrite Hvh in Hb.
  apply bind_Some in Hb as (k & Hk & Hb). destruct k as [k|]; [|by injection Hb].
  exists k. split; [done|]. apply bind_Some in Hb as (f & Hf & Hb). destruct (os_len k =? 0); [by injection Hb|].
  apply bind_Some in Hb as ([r h2] & Hi & Hb).
  assert (Hd : same_data (with_kernel k f h) h2).
  { destruct (k_fit k) as [[? ?]|]; [by eapply fit_info_data|by eapply legacy_info_data]. }
  destruct (Z.eqb_spec r 0) as [->|]; cbn [negb] in Hb; [|by injection Hb].
  apply bind_Some in Hb as ([r w2] & Ec & Hb).
  destruct (companions_ok _ _ _ _ Ec) as (Ho & Hl & _ & _ & Hdata). cbn [images ram] in Ho, Hl, Hdata.
  destruct (Z.eqb_spec r 0); cbn [negb] in Hb; [|by injection Hb]. injection Hb as <-.
  change (legacy_hdr_valid (images (World (set_state ?a (set_os ?b (images w2))) ?c ?d))) with (legacy_hdr_valid (images w2)).
  cbn [images os_info set_state set_os image_start image_len start ram].
  destruct (fix_noload_data h2) as (F1 & F2 & F3 & _). destruct Hd as (D1 & D2 & D3 & _).
  rewrite Ho, Hl, F1, F2, F3, D1, D2, D3. split_and!; [done..| |done].
  unfold kernel_found in Hf. unfold with_kernel, legacy_hdr_valid. cbn [found].
  destruct (k_fit k) as [[cfg n]|].
  - apply bind_Some in Hf as (c & _ & Hf). by injection Hf as <-.
  - apply bind_Some in Hf as (t & _ & Hf). by injection Hf as <-.
Qed.

End Spec.

Lemma bootm_runs_spec {Group Point} `{!Mbedtls Group Point} {S} `{!BootServices S}
    ram_end junk stack keys load_addr args (w w' : @world S) o :
  length junk = 128%nat -> bytes junk -> (forall a, byte (ram w a)) ->
  is_subcommand args = Some false -> getenv_yesno (ext w) (bytes_of "verify") <> Some 0 ->
  do_bootm ram_end junk stack keys load_addr args w = Some (Boot o 0, w') ->
  exists addr conf uname k n,
    parse_argument load_addr (head args) = Some (addr, conf, uname) /\ k_addr k = addr
    /\ boot_get_kernel (view ram_end (ram w)) junk stack keys load_addr (head args) true = Some (Some k)
    /\ accepted (view ram_end (ram w)) stack keys uname k
    /\ exists m, BootImages.tree_moved (ram w) m /\
       let i := os_info (images w') in
       image_start i = os_data k /\ image_len i = os_len k /\ start i = k_addr k /\ o = os i
       /\ kernel_in_place i (load m (os_data k) (Z.to_nat (os_len k))) (ram w') n
       /\ (k_fit k <> None -> apart i n).
Proof.
  intros Hj Hjb Hram Hsub Hv. unfold do_bootm. rewrite Hsub. cbn [mbind option_bind].
  intros ([r w1] & Hstart & Hb)%bind_Some. destruct (Z.eqb_spec r 0) as [->|]; cbn [negb] in Hb; [|done].
  destruct (bootm_start_ok _ _ _ _ _ args w w1 Hv Hstart) as (k & Hk & Hs & Hl & Ha & Hleg & Hdata).
  destruct (bootm_load_os (os_info (images w1)) (ram w1)) as [[ret load_end] m] eqn:El.
  destruct (Z.eqb_spec ret BOOTM_ERR_RESET) as [|Hr1]; [done|]. cbn [images] in Hb.
  destruct ((ret =? BOOTM_ERR_OVERLAP) && negb (legacy_hdr_valid (images w1))) eqn:Eov; [done|].
  destruct (Z.eqb_spec ret BOOTM_ERR_UNIMPLEMENTED) as [|Hr3]; [done|].
  pose proof Hk as Hparse. unfold boot_get_kernel in Hparse.
  apply bind_Some in Hparse as ([[addr conf] uname] & Hp & _).
  destruct (boot_get_kernel_ok (view ram_end (ram w)) junk stack keys load_addr (head args) addr conf uname k)
    as [Hka Hacc]; try done.
  { intros a. by apply BootImages.bytes_load. }
  destruct (load_os_spec _ _ _ _ _ _ eq_refl El) as (n & Hplace & -> & Hapart).
  { destruct (load_os_ret _ _ _ _ _ El) as [?|[?|[?|?]]]; auto; done. }
  unfold start_os in Hb. cbn [images ram ext default] in Hb.
  apply bind_Some in Hb as ([? l] & _ & Hb).
  destruct (type (os_info (images w1)) =? IH_TYPE_STANDALONE).
  { unfold bootm_start_standalone in Hb. apply bind_Some in Hb as ([] & _ & Hb); [|done]. by apply bind_Some in Hb as (? & _ & Hb). }
  destruct (boot_fn (os (os_info (images w1)))) as [[|]|]; [|done|done]. injection Hb as <- <-.
  cbn [images ram os_info set_lmb]. rewrite Hs, Hl in Hplace.
  exists addr, conf, uname, k, n. split_and!; try done. exists (ram w1). split_and!; try done. intros Hfit. apply Hapart.
  rewrite Hleg in Eov. rewrite bool_decide_eq_false_2 in Eov by done. rewrite andb_true_r in Eov.
  apply Z.eqb_neq in Eov. destruct (load_os_ret _ _ _ _ _ El) as [?|[?|[?|?]]]; done.
Qed.

(** C2: what [bootm] starts is what was verified.  With verification on, a
    [bootm] that passes control to an operating system has accepted a kernel (a
    legacy image with right checksums, an image of a FIT image named in the
    argument, or the kernel of a configuration with an accepted signature), and
    at the load address is the data of exactly that kernel, or what the
    decompressor made of it.  The data is that of the memory in which the
    kernel was verified, or after one block was moved in it: a device tree with
    a load address goes there without a look at the kernel.  A FIT image is not
    overwritten by the kernel it holds. *)
Theorem bootm_runs_verified {Group Point} `{!Mbedtls Group Point} {S} `{!BootServices S}
    ram_end junk stack keys load_addr args (w w' : @world S) o :
  length junk = 128%nat -> bytes junk -> (forall a, byte (ram w a)) ->
  is_subcommand args = Some false -> getenv_yesno (ext w) (bytes_of "verify") <> Some 0 ->
  do_bootm ram_end junk stack keys load_addr args w = Some (Boot o 0, w') ->
  exists addr conf uname k n,
    parse_argument load_addr (head args) = Some (addr, conf, uname) /\ k_addr k = addr
    /\ boot_get_kernel (view ram_end (ram w)) junk stack keys load_addr (head args) true = Some (Some k)
    /\ accepted (view ram_end (ram w)) stack keys uname k
    /\ exists m, BootImages.tree_moved (ram w) m /\
       let i := os_info (images w') in
       image_start i = os_data k /\ image_len i = os_len k /\ start i = k_addr k /\ o = os i
       /\ kernel_in_place i (load m (os_data k) (Z.to_nat (os_len k))) (ram w') n
       /\ (k_fit k <> None -> apart i n).
Proof. apply bootm_runs_spec. Qed.

(** C12: a [bootm] that finds no acceptable kernel returns 1: no operating system
    is started, memory is as it was, and the state machine of the subcommands is
    reset. *)
Theorem bootm_rejects {Group Point} `{!Mbedtls Group Point} {S} `{!BootServices S}
    ram_end junk stack keys load_addr args (w : @world S) h :
  is_subcommand args = Some false -> clear_images (ext w) = Some h ->
  boot_get_kernel (view ram_end (ram w)) junk stack keys load_addr (head args)
    (BootImages.verify (found h)) = Some None ->
  do_bootm ram_end junk stack keys load_addr args w = Some (Return 1, World h (ram w) (ext w)) /\ state h = 0.
Proof.
  intros Hsub Hc Hk. unfold do_bootm, bootm_start. rewrite Hsub, Hc. cbn [mbind option_bind].
  rewrite Hk. split; [done|]. unfold clear_images in Hc. apply bind_Some in Hc as (v & _ & Hc).
  apply bind_Some in Hc as (l & _ & Hc). by injection Hc as <-.
Qed.

(** ** The state machine of the subcommands *)

Section Session.
Context {Group Point : Type} `{!Mbedtls Group Point}.
Context {S : Type} `{!BootServices S}.
Context (ram_end : Z) (junk stack keys : list Z) (load_addr : Z).
Implicit Types (w : @world S).

#[local] Abbreviation subcommand := (do_bootm_subcommand ram_end junk stack keys load_addr).

(** The function of an operating system leaves [images.state] alone. *)
Definition os_keeps_state : Prop :=
  forall o flag h m (s : S) out h' m' s', os_command o flag h m s = Some (out, h', m', s') -> state h' = state h.

(** The state whose case of the [switch] a command comes to ([START] for
    [bootm_start]); [None] inside when it is turned down. *)
Definition admitted (args : list (list Z)) w : option (option Z) :=
  arg ← head args;
  c ← Command.find_cmd_tbl arg (map fst cmd_bootm_sub);
  match c with
  | None => Some None
  | Some i =>
      '(_, st) ← cmd_bootm_sub !! i;
      Some (if (st =? BOOTM_STATE_START) || negb (st <=? state (images w)) then Some st else None)
  end.

(** Any sequence of subcommands from power-on, with the states they came to
    since the last [start] that succeeded. *)
Inductive session : world -> list Z -> Prop :=
  | power_on w : state (images w) = 0 -> session w []
  | turned_down w log args o w' :
      session w log -> admitted args w = Some None -> subcommand args w = Some (o, w') -> session w' log
  | restarted w log args w' :
      session w log -> admitted args w = Some (Some BOOTM_STATE_START) ->
      subcommand args w = Some (Return 0, w') -> session w' [BOOTM_STATE_START]
  | start_failed w log args rc w' :
      session w log -> admitted args w = Some (Some BOOTM_STATE_START) -> rc <> 0 ->
      subcommand args w = Some (Return rc, w') -> session w' []
  | carried_out w log args st o w' :
      session w log -> admitted args w = Some (Some st) -> st <> BOOTM_STATE_START ->
      subcommand args w = Some (o, w') -> session w' (log ++ [st]).

Definition sub_states : list Z := map snd cmd_bootm_sub.

Definition joined (log : list Z) : Z := foldr Z.lor 0 log.

(** A command that is not turned down changes [images.state] in one way. *)
Lemma bootm_start_state args w r w' :
  bootm_start ram_end junk stack keys load_addr args w = Some (r, w') ->
  state (images w') = if r =? 0 then BOOTM_STATE_START else 0.
Proof.
  unfold bootm_start. intros (h & Hh & Hb)%bind_Some.
  assert (Hs : state h = 0).
  { unfold clear_images in Hh. apply bind_Some in Hh as (v & _ & Hh). apply bind_Some in Hh as (l & _ & Hh). by injection Hh as <-. }
  apply bind_Some in Hb as (k & _ & Hb). destruct k as [k|]; [|by injection Hb as <- <-].
  apply bind_Some in Hb as (f & _ & Hb).
  assert (Hk : state (with_kernel k f h) = 0) by done.
  destruct (os_len k =? 0); [by injection Hb as <- <-|]. apply bind_Some in Hb as ([r1 h2] & Hi & Hb).
  assert (H2 : state h2 = 0).
  { rewrite <- Hk. destruct (k_fit k) as [[? n]|]; [apply fit_info_data in Hi as (_ & _ & _ & Hi)
      |apply legacy_info_data in Hi as (_ & _ & _ & Hi)]; exact Hi. }
  destruct (Z.eqb_spec r1 0) as [->|Hr1]; cbn [negb] in Hb.
  2: { injection Hb as <- <-. by destruct (Z.eqb_spec r1 0). }
  apply bind_Some in Hb as ([r2 w2] & Ec & Hb). apply companions_ok in Ec as (_ & _ & _ & Ec & _). cbn [images] in Ec.
  assert (Hf : state (fix_noload h2) = 0) by (destruct (fix_noload_data h2) as (_ & _ & _ & ->); done).
  destruct (Z.eqb_spec r2 0) as [->|Hr2]; cbn [negb] in Hb; injection Hb as <- <-; [done|].
  destruct (Z.eqb_spec r2 0); [done|]. by rewrite Ec.
Qed.

Lemma run_state_state st w o w' :
  os_keeps_state -> run_state ram_end st w = Some (o, w') -> state (images w') = state (images w).
Proof.
  intros Hos. unfold run_state. destruct (st =? BOOTM_STATE_LOADOS).
  { destruct (bootm_load_os _ _) as [[ret le] m]. destruct (negb (ret =? 0)); [by intros [= <- <-]|].
    intros (e & _ & Hb)%bind_Some. apply bind_Some in Hb as ([? l] & _ & Hb). by injection Hb as <- <-. }
  destruct (st =? BOOTM_STATE_RAMDISK).
  { intros ([[[ret r] l] m] & _ & Hb)%bind_Some. destruct (negb (ret =? 0)); [by injection Hb as <- <-|].
    apply bind_Some in Hb as (s1 & _ & Hb). apply bind_Some in Hb as (s2 & _ & Hb). by injection Hb as <- <-. }
  destruct (st =? BOOTM_STATE_FDT).
  { intros (l & _ & Hb)%bind_Some. apply bind_Some in Hb as ([[[ret f] l2] m] & _ & Hb).
    apply bind_Some in Hb as (s & _ & Hb). by injection Hb as <- <-. }
  destruct (st =? BOOTM_STATE_OS_GO); [destruct (boot_fn _) as [[|]|]; by intros [= <- <-]|].
  unfold call_boot_fn. destruct (boot_fn _) as [[|]|]; [|by intros [= <- <-]..].
  intros ([[[out h] m] s] & Hc & Hb)%bind_Some. injection Hb as <- <-. by apply Hos in Hc.
Qed.

(** What a subcommand does to the state. *)
Lemma subcommand_state args w r o w' :
  os_keeps_state -> admitted args w = Some r -> subcommand args w = Some (o, w') ->
  match r with
  | None => w' = w
  | Some st =>
      st ∈ sub_states
      /\ if st =? BOOTM_STATE_START
         then exists rc, o = Return rc /\ state (images w') = if rc =? 0 then BOOTM_STATE_START else 0
         else state (images w) < st /\ state (images w') = state (images w) .| st
  end.
Proof.
  intros Hos. unfold admitted, do_bootm_subcommand. destruct (head args) as [arg|]; [|done]. cbn [mbind option_bind].
  destruct (Command.find_cmd_tbl arg _) as [[i|]|]; [| |done]; cbn [mbind option_bind].
  2: { intros [= <-] [= <- <-]. done. }
  destruct (cmd_bootm_sub !! i) as [[name st]|] eqn:Ei; [|done]. cbn [mbind option_bind].
  assert (Hin : st ∈ sub_states).
  { apply list_elem_of_lookup. exists i. unfold sub_states. by rewrite list_lookup_fmap, Ei. }
  destruct (Z.eqb_spec st BOOTM_STATE_START) as [->|Hst]; cbn [orb].
  - intros [= <-] Hb. split; [done|]. rewrite Z.eqb_refl.
    apply bind_Some in Hb as ([rc w2] & Hs & Hb). injection Hb as <- <-. exists rc. split; [done|].
    by apply bootm_start_state in Hs.
  - destruct (Z.leb_spec st (state (images w))); cbn [negb]; intros [= <-].
    + by intros [= <- <-].
    + intros Hb. split; [done|]. destruct (Z.eqb_spec st BOOTM_STATE_START); [done|]. split; [done|].
      by apply run_state_state in Hb.
Qed.

(** The states are single bits. *)
Lemma sub_state_bit st : st ∈ sub_states -> exists i, 0 <= i < 8 /\ st = 2 ^ i.
Proof.
  intros Hin. assert (Hall : Forall (fun s => exists i, 0 <= i < 8 /\ s = 2 ^ i) sub_states).
  { repeat constructor; [exists 0|exists 1|exists 2|exists 3|exists 4|exists 5|exists 6|exists 7]; done. }
  rewrite Forall_forall in Hall. by apply Hall.
Qed.

Lemma joined_nonneg log : Forall (fun s => s ∈ sub_states) log -> 0 <= joined log.
Proof.
  induction 1 as [|s log Hs _ IH]; [done|]. apply Z.lor_nonneg. split; [|done].
  destruct (sub_state_bit s Hs) as (i & Hi & ->). lia.
Qed.

Lemma lor_ge a b : 0 <= a -> 0 <= b -> a <= a .| b.
Proof.
  intros Ha Hb.
  assert (E : a .| b = a + Z.ldiff b a).
  { rewrite Z.add_nocarry_lxor; apply Z.bits_inj'; intros n Hn;
      rewrite ?Z.lor_spec, ?Z.lxor_spec, ?Z.land_spec, ?Z.ldiff_spec, ?Z.bits_0; btauto. }
  rewrite E. assert (0 <= Z.ldiff b a); [|lia]. apply Z.ldiff_nonneg. by left.
Qed.

Lemma joined_ge log s : Forall (fun s => s ∈ sub_states) log -> s ∈ log -> s <= joined log.
Proof.
  induction 1 as [|x log Hx Hl IH]; [by intros ?%not_elem_of_nil|]. cbn [joined foldr].
  fold (joined log). pose proof (joined_nonneg log Hl). destruct (sub_state_bit x Hx) as (i & Hi & Ex).
  assert (0 <= x) by (rewrite Ex; lia). intros [->|Hin]%elem_of_cons; [by apply lor_ge|].
  rewrite Z.lor_comm. etrans; [by apply IH|by apply lor_ge].
Qed.

Lemma joined_snoc log s : joined (log ++ [s]) = joined log .| s.
Proof.
  unfold joined. induction log as [|x log IH]; cbn [app foldr]; [by rewrite Z.lor_0_r, Z.lor_0_l|].
  by rewrite IH, Z.lor_assoc.
Qed.

Lemma session_ok w log :
  os_keeps_state -> session w log ->
  state (images w) = joined log /\ StronglySorted Z.lt log /\ Forall (fun s => s ∈ sub_states) log.
Proof.
  intros Hos. induction 1 as [w Hs|w log args o w' _ IH Ha Hsub|w log args w' _ IH Ha Hsub
    |w log args rc w' _ IH Ha Hrc Hsub|w log args st o w' _ IH Ha Hst Hsub].
  - split; [done|]. split; constructor.
  - by rewrite (subcommand_state _ _ _ _ _ Hos Ha Hsub).
  - destruct (subcommand_state _ _ _ _ _ Hos Ha Hsub) as (Hin & rc & [= <-] & Hs).
    split; [done|]. split; repeat constructor.
  - destruct (subcommand_state _ _ _ _ _ Hos Ha Hsub) as (_ & rc' & [= <-] & Hs).
    destruct (Z.eqb_spec rc 0); [done|]. split; [done|]. split; constructor.
  - destruct (subcommand_state _ _ _ _ _ Hos Ha Hsub) as (Hin & Hcase).
    destruct (Z.eqb_spec st BOOTM_STATE_START); [done|]. destruct Hcase as [Hlt Hs].
    destruct IH as (Hj & Hsort & Hall). split; [by rewrite joined_snoc, Hs, Hj|].
    split; [|apply Forall_app_2; [done|by apply Forall_singleton]].
    apply StronglySorted_app_iff. split; [done|]. split; [repeat constructor|].
    intros x y Hx ->%list_elem_of_singleton. pose proof (joined_ge log x Hall Hx). lia.
Qed.

End Session.

(** C7: the order of the subcommands: whatever sequence of [bootm] subcommands is
    typed, with and without success, between two [start]s each of them is carried
    out at most once and only in the order loados, ramdisk, fdt, cmdline, bdt,
    prep, go; [images.state] holds exactly the states of those that were. *)
Theorem subcommands_in_order {Group Point} `{!Mbedtls Group Point} {S} `{!BootServices S}
    ram_end junk stack keys load_addr (w : @world S) log :
  os_keeps_state (S:=S) -> session ram_end junk stack keys load_addr w log ->
  StronglySorted Z.lt log /\ Forall (fun s => s ∈ sub_states) log /\ state (images w) = joined log
  /\ forall args st o w', admitted args w = Some (Some st) -> st <> BOOTM_STATE_START ->
       do_bootm_subcommand ram_end junk stack keys load_addr args w = Some (o, w') ->
       forall s, s ∈ log -> s < st.
Proof.
  intros Hos Hs. destruct (session_ok _ _ _ _ _ w log Hos Hs) as (Hj & Hsort & Hall).
  split_and!; try done. intros args st o w' Ha Hst Hsub s Hin.
  destruct (subcommand_state _ _ _ _ _ args w (Some st) o w' Hos Ha Hsub) as (_ & Hcase).
  destruct (Z.eqb_spec st BOOTM_STATE_START); [done|].
  pose proof (joined_ge log s Hall Hin). lia.
Qed.

(** ** Samples *)

#[local] Existing Instance toy_library.

(** A board with one gigabyte and a list of variables; no decompressor, and
    operating systems that return. *)
#[local] Instance no_services : BootServices (list (list Z * list Z)) := {|
  getenv s n := snd <$> find (fun v => bool_decide (v.1 = n)) s;
  setenv n v s := Some ((n, v) :: s);
  dram_size := 2 ^ 30;
  lmb_reserve_platform l := Some l;
  uncompress _ _ _ _ _ _ := (1, []);
  os_command _ _ h m s := Some (Return 0, h, m, s);
|}.

Definition blank : bootm_headers :=
  Headers (BootImages.Images None 0 false None None true) 0 no_info 0 (0, 0) (0, 0) (0, 0) 0 (Lmb.lmb_init no_blocks no_blocks).

(** Power-on with an image in memory. *)
Definition board (image : list Z) (vars : list (list Z * list Z)) : world :=
  World blank (store (fun _ => 0) at_addr image) vars.

Definition no_verify : list (list Z * list Z) := [(cstr (bytes_of "verify"), cstr (bytes_of "n"))].

(** [bootm] with each of the lists of words, until one does not return; how the
    last one ended. *)
Fixpoint typed (image : list Z) (lines : list (list string)) (w : world) : option (outcome * @world (list (list Z * list Z))) :=
  match lines with
  | [] => None
  | l :: lines =>
      '(o, w) ← do_bootm (at_addr + Z.of_nat (length image)) FitSample.junk FitSample.stack FitSample.keys at_addr
                  (map (fun a => cstr (bytes_of a)) l) w;
      match lines, o with
      | _ :: _, Return _ => typed image lines w
      | _, _ => Some (o, w)
      end
  end.

Definition ends (image : list Z) (lines : list (list string)) (vars : list (list Z * list Z)) : option outcome :=
  option_map fst (typed image lines (board image vars)).

Lemma ends_inv image v o :
  ends image [[]] v = Some o ->
  exists w', do_bootm (at_addr + Z.of_nat (length image)) FitSample.junk FitSample.stack FitSample.keys at_addr
               [] (board image v) = Some (o, w').
Proof.
  unfold ends. cbn [typed map]. destruct (do_bootm _ _ _ _ _ _ _) as [[o1 w1]|]; [|done].
  intros [= ->]. by exists w1.
Qed.

Example sample_runs : ends sample_fit [[]] [] = Some (Boot 5 0).
Proof. by vm_compute. Qed.

Lemma bootm_runs_verified_witness :
  exists w', do_bootm (at_addr + Z.of_nat (length sample_fit)) FitSample.junk FitSample.stack FitSample.keys at_addr
               [] (board sample_fit []) = Some (Boot 5 0, w')
  /\ exists addr conf uname k n,
       parse_argument at_addr None = Some (addr, conf, uname) /\ k_addr k = addr
       /\ boot_get_kernel (view (at_addr + Z.of_nat (length sample_fit)) (ram (board sample_fit []))) FitSample.junk
            FitSample.stack FitSample.keys at_addr None true = Some (Some k)
       /\ accepted (view (at_addr + Z.of_nat (length sample_fit)) (ram (board sample_fit []))) FitSample.stack
            FitSample.keys uname k
       /\ exists m, BootImages.tree_moved (ram (board sample_fit [])) m /\
          let i := os_info (images w') in
          image_start i = os_data k /\ image_len i = os_len k /\ start i = k_addr k /\ 5 = os i
          /\ kernel_in_place i (load m (os_data k) (Z.to_nat (os_len k))) (ram w') n
          /\ (k_fit k <> None -> apart i n).
Proof.
  destruct (ends_inv _ _ _ sample_runs) as [w' E]. exists w'. split; [exact E|].
  refine (bootm_runs_verified _ FitSample.junk _ _ at_addr [] (board sample_fit []) w' 5 eq_refl _ _ eq_refl _ E).
  - exact FitSample.junk_bytes.
  - clear E. apply store_bytes; [done|apply sample_fit_bytes].
  - clear E. intros X. apply (f_equal (option_map (Z.eqb 0))) in X. vm_compute in X. discriminate X.
Defined.

(** A changed byte of the kernel. *)
Definition broken_fit : list Z := <[108%nat := 0]> sample_fit.

Lemma bootm_rejects_witness :
  exists h, do_bootm (at_addr + Z.of_nat (length broken_fit)) FitSample.junk FitSample.stack FitSample.keys at_addr
              [] (board broken_fit [])
            = Some (Return 1, World h (ram (board broken_fit [])) []) /\ state h = 0.
Proof.
  assert (E : option_map (fun h => BootImages.verify (found h)) (clear_images []) = Some true) by (vm_compute; reflexivity).
  destruct (clear_images []) as [h|] eqn:Eh; [|discriminate E]. injection E as Hv.
  exists h. refine (bootm_rejects _ _ _ _ at_addr [] (board broken_fit []) h eq_refl Eh _).
  rewrite Hv. vm_compute. reflexivity.
Defined.

(** Two subcommands, and what the second one came to. *)
Definition two_steps (image : list Z) (a b : string) (w : @world (list (list Z * list Z))) :=
  let run a := do_bootm_subcommand (at_addr + Z.of_nat (length image)) FitSample.junk FitSample.stack
                 FitSample.keys at_addr [cstr (bytes_of a)] in
  '(o1, w1) ← run a w; '(o2, w2) ← run b w1;
  Some (o1, admitted [cstr (bytes_of b)] w1, w2).

Lemma two_steps_session image a b w st w2 :
  state (images w) = 0 -> admitted [cstr (bytes_of a)] w = Some (Some BOOTM_STATE_START) -> st <> BOOTM_STATE_START ->
  two_steps image a b w = Some (Return 0, Some (Some st), w2) ->
  session (at_addr + Z.of_nat (length image)) FitSample.junk FitSample.stack FitSample.keys at_addr
    w2 [BOOTM_STATE_START; st].
Proof.
  intros Hw Ha Hst. unfold two_steps. cbn zeta. intros ([o1 w1] & E1 & H)%bind_Some.
  apply bind_Some in H as ([o2 w2'] & E2 & H). injection H as -> Hb <-.
  refine (carried_out _ _ _ _ _ w1 [BOOTM_STATE_START] _ st o2 _ _ Hb Hst E2).
  refine (restarted _ _ _ _ _ w [] _ _ _ Ha E1). by apply power_on.
Qed.

Example sample_steps :
  option_map fst (two_steps sample_fit "start" "loados" (board sample_fit []))
  = Some (Return 0, Some (Some BOOTM_STATE_LOADOS)).
Proof. by vm_compute. Qed.

Lemma option_map_fst_inv {A B} (x : option (A * B)) a : option_map fst x = Some a -> exists b, x = Some (a, b).
Proof. destruct x as [[a' b]|]; [|done]. intros [= ->]. by exists b. Qed.

Lemma subcommands_in_order_witness :
  exists w : @world (list (list Z * list Z)), session (at_addr + Z.of_nat (length sample_fit)) FitSample.junk FitSample.stack FitSample.keys at_addr
      w [BOOTM_STATE_START; BOOTM_STATE_LOADOS]
    /\ StronglySorted Z.lt [BOOTM_STATE_START; BOOTM_STATE_LOADOS]
    /\ state (images w) = joined [BOOTM_STATE_START; BOOTM_STATE_LOADOS].
Proof.
  destruct (option_map_fst_inv _ _ sample_steps) as [w E].
  apply two_steps_session in E; [|reflexivity|reflexivity|discriminate].
  exists w. split; [exact E|].
  assert (Hk : os_keeps_state (S:=list (list Z * list Z))) by (intros ? ? ? ? ? ? ? ? ? E1; injection E1 as _ <- _ _; reflexivity).
  destruct (subcommands_in_order _ _ _ _ _ w [BOOTM_STATE_START; BOOTM_STATE_LOADOS] Hk E)
    as (Hsort & _ & Hst & _).
  split; [exact Hsort|exact Hst].
Defined.

(** *** What a board does that follows no rule of the theorems *)

(** A step by step boot; [go] right after [start] jumps to a load address that
    nothing was moved to, and without [start] through the pointer of no
    operating system. *)
Example steps :
  ends sample_fit [["start"]; ["loados"]; ["go"]]%string [] = Some (Boot 5 BOOTM_STATE_OS_GO)
  /\ ends sample_fit [["start"]; ["go"]]%string [] = Some (Boot 5 BOOTM_STATE_OS_GO)
  /\ ends sample_fit [["go"]]%string [] = Some Wild_call
  /\ ends sample_fit [["start"]; ["loados"]; ["loados"]]%string [] = Some (Return CMD_RET_USAGE).
Proof. by vm_compute. Qed.

(** The variable [verify] turns all checks of the image off. *)
Example verify_off :
  ends broken_fit [[]] [] = Some (Return 1) /\ ends broken_fit [[]] no_verify = Some (Boot 5 0).
Proof. by vm_compute. Qed.

(** An operating system behind the end of [boot_os]. *)
Example unknown_os : ends (legacy_image 20 (bytes_of "evil")) [[]] [] = Some Wild_call.
Proof. by vm_compute. Qed.

End BootmRun.
