(* ===== verification/Atags.v ===== *)
(** * The tagged list for a kernel without a device tree (arch/arm/lib/bootm.c)

    [boot_prep_linux] without a tree stores a list of tags at
    [bi_boot_params].  The [params] pointer and the memory are passed along;
    the structs of arch/arm/include/asm/setup.h are laid out by offsets, little
    endian.  [CONFIG_SERIAL_TAG] and [CONFIG_REVISION_TAG] are not configured;
    [setup_board_tags] is empty.  [getenv] is an argument, and so are the
    values the board's own functions give. *)

From S2P Require Import Prelude Cstring Vsprintf.

Module Atags.
Import Cstring Vsprintf.

Definition ATAG_NONE : Z := 0.
Definition ATAG_CORE : Z := 0x54410001.
Definition ATAG_MEM : Z := 0x54410002.
Definition ATAG_MEM64 : Z := 0x54420002.
Definition ATAG_INITRD2 : Z := 0x54420005.
Definition ATAG_CMDLINE : Z := 0x54410009.
Definition ATAG_MARVELL : Z := 0x41000403.
Definition VER_NUM : Z := 0x11120000.

(** What the board's functions return. *)
Record board := Board {
  mvBoardIdGet : Z;
  mvTclkGet : Z;
  bus_clk : Z;
  mvCtrlUsbMaxGet : nat;
  mvCtrlEthMaxPortGet : nat;
}.

Definition set8 (m : Z -> Z) (a v : Z) : Z -> Z := store m a [u8 v].
Definition set16 (m : Z -> Z) (a v : Z) : Z -> Z := store m a (le_bytes 2 v).
Definition set32 (m : Z -> Z) (a v : Z) : Z -> Z := store m a (le_bytes 4 v).
Definition set64 (m : Z -> Z) (a v : Z) : Z -> Z := store m a (le_bytes 8 v).
Definition get32 (m : Z -> Z) (a : Z) : Z := le_combine (load m a 4).

(** [params] and memory. *)
Definition cursor : Type := Z * (Z -> Z).

Definition set_hdr (tag size : Z) (c : cursor) : cursor := (c.1, set32 (set32 c.2 (c.1 + 4) tag) c.1 size).
Definition tag_next (c : cursor) : cursor := (c.1 + 4 * get32 c.2 c.1, c.2).

Definition setup_start_tag (bi_boot_params : Z) (m : Z -> Z) : cursor :=
  let '(p, m) := set_hdr ATAG_CORE 5 (bi_boot_params, m) in
  tag_next (p, set32 (set32 (set32 m (p + 8) 0) (p + 12) 0) (p + 16) 0).

Fixpoint skip_spaces (s : list Z) : option (list Z) :=
  match s with
  | [] => None
  | c :: s' => if c =? 32 then skip_spaces s' else Some s
  end.

Definition setup_commandline_tag (commandline : option (list Z)) (c : cursor) : option cursor :=
  match commandline with
  | None => Some c
  | Some s =>
      p ← skip_spaces s;
      ch ← head p;
      if ch =? 0 then Some c else
      len ← strlen p;
      let '(params, m) := set_hdr ATAG_CMDLINE ((8 + Z.of_nat len + 1 + 4) .>> 2) c in
      Some (tag_next (params, store m (params + 8) (take (len + 1) p)))
  end.

(** A bank with [lpae_en]; [start] and [size] are 64 bits wide. *)
Definition mem64_tag (start size : Z) (c : cursor) : cursor :=
  if size =? 0 then c else
  let put sz c := let '(p, m) := c in (p, set64 (set64 m (p + 16) start) (p + 8) sz) in
  let c := set_hdr ATAG_MEM64 6 c in
  if wrap 64 (start + size) =? 0x100000000
  then set_hdr ATAG_MEM64 6 (tag_next (put (wrap 64 (0xf0000000 - start)) c))
  else tag_next (put size c).

(** The 32-bit form; only the test of the size uses all of it. *)
Definition mem32_tag (start size : Z) (c : cursor) : cursor :=
  if size =? 0 then c else
  let start := u32 start in
  let size := u32 size in
  let put sz c := let '(p, m) := c in (p, set32 (set32 m (p + 12) start) (p + 8) sz) in
  let c := set_hdr ATAG_MEM 4 c in
  if u32 (start - 1 + size) =? 0xffffffff
  then set_hdr ATAG_MEM 4 (tag_next (put (u32 (0xf0000000 - start)) c))
  else if size =? 0 then c else tag_next (put size c).

Section Environment.
Context (getenv : list Z -> option (list Z)).

(** Whether a variable is [no] or [No], or not set. *)
Definition env_no (name : str) : option bool :=
  match getenv (cstr name) with
  | None => Some true
  | Some s =>
      a ← strcmp s (cstr (bytes_of "no"));
      if a =? 0 then Some true else b ← strcmp s (cstr (bytes_of "No")); Some (b =? 0)
  end.

Definition setup_memory_tags (dram_hw_info : list (Z * Z)) (c : cursor) : option cursor :=
  no ← env_no (bytes_of "enaLPAE");
  Some (fold_left (fun c b => if negb no then mem64_tag b.1 b.2 c else mem32_tag b.1 b.2 c) dram_hw_info c).

Definition setup_initrd_tag (initrd_start initrd_end : Z) (c : cursor) : cursor :=
  let '(p, m) := set_hdr ATAG_INITRD2 4 c in
  tag_next (p, set32 (set32 m (p + 8) initrd_start) (p + 12) (u32 (initrd_end - initrd_start))).

(** ** The tag of the board's kernel *)

(** [sprintf] into [temp]. *)
Definition temp (fmt : string) (i : Z) : option (list Z) :=
  s ← sprintf (bytes_of fmt) [AInt i]; if (20 <? length s)%nat then None else Some s.

Fixpoint usb_hosts (n : nat) (i word : Z) : option Z :=
  match n with
  | O => Some word
  | S n =>
      name ← temp "usb%dMode" i;
      host ← (match getenv name with
              | None => Some true
              | Some s =>
                  a ← strcmp s (cstr (bytes_of "Host"));
                  if a =? 0 then Some true else b ← strcmp s (cstr (bytes_of "host")); Some (b =? 0)
              end);
      usb_hosts n (i + 1) (if host : bool then word .| u32 (1 .<< i) else word .& u32 (Z.lnot (1 .<< i)))
  end.

(** Six numbers of two digits, three characters apart. *)
Fixpoint mvMacStrToHex (n : nat) (s : list Z) : option (list Z) :=
  match n with
  | O => Some []
  | S n =>
      a ← head s; b ← s !! 1%nat;
      '(v, _) ← simple_strtol [a; b; 0] 16;
      rest ← mvMacStrToHex n (drop 3 s); Some (u8 v :: rest)
  end.

Fixpoint eth_ports (n : nat) (i p : Z) (m : Z -> Z) : option (Z -> Z) :=
  match n with
  | O => Some m
  | S n =>
      name ← (if i =? 3 then Some (cstr (bytes_of "mv_pon_addr"))
              else if i =? 0 then Some (cstr (bytes_of "ethaddr")) else temp "eth%daddr" i);
      m ← match getenv name with
          | None => Some m
          | Some s => mac ← mvMacStrToHex 6 s; Some (store m (p + 24 + 6 * i) mac)
          end;
      name ← (if i =? 0 then Some (cstr (bytes_of "ethmtu")) else temp "eth%dmtu" i);
      m ← match getenv name with
          | None => Some m
          | Some s => '(v, _) ← simple_strtoul s 10; Some (set16 m (p + 48 + 2 * i) v)
          end;
      eth_ports n (i + 1) p m
  end.

(** [ram m] is the memory from address 0 on, where [strcmp] looks when the
    variable nandEcc is not set. *)
Definition setup_marvell_tag (bd : board) (ram : (Z -> Z) -> list Z) (c : cursor) : option cursor :=
  let '(p, m) := set_hdr ATAG_MARVELL 16 c in
  let m := set32 m (p + 8) VER_NUM in
  let ecc := default (ram m) (getenv (cstr (bytes_of "nandEcc"))) in
  a ← strcmp ecc (cstr (bytes_of "4bit"));
  m ← (if a =? 0 then Some (set32 m (p + 56) 4) else
       b ← strcmp ecc (cstr (bytes_of "1bit"));
       Some (if b =? 0 then set32 m (p + 56) 1 else m));
  let m := set32 m (p + 8) (get32 m (p + 8) .| mvBoardIdGet bd) in
  let m := set32 (set32 m (p + 12) (mvTclkGet bd)) (p + 16) (bus_clk bd) in
  usb ← usb_hosts (mvCtrlUsbMaxGet bd) 0 (get32 m (p + 20));
  let m := set32 m (p + 20) usb in
  let m := store (store m (p + 24) (replicate 24 0)) (p + 48) (replicate 8 0) in
  m ← eth_ports (mvCtrlEthMaxPortGet bd) 0 p m;
  Some (tag_next (p, set32 m (p + 60) 0xffffffff)).

Definition setup_end_tag (c : cursor) : Z -> Z := (set_hdr ATAG_NONE 0 c).2.

(** The branch of [boot_prep_linux] without a tree. *)
Definition setup_tags (bd : board) (ram : (Z -> Z) -> list Z) (bi_boot_params : Z) (dram_hw_info : list (Z * Z))
    (rd : Z * Z) (m : Z -> Z) : option (Z -> Z) :=
  let c := setup_start_tag bi_boot_params m in
  c ← setup_commandline_tag (getenv (cstr (bytes_of "bootargs"))) c;
  c ← setup_memory_tags dram_hw_info c;
  let c := if negb (rd.1 =? 0) && negb (rd.2 =? 0) then setup_initrd_tag rd.1 rd.2 c else c in
  no ← env_no (bytes_of "mainlineLinux");
  c ← (if no : bool then setup_marvell_tag bd ram c else Some c);
  Some (setup_end_tag c).

End Environment.

(** ** What the kernel reads *)

(** [for_each_tag] of asm/setup.h: the tags with the bytes behind their
    headers. *)
Fixpoint for_each_tag (fuel : nat) (m : Z -> Z) (p : Z) : option (list (Z * list Z)) :=
  match fuel with
  | O => None
  | S fuel =>
      let size := get32 m p in
      if size =? 0 then Some [] else
      rest ← for_each_tag fuel m (p + 4 * size);
      Some ((get32 m (p + 4), load m (p + 8) (Z.to_nat (4 * size - 8))) :: rest)
  end.

(** Tags in a row from [p] to [q]. *)
Inductive tags_in (m : Z -> Z) : Z -> list (Z * list Z) -> Z -> Prop :=
  | tags_nil p : tags_in m p [] p
  | tags_cons p size l q :
      get32 m p = size -> 2 <= size -> tags_in m (p + 4 * size) l q ->
      tags_in m p ((get32 m (p + 4), load m (p + 8) (Z.to_nat (4 * size - 8))) :: l) q.

Lemma tags_in_le m p l q : tags_in m p l q -> p <= q.
Proof. induction 1; lia. Qed.

Lemma load_store_out m a l b n : b + Z.of_nat n <= a \/ a + Z.of_nat (length l) <= b ->
  load (store m a l) b n = load m b n.
Proof. intros H. apply load_ext. intros x Hx. apply store_out. lia. Qed.

Lemma get32_ext m m' p : (forall x, p <= x < p + 4 -> m' x = m x) -> get32 m' p = get32 m p.
Proof. intros H. unfold get32. f_equal. apply load_ext. intros x Hx. apply H. lia. Qed.

Lemma tags_in_frame m m' p l q : tags_in m p l q -> (forall x, p <= x < q -> m' x = m x) -> tags_in m' p l q.
Proof.
  induction 1 as [|p size l q Hs H2 H IH]; intros Hm; [constructor|].
  pose proof (tags_in_le _ _ _ _ H) as Hle.
  replace (get32 m (p + 4)) with (get32 m' (p + 4)) by (apply get32_ext; intros x Hx; apply Hm; lia).
  replace (load m (p + 8) (Z.to_nat (4 * size - 8))) with (load m' (p + 8) (Z.to_nat (4 * size - 8)))
    by (apply load_ext; intros x Hx; apply Hm; lia).
  constructor; [rewrite <- Hs; apply get32_ext; intros x Hx; apply Hm; lia|done|].
  apply IH. intros x Hx. apply Hm. lia.
Qed.

Lemma tags_in_snoc m p l q size : tags_in m p l q -> get32 m q = size -> 2 <= size ->
  tags_in m p (l ++ [(get32 m (q + 4), load m (q + 8) (Z.to_nat (4 * size - 8)))]) (q + 4 * size).
Proof.
  induction 1 as [p|p sz l q Hs H2 H IH]; intros Hq Hge; cbn [app]; constructor; try done; [constructor|by apply IH].
Qed.

Lemma for_each_tag_spec m p l q fuel : tags_in m p l q -> get32 m q = 0 -> (length l < fuel)%nat ->
  for_each_tag fuel m p = Some l.
Proof.
  intros H. revert fuel. induction H as [p|p size l q Hs H2 H IH]; intros [|fuel] Hq Hf; cbn [length] in Hf; try lia; cbn [for_each_tag].
  - by rewrite Hq.
  - rewrite Hs. destruct (Z.eqb_spec size 0); [lia|]. rewrite IH by (done || lia). done.
Qed.

(** What a tag is to hold: the bytes it starts with. *)
Definition reads (want got : Z * list Z) : Prop := want.1 = got.1 /\ want.2 `prefix_of` got.2.

(** The cursor behind tags that read as wanted. *)
Definition written (base : Z) (want : list (Z * list Z)) (c : cursor) : Prop :=
  exists l, tags_in c.2 base l c.1 /\ Forall2 reads want l.

Lemma get32_set32 m a v : get32 (set32 m a v) a = u32 v.
Proof. unfold get32, set32. pose proof (load_store m a (le_bytes 4 v)) as H. rewrite length_le_bytes in H. by rewrite H, le_combine_le_bytes. Qed.

(** A further tag. *)
Lemma written_tag base want p m tag size m' P :
  written base want (p, m) -> 2 <= size -> in_word 32 tag ->
  (forall x, x < p -> m' x = m x) -> get32 m' p = size -> get32 m' (p + 4) = tag ->
  P `prefix_of` load m' (p + 8) (Z.to_nat (4 * size - 8)) ->
  written base (want ++ [(tag, P)]) (tag_next (p, m')).
Proof.
  intros (l & Hl & Hr) Hs Ht Hm Hsz Htag HP. unfold tag_next. cbn [fst snd] in *. rewrite Hsz. eexists. split.
  - apply tags_in_snoc; [|done|done]. eapply tags_in_frame; [exact Hl|]. intros x Hx. apply Hm. lia.
  - apply Forall2_app; [done|]. constructor; [|constructor]. split; [by cbn [fst]|done].
Qed.

Lemma prefix_load m a n P : load m a (length P) = P -> (length P <= n)%nat -> P `prefix_of` load m a n.
Proof.
  intros H Hn. replace n with (length P + (n - length P))%nat by lia. rewrite load_app, H. by eexists.
Qed.

(** The stores of one tag: later ones do not reach back. *)
Ltac peel := unfold set64, set32; rewrite !store_out by (rewrite ?length_le_bytes; lia).

Ltac peel_load :=
  repeat first
    [ rewrite load_store_out by (rewrite ?length_le_bytes; lia)
    | match goal with |- context [load (store ?m ?a ?l) ?a ?n] => change n with (length l); rewrite load_store end ].

Lemma get32_out m a l p : p + 4 <= a \/ a + Z.of_nat (length l) <= p -> get32 (store m a l) p = get32 m p.
Proof. intros H. apply get32_ext. intros x Hx. apply store_out. lia. Qed.

Ltac word := rewrite ?get32_out by (rewrite ?length_le_bytes; lia); first [apply get32_set32 | rewrite get32_set32; by apply u32_small].

Lemma start_tag p m : written p [(ATAG_CORE, le_bytes 4 0 ++ le_bytes 4 0 ++ le_bytes 4 0)] (setup_start_tag p m).
Proof.
  unfold setup_start_tag, set_hdr. cbn [fst snd].
  apply (written_tag p [] p m ATAG_CORE 5); [by exists []; split; constructor|lia|by unfold in_word| | | |].
  - intros x Hx. peel. done.
  - unfold set32 at 1 2 3. rewrite !get32_out by (rewrite length_le_bytes; lia). by rewrite get32_set32.
  - unfold set32 at 1 2 3 4. rewrite !get32_out by (rewrite length_le_bytes; lia). by rewrite get32_set32.
  - change (Z.to_nat (4 * 5 - 8)) with (4 + (4 + 4))%nat. rewrite !load_app. change (p + 8 + Z.of_nat 4) with (p + 8 + 4).
    replace (p + 8 + 4) with (p + 12) by lia. replace (p + 12 + Z.of_nat 4) with (p + 16) by lia.
    unfold set32. peel_load. done.
Qed.

(** A header and two fields of equal width, stored in either order. *)
Lemma two_fields base want c tag size a b n va vb :
  written base want c -> in_word 32 tag -> in_word 32 size ->
  (0 < n)%nat -> size = 2 + 2 * Z.of_nat n ->
  (a = c.1 + 8 /\ b = c.1 + 8 + 4 * Z.of_nat n \/ b = c.1 + 8 /\ a = c.1 + 8 + 4 * Z.of_nat n) ->
  let '(p, m) := set_hdr tag size c in
  written base (want ++ [(tag, if a <? b then le_bytes (4 * n) va ++ le_bytes (4 * n) vb else le_bytes (4 * n) vb ++ le_bytes (4 * n) va)])
    (tag_next (p, store (store m a (le_bytes (4 * n) va)) b (le_bytes (4 * n) vb))).
Proof.
  destruct c as [p m]. unfold set_hdr. cbn [fst snd]. intros Hw Ht Hs Hn Hsz Hab.
  apply (written_tag base want p m tag size); [done|lia|done| | | |].
  - intros x Hx. peel. done.
  - rewrite !get32_out by (rewrite length_le_bytes; lia). rewrite get32_set32. by apply u32_small.
  - unfold set32 at 1. rewrite !get32_out by (rewrite length_le_bytes; lia). rewrite get32_set32. by apply u32_small.
  - replace (Z.to_nat (4 * size - 8)) with (4 * n + 4 * n)%nat by lia.
    replace (if a <? b then le_bytes (4 * n) va ++ le_bytes (4 * n) vb else le_bytes (4 * n) vb ++ le_bytes (4 * n) va)
      with (load (store (store (set32 (set32 m (p + 4) tag) p size) a (le_bytes (4 * n) va)) b (le_bytes (4 * n) vb)) (p + 8) (4 * n + 4 * n)).
    { done. }
    assert (Hl : forall m a v, load (store m a (le_bytes (4 * n) v)) a (4 * n) = le_bytes (4 * n) v).
    { clear. intros m a v. pose proof (load_store m a (le_bytes (4 * n) v)) as H. by rewrite length_le_bytes in H. }
    rewrite load_app. replace (p + 8 + Z.of_nat (4 * n)) with (p + 8 + 4 * Z.of_nat n) by lia.
    destruct Hab as [[-> ->]|[-> ->]].
    + destruct (Z.ltb_spec (p + 8) (p + 8 + 4 * Z.of_nat n)); [|lia].
      rewrite load_store_out by (rewrite length_le_bytes; lia). by rewrite !Hl.
    + destruct (Z.ltb_spec (p + 8 + 4 * Z.of_nat n) (p + 8)); [lia|].
      rewrite Hl, load_store_out by (rewrite length_le_bytes; lia). by rewrite Hl.
Qed.

Lemma initrd_tag base want c rd_start rd_end :
  written base want c ->
  written base (want ++ [(ATAG_INITRD2, le_bytes 4 rd_start ++ le_bytes 4 (u32 (rd_end - rd_start)))]) (setup_initrd_tag rd_start rd_end c).
Proof.
  intros H. pose proof (two_fields base want c ATAG_INITRD2 4 (c.1 + 8) (c.1 + 12) 1 rd_start (u32 (rd_end - rd_start)) H) as Ht.
  unfold setup_initrd_tag. destruct (set_hdr ATAG_INITRD2 4 c) as [p m] eqn:E. assert (c.1 = p) as Ep by (unfold set_hdr in E; by injection E).
  rewrite Ep in Ht. destruct (Z.ltb_spec (p + 8) (p + 12)); [|lia].
  apply Ht; [by unfold in_word|by unfold in_word|lia|done|left; lia].
Qed.

(** The size of a bank with the last 256 MiB of 4 GiB left out. *)
Definition bank_size (start size : Z) : Z := if start + size =? 2 ^ 32 then 0xf0000000 - start else size.

Definition bank_tag (lpae : bool) (b : Z * Z) : list (Z * list Z) :=
  if b.2 =? 0 then [] else
  [if lpae then (ATAG_MEM64, le_bytes 8 (bank_size b.1 b.2) ++ le_bytes 8 b.1)
   else (ATAG_MEM, le_bytes 4 (bank_size b.1 b.2) ++ le_bytes 4 b.1)].

(** Where a bank may lie. *)
Definition bank_ok (lpae : bool) (b : Z * Z) : Prop :=
  0 <= b.1 /\ 0 <= b.2 /\ b.1 + b.2 < (if lpae then 2 ^ 64 else 2 ^ 32 + 1)
  /\ (b.1 + b.2 = 2 ^ 32 -> b.1 <= 0xf0000000).

Lemma written_hdr base want c tag size : written base want c -> written base want (set_hdr tag size c).
Proof.
  intros (l & Hl & Hr). exists l. split; [|done]. destruct c as [p m]. cbn [set_hdr fst snd] in *. eapply tags_in_frame; [exact Hl|].
  intros x Hx. peel. done.
Qed.

Lemma memory_tag base want c lpae b : written base want c -> bank_ok lpae b ->
  written base (want ++ bank_tag lpae b) (if lpae then mem64_tag b.1 b.2 c else mem32_tag b.1 b.2 c).
Proof.
  intros H (Hb1 & Hb2 & Hb3 & Hb4). destruct b as [start size]. cbn [fst snd] in *. unfold bank_tag. cbn [fst snd].
  assert (Hput : forall tag sz n v, (n = 1 \/ n = 2)%nat -> in_word 32 tag -> sz = 2 + 2 * Z.of_nat n ->
    let '(p, m) := set_hdr tag sz c in
    written base (want ++ [(tag, le_bytes (4 * n) v ++ le_bytes (4 * n) start)])
      (tag_next (p, store (store m (p + 8 + 4 * Z.of_nat n) (le_bytes (4 * n) start)) (p + 8) (le_bytes (4 * n) v)))).
  { intros tag sz n v Hn Ht Hsz. pose proof (two_fields base want c tag sz (c.1 + 8 + 4 * Z.of_nat n) (c.1 + 8) n start v H Ht) as Hf.
    destruct (set_hdr tag sz c) as [p m] eqn:E. assert (c.1 = p) as Ep by (unfold set_hdr in E; by injection E). rewrite Ep in Hf.
    destruct (Z.ltb_spec (p + 8 + 4 * Z.of_nat n) (p + 8)); [lia|]. apply Hf; [unfold in_word; lia|lia|done|right; lia]. }
  destruct lpae.
  - unfold mem64_tag. destruct (Z.eqb_spec size 0); [by rewrite app_nil_r|].
    rewrite wrap_small by (unfold in_word; lia). unfold bank_size. specialize (fun v => Hput ATAG_MEM64 6 2%nat v ltac:(lia) ltac:(by unfold in_word) eq_refl) as Hp.
    destruct (set_hdr ATAG_MEM64 6 c) as [p m]. change (4 * Z.of_nat 2) with 8 in Hp. change (4 * 2)%nat with 8%nat in Hp.
    replace (p + 8 + 8) with (p + 16) in Hp by lia. change (2 ^ 32) with 0x100000000 in *.
    destruct (Z.eqb_spec (start + size) 0x100000000); [|apply Hp].
    apply written_hdr. rewrite wrap_small by (unfold in_word; lia). apply Hp.
  - unfold mem32_tag. destruct (Z.eqb_spec size 0); [by rewrite app_nil_r|]. unfold bank_size.
    specialize (fun v => Hput ATAG_MEM 4 1%nat v ltac:(lia) ltac:(by unfold in_word) eq_refl) as Hp.
    rewrite (u32_small start) by (unfold in_word; lia).
    destruct (set_hdr ATAG_MEM 4 c) as [p m]. change (4 * Z.of_nat 1) with 4 in Hp. change (4 * 1)%nat with 4%nat in Hp.
    replace (p + 8 + 4) with (p + 12) in Hp by lia.
    destruct (Z.eqb_spec (start + size) (2 ^ 32)) as [E|E].
    + replace (u32 (start - 1 + u32 size)) with 0xffffffff.
      2: { destruct (decide (size = 2 ^ 32)) as [->|]; [by replace start with 0 by lia|].
           rewrite (u32_small size) by (unfold in_word; lia). by replace (start - 1 + size) with 0xffffffff by lia. }
      rewrite Z.eqb_refl. apply written_hdr. rewrite u32_small by (unfold in_word; lia). apply Hp.
    + rewrite (u32_small size) by (unfold in_word; lia). rewrite u32_small by (unfold in_word; lia).
      destruct (Z.eqb_spec (start - 1 + size) 0xffffffff); [lia|]. destruct (Z.eqb_spec size 0); [done|]. apply Hp.
Qed.

Lemma memory_tags base lpae hw : forall want c, written base want c -> Forall (bank_ok lpae) hw ->
  written base (want ++ concat (map (bank_tag lpae) hw))
    (fold_left (fun c b => if lpae then mem64_tag b.1 b.2 c else mem32_tag b.1 b.2 c) hw c).
Proof.
  induction hw as [|b hw IH]; intros want c H Hok; cbn [map concat fold_left]; [by rewrite app_nil_r|].
  apply Forall_cons_1 in Hok as [Hb Hok]. rewrite app_assoc. apply IH; [|done]. by apply memory_tag.
Qed.

(** The command line without leading spaces; an empty one gets no tag. *)
Fixpoint strip (s : str) : str :=
  match s with
  | [] => []
  | c :: s' => if c =? 32 then strip s' else s
  end.

Definition cmdline_tag (bootargs : option str) : list (Z * list Z) :=
  match bootargs with
  | None => []
  | Some a => match strip a with [] => [] | s => [(ATAG_CMDLINE, cstr s)] end
  end.

Lemma skip_spaces_ok a z : is_str a -> skip_spaces (a ++ 0 :: z) = Some (strip a ++ 0 :: z) /\ is_str (strip a).
Proof.
  induction 1 as [|c a Hc Ha IH]; [split; [reflexivity|constructor]|]. cbn [app skip_spaces strip]. destruct (c =? 32); [exact IH|].
  split; [done|]. by constructor.
Qed.

Lemma commandline_tag base want c bootargs z :
  written base want c -> (forall a, bootargs = Some a -> is_str a /\ Z.of_nat (length a) < 2 ^ 31) ->
  exists c', setup_commandline_tag (option_map (fun a => a ++ 0 :: z) bootargs) c = Some c'
    /\ written base (want ++ cmdline_tag bootargs) c'.
Proof.
  intros H Ha. destruct bootargs as [a|]; cbn [option_map setup_commandline_tag cmdline_tag]; [|exists c; by rewrite app_nil_r].
  destruct (Ha a eq_refl) as [Hs Hl]. destruct (skip_spaces_ok a z Hs) as [-> Hst]. cbn [mbind option_bind].
  assert (Hlen : (length (strip a) <= length a)%nat) by (clear; induction a as [|x a IH]; cbn [strip length]; [lia|case_match; cbn [length]; lia]).
  destruct (strip a) as [|x s] eqn:E; cbn [app head mbind option_bind]; [exists c; by rewrite app_nil_r|].
  apply Forall_cons_1 in Hst as Hx. destruct Hx as [Hx _]. destruct (Z.eqb_spec x 0) as [|_]; [lia|].
  change (x :: s ++ 0 :: z) with ((x :: s) ++ 0 :: z). rewrite strlen_cstr by done. cbn [mbind option_bind].
  destruct c as [p m]. unfold set_hdr. cbn [fst snd]. eexists. split; [done|].
  set (n := length (x :: s)) in *. rewrite Z.shiftr_div_pow2 by lia. change (2 ^ 2) with 4.
  set (size := (8 + Z.of_nat n + 1 + 4) / 4).
  assert (Hsz : 4 * size <= 8 + Z.of_nat n + 5 < 4 * size + 4) by (unfold size; pose proof (Z.div_mod (8 + Z.of_nat n + 1 + 4) 4); pose proof (Z.mod_pos_bound (8 + Z.of_nat n + 1 + 4) 4); lia).
  assert (Et : take (n + 1) ((x :: s) ++ 0 :: z) = cstr (x :: s)).
  { unfold cstr. change ((x :: s) ++ 0 :: z) with ((x :: s) ++ [0] ++ z). rewrite app_assoc. apply take_app_length'.
    rewrite length_app. done. }
  rewrite Et. assert (Hcl : length (cstr (x :: s)) = (n + 1)%nat) by (unfold cstr; by rewrite length_app).
  apply (written_tag base want p m ATAG_CMDLINE size); [done|lia|by unfold in_word| | | |].
  - intros y Hy. rewrite store_out by lia. peel. done.
  - rewrite get32_out by lia. rewrite get32_set32. apply u32_small. lia.
  - rewrite get32_out by lia. unfold set32 at 1. rewrite get32_out by (rewrite length_le_bytes; lia). rewrite get32_set32. by apply u32_small.
  - apply prefix_load; [apply load_store|lia].
Qed.


(** ** A board to apply it to *)

Definition sample_env (n : list Z) : option (list Z) :=
  if bool_decide (n = cstr (bytes_of "bootargs")) then Some (bytes_of " console=ttyS0" ++ 0 :: [])
  else if bool_decide (n = cstr (bytes_of "mainlineLinux")) then Some (cstr (bytes_of "yes")) else None.

Definition sample_board : board := Board 0 200000000 200000000 1 1.


(** Without the variable nandEcc the board's tag is filled in from what lies
    at address 0. *)
Example nand_ecc_unset :
  option_map (fun c => get32 c.2 (0x100 + 56))
    (setup_marvell_tag (fun _ => None) (Board 0 0 0 0 0) (fun m => load m 0 8) (0x100, store (fun _ => 7) 0 (cstr (bytes_of "4bit"))))
  = Some 4.
Proof. vm_compute. reflexivity. Qed.

End Atags.
