(* ===== verification/Handover.v ===== *)
(** * Handing over to Linux (arch/arm/lib/bootm.c)

    The device tree for the kernel is made and moved, the ramdisk with it, and
    the kernel is entered.  [getenv] and the board's values are arguments; the
    clean-up of caches and interrupts before the jump, the console and the
    commands for the board's multi-boot timer are left out. *)

From S2P Require Import Prelude Crc32 Cstring Fdt FdtTree FdtQuery FdtRw FdtParts FdtEdit FdtOpen FdtPaths Vsprintf FdtSupport Lmb.
From S2P Require Import Image Fit Bootm BootmRun BootImages Atags.

Module Handover.
Import Cstring Fdt FdtQuery Vsprintf FdtSupport BootImages.

(** What the global data hold: the first bank, the banks the hardware has, the
    place for tags and the number of the machine. *)
Record global := Global {
  bi_dram0 : Z * Z;
  dram_hw_info : list (Z * Z);
  bi_boot_params : Z;
  bi_arch_number : Z;
}.

Definition _4G : Z := 0x100000000.
Definition _256M : Z := 0x10000000.

(** The stack grows down to [sp]; 4 KiB are kept for it. *)
Definition arch_lmb_reserve (gd : global) (sp : Z) (l : Lmb.lmb) : option Lmb.lmb :=
  let sp := u32 (sp - 4096) in
  '(_, l) ← Lmb.lmb_reserve l sp (u32 ((bi_dram0 gd).1 + (bi_dram0 gd).2 - sp)); Some l.

(** The last 256 MiB of 4 GiB are for I/O. *)
Definition fixup_bank (b : Z * Z) : Z * Z :=
  if wrap 64 (b.1 + b.2) =? _4G then (b.1, wrap 64 (_4G - _256M - b.1)) else b.

Definition fixup_memory_node (gd : global) (blob : list Z) : option (Z * list Z) :=
  fdt_fixup_memory_banks blob (map fixup_bank (dram_hw_info gd)).

Section Handover.
Context (ram_end : Z) (getenv : list Z -> option (list Z)) (gd : global) (bd : Atags.board) (ports : nat).

(** The fix-ups of [create_fdt] on the tree in its new place; what they return
    is not looked at. *)
Definition fixups (initrd : Z * Z) (fdt : list Z) : option (list Z) :=
  '(_, fdt) ← fdt_chosen fdt (getenv (cstr (bytes_of "bootargs"))) true;
  '(_, fdt) ← fixup_memory_node gd fdt;
  fdt ← fdt_fixup_ethernet ports getenv fdt;
  '(_, fdt) ← fdt_initrd fdt initrd.1 initrd.2 true;
  Some fdt.

(** Return value, images and memory.  [of_size] is a copy: [ft_len] stays. *)
Definition create_fdt (h : BootmRun.bootm_headers) (m : Z -> Z) : option (Z * BootmRun.bootm_headers * (Z -> Z)) :=
  let '(ft_addr, of_size) := BootmRun.ft h in
  l ← boot_fdt_add_mem_rsv_regions (BootmRun.lmb h) (view ram_end m ft_addr);
  let '(rd_start, rd_end) := BootmRun.rd h in
  '(ret, initrd, l, m) ← boot_ramdisk_high getenv l rd_start (u32 (rd_end - rd_start)) (BootmRun.initrd h) m;
  let h := BootmRun.set_lmb l (BootmRun.set_initrd initrd h) in
  if negb (ret =? 0) then Some (ret, h, m) else
  '(ret, tree, l, m) ← boot_relocate_fdt ram_end getenv l (ft_addr, of_size) m;
  let h := BootmRun.set_lmb l (BootmRun.set_ft (tree.1, of_size) h) in
  if negb (ret =? 0) then Some (ret, h, m) else
  '(_, m) ← on_fdt ram_end m tree.1 (fun fdt => fdt ← fixups initrd fdt; Some (tt, fdt));
  Some (0, h, m).

(** [None] inside is a hang. *)
Definition boot_prep_linux (h : BootmRun.bootm_headers) (m : Z -> Z) : option (option (BootmRun.bootm_headers * (Z -> Z))) :=
  if negb ((BootmRun.ft h).2 =? 0) then
    '(ret, h, m) ← create_fdt h m; Some (if negb (ret =? 0) then None else Some (h, m))
  else
    m ← Atags.setup_tags getenv bd (fun m => view ram_end m 0) (bi_boot_params gd) (dram_hw_info gd) (BootmRun.rd h) m;
    Some (Some (h, m)).

Definition machine_id : option Z :=
  match getenv (cstr (bytes_of "machid")) with
  | None => Some (bi_arch_number gd)
  | Some s => '(_, v) ← strict_strtoul s 16; Some v
  end.

Definition boot_jump_linux (h : BootmRun.bootm_headers) : option BootmRun.outcome :=
  machid ← machine_id;
  Some (BootmRun.Enter (BootmRun.ep h) 0 machid (if negb ((BootmRun.ft h).2 =? 0) then (BootmRun.ft h).1 else bi_boot_params gd)).

Definition do_bootm_linux (flag : Z) (h : BootmRun.bootm_headers) (m : Z -> Z)
    : option (BootmRun.outcome * BootmRun.bootm_headers * (Z -> Z)) :=
  let test bit := negb (flag .& bit =? 0) in
  if test BootmRun.BOOTM_STATE_OS_BD_T || test BootmRun.BOOTM_STATE_OS_CMDLINE then Some (BootmRun.Return (-1), h, m) else
  if test BootmRun.BOOTM_STATE_OS_PREP then
    r ← boot_prep_linux h m;
    Some (match r with None => (BootmRun.Hang, h, m) | Some (h, m) => (BootmRun.Return 0, h, m) end)
  else if test BootmRun.BOOTM_STATE_OS_GO then j ← boot_jump_linux h; Some (j, h, m)
  else
    r ← boot_prep_linux h m;
    match r with
    | None => Some (BootmRun.Hang, h, m)
    | Some (h, m) => j ← boot_jump_linux h; Some (j, h, m)
    end.

End Handover.

(** ** The tree Linux is given *)

Import FdtTree FdtParts FdtEdit FdtOpen FdtPaths.

(** The most the fix-ups need. *)
Definition fixups_size (args : option str) (banks : list (Z * Z)) : Z :=
  chosen_size args + memory_size banks + 38 + initrd_size.

Lemma tree_at_chosen_tree cs args force t : is_Some (tree_at cs t) -> (forall c rest, cs = c :: rest -> name_match (bytes_of "chosen") c = false) ->
  is_Some (tree_at cs (chosen_tree args force t)).
Proof.
  intros H Hc. assert (H1 : is_Some (tree_at cs match tree_at chosen t with Some _ => t | None => add_in (bytes_of "chosen") t end)).
  { destruct (tree_at chosen t); [done|]. destruct t as [nm ps ts], cs as [|c rest]; [done|]. cbn [add_in tree_at child tree_name] in *.
    by rewrite (Hc c rest eq_refl). }
  unfold chosen_tree. set (t1 := match tree_at chosen t with Some _ => t | None => _ end) in *.
  destruct args as [a|]; [|done]. destruct (_ || _); [|done]. by apply tree_at_set.
Qed.

Lemma tree_at_chosen args force t : is_Some (tree_at chosen (chosen_tree args force t)).
Proof.
  assert (H1 : is_Some (tree_at chosen match tree_at chosen t with Some _ => t | None => add_in (bytes_of "chosen") t end)).
  { destruct (tree_at chosen t) as [u|] eqn:E; [by exists u|]. destruct t as [nm ps ts]. by eexists. }
  unfold chosen_tree. set (t1 := match tree_at chosen t with Some _ => t | None => _ end) in *.
  destruct args as [a|]; [|done]. destruct (_ || _); [|done]. by apply tree_at_set.
Qed.

Lemma value_root_chosen args force t n : value [] n (chosen_tree args force t) = value [] n t.
Proof.
  unfold chosen_tree. assert (H1 : value [] n match tree_at chosen t with Some _ => t | None => add_in (bytes_of "chosen") t end = value [] n t)
    by (destruct (tree_at chosen t); [done|by destruct t]).
  set (t1 := match tree_at chosen t with Some _ => t | None => _ end) in *.
  destruct args as [a|]; [|done]. destruct (_ || _); [|done]. unfold chosen. by rewrite value_root.
Qed.

Lemma mac_fix_paths getenv t t' cs : mac_fix getenv t t' -> is_Some (tree_at cs t) -> is_Some (tree_at cs t').
Proof. intros Hm Ht. destruct Hm; try done. case_match; [done|]. by apply tree_at_set. Qed.

(** The fix-ups one after another, when there is room. *)
Lemma fixups_spec getenv gd ports b t rs args z s e t' :
  holds_tree b t -> rsvs b rs -> 0 < s < e -> e < 2 ^ 32 -> (2 < ports)%nat ->
  getenv (cstr (bytes_of "bootargs")) = option_map (fun a => a ++ 0 :: z) args ->
  (forall a, args = Some a -> is_str a /\ Z.of_nat (length a) < 2 ^ 30 - 1) ->
  16 * Z.of_nat (length (dram_hw_info gd)) < 2 ^ 30 ->
  is_Some (tree_at memory t) ->
  (forall n v, n = bytes_of "#address-cells" \/ n = bytes_of "#size-cells" -> value [] n t = Some v -> (4 <= length v)%nat) ->
  let banks := map fixup_bank (dram_hw_info gd) in
  mac_fix getenv (memory_tree banks (chosen_tree args true t)) t' ->
  data_size b + fixups_size args banks <= b_total b ->
  exists b', fixups getenv gd ports (s, e) (flat b) = Some (flat b')
    /\ b_total b' = b_total b /\ b_tail b' = b_tail b
    /\ rsvs b' (drop_first s rs ++ [(s, e - s)]) /\ holds_tree b' (initrd_tree s e true t').
Proof.
  intros H Hr Hs He Hports Henv Ha Hl Hmem Hcells banks Hmac Hroom. unfold fixups, fixup_memory_node, fixups_size in *.
  rewrite Henv. fold banks. assert (Hlb : length banks = length (dram_hw_info gd)) by apply length_map.
  destruct (fdt_chosen_spec b t args true z H Ha) as (err & b1 & -> & X1 & H1). cbn [mbind option_bind].
  assert (Hpos : 0 <= chosen_size args).
  { unfold chosen_size. destruct args as [a|]; [|lia]. destruct (Ha a eq_refl) as [_ Hla]. pose proof (cstr_aligned a Hla). lia. }
  unfold memory_size, initrd_size in Hroom. destruct H1 as [(_ & H1 & D1)|(_ & ? & _)]; [|lia].
  pose proof (fdt_fixup_memory_banks_spec b1 _ banks H1 ltac:(rewrite Hlb; done)) as H2.
  specialize (H2 ltac:(intros n v Hn; rewrite value_root_chosen; by apply Hcells)).
  destruct (tree_at_chosen_tree memory args true t Hmem) as [u Hu]; [by intros c rest [= <- <-]|]. rewrite Hu in H2.
  destruct H2 as (err2 & b2 & -> & X2 & H2). cbn [mbind option_bind]. rewrite (ext_total _ _ X1) in H2. unfold memory_size in H2.
  destruct H2 as [(_ & H2 & D2)|(_ & ?)]; [|lia].
  destruct (fdt_fixup_ethernet_correct ports getenv b2 _ t' H2 Hports Hmac) as (b3 & -> & X3 & H3 & D3).
  { rewrite (ext_total _ _ X2), (ext_total _ _ X1). lia. }
  cbn [mbind option_bind].
  assert (X : extends b b3) by (eapply extends_trans; [exact X1|eapply extends_trans; [exact X2|exact X3]]).
  pose proof (fdt_initrd_spec b3 t' rs s e true H3 (rsvs_extends b b3 rs X Hr) Hs He) as H4.
  destruct (mac_fix_paths getenv _ t' chosen Hmac) as [v Hv].
  { unfold memory_tree. do 2 apply tree_at_set. apply tree_at_chosen. }
  rewrite Hv in H4. destruct H4 as (err4 & b4 & E4 & T4 & L4 & H4). cbn [fst snd]. rewrite E4. cbn [mbind option_bind].
  exists b4. rewrite T4, L4, (ext_total _ _ X), (ext_tail _ _ X). split_and!; try done.
  - destruct H4 as [(_ & Hr4 & _)|(_ & Hno)]; [done|]. rewrite (ext_total _ _ X) in Hno. unfold initrd_size in Hno. lia.
  - destruct H4 as [(_ & _ & H4)|(_ & Hno)]; [done|]. rewrite (ext_total _ _ X) in Hno. unfold initrd_size in Hno. lia.
Qed.

(** ** The tree in memory *)

(** What lies behind the total size does not matter. *)
Lemma holds_free b t F : holds_tree b t -> wf (with_total b (b_total b) F) -> holds_tree (with_total b (b_total b) F) t.
Proof. intros (n & _ & H) W. by exists n. Qed.

Lemma drop_total b : wf b -> drop (Z.to_nat (b_total b)) (flat b) = b_tail b.
Proof.
  intros W. pose proof (wf_total b W). pose proof (length_flat b) as Hl. unfold b_tail, flat, post in *. rewrite !app_assoc in *.
  set (P := _ ++ b_strings b) in *. rewrite length_app in Hl. rewrite drop_app_ge by lia. f_equal. lia.
Qed.

Lemma length_total b : wf b -> Z.of_nat (length (flat b)) = b_total b + Z.of_nat (length (b_tail b)).
Proof. intros W. rewrite <- drop_total, length_drop by done. pose proof (wf_total b W). unfold data_size, off_strings, off_struct, FdtRw.HDR_SIZE in *. lia. Qed.

(** Another memory that agrees with the first on the tree. *)
Lemma view_agrees ram_end m m' a b : wf b -> 0 <= a -> (forall x, in_word 8 (m' x)) -> view ram_end m a = flat b ->
  (forall x, a <= x < a + b_total b -> m' x = m x) ->
  exists F, let b' := with_total b (b_total b) F in view ram_end m' a = flat b' /\ wf b'.
Proof.
  intros W Ha HB Hv Heq. pose proof (wf_total b W) as Ht. pose proof (length_flat b) as Hl.
  assert (Hd : 0 < data_size b) by (unfold data_size, off_strings, off_struct, FdtRw.HDR_SIZE; lia).
  assert (Hlv : length (view ram_end m a) = length (flat b)) by (by rewrite Hv). rewrite length_view in Hlv.
  set (n := Z.to_nat (data_size b)). set (F := drop n (view ram_end m' a)). exists F. cbv zeta.
  set (P := pre b ++ b_struct b ++ b_gap b ++ b_strings b).
  assert (Ef : forall G, flat (with_total b (b_total b) G) = P ++ G) by (intros G; unfold flat, post, P; by rewrite <- !app_assoc).
  assert (Eb : flat b = P ++ b_free b) by (unfold flat, post, P; by rewrite <- !app_assoc).
  assert (HP : length P = n) by (rewrite Eb, length_app in Hl; unfold n; lia).
  assert (E : view ram_end m' a = flat (with_total b (b_total b) F)).
  { rewrite Ef, <- (take_drop n (view ram_end m' a)). f_equal. rewrite <- (take_app_length' P (b_free b) n) by done.
    rewrite <- Eb, <- Hv. unfold view. rewrite !load_take. unfold load. apply map_ext_in. intros i Hi.
    apply in_seq in Hi. apply Heq. unfold n in *. lia. }
  split; [done|]. pose proof (wf_rsvmap b W). pose proof (wf_cpu b W). pose proof (wf_len b W).
  assert (Hll : length (flat (with_total b (b_total b) F)) = length (flat b)) by (by rewrite <- E, length_view).
  split; [|by rewrite Hll|by rewrite Hll|done|done].
  unfold post. cbn [with_total b_rsv b_struct b_gap b_strings b_free].
  pose proof (wf_bytes b W) as Wb. unfold post in Wb. rewrite !Forall_app in Wb |- *. destruct Wb as (W1 & W2 & W3 & W4 & _).
  split_and!; try done. apply Forall_drop. by apply bytes_load.
Qed.

(** An operation on the tree that keeps its size and what follows it. *)
Lemma on_fdt_keeps ram_end m a b b' : wf b -> wf b' -> view ram_end m a = flat b ->
  b_total b' = b_total b -> b_tail b' = b_tail b ->
  view ram_end (Prelude.store m a (flat b')) a = flat b'
  /\ forall x, x < a \/ a + b_total b <= x -> Prelude.store m a (flat b') x = m x.
Proof.
  intros W W' Hv Et El. assert (Hlen : length (flat b') = length (flat b)).
  { pose proof (length_total b W) as L. pose proof (length_total b' W') as L'. rewrite Et, El in L'. lia. }
  assert (Hl : Z.to_nat (ram_end - a) = length (flat b')) by (rewrite Hlen, <- Hv; symmetry; apply length_view).
  split; [unfold view; by rewrite Hl, load_store|]. intros x [Hx|Hx]; [by apply store_out; left|].
  apply (store_tail_same _ _ _ (Z.to_nat (b_total b))).
  - rewrite <- Hl. fold (view ram_end m a). rewrite Hv, (drop_total b W), <- El, <- Et. by apply drop_total.
  - pose proof (wf_total b W). unfold data_size, off_strings, off_struct, FdtRw.HDR_SIZE in *. lia.
Qed.

(** What booting with a ramdisk and a tree relies on: the images, the values
    from the environment, the tables of memory. *)
Section Boot.
Context (ram_end : Z) (getenv : list Z -> option (list Z)) (gd : global) (bd : Atags.board) (ports : nat).
Context (h : BootmRun.bootm_headers) (m : Z -> Z) (l : Lmb.lmb).
Context (start len tree of_size : Z) (b : dtb) (t t' : FdtPaths.tree) (rs : list (Z * Z)).
Context (high : option Z) (limit : Z) (args : option str) (z : list Z).

(** Length and limit of the allocations. *)
Definition initrd_limit : Z := default 0xffffffff high.
Definition tree_len : Z := b_total b + CONFIG_SYS_FDT_PAD.

Record ready : Prop := {
  r_bytes : forall x, in_word 8 (m x);
  r_ram : 0 <= tree <= ram_end /\ ram_end < 2 ^ 31 - 16;
  r_rd : BootmRun.rd h = (start, start + len) /\ 0 < start /\ 0 < len /\ start + len < 2 ^ 32;
  r_ft : BootmRun.ft h = (tree, of_size) /\ of_size = b_total b;
  r_tree : view ram_end m tree = flat b /\ holds_tree b t /\ rsvs b rs;
  r_lmb : boot_fdt_add_mem_rsv_regions (BootmRun.lmb h) (flat b) = Some l;
  r_pages : Lmb.pages l /\ in_ram ram_end l;
  r_reserved : Lmb.lmb_ok Lmb.separated (Lmb.reserved l) /\ Lmb.long 0x1000 (Lmb.reserved l);
  r_source : forall x, tree <= x < tree + b_total b -> Lmb.covered (Lmb.reserved l) x;
  r_high : getenv_hex getenv (bytes_of "initrd_high") = Some high /\ high <> Some 0xffffffff
    /\ (initrd_limit = 0 \/ len <= initrd_limit < 2 ^ 32);
  r_limit : fdt_limit getenv = Some limit /\ getenv_hex getenv (bytes_of "fdt_high") <> Some (Some 0xffffffff)
    /\ (limit = 0 \/ tree_len <= limit < 2 ^ 32);
  r_args : getenv (cstr (bytes_of "bootargs")) = option_map (fun a => a ++ 0 :: z) args
    /\ forall a, args = Some a -> is_str a /\ Z.of_nat (length a) < 2 ^ 30 - 1;
  r_banks : 16 * Z.of_nat (length (dram_hw_info gd)) < 2 ^ 30 /\ is_Some (tree_at memory t)
    /\ forall n v, n = bytes_of "#address-cells" \/ n = bytes_of "#size-cells" -> value [] n t = Some v -> (4 <= length v)%nat;
  r_mac : (2 < ports)%nat /\ mac_fix getenv (memory_tree (map fixup_bank (dram_hw_info gd)) (chosen_tree args true t)) t';
  r_room : fixups_size args (map fixup_bank (dram_hw_info gd)) <= CONFIG_SYS_FDT_PAD;
}.

(** The ramdisk at [s], the tree for the kernel at [a], both in memory that
    was free, and all other memory as it was. *)
Definition handed (s a : Z) (h' : BootmRun.bootm_headers) (m' : Z -> Z) : Prop :=
  BootmRun.ep h' = BootmRun.ep h /\ BootmRun.initrd h' = (s, s + len) /\ BootmRun.ft h' = (a, of_size)
  /\ load m' s (Z.to_nat len) = load m start (Z.to_nat len)
  /\ (exists b', view ram_end m' a = flat b' /\ b_total b' = tree_len
        /\ rsvs b' (drop_first s rs ++ [(s, len)]) /\ holds_tree b' (initrd_tree s (s + len) true t'))
  /\ (exists l1, Lmb.taken l len initrd_limit s l1 /\ Lmb.taken l1 tree_len limit a (BootmRun.lmb h'))
  /\ (forall x, (x < s \/ s + len <= x) -> (x < a \/ a + tree_len <= x) -> m' x = m x).

Lemma taken_apart l0 n lim s l1 lo hi x : Lmb.taken l0 n lim s l1 ->
  (forall x, lo <= x < hi -> Lmb.covered (Lmb.reserved l0) x) -> lo <= x < hi -> x < s \/ s + n <= x.
Proof using.
  clear. intros (_ & (p & _ & Hfit) & _) Hc Hx. destruct (decide (s <= x < s + n)) as [Hin|]; [|lia].
  destruct Hfit as (_ & _ & _ & _ & _ & Hd). by destruct (Hd x Hin (Hc x Hx)).
Qed.

Lemma bytes_moved m0 m1 s from n : (forall x, in_word 8 (m0 x)) -> 
  load m1 s (Z.to_nat n) = load m0 from (Z.to_nat n) -> (forall x, x < s \/ s + n <= x -> m1 x = m0 x) ->
  forall x, in_word 8 (m1 x).
Proof using.
  clear. intros HB Hl Hout x. destruct (decide (s <= x < s + n)) as [Hx|Hx]; [|rewrite Hout by lia; apply HB].
  pose proof (f_equal (lookup (Z.to_nat (x - s))) Hl) as E. rewrite !load_lookup in E by lia. injection E as E.
  replace (s + Z.of_nat (Z.to_nat (x - s))) with x in E by lia. rewrite E. apply HB.
Qed.

Lemma create_fdt_spec : ready ->
  exists ret h' m', create_fdt ram_end getenv gd ports h m = Some (ret, h', m') /\
    ((exists s a, ret = 0 /\ handed s a h' m')
     \/ ret = -1 /\ no_place l len initrd_limit
     \/ ret = 1 /\ exists s l1, Lmb.taken l len initrd_limit s l1 /\ no_place l1 tree_len limit).
Proof using.
  intros []. destruct r_ram0 as [Htree Hram], r_rd0 as (Hrd & Hs0 & Hl0 & Hse), r_ft0 as [Hft Hsz], r_tree0 as (Hv & Ht & Hrs).
  destruct r_pages0 as [Hp Hin], r_reserved0 as [Hsep Hlong], r_high0 as (Hhigh & Hne & Hhl), r_limit0 as (Hlim & Hfne & Hll).
  destruct r_args0 as [Hargs Hstr], r_banks0 as (Hbl & Hmem & Hcells), r_mac0 as [Hports Hmac].
  assert (W : wf b) by (by destruct Ht as (? & ? & _)). pose proof (wf_total b W) as Hbt. pose proof (wf_len b W) as Hbl'.
  unfold create_fdt. rewrite Hft, Hrd, Hsz. cbv beta iota. rewrite Hv, r_lmb0. cbn [mbind option_bind].
  replace (u32 (start + len - start)) with len by (rewrite u32_small; lia).
  pose proof (Lmb.lmb_ok_table _ Hsep) as Htab.
  destruct (boot_ramdisk_high_spec getenv l start len (BootmRun.initrd h) m high Hhigh Hne ltac:(lia) ltac:(lia) Hhl Hp Htab)
    as (ret & [s e] & l1 & m1 & E1 & M1 & Hcase & Hkeep).
  rewrite E1. cbn [mbind option_bind].
  destruct Hcase as [(-> & He & Htk & Hld & Hout)|(-> & -> & Hno)].
  2: { eexists _, _, _. split; [done|]. by right; left. }
  cbn [fst snd Z.eqb negb] in *. subst e.
  assert (HB1 : forall x, in_word 8 (m1 x)) by (by eapply bytes_moved).
  destruct (view_agrees ram_end m m1 tree b W ltac:(lia) HB1 Hv) as (F1 & Hv1 & W1).
  { intros x Hx. apply Hout. by eapply taken_apart. }
  set (b1 := with_total b (b_total b) F1) in *. pose proof (holds_free b t F1 Ht W1) as Ht1. fold b1 in Ht1.
  assert (Hp1 : Lmb.pages l1) by (unfold Lmb.pages; by rewrite M1).
  assert (Hin1 : in_ram ram_end l1) by (unfold in_ram; by rewrite M1).
  destruct (boot_relocate_fdt_spec ram_end getenv l1 tree m1 b1 rs limit ltac:(lia) Hram HB1 W1 Hrs Hv1 Hlim Hfne Hll Hp1 Hin1
    (Hkeep eq_refl Hsep Hlong)) as (ret & [a len2] & l2 & m2 & E2 & M2 & [(-> & Hl2 & Htk2 & (F2 & W2 & Hv2) & Hout2)|(-> & -> & Hno)]);
    change (b_total b1) with (b_total b) in *; rewrite E2; cbn [mbind option_bind fst snd Z.eqb negb] in *.
  2: { eexists _, _, _. split; [done|]. right; right. by split; [|exists s, l1]. }
  fold tree_len in *. set (b2 := with_total b1 tree_len F2) in *.
  assert (Ht2 : holds_tree b2 t) by (destruct Ht as (n & _ & Hn); by exists n).
  destruct (taken_in_ram ram_end l len initrd_limit s l1 ltac:(lia) Hp Hin Htk) as [Hs1 Hs2].
  destruct (fixups_spec getenv gd ports b2 t rs args z s (s + len) t' Ht2 Hrs) as (b3 & E3 & T3 & L3 & R3 & H3); try done.
  { destruct Htk. lia. }
  { lia. }
  { pose proof (wf_total _ W1). change (data_size b2) with (data_size b). cbn [b_total with_total b2]. unfold tree_len. lia. }
  assert (W3 : wf b3) by (by destruct H3 as (? & ? & _)).
  destruct (on_fdt_keeps ram_end m2 a b2 b3 W2 W3 Hv2 T3 L3) as [Hv3 Hout3]. change (b_total b2) with tree_len in *.
  unfold on_fdt. rewrite Hv2, E3. cbn [mbind option_bind].
  eexists _, _, _. split; [done|]. left. exists s, a. split; [done|]. unfold handed. split_and!; try done.
  - by rewrite Hsz.
  - rewrite <- Hld. unfold load. apply map_ext_in. intros i Hi. apply in_seq in Hi.
    assert (Hap : s + Z.of_nat i < a \/ a + tree_len <= s + Z.of_nat i).
    { eapply (taken_apart _ _ _ _ _ s (s + len)); [exact Htk2| |lia]. destruct Htk as (_ & _ & Hc). intros x Hx. apply Hc. by right. }
    by rewrite Hout3, Hout2.
  - exists b3. split_and!; try done. by replace (s + len - s) with len in R3 by lia.
  - by exists l1.
  - intros x Hx1 Hx2. by rewrite Hout3, Hout2, Hout.
Qed.

Lemma do_bootm_linux_spec id : ready -> machine_id getenv gd = Some id ->
  exists out h' m', do_bootm_linux ram_end getenv gd bd ports 0 h m = Some (out, h', m') /\
    ((exists s a, out = BootmRun.Enter (BootmRun.ep h) 0 id a /\ handed s a h' m')
     \/ out = BootmRun.Hang
        /\ (no_place l len initrd_limit \/ exists s l1, Lmb.taken l len initrd_limit s l1 /\ no_place l1 tree_len limit)).
Proof using.
  intros Hr Hid. destruct (create_fdt_spec Hr) as (ret & h1 & m1 & E & Hcase).
  assert (Hft : BootmRun.ft h = (tree, of_size) /\ of_size <> 0).
  { destruct Hr as [_ _ _ [? ->] (_ & (n & W & _) & _)]. pose proof (wf_total b W). split; [done|].
    unfold data_size, off_strings, off_struct, FdtRw.HDR_SIZE in *. lia. }
  destruct Hft as [Hft Hz]. unfold do_bootm_linux, boot_prep_linux, boot_jump_linux. rewrite Hft, E, Hid.
  cbn [fst snd mbind option_bind]. destruct (Z.eqb_spec of_size 0) as [|_]; [done|]. change (negb (0 .& _ =? 0)) with false. cbn [orb negb].
  destruct Hcase as [(s & a & -> & H)|Hno].
  - destruct H as (He & Hi & Hf & H). change (negb (0 =? 0)) with false. cbn [mbind option_bind]. rewrite He, Hf. cbn [fst snd].
    destruct (Z.eqb_spec of_size 0) as [|_]; [done|]. eexists _, _, _. split; [done|]. left. exists s, a. by split_and!.
  - assert (Hret : negb (ret =? 0) = true) by (by destruct Hno as [[-> _]|[-> _]]). rewrite Hret.
    eexists _, _, _. split; [done|]. right. split; [done|]. destruct Hno as [[_ ?]|[_ ?]]; [by left|by right].
Qed.


End Boot.

(** ** A tree in cleared memory *)

Definition padded (b : dtb) (n : nat) : dtb := with_total b (b_total b) (b_free b ++ replicate n 0).

Lemma flat_padded b n : flat (padded b n) = flat b ++ replicate n 0.
Proof. unfold flat, post, padded. by rewrite <- !app_assoc. Qed.

Lemma wf_padded b n : wf b -> Z.of_nat (length (flat b)) + Z.of_nat n < 2 ^ 31 - 16 -> wf (padded b n).
Proof.
  intros W Hn. pose proof (wf_total b W). split; rewrite ?flat_padded, ?length_app, ?length_replicate.
  - pose proof (wf_bytes b W) as HB. unfold post, padded in *. cbn [with_total b_rsv b_struct b_gap b_strings b_free].
    rewrite !app_assoc in *. apply Forall_app_2; [done|]. by apply Forall_replicate.
  - lia.
  - change (data_size (padded b n)) with (data_size b). cbn [padded with_total b_total]. lia.
  - apply (wf_rsvmap b W).
  - apply (wf_cpu b W).
Qed.

Lemma holds_padded b n t : holds_tree b t -> Z.of_nat (length (flat b)) + Z.of_nat n < 2 ^ 31 - 16 -> holds_tree (padded b n) t.
Proof. intros (x & W & H) Hn. exists x. split; [by apply wf_padded|done]. Qed.

Lemma load_zeros m a n : (forall x, a <= x -> m x = 0) -> load m a n = replicate n 0.
Proof.
  intros Hm. apply list_eq_same_length with n; [by rewrite length_replicate|apply load_length|].
  intros i x y Hi. rewrite load_lookup, lookup_replicate_2 by done. rewrite Hm by lia. by intros [= <-] [= <-].
Qed.

Lemma view_padded ram_end m a b : Z.of_nat (length (flat b)) <= ram_end - a ->
  view ram_end (Prelude.store m a (flat b)) a
  = flat b ++ load m (a + Z.of_nat (length (flat b))) (Z.to_nat (ram_end - a - Z.of_nat (length (flat b)))).
Proof.
  intros Hl. unfold view.
  replace (Z.to_nat (ram_end - a)) with (length (flat b) + Z.to_nat (ram_end - a - Z.of_nat (length (flat b))))%nat by lia.
  rewrite load_app, load_store. f_equal. apply load_ext. intros x Hx. apply store_out. lia.
Qed.

Lemma no_rsv_regions l b : wf b -> rsvs b [] -> boot_fdt_add_mem_rsv_regions l (flat b) = Some l.
Proof.
  intros W Hr. unfold boot_fdt_add_mem_rsv_regions.
  pose proof (FdtTree.check_header_ok _ _ _ (wf_layout b W)) as Hc. fold (flat b) in Hc. rewrite Hc.
  cbn [mbind option_bind Z.eqb negb]. by rewrite (num_mem_rsv_spec b W [] Hr).
Qed.

(** ** A board with 24 KiB *)

Definition boot_env (n : list Z) : option (list Z) :=
  if bool_decide (n = cstr (bytes_of "bootargs")) then Some (bytes_of "ro" ++ 0 :: []) else None.

Definition boot_gd : global := Global (0, 0x6000) [(0, 0x6000)] 0x100 4321.

Definition boot_lmb : Lmb.lmb :=
  Lmb.Lmb (Lmb.Region 1 0 (Lmb.Block 0 0x6000 :: replicate 8 (Lmb.Block 0 0)))
    (Lmb.Region 1 0 (Lmb.Block 0 0x1000 :: replicate 8 (Lmb.Block 0 0))).

Definition boot_dtb : dtb := padded linux_dtb (Z.to_nat (0x6000 - 0x100 - 500)).

(** The ramdisk is at 0x80, the tree at 0x100. *)
Definition boot_memory : Z -> Z :=
  Prelude.store (Prelude.store (fun _ => 0) 0x80 [1; 2; 3; 4; 5]) 0x100 (flat linux_dtb).

Definition boot_headers : BootmRun.bootm_headers :=
  BootmRun.set_lmb boot_lmb (BootmRun.set_ft (0x100, 500) (BootmRun.set_rd (0x80, 0x85) BootmRun.blank)).

Definition boot_tree : FdtPaths.tree := memory_tree [(0, 0x6000)] (chosen_tree (Some (bytes_of "ro")) true linux_tree).

Lemma boot_memory_bytes x : in_word 8 (boot_memory x).
Proof.
  revert x. unfold boot_memory. apply store_bytes; [apply store_bytes; [done|]|]; by apply (bool_decide_unpack _).
Qed.

Lemma boot_view : view 0x6000 boot_memory 0x100 = flat boot_dtb.
Proof.
  assert (Hl : Z.of_nat (length (flat linux_dtb)) = 500) by (vm_compute; reflexivity).
  unfold boot_memory, boot_dtb. rewrite view_padded, flat_padded, Hl by (rewrite Hl; lia).
  apply (f_equal (app _)). apply load_zeros. intros x Hx. rewrite store_out by (right; cbn [length]; lia). done.
Qed.

Lemma boot_ready : ready 0x6000 boot_env boot_gd 3 boot_headers boot_memory boot_lmb 0x80 5 0x100 500 boot_dtb linux_tree boot_tree []
  None 0x1000000 (Some (bytes_of "ro")) [].
Proof.
  split.
  - apply boot_memory_bytes.
  - lia.
  - split; [done|]. lia.
  - done.
  - split; [apply boot_view|]. split.
    + apply holds_padded; [exact linux_holds|]. by vm_compute.
    + exact linux_rsvs.
  - apply no_rsv_regions; [apply wf_padded; [by destruct linux_holds as (? & ? & _)|by vm_compute]|exact linux_rsvs].
  - split; [split_and!|]; [done|..]; repeat constructor; cbn; lia.
  - split; [split; [done|right; split; [done|]]|]; repeat constructor; cbn; lia.
  - intros x Hx. constructor. unfold Lmb.block_covers. change (b_total boot_dtb) with 500 in Hx. cbn. lia.
  - split; [vm_compute; reflexivity|]. split; [done|]. right. unfold initrd_limit. cbn. lia.
  - split; [vm_compute; reflexivity|]. split; [by vm_compute|]. right. unfold tree_len. change (b_total boot_dtb) with 500. unfold CONFIG_SYS_FDT_PAD. lia.
  - split; [vm_compute; reflexivity|]. intros a [= <-]. split; [by apply (bool_decide_unpack _)|by vm_compute].
  - split; [by vm_compute|]. split; [by vm_compute; eexists|]. intros n v [-> | ->]; vm_compute; [intros [= <-]; repeat constructor|done].
  - split; [lia|]. by constructor.
  - by vm_compute.
Qed.

(** The two moves by themselves. *)
Lemma boot_lmb_ok : Lmb.pages boot_lmb /\ in_ram 0x6000 boot_lmb /\ Lmb.lmb_ok Lmb.table (Lmb.reserved boot_lmb).
Proof.
  destruct boot_ready. destruct r_pages0, r_reserved0. split_and!; [done..|]. by apply Lmb.lmb_ok_table.
Qed.


Lemma boot_relocate_fdt_correct_witness :
  exists ret tree l' m', boot_relocate_fdt 0x6000 boot_env boot_lmb (0x100, 500) boot_memory = Some (ret, tree, l', m')
    /\ Lmb.memory l' = Lmb.memory boot_lmb /\
    (ret = 0 /\ tree.2 = 500 + 0x3000 /\ Lmb.taken boot_lmb (500 + 0x3000) 0x1000000 tree.1 l'
       /\ (exists F, wf (with_total boot_dtb (500 + 0x3000) F) /\ view 0x6000 m' tree.1 = flat (with_total boot_dtb (500 + 0x3000) F))
       /\ (forall x, x < tree.1 \/ tree.1 + (500 + 0x3000) <= x -> m' x = boot_memory x)
     \/ ret = 1 /\ m' = boot_memory /\ no_place boot_lmb (500 + 0x3000) 0x1000000).
Proof.
  pose proof boot_ready as R. destruct R as [HB _ _ _ (_ & (n & W & _) & Hrs) _ _ _ _ _ (Hlim & Hne & Hl) _ _ _ _].
  apply (boot_relocate_fdt_correct 0x6000 boot_env boot_lmb 0x100 boot_memory boot_dtb [] 0x1000000); [lia|done|exact HB|exact W|exact Hrs|
    exact boot_view|exact Hlim|exact Hne|exact Hl|apply boot_lmb_ok..].
Defined.


End Handover.
