(* ===== verification/LinuxBoot.v ===== *)
(** * Booting Linux from [bootm] to the kernel

    Handover as the operating system of BootmRun: the whole of [bootm] with a
    Linux kernel, from the argument to the registers the kernel is entered
    with.  The functions of the other operating systems stay parameters. *)

From S2P Require Import Prelude Lmb Cstring Fdt FdtParts FdtEdit FdtOpen FdtPaths Vsprintf FdtSupport Image Fit FitSample FitSig.
From S2P Require Import Bootm BootImages BootmRun Atags Handover.

Module LinuxBoot.
Import Cstring Vsprintf FdtParts FdtOpen FdtPaths FdtSupport Image FitSig Bootm BootmRun.

(** ** The whole of [bootm] *)

Section Launch.
Context {Group Point : Type} `{!Mbedtls Group Point}.
Context {S : Type} `{!BootServices S}.
Context (ram_end : Z) (junk stack keys : list Z) (load_addr : Z).

(** The function of the operating system runs.  When it returns, [do_bootm]
    resets the board; after the subcommand it is back at the prompt. *)
Definition launch (r : outcome * world (S:=S)) : option (outcome * world (S:=S)) :=
  match r with
  | (Boot o flag, w) =>
      '(out, h, m, s) ← os_command o flag (images w) (ram w) (ext w);
      Some (match out with Return _ => if flag =? 0 then Reset_board else Return 0 | _ => out end, World h m s)
  | _ => Some r
  end.

Definition run_bootm (args : list (list Z)) (w : world (S:=S)) : option (outcome * world (S:=S)) :=
  r ← do_bootm ram_end junk stack keys load_addr args w; launch r.

End Launch.

(** ** [do_bootm_linux] as its function *)

Section Linux.
Context {S : Type} (get : S -> list Z -> option (list Z)) (set_ : list Z -> list Z -> S -> option S).
Context (unzip : Z -> (Z -> Z) -> Z -> Z -> Z -> Z -> Z * list Z).
Context (others : Z -> Z -> bootm_headers -> (Z -> Z) -> S -> option (outcome * bootm_headers * (Z -> Z) * S)).
Context (ram_end : Z) (gd : Handover.global) (sp : Z) (bd : Atags.board) (ports : nat).

(** Whether [do_bootm_linux] prepares the kernel for this flag. *)
Definition prepares (flag : Z) : bool :=
  let test bit := negb (flag .& bit =? 0) in
  negb (test BOOTM_STATE_OS_BD_T || test BOOTM_STATE_OS_CMDLINE) && (test BOOTM_STATE_OS_PREP || negb (test BOOTM_STATE_OS_GO)).

(** A tree that was moved also goes into the variable [fdtaddr]. *)
Definition linux_command (flag : Z) (h : bootm_headers) (m : Z -> Z) (s : S)
    : option (outcome * bootm_headers * (Z -> Z) * S) :=
  '(out, h', m') ← Handover.do_bootm_linux ram_end (get s) gd bd ports flag h m;
  s ← match out with
      | Hang => Some s
      | _ => if prepares flag && negb ((ft h).2 =? 0)
             then t ← Vsprintf.sprintf (bytes_of "%lx") [Vsprintf.AInt (ft h').1]; set_ (cstr (bytes_of "fdtaddr")) t s
             else Some s
      end;
  Some (out, h', m', s).

#[export] Instance linux_services : BootServices S := {|
  getenv := get;
  setenv := set_;
  dram_size := (Handover.bi_dram0 gd).2;
  lmb_reserve_platform := Handover.arch_lmb_reserve gd sp;
  uncompress := unzip;
  os_command o flag h m s := if o =? IH_OS_LINUX then linux_command flag h m s else others o flag h m s;
|}.

(** The state machine of the subcommands is not touched. *)
Lemma linux_keeps_state flag h m s out h' m' s' : linux_command flag h m s = Some (out, h', m', s') -> state h' = state h.
Proof.
  unfold linux_command. intros ([[o1 h1] m1] & Hd & H)%bind_Some.
  apply bind_Some in H as (s1 & _ & H). injection H as _ <- _ _. clear s1.
  assert (Hc : forall r h2 m2, Handover.create_fdt ram_end (get s) gd ports h m = Some (r, h2, m2) -> state h2 = state h).
  { intros r h2 m2. unfold Handover.create_fdt. destruct (ft h) as [a n], (rd h) as [x y].
    intros (l & _ & H)%bind_Some. apply bind_Some in H as ([[[r1 i] l1] m1'] & _ & H).
    destruct (negb (r1 =? 0)); [by injection H as _ <- _|]. apply bind_Some in H as ([[[r2 t] l2] m2'] & _ & H).
    destruct (negb (r2 =? 0)); [by injection H as _ <- _|]. apply bind_Some in H as ([u m3] & _ & H). by injection H as _ <- _. }
  assert (Hp : forall x, Handover.boot_prep_linux ram_end (get s) gd bd ports h m = Some x ->
    match x with Some (h2, _) => state h2 = state h | None => True end).
  { intros x. unfold Handover.boot_prep_linux. destruct (negb _).
    - intros ([[r h2] m2] & Hx & E)%bind_Some. injection E as <-. apply Hc in Hx. by destruct (negb (r =? 0)).
    - intros (m2 & _ & E)%bind_Some. by injection E as <-. }
  revert Hd. unfold Handover.do_bootm_linux. destruct (_ || _); [by intros [= _ <- _]|]. destruct (negb _).
  - intros (r & Hr & E)%bind_Some. apply Hp in Hr. destruct r as [[h2 m2]|]; by injection E as _ <- _.
  - destruct (negb _); [intros (j & _ & E)%bind_Some; by injection E as _ <- _|].
    intros (r & Hr & E)%bind_Some. apply Hp in Hr. destruct r as [[h2 m2]|]; [|by injection E as _ <- _].
    apply bind_Some in E as (j & _ & E). by injection E as _ <- _.
Qed.

End Linux.

(** ** From the argument to the kernel *)

Section Boot.
Context {Group Point : Type} `{!Mbedtls Group Point}.
Context {S : Type} (get : S -> list Z -> option (list Z)) (set_ : list Z -> list Z -> S -> option S).
Context (unzip : Z -> (Z -> Z) -> Z -> Z -> Z -> Z -> Z * list Z).
Context (others : Z -> Z -> bootm_headers -> (Z -> Z) -> S -> option (outcome * bootm_headers * (Z -> Z) * S)).
Context (ram_end : Z) (gd : Handover.global) (sp : Z) (bd : Atags.board) (ports : nat).
Context (junk stack keys : list Z) (load_addr : Z).

#[local] Instance services : BootServices S := linux_services get set_ unzip others ram_end gd sp bd ports.

(** The kernel, where it is loaded and where it was found, is in memory that is
    not free. *)
Definition kernel_reserved (l : Lmb.lmb) (i : image_info) (n : Z) : Prop :=
  forall x, load_to i <= x < load_to i + n \/ image_start i <= x < image_start i + image_len i -> Lmb.covered (Lmb.reserved l) x.

Lemma kernel_stays l i data m m' n : (forall x, Lmb.covered (Lmb.reserved l) x -> m' x = m x) -> kernel_reserved l i n ->
  kernel_in_place i data m n -> kernel_in_place i data m' n.
Proof using.
  clear. intros Hm Hr.
  assert (E : forall a k, (forall x, a <= x < a + k -> Lmb.covered (Lmb.reserved l) x) -> load m' a (Z.to_nat k) = load m a (Z.to_nat k))
    by (intros a k Hc; apply load_ext; intros x Hx; apply Hm, Hc; lia).
  intros [(Hc & -> & H)|(m0 & out & H0 & Hu & -> & H)]; [left|right].
  - split; [done|]. split; [done|]. destruct H as [H|[Hs H]]; [left|right; split; [done|]]; rewrite E; try done;
      intros x Hx; apply Hr; auto.
  - exists m0, out. split_and!; try done. rewrite E; [done|]. intros x Hx. apply Hr. auto.
Qed.

(** Reserved memory is outside of what was free. *)
Lemma handed_keeps h m l start len of_size b t' rs high limit s a h' m' x :
  Handover.handed ram_end h m l start len of_size b t' rs high limit s a h' m' ->
  Lmb.covered (Lmb.reserved l) x -> m' x = m x.
Proof using.
  clear. intros (_ & _ & _ & _ & _ & (l1 & Ht1 & Ht2) & Hout) Hx. apply Hout.
  - eapply (Handover.taken_apart l len _ s l1 x (x + 1)); [exact Ht1| |lia]. intros y Hy. by replace y with x by lia.
  - eapply (Handover.taken_apart l1 _ _ a _ x (x + 1)); [exact Ht2| |lia]. intros y Hy. replace y with x by lia.
    destruct Ht1 as (_ & _ & Hc). apply Hc. by left.
Qed.


(** [bootm] stores bytes. *)
Lemma tree_moved_bytes m m' : (forall x, byte (m x)) -> BootImages.tree_moved m m' -> forall x, byte (m' x).
Proof using.
  clear. intros HB [->|(d & src & n & ->)]; [done|]. apply store_bytes; [done|by apply BootImages.bytes_load].
Qed.

Lemma load_os_bytes o m ret le m' : (forall x, byte (m x)) -> (forall c m a b src n, bytes (unzip c m a b src n).2) ->
  bootm_load_os o m = (ret, le, m') -> forall x, byte (m' x).
Proof using.
  intros HB Hu. unfold bootm_load_os. destruct (comp o =? IH_COMP_NONE); [|destruct (_ || _)].
  - destruct (_ || _); cbn [negb andb]; [by intros [= <- <- <-]|].
    destruct (_ && _); intros [= <- <- <-]; (apply store_bytes; [done|by apply BootImages.bytes_load]).
  - pose proof (Hu (comp o) m (load_to o) CONFIG_SYS_BOOTM_LEN (image_start o) (image_len o)) as Hx.
    cbn [uncompress services linux_services]. destruct (unzip _ _ _ _ _ _) as [r out]. cbn [snd] in Hx.
    destruct (negb (r =? 0)); [|destruct (_ && _)]; intros [= <- <- <-]; by apply store_bytes.
  - by intros [= <- <- <-].
Qed.

Lemma do_bootm_bytes args (w w1 : world (S:=S)) o :
  (forall x, byte (ram w x)) -> (forall c m a b src n, bytes (unzip c m a b src n).2) -> is_subcommand args = Some false ->
  getenv_yesno (ext w) (bytes_of "verify") <> Some 0 ->
  do_bootm ram_end junk stack keys load_addr args w = Some (Boot o 0, w1) -> forall x, byte (ram w1 x).
Proof.
  intros HB Hu Hsub Hv. unfold do_bootm. rewrite Hsub. cbn [mbind option_bind].
  intros ([r w2] & Hs & H)%bind_Some. destruct (Z.eqb_spec r 0) as [->|]; [|done]. cbn [negb] in H.
  destruct (bootm_start_ok _ _ _ _ _ args w w2 Hv Hs) as (k & _ & _ & _ & _ & _ & Hm).
  pose proof (tree_moved_bytes _ _ HB Hm) as H2.
  destruct (bootm_load_os (os_info (images w2)) (ram w2)) as [[ret le] m] eqn:El.
  pose proof (load_os_bytes _ _ _ _ _ H2 Hu El) as Hb.
  repeat (case_match; [done|]). revert H. unfold start_os. cbn [ram images ext].
  intros ([? l] & _ & H)%bind_Some. cbn [images] in H. destruct (type (os_info (images w2)) =? IH_TYPE_STANDALONE).
  - unfold bootm_start_standalone in H. apply bind_Some in H as ([] & _ & H); [|done]. by apply bind_Some in H as (? & _ & H).
  - destruct (boot_fn _) as [[|]|]; [|done..]. by injection H as _ <-.
Qed.

End Boot.

(** ** A board with 36 KiB *)

#[local] Existing Instance toy_library.

Definition vars : Type := list (list Z * list Z).
Definition get_var (s : vars) (n : list Z) : option (list Z) := snd <$> find (fun v => bool_decide (v.1 = n)) s.
Definition set_var (n v : list Z) (s : vars) : option vars := Some ((n, v) :: s).
Definition no_unzip (_ : Z) (_ : Z -> Z) (_ _ _ _ : Z) : Z * list Z := (1, []).
Definition no_os (_ _ : Z) (h : bootm_headers) (m : Z -> Z) (s : vars) : option (outcome * bootm_headers * (Z -> Z) * vars) :=
  Some (Return 0, h, m, s).

Definition sample_gd : Handover.global := Handover.Global (0, 0x9000) [(0, 0x9000)] 0x100 4321.

(** Kernel image, ramdisk and tree in the upper half. *)
Definition sample_memory : Z -> Z :=
  store (store (store (fun _ => 0) 0x8100 sample_fit) 0x8800 BootImages.ramdisk_image) 0x8e0c (flat linux_dtb).

Definition sample_world : world (S:=vars) :=
  World blank sample_memory [(cstr (bytes_of "bootargs"), cstr (bytes_of "ro"))].

Definition sample_args : list (list Z) := map (fun a => cstr (bytes_of a)) ["8100"; "8800"; "8e0c"]%string.

#[local] Instance sample_services : BootServices vars :=
  services get_var set_var no_unzip no_os 0x9000 sample_gd 0x9008 Atags.sample_board 3.

#[local] Abbreviation booted :=
  (do_bootm 0x9000 FitSample.junk FitSample.stack FitSample.keys 0x8100 sample_args sample_world).

(** What is needed of the state the kernel is handed over in. *)
Definition summary (r : outcome * world (S:=vars)) :=
  let h := images r.2 in
  (r.1, rd h, ft h, lmb h, ext r.2, bool_decide (BootImages.view 0x9000 (ram r.2) 0x8e0c = flat linux_dtb)).

Definition sample_lmb : Lmb.lmb :=
  Lmb.Lmb (Lmb.Region 1 0 (Lmb.Block 0 0x9000 :: replicate 8 (Lmb.Block 0 0)))
    (Lmb.Region 1 0 (Lmb.Block 0x8000 0x1000 :: replicate 8 (Lmb.Block 0 0))).

Definition sample_vars : vars :=
  [(cstr (bytes_of "fdtaddr"), cstr (bytes_of "8e0c")); (cstr (bytes_of "bootargs"), cstr (bytes_of "ro"))].

Definition sample_tree : FdtPaths.tree := memory_tree [(0, 0x9000)] (chosen_tree (Some (bytes_of "ro")) true linux_tree).

Example booted_summary :
  option_map summary booted = Some (Boot IH_OS_LINUX 0, (0x8840, 0x8846), (0x8e0c, 500), sample_lmb, sample_vars, true).
Proof. vm_compute. reflexivity. Qed.

Lemma sample_bytes x : byte (sample_memory x).
Proof.
  revert x. apply store_bytes; [apply store_bytes; [apply store_bytes; [done|apply sample_fit_bytes]|]|];
    apply (bool_decide_unpack _); vm_compute; exact I.
Qed.

Lemma booted_bytes w1 : booted = Some (Boot IH_OS_LINUX 0, w1) -> forall x, byte (ram w1 x).
Proof.
  apply (do_bootm_bytes get_var set_var no_unzip no_os 0x9000 sample_gd 0x9008 Atags.sample_board 3
    FitSample.junk FitSample.stack FitSample.keys 0x8100 sample_args sample_world w1 IH_OS_LINUX sample_bytes);
    [repeat constructor|reflexivity|vm_compute; discriminate].
Qed.

(** A state with this summary. *)
Lemma summary_ready w1 : (forall x, byte (ram w1 x)) ->
  summary (Boot IH_OS_LINUX 0, w1) = (Boot IH_OS_LINUX 0, (0x8840, 0x8846), (0x8e0c, 500), sample_lmb, sample_vars, true) ->
  ext w1 = sample_vars
  /\ Handover.ready 0x9000 (get_var sample_vars) sample_gd 3 (images w1) (ram w1) sample_lmb 0x8840 6 0x8e0c 500 linux_dtb linux_tree sample_tree []
       None 0x1000000 (Some (bytes_of "ro")) [].
Proof.
  intros HB. unfold summary. cbn [fst snd]. intros H. injection H as Hrd Hft Hl He Hv. apply bool_decide_eq_true in Hv.
  split; [exact He|]. assert (W : wf linux_dtb) by (by destruct linux_holds as (? & W & _)).
  split.
  - exact HB.
  - lia.
  - split; [exact Hrd|]. lia.
  - split; [exact Hft|reflexivity].
  - split; [exact Hv|]. split; [exact linux_holds|exact linux_rsvs].
  - rewrite Hl. by apply Handover.no_rsv_regions; [|exact linux_rsvs].
  - split; [split_and!|]; [done|..]; repeat constructor; cbn; lia.
  - split; [split; [done|right; split; [done|]]|]; repeat constructor; cbn; lia.
  - intros x Hx. constructor. unfold Lmb.block_covers. change (b_total linux_dtb) with 500 in Hx. cbn. lia.
  - split; [vm_compute; reflexivity|]. split; [done|]. right. unfold Handover.initrd_limit. cbn. lia.
  - split; [vm_compute; reflexivity|]. split; [by vm_compute|]. right. unfold Handover.tree_len. change (b_total linux_dtb) with 500.
    unfold BootImages.CONFIG_SYS_FDT_PAD. lia.
  - split; [vm_compute; reflexivity|]. intros a [= <-]. split; [by apply (bool_decide_unpack _)|by vm_compute].
  - split; [by vm_compute|]. split; [by vm_compute; eexists|]. intros n v [-> | ->]; vm_compute; [intros [= <-]; repeat constructor|done].
  - split; [lia|]. by constructor.
  - by vm_compute.
Qed.

Lemma summary_inv (x : option (outcome * world (S:=vars))) y : option_map summary x = Some y ->
  exists w1, x = Some (y.1.1.1.1.1, w1) /\ summary (y.1.1.1.1.1, w1) = y.
Proof. destruct x as [[o w1]|]; [|done]. intros [= <-]. by exists w1. Qed.

Lemma booted_ready : exists w1, booted = Some (Boot IH_OS_LINUX 0, w1) /\ ext w1 = sample_vars
  /\ Handover.ready 0x9000 (get_var sample_vars) sample_gd 3 (images w1) (ram w1) sample_lmb 0x8840 6 0x8e0c 500 linux_dtb linux_tree sample_tree []
       None 0x1000000 (Some (bytes_of "ro")) [].
Proof.
  destruct (summary_inv _ _ booted_summary) as (w1 & E & H). exists w1. split; [exact E|].
  exact (summary_ready w1 (booted_bytes w1 E) H).
Qed.


End LinuxBoot.
