(* ===== verification/Ubi.v ===== *)
(** * UBI volumes
      (drivers/mtd/ubi/upd.c, misc.c and vmt.c; the volume commands of
       common/cmd_ubi.c)

    The layer below (erase blocks, wear levelling, the volume table on flash)
    is the class [UbiEba].  A volume is the value in its slot of the device; the
    functions on one volume take it and return it changed, the commands store
    it back.  Locks and messages are left out; [ubi_assert] is empty in this
    build. *)

From S2P Require Import Prelude Cstring Vsprintf.

Module Ubi.
Import Cstring Vsprintf.

Definition EBADF : Z := 9.
Definition ENOMEM : Z := 12.
Definition EBUSY : Z := 16.
Definition EEXIST : Z := 17.
Definition ENODEV : Z := 19.
Definition ENFILE : Z := 23.
Definition ENOSPC : Z := 28.
Definition EROFS : Z := 30.
Definition ENAMETOOLONG : Z := 36.
Definition EBADMSG : Z := 74.

Definition UBI_DYNAMIC_VOLUME : Z := 3.
Definition UBI_STATIC_VOLUME : Z := 4.
Definition UBI_VID_DYNAMIC : Z := 1.
Definition UBI_VID_STATIC : Z := 2.
Definition UBI_VOL_NUM_AUTO : Z := -1.
Definition UBI_VOL_NAME_MAX : Z := 127.

(** ** Data *)

(** What is fixed for a volume, and what changes. *)
Record geometry := Geometry {
  vol_id : Z;
  reserved_pebs : Z;
  vol_type : Z;
  usable_leb_size : Z;
  alignment : Z;
  data_pad : Z;
  vol_name : str;
}.

(** The data a volume has: [used_ebs], [last_eb_bytes], [used_bytes]. *)
Record extent := Extent { used_ebs : Z; last_eb_bytes : Z; used_bytes : Z }.

(** The update in progress. *)
Record update := Update { upd_ebs : Z; upd_bytes : Z; upd_received : Z; upd_buf : list Z }.

Record ubi_volume := Vol {
  geo : geometry;
  ext : extent;
  upd : update;
  checked : bool;
  corrupted : bool;
  upd_marker : bool;
  updating : bool;
}.

Definition set_ext (e : extent) (v : ubi_volume) : ubi_volume :=
  Vol (geo v) e (upd v) (checked v) (corrupted v) (upd_marker v) (updating v).
Definition set_upd (u : update) (v : ubi_volume) : ubi_volume :=
  Vol (geo v) (ext v) u (checked v) (corrupted v) (upd_marker v) (updating v).
Definition set_checked (b : bool) (v : ubi_volume) : ubi_volume :=
  Vol (geo v) (ext v) (upd v) b (corrupted v) (upd_marker v) (updating v).
Definition set_corrupted (b : bool) (v : ubi_volume) : ubi_volume :=
  Vol (geo v) (ext v) (upd v) (checked v) b (upd_marker v) (updating v).
Definition set_marker (b : bool) (v : ubi_volume) : ubi_volume :=
  Vol (geo v) (ext v) (upd v) (checked v) (corrupted v) b (updating v).
Definition set_updating (b : bool) (v : ubi_volume) : ubi_volume :=
  Vol (geo v) (ext v) (upd v) (checked v) (corrupted v) (upd_marker v) b.

Definition receive (len : Z) (v : ubi_volume) : ubi_volume :=
  let u := upd v in set_upd (Update (upd_ebs u) (upd_bytes u) (upd_received u + len) (upd_buf u)) v.
Definition buffer (buf : list Z) (v : ubi_volume) : ubi_volume :=
  let u := upd v in set_upd (Update (upd_ebs u) (upd_bytes u) (upd_received u) buf) v.

(** A record of the volume table. *)
Record ubi_vtbl_record := VtblRec {
  r_reserved_pebs : Z; r_alignment : Z; r_data_pad : Z; r_vol_type : Z; r_upd_marker : bool; r_name : str }.

Definition mark_record (b : bool) (r : ubi_vtbl_record) : ubi_vtbl_record :=
  VtblRec (r_reserved_pebs r) (r_alignment r) (r_data_pad r) (r_vol_type r) b (r_name r).

(** The layer below: every call returns its code, what it stores and the new
    state of the flash.  [malloc] gives the memory as it is, or fails. *)
Class UbiEba (F : Type) := {
  ro_mode : F -> bool;
  vtbl : F -> Z -> ubi_vtbl_record;
  ubi_change_vtbl_record : F -> Z -> option ubi_vtbl_record -> Z * F;
  ubi_eba_unmap_leb : F -> geometry -> Z -> Z * F;
  ubi_eba_read_leb : F -> geometry -> Z -> Z -> Z -> bool -> Z * list Z * F;
  ubi_eba_write_leb : F -> geometry -> Z -> list Z -> Z -> Z * F;
  ubi_eba_write_leb_st : F -> geometry -> Z -> list Z -> Z -> Z -> Z * F;
  ubi_wl_flush : F -> Z * F;
  malloc : F -> Z -> option (list Z) * F;
}.

Section Ubi.
Context {F : Type} `{!UbiEba F}.

Record ubi_device := Ubi {
  flash : F;
  leb_size : Z;
  min_io_size : Z;
  vtbl_slots : Z;
  avail_pebs : Z;
  rsvd_pebs : Z;
  beb_rsvd_level : Z;
  beb_rsvd_pebs : Z;
  vol_count : Z;
  volumes : list (option ubi_volume);
}.

Definition set_flash (f : F) (d : ubi_device) : ubi_device :=
  Ubi f (leb_size d) (min_io_size d) (vtbl_slots d) (avail_pebs d) (rsvd_pebs d) (beb_rsvd_level d)
    (beb_rsvd_pebs d) (vol_count d) (volumes d).
Definition set_volume (i : nat) (v : option ubi_volume) (d : ubi_device) : ubi_device :=
  Ubi (flash d) (leb_size d) (min_io_size d) (vtbl_slots d) (avail_pebs d) (rsvd_pebs d) (beb_rsvd_level d)
    (beb_rsvd_pebs d) (vol_count d) (<[i := v]> (volumes d)).
Definition set_pebs (avail rsvd beb : Z) (d : ubi_device) : ubi_device :=
  Ubi (flash d) (leb_size d) (min_io_size d) (vtbl_slots d) avail rsvd (beb_rsvd_level d) beb
    (vol_count d) (volumes d).
Definition set_vol_count (n : Z) (d : ubi_device) : ubi_device :=
  Ubi (flash d) (leb_size d) (min_io_size d) (vtbl_slots d) (avail_pebs d) (rsvd_pebs d) (beb_rsvd_level d)
    (beb_rsvd_pebs d) n (volumes d).

(** [ALIGN(x, a)] for a power of two. *)
Definition ALIGN (x a : Z) : Z := (x + (a - 1)) .& Z.lnot (a - 1).

(** ** The update marker (upd.c) *)

Definition set_update_marker (f : F) (vol : ubi_volume) : Z * F * ubi_volume :=
  if upd_marker vol then (0, f, vol) else
  let '(err, f) :=
    ubi_change_vtbl_record f (vol_id (geo vol)) (Some (mark_record true (vtbl f (vol_id (geo vol))))) in
  (err, f, set_marker true vol).

(** The size of the data after an update of a static volume. *)
Definition extent_of (bytes usable : Z) : extent :=
  let last := bytes mod usable in
  if last =? 0 then Extent (s32 (bytes / usable)) usable bytes
  else Extent (s32 (bytes / usable) + 1) last bytes.

Definition clear_update_marker (f : F) (vol : ubi_volume) (bytes : Z) : Z * F * ubi_volume :=
  let vtbl_rec := mark_record false (vtbl f (vol_id (geo vol))) in
  let vol :=
    if vol_type (geo vol) =? UBI_STATIC_VOLUME
    then set_ext (extent_of bytes (usable_leb_size (geo vol))) (set_corrupted false vol)
    else vol in
  let '(err, f) := ubi_change_vtbl_record f (vol_id (geo vol)) (Some vtbl_rec) in
  (err, f, set_marker false vol).

(** [for (i = 0; i < vol->reserved_pebs; i++)]: the [n] blocks from [i] on. *)
Fixpoint unmap_lebs (n : nat) (i : Z) (f : F) (g : geometry) : Z * F :=
  match n with
  | O => (0, f)
  | S n =>
      let '(err, f) := ubi_eba_unmap_leb f g i in
      if negb (err =? 0) then (err, f) else unmap_lebs n (i + 1) f g
  end.

(** [vmalloc] and what comes after it in [ubi_start_update]. *)
Definition start_buffer (leb_size : Z) (f : F) (vol : ubi_volume) (bytes : Z) : Z * F * ubi_volume :=
  let '(m, f) := malloc f leb_size in
  match m with
  | None => (- ENOMEM, f, vol)
  | Some buf =>
      let usable := usable_leb_size (geo vol) in
      let ebs := (if bytes mod usable =? 0 then 0 else 1) + bytes / usable in
      (0, f, set_upd (Update (s32 ebs) bytes 0 buf) vol)
  end.

Definition ubi_start_update (leb_size : Z) (f : F) (vol : ubi_volume) (bytes : Z) : Z * F * ubi_volume :=
  let vol := set_updating true vol in
  let '(err, f, vol) := set_update_marker f vol in
  if negb (err =? 0) then (err, f, vol) else
  let '(err, f) := unmap_lebs (Z.to_nat (reserved_pebs (geo vol))) 0 f (geo vol) in
  if negb (err =? 0) then (err, f, vol) else
  if bytes =? 0 then
    let '(err, f, vol) := clear_update_marker f vol 0 in
    if negb (err =? 0) then (err, f, vol) else
    let '(err, f) := ubi_wl_flush f in
    start_buffer leb_size f (if err =? 0 then set_updating false vol else vol) bytes
  else start_buffer leb_size f vol bytes.

(** ** Writing the data (upd.c, misc.c) *)

(** [for (i = length - 1; i >= 0; i--) if (buf[i] != 0xFF) break]: [i + 1]. *)
Fixpoint data_end (buf : list Z) (n : nat) : nat :=
  match n with
  | O => O
  | S i => if nth i buf 0 =? 0xff then data_end buf i else n
  end.

Definition ubi_calc_data_len (min_io_size : Z) (buf : list Z) (length : Z) : Z :=
  ALIGN (Z.of_nat (data_end buf (Z.to_nat length))) min_io_size.

(** [memset(buf + off, c, n)]; [None] behind the buffer. *)
Definition fill (buf : list Z) (off c n : Z) : option (list Z) :=
  if (off <? 0) || (n <? 0) || (Z.of_nat (length buf) <? off + n) then None
  else Some (memcpy buf (Z.to_nat off) (replicate (Z.to_nat n) c)).

Definition write_leb (min_io_size : Z) (f : F) (g : geometry) (lnum : Z) (buf : list Z) (len used_ebs : Z)
    : option (Z * F) :=
  if vol_type g =? UBI_DYNAMIC_VOLUME then
    let l := ALIGN len min_io_size in
    buf ← fill buf len 0xff (l - len);
    let len := ubi_calc_data_len min_io_size buf l in
    if len =? 0 then Some (0, f)
    else Some (ubi_eba_write_leb f g lnum (take (Z.to_nat len) buf) 0)
  else
    buf ← fill buf len 0 (usable_leb_size g - len);
    Some (ubi_eba_write_leb_st f g lnum buf len used_ebs).

(** [copy_from_user(vol->upd_buf + off, buf, len)] *)
Definition copy_in (vol : ubi_volume) (off : Z) (data : list Z) : option ubi_volume :=
  if (off <? 0) || (Z.of_nat (length (upd_buf (upd vol))) <? off + Z.of_nat (length data)) then None
  else Some (buffer (memcpy (upd_buf (upd vol)) (Z.to_nat off) data) vol).

(** The write to the middle of an erase block: a code to return, or the data
    that is left. *)
Definition update_middle (min_io_size : Z) (f : F) (vol : ubi_volume) (lnum offs : Z) (buf : list Z)
    : option (Z * F * ubi_volume * list Z) :=
  let usable := usable_leb_size (geo vol) in
  let len := Z.min (usable - offs) (Z.of_nat (length buf)) in
  vol ← copy_in vol offs (take (Z.to_nat len) buf);
  '(err, f) ← (if (offs + len =? usable) || (upd_received (upd vol) + len =? upd_bytes (upd vol))
               then write_leb min_io_size f (geo vol) lnum (upd_buf (upd vol)) (offs + len) (upd_ebs (upd vol))
               else Some (0, f));
  if negb (err =? 0) then Some (err, f, vol, buf)
  else Some (0, f, receive len vol, drop (Z.to_nat len) buf).

(** [while (count)]; ends with [err]. *)
Fixpoint update_loop (fuel : nat) (min_io_size : Z) (f : F) (vol : ubi_volume) (lnum : Z) (buf : list Z)
    : option (Z * F * ubi_volume) :=
  match fuel with
  | O => None
  | S fuel =>
      match buf with
      | [] => Some (0, f, vol)
      | _ =>
          let usable := usable_leb_size (geo vol) in
          let len := if usable <? Z.of_nat (length buf) then usable else Z.of_nat (length buf) in
          vol ← copy_in vol 0 (take (Z.to_nat len) buf);
          '(err, f) ← (if (len =? usable) || (upd_received (upd vol) + len =? upd_bytes (upd vol))
                       then write_leb min_io_size f (geo vol) lnum (upd_buf (upd vol)) len (upd_ebs (upd vol))
                       else Some (0, f));
          if negb (err =? 0) then Some (err, f, vol)
          else update_loop fuel min_io_size f (receive len vol) (lnum + 1) (drop (Z.to_nat len) buf)
      end
  end.

(** What follows the loop. *)
Definition update_finish (f : F) (vol : ubi_volume) (err to_write : Z) : Z * F * ubi_volume :=
  if upd_received (upd vol) =? upd_bytes (upd vol) then
    let '(err, f, vol) := clear_update_marker f vol (upd_bytes (upd vol)) in
    if negb (err =? 0) then (err, f, vol) else
    let '(err, f) := ubi_wl_flush f in
    if err =? 0 then (to_write, f, set_updating false vol) else (err, f, vol)
  else (err, f, vol).

(** [buf] holds [count] bytes. *)
Definition ubi_more_update_data (min_io_size : Z) (f : F) (vol : ubi_volume) (buf : list Z)
    : option (Z * F * ubi_volume) :=
  if ro_mode f then Some (- EROFS, f, vol) else
  let usable := usable_leb_size (geo vol) in
  let u := upd vol in
  let offs := upd_received u mod usable in
  let lnum := upd_received u / usable in
  let buf := if upd_bytes u <? upd_received u + Z.of_nat (length buf)
             then take (Z.to_nat (upd_bytes u - upd_received u)) buf else buf in
  let to_write := Z.of_nat (length buf) in
  '(err, f, vol, rest) ← (if negb (offs =? 0) then update_middle min_io_size f vol lnum offs buf
                          else Some (0, f, vol, buf));
  if negb (err =? 0) then Some (err, f, vol) else
  '(err, f, vol) ← update_loop (S (length rest)) min_io_size f vol (lnum + (if offs =? 0 then 0 else 1)) rest;
  Some (update_finish f vol err to_write).

(** ** Checking a static volume (misc.c) *)

Fixpoint check_lebs (n : nat) (i : Z) (f : F) (vol : ubi_volume) : Z * F :=
  match n with
  | O => (0, f)
  | S n =>
      let size := if i =? used_ebs (ext vol) - 1 then last_eb_bytes (ext vol) else usable_leb_size (geo vol) in
      let '(err, _, f) := ubi_eba_read_leb f (geo vol) i 0 size true in
      if negb (err =? 0) then (if err =? - EBADMSG then 1 else err, f) else check_lebs n (i + 1) f vol
  end.

Definition ubi_check_volume (f : F) (vol : ubi_volume) : Z * F :=
  if negb (vol_type (geo vol) =? UBI_STATIC_VOLUME) then (0, f) else
  let '(m, f) := malloc f (usable_leb_size (geo vol)) in
  match m with
  | None => (- ENOMEM, f)
  | Some _ => check_lebs (Z.to_nat (used_ebs (ext vol))) 0 f vol
  end.

(** [ubi->beb_rsvd_level], with CONFIG_MTD_UBI_BEB_RESERVE 1. *)
Definition ubi_calculate_reserved (good_peb_count : Z) : Z :=
  let level := Z.quot good_peb_count 100 * 1 in if level <? 2 then 2 else level.

(** ** The commands (cmd_ubi.c) *)

Definition ubi_check_volumename (vol : ubi_volume) (name : list Z) : option Z := strcmp (cstr (vol_name (geo vol))) name.

(** [0] when one of the slots has the name. *)
Fixpoint check_slots (l : list (option ubi_volume)) (name : list Z) : option Z :=
  match l with
  | [] => Some 1
  | None :: l => check_slots l name
  | Some vol :: l => r ← ubi_check_volumename vol name; if r =? 0 then Some 0 else check_slots l name
  end.

Definition ubi_check (d : ubi_device) (name : list Z) : option Z :=
  check_slots (take (Z.to_nat (vtbl_slots d + 1)) (volumes d)) name.

(** The slot of the first volume of the name. *)
Fixpoint find_slot (l : list (option ubi_volume)) (name : list Z) : option (option nat) :=
  match l with
  | [] => Some None
  | None :: l => r ← find_slot l name; Some (option_map S r)
  | Some vol :: l =>
      c ← strcmp (cstr (vol_name (geo vol))) name;
      if c =? 0 then Some (Some O) else r ← find_slot l name; Some (option_map S r)
  end.

Definition ubi_find_volume (d : ubi_device) (volume : list Z) : option (option (nat * ubi_volume)) :=
  r ← find_slot (take (Z.to_nat (vtbl_slots d)) (volumes d)) volume;
  Some (i ← r; v ← mjoin (volumes d !! i); Some (i, v)).

(** [buf] holds [size] bytes.  The result is a positive error code.  The slot of
    a volume is its id, so [ubi_check_volume] looks at the same volume. *)
Definition ubi_volume_write (d : ubi_device) (volume buf : list Z) : option (Z * ubi_device) :=
  let size := Z.of_nat (length buf) in
  r ← ubi_find_volume d volume;
  match r with
  | None => Some (ENODEV, d)
  | Some (i, vol) =>
      let rsvd_bytes := u32 (reserved_pebs (geo vol) * (leb_size d - data_pad (geo vol))) in
      if rsvd_bytes <? size then Some (EINVAL, d) else
      let '(err, f, vol) := ubi_start_update (leb_size d) (flash d) vol size in
      if err <? 0 then Some (- err, set_volume i (Some vol) (set_flash f d)) else
      '(err, f, vol) ← ubi_more_update_data (min_io_size d) f vol buf;
      let d := set_volume i (Some vol) (set_flash f d) in
      if err <? 0 then Some (- err, d) else
      if negb (err =? 0) then
        let '(err, f) := ubi_check_volume f vol in
        if err <? 0 then Some (- err, set_flash f d) else
        let vol := if negb (err =? 0) then set_corrupted true vol else vol in
        Some (0, set_volume i (Some (set_checked true vol)) (set_flash f d))
      else Some (0, d)
  end.

(** The [do ... while (size)] loop: the code, and what was stored at [buf].
    [tbuf] is the buffer between flash and memory. *)
Fixpoint read_loop (fuel : nat) (f : F) (g : geometry) (tbuf_size lnum off len size : Z) (out : list Z)
    : option (Z * list Z * F) :=
  match fuel with
  | O => None
  | S fuel =>
      let usable := usable_leb_size g in
      let len := if usable <=? off + len then usable - off else len in
      let '(err, tbuf, f) := ubi_eba_read_leb f g lnum off len false in
      if negb (err =? 0) then Some (- err, out, f) else
      let off := off + len in
      let '(lnum, off) := if off =? usable then (lnum + 1, off - usable) else (lnum, off) in
      let size := u32 (size - len) in
      let out := out ++ tbuf in
      let len := if tbuf_size <? size then tbuf_size else size in
      if size =? 0 then Some (0, out, f) else read_loop fuel f g tbuf_size lnum off len size out
  end.

(** A [size] of zero is the whole volume.  The code, and what was stored. *)
Definition ubi_volume_read (d : ubi_device) (volume : list Z) (size : Z) : option (Z * list Z * ubi_device) :=
  r ← ubi_find_volume d volume;
  match r with
  | None => Some (ENODEV, [], d)
  | Some (_, vol) =>
      if updating vol then Some (EBUSY, [], d) else
      if upd_marker vol then Some (EBADF, [], d) else
      let used := used_bytes (ext vol) in
      if used =? 0 then Some (0, [], d) else
      let size := if size =? 0 then u32 used else size in
      let size := if used <? size then u32 used else size in
      let usable := usable_leb_size (geo vol) in
      let tbuf_size := if size <? usable then ALIGN size (min_io_size d) else usable in
      let '(m, f) := malloc (flash d) tbuf_size in
      match m with
      | None => Some (ENOMEM, [], set_flash f d)
      | Some _ =>
          let len := if tbuf_size <? size then tbuf_size else size in
          '(err, out, f) ← read_loop (S (Z.to_nat size)) f (geo vol) tbuf_size 0 0 len size [];
          Some (err, out, set_flash f d)
      end
  end.

(** *** Creating and removing volumes (cmd_ubi.c, vmt.c) *)

Record ubi_mkvol_req := MkVol {
  q_vol_id : Z; q_alignment : Z; q_bytes : Z; q_vol_type : Z; q_name_len : Z; q_name : str }.

Definition verify_mkvol_req (d : ubi_device) (req : ubi_mkvol_req) : Z :=
  if (q_bytes req <? 0) || (q_alignment req <? 0) || (q_vol_type req <? 0) || (q_name_len req <? 0) then EINVAL else
  if ((q_vol_id req <? 0) || (vtbl_slots d <=? q_vol_id req)) && negb (q_vol_id req =? UBI_VOL_NUM_AUTO)
  then EINVAL else
  if q_alignment req =? 0 then EINVAL else
  if q_bytes req =? 0 then ENOMEM else
  if negb (q_vol_type req =? UBI_DYNAMIC_VOLUME) && negb (q_vol_type req =? UBI_STATIC_VOLUME) then EINVAL else
  if leb_size d <? q_alignment req then EINVAL else
  if negb (q_alignment req =? 1) && negb (q_alignment req mod min_io_size d =? 0) then EINVAL else
  if UBI_VOL_NAME_MAX <? q_name_len req then ENAMETOOLONG else 0.

(** The first empty slot, as a volume id. *)
Fixpoint vacant (l : list (option ubi_volume)) (i : Z) : option Z :=
  match l with
  | [] => None
  | None :: _ => Some i
  | Some _ :: l => vacant l (i + 1)
  end.

Definition name_taken (l : list (option ubi_volume)) (req : ubi_mkvol_req) : bool :=
  existsb (fun v => match v with
                    | Some v => (Z.of_nat (length (vol_name (geo v))) =? q_name_len req)
                                && bool_decide (vol_name (geo v) = q_name req)
                    | None => false
                    end) l.

Definition new_volume (d : ubi_device) (req : ubi_mkvol_req) (id pebs : Z) : ubi_volume :=
  let usable := leb_size d - leb_size d mod q_alignment req in
  let g := Geometry id pebs (q_vol_type req) usable (q_alignment req) (leb_size d mod q_alignment req) (q_name req) in
  Vol g (if q_vol_type req =? UBI_DYNAMIC_VOLUME then Extent pebs usable (pebs * usable) else extent_of 0 usable)
    (Update 0 0 0 []) false false false false.

Definition ubi_create_volume (d : ubi_device) (req : ubi_mkvol_req) : Z * ubi_device :=
  if ro_mode (flash d) then (- EROFS, d) else
  let slots := take (Z.to_nat (vtbl_slots d)) (volumes d) in
  let '(m, f) := malloc (flash d) 0 in
  let d := set_flash f d in
  match m with
  | None => (- ENOMEM, d)
  | Some _ =>
      match (if q_vol_id req =? UBI_VOL_NUM_AUTO then vacant slots 0 else Some (q_vol_id req)) with
      | None => (- ENFILE, d)
      | Some id =>
          if match mjoin (volumes d !! Z.to_nat id) with Some _ => true | None => false end then (- EEXIST, d) else
          if name_taken slots req then (- EEXIST, d) else
          let usable := leb_size d - leb_size d mod q_alignment req in
          let pebs := (if q_bytes req mod usable =? 0 then 0 else 1) + s32 (q_bytes req / usable) in
          if avail_pebs d <? pebs then (- ENOSPC, d) else
          let '(err, f) := ubi_wl_flush (flash d) in
          if negb (err =? 0) then (err, set_flash f d) else
          let '(m, f) := malloc f (4 * pebs) in
          match m with
          | None => (- ENOMEM, set_flash f d)
          | Some _ =>
              let rec := VtblRec pebs (q_alignment req) (leb_size d mod q_alignment req)
                (if q_vol_type req =? UBI_DYNAMIC_VOLUME then UBI_VID_DYNAMIC else UBI_VID_STATIC) false (q_name req) in
              let '(err, f) := ubi_change_vtbl_record f id (Some rec) in
              if negb (err =? 0) then (err, set_flash f d) else
              (0, set_vol_count (vol_count d + 1)
                    (set_volume (Z.to_nat id) (Some (new_volume d req id pebs))
                       (set_pebs (avail_pebs d - pebs) (rsvd_pebs d + pebs) (beb_rsvd_pebs d) (set_flash f d))))
          end
      end
  end.

(** [strcpy] to [req.name]: 128 bytes. *)
Definition ubi_create_vol (d : ubi_device) (volume : str) (size : Z) (dynamic : bool) : option (Z * ubi_device) :=
  if UBI_VOL_NAME_MAX <? Z.of_nat (length volume) then None else
  let req := MkVol UBI_VOL_NUM_AUTO 1 size (if dynamic then UBI_DYNAMIC_VOLUME else UBI_STATIC_VOLUME)
               (Z.of_nat (length volume)) volume in
  let err := verify_mkvol_req d req in
  if negb (err =? 0) then Some (err, d) else Some (ubi_create_volume d req).

(** [out_err] of [ubi_remove_vol]. *)
Definition positive (err : Z) : Z := if err <? 0 then - err else err.

Definition ubi_remove_vol (d : ubi_device) (volume : list Z) : option (Z * ubi_device) :=
  r ← ubi_find_volume d volume;
  match r with
  | None => Some (ENODEV, d)
  | Some (_, vol) =>
      if ro_mode (flash d) then Some (EROFS, d) else
      let '(err, f) := ubi_change_vtbl_record (flash d) (vol_id (geo vol)) None in
      if negb (err =? 0) then Some (positive err, set_flash f d) else
      let pebs := reserved_pebs (geo vol) in
      let '(err, f) := unmap_lebs (Z.to_nat pebs) 0 f (geo vol) in
      if negb (err =? 0) then Some (positive err, set_flash f d) else
      let avail := avail_pebs d + pebs in
      let rsvd := rsvd_pebs d - pebs in
      let i := beb_rsvd_level d - beb_rsvd_pebs d in
      let more := if 0 <? i then (if i <=? avail then i else avail) else 0 in
      Some (0, set_vol_count (vol_count d - 1)
                 (set_pebs (avail - more) (rsvd + more) (beb_rsvd_pebs d + more)
                    (set_volume (Z.to_nat (vol_id (geo vol))) None (set_flash f d))))
  end.

(** *** The command line *)

(** The command's own state beside the device, and the memory. *)
Record world := World { dev : ubi_device; selected : bool; memory : Z -> Z }.

(** [strncmp(s, prefix, strlen(prefix)) == 0] *)
Definition starts (s : list Z) (prefix : string) : option bool :=
  r ← strncmp s (cstr (bytes_of prefix)) (Z.of_nat (length (bytes_of prefix))); Some (r =? 0).

Definition is_word (s : list Z) (w : string) : option bool :=
  r ← strcmp s (cstr (bytes_of w)); Some (r =? 0).

Definition hex_arg (s : list Z) : option Z := '(v, _) ← simple_strtoul s 16; Some v.

Definition with_dev (w : world) (r : Z * ubi_device) : Z * world := (r.1, World r.2 (selected w) (memory w)).

(** [ubi create]: [None] inside when it goes on to the usage message. *)
Definition cmd_create (w : world) (argv : list (list Z)) : option (option (Z * world)) :=
  let argc := length argv in
  type ← (if (argc =? 5)%nat then
            t ← argv !! 4%nat; s ← starts t "s"; if s : bool then Some (Some false) else
            d ← starts t "d"; Some (if d : bool then Some true else None)
          else Some (Some true));
  match type with
  | None => Some (Some (1, w))
  | Some dynamic =>
      let argc := if (argc =? 5)%nat then 4%nat else argc in
      size ← (if (argc =? 4)%nat then s ← argv !! 3%nat; hex_arg s else Some 0);
      let argc := if (argc =? 4)%nat then 3%nat else argc in
      let size := if size =? 0 then u32 (avail_pebs (dev w) * leb_size (dev w)) else size in
      if (argc =? 3)%nat then
        v ← argv !! 2%nat; n ← strlen v;
        r ← ubi_create_vol (dev w) (take n v) (s32 size) dynamic;
        Some (Some (with_dev w r))
      else Some None
  end.

(** [ubi read] *)
Definition cmd_read (w : world) (argv : list (list Z)) : option (Z * world) :=
  let argc := length argv in
  size ← (if (argc =? 5)%nat then s ← argv !! 4%nat; hex_arg s else Some 0);
  let argc := if (argc =? 5)%nat then 4%nat else argc in
  addr ← (if (argc =? 4)%nat then s ← argv !! 2%nat; hex_arg s else Some 0);
  let argc := if (argc =? 4)%nat then 3%nat else argc in
  if (argc =? 3)%nat then
    v ← argv !! 3%nat;
    '(err, out, d) ← ubi_volume_read (dev w) v size;
    Some (err, World d (selected w) (store (memory w) addr out))
  else Some (1, w).

Definition cmd_write (w : world) (argv : list (list Z)) : option (Z * world) :=
  if (length argv <? 5)%nat then Some (1, w) else
  a ← argv !! 2%nat; v ← argv !! 3%nat; s ← argv !! 4%nat;
  addr ← hex_arg a; size ← hex_arg s;
  r ← ubi_volume_write (dev w) v (load (memory w) addr (Z.to_nat size));
  Some (with_dev w r).

Definition CMD_RET_USAGE : Z := -1.

(** [mtdparts_init] and [ubi part] (attaching the flash) are parameters. *)
Context (mtdparts_init : world -> Z * world) (ubi_part : world -> list (list Z) -> option (Z * world)).

Definition do_ubi (w : world) (argv : list (list Z)) : option (Z * world) :=
  if (length argv <? 2)%nat then Some (CMD_RET_USAGE, w) else
  let '(err, w) := mtdparts_init w in
  if negb (err =? 0) then Some (1, w) else
  cmd ← argv !! 1%nat;
  part ← is_word cmd "part";
  if part : bool then ubi_part w argv else
  if negb (selected w) then Some (1, w) else
  info ← is_word cmd "info";
  if info : bool then Some (0, w) else
  check ← is_word cmd "check";
  if check : bool then
    match argv !! 2%nat with
    | Some name => r ← ubi_check (dev w) name; Some (r, w)
    | None => Some (1, w)
    end else
  create ← starts cmd "create";
  created ← (if create : bool then cmd_create w argv else Some None);
  match created with
  | Some r => Some r
  | None =>
      remove ← starts cmd "remove";
      if remove && (length argv =? 3)%nat then
        v ← argv !! 2%nat; r ← ubi_remove_vol (dev w) v; Some (with_dev w r)
      else
        write ← starts cmd "write";
        if write : bool then cmd_write w argv else
        read ← starts cmd "read";
        if read : bool then cmd_read w argv else Some (1, w)
  end.

End Ubi.

(** ** Alignment and the end of the data *)

Lemma ALIGN_eq x k : 0 <= k -> ALIGN x (2 ^ k) = (x + 2 ^ k - 1) / 2 ^ k * 2 ^ k.
Proof.
  intros Hk. unfold ALIGN. replace (x + (2 ^ k - 1)) with (x + 2 ^ k - 1) by lia.
  replace (2 ^ k - 1) with (Z.ones k) by (rewrite Z.ones_equiv; lia).
  rewrite <- Z.ldiff_land, Z.ldiff_ones_r by done.
  by rewrite Z.shiftl_mul_pow2, Z.shiftr_div_pow2.
Qed.

Lemma ALIGN_bounds x k m :
  0 <= k -> 0 <= x <= m -> (2 ^ k | m) -> x <= ALIGN x (2 ^ k) <= m.
Proof.
  intros Hk Hx [q ->]. rewrite ALIGN_eq by done. pose proof (Z.pow_pos_nonneg 2 k ltac:(lia) Hk) as Hp.
  pose proof (Z.div_mod (x + 2 ^ k - 1) (2 ^ k) ltac:(lia)) as Hd.
  pose proof (Z.mod_pos_bound (x + 2 ^ k - 1) (2 ^ k) Hp) as Hm. split; [nia|].
  enough ((x + 2 ^ k - 1) / 2 ^ k <= q) by nia. assert (2 ^ k * ((x + 2 ^ k - 1) / 2 ^ k) < 2 ^ k * (q + 1)) by nia. nia.
Qed.

Lemma ALIGN_div x k : 0 <= k -> (2 ^ k | ALIGN x (2 ^ k)).
Proof. intros Hk. rewrite ALIGN_eq by done. by exists ((x + 2 ^ k - 1) / 2 ^ k). Qed.

Lemma data_end_spec buf n :
  (data_end buf n <= n)%nat /\ forall i, (data_end buf n <= i < n)%nat -> nth i buf 0 = 0xff.
Proof.
  induction n as [|n [IH1 IH2]]; cbn [data_end]; [split; [done|lia]|].
  destruct (Z.eqb_spec (nth n buf 0) 0xff); [|split; [done|lia]]. split; [lia|].
  intros i Hi. destruct (decide (i = n)) as [->|]; [done|]. apply IH2. lia.
Qed.

End Ubi.
