(* ===== verification/UbiIo.v ===== *)
(** * UBI: headers and the flash (drivers/mtd/ubi/io.c)

    Reading, writing and erasing physical erase blocks with the retries of the
    code, and the two headers every block starts with.  The flash driver is the
    class [Mtd]; [MtdOk] states what the chip does.  Buffers that are filled
    before they are read ([peb_buf1]) are local; the paranoid checks are
    compiled out and assertions are empty. *)

From stdpp Require Import gmap.
From S2P Require Import Prelude Crc32 Cstring Vsprintf Ubi.

Module UbiIo.
Import Vsprintf Ubi.

Definition EIO : Z := 5.
Definition EINTR : Z := 4.
Definition EAGAIN : Z := 11.
Definition EUCLEAN : Z := 117.

Definition UBI_IO_PEB_EMPTY : Z := 1.
Definition UBI_IO_PEB_FREE : Z := 2.
Definition UBI_IO_BAD_EC_HDR : Z := 3.
Definition UBI_IO_BAD_VID_HDR : Z := 4.
Definition UBI_IO_BITFLIPS : Z := 5.

Definition UBI_IO_RETRIES : nat := 3.
Definition UBI_LEB_UNMAPPED : Z := -1.

Definition UBI_VERSION : Z := 1.
Definition UBI_MAX_ERASECOUNTER : Z := 0x7FFFFFFF.
Definition UBI_CRC32_INIT : Z := 0xFFFFFFFF.
Definition UBI_EC_HDR_MAGIC : Z := 0x55424923.
Definition UBI_VID_HDR_MAGIC : Z := 0x55424921.
Definition UBI_EC_HDR_SIZE : Z := 64.
Definition UBI_VID_HDR_SIZE : Z := 64.
Definition UBI_MAX_VOLUMES : Z := 128.
Definition UBI_INTERNAL_VOL_START : Z := 0x7FFFFFFF - 4096.
Definition UBI_COMPAT_DELETE : Z := 1.
Definition UBI_COMPAT_RO : Z := 2.
Definition UBI_COMPAT_PRESERVE : Z := 4.
Definition UBI_COMPAT_REJECT : Z := 5.

(** [crc32_le] of drivers/mtd/ubi/crc32.c: the loop and the table of lib/crc32.c
    over again.  The result does not depend on the address. *)
Definition crc32 (crc : Z) (p : list Z) : Z := Crc32.crc32_no_comp crc 0 p.

(** ** The driver *)

(** [mtd_read]: code, number of bytes read, the buffer of [len] bytes afterwards;
    [mtd_erase]: code and whether the state is [MTD_ERASE_FAILED]. *)
Class Mtd (M : Type) := {
  mtd_read : M -> Z -> Z -> Z * Z * list Z * M;
  mtd_write : M -> Z -> list Z -> Z * M;
  mtd_erase : M -> Z -> Z -> Z * bool * M;
  mtd_block_isbad : M -> Z -> Z * M;
  mtd_block_markbad : M -> Z -> Z * M;
}.

(** What [io_init] finds out about the device. *)
Record ubi_geometry := UbiGeometry {
  peb_count : Z;
  peb_size : Z;
  min_io_size : Z;
  hdrs_min_io_size : Z;
  ec_hdr_alsize : Z;
  vid_hdr_alsize : Z;
  vid_hdr_offset : Z;
  vid_hdr_aloffset : Z;
  vid_hdr_shift : Z;
  leb_start : Z;
  leb_size : Z;
  bad_allowed : bool;
}.

(** What it reads of [struct mtd_info]. *)
Record mtd_info := MtdInfo {
  numeraseregions : Z;
  erasesize : Z;
  size : Z;
  writesize : Z;
  subpage_sft : Z;
  can_mark_bad : bool;
  writeable : bool;
}.

Definition is_power_of_2 (n : Z) : bool := negb (n =? 0) && (n .& (n - 1) =? 0).

(** The layout, and whether the device is read-only from the start. *)
Definition io_init (mtd : mtd_info) (vid_offset : Z) : (ubi_geometry * bool) + Z :=
  if negb (numeraseregions mtd =? 0) then inr (- EINVAL) else
  if vid_offset <? 0 then inr (- EINVAL) else
  let hdrs := writesize mtd .>> subpage_sft mtd in
  if negb (is_power_of_2 (writesize mtd)) then inr (- EINVAL) else
  let ec_al := ALIGN UBI_EC_HDR_SIZE hdrs in
  let vid_al := ALIGN UBI_VID_HDR_SIZE hdrs in
  let '(off, aloff, shift) :=
    if vid_offset =? 0 then (ec_al, ec_al, 0)
    else let al := vid_offset .& Z.lnot (hdrs - 1) in (vid_offset, al, vid_offset - al) in
  let start := ALIGN (off + UBI_EC_HDR_SIZE) (writesize mtd) in
  if negb (Z.rem shift 4 =? 0) then inr (- EINVAL) else
  if (off <? UBI_EC_HDR_SIZE) || (start <? off + UBI_VID_HDR_SIZE) || (erasesize mtd - UBI_VID_HDR_SIZE <? start)
     || negb (start .& (writesize mtd - 1) =? 0) then inr (- EINVAL) else
  inl (UbiGeometry (size mtd / erasesize mtd) (erasesize mtd) (writesize mtd) hdrs ec_al vid_al off aloff shift start
         (erasesize mtd - start) (can_mark_bad mtd),
       (off + UBI_VID_HDR_SIZE <=? hdrs) || negb (writeable mtd)).

(** ** Headers *)

(** [len] bytes of a buffer from [off] on. *)
Definition sub (l : list Z) (off len : nat) : list Z := take len (drop off l).
Definition be_at (l : list Z) (off n : nat) : Z := be_combine (sub l off n).
Definition byte_at (l : list Z) (off : nat) : Z := nth off l 0.

Record ubi_ec_hdr := EcHdr {
  ec_magic : Z; ec_version : Z; ec_padding1 : list Z; ec_ec : Z; ec_vid_hdr_offset : Z; ec_data_offset : Z;
  ec_padding2 : list Z; ec_hdr_crc : Z }.

Definition ec_bytes (h : ubi_ec_hdr) : list Z :=
  be_bytes 4 (ec_magic h) ++ [ec_version h] ++ ec_padding1 h ++ be_bytes 8 (ec_ec h) ++ be_bytes 4 (ec_vid_hdr_offset h)
  ++ be_bytes 4 (ec_data_offset h) ++ ec_padding2 h ++ be_bytes 4 (ec_hdr_crc h).

Definition ec_of (l : list Z) : ubi_ec_hdr :=
  EcHdr (be_at l 0 4) (byte_at l 4) (sub l 5 3) (be_at l 8 8) (be_at l 16 4) (be_at l 20 4) (sub l 24 36) (be_at l 60 4).

Record ubi_vid_hdr := VidHdr {
  vid_magic : Z; vid_version : Z; vid_vol_type : Z; vid_copy_flag : Z; vid_compat : Z; vid_vol_id : Z; vid_lnum : Z;
  vid_leb_ver : Z; vid_data_size : Z; vid_used_ebs : Z; vid_data_pad : Z; vid_data_crc : Z; vid_padding1 : list Z;
  vid_sqnum : Z; vid_padding2 : list Z; vid_hdr_crc : Z }.

Definition vid_bytes (h : ubi_vid_hdr) : list Z :=
  be_bytes 4 (vid_magic h) ++ [vid_version h; vid_vol_type h; vid_copy_flag h; vid_compat h] ++ be_bytes 4 (vid_vol_id h)
  ++ be_bytes 4 (vid_lnum h) ++ be_bytes 4 (vid_leb_ver h) ++ be_bytes 4 (vid_data_size h) ++ be_bytes 4 (vid_used_ebs h)
  ++ be_bytes 4 (vid_data_pad h) ++ be_bytes 4 (vid_data_crc h) ++ vid_padding1 h ++ be_bytes 8 (vid_sqnum h)
  ++ vid_padding2 h ++ be_bytes 4 (vid_hdr_crc h).

Definition vid_of (l : list Z) : ubi_vid_hdr :=
  VidHdr (be_at l 0 4) (byte_at l 4) (byte_at l 5) (byte_at l 6) (byte_at l 7) (be_at l 8 4) (be_at l 12 4) (be_at l 16 4)
    (be_at l 20 4) (be_at l 24 4) (be_at l 28 4) (be_at l 32 4) (sub l 36 4) (be_at l 40 8) (sub l 48 12) (be_at l 60 4).

(** [ubi_zalloc_vid_hdr] *)
Definition zero_vid : ubi_vid_hdr :=
  VidHdr 0 0 0 0 0 0 0 0 0 0 0 0 (replicate 4 0) 0 (replicate 12 0) 0.

(** The fields [ubi_io_write_vid_hdr] fills in. *)
Definition seal_vid (h : ubi_vid_hdr) : ubi_vid_hdr :=
  let h := VidHdr UBI_VID_HDR_MAGIC UBI_VERSION (vid_vol_type h) (vid_copy_flag h) (vid_compat h) (vid_vol_id h)
             (vid_lnum h) (vid_leb_ver h) (vid_data_size h) (vid_used_ebs h) (vid_data_pad h) (vid_data_crc h)
             (vid_padding1 h) (vid_sqnum h) (vid_padding2 h) (vid_hdr_crc h) in
  VidHdr (vid_magic h) (vid_version h) (vid_vol_type h) (vid_copy_flag h) (vid_compat h) (vid_vol_id h)
    (vid_lnum h) (vid_leb_ver h) (vid_data_size h) (vid_used_ebs h) (vid_data_pad h) (vid_data_crc h)
    (vid_padding1 h) (vid_sqnum h) (vid_padding2 h) (crc32 UBI_CRC32_INIT (take 60 (vid_bytes h))).

(** ... and [ubi_io_write_ec_hdr]. *)
Definition seal_ec (g : ubi_geometry) (h : ubi_ec_hdr) : ubi_ec_hdr :=
  let h := EcHdr UBI_EC_HDR_MAGIC UBI_VERSION (ec_padding1 h) (ec_ec h) (vid_hdr_offset g) (leb_start g) (ec_padding2 h)
             (ec_hdr_crc h) in
  EcHdr (ec_magic h) (ec_version h) (ec_padding1 h) (ec_ec h) (ec_vid_hdr_offset h) (ec_data_offset h) (ec_padding2 h)
    (crc32 UBI_CRC32_INIT (take 60 (ec_bytes h))).

(** [size] bytes of [patt]. *)
Definition check_pattern (buf : list Z) (patt : Z) : bool := forallb (fun b => b =? patt) buf.

(** 0, or 1 for a header that is not all right. *)
Definition validate_ec_hdr (g : ubi_geometry) (h : ubi_ec_hdr) : Z :=
  let ec := s64 (ec_ec h) in
  if negb (ec_version h =? UBI_VERSION) then 1 else
  if negb (s32 (ec_vid_hdr_offset h) =? vid_hdr_offset g) then 1 else
  if negb (s32 (ec_data_offset h) =? leb_start g) then 1 else
  if (ec <? 0) || (UBI_MAX_ERASECOUNTER <? ec) then 1 else 0.

Definition validate_vid_hdr (g : ubi_geometry) (h : ubi_vid_hdr) : Z :=
  let vol_id := s32 (vid_vol_id h) in
  let lnum := s32 (vid_lnum h) in
  let compat := vid_compat h in
  let data_size := s32 (vid_data_size h) in
  let used_ebs := s32 (vid_used_ebs h) in
  let data_pad := s32 (vid_data_pad h) in
  let usable := s32 (leb_size g - data_pad) in
  if negb (vid_copy_flag h =? 0) && negb (vid_copy_flag h =? 1) then 1 else
  if (vol_id <? 0) || (lnum <? 0) || (data_size <? 0) || (used_ebs <? 0) || (data_pad <? 0) then 1 else
  if (UBI_MAX_VOLUMES <=? vol_id) && (vol_id <? UBI_INTERNAL_VOL_START) then 1 else
  if (vol_id <? UBI_INTERNAL_VOL_START) && negb (compat =? 0) then 1 else
  if (UBI_INTERNAL_VOL_START <=? vol_id) && negb (compat =? UBI_COMPAT_DELETE) && negb (compat =? UBI_COMPAT_RO)
     && negb (compat =? UBI_COMPAT_PRESERVE) && negb (compat =? UBI_COMPAT_REJECT) then 1 else
  if negb (vid_vol_type h =? UBI_VID_DYNAMIC) && negb (vid_vol_type h =? UBI_VID_STATIC) then 1 else
  if Z.quot (leb_size g) 2 <=? data_pad then 1 else
  if vid_vol_type h =? UBI_VID_STATIC then
    if used_ebs =? 0 then 1 else
    if data_size =? 0 then 1 else
    if lnum <? used_ebs - 1 then (if negb (data_size =? usable) then 1 else 0)
    else if lnum =? used_ebs - 1 then (if data_size =? 0 then 1 else 0)
    else 1
  else
    if vid_copy_flag h =? 0 then
      if negb (s32 (vid_data_crc h) =? 0) then 1 else
      if negb (data_size =? 0) then 1 else
      if negb (used_ebs =? 0) then 1 else 0
    else
      if data_size =? 0 then 1 else
      if negb (used_ebs =? 0) then 1 else 0.

(** ** Reading, writing, erasing *)

Section Io.
Context {M : Type} `{!Mtd M} (g : ubi_geometry).

Definition peb_addr (pnum offset : Z) : Z := pnum * peb_size g + offset.

(** The label [retry]; [n] attempts are left. *)
Fixpoint read_retry (n : nat) (m : M) (addr len : Z) : Z * list Z * M :=
  let '(err, read, buf, m) := mtd_read m addr len in
  if err =? 0 then (0, buf, m) else
  if err =? - EUCLEAN then (UBI_IO_BITFLIPS, buf, m) else
  match n with
  | O => (err, buf, m)
  | S n => if negb (read =? len) then read_retry n m addr len else (err, buf, m)
  end.

Definition ubi_io_read (m : M) (pnum offset len : Z) : Z * list Z * M :=
  read_retry UBI_IO_RETRIES m (peb_addr pnum offset) len.

Definition ubi_io_write (ro : bool) (m : M) (buf : list Z) (pnum offset : Z) : Z * M :=
  if ro then (- EROFS, m) else mtd_write m (peb_addr pnum offset) buf.

(** [ubi_io_read_data], [ubi_io_write_data] of ubi.h. *)
Definition ubi_io_read_data (m : M) (pnum offset len : Z) : Z * list Z * M :=
  ubi_io_read m pnum (offset + leb_start g) len.
Definition ubi_io_write_data (ro : bool) (m : M) (buf : list Z) (pnum offset : Z) : Z * M :=
  ubi_io_write ro m buf pnum (offset + leb_start g).

Fixpoint erase_retry (n : nat) (m : M) (pnum : Z) : Z * M :=
  let '(err, failed, m) := mtd_erase m (peb_addr pnum 0) (peb_size g) in
  if negb (err =? 0) then match n with O => (err, m) | S n => erase_retry n m pnum end else
  if failed : bool then match n with O => (- EIO, m) | S n => erase_retry n m pnum end else
  (0, m).

Definition do_sync_erase (m : M) (pnum : Z) : Z * M := erase_retry UBI_IO_RETRIES m pnum.

Definition patterns : list Z := [0xa5; 0x5a; 0x0].

(** One pattern: 0, or the code that ends the test. *)
Definition torture_pattern (ro : bool) (m : M) (pnum patt : Z) : Z * M :=
  let '(err, m) := do_sync_erase m pnum in
  if negb (err =? 0) then (err, m) else
  let '(err, buf, m) := ubi_io_read m pnum 0 (peb_size g) in
  if negb (err =? 0) then (err, m) else
  if negb (check_pattern buf 0xff) then (- EIO, m) else
  let '(err, m) := ubi_io_write ro m (replicate (Z.to_nat (peb_size g)) patt) pnum 0 in
  if negb (err =? 0) then (err, m) else
  let '(err, buf, m) := ubi_io_read m pnum 0 (peb_size g) in
  if negb (err =? 0) then (err, m) else
  if negb (check_pattern buf patt) then (- EIO, m) else (0, m).

Fixpoint torture_loop (patts : list Z) (ro : bool) (m : M) (pnum : Z) : Z * M :=
  match patts with
  | [] => (Z.of_nat (length patterns), m)
  | patt :: patts =>
      let '(err, m) := torture_pattern ro m pnum patt in
      if negb (err =? 0) then (err, m) else torture_loop patts ro m pnum
  end.

Definition torture_peb (ro : bool) (m : M) (pnum : Z) : Z * M :=
  let '(err, m) := torture_loop patterns ro m pnum in
  if (err =? UBI_IO_BITFLIPS) || (err =? - EBADMSG) then (- EIO, m) else (err, m).

(** The number of times the block was erased, or an error. *)
Definition ubi_io_sync_erase (ro : bool) (m : M) (pnum : Z) (torture : bool) : Z * M :=
  if ro then (- EROFS, m) else
  let '(ret, m) := if torture then torture_peb ro m pnum else (0, m) in
  if ret <? 0 then (ret, m) else
  let '(err, m) := do_sync_erase m pnum in
  if negb (err =? 0) then (err, m) else (ret + 1, m).

Definition ubi_io_is_bad (m : M) (pnum : Z) : Z * M :=
  if bad_allowed g then mtd_block_isbad m (peb_addr pnum 0) else (0, m).

Definition ubi_io_mark_bad (ro : bool) (m : M) (pnum : Z) : Z * M :=
  if ro then (- EROFS, m) else
  if negb (bad_allowed g) then (0, m) else mtd_block_markbad m (peb_addr pnum 0).

(** What the code and the bytes of a header, with what stands for an empty
    block, amount to. *)
Definition judge_hdr (err : Z) (raw : list Z) (magic magic_ok crc : Z) (invalid : Z) (empty bad : Z) : Z :=
  if negb (magic =? magic_ok) then
    if negb (err =? - EBADMSG) && check_pattern raw 0xff then empty else bad
  else if negb (crc =? crc32 UBI_CRC32_INIT (take 60 raw)) then bad
  else if negb (invalid =? 0) then - EINVAL
  else if negb (err =? 0) then UBI_IO_BITFLIPS else 0.

Definition ubi_io_read_ec_hdr (m : M) (pnum : Z) : Z * ubi_ec_hdr * M :=
  let '(err, raw, m) := ubi_io_read m pnum 0 UBI_EC_HDR_SIZE in
  let h := ec_of raw in
  if negb (err =? 0) && negb (err =? UBI_IO_BITFLIPS) && negb (err =? - EBADMSG) then (err, h, m) else
  (judge_hdr err raw (ec_magic h) UBI_EC_HDR_MAGIC (ec_hdr_crc h) (validate_ec_hdr g h) UBI_IO_PEB_EMPTY UBI_IO_BAD_EC_HDR,
   h, m).

(** A buffer of [size] bytes, zero but for [bytes] at [shift]. *)
Definition around (size shift : Z) (data : list Z) : list Z :=
  replicate (Z.to_nat shift) 0 ++ data ++ replicate (Z.to_nat (size - shift - Z.of_nat (length data))) 0.

Definition ubi_io_write_ec_hdr (ro : bool) (m : M) (pnum : Z) (h : ubi_ec_hdr) : Z * M :=
  ubi_io_write ro m (around (ec_hdr_alsize g) 0 (ec_bytes (seal_ec g h))) pnum 0.

(** The header lies in a buffer of [vid_hdr_alsize] bytes, [vid_hdr_shift] from
    its start; the rest of the buffer is kept beside it. *)
Record vid_buf := VidBuf { vb_front : list Z; vb_hdr : ubi_vid_hdr; vb_back : list Z }.

Definition set_hdr (h : ubi_vid_hdr) (b : vid_buf) : vid_buf := VidBuf (vb_front b) h (vb_back b).

Definition vid_buf_bytes (b : vid_buf) : list Z := vb_front b ++ vid_bytes (vb_hdr b) ++ vb_back b.

Definition vid_buf_of (raw : list Z) : vid_buf :=
  let n := Z.to_nat (vid_hdr_shift g) in
  VidBuf (take n raw) (vid_of (sub raw n 64)) (drop (n + 64) raw).

Definition ubi_zalloc_vid_hdr : vid_buf :=
  VidBuf (replicate (Z.to_nat (vid_hdr_shift g)) 0) zero_vid
    (replicate (Z.to_nat (vid_hdr_alsize g - vid_hdr_shift g - 64)) 0).

Definition ubi_io_read_vid_hdr (m : M) (pnum : Z) : Z * vid_buf * M :=
  let '(err, raw, m) := ubi_io_read m pnum (vid_hdr_aloffset g) (vid_hdr_alsize g) in
  let b := vid_buf_of raw in
  let h := vb_hdr b in
  if negb (err =? 0) && negb (err =? UBI_IO_BITFLIPS) && negb (err =? - EBADMSG) then (err, b, m) else
  (judge_hdr err (sub raw (Z.to_nat (vid_hdr_shift g)) 64) (vid_magic h) UBI_VID_HDR_MAGIC (vid_hdr_crc h)
     (validate_vid_hdr g h) UBI_IO_PEB_FREE UBI_IO_BAD_VID_HDR, b, m).

(** Also the header as the caller finds it afterwards. *)
Definition ubi_io_write_vid_hdr (ro : bool) (m : M) (pnum : Z) (b : vid_buf) : Z * vid_buf * M :=
  let b := set_hdr (seal_vid (vb_hdr b)) b in
  let '(err, m) := ubi_io_write ro m (vid_buf_bytes b) pnum (vid_hdr_aloffset g) in
  (err, b, m).

End Io.

(** ** What the chip does *)

(** Only 0xff, as after erasing. *)
Abbreviation blank l := (Forall (fun b => b = 0xff) l).

(** [l] with [data] at [off]. *)
Definition overwrite (l : list Z) (off : nat) (data : list Z) : list Z :=
  take off l ++ data ++ drop (off + length data) l.

Definition transient (err : Z) : Prop := err = - EINTR \/ err = - ENOMEM \/ err = - EAGAIN \/ err = - EBUSY.

(** The layout of a block: erase counter header, identifier header, data. *)
Record wf_geometry (g : ubi_geometry) : Prop := {
  wf_min_io : exists k, 0 <= k /\ min_io_size g = 2 ^ k;
  wf_ec : UBI_EC_HDR_SIZE <= ec_hdr_alsize g <= vid_hdr_aloffset g;
  wf_shift : 0 <= vid_hdr_shift g /\ vid_hdr_shift g + UBI_VID_HDR_SIZE <= vid_hdr_alsize g;
  wf_vid : vid_hdr_offset g = vid_hdr_aloffset g + vid_hdr_shift g;
  wf_start : vid_hdr_aloffset g + vid_hdr_alsize g <= leb_start g;
  wf_leb : leb_size g = peb_size g - leb_start g /\ 0 < leb_size g /\ peb_size g < 2 ^ 31;
  wf_leb_io : (min_io_size g | leb_size g);
}.

(** Errors are negative codes. *)
Class MtdCodes (M : Type) `{!Mtd M} := {
  mtd_read_code m a len : (mtd_read m a len).1.1.1 <= 0;
  mtd_write_code m a data : (mtd_write m a data).1 <= 0;
  mtd_erase_code m a len : (mtd_erase m a len).1.1 <= 0;
  mtd_markbad_code m a : (mtd_block_markbad m a).1 <= 0;
}.

(** The promises of the driver.  [peb] is what a block holds.  A read that
    reports success, or corrected bit flips, gave what is there; flips are
    corrected ([-EBADMSG] is not reported) and happen only [flips] times more.
    A write that fails may leave anything in its range, but nowhere else; one
    that succeeds on an erased range stores the data.  A failed erasure may
    leave anything in its block.  No code is one for which the caller should
    just try again. *)
Class MtdOk (M : Type) `{!Mtd M} (g : ubi_geometry) := {
  #[global] mtd_codes :: MtdCodes M;
  peb : M -> Z -> list Z;
  flips : M -> Z;
  flips_nonneg m : 0 <= flips m;
  peb_length m p : 0 <= p < peb_count g -> Z.of_nat (length (peb m p)) = peb_size g;
  peb_bytes m p : bytes (peb m p);
  mtd_read_any m a len q : peb (mtd_read m a len).2 q = peb m q;
  mtd_read_ok m p off len err n buf m' :
    0 <= p < peb_count g -> 0 <= off -> 0 <= len -> off + len <= peb_size g ->
    mtd_read m (peb_addr g p off) len = (err, n, buf, m') ->
    err <> - EBADMSG /\ ~ transient err
    /\ (err = 0 \/ err = - EUCLEAN -> buf = sub (peb m p) (Z.to_nat off) (Z.to_nat len))
    /\ flips m' <= flips m /\ (err = - EUCLEAN -> flips m' < flips m);
  mtd_write_ok m p off data err m' :
    0 <= p < peb_count g -> 0 <= off -> data <> [] -> off + Z.of_nat (length data) <= peb_size g ->
    mtd_write m (peb_addr g p off) data = (err, m') ->
    err <> - EBADMSG /\ ~ transient err /\ flips m' <= flips m
    /\ (forall q, 0 <= q < peb_count g -> q <> p -> peb m' q = peb m q)
    /\ (exists junk, length junk = length data /\ peb m' p = overwrite (peb m p) (Z.to_nat off) junk)
    /\ (err = 0 -> bytes data -> blank (sub (peb m p) (Z.to_nat off) (length data)) ->
        peb m' p = overwrite (peb m p) (Z.to_nat off) data);
  mtd_erase_ok m p err failed m' :
    0 <= p < peb_count g -> mtd_erase m (peb_addr g p 0) (peb_size g) = (err, failed, m') ->
    err <> - EBADMSG /\ ~ transient err /\ flips m' <= flips m
    /\ (forall q, 0 <= q < peb_count g -> q <> p -> peb m' q = peb m q)
    /\ (err = 0 -> failed = false -> blank (peb m' p));
  mtd_markbad_ok m p err m' :
    0 <= p < peb_count g -> mtd_block_markbad m (peb_addr g p 0) = (err, m') ->
    flips m' <= flips m /\ (forall q, 0 <= q < peb_count g -> q <> p -> peb m' q = peb m q);
}.

(** ** Lists *)

Lemma length_sub l off len : (off + len <= length l)%nat -> length (sub l off len) = len.
Proof. intros H. unfold sub. rewrite length_take, length_drop. lia. Qed.

Lemma length_overwrite l off data : (off + length data <= length l)%nat -> length (overwrite l off data) = length l.
Proof. intros H. unfold overwrite. rewrite !length_app, length_take, length_drop. lia. Qed.

Lemma drop_overwrite l off data k :
  (off + length data <= k)%nat -> (off <= length l)%nat -> drop k (overwrite l off data) = drop k l.
Proof.
  intros Hk Hl. unfold overwrite. rewrite drop_app, length_take, Nat.min_l by lia. rewrite (drop_ge (take _ _)) by (rewrite length_take; lia).
  cbn [app]. rewrite drop_app_ge by lia. rewrite drop_drop. f_equal. lia.
Qed.

Lemma sub_overwrite l off data : (off <= length l)%nat -> sub (overwrite l off data) off (length data) = data.
Proof.
  intros Hl. unfold sub, overwrite. rewrite drop_app_length' by (rewrite length_take; lia). by rewrite take_app_length.
Qed.

Lemma sub_overwrite_other l off data k n :
  (off <= length l)%nat -> (k + n <= off \/ off + length data <= k)%nat -> sub (overwrite l off data) k n = sub l k n.
Proof.
  intros Hl [H|H]; unfold sub.
  - rewrite !take_drop_commute. f_equal. unfold overwrite. rewrite take_app_le by (rewrite length_take; lia).
    rewrite take_take. f_equal. lia.
  - by rewrite drop_overwrite.
Qed.

Lemma blank_sub l k off n : blank (drop k l) -> (k <= off)%nat -> blank (sub l off n).
Proof.
  intros H Hk. unfold sub. apply Forall_take. replace off with (k + (off - k))%nat by lia. rewrite <- drop_drop. by apply Forall_drop.
Qed.

Lemma blank_drop l k j : blank (drop k l) -> (k <= j)%nat -> blank (drop j l).
Proof. intros H Hk. replace j with (k + (j - k))%nat by lia. rewrite <- drop_drop. by apply Forall_drop. Qed.

Lemma blank_eq l l' : blank l -> blank l' -> length l = length l' -> l = l'.
Proof.
  revert l'. induction l as [|x l IH]; intros [|y l'] H H' Hlen; try done.
  apply Forall_cons in H as [-> H]. apply Forall_cons in H' as [-> H']. f_equal. apply IH; [done..|by injection Hlen].
Qed.

(** ** The headers as bytes *)

Lemma bytes_sub l off n : bytes l -> bytes (sub l off n).
Proof. intros H. by apply Forall_take, Forall_drop. Qed.

(** A header whose fields have their widths. *)
Record vid_ok (h : ubi_vid_hdr) : Prop := {
  vid_bytes_ok : byte (vid_version h) /\ byte (vid_vol_type h) /\ byte (vid_copy_flag h) /\ byte (vid_compat h);
  vid_words_ok : in_word 32 (vid_magic h) /\ in_word 32 (vid_vol_id h) /\ in_word 32 (vid_lnum h)
    /\ in_word 32 (vid_leb_ver h) /\ in_word 32 (vid_data_size h) /\ in_word 32 (vid_used_ebs h)
    /\ in_word 32 (vid_data_pad h) /\ in_word 32 (vid_data_crc h) /\ in_word 32 (vid_hdr_crc h);
  vid_sqnum_ok : in_word 64 (vid_sqnum h);
  vid_padding_ok : length (vid_padding1 h) = 4%nat /\ length (vid_padding2 h) = 12%nat
    /\ bytes (vid_padding1 h) /\ bytes (vid_padding2 h);
}.

Lemma be_combine_be n x : in_word (8 * Z.of_nat n) x -> be_combine (be_bytes n x) = x.
Proof. intros H. rewrite be_combine_bytes. by apply wrap_small. Qed.

Lemma length_vid_bytes h : length (vid_padding1 h) = 4%nat -> length (vid_padding2 h) = 12%nat -> length (vid_bytes h) = 64%nat.
Proof. intros H1 H2. unfold vid_bytes. repeat (rewrite ?length_app, ?length_be_bytes; cbn [length]). lia. Qed.

Lemma vid_of_bytes h : vid_ok h -> vid_of (vid_bytes h) = h.
Proof.
  intros [Hb Hw Hs (Hp1 & Hp2 & _ & _)]. destruct h as [mg ve vt cf co vi ln lv ds ue dp dc p1 sq p2 hc]. cbn in *.
  do 5 (destruct p1 as [|? p1]; try done). do 13 (destruct p2 as [|? p2]; try done).
  unfold vid_of. f_equal; try done; (etransitivity; [|first [apply (be_combine_be 4); cbn; tauto|by apply (be_combine_be 8)]]; done).
Qed.

Lemma bytes_vid_bytes h : vid_ok h -> bytes (vid_bytes h).
Proof.
  intros [(? & ? & ? & ?) _ _ (_ & _ & ? & ?)]. unfold vid_bytes. rewrite !Forall_app.
  split_and!; try apply be_bytes_bytes; try done. by rewrite !Forall_cons.
Qed.

Lemma vid_of_ok l : bytes l -> length l = 64%nat -> vid_ok (vid_of l).
Proof.
  intros Hb Hl.
  assert (Hbyte : forall i, (i < 64)%nat -> byte (byte_at l i)).
  { intros i Hi. unfold byte_at. destruct (lookup_lt_is_Some_2 l i ltac:(lia)) as [x Hx].
    rewrite (nth_lookup_Some _ _ _ _ Hx). by apply (Forall_lookup_1 _ _ _ _ Hb Hx). }
  assert (Hsub : forall i n, bytes (sub l i n)) by (intros; unfold sub; by apply Forall_take, Forall_drop).
  assert (Hbe : forall i n, (i + n <= 64)%nat -> in_word (8 * Z.of_nat n) (be_at l i n)).
  { intros i n Hi. unfold be_at. rewrite <- (length_sub l i n) at 1 by lia. by apply be_combine_word. }
  split; cbn; split_and!; try (apply Hbyte; lia); try (apply (Hbe _ 4%nat); lia); try (apply (Hbe _ 8%nat); lia);
    try apply Hsub; apply length_sub; lia.
Qed.

Lemma crc32_word p : bytes p -> in_word 32 (crc32 UBI_CRC32_INIT p).
Proof.
  intros H. unfold crc32. assert (Hi : in_word 32 UBI_CRC32_INIT) by done.
  rewrite Crc32.crc32_no_comp_spec by done. by apply Crc32.crc_spec_word.
Qed.

(** A header that was filled in for writing passes the checks of its magic
    number and checksum. *)
Lemma seal_vid_ok h : vid_ok h -> vid_ok (seal_vid h).
Proof.
  intros [Hb Hw Hs Hp]. assert (Hm : in_word 32 UBI_VID_HDR_MAGIC /\ byte UBI_VERSION) by done.
  split; [destruct Hb, Hm; tauto| |exact Hs|exact Hp]. cbn [seal_vid vid_magic vid_version vid_vol_type vid_copy_flag
    vid_compat vid_vol_id vid_lnum vid_leb_ver vid_data_size vid_used_ebs vid_data_pad vid_data_crc vid_padding1 vid_sqnum
    vid_padding2 vid_hdr_crc].
  destruct Hw, Hm. split_and!; try tauto. apply crc32_word, Forall_take, bytes_vid_bytes.
  split; [destruct Hb; cbn; tauto|cbn; tauto|exact Hs|exact Hp].
Qed.

Lemma seal_vid_crc h : vid_ok h -> crc32 UBI_CRC32_INIT (take 60 (vid_bytes (seal_vid h))) = vid_hdr_crc (seal_vid h).
Proof.
  intros [_ _ _ (Hp1 & Hp2 & _)]. cbn. do 2 f_equal. unfold vid_bytes. cbn [vid_magic vid_version vid_vol_type vid_copy_flag
    vid_compat vid_vol_id vid_lnum vid_leb_ver vid_data_size vid_used_ebs vid_data_pad vid_data_crc vid_padding1 vid_sqnum
    vid_padding2 vid_hdr_crc]. destruct h as [mg ve vt cf co vi ln lv ds ue dp dc p1 sq p2 hc]. cbn in Hp1, Hp2.
  do 5 (destruct p1 as [|? p1]; try done). by do 13 (destruct p2 as [|? p2]; try done).
Qed.

(** ** The operations on a chip that keeps its promises *)

Section IoOk.
Context {M : Type} `{!Mtd M} (g : ubi_geometry) `{!MtdOk M g} (Hg : wf_geometry g).

(** An error that is neither a bad checksum nor one to try again. *)
Definition hard (err : Z) : Prop := err < 0 /\ err <> - EBADMSG /\ ~ transient err.

(** Nothing but block [p] may have changed. *)
Definition only (p : Z) (m m' : M) : Prop :=
  flips m' <= flips m /\ forall q, 0 <= q < peb_count g -> q <> p -> peb m' q = peb m q.

#[global] Instance only_preorder p : PreOrder (only p).
Proof. split; [by split|]. intros m1 m2 m3 [Hf1 H1] [Hf2 H2]. split; [lia|]. intros q Hq Hp. by rewrite H2, H1. Qed.

(** What a read amounts to. *)
Definition read_as (m m' : M) (err : Z) (buf l : list Z) : Prop :=
  (forall q, peb m' q = peb m q) /\ flips m' <= flips m
  /\ (buf = l /\ (err = 0 \/ err = UBI_IO_BITFLIPS /\ flips m' < flips m) \/ hard err).

Lemma hard_EIO : hard (- EIO).
Proof. by repeat split; unfold transient; vm_compute; intuition. Qed.
Lemma hard_EROFS : hard (- EROFS).
Proof. by repeat split; unfold transient; vm_compute; intuition. Qed.
Lemma hard_EINVAL : hard (- EINVAL).
Proof. by repeat split; unfold transient; vm_compute; intuition. Qed.

Lemma read_retry_ok n : forall m p off len err buf m',
  0 <= p < peb_count g -> 0 <= off -> 0 <= len -> off + len <= peb_size g ->
  read_retry n m (peb_addr g p off) len = (err, buf, m') ->
  read_as m m' err buf (sub (peb m p) (Z.to_nat off) (Z.to_nat len)).
Proof.
  induction n as [|n IH]; intros m p off len err buf m' Hp Ho Hl Hle H; cbn [read_retry] in H;
    pose proof (mtd_read_code m (peb_addr g p off) len) as Hc;
    destruct (mtd_read m (peb_addr g p off) len) as [[[e k] b] m1] eqn:E; cbn [fst] in Hc;
    pose proof (fun q => mtd_read_any m (peb_addr g p off) len q) as Hs; rewrite E in Hs; cbn [snd] in Hs;
    destruct (mtd_read_ok m p off len e k b m1 Hp Ho Hl Hle E) as (Hb & Ht & Hd & Hf & Hf');
    destruct (Z.eqb_spec e 0) as [->|He0];
    try (injection H as <- <- <-; split_and!; [done|lia|left; split; [by apply Hd; left|by left]]);
    destruct (Z.eqb_spec e (- EUCLEAN)) as [->|Hne];
    try (injection H as <- <- <-; split_and!; [done|lia|left; split; [by apply Hd; right|right; split; [done|by apply Hf']]]).
  - injection H as <- <- <-. split_and!; [done|lia|right; split_and!; [lia|done|done]].
  - destruct (k =? len); cbn [negb] in H.
    + injection H as <- <- <-. split_and!; [done|lia|right; split_and!; [lia|done|done]].
    + destruct (IH m1 p off len err buf m' Hp Ho Hl Hle H) as (Hs2 & Hf2 & Hcase). rewrite Hs in Hcase.
      split_and!; [intros q; by rewrite Hs2, Hs|lia|]. destruct Hcase as [[? [?|[? ?]]]|?]; [left; by auto|left|by right].
      split; [done|]. right. split; [done|lia].
Qed.

(** Reading never changes the flash. *)
Lemma ubi_io_read_any m p off len q : peb (ubi_io_read g m p off len).2 q = peb m q.
Proof.
  unfold ubi_io_read. generalize UBI_IO_RETRIES. intros n. revert m. induction n as [|n IH]; intros m; cbn [read_retry];
    pose proof (mtd_read_any m (peb_addr g p off) len q) as Hs; destruct (mtd_read _ _ _) as [[[e k] b] m1]; cbn [snd] in Hs;
    (destruct (e =? 0); [done|]); (destruct (e =? - EUCLEAN); [done|]); [done|].
  destruct (negb (k =? len)); [by rewrite IH|done].
Qed.

Lemma ubi_io_read_ok m p off len err buf m' :
  0 <= p < peb_count g -> 0 <= off -> 0 <= len -> off + len <= peb_size g ->
  ubi_io_read g m p off len = (err, buf, m') -> read_as m m' err buf (sub (peb m p) (Z.to_nat off) (Z.to_nat len)).
Proof. apply read_retry_ok. Qed.

Lemma ubi_io_write_ok ro m p off data err m' :
  0 <= p < peb_count g -> 0 <= off -> data <> [] -> off + Z.of_nat (length data) <= peb_size g ->
  ubi_io_write g ro m data p off = (err, m') ->
  only p m m' /\ (ro = true -> m' = m)
  /\ (exists junk, length junk = length data /\ (ro = false -> peb m' p = overwrite (peb m p) (Z.to_nat off) junk))
  /\ (hard err
      \/ err = 0 /\ ro = false
         /\ (bytes data -> blank (sub (peb m p) (Z.to_nat off) (length data)) -> peb m' p = overwrite (peb m p) (Z.to_nat off) data)).
Proof.
  intros Hp Ho Hne Hle H. unfold ubi_io_write in H. destruct ro.
  { injection H as <- <-. split_and!; [done|done|by exists data|left; apply hard_EROFS]. }
  pose proof (mtd_write_code m (peb_addr g p off) data) as Hc. rewrite H in Hc. cbn [fst] in Hc.
  destruct (mtd_write_ok m p off data err m' Hp Ho Hne Hle H) as (Hb & Ht & Hf & Hs & (junk & Hj1 & Hj2) & Hok).
  split_and!; [by split|done|by exists junk|]. destruct (decide (err = 0)) as [->|]; [right; by auto|left].
  split_and!; [lia|done|done].
Qed.

Lemma erase_retry_ok n : forall m p err m',
  0 <= p < peb_count g -> erase_retry g n m p = (err, m') ->
  only p m m' /\ (hard err \/ err = 0 /\ blank (peb m' p)).
Proof.
  induction n as [|n IH]; intros m p err m' Hp H; cbn [erase_retry] in H;
    pose proof (mtd_erase_code m (peb_addr g p 0) (peb_size g)) as Hc;
    destruct (mtd_erase m (peb_addr g p 0) (peb_size g)) as [[e failed] m1] eqn:E; cbn [fst] in Hc;
    destruct (mtd_erase_ok m p e failed m1 Hp E) as (Hb & Ht & Hf & Hs & Hok);
    destruct (Z.eqb_spec e 0) as [->|He0]; cbn [negb] in H.
  - destruct failed; injection H as <- <-; (split; [by split|]); [left; apply hard_EIO|right; by auto].
  - injection H as <- <-. split; [by split|left]. split_and!; [lia|done|done].
  - destruct failed.
    + destruct (IH m1 p err m' Hp H) as [Ho Hr]. split; [|done]. etransitivity; [|exact Ho]. by split.
    + injection H as <- <-. split; [by split|right; by auto].
  - destruct (IH m1 p err m' Hp H) as [Ho Hr]. split; [|done]. etransitivity; [|exact Ho]. by split.
Qed.

Lemma read_as_only m m' err buf l p : read_as m m' err buf l -> only p m m'.
Proof. intros (Hs & Hf & _). split; [done|]. intros q _ _. apply Hs. Qed.

Lemma torture_loop_ok patts : forall ro m p err m',
  0 <= p < peb_count g -> 0 < peb_size g -> torture_loop g patts ro m p = (err, m') ->
  only p m m' /\ (err = 3 \/ err = UBI_IO_BITFLIPS \/ hard err).
Proof.
  induction patts as [|patt patts IH]; intros ro m p err m' Hp Hs H; cbn [torture_loop] in H.
  { injection H as <- <-. split; [done|by left]. }
  destruct (torture_pattern g ro m p patt) as [e m1] eqn:E.
  assert (Hone : only p m m1 /\ (e = 0 \/ e = UBI_IO_BITFLIPS \/ hard e)).
  { unfold torture_pattern in E. destruct (do_sync_erase g m p) as [e1 m2] eqn:E1.
    apply erase_retry_ok in E1 as [H1 C1]; [|done].
    destruct (Z.eqb_spec e1 0) as [->|]; cbn [negb] in E;
      [|injection E as <- <-; split; [done|]; destruct C1 as [?|[? ?]]; [by auto|done]].
    destruct (ubi_io_read g m2 p 0 (peb_size g)) as [[e2 b2] m3] eqn:E2.
    apply ubi_io_read_ok in E2; [|done|lia..]. pose proof (read_as_only _ _ _ _ _ p E2) as H2.
    destruct E2 as (_ & _ & C2).
    assert (H13 : only p m m3) by (by transitivity m2).
    destruct (Z.eqb_spec e2 0) as [->|]; cbn [negb] in E;
      [|injection E as <- <-; split; [done|]; destruct C2 as [[_ [?|[? _]]]|?]; by auto].
    destruct (check_pattern b2 0xff); cbn [negb] in E; [|injection E as <- <-; split; [done|]; right; right; apply hard_EIO].
    destruct (ubi_io_write g ro m3 (replicate (Z.to_nat (peb_size g)) patt) p 0) as [e3 m4] eqn:E3.
    apply ubi_io_write_ok in E3 as (H3 & _ & _ & C3);
      [|done|lia|destruct (Z.to_nat (peb_size g)) eqn:En; [lia|done]|rewrite length_replicate; lia].
    assert (H14 : only p m m4) by (by transitivity m3).
    destruct (Z.eqb_spec e3 0) as [->|]; cbn [negb] in E;
      [|injection E as <- <-; split; [done|]; destruct C3 as [?|[? _]]; by auto].
    destruct (ubi_io_read g m4 p 0 (peb_size g)) as [[e4 b4] m5] eqn:E4.
    apply ubi_io_read_ok in E4; [|done|lia..]. pose proof (read_as_only _ _ _ _ _ p E4) as H4.
    destruct E4 as (_ & _ & C4). assert (H15 : only p m m5) by (by transitivity m4).
    destruct (Z.eqb_spec e4 0) as [->|]; cbn [negb] in E;
      [|injection E as <- <-; split; [done|]; destruct C4 as [[_ [?|[? _]]]|?]; by auto].
    destruct (check_pattern b4 patt); cbn [negb] in E; injection E as <- <-; (split; [done|]); [by left|].
    right; right; apply hard_EIO. }
  destruct Hone as [H1 C]. destruct (Z.eqb_spec e 0) as [->|]; cbn [negb] in H.
  - destruct (IH ro m1 p err m' Hp Hs H) as [H2 C2]. split; [by transitivity m1|done].
  - injection H as <- <-. split; [done|]. by destruct C as [?|C]; [|right].
Qed.

Lemma ubi_io_sync_erase_ok ro m p torture ret m' :
  0 <= p < peb_count g -> 0 < peb_size g -> ubi_io_sync_erase g ro m p torture = (ret, m') ->
  only p m m' /\ (ro = true -> m' = m)
  /\ (hard ret \/ ret = (if torture then 4 else 1) /\ ro = false /\ blank (peb m' p)).
Proof.
  intros Hp Hs H. unfold ubi_io_sync_erase in H. destruct ro.
  { injection H as <- <-. split_and!; [done|done|left; apply hard_EROFS]. }
  destruct (if torture then torture_peb g false m p else (0, m)) as [e m1] eqn:E.
  assert (Ht : only p m m1 /\ (e = (if torture then 3 else 0) \/ hard e)).
  { destruct torture; [|injection E as <- <-; split; [done|by left]]. unfold torture_peb in E.
    destruct (torture_loop _ _ _ _ _) as [e1 m2] eqn:E1. apply torture_loop_ok in E1 as [H1 C1]; [|done..].
    destruct C1 as [->|[->|C1]]; cbn in E; [injection E as <- <-; by auto|injection E as <- <-; split; [done|right; apply hard_EIO]|].
    destruct (Z.eqb_spec e1 UBI_IO_BITFLIPS) as [->|]; [by destruct C1|]. cbn [orb] in E.
    destruct (Z.eqb_spec e1 (- EBADMSG)) as [->|]; [by destruct C1 as (_ & ? & _)|]. injection E as <- <-. by auto. }
  destruct Ht as [H1 C1]. destruct (Z.ltb_spec e 0).
  { injection H as <- <-. split_and!; [done|done|left]. destruct C1 as [->|?]; [destruct torture; lia|done]. }
  destruct C1 as [->|[? _]]; [|lia]. destruct (do_sync_erase g m1 p) as [e2 m2] eqn:E2.
  apply erase_retry_ok in E2 as [H2 C2]; [|done]. assert (H12 : only p m m2) by (by transitivity m1).
  destruct (Z.eqb_spec e2 0) as [->|]; cbn [negb] in H; injection H as <- <-; (split_and!; [done|done|]).
  - right. destruct C2 as [[? _]|[_ ?]]; [lia|]. by destruct torture.
  - left. by destruct C2 as [?|[? _]].
Qed.

Lemma ubi_io_write_ec_hdr_ok ro m p h err m' :
  0 <= p < peb_count g -> length (ec_padding1 h) = 3%nat -> length (ec_padding2 h) = 36%nat ->
  ubi_io_write_ec_hdr g ro m p h = (err, m') ->
  only p m m' /\ (ro = true -> m' = m)
  /\ (hard err \/ err = 0 /\ ro = false /\ (blank (peb m p) -> blank (drop (Z.to_nat (vid_hdr_aloffset g)) (peb m' p)))).
Proof.
  intros Hp H1 H2 H. unfold ubi_io_write_ec_hdr in H. destruct (wf_ec g Hg) as [He1 He2].
  pose proof (wf_start g Hg) as Hst. pose proof (wf_shift g Hg) as Hsh. destruct (wf_leb g Hg) as (Hl1 & Hl2 & Hl3).
  unfold UBI_EC_HDR_SIZE, UBI_VID_HDR_SIZE in *.
  assert (Hlen : Z.of_nat (length (around (ec_hdr_alsize g) 0 (ec_bytes (seal_ec g h)))) = ec_hdr_alsize g).
  { unfold around. rewrite !length_app, !length_replicate.
    assert (length (ec_bytes (seal_ec g h)) = 64%nat) as ->
      by (unfold ec_bytes; repeat (rewrite ?length_app, ?length_be_bytes; cbn [length]); cbn in *; lia). lia. }
  apply ubi_io_write_ok in H as (Ho & Hr & (junk & Hj & Hw) & Hc); [|done|lia|by intros Hn; rewrite Hn in Hlen; cbn in Hlen; lia|lia].
  split_and!; [done|done|]. destruct Hc as [?|(-> & -> & _)]; [by left|right]. split_and!; [done|done|]. intros Hb.
  rewrite Hw by done. rewrite drop_overwrite by (pose proof (peb_length m p Hp); lia). by apply Forall_drop.
Qed.

(** The header in a block. *)
Definition hdr_at (l : list Z) : ubi_vid_hdr := vid_of (sub l (Z.to_nat (vid_hdr_offset g)) 64).

(** A buffer of the right size with a header of the right widths. *)
Definition buf_ok (b : vid_buf) : Prop :=
  vid_ok (vb_hdr b) /\ Z.of_nat (length (vb_front b)) = vid_hdr_shift g
  /\ Z.of_nat (length (vb_back b)) = vid_hdr_alsize g - vid_hdr_shift g - 64
  /\ bytes (vb_front b) /\ bytes (vb_back b).

Lemma length_vid_buf_bytes b : buf_ok b -> Z.of_nat (length (vid_buf_bytes b)) = vid_hdr_alsize g.
Proof.
  intros (Hh & H1 & H2 & _). unfold vid_buf_bytes. rewrite !length_app, length_vid_bytes by apply Hh. lia.
Qed.

Lemma bytes_vid_buf b : buf_ok b -> bytes (vid_buf_bytes b).
Proof. intros (Hh & _ & _ & Hf & Hb). unfold vid_buf_bytes. rewrite !Forall_app. split_and!; [done|by apply bytes_vid_bytes|done]. Qed.

Lemma zalloc_ok h : vid_ok h -> buf_ok (set_hdr h (ubi_zalloc_vid_hdr g)).
Proof.
  intros Hh. pose proof (wf_shift g Hg) as [? ?]. unfold UBI_VID_HDR_SIZE in *. split; [done|].
  cbn. rewrite !length_replicate. split_and!; [lia|lia|by apply Forall_replicate..].
Qed.

#[local] Abbreviation aloff := (Z.to_nat (vid_hdr_aloffset g)).
#[local] Abbreviation alsize := (Z.to_nat (vid_hdr_alsize g)).

Lemma vid_buf_of_hdr l : vb_hdr (vid_buf_of g (sub l aloff alsize)) = hdr_at l.
Proof.
  pose proof (wf_shift g Hg) as [? ?]. pose proof (wf_vid g Hg). destruct (wf_ec g Hg) as [? ?].
  unfold UBI_VID_HDR_SIZE, UBI_EC_HDR_SIZE in *.
  unfold vid_buf_of, hdr_at, sub. cbn [vb_hdr]. f_equal. rewrite !take_drop_commute, take_take, drop_drop. f_equal; [lia|f_equal; lia].
Qed.

Lemma vid_buf_of_ok m p :
  0 <= p < peb_count g -> buf_ok (vid_buf_of g (sub (peb m p) aloff alsize)).
Proof.
  intros Hp. pose proof (wf_shift g Hg) as [? ?]. pose proof (wf_vid g Hg). destruct (wf_ec g Hg) as [? ?].
  pose proof (wf_start g Hg). destruct (wf_leb g Hg) as (? & ? & ?). pose proof (peb_length m p Hp).
  unfold UBI_VID_HDR_SIZE, UBI_EC_HDR_SIZE in *. split.
  - rewrite vid_buf_of_hdr. apply vid_of_ok; [apply bytes_sub, peb_bytes|]. apply length_sub. lia.
  - cbn [vid_buf_of vb_front vb_back]. rewrite length_take, length_drop, length_sub by lia.
    split_and!; [lia|lia|apply Forall_take, bytes_sub, peb_bytes|apply Forall_drop, bytes_sub, peb_bytes].
Qed.

(** A block after its identifier header was written. *)
Definition has_hdr (l : list Z) (h : ubi_vid_hdr) : Prop :=
  hdr_at l = h
  /\ crc32 UBI_CRC32_INIT (take 60 (sub l (Z.to_nat (vid_hdr_offset g)) 64)) = vid_hdr_crc h
  /\ vid_magic h = UBI_VID_HDR_MAGIC.

Lemma ubi_io_write_vid_hdr_ok ro m p b err b' m' :
  0 <= p < peb_count g -> buf_ok b -> ubi_io_write_vid_hdr g ro m p b = (err, b', m') ->
  only p m m' /\ (ro = true -> m' = m) /\ b' = set_hdr (seal_vid (vb_hdr b)) b /\ buf_ok b'
  /\ (hard err
      \/ err = 0 /\ ro = false
         /\ (blank (drop aloff (peb m p)) ->
             has_hdr (peb m' p) (vb_hdr b') /\ blank (drop (Z.to_nat (leb_start g)) (peb m' p)))).
Proof.
  intros Hp Hb H. unfold ubi_io_write_vid_hdr in H. set (b1 := set_hdr (seal_vid (vb_hdr b)) b) in *.
  assert (Hb1 : buf_ok b1) by (destruct Hb as [? ?]; split; [by apply seal_vid_ok|done]).
  destruct (ubi_io_write g ro m (vid_buf_bytes b1) p (vid_hdr_aloffset g)) as [e m1] eqn:E. injection H as <- <- <-.
  pose proof (wf_shift g Hg) as [? ?]. pose proof (wf_vid g Hg). destruct (wf_ec g Hg) as [? ?].
  pose proof (wf_start g Hg). destruct (wf_leb g Hg) as (? & ? & ?). pose proof (peb_length m p Hp).
  unfold UBI_VID_HDR_SIZE, UBI_EC_HDR_SIZE in *. pose proof (length_vid_buf_bytes b1 Hb1) as Hlb.
  apply ubi_io_write_ok in E as (Ho & Hr & _ & Hc); [|done|lia|by intros Hn; rewrite Hn in Hlb; cbn in Hlb; lia|lia].
  split_and!; [done|done|done|done|].
  destruct Hc as [?|(-> & -> & Hok)]; [by left|right]. split_and!; [done|done|]. intros Hbl.
  rewrite Hok by (by eapply blank_sub || by apply bytes_vid_buf).
  assert (Hsub : sub (overwrite (peb m p) aloff (vid_buf_bytes b1)) (Z.to_nat (vid_hdr_offset g)) 64 = vid_bytes (vb_hdr b1)).
  { destruct Hb1 as (Hh & Hf & Hbk & _). pose proof (length_vid_bytes (vb_hdr b1) ltac:(apply Hh) ltac:(apply Hh)) as Hl64.
    replace (Z.to_nat (vid_hdr_offset g)) with (aloff + length (vb_front b1))%nat by lia.
    unfold sub. rewrite <- drop_drop. unfold overwrite. rewrite drop_app_length' by (rewrite length_take; lia).
    unfold vid_buf_bytes. rewrite <- !app_assoc, drop_app_length. by rewrite <- Hl64, take_app_length. }
  split.
  - unfold has_hdr, hdr_at. rewrite Hsub. split_and!; [apply vid_of_bytes, Hb1| |done].
    apply seal_vid_crc, Hb.
  - rewrite drop_overwrite by lia. eapply blank_drop; [done|lia].
Qed.

Lemma ubi_io_read_vid_hdr_ok m p err b m' :
  0 <= p < peb_count g -> ubi_io_read_vid_hdr g m p = (err, b, m') ->
  (forall q, peb m' q = peb m q) /\ flips m' <= flips m
  /\ (hard err
      \/ b = vid_buf_of g (sub (peb m p) aloff alsize)
         /\ (vid_magic (hdr_at (peb m p)) = UBI_VID_HDR_MAGIC ->
             err = 0 \/ (err = UBI_IO_BITFLIPS /\ flips m' < flips m) \/ hard err
             \/ (err = UBI_IO_BAD_VID_HDR /\ ~ has_hdr (peb m p) (hdr_at (peb m p))))).
Proof.
  intros Hp H. unfold ubi_io_read_vid_hdr in H.
  pose proof (wf_shift g Hg) as [? ?]. pose proof (wf_vid g Hg). destruct (wf_ec g Hg) as [? ?].
  pose proof (wf_start g Hg). destruct (wf_leb g Hg) as (? & ? & ?). unfold UBI_VID_HDR_SIZE, UBI_EC_HDR_SIZE in *.
  destruct (ubi_io_read g m p (vid_hdr_aloffset g) (vid_hdr_alsize g)) as [[e raw] m1] eqn:E.
  apply ubi_io_read_ok in E as (Hs & Hf & Hc); [|done|lia..].
  assert (Hm : m' = m1) by (destruct (_ && _) in H; by injection H as _ _ <-). subst m1. split_and!; [done|done|].
  destruct Hc as [[-> Hc]|Hhard].
  - right. assert (He : (negb (e =? 0) && negb (e =? UBI_IO_BITFLIPS) && negb (e =? - EBADMSG)) = false)
      by (destruct Hc as [->|[-> _]]; done). rewrite He in H. cbn zeta in H. rewrite vid_buf_of_hdr in H. apply pair_equal_spec in H as [H _].
    apply pair_equal_spec in H as [<- <-]. split; [done|].
    intros Hmg. unfold judge_hdr. rewrite Hmg, Z.eqb_refl. cbn [negb].
    assert (Hsub : sub (sub (peb m p) aloff alsize) (Z.to_nat (vid_hdr_shift g)) 64 = sub (peb m p) (Z.to_nat (vid_hdr_offset g)) 64).
    { unfold sub. rewrite !take_drop_commute, take_take, drop_drop. f_equal; [lia|f_equal; lia]. }
    rewrite Hsub. destruct (Z.eqb_spec (vid_hdr_crc (hdr_at (peb m p)))
      (crc32 UBI_CRC32_INIT (take 60 (sub (peb m p) (Z.to_nat (vid_hdr_offset g)) 64)))) as [Hcrc|Hcrc]; cbn [negb].
    + destruct (validate_vid_hdr _ _ =? 0); cbn [negb]; [|right; right; left; apply hard_EINVAL].
      destruct Hc as [->|[-> ?]]; cbn; by auto.
    + right; right; right. split; [done|]. intros (_ & Hx & _). by rewrite Hx in Hcrc.
  - destruct Hhard as (? & ? & ?). destruct (Z.eqb_spec e 0); [lia|]. destruct (Z.eqb_spec e UBI_IO_BITFLIPS) as [->|]; [done|].
    destruct (Z.eqb_spec e (- EBADMSG)); [done|]. injection H as <- <-. by left.
Qed.

End IoOk.

(** ** The layout [io_init] finds *)

Lemma is_power_of_2_spec n : 0 <= n -> is_power_of_2 n = true -> n = 2 ^ Z.log2 n.
Proof.
  intros Hn H. unfold is_power_of_2 in H. apply andb_true_iff in H as [H0 H1].
  apply negb_true_iff in H0. apply Z.eqb_neq in H0. apply Z.eqb_eq in H1.
  pose proof (Z.log2_spec n ltac:(lia)) as [Hl Hu]. pose proof (Z.log2_nonneg n).
  destruct (Z.eq_dec n (2 ^ Z.log2 n)) as [|Hne]; [done|]. exfalso.
  assert (Hbit : Z.testbit (n .& (n - 1)) (Z.log2 n) = true).
  { rewrite Z.land_spec, Z.bit_log2 by lia. assert (Z.log2 (n - 1) = Z.log2 n) as <-
      by (apply Z.log2_unique; [lia|]; rewrite Z.pow_succ_r in * by lia; lia). rewrite Z.bit_log2; [done|].
    pose proof (Z.pow_pos_nonneg 2 (Z.log2 n)). lia. }
  by rewrite H1, Z.bits_0 in Hbit.
Qed.


(** The flash of the board: blocks of 128 KiB, pages of 2 KiB. *)
Definition board_flash : mtd_info := MtdInfo 0 0x20000 0x8000000 2048 0 true true.

Definition board_geometry : ubi_geometry :=
  match io_init board_flash 0 with inl (g, _) => g | inr _ => UbiGeometry 0 0 0 0 0 0 0 0 0 0 0 false end.


(** An offset that is no multiple of the sub-page (512 bytes here) is accepted,
    and the device is writeable, although the header does not fit the buffer of
    [vid_hdr_alsize] bytes any more: reading one runs over its end. *)
Example io_init_overrun : exists g,
  io_init (MtdInfo 0 0x20000 0x8000000 2048 2 true true) 480 = inl (g, false)
  /\ vid_hdr_alsize g < vid_hdr_shift g + UBI_VID_HDR_SIZE /\ vid_hdr_aloffset g = 0.
Proof. eexists. split; [vm_compute; reflexivity|]. done. Qed.

(** ** Headers come back *)

(** C20: An identifier header that was written to an erased block is read back as
    it was written, with magic number, version and checksum filled in, unless
    the reading itself fails; it is never taken for damaged or missing. *)
Theorem vid_hdr_written_read {M} `{!Mtd M} g `{!MtdOk M g} (m m1 m2 : M) p b b1 b2 err :
  wf_geometry g -> 0 <= p < peb_count g -> buf_ok g b ->
  blank (drop (Z.to_nat (vid_hdr_aloffset g)) (peb m p)) ->
  ubi_io_write_vid_hdr g false m p b = (0, b1, m1) -> ubi_io_read_vid_hdr g m1 p = (err, b2, m2) ->
  err < 0 \/ ((err = 0 \/ err = UBI_IO_BITFLIPS) /\ vb_hdr b2 = seal_vid (vb_hdr b)).
Proof.
  intros Hg Hp Hb Hbl Hw Hr. apply (ubi_io_write_vid_hdr_ok g Hg) in Hw as (_ & _ & -> & _ & Hc); [|done..].
  destruct Hc as [[? _]|(_ & _ & Hok)]; [lia|]. destruct (Hok Hbl) as [Hh _].
  apply (ubi_io_read_vid_hdr_ok g Hg) in Hr as (_ & _ & Hc); [|done]. destruct Hc as [[? _]|[-> Hc]]; [by left|].
  destruct Hh as (He & Hx). rewrite vid_buf_of_hdr, He by done. rewrite He in Hc.
  destruct (Hc ltac:(apply Hx)) as [->|[[-> _]|[[? _]|[-> Hn]]]]; [right; by auto|right; by auto|by left|].
  destruct Hn. by split.
Qed.

(** ** A chip in memory *)

(** [worn] blocks cannot be written or erased; the first [to_flip] reads report
    corrected bit flips. *)
Record chip := Chip { cells : gmap Z (list Z); worn : gset Z; to_flip : Z }.

Section Chip.
Context (g : ubi_geometry).

#[local] Abbreviation n := (Z.to_nat (peb_size g)).

Definition chip_peb (c : chip) (p : Z) : list Z := take n (map (wrap 8) (default [] (cells c !! p)) ++ replicate n 0xff).

Definition chip_mtd : Mtd chip := {|
  mtd_read c a len :=
    let data := sub (chip_peb c (a / peb_size g)) (Z.to_nat (a mod peb_size g)) (Z.to_nat len) in
    if 0 <? to_flip c then (- EUCLEAN, len, data, Chip (cells c) (worn c) (to_flip c - 1)) else (0, len, data, c);
  mtd_write c a data :=
    let p := a / peb_size g in
    if bool_decide (p ∈ worn c) then (- EIO, c) else
    (0, Chip (<[p := overwrite (chip_peb c p) (Z.to_nat (a mod peb_size g)) data]> (cells c)) (worn c) (to_flip c));
  mtd_erase c a len :=
    let p := a / peb_size g in
    if bool_decide (p ∈ worn c) then (0, true, c) else (0, false, Chip (delete p (cells c)) (worn c) (to_flip c));
  mtd_block_isbad c a := (if bool_decide (a / peb_size g ∈ worn c) then 1 else 0, c);
  mtd_block_markbad c a := (0, c);
|}.

#[local] Existing Instance chip_mtd.

Lemma chip_codes : MtdCodes chip.
Proof.
  split; intros; cbn; try done.
  - by destruct (0 <? to_flip m).
  - by destruct (bool_decide _).
  - by destruct (bool_decide _).
Qed.

Lemma length_chip_peb c p : length (chip_peb c p) = n.
Proof. unfold chip_peb. rewrite length_take, length_app, length_replicate. lia. Qed.

Lemma bytes_chip_peb c p : bytes (chip_peb c p).
Proof.
  unfold chip_peb. apply Forall_take, Forall_app. split; [|by apply Forall_replicate].
  apply Forall_forall. intros x (y & -> & _)%list_elem_of_fmap. by apply wrap_in_word.
Qed.

Lemma map_u8 l : bytes l -> map (wrap 8) l = l.
Proof. induction 1 as [|x l Hx Hl IH]; [done|]. cbn. by rewrite IH, wrap_small. Qed.

Lemma chip_ok (Hg : 0 < peb_size g) : MtdOk chip g.
Proof.
  assert (Ha : forall p off, 0 <= off < peb_size g -> peb_addr g p off / peb_size g = p /\ peb_addr g p off mod peb_size g = off).
  { intros p off Ho. unfold peb_addr. rewrite Z.add_comm, Z.div_add, Z_mod_plus_full by lia. by rewrite Z.div_small, Z.mod_small. }
  assert (Ht : ~ transient 0 /\ ~ transient (- EUCLEAN) /\ ~ transient (- EIO)) by (unfold transient; vm_compute; intuition discriminate).
  refine {| mtd_codes := chip_codes; peb := chip_peb; flips c := Z.max 0 (to_flip c) |}; cbn.
  - lia.
  - intros m p _. rewrite length_chip_peb. lia.
  - apply bytes_chip_peb.
  - intros m a len q. by destruct (0 <? to_flip m).
  - intros m p off len err k buf m' Hp Ho Hl Hle H.
    assert (Hbuf : buf = sub (chip_peb m p) (Z.to_nat off) (Z.to_nat len)).
    { assert (buf = sub (chip_peb m (peb_addr g p off / peb_size g)) (Z.to_nat (peb_addr g p off mod peb_size g)) (Z.to_nat len))
        as -> by (destruct (0 <? to_flip m); by injection H). destruct (decide (off = peb_size g)) as [->|].
      - assert (len = 0) as -> by lia. unfold sub. by rewrite !take_0.
      - by destruct (Ha p off ltac:(lia)) as [-> ->]. }
    destruct (Z.ltb_spec 0 (to_flip m)); injection H as <- _ _ <-; cbn; split_and!; try done; try tauto; lia.
  - intros m p off data err m' Hp Ho Hne Hle H. assert (0 < length data)%nat by (by destruct data; [|cbn; lia]).
    destruct (Ha p off ltac:(lia)) as [E1 E2]. rewrite E1, E2 in H. clear E1 E2.
    pose proof (length_chip_peb m p) as Hl. case_bool_decide; injection H as <- <-.
    + split_and!; try done; try tauto. exists (sub (chip_peb m p) (Z.to_nat off) (length data)).
      split; [apply length_sub; lia|]. unfold overwrite. rewrite length_sub by lia. unfold sub.
      by rewrite <- drop_drop, !take_drop.
    + assert (Hp2 : chip_peb (Chip (<[p := overwrite (chip_peb m p) (Z.to_nat off) data]> (cells m)) (worn m) (to_flip m)) p
                    = overwrite (chip_peb m p) (Z.to_nat off) (map (wrap 8) data)).
      { unfold chip_peb at 1. cbn. rewrite lookup_insert_eq. cbn. rewrite take_app_length' by (rewrite length_map, length_overwrite; lia).
        unfold overwrite. rewrite !map_app, length_map.
        by rewrite (map_u8 (take _ _)), (map_u8 (drop _ _)) by (apply Forall_take || apply Forall_drop; apply bytes_chip_peb). }
      split_and!; try done; try tauto; [|exists (map (wrap 8) data); by rewrite length_map|intros _ Hb _; by rewrite Hp2, map_u8]. intros q _ Hq. unfold chip_peb. cbn. by rewrite lookup_insert_ne.
  - intros m p err failed m' Hp H. destruct (Ha p 0 ltac:(lia)) as [E1 E2]. rewrite E1 in H. clear E1 E2.
    case_bool_decide; injection H as <- <- <-; split_and!; try done; try tauto.
    + intros q _ Hq. unfold chip_peb. cbn. by rewrite lookup_delete_ne.
    + intros _ _. unfold chip_peb. cbn. rewrite lookup_delete_eq. cbn. by apply Forall_take, Forall_replicate.
  - intros m p err m' _ [= <- <-]. split; [done|]. intros. done.
Defined.

End Chip.

(** A small flash: eight blocks of eight pages of 64 bytes. *)
Definition small_geometry : ubi_geometry := UbiGeometry 8 512 64 64 64 64 64 64 0 128 384 true.

Lemma small_wf : wf_geometry small_geometry.
Proof. split; cbn; unfold UBI_EC_HDR_SIZE, UBI_VID_HDR_SIZE; try lia; [by exists 6|by exists 6]. Qed.

#[export] Instance small_mtd : Mtd chip := chip_mtd small_geometry.
#[export] Instance small_ok : MtdOk chip small_geometry := chip_ok small_geometry eq_refl.

Definition small_hdr : vid_buf :=
  VidBuf [] (VidHdr 0 0 UBI_VID_DYNAMIC 0 0 1 2 0 0 0 0 0 (replicate 4 0) 77 (replicate 12 0) 0) [].

Definition small_chip : chip := Chip ∅ ∅ 1.

Definition small_written : chip := (ubi_io_write_vid_hdr small_geometry false small_chip 3 small_hdr).2.

Lemma vid_hdr_written_read_witness :
  let r := ubi_io_read_vid_hdr small_geometry small_written 3 in
  r.1.1 = UBI_IO_BITFLIPS
  /\ (r.1.1 < 0 \/ (r.1.1 = 0 \/ r.1.1 = UBI_IO_BITFLIPS) /\ vb_hdr r.1.2 = seal_vid (vb_hdr small_hdr)).
Proof.
  split; [vm_compute; reflexivity|].
  apply (vid_hdr_written_read small_geometry small_chip small_written
    (ubi_io_read_vid_hdr small_geometry small_written 3).2 3 small_hdr
    (set_hdr (seal_vid (vb_hdr small_hdr)) small_hdr)); [apply small_wf|cbn; lia| | |vm_compute; reflexivity|].
  - split; [|done]. split; cbn; split_and!; try done; by repeat (apply Forall_cons; split; [done|]).
  - cbn. repeat constructor.
  - by destruct (ubi_io_read_vid_hdr small_geometry small_written 3) as [[? ?] ?].
Defined.

End UbiIo.
