(* ===== verification/UbiWl.v ===== *)
(** * UBI: wear levelling (drivers/mtd/ubi/wl.c)

    The unit hands out physical erase blocks, erases the ones given back and
    moves data from little-used to much-used blocks.  There is no background
    thread: a scheduled work is done at once, so erasing a block can move the
    data of another, which erases a block, and so on.  [do_work] is this
    recursion with fuel; [None] stands for a call that does not come back or
    that follows a pointer to freed memory.  [ubi_eba_copy_leb] of eba.c is
    here because the worker calls it.

    The entry of a block is kept by value in the trees and in [lookuptbl]; it
    changes only when it is in no tree.  Locks are empty macros in this build,
    small allocations succeed. *)

From stdpp Require Import gmap.
From S2P Require Import Prelude Crc32 Cstring Vsprintf Rbtree Ubi UbiIo.

Module UbiWl.
Import Vsprintf Rbtree Ubi UbiIo.

Definition WL_RESERVED_PEBS : Z := 1.
Definition ST_PROTECTION : Z := 16.
Definition U_PROTECTION : Z := 10.
Definition LT_PROTECTION : Z := 4.
Definition UBI_WL_THRESHOLD : Z := 4096.
Definition WL_FREE_MAX_DIFF : Z := 2 * UBI_WL_THRESHOLD.

Definition UBI_LONGTERM : Z := 1.
Definition UBI_SHORTTERM : Z := 2.
Definition UBI_UNKNOWN : Z := 3.

(** ** Data *)

Record ubi_wl_entry := Entry { e_ec : Z; e_pnum : Z }.

(** A block under protection, and the absolute erase counter that ends it. *)
Record ubi_wl_prot_entry := Prot { pe_abs_ec : Z; pe_e : ubi_wl_entry }.

(** The worker functions with their data. *)
Inductive ubi_work := EraseWork (e : ubi_wl_entry) (torture : bool) | WearLevelingWork.

(** The wear-levelling unit. *)
Record wl_unit := Wl {
  used : tree ubi_wl_entry;
  free : tree ubi_wl_entry;
  scrub : tree ubi_wl_entry;
  prot_pnum : tree ubi_wl_prot_entry;
  prot_aec : tree ubi_wl_prot_entry;
  lookuptbl : gmap Z ubi_wl_entry;
  abs_ec : Z;
  max_ec : Z;
  works : list ubi_work;
  wl_scheduled : bool;
  move_from : option Z;
  move_to : option Z;
  move_to_put : bool;
}.

(** The pools of blocks. *)
Record peb_pools := Pools {
  avail_pebs : Z; rsvd_pebs : Z; beb_rsvd_level : Z; beb_rsvd_pebs : Z; good_peb_count : Z; bad_peb_count : Z }.

(** The tables of the erase-block association: [eba_tbl] of all volumes by
    volume and logical number, where a missing entry is [UBI_LEB_UNMAPPED], and
    the volumes that exist. *)
Record eba_unit := EbaUnit { global_sqnum : Z; eba_tbl : gmap (Z * Z) Z; present : gset Z }.

Record device (M : Type) := Device {
  mtd : M;
  ro : bool;
  wl : wl_unit;
  pools : peb_pools;
  eba : eba_unit;
  vtbl : list ubi_vtbl_record;
}.

Arguments Device {M}.
Arguments mtd {M}.
Arguments ro {M}.
Arguments wl {M}.
Arguments pools {M}.
Arguments eba {M}.
Arguments vtbl {M}.

Definition set_used (t : tree ubi_wl_entry) (w : wl_unit) : wl_unit :=
  Wl t (free w) (scrub w) (prot_pnum w) (prot_aec w) (lookuptbl w) (abs_ec w) (max_ec w) (works w) (wl_scheduled w)
    (move_from w) (move_to w) (move_to_put w).
Definition set_free (t : tree ubi_wl_entry) (w : wl_unit) : wl_unit :=
  Wl (used w) t (scrub w) (prot_pnum w) (prot_aec w) (lookuptbl w) (abs_ec w) (max_ec w) (works w) (wl_scheduled w)
    (move_from w) (move_to w) (move_to_put w).
Definition set_scrub (t : tree ubi_wl_entry) (w : wl_unit) : wl_unit :=
  Wl (used w) (free w) t (prot_pnum w) (prot_aec w) (lookuptbl w) (abs_ec w) (max_ec w) (works w) (wl_scheduled w)
    (move_from w) (move_to w) (move_to_put w).
Definition set_prot (tp ta : tree ubi_wl_prot_entry) (w : wl_unit) : wl_unit :=
  Wl (used w) (free w) (scrub w) tp ta (lookuptbl w) (abs_ec w) (max_ec w) (works w) (wl_scheduled w)
    (move_from w) (move_to w) (move_to_put w).
Definition set_lookup (t : gmap Z ubi_wl_entry) (w : wl_unit) : wl_unit :=
  Wl (used w) (free w) (scrub w) (prot_pnum w) (prot_aec w) t (abs_ec w) (max_ec w) (works w) (wl_scheduled w)
    (move_from w) (move_to w) (move_to_put w).
Definition set_counters (abs max : Z) (w : wl_unit) : wl_unit :=
  Wl (used w) (free w) (scrub w) (prot_pnum w) (prot_aec w) (lookuptbl w) abs max (works w) (wl_scheduled w)
    (move_from w) (move_to w) (move_to_put w).
Definition set_works (l : list ubi_work) (w : wl_unit) : wl_unit :=
  Wl (used w) (free w) (scrub w) (prot_pnum w) (prot_aec w) (lookuptbl w) (abs_ec w) (max_ec w) l (wl_scheduled w)
    (move_from w) (move_to w) (move_to_put w).
Definition set_scheduled (b : bool) (w : wl_unit) : wl_unit :=
  Wl (used w) (free w) (scrub w) (prot_pnum w) (prot_aec w) (lookuptbl w) (abs_ec w) (max_ec w) (works w) b
    (move_from w) (move_to w) (move_to_put w).
Definition set_move (from to : option Z) (put : bool) (w : wl_unit) : wl_unit :=
  Wl (used w) (free w) (scrub w) (prot_pnum w) (prot_aec w) (lookuptbl w) (abs_ec w) (max_ec w) (works w) (wl_scheduled w)
    from to put.

Section Wl.
Context {M : Type} `{!Mtd M} (g : ubi_geometry).

#[local] Abbreviation dev := (device M).

Definition set_mtd (m : M) (u : dev) : dev := Device m (ro u) (wl u) (pools u) (eba u) (vtbl u).
Definition ubi_ro_mode (u : dev) : dev := Device (mtd u) true (wl u) (pools u) (eba u) (vtbl u).
Definition set_wl (w : wl_unit) (u : dev) : dev := Device (mtd u) (ro u) w (pools u) (eba u) (vtbl u).
Definition set_pools (p : peb_pools) (u : dev) : dev := Device (mtd u) (ro u) (wl u) p (eba u) (vtbl u).
Definition set_eba (e : eba_unit) (u : dev) : dev := Device (mtd u) (ro u) (wl u) (pools u) e (vtbl u).
Definition set_vtbl (v : list ubi_vtbl_record) (u : dev) : dev := Device (mtd u) (ro u) (wl u) (pools u) (eba u) v.

(** [vol->eba_tbl[lnum]] *)
Definition eba_lookup (u : dev) (vol_id lnum : Z) : Z := default UBI_LEB_UNMAPPED (eba_tbl (eba u) !! (vol_id, lnum)).
Definition eba_set (u : dev) (vol_id lnum pnum : Z) : dev :=
  set_eba (EbaUnit (global_sqnum (eba u))
             (if pnum <? 0 then delete (vol_id, lnum) (eba_tbl (eba u)) else <[(vol_id, lnum) := pnum]> (eba_tbl (eba u)))
             (present (eba u))) u.

Definition next_sqnum (u : dev) : Z * dev :=
  (global_sqnum (eba u), set_eba (EbaUnit (u64 (global_sqnum (eba u) + 1)) (eba_tbl (eba u)) (present (eba u))) u).

(** ** The trees *)

(** The order of the trees: by erase counter, then by number. *)
Definition entry_before (e e1 : ubi_wl_entry) : bool :=
  (e_ec e <? e_ec e1) || (negb (e_ec e1 <? e_ec e) && (e_pnum e <? e_pnum e1)).

Definition wl_tree_add (e : ubi_wl_entry) (root : tree ubi_wl_entry) : option (tree ubi_wl_entry) :=
  rb_insert e (rb_descend (entry_before e) root []).

Fixpoint in_wl_tree (e : ubi_wl_entry) (t : tree ubi_wl_entry) : bool :=
  match t with
  | Leaf => false
  | Node _ l e1 r =>
      if e_pnum e =? e_pnum e1 then true else
      if e_ec e <? e_ec e1 then in_wl_tree e l else
      if e_ec e1 <? e_ec e then in_wl_tree e r else
      if e_pnum e <? e_pnum e1 then in_wl_tree e l else in_wl_tree e r
  end.

(** [rb_erase(&e->rb, root)] *)
Definition wl_tree_del (e : ubi_wl_entry) (root : tree ubi_wl_entry) : option (tree ubi_wl_entry) :=
  '(node, p) ← find_node (fun e1 => e_pnum e1 =? e_pnum e) root []; rb_erase node p.

Definition is_leaf {A} (t : tree A) : bool := match t with Leaf => true | Node _ _ _ _ => false end.

Fixpoint closest (t : tree ubi_wl_entry) (max : Z) (e : ubi_wl_entry) : ubi_wl_entry :=
  match t with
  | Leaf => e
  | Node _ l e1 r => if max <=? e_ec e1 then closest l max e else closest r max e1
  end.

Definition find_wl_entry (root : tree ubi_wl_entry) (max : Z) : option ubi_wl_entry :=
  e ← rb_first root; Some (closest root (s32 (max + e_ec e)) e).

(** *** The protection trees *)

Definition prot_tree_add (w : wl_unit) (e : ubi_wl_entry) (n : Z) : option wl_unit :=
  let pe := Prot (u64 (abs_ec w + n)) e in
  tp ← rb_insert pe (rb_descend (fun pe1 => e_pnum e <? e_pnum (pe_e pe1)) (prot_pnum w) []);
  ta ← rb_insert pe (rb_descend (fun pe1 => pe_abs_ec pe <? pe_abs_ec pe1) (prot_aec w) []);
  Some (set_prot tp ta w).

(** The node of a protection entry in one of the trees. *)
Definition prot_del (pnum : Z) (t : tree ubi_wl_prot_entry) : option (tree ubi_wl_prot_entry) :=
  '(node, p) ← find_node (fun pe => e_pnum (pe_e pe) =? pnum) t []; rb_erase node p.

Fixpoint prot_search (pnum : Z) (t : tree ubi_wl_prot_entry) : bool :=
  match t with
  | Leaf => false
  | Node _ l pe r =>
      if pnum =? e_pnum (pe_e pe) then true else
      if pnum <? e_pnum (pe_e pe) then prot_search pnum l else prot_search pnum r
  end.

Definition prot_tree_del (w : wl_unit) (pnum : Z) : option (Z * wl_unit) :=
  if prot_search pnum (prot_pnum w) then
    ta ← prot_del pnum (prot_aec w); tp ← prot_del pnum (prot_pnum w); Some (0, set_prot tp ta w)
  else Some (- ENODEV, w).

Definition tree_size {A} (t : tree A) : nat := length (elements t).

(** Each turn takes one entry out. *)
Fixpoint protection_over (fuel : nat) (w : wl_unit) : option wl_unit :=
  match fuel with
  | O => None
  | S fuel =>
      match rb_first (prot_aec w) with
      | None => Some w
      | Some pe =>
          if abs_ec w <? pe_abs_ec pe then Some w else
          ta ← prot_del (e_pnum (pe_e pe)) (prot_aec w); tp ← prot_del (e_pnum (pe_e pe)) (prot_pnum w);
          t ← wl_tree_add (pe_e pe) (used w);
          protection_over fuel (set_used t (set_prot tp ta w))
      end
  end.

Definition check_protection_over (u : dev) : option dev :=
  w ← protection_over (S (tree_size (prot_aec (wl u)))) (wl u); Some (set_wl w u).

(** ** Erasing *)

(** [kmem_cache_free(ubi_wl_entry_slab, e)]: the pointer in the table dangles. *)
Definition free_entry (e : ubi_wl_entry) (u : dev) : dev := set_wl (set_lookup (delete (e_pnum e) (lookuptbl (wl u))) (wl u)) u.

(** The code, and the entry with its new counter. *)
Definition sync_erase (u : dev) (e : ubi_wl_entry) (torture : bool) : Z * ubi_wl_entry * dev :=
  let '(err, m) := ubi_io_sync_erase g (ro u) (mtd u) (e_pnum e) torture in
  let u := set_mtd m u in
  if err <? 0 then (err, e, u) else
  let ec := u64 (e_ec e + err) in
  if UBI_MAX_ERASECOUNTER <? ec then (- EINVAL, e, u) else
  let '(err, m) := ubi_io_write_ec_hdr g (ro u) (mtd u) (e_pnum e)
                     (EcHdr 0 0 (replicate 3 0) ec 0 0 (replicate 36 0) 0) in
  let u := set_mtd m u in
  if negb (err =? 0) then (err, e, u) else
  let e := Entry ec (e_pnum e) in
  let w := wl u in
  (0, e, set_wl (set_counters (abs_ec w) (if max_ec w <? ec then ec else max_ec w)
                   (set_lookup (<[e_pnum e := e]> (lookuptbl w)) w)) u).

(** What happens to the pools when a block has to be given up: [None] inside
    when no block is reserved for it. *)
Definition reserve_for_bad (p : peb_pools) : peb_pools :=
  let need := beb_rsvd_level p - beb_rsvd_pebs p + 1 in
  if 0 <? need then
    let need := if need <=? avail_pebs p then need else avail_pebs p in
    Pools (avail_pebs p - need) (rsvd_pebs p + need) (beb_rsvd_level p) (beb_rsvd_pebs p + need) (good_peb_count p)
      (bad_peb_count p)
  else p.

Definition one_bad (p : peb_pools) : peb_pools :=
  Pools (avail_pebs p) (rsvd_pebs p) (ubi_calculate_reserved (good_peb_count p - 1)) (beb_rsvd_pebs p - 1)
    (good_peb_count p - 1) (bad_peb_count p + 1).

(** The end of [erase_worker], for the error [err] of [sync_erase]. *)
Definition erase_failed (u : dev) (e : ubi_wl_entry) (err : Z) : option (Z * dev) :=
  let u := free_entry e u in
  if (err =? - EINTR) || (err =? - ENOMEM) || (err =? - EAGAIN) || (err =? - EBUSY) then
    None (* [schedule_erase(ubi, e, 0)] with the entry just freed *)
  else if negb (err =? - EIO) then Some (err, ubi_ro_mode u) else
  if negb (bad_allowed g) then Some (err, ubi_ro_mode u) else
  let u := set_pools (reserve_for_bad (pools u)) u in
  if beb_rsvd_pebs (pools u) =? 0 then Some (err, ubi_ro_mode u) else
  let '(err, m) := ubi_io_mark_bad g (ro u) (mtd u) (e_pnum e) in
  let u := set_mtd m u in
  if negb (err =? 0) then Some (err, ubi_ro_mode u) else Some (err, set_pools (one_bad (pools u)) u).

(** ** Moving a block (eba.c) *)

(** From [ubi_io_write_vid_hdr] on: header and data are written, read back and
    compared. *)
Definition write_copy (u : dev) (to vol_id lnum : Z) (b : vid_buf) (data_size aldata_size : Z) (buf1 : list Z) : Z * dev :=
  let '(err, b, m) := ubi_io_write_vid_hdr g (ro u) (mtd u) to b in
  let u := set_mtd m u in
  if negb (err =? 0) then (err, u) else
  let '(err, b, m) := ubi_io_read_vid_hdr g (mtd u) to in
  let u := set_mtd m u in
  if negb (err =? 0) then (if err =? UBI_IO_BITFLIPS then 1 else err, u) else
  if 0 <? data_size then
    let '(err, m) := ubi_io_write_data g (ro u) (mtd u) (take (Z.to_nat aldata_size) buf1) to 0 in
    let u := set_mtd m u in
    if negb (err =? 0) then (err, u) else
    let '(err, buf2, m) := ubi_io_read_data g (mtd u) to 0 aldata_size in
    let u := set_mtd m u in
    if negb (err =? 0) then (if err =? UBI_IO_BITFLIPS then 1 else err, u) else
    if negb (bool_decide (take (Z.to_nat aldata_size) buf1 = take (Z.to_nat aldata_size) buf2)) then (0, u) else
    (0, eba_set u vol_id lnum to)
  else (0, eba_set u vol_id lnum to).

(** 0, 1 to try later, 2 when the volume is gone, or an error. *)
Definition ubi_eba_copy_leb (u : dev) (from to : Z) (b : vid_buf) : Z * dev :=
  let h := vb_hdr b in
  let vol_id := s32 (vid_vol_id h) in
  let lnum := s32 (vid_lnum h) in
  let static := vid_vol_type h =? UBI_VID_STATIC in
  let data_size := if static then s32 (vid_data_size h) else s32 (leb_size g - vid_data_pad h) in
  let aldata_size := if static then ALIGN data_size (min_io_size g) else data_size in
  if negb (bool_decide (vol_id ∈ present (eba u))) then (2, u) else
  if negb (eba_lookup u vol_id lnum =? from) then (1, u) else
  let '(err, buf1, m) := ubi_io_read_data g (mtd u) from 0 aldata_size in
  let u := set_mtd m u in
  if negb (err =? 0) && negb (err =? UBI_IO_BITFLIPS) then (err, u) else
  let len := ubi_calc_data_len (min_io_size g) buf1 data_size in
  let '(aldata_size, data_size) := if vid_vol_type h =? UBI_VID_DYNAMIC then (len, len) else (aldata_size, data_size) in
  let crc := crc32 UBI_CRC32_INIT (take (Z.to_nat data_size) buf1) in
  let h := if 0 <? data_size
           then VidHdr (vid_magic h) (vid_version h) (vid_vol_type h) 1 (vid_compat h) (vid_vol_id h) (vid_lnum h)
                  (vid_leb_ver h) data_size (vid_used_ebs h) (vid_data_pad h) crc (vid_padding1 h) (vid_sqnum h)
                  (vid_padding2 h) (vid_hdr_crc h)
           else h in
  let '(sq, u) := next_sqnum u in
  let h := VidHdr (vid_magic h) (vid_version h) (vid_vol_type h) (vid_copy_flag h) (vid_compat h) (vid_vol_id h)
             (vid_lnum h) (vid_leb_ver h) (vid_data_size h) (vid_used_ebs h) (vid_data_pad h) (vid_data_crc h)
             (vid_padding1 h) sq (vid_padding2 h) (vid_hdr_crc h) in
  write_copy u to vol_id lnum (set_hdr h b) data_size aldata_size buf1.

(** ** Works *)

Section Workers.
Context (do_work : dev -> option (Z * dev)).

(** The error of the work is not looked at. *)
Definition schedule_ubi_work (u : dev) (wrk : ubi_work) : option dev :=
  let u := set_wl (set_works (works (wl u) ++ [wrk]) (wl u)) u in
  '(_, u) ← do_work u; Some u.

Definition schedule_erase (u : dev) (e : ubi_wl_entry) (torture : bool) : option (Z * dev) :=
  u ← schedule_ubi_work u (EraseWork e torture); Some (0, u).

(** Whether the counters of the least used block and of a free one differ
    enough. *)
Definition wl_needed (e1 e2 : ubi_wl_entry) : bool := UBI_WL_THRESHOLD <=? s32 (e_ec e2 - e_ec e1).

Definition ensure_wear_leveling (u : dev) : option (Z * dev) :=
  let w := wl u in
  let go := u ← schedule_ubi_work (set_wl (set_scheduled true w) u) WearLevelingWork; Some (0, u) in
  if wl_scheduled w then Some (0, u) else
  if is_leaf (scrub w) then
    if is_leaf (used w) || is_leaf (free w) then Some (0, u) else
    e1 ← rb_first (used w); e2 ← find_wl_entry (free w) WL_FREE_MAX_DIFF;
    if negb (wl_needed e1 e2) then Some (0, u) else go
  else go.

(** The blocks to move between, with the trees they are taken from, and whether
    this is scrubbing; [None] inside when there is nothing to move. *)
Definition pick_move (w : wl_unit) : option (option (ubi_wl_entry * ubi_wl_entry * bool * wl_unit)) :=
  if is_leaf (free w) || (is_leaf (used w) && is_leaf (scrub w)) then Some None else
  if is_leaf (scrub w) then
    e1 ← rb_first (used w); e2 ← find_wl_entry (free w) WL_FREE_MAX_DIFF;
    if negb (wl_needed e1 e2) then Some None else
    tu ← wl_tree_del e1 (used w); tf ← wl_tree_del e2 (free w);
    Some (Some (e1, e2, false, set_free tf (set_used tu w)))
  else
    e1 ← rb_first (scrub w); e2 ← find_wl_entry (free w) WL_FREE_MAX_DIFF;
    ts ← wl_tree_del e1 (scrub w); tf ← wl_tree_del e2 (free w);
    Some (Some (e1, e2, true, set_free tf (set_scrub ts w))).

Definition move_done (w : wl_unit) : wl_unit := set_scheduled false (set_move None None false w).

Definition out_not_moved (u : dev) (e1 e2 : ubi_wl_entry) (scrubbing : bool) : option (Z * dev) :=
  let w := wl u in
  w ← (if scrubbing then t ← wl_tree_add e1 (scrub w); Some (set_scrub t w)
       else t ← wl_tree_add e1 (used w); Some (set_used t w));
  schedule_erase (set_wl (move_done w) u) e2 false.

Definition out_error (u : dev) (e1 e2 : ubi_wl_entry) (err : Z) : Z * dev :=
  (err, ubi_ro_mode (free_entry e2 (free_entry e1 (set_wl (move_done (wl u)) u)))).

(** After [ubi_eba_copy_leb] went through, or found the volume gone ([protect]). *)
Definition moved (u : dev) (e1 e2 : ubi_wl_entry) (protect : bool) : option (Z * dev) :=
  w ← (if protect then prot_tree_add (wl u) e1 1 else Some (wl u));
  let put := move_to_put w in
  w ← (if put then Some w else t ← wl_tree_add e2 (used w); Some (set_used t w));
  let u := set_wl (move_done w) u in
  '(_, u) ← (if put : bool then schedule_erase u e2 false else Some (0, u));
  if protect then Some (0, u) else schedule_erase u e1 false.

Definition wear_leveling_worker (u : dev) : option (Z * dev) :=
  r ← pick_move (wl u);
  match r with
  | None => Some (0, set_wl (set_scheduled false (wl u)) u)
  | Some (e1, e2, scrubbing, w) =>
      let u := set_wl (set_move (Some (e_pnum e1)) (Some (e_pnum e2)) (move_to_put w) w) u in
      let '(err, b, m) := ubi_io_read_vid_hdr g (mtd u) (e_pnum e1) in
      let u := set_mtd m u in
      if negb (err =? 0) && negb (err =? UBI_IO_BITFLIPS) then
        if err =? UBI_IO_PEB_FREE then out_not_moved u e1 e2 scrubbing
        else Some (out_error u e1 e2 (if 0 <? err then - EIO else err))
      else
        let '(err, u) := ubi_eba_copy_leb u (e_pnum e1) (e_pnum e2) b in
        if err <? 0 then Some (out_error u e1 e2 err) else
        if err =? 1 then out_not_moved u e1 e2 scrubbing else
        moved u e1 e2 (negb (err =? 0))
  end.

Definition erase_worker (u : dev) (e : ubi_wl_entry) (torture : bool) : option (Z * dev) :=
  let '(err, e, u) := sync_erase u e torture in
  if err =? 0 then
    t ← wl_tree_add e (free (wl u));
    u ← check_protection_over (set_wl (set_free t (set_counters (u64 (abs_ec (wl u) + 1)) (max_ec (wl u)) (wl u))) u);
    ensure_wear_leveling u
  else erase_failed u e err.

End Workers.

(** [fuel] bounds how deep works start works. *)
Fixpoint do_work (fuel : nat) (u : dev) : option (Z * dev) :=
  match fuel with
  | O => None
  | S fuel =>
      match works (wl u) with
      | [] => Some (0, u)
      | wrk :: rest =>
          let u := set_wl (set_works rest (wl u)) u in
          match wrk with
          | EraseWork e torture => erase_worker (do_work fuel) u e torture
          | WearLevelingWork => wear_leveling_worker (do_work fuel) u
          end
      end
  end.

(** ** The interface of the unit *)

Section Interface.
Context (fuel : nat).

(** [while (!ubi->free.rb_node)], [n] turns at most. *)
Fixpoint produce_free_peb (n : nat) (u : dev) : option (Z * dev) :=
  if negb (is_leaf (free (wl u))) then Some (0, u) else
  match n with
  | O => None
  | S n =>
      '(err, u) ← do_work fuel u;
      if negb (err =? 0) then Some (err, u) else produce_free_peb n u
  end.

(** The block to hand out, with the length of its protection. *)
Definition choose_peb (root : tree ubi_wl_entry) (dtype : Z) : option (ubi_wl_entry * Z) :=
  if dtype =? UBI_LONGTERM then e ← find_wl_entry root WL_FREE_MAX_DIFF; Some (e, LT_PROTECTION) else
  if dtype =? UBI_UNKNOWN then
    first ← rb_first root; last ← rb_last root;
    e ← (if s32 (e_ec last - e_ec first) <? WL_FREE_MAX_DIFF
         then match root with Node _ _ e _ => Some e | Leaf => None end
         else find_wl_entry root (Z.quot (s32 (e_ec first + WL_FREE_MAX_DIFF)) 2));
    Some (e, U_PROTECTION) else
  if dtype =? UBI_SHORTTERM then e ← rb_first root; Some (e, ST_PROTECTION) else None.

(** A block number, or an error. *)
Definition ubi_wl_get_peb (u : dev) (dtype : Z) : option (Z * dev) :=
  '(err, u) ← (if is_leaf (free (wl u)) then
                 if (length (works (wl u)) =? 0)%nat then Some (- ENOSPC, u)
                 else produce_free_peb (length (works (wl u))) u
               else Some (0, u));
  if err <? 0 then Some (err, u) else
  '(e, protect) ← choose_peb (free (wl u)) dtype;
  t ← wl_tree_del e (free (wl u));
  w ← prot_tree_add (set_free t (wl u)) e protect;
  Some (e_pnum e, set_wl w u).

(** Taking a block out of the tree it is in; [None] when its entry was freed,
    and the code otherwise. *)
Definition take_out (w : wl_unit) (e : ubi_wl_entry) : option (Z * wl_unit) :=
  if in_wl_tree e (used w) then t ← wl_tree_del e (used w); Some (0, set_used t w) else
  if in_wl_tree e (scrub w) then t ← wl_tree_del e (scrub w); Some (0, set_scrub t w) else
  prot_tree_del w (e_pnum e).

Definition ubi_wl_put_peb (u : dev) (pnum : Z) (torture : bool) : option (Z * dev) :=
  e ← lookuptbl (wl u) !! pnum;
  if bool_decide (move_from (wl u) = Some pnum) then None (* waits for the worker *) else
  if bool_decide (move_to (wl u) = Some pnum) then
    Some (0, set_wl (set_move (move_from (wl u)) (move_to (wl u)) true (wl u)) u) else
  '(err, w) ← take_out (wl u) e;
  if negb (err =? 0) then Some (err, ubi_ro_mode u) else
  schedule_erase (do_work fuel) (set_wl w u) e torture.

Definition ubi_wl_scrub_peb (u : dev) (pnum : Z) : option (Z * dev) :=
  e ← lookuptbl (wl u) !! pnum;
  if bool_decide (move_from (wl u) = Some pnum) || in_wl_tree e (scrub (wl u)) then Some (0, u) else
  if bool_decide (move_to (wl u) = Some pnum) then None (* waits for the worker *) else
  '(err, w) ← (if in_wl_tree e (used (wl u)) then t ← wl_tree_del e (used (wl u)); Some (0, set_used t (wl u))
               else prot_tree_del (wl u) (e_pnum e));
  if negb (err =? 0) then Some (err, ubi_ro_mode u) else
  t ← wl_tree_add e (scrub w);
  ensure_wear_leveling (do_work fuel) (set_wl (set_scrub t w) u).

(** [while (ubi->works_count)], twice. *)
Fixpoint flush_loop (n : nat) (u : dev) : option (Z * dev) :=
  if (length (works (wl u)) =? 0)%nat then Some (0, u) else
  match n with
  | O => None
  | S n =>
      '(err, u) ← do_work fuel u;
      if negb (err =? 0) then Some (err, u) else flush_loop n u
  end.

Definition ubi_wl_flush (u : dev) : option (Z * dev) :=
  '(err, u) ← flush_loop (length (works (wl u))) u;
  if negb (err =? 0) then Some (err, u) else flush_loop (length (works (wl u))) u.

End Interface.

End Wl.

End UbiWl.
