(* ===== verification/UbiEba.v ===== *)
(** * UBI: logical erase blocks (drivers/mtd/ubi/eba.c, vtbl.c)

    Reading, writing and un-mapping the erase blocks of a volume on top of the
    wear-levelling unit, with the recovery from failed writes, and changing a
    record of the volume table.  The lock tree only counts its users in a build
    without threads and is left out. *)

From stdpp Require Import gmap.
From S2P Require Import Prelude Crc32 Cstring Vsprintf Rbtree Ubi UbiIo UbiWl.

Module UbiEba.
Import Cstring Vsprintf Rbtree Ubi UbiIo UbiWl.

Definition UBI_LAYOUT_VOLUME_ID : Z := UBI_INTERNAL_VOL_START.
Definition UBI_LAYOUT_VOLUME_COMPAT : Z := UBI_COMPAT_REJECT.
Definition UBI_LAYOUT_VOLUME_EBS : nat := 2.
Definition EBA_RESERVED_PEBS : Z := 1.

Definition ubi_get_compat (vol_id : Z) : Z := if vol_id =? UBI_LAYOUT_VOLUME_ID then UBI_LAYOUT_VOLUME_COMPAT else 0.

(** The header of a block that is about to be written. *)
Definition new_vid (vol_type copy_flag vol_id lnum data_size used_ebs data_pad data_crc sqnum : Z) : ubi_vid_hdr :=
  VidHdr 0 0 vol_type copy_flag (ubi_get_compat vol_id) (u32 vol_id) (u32 lnum) 0 (u32 data_size) (u32 used_ebs)
    (u32 data_pad) data_crc (replicate 4 0) sqnum (replicate 12 0) 0.

Definition set_sqnum (sq : Z) (b : vid_buf) : vid_buf :=
  let h := vb_hdr b in
  set_hdr (VidHdr (vid_magic h) (vid_version h) (vid_vol_type h) (vid_copy_flag h) (vid_compat h) (vid_vol_id h)
             (vid_lnum h) (vid_leb_ver h) (vid_data_size h) (vid_used_ebs h) (vid_data_pad h) (vid_data_crc h)
             (vid_padding1 h) sq (vid_padding2 h) (vid_hdr_crc h)) b.

Section Eba.
Context {M : Type} `{!Mtd M} (g : ubi_geometry) (fuel : nat).

#[local] Abbreviation dev := (device M).

Definition ubi_eba_unmap_leb (u : dev) (vol : geometry) (lnum : Z) : option (Z * dev) :=
  if ro u then Some (- EROFS, u) else
  let pnum := eba_lookup u (vol_id vol) lnum in
  if pnum <? 0 then Some (0, u) else
  ubi_wl_put_peb g fuel (eba_set u (vol_id vol) lnum UBI_LEB_UNMAPPED) pnum false.

(** ** Reading *)

(** The part under [if (check)]: the code to return, or the checksum of the
    header and whether bits flipped. *)
Definition read_crc (u : dev) (pnum : Z) : (Z * dev) + (Z * bool * dev) :=
  let '(err, b, m) := ubi_io_read_vid_hdr g (mtd u) pnum in
  let u := set_mtd m u in
  if negb (err =? 0) && negb (err =? UBI_IO_BITFLIPS) then
    if 0 <? err then
      if err =? UBI_IO_BAD_VID_HDR then inl (- EBADMSG, u) else inl (err, ubi_ro_mode u)
    else inl (err, u)
  else inr (vid_data_crc (vb_hdr b), err =? UBI_IO_BITFLIPS, u).

Definition read_done (u : dev) (pnum : Z) (buf : list Z) (err : Z) (crc : option Z) (scrub : bool)
    : option (Z * list Z * dev) :=
  if match crc with Some c => negb (crc32 UBI_CRC32_INIT buf =? c) | None => false end
  then Some (- EBADMSG, buf, u) else
  if scrub then '(err, u) ← ubi_wl_scrub_peb g fuel u pnum; Some (err, buf, u) else Some (err, buf, u).

(** The label [retry]: it is reached once more at most, with [check] set. *)
Fixpoint read_leb_retry (n : nat) (u : dev) (vol : geometry) (pnum offset len : Z) (check scrub : bool)
    : option (Z * list Z * dev) :=
  match n with
  | O => None
  | S n =>
      match (if check then read_crc u pnum else inr (0, false, u)) with
      | inl (err, u) => Some (err, [], u)
      | inr (crc, flips, u) =>
          let scrub := scrub || flips in
          let crc := if check then Some crc else None in
          let '(err, buf, m) := ubi_io_read_data g (mtd u) pnum offset len in
          let u := set_mtd m u in
          if err =? 0 then read_done u pnum buf 0 crc scrub else
          if err =? UBI_IO_BITFLIPS then read_done u pnum buf 0 crc true else
          if err =? - EBADMSG then
            if vol_type vol =? UBI_DYNAMIC_VOLUME then Some (err, buf, u) else
            if negb check then read_leb_retry n u vol pnum offset len true true
            else read_done u pnum buf err crc true
          else Some (err, buf, u)
      end
  end.

Definition ubi_eba_read_leb (u : dev) (vol : geometry) (lnum offset len : Z) (check : bool) : option (Z * list Z * dev) :=
  let pnum := eba_lookup u (vol_id vol) lnum in
  if pnum <? 0 then Some (0, replicate (Z.to_nat len) 0xff, u) else
  read_leb_retry 2 u vol pnum offset len (if vol_type vol =? UBI_DYNAMIC_VOLUME then false else check) false.

(** ** Writing *)

(** The buffer [peb_buf1] of [recover_peb]: what is in the block before
    [offset], then the data; or the error of reading it. *)
Definition recover_data (m : M) (pnum : Z) (buf : list Z) (offset : Z) : (Z * M) + (list Z * M) :=
  if 0 <? offset then
    let '(err, old, m) := ubi_io_read_data g m pnum 0 offset in
    if negb (err =? 0) && negb (err =? UBI_IO_BITFLIPS) then inl (err, m) else inr (take (Z.to_nat offset) old ++ buf, m)
  else inr (buf, m).

(** One attempt: the outcome after [ubi_wl_get_peb]; [inl] is a code to return,
    [inr] the error of a write that failed. *)
Definition recover_once (u : dev) (pnum new_pnum vol_id lnum : Z) (buf : list Z) (offset : Z)
    : option ((Z * dev) + (Z * dev)) :=
  let out_put err (u : dev) := '(_, u) ← ubi_wl_put_peb g fuel u new_pnum true; Some (inl (err, u)) in
  let '(err, b, m) := ubi_io_read_vid_hdr g (mtd u) pnum in
  let u := set_mtd m u in
  if negb (err =? 0) && negb (err =? UBI_IO_BITFLIPS) then out_put (if 0 <? err then - EIO else err) u else
  let '(sq, u) := next_sqnum u in
  let '(err, _, m) := ubi_io_write_vid_hdr g (ro u) (mtd u) new_pnum (set_sqnum sq b) in
  let u := set_mtd m u in
  if negb (err =? 0) then Some (inr (err, u)) else
  match recover_data (mtd u) pnum buf offset with
  | inl (err, m) => out_put err (set_mtd m u)
  | inr (data, m) =>
      let '(err, m) := ubi_io_write_data g (ro u) m data new_pnum 0 in
      let u := set_mtd m u in
      if negb (err =? 0) then Some (inr (err, u)) else
      '(_, u) ← ubi_wl_put_peb g fuel (eba_set u vol_id lnum new_pnum) pnum true;
      Some (inl (0, u))
  end.

(** [n] more tries are allowed. *)
Fixpoint recover_peb (n : nat) (u : dev) (pnum vol_id lnum : Z) (buf : list Z) (offset : Z) : option (Z * dev) :=
  '(new_pnum, u) ← ubi_wl_get_peb g fuel u UBI_UNKNOWN;
  if new_pnum <? 0 then Some (new_pnum, u) else
  r ← recover_once u pnum new_pnum vol_id lnum buf offset;
  match r with
  | inl r => Some r
  | inr (err, u) =>
      '(_, u) ← ubi_wl_put_peb g fuel u new_pnum true;
      match n with
      | O => Some (err, u)
      | S n => recover_peb n u pnum vol_id lnum buf offset
      end
  end.

(** One attempt to write to a fresh block and map it: the outcome, or from
    [write_error] on, with the block put back, what to try again with. *)
Definition write_once (u : dev) (vol_id lnum : Z) (b : vid_buf) (buf : list Z) (offset dtype : Z)
    : option ((Z * dev) + (vid_buf * dev)) :=
  '(pnum, u) ← ubi_wl_get_peb g fuel u dtype;
  if pnum <? 0 then Some (inl (pnum, u)) else
  let '(err, b, m) := ubi_io_write_vid_hdr g (ro u) (mtd u) pnum b in
  let '(err, m) := if (err =? 0) && negb (bool_decide (buf = [])) then ubi_io_write_data g (ro u) m buf pnum offset
                   else (err, m) in
  let u := set_mtd m u in
  if err =? 0 then Some (inl (0, eba_set u vol_id lnum pnum)) else
  if negb (err =? - EIO) || negb (bad_allowed g) then Some (inl (err, ubi_ro_mode u)) else
  '(err, u) ← ubi_wl_put_peb g fuel u pnum true;
  if negb (err =? 0) then Some (inl (err, ubi_ro_mode u)) else Some (inr (b, u)).

(** The label [retry]: [n] more tries are allowed.  When they are used up, the
    code of putting the block back is returned, which is 0. *)
Fixpoint write_fresh (n : nat) (u : dev) (vol_id lnum : Z) (b : vid_buf) (buf : list Z) (offset dtype : Z)
    : option (Z * dev) :=
  r ← write_once u vol_id lnum b buf offset dtype;
  match r with
  | inl r => Some r
  | inr (b, u) =>
      match n with
      | O => Some (0, ubi_ro_mode u)
      | S n => let '(sq, u) := next_sqnum u in write_fresh n u vol_id lnum (set_sqnum sq b) buf offset dtype
      end
  end.

(** The header in a fresh buffer. *)
Definition vid_in_buf (h : ubi_vid_hdr) : vid_buf := set_hdr h (ubi_zalloc_vid_hdr g).

Definition ubi_eba_write_leb (u : dev) (vol : geometry) (lnum : Z) (buf : list Z) (offset dtype : Z) : option (Z * dev) :=
  if ro u then Some (- EROFS, u) else
  let pnum := eba_lookup u (vol_id vol) lnum in
  if 0 <=? pnum then
    let '(err, m) := ubi_io_write_data g (ro u) (mtd u) buf pnum offset in
    let u := set_mtd m u in
    if err =? 0 then Some (0, u) else
    '(err, u) ← (if (err =? - EIO) && bad_allowed g
                 then recover_peb UBI_IO_RETRIES u pnum (vol_id vol) lnum buf offset else Some (err, u));
    Some (err, if negb (err =? 0) then ubi_ro_mode u else u)
  else
    let '(sq, u) := next_sqnum u in
    write_fresh UBI_IO_RETRIES u (vol_id vol) lnum
      (vid_in_buf (new_vid UBI_VID_DYNAMIC 0 (vol_id vol) lnum 0 0 (data_pad vol) 0 sq)) buf offset dtype.

(** [buf] holds at least the aligned length of bytes. *)
Definition ubi_eba_write_leb_st (u : dev) (vol : geometry) (lnum : Z) (buf : list Z) (len dtype used_ebs : Z)
    : option (Z * dev) :=
  if ro u then Some (- EROFS, u) else
  let data_size := len in
  let len := if lnum =? used_ebs - 1 then ALIGN data_size (min_io_size g) else len in
  let '(sq, u) := next_sqnum u in
  let crc := crc32 UBI_CRC32_INIT (take (Z.to_nat data_size) buf) in
  write_fresh UBI_IO_RETRIES u (vol_id vol) lnum
    (vid_in_buf (new_vid UBI_VID_STATIC 0 (vol_id vol) lnum data_size used_ebs (data_pad vol) crc sq))
    (take (Z.to_nat len) buf) 0 dtype.

(** The label [retry] of the atomic change: [old] is where the block is now. *)
Fixpoint change_fresh (n : nat) (u : dev) (vol_id lnum : Z) (b : vid_buf) (buf : list Z) (dtype : Z) : option (Z * dev) :=
  '(pnum, u) ← ubi_wl_get_peb g fuel u dtype;
  if pnum <? 0 then Some (pnum, u) else
  let '(err, b, m) := ubi_io_write_vid_hdr g (ro u) (mtd u) pnum b in
  let '(err, m) := if err =? 0 then ubi_io_write_data g (ro u) m buf pnum 0 else (err, m) in
  let u := set_mtd m u in
  if err =? 0 then
    let old := eba_lookup u vol_id lnum in
    '(err, u) ← (if 0 <=? old then ubi_wl_put_peb g fuel u old true else Some (0, u));
    if negb (err =? 0) then Some (err, u) else Some (0, eba_set u vol_id lnum pnum)
  else if negb (err =? - EIO) || negb (bad_allowed g) then Some (err, ubi_ro_mode u) else
  '(err, u) ← ubi_wl_put_peb g fuel u pnum true;
  if negb (err =? 0) then Some (err, ubi_ro_mode u) else
  match n with
  | O => Some (err, ubi_ro_mode u)
  | S n => let '(sq, u) := next_sqnum u in change_fresh n u vol_id lnum (set_sqnum sq b) buf dtype
  end.

Definition ubi_eba_atomic_leb_change (u : dev) (vol : geometry) (lnum : Z) (buf : list Z) (dtype : Z) : option (Z * dev) :=
  if ro u then Some (- EROFS, u) else
  if bool_decide (buf = []) then
    '(err, u) ← ubi_eba_unmap_leb u vol lnum;
    if negb (err =? 0) then Some (err, u) else ubi_eba_write_leb u vol lnum [] 0 dtype
  else
    let '(sq, u) := next_sqnum u in
    let len := Z.of_nat (length buf) in
    change_fresh UBI_IO_RETRIES u (vol_id vol) lnum
      (vid_in_buf (new_vid UBI_VID_DYNAMIC 1 (vol_id vol) lnum len 0 (data_pad vol) (crc32 UBI_CRC32_INIT buf) sq)) buf dtype.

(** ** The volume table (vtbl.c) *)

(** A record as it lies in the table; an empty one is zero, with its checksum. *)
Definition vtbl_record_bytes (r : ubi_vtbl_record) : list Z :=
  let body := be_bytes 4 (r_reserved_pebs r) ++ be_bytes 4 (r_alignment r) ++ be_bytes 4 (r_data_pad r)
              ++ [u8 (r_vol_type r); if r_upd_marker r then 1 else 0] ++ be_bytes 2 (Z.of_nat (length (r_name r)))
              ++ r_name r ++ replicate (128 - length (r_name r)) 0 ++ replicate 24 0 in
  body ++ be_bytes 4 (crc32 UBI_CRC32_INIT body).

Definition empty_vtbl_record : ubi_vtbl_record := VtblRec 0 0 0 0 false [].

(** The layout volume, as [init_volumes] sets it up. *)
Definition layout_volume : geometry :=
  Geometry UBI_LAYOUT_VOLUME_ID (Z.of_nat UBI_LAYOUT_VOLUME_EBS) UBI_DYNAMIC_VOLUME (leb_size g) 1 0
    (bytes_of "layout volume").

(** [vtbl_size] bytes: the records and the rest of the last input/output unit. *)
Definition vtbl_image (l : list ubi_vtbl_record) : list Z :=
  let bs := concat (map vtbl_record_bytes l) in
  bs ++ replicate (Z.to_nat (ALIGN (Z.of_nat (length bs)) (min_io_size g)) - length bs) 0.

Fixpoint write_copies (n : nat) (i : Z) (u : dev) : option (Z * dev) :=
  match n with
  | O => Some (0, u)
  | S n =>
      '(err, u) ← ubi_eba_unmap_leb u layout_volume i;
      if negb (err =? 0) then Some (err, u) else
      '(err, u) ← ubi_eba_write_leb u layout_volume i (vtbl_image (vtbl u)) 0 UBI_LONGTERM;
      if negb (err =? 0) then Some (err, u) else write_copies n (i + 1) u
  end.

Definition ubi_change_vtbl_record (u : dev) (idx : Z) (rec : option ubi_vtbl_record) : option (Z * dev) :=
  let u := set_vtbl (<[Z.to_nat idx := default empty_vtbl_record rec]> (vtbl u)) u in
  write_copies UBI_LAYOUT_VOLUME_EBS 0 u.

End Eba.

End UbiEba.
