(* ===== verification/UbiWlSpec.v ===== *)
(** * What the wear-levelling unit keeps

    The trees stay search trees, every block is in one of them at most, and
    whatever the unit moves or erases, every logical erase block keeps its data
    ([keeps]); the recursion of the works ends. *)

From stdpp Require Import gmap.
From S2P Require Import Prelude Crc32 Cstring Vsprintf Rbtree Ubi UbiIo UbiWl.

Module UbiWlSpec.
Import Vsprintf Rbtree Ubi UbiIo UbiWl.

(** ** Sorted lists *)

Lemma sorted_insert {A} (R : A -> A -> Prop) l1 x l2 :
  StronglySorted R (l1 ++ l2) -> Forall (fun y => R y x) l1 -> Forall (R x) l2 -> StronglySorted R (l1 ++ x :: l2).
Proof.
  induction l1 as [|y l1 IH]; cbn; intros Hs H1 H2; [by constructor|].
  apply StronglySorted_inv in Hs as [Hs Hy]. apply Forall_cons in H1 as [Hyx H1]. constructor; [by apply IH|].
  rewrite Forall_app in Hy |- *. destruct Hy. split; [done|by constructor].
Qed.

Lemma sorted_remove {A} (R : A -> A -> Prop) l1 x l2 : StronglySorted R (l1 ++ x :: l2) -> StronglySorted R (l1 ++ l2).
Proof.
  induction l1 as [|y l1 IH]; cbn; intros Hs; apply StronglySorted_inv in Hs as [Hs Hy]; [done|].
  constructor; [by apply IH|]. rewrite !Forall_app, Forall_cons in Hy. rewrite Forall_app. tauto.
Qed.

Lemma sorted_split {A} (R : A -> A -> Prop) l1 x l2 :
  StronglySorted R (l1 ++ x :: l2) ->
  StronglySorted R l1 /\ StronglySorted R l2 /\ Forall (fun y => R y x) l1 /\ Forall (R x) l2.
Proof.
  induction l1 as [|y l1 IH]; cbn; intros Hs; apply StronglySorted_inv in Hs as [Hs Hy].
  - split_and!; try done; constructor.
  - destruct (IH Hs) as (? & ? & ? & ?). rewrite Forall_app, Forall_cons in Hy. destruct Hy as (? & ? & ?).
    split_and!; try done; by constructor.
Qed.

(** The way down a search tree separates what is before the new element from
    what is after it. *)
Lemma rb_descend_split {A} (R : A -> A -> Prop) less (t : tree A) :
  StronglySorted R (elements t) -> (forall x y, R x y -> less x = true -> less y = true) -> forall p,
  Forall (fun y => less y = false) (before p) -> Forall (fun y => less y = true) (after p) ->
  Forall (fun y => less y = false) (before (rb_descend less t p)) /\ Forall (fun y => less y = true) (after (rb_descend less t p)).
Proof.
  intros Hs Hmono. induction t as [|c l IHl x r IHr]; intros p Hb Ha; [done|].
  cbn [elements] in Hs. apply sorted_split in Hs as (Hl & Hr & Hlx & Hxr). cbn [rb_descend].
  destruct (less x) eqn:E.
  - apply (IHl Hl); [done|]. cbn [after]. constructor; [done|]. apply Forall_app. split; [|done].
    eapply Forall_impl; [exact Hxr|]. intros y Hy. by eapply Hmono.
  - apply (IHr Hr); [|done]. cbn [before]. rewrite !Forall_app. split_and!; [done| |by constructor].
    eapply Forall_impl; [exact Hlx|]. intros y Hy. destruct (less y) eqn:E'; [|done]. by rewrite (Hmono y x) in E.
Qed.

Lemma insert_sorted {A} (R : A -> A -> Prop) less x (t : tree A) :
  rb_tree t -> StronglySorted R (elements t) -> (forall y z, R y z -> less y = true -> less z = true) ->
  Forall (fun y => if less y : bool then R x y else R y x) (elements t) ->
  exists t', rb_insert x (rb_descend less t []) = Some t' /\ rb_tree t' /\ StronglySorted R (elements t')
    /\ elements t' ≡ₚ x :: elements t.
Proof.
  intros Ht Hs Hmono Hx. destruct (rb_insert_elements x less t Ht) as (t' & l1 & l2 & -> & Ht' & He & He' & Hl1 & Hl2).
  destruct (rb_descend_split R less t Hs Hmono []) as [Hb Ha]; [constructor..|]. rewrite <- Hl1 in Hb. rewrite <- Hl2 in Ha.
  exists t'. split_and!; [done|done| |].
  - rewrite He'. rewrite He in Hs, Hx. rewrite Forall_app in Hx. destruct Hx as [Hx1 Hx2].
    rewrite Forall_forall in Hb, Ha, Hx1, Hx2. apply sorted_insert; [done|..]; apply Forall_forall; intros y Hy.
    + specialize (Hx1 y Hy). by rewrite Hb in Hx1.
    + specialize (Hx2 y Hy). by rewrite Ha in Hx2.
  - rewrite He, He'. by rewrite Permutation_middle.
Qed.

Lemma erase_sorted {A} (R : A -> A -> Prop) is_it x (t : tree A) :
  rb_tree t -> x ∈ elements t -> is_it x = true -> (forall y, y ∈ elements t -> is_it y = true -> y = x) ->
  exists t', ('(node, p) ← find_node is_it t []; rb_erase node p) = Some t' /\ rb_tree t'
    /\ (StronglySorted R (elements t) -> StronglySorted R (elements t')) /\ elements t ≡ₚ x :: elements t'.
Proof.
  intros Ht Hin Hx Huniq. destruct (rb_erase_elements is_it t Ht) as (node & p & t' & y & l1 & l2 & Hf & He & Ht' & Hy & Hl & Hl').
  { apply Exists_exists. by exists x. }
  assert (y = x) as -> by (apply Huniq; [|done]; rewrite Hl; set_solver). rewrite Hf. cbn [mbind option_bind].
  exists t'. rewrite Hl, Hl'. split_and!; [done|done|by apply sorted_remove|by rewrite Permutation_middle].
Qed.

(** ** The trees of the unit *)

Definition entry_lt (e e1 : ubi_wl_entry) : Prop := entry_before e e1 = true.

Lemma entry_lt_spec e e1 : entry_lt e e1 <-> e_ec e < e_ec e1 \/ e_ec e = e_ec e1 /\ e_pnum e < e_pnum e1.
Proof.
  unfold entry_lt, entry_before. destruct (Z.ltb_spec (e_ec e) (e_ec e1)), (Z.ltb_spec (e_ec e1) (e_ec e)),
    (Z.ltb_spec (e_pnum e) (e_pnum e1)); cbn; split; intros; try done; try lia.
Qed.

(** A tree in the order of the unit. *)
Definition wl_tree (t : tree ubi_wl_entry) : Prop := rb_tree t /\ StronglySorted entry_lt (elements t).

Abbreviation pnums l := (e_pnum <$> l).

Lemma wl_tree_add_ok e t :
  wl_tree t -> e_pnum e ∉ pnums (elements t) ->
  exists t', wl_tree_add e t = Some t' /\ wl_tree t' /\ elements t' ≡ₚ e :: elements t.
Proof.
  intros [Ht Hs] Hn. destruct (insert_sorted entry_lt (entry_before e) e t Ht Hs) as (t' & ? & ? & ? & ?).
  - intros y z Hyz Hy. change (entry_lt e z). change (entry_lt e y) in Hy. rewrite entry_lt_spec in *. lia.
  - apply Forall_forall. intros y Hy. destruct (entry_before e y) eqn:E; [done|].
    assert (Hne : ~ entry_lt e y) by (unfold entry_lt; by rewrite E). rewrite entry_lt_spec in *.
    assert (e_pnum e <> e_pnum y) by (intros Hp; apply Hn; rewrite Hp; by apply list_elem_of_fmap_2). lia.
  - exists t'. by split_and!.
Qed.

(** Entries with the same number are the same. *)
Definition unique (e : ubi_wl_entry) (l : list ubi_wl_entry) : Prop := forall e', e' ∈ l -> e_pnum e' = e_pnum e -> e' = e.

Lemma wl_tree_del_ok e t :
  wl_tree t -> e ∈ elements t -> unique e (elements t) ->
  exists t', wl_tree_del e t = Some t' /\ wl_tree t' /\ elements t ≡ₚ e :: elements t'.
Proof.
  intros [Ht Hs] Hin Hu. destruct (erase_sorted entry_lt (fun e1 => e_pnum e1 =? e_pnum e) e t Ht Hin) as (t' & ? & ? & ? & ?).
  - by rewrite Z.eqb_refl.
  - intros y Hy Hp. apply Z.eqb_eq in Hp. by apply Hu.
  - exists t'. split_and!; [done|split; auto|done].
Qed.

Lemma in_wl_tree_spec e t :
  StronglySorted entry_lt (elements t) -> unique e (elements t) -> in_wl_tree e t = true <-> e ∈ elements t.
Proof.
  induction t as [|c l IHl x r IHr]; intros Hs Hu; cbn [in_wl_tree elements] in *; [set_solver|].
  apply sorted_split in Hs as (Hl & Hr & Hlx & Hxr). rewrite Forall_forall in Hlx, Hxr.
  assert (Hul : unique e (elements l)) by (intros e' ? ?; apply Hu; set_solver).
  assert (Hur : unique e (elements r)) by (intros e' ? ?; apply Hu; set_solver).
  destruct (Z.eqb_spec (e_pnum e) (e_pnum x)) as [Hp|Hp].
  { split; [|done]. intros _. assert (x = e) as -> by (apply Hu; [set_solver|done]). set_solver. }
  assert (Hne : e <> x) by congruence.
  assert (Hcase : (entry_lt e x -> e ∉ elements r) /\ (entry_lt x e -> e ∉ elements l)).
  { split; intros Hlt Hin; [specialize (Hxr e Hin)|specialize (Hlx e Hin)]; rewrite entry_lt_spec in *; lia. }
  rewrite !entry_lt_spec in Hcase. rewrite elem_of_app, elem_of_cons.
  destruct (Z.ltb_spec (e_ec e) (e_ec x)); [rewrite (IHl Hl Hul)|
    destruct (Z.ltb_spec (e_ec x) (e_ec e)); [rewrite (IHr Hr Hur)|
      destruct (Z.ltb_spec (e_pnum e) (e_pnum x)); [rewrite (IHl Hl Hul)|rewrite (IHr Hr Hur)]]];
    (split; [by auto|]; intros [?|[?|?]]; try done; exfalso; destruct Hcase as [Hc1 Hc2]; first [apply Hc1; [lia|done]|apply Hc2; [lia|done]]).
Qed.

Lemma closest_in t max e : closest t max e ∈ e :: elements t.
Proof.
  revert e. induction t as [|c l IHl x r IHr]; intros e; cbn [closest elements]; [set_solver|].
  destruct (max <=? e_ec x); [specialize (IHl e)|specialize (IHr x)]; set_solver.
Qed.

Lemma rb_first_in {A} (t : tree A) : t <> Leaf -> exists x, rb_first t = Some x /\ x ∈ elements t.
Proof.
  intros Ht. rewrite rb_first_elements. destruct t as [|c l x r]; [done|]. cbn [elements].
  destruct (elements l) as [|y l']; eexists; (split; [done|]); set_solver.
Qed.

Lemma rb_last_in {A} (t : tree A) : t <> Leaf -> exists x, rb_last t = Some x /\ x ∈ elements t.
Proof.
  intros Ht. rewrite rb_last_elements. destruct t as [|c l x r]; [done|]. destruct (last (elements (Node c l x r))) eqn:E.
  - eexists. split; [done|]. by apply last_Some_elem_of in E.
  - apply last_None in E. cbn in E. by destruct (elements l).
Qed.

Lemma find_wl_entry_in t max : t <> Leaf -> exists e, find_wl_entry t max = Some e /\ e ∈ elements t.
Proof.
  intros Ht. destruct (rb_first_in t Ht) as (x & Hx & Hin). unfold find_wl_entry. rewrite Hx. eexists. split; [done|].
  pose proof (closest_in t (s32 (max + e_ec x)) x) as H. apply elem_of_cons in H as [->|H]; done.
Qed.

Lemma is_leaf_spec {A} (t : tree A) : is_leaf t = false <-> t <> Leaf.
Proof. by destruct t. Qed.

Lemma leaf_elements {A} (t : tree A) : is_leaf t = true -> t = Leaf.
Proof. by destruct t. Qed.

(** *** The protection trees *)

Definition prot_lt (a b : ubi_wl_prot_entry) : Prop := e_pnum (pe_e a) < e_pnum (pe_e b).

Abbreviation ppnums l := ((fun pe => e_pnum (pe_e pe)) <$> l).

Lemma prot_search_spec pnum t :
  StronglySorted prot_lt (elements t) -> prot_search pnum t = true <-> pnum ∈ ppnums (elements t).
Proof.
  induction t as [|c l IHl x r IHr]; intros Hs; cbn [prot_search elements] in *; [set_solver|].
  apply sorted_split in Hs as (Hl & Hr & Hlx & Hxr). rewrite Forall_forall in Hlx, Hxr.
  rewrite fmap_app, fmap_cons, elem_of_app, elem_of_cons.
  destruct (Z.eqb_spec pnum (e_pnum (pe_e x))) as [->|Hp]; [split; by auto|].
  assert (Hcase : (pnum < e_pnum (pe_e x) -> pnum ∉ ppnums (elements r)) /\ (e_pnum (pe_e x) < pnum -> pnum ∉ ppnums (elements l))).
  { split; intros Hlt (y & -> & Hin)%list_elem_of_fmap; [specialize (Hxr y Hin)|specialize (Hlx y Hin)]; unfold prot_lt in *; lia. }
  destruct (Z.ltb_spec pnum (e_pnum (pe_e x))); [rewrite (IHl Hl)|rewrite (IHr Hr)];
    (split; [by auto|]; intros [?|[?|?]]; try done; exfalso; destruct Hcase as [Hc1 Hc2]; first [apply Hc1; [lia|done]|apply Hc2; [lia|done]]).
Qed.

(** ** The unit *)

Definition prot_entries (w : wl_unit) : list ubi_wl_entry := pe_e <$> elements (prot_pnum w).
Definition busy (w : wl_unit) : list ubi_wl_entry := elements (used w) ++ elements (scrub w) ++ prot_entries w.
Definition all (w : wl_unit) : list ubi_wl_entry := elements (free w) ++ busy w.

Definition prot_trees (tp ta : tree ubi_wl_prot_entry) : Prop :=
  rb_tree tp /\ StronglySorted prot_lt (elements tp) /\ rb_tree ta /\ elements ta ≡ₚ elements tp.

Section Unit.
Context (g : ubi_geometry).

(** The entry of a block, as the table has it. *)
Definition known (w : wl_unit) (e : ubi_wl_entry) : Prop :=
  lookuptbl w !! e_pnum e = Some e /\ 0 <= e_pnum e < peb_count g /\ 0 <= e_ec e <= UBI_MAX_ERASECOUNTER.

(** The invariant, where [out] are blocks that were taken out of the trees. *)
Record wl_ok (out : list ubi_wl_entry) (w : wl_unit) : Prop := {
  ok_trees : wl_tree (free w) /\ wl_tree (used w) /\ wl_tree (scrub w);
  ok_prot : prot_trees (prot_pnum w) (prot_aec w);
  ok_nodup : NoDup (pnums (out ++ all w));
  ok_known : Forall (known w) (out ++ all w);
}.

Lemma ok_perm out out' w w' :
  wl_ok out w -> wl_tree (free w') /\ wl_tree (used w') /\ wl_tree (scrub w') ->
  prot_trees (prot_pnum w') (prot_aec w') -> lookuptbl w' = lookuptbl w -> out' ++ all w' ≡ₚ out ++ all w -> wl_ok out' w'.
Proof.
  intros [_ _ Hn Hk] Ht Hp Hl Hperm. split; [done|done|by rewrite Hperm|]. rewrite Hperm.
  eapply Forall_impl; [exact Hk|]. intros e. unfold known. by rewrite Hl.
Qed.

Lemma ok_unique out w e : wl_ok out w -> e ∈ out ++ all w -> unique e (out ++ all w).
Proof.
  intros [_ _ _ Hk] He e' He' Hp. rewrite Forall_forall in Hk. destruct (Hk e He) as [H1 _], (Hk e' He') as [H2 _]. congruence.
Qed.

Lemma unique_sub e l l' : unique e l' -> l ⊆ l' -> unique e l.
Proof. intros H Hs e' He' Hp. apply H; [by apply Hs|done]. Qed.

Lemma ok_not_in out w e : wl_ok (e :: out) w -> e_pnum e ∉ pnums (out ++ all w).
Proof. intros [_ _ Hn _]. cbn [app] in Hn. rewrite fmap_cons in Hn. by apply NoDup_cons in Hn as [? _]. Qed.

Lemma ok_range out w e : wl_ok out w -> e ∈ out ++ all w -> 0 <= e_pnum e < peb_count g /\ 0 <= e_ec e <= UBI_MAX_ERASECOUNTER.
Proof. intros [_ _ _ Hk] He. rewrite Forall_forall in Hk. by destruct (Hk e He). Qed.

Lemma sub_app_l {A} (l k : list A) : l ⊆ l ++ k. Proof. set_solver. Qed.
Lemma sub_app_r {A} (l k : list A) : k ⊆ l ++ k. Proof. set_solver. Qed.

Ltac perm := unfold all, busy, prot_entries; cbn [set_used set_free set_scrub set_prot set_lookup free used scrub prot_pnum prot_aec];
  repeat match goal with H : elements _ ≡ₚ _ |- _ => rewrite H; clear H end;
  repeat (rewrite <- ?app_assoc; cbn [app]); rewrite <- ?Permutation_middle; try done.

(** Taking an entry out of a tree of the unit, and adding one. *)
Ltac take_tree H e tree :=
  pose proof (ok_trees _ _ H) as (Hf & Hu & Hs);
  destruct (wl_tree_del_ok e tree) as (t & Ht & Hwt & Hp);
    [done|done|eapply unique_sub; [eapply (ok_unique _ _ e H)|]; unfold all, busy; set_solver|];
  exists t; split; [done|]; split; [done|]; eapply (ok_perm _ _ _ _ H); [done|apply H|done|]; perm.
Ltac add_tree H e tree :=
  pose proof (ok_trees _ _ H) as (Hf & Hu & Hs);
  destruct (wl_tree_add_ok e tree) as (t & Ht & Hwt & Hp);
    [done|pose proof (ok_not_in _ _ _ H) as Hn; unfold all, busy in Hn; rewrite !fmap_app in Hn; set_solver|];
  exists t; split; [done|]; split; [done|]; eapply (ok_perm _ _ _ _ H); [done|apply H|done|]; perm.

Lemma take_free out w e : wl_ok out w -> e ∈ elements (free w) ->
  exists t, wl_tree_del e (free w) = Some t /\ elements (free w) ≡ₚ e :: elements t /\ wl_ok (e :: out) (set_free t w).
Proof. intros H He. take_tree H e (free w). Qed.

Lemma take_used out w e : wl_ok out w -> e ∈ elements (used w) ->
  exists t, wl_tree_del e (used w) = Some t /\ elements (used w) ≡ₚ e :: elements t /\ wl_ok (e :: out) (set_used t w).
Proof. intros H He. take_tree H e (used w). Qed.

Lemma take_scrub out w e : wl_ok out w -> e ∈ elements (scrub w) ->
  exists t, wl_tree_del e (scrub w) = Some t /\ elements (scrub w) ≡ₚ e :: elements t /\ wl_ok (e :: out) (set_scrub t w).
Proof. intros H He. take_tree H e (scrub w). Qed.

Lemma add_free out w e : wl_ok (e :: out) w ->
  exists t, wl_tree_add e (free w) = Some t /\ elements t ≡ₚ e :: elements (free w) /\ wl_ok out (set_free t w).
Proof. intros H. add_tree H e (free w). Qed.

Lemma add_used out w e : wl_ok (e :: out) w ->
  exists t, wl_tree_add e (used w) = Some t /\ elements t ≡ₚ e :: elements (used w) /\ wl_ok out (set_used t w).
Proof. intros H. add_tree H e (used w). Qed.

Lemma add_scrub out w e : wl_ok (e :: out) w ->
  exists t, wl_tree_add e (scrub w) = Some t /\ elements t ≡ₚ e :: elements (scrub w) /\ wl_ok out (set_scrub t w).
Proof. intros H. add_tree H e (scrub w). Qed.

(** *** Protection *)

Lemma ppnums_prot w : ppnums (elements (prot_pnum w)) = pnums (prot_entries w).
Proof. unfold prot_entries. by rewrite <- list_fmap_compose. Qed.

Lemma add_prot out w e n : wl_ok (e :: out) w ->
  exists tp ta, prot_tree_add w e n = Some (set_prot tp ta w) /\ (pe_e <$> elements tp) ≡ₚ e :: prot_entries w
    /\ wl_ok out (set_prot tp ta w).
Proof.
  intros H. destruct (ok_prot _ _ H) as (Hp & Hs & Ha & Hperm). set (pe := Prot (u64 (abs_ec w + n)) e).
  assert (Hne : forall y, y ∈ elements (prot_pnum w) -> e_pnum e <> e_pnum (pe_e y)).
  { intros y Hy Heq. apply (ok_not_in _ _ _ H). unfold all, busy. rewrite !fmap_app, <- ppnums_prot, !elem_of_app. do 4 right.
    rewrite Heq. by apply (list_elem_of_fmap_2 (fun pe => e_pnum (pe_e pe))). }
  destruct (insert_sorted prot_lt (fun pe1 => e_pnum e <? e_pnum (pe_e pe1)) pe _ Hp Hs) as (tp & Ht & Hrb & Hsp & Hpp).
  { intros y z Hyz Hy. unfold prot_lt in *. apply Z.ltb_lt in Hy. apply Z.ltb_lt. lia. }
  { apply Forall_forall. intros y Hy. specialize (Hne y Hy). unfold prot_lt. cbn [pe pe_e].
    destruct (Z.ltb_spec (e_pnum e) (e_pnum (pe_e y))); lia. }
  destruct (rb_insert_elements pe (fun pe1 => pe_abs_ec pe <? pe_abs_ec pe1) _ Ha) as (ta & l1 & l2 & Hta & Hrba & Hl & Hl' & _).
  exists tp, ta. unfold prot_tree_add. fold pe. rewrite Ht. cbn [mbind option_bind]. rewrite Hta. cbn [mbind option_bind].
  assert (Hpe : (pe_e <$> elements tp) ≡ₚ e :: prot_entries w) by (unfold prot_entries; by rewrite Hpp).
  split; [done|]. split; [done|]. eapply (ok_perm _ _ _ _ H); [by apply H| |done|].
  - split_and!; [done|done|done|]. cbn [set_prot prot_pnum prot_aec]. rewrite Hl', Hpp, <- Permutation_middle, <- Hperm, Hl. done.
  - unfold all, busy, prot_entries at 1. cbn [set_prot free used scrub prot_pnum]. rewrite Hpe.
    repeat (rewrite <- ?app_assoc; cbn [app]); by rewrite <- ?Permutation_middle.
Qed.

Lemma prot_del_ok (R : ubi_wl_prot_entry -> ubi_wl_prot_entry -> Prop) t pe :
  rb_tree t -> pe ∈ elements t -> (forall y, y ∈ elements t -> e_pnum (pe_e y) = e_pnum (pe_e pe) -> y = pe) ->
  exists t', prot_del (e_pnum (pe_e pe)) t = Some t' /\ rb_tree t' /\ (StronglySorted R (elements t) -> StronglySorted R (elements t'))
    /\ elements t ≡ₚ pe :: elements t'.
Proof.
  intros Ht Hin Hu. unfold prot_del. apply (erase_sorted R); [done|done|by rewrite Z.eqb_refl|].
  intros y Hy Hp. apply Z.eqb_eq in Hp. by apply Hu.
Qed.

Lemma take_prot out w pe : wl_ok out w -> pe ∈ elements (prot_pnum w) ->
  exists tp ta, prot_del (e_pnum (pe_e pe)) (prot_aec w) = Some ta /\ prot_del (e_pnum (pe_e pe)) (prot_pnum w) = Some tp
    /\ prot_entries w ≡ₚ pe_e pe :: (pe_e <$> elements tp) /\ wl_ok (pe_e pe :: out) (set_prot tp ta w)
    /\ (length (elements ta) < length (elements (prot_aec w)))%nat.
Proof.
  intros H He. destruct (ok_prot _ _ H) as (Hp & Hs & Ha & Hperm).
  assert (Hu : forall y, y ∈ elements (prot_pnum w) -> e_pnum (pe_e y) = e_pnum (pe_e pe) -> y = pe).
  { intros y Hy Heq. pose proof (ok_nodup _ _ H) as Hn. unfold all, busy in Hn. rewrite !fmap_app, <- ppnums_prot in Hn.
    rewrite !NoDup_app in Hn. destruct Hn as (_ & _ & _ & _ & _ & _ & _ & _ & Hn).
    apply list_elem_of_lookup in Hy as [i Hi], He as [j Hj].
    assert (i = j) as ->; [|congruence].
    eapply NoDup_lookup; [exact Hn|rewrite list_lookup_fmap, Hi; done|rewrite list_lookup_fmap, Hj; cbn; by rewrite Heq]. }
  destruct (prot_del_ok prot_lt (prot_pnum w) pe Hp He Hu) as (tp & Htp & Hrp & Hsp & Hpp).
  destruct (prot_del_ok prot_lt (prot_aec w) pe Ha) as (ta & Hta & Hra & _ & Hpa);
    [by rewrite Hperm|intros y Hy; apply Hu; by rewrite <- Hperm|].
  exists tp, ta. split; [done|]. split; [done|].
  assert (Hpe : prot_entries w ≡ₚ pe_e pe :: (pe_e <$> elements tp)) by (unfold prot_entries; by rewrite Hpp).
  split; [done|]. split; [|rewrite Hpa; cbn; lia]. eapply (ok_perm _ _ _ _ H); [by apply H| |done|].
  - split_and!; [done|by apply Hsp|done|]. cbn [set_prot prot_pnum prot_aec]. apply (Permutation_cons_inv (a := pe)). by rewrite <- Hpa, <- Hpp.
  - unfold all, busy. cbn [set_prot free used scrub prot_pnum]. rewrite Hpe. unfold prot_entries at 1. cbn [prot_pnum].
    repeat (rewrite <- ?app_assoc; cbn [app]); by rewrite <- ?Permutation_middle.
Qed.

Lemma prot_tree_del_ok out w e : wl_ok out w -> e ∈ prot_entries w ->
  exists tp ta, prot_tree_del w (e_pnum e) = Some (0, set_prot tp ta w)
    /\ prot_entries w ≡ₚ e :: (pe_e <$> elements tp) /\ wl_ok (e :: out) (set_prot tp ta w).
Proof.
  intros H He. apply list_elem_of_fmap in He as (pe & -> & Hin).
  destruct (take_prot out w pe H Hin) as (tp & ta & Hta & Htp & Hp & Hok & _). exists tp, ta. unfold prot_tree_del.
  assert (Hs : prot_search (e_pnum (pe_e pe)) (prot_pnum w) = true)
    by (apply prot_search_spec; [by apply (ok_prot _ _ H)|by apply (list_elem_of_fmap_2 (fun pe => e_pnum (pe_e pe)))]).
  rewrite Hs, Hta. cbn [mbind option_bind]. by rewrite Htp.
Qed.

(** Everything about the unit but its trees and counters. *)
Definition same_rest (w w' : wl_unit) : Prop :=
  works w' = works w /\ move_from w' = move_from w /\ move_to w' = move_to w /\ move_to_put w' = move_to_put w.

Lemma protection_over_ok out fuel : forall w, wl_ok out w -> (tree_size (prot_aec w) < fuel)%nat ->
  exists w', protection_over fuel w = Some w' /\ wl_ok out w' /\ free w' = free w /\ scrub w' = scrub w
    /\ busy w' ≡ₚ busy w /\ same_rest w w'.
Proof.
  induction fuel as [|fuel IH]; intros w H Hf; [lia|]. cbn [protection_over].
  destruct (rb_first (prot_aec w)) as [pe|] eqn:E; [|by exists w].
  destruct (abs_ec w <? pe_abs_ec pe); [by exists w|].
  assert (Hin : pe ∈ elements (prot_pnum w)).
  { destruct (ok_prot _ _ H) as (_ & _ & _ & <-). destruct (rb_first_in (prot_aec w)) as (x & Hx & ?); [by destruct (prot_aec w)|congruence]. }
  destruct (take_prot out w pe H Hin) as (tp & ta & Hta & Htp & Hp & Hok & Hlen). rewrite Hta, Htp. cbn [mbind option_bind].
  destruct (add_used out (set_prot tp ta w) (pe_e pe) Hok) as (t & Ht & Hpt & Hok'). cbn [set_prot used] in Ht, Hpt. rewrite Ht.
  cbn [mbind option_bind]. destruct (IH (set_used t (set_prot tp ta w)) Hok') as (w' & Hw' & Hok2 & Hfr & Hsc & Hbusy & Hrest);
    [cbn; unfold tree_size in *; lia|]. exists w'. split_and!; try done.
  rewrite Hbusy. unfold busy. cbn [set_used set_prot used scrub]. rewrite Hpt, Hp. unfold prot_entries. cbn [set_used set_prot prot_pnum].
  cbn [app]. by rewrite <- !Permutation_middle.
Qed.

(** An entry outside of the trees gets a new counter, or is freed. *)
Lemma bump_out out w e e' a b : wl_ok (e :: out) w -> e_pnum e' = e_pnum e -> 0 <= e_ec e' <= UBI_MAX_ERASECOUNTER ->
  wl_ok (e' :: out) (set_counters a b (set_lookup (<[e_pnum e' := e']> (lookuptbl w)) w)).
Proof.
  intros H Hp Hec. pose proof (ok_not_in _ _ _ H) as Hn. destruct H as [Ht Hpr Hnd Hk]. constructor; [done|done|change (NoDup (e_pnum e' :: pnums (out ++ all w))); by rewrite Hp|].
  cbn [app] in *. apply Forall_cons in Hk as [(_ & Hr & _) Hk].
  apply Forall_cons. split; [unfold known; rewrite Hp; cbn; by rewrite lookup_insert_eq|].
  rewrite Forall_forall in Hk |- *. intros x Hx. destruct (Hk x Hx) as (Hl & ?). split; [|done]. cbn.
  rewrite lookup_insert_ne; [done|]. intros Heq. apply Hn. rewrite <- Hp, Heq. by apply list_elem_of_fmap_2.
Qed.

Lemma drop_out out w e : wl_ok (e :: out) w -> wl_ok out (set_lookup (delete (e_pnum e) (lookuptbl w)) w).
Proof.
  intros H. pose proof (ok_not_in _ _ _ H) as Hn. destruct H as [Ht Hpr Hnd Hk]. cbn [app] in *.
  apply Forall_cons in Hk as [_ Hk]. split; [done|done|rewrite fmap_cons in Hnd; by apply NoDup_cons in Hnd as [_ ?]|].
  change (all (set_lookup _ w)) with (all w). rewrite Forall_forall in Hk |- *. intros x Hx. destruct (Hk x Hx) as (Hl & ?).
  split; [|done]. cbn. rewrite lookup_delete_ne; [done|]. intros Heq. apply Hn. rewrite Heq. by apply list_elem_of_fmap_2.
Qed.

(** The busy blocks when one of their trees changes. *)
Lemma busy_used w t e : elements (used w) ≡ₚ e :: elements t -> busy w ≡ₚ e :: busy (set_used t w).
Proof. intros H. unfold busy. cbn [set_used used scrub]. by rewrite H. Qed.

Lemma busy_scrub w t e : elements (scrub w) ≡ₚ e :: elements t -> busy w ≡ₚ e :: busy (set_scrub t w).
Proof.
  intros H. unfold busy. cbn [set_scrub used scrub]. rewrite H. cbn [app]. by rewrite <- Permutation_middle.
Qed.

Lemma busy_prot w tp ta e : prot_entries w ≡ₚ e :: (pe_e <$> elements tp) -> busy w ≡ₚ e :: busy (set_prot tp ta w).
Proof.
  intros H. unfold busy. rewrite H. unfold prot_entries. cbn [set_prot used scrub prot_pnum].
  by rewrite <- !Permutation_middle.
Qed.

Lemma used_busy w e : e ∈ elements (used w) -> e ∈ busy w.
Proof. unfold busy. rewrite !elem_of_app. auto. Qed.
Lemma scrub_busy w e : e ∈ elements (scrub w) -> e ∈ busy w.
Proof. unfold busy. rewrite !elem_of_app. auto. Qed.

(** A busy entry is where the searches of the unit find it. *)
Lemma where_busy out w e : wl_ok out w -> e ∈ busy w ->
  lookuptbl w !! e_pnum e = Some e
  /\ (in_wl_tree e (used w) = true /\ e ∈ elements (used w)
      \/ in_wl_tree e (used w) = false
         /\ (in_wl_tree e (scrub w) = true /\ e ∈ elements (scrub w)
             \/ in_wl_tree e (scrub w) = false /\ e ∈ prot_entries w)).
Proof.
  intros H He. assert (Hin : e ∈ out ++ all w) by (unfold all; rewrite !elem_of_app; auto).
  pose proof (ok_known _ _ H) as Hk. rewrite Forall_forall in Hk. destruct (Hk e Hin) as (Hl & _). split; [done|].
  destruct (ok_trees _ _ H) as (_ & [_ Hsu] & [_ Hss]). pose proof (ok_unique _ _ _ H Hin) as Hu.
  assert (Hsub : elements (used w) ⊆ out ++ all w /\ elements (scrub w) ⊆ out ++ all w)
    by (unfold all, busy; split; intros x; rewrite !elem_of_app; tauto).
  pose proof (in_wl_tree_spec e (used w) Hsu (unique_sub _ _ _ Hu (proj1 Hsub))) as Hiu.
  pose proof (in_wl_tree_spec e (scrub w) Hss (unique_sub _ _ _ Hu (proj2 Hsub))) as His.
  unfold busy in He. rewrite !elem_of_app in He.
  destruct (in_wl_tree e (used w)) eqn:Eu; [left; split; [done|by apply Hiu]|right; split; [done|]].
  destruct (in_wl_tree e (scrub w)) eqn:Es; [left; split; [done|by apply His]|right; split; [done|]].
  destruct He as [He|[He|He]]; [by apply Hiu in He|by apply His in He|done].
Qed.

(** ** The measure of the works *)

Definition total (l : list ubi_wl_entry) : Z := foldr (fun e n => e_ec e + n) 0 l.

#[export] Instance total_proper : Proper (Permutation ==> eq) total.
Proof. intros l l' H. unfold total. induction H; cbn; lia. Qed.

Lemma total_nonneg out w l : wl_ok out w -> l ⊆ out ++ all w -> 0 <= total l.
Proof.
  intros H Hl. induction l as [|e l IH]; cbn; [lia|]. destruct (ok_range _ _ e H) as [_ ?]; [apply Hl; set_solver|].
  specialize (IH ltac:(set_solver)). unfold total in *. lia.
Qed.

End Unit.

End UbiWlSpec.
