(* ===== verification/UbiWorks.v ===== *)
(** * The works keep the data

    What the wear-levelling unit, the erase-block association and the flash
    hold together ([dev_ok]); erasing, moving and the chain of works they start
    end and leave every logical erase block with its data ([keeps]).  Blocks
    are handed out empty and taken back. *)

From stdpp Require Import gmap.
From S2P Require Import Prelude Crc32 Cstring Vsprintf Rbtree Ubi UbiIo UbiWl UbiWlSpec.

Module UbiWorks.
Import Vsprintf Rbtree Ubi UbiIo UbiWl UbiWlSpec.

Section Works.
Context {M : Type} `{!Mtd M} (g : ubi_geometry) `{!MtdOk M g} (Hg : wf_geometry g).

#[local] Abbreviation dev := (device M).
#[local] Abbreviation aloff := (Z.to_nat (vid_hdr_aloffset g)).
#[local] Abbreviation block u p := (peb (mtd u) p).
#[local] Abbreviation empty u p := (blank (drop aloff (block u p))).

(** ** The contents of the device *)

Definition mapped (u : dev) (v l p : Z) : Prop := eba_tbl (eba u) !! (v, l) = Some p.
Definition unmapped (u : dev) (p : Z) : Prop := forall v l, ~ mapped u v l p.

#[local] Abbreviation start := (Z.to_nat (leb_start g)).

(** The bytes of an erase block that belong to its volume, and how many of them
    may be other than 0xff. *)
Definition data_len (h : ubi_vid_hdr) : Z := leb_size g - vid_data_pad h.

Definition used_len (h : ubi_vid_hdr) : Z :=
  if vid_vol_type h =? UBI_VID_STATIC then ALIGN (vid_data_size h) (min_io_size g) else data_len h.

Definition data_of (blk : list Z) : list Z :=
  sub blk start (Z.to_nat (data_len (hdr_at g blk))).

(** The contents of a logical erase block. *)
Definition leb (u : dev) (v l : Z) : option (list Z) := (fun p => data_of (block u p)) <$> eba_tbl (eba u) !! (v, l).

(** A header for block [l] of volume [v] with sizes that fit. *)
Record fits (v l : Z) (h : ubi_vid_hdr) : Prop := {
  fits_id : vid_vol_id h = v /\ vid_lnum h = l /\ 0 <= v < 2 ^ 31 /\ 0 <= l < 2 ^ 31;
  fits_pad : 0 <= vid_data_pad h < leb_size g /\ (min_io_size g | vid_data_pad h);
  fits_type : vid_vol_type h = UBI_VID_DYNAMIC
              \/ vid_vol_type h = UBI_VID_STATIC /\ 0 < vid_data_size h <= data_len h;
}.

Record held (v l : Z) (blk : list Z) : Prop := {
  held_hdr : has_hdr g blk (hdr_at g blk);
  held_fits : fits v l (hdr_at g blk);
  held_tail : forall i, used_len (hdr_at g blk) <= Z.of_nat i < data_len (hdr_at g blk) -> nth (start + i) blk 0 = 0xff;
}.

(** ** The invariant

    [out] are entries taken out of the trees, [loose] blocks that were handed
    out and are not mapped yet or no longer.  In read-only mode the unit may
    have given up blocks that are mapped; it does not write any more. *)

Record live (out : list ubi_wl_entry) (loose : list Z) (u : dev) : Prop := {
  live_free : Forall (fun e => empty u (e_pnum e)) (elements (free (wl u)));
  live_mapped : forall v l p, mapped u v l p -> p ∈ pnums (out ++ busy (wl u));
  live_busy : Forall (fun e => e_pnum e ∈ loose \/ exists v l, mapped u v l (e_pnum e)) (busy (wl u));
}.

Record dev_ok (out : list ubi_wl_entry) (loose : list Z) (u : dev) : Prop := {
  dev_wl : wl_ok g out (wl u);
  dev_sqnum : in_word 64 (global_sqnum (eba u));
  dev_eba : forall v l p, mapped u v l p -> 0 <= p < peb_count g /\ held v l (block u p) /\ v ∈ present (eba u);
  dev_live : ro u = false -> live out loose u;
}.

(** What stays. *)
Record keeps (u u' : dev) : Prop := {
  keep_leb v l : leb u' v l = leb u v l;
  keep_present : present (eba u') = present (eba u);
  keep_vtbl : vtbl u' = vtbl u;
  keep_ro : ro u = true -> ro u' = true;
  keep_flips : flips (mtd u') <= flips (mtd u);
}.

#[global] Instance keeps_preorder : PreOrder keeps.
Proof.
  split; [by split|]. intros u1 u2 u3 [? ? ? ? ?] [? ? ? ? ?]. split; [intros; etransitivity; eauto|congruence|congruence|auto|lia].
Qed.

(** Different erase blocks are in different blocks of the flash. *)
Lemma held_unique v l v' l' blk : held v l blk -> held v' l' blk -> v = v' /\ l = l'.
Proof. intros [_ [(<- & <- & _) _ _] _] [_ [(<- & <- & _) _ _] _]. done. Qed.

Lemma mapped_unique out loose u v l v' l' p : dev_ok out loose u -> mapped u v l p -> mapped u v' l' p -> v = v' /\ l = l'.
Proof.
  intros H H1 H2. destruct (dev_eba _ _ _ H _ _ _ H1) as (_ & Hh & _), (dev_eba _ _ _ H _ _ _ H2) as (_ & Hh' & _).
  by eapply held_unique.
Qed.

Lemma eba_lookup_mapped u v l p : eba_lookup u v l = p -> 0 <= p -> mapped u v l p.
Proof. unfold eba_lookup, mapped. destruct (_ !! _); cbn; intros <- ?; [done|vm_compute in *; done]. Qed.

Lemma mapped_lookup u v l p : mapped u v l p -> eba_lookup u v l = p.
Proof. unfold eba_lookup, mapped. by intros ->. Qed.

(** A block that is free, or in another place of the unit, is not mapped. *)
Lemma free_unmapped out loose u e : dev_ok out loose u -> ro u = false -> e ∈ elements (free (wl u)) -> unmapped u (e_pnum e).
Proof.
  intros H Hro He v l Hm. pose proof (live_mapped _ _ _ (dev_live _ _ _ H Hro) _ _ _ Hm) as Hin.
  pose proof (ok_nodup _ _ _ (dev_wl _ _ _ H)) as Hn. unfold all in Hn. rewrite fmap_app, (fmap_app _ (elements _)) in Hn. rewrite fmap_app in Hin.
  rewrite !NoDup_app in Hn. destruct Hn as (_ & Hn1 & _ & Hn2 & _). apply (list_elem_of_fmap_2 e_pnum) in He.
  apply elem_of_app in Hin as [Hin|Hin]; [by eapply Hn1; [exact Hin|]; apply elem_of_app; left|by eapply Hn2].
Qed.

(** ** Changes that keep the invariant *)

Lemma dev_mtd out loose u m :
  dev_ok out loose u -> flips m <= flips (mtd u) -> (forall v l p, mapped u v l p -> peb m p = block u p) ->
  (ro u = false -> Forall (fun e => peb m (e_pnum e) = block u (e_pnum e)) (elements (free (wl u)))) ->
  dev_ok out loose (set_mtd m u) /\ keeps u (set_mtd m u).
Proof.
  intros [H1 H3 H4 H5] Hfl Hm Hf. split.
  - split; [done..| |].
    + intros v l p Hp. change (mapped u v l p) in Hp. cbn [set_mtd mtd eba]. rewrite (Hm _ _ _ Hp). by apply H4.
    + intros Hro. destruct (H5 Hro) as [L1 L2 L3]. split; [|done|done]. cbn [set_mtd mtd wl].
      specialize (Hf Hro). rewrite Forall_forall in *. intros e He. rewrite Hf by done. by apply L1.
  - split; [|done..]. intros v l. unfold leb. cbn [set_mtd mtd eba]. destruct (eba_tbl (eba u) !! (v, l)) as [p|] eqn:E; [|done].
    cbn. by rewrite (Hm v l p E).
Qed.

(** Nothing changed on the flash. *)
Lemma dev_read out loose u m :
  dev_ok out loose u -> flips m <= flips (mtd u) -> (forall q, peb m q = block u q) -> dev_ok out loose (set_mtd m u) /\ keeps u (set_mtd m u).
Proof. intros H Hfl Hm. apply dev_mtd; [done|done|by intros|]. intros _. apply Forall_forall. by intros. Qed.

(** A block changed that is neither mapped nor free. *)
Lemma dev_write out loose u m e :
  dev_ok out loose u -> only g (e_pnum e) (mtd u) m -> unmapped u (e_pnum e) -> e_pnum e ∉ pnums (elements (free (wl u))) ->
  dev_ok out loose (set_mtd m u) /\ keeps u (set_mtd m u).
Proof.
  intros H [Hfl Hm] Hu Hf. apply dev_mtd; [done|done| |].
  - intros v l p Hp. apply Hm; [by apply (dev_eba _ _ _ H _ _ _ Hp)|]. intros ->. by apply (Hu v l).
  - intros _. apply Forall_forall. intros e' He. apply Hm.
    + eapply ok_range; [apply H|]. apply elem_of_app. right. unfold all. by apply elem_of_app; left.
    + intros Heq. apply Hf. rewrite <- Heq. by apply list_elem_of_fmap_2.
Qed.

(** The trees of the unit changed. *)
Lemma dev_unit out loose out' loose' u w :
  dev_ok out loose u -> wl_ok g out' w ->
  (ro u = false -> live out loose u -> live out' loose' (set_wl w u)) -> dev_ok out' loose' (set_wl w u) /\ keeps u (set_wl w u).
Proof.
  intros [H1 H3 H4 H5] Hw Hl. split; [|by split]. split; [done..|by auto].
Qed.

Lemma dev_ro out loose u : dev_ok out loose u -> dev_ok out loose (ubi_ro_mode u) /\ keeps u (ubi_ro_mode u).
Proof. intros [H1 H3 H4 _]. split; [|by split]. by split. Qed.

Lemma dev_pools out loose u p : dev_ok out loose u -> dev_ok out loose (set_pools p u) /\ keeps u (set_pools p u).
Proof. intros [H1 H3 H4 H5]. split; [|by split]. split; [done..|]. intros Hro. destruct (H5 Hro). by split. Qed.

Lemma dev_next out loose u sq u' : dev_ok out loose u -> next_sqnum u = (sq, u') ->
  dev_ok out loose u' /\ keeps u u' /\ in_word 64 sq /\ mtd u' = mtd u /\ wl u' = wl u /\ ro u' = ro u
  /\ eba_tbl (eba u') = eba_tbl (eba u).
Proof.
  intros [H1 H3 H4 H5] Hn. unfold next_sqnum in Hn. apply pair_equal_spec in Hn as [<- <-]. split_and!; try done.
  split; [done|by apply wrap_in_word|done|]. intros Hro. destruct (H5 Hro). by split.
Qed.

(** An entry taken out is not in a tree. *)
Lemma out_not_free out loose u e : dev_ok (e :: out) loose u -> e_pnum e ∉ pnums (elements (free (wl u))).
Proof.
  intros H Hin. apply (ok_not_in g _ _ _ (dev_wl _ _ _ H)). unfold all. rewrite !fmap_app, !elem_of_app. auto.
Qed.

Lemma out_range out loose u e : dev_ok (e :: out) loose u -> 0 <= e_pnum e < peb_count g /\ 0 <= e_ec e <= UBI_MAX_ERASECOUNTER.
Proof. intros H. eapply ok_range; [apply H|]. by left. Qed.

(** ** Erasing *)

(** The number of erasures of one [sync_erase]. *)
Definition wear (torture : bool) : Z := if torture then 4 else 1.

Lemma peb_size_pos : 0 < peb_size g.
Proof.
  destruct (wf_leb g Hg) as (? & ? & ?), (wf_ec g Hg), (wf_shift g Hg). pose proof (wf_start g Hg).
  unfold UBI_VID_HDR_SIZE, UBI_EC_HDR_SIZE in *. lia.
Qed.

Lemma sync_erase_ok out loose u e torture err e' u' :
  dev_ok (e :: out) loose u -> unmapped u (e_pnum e) -> sync_erase g u e torture = (err, e', u') ->
  keeps u u' /\ dev_ok (e' :: out) loose u' /\ unmapped u' (e_pnum e') /\ e_pnum e' = e_pnum e /\ same_rest (wl u) (wl u')
  /\ (hard err /\ e' = e
      \/ err = 0 /\ ro u = false /\ ro u' = false /\ e_ec e' = e_ec e + wear torture /\ empty u' (e_pnum e')
         /\ flips (mtd u') <= flips (mtd u) /\ free (wl u') = free (wl u) /\ scrub (wl u') = scrub (wl u)).
Proof.
  intros H Hu Hs. unfold sync_erase in Hs. destruct (out_range _ _ _ _ H) as [Hp Hec]. pose proof (out_not_free _ _ _ _ H) as Hf.
  destruct (ubi_io_sync_erase g (ro u) (mtd u) (e_pnum e) torture) as [err1 m1] eqn:E1.
  apply (ubi_io_sync_erase_ok g) in E1 as (Ho1 & _ & C1); [|done|apply peb_size_pos].
  destruct (dev_write _ _ u m1 e H Ho1 Hu Hf) as [H1 K1].
  destruct (Z.ltb_spec err1 0) as [|Hge].
  { injection Hs as <- <- <-. split_and!; try done. left. split; [|done]. destruct C1 as [?|(-> & _)]; [done|by destruct torture]. }
  destruct C1 as [[? _]|(-> & Hro & Hb1)]; [lia|]. fold (wear torture) in *.
  assert (Hw : u64 (e_ec e + wear torture) = e_ec e + wear torture).
  { apply wrap_small. unfold in_word, UBI_MAX_ERASECOUNTER, wear in *. destruct torture; lia. }
  rewrite Hw in Hs. destruct (Z.ltb_spec UBI_MAX_ERASECOUNTER (e_ec e + wear torture)) as [|Hmax].
  { injection Hs as <- <- <-. split_and!; try done. left. split; [apply hard_EINVAL|done]. }
  cbn [set_mtd ro mtd] in Hs.
  destruct (ubi_io_write_ec_hdr _ _ _ _ _) as [err2 m2] eqn:E2 in Hs.
  apply (ubi_io_write_ec_hdr_ok g Hg) in E2 as (Ho2 & _ & C2); [|done|done|done].
  destruct (dev_write _ _ (set_mtd m1 u) m2 e H1 Ho2 Hu Hf) as [H2 K2].
  destruct (Z.eqb_spec err2 0) as [->|Hne]; cbn [negb] in Hs.
  - destruct C2 as [[? _]|(_ & _ & Hb2)]; [lia|]. injection Hs as <- <- <-. specialize (Hb2 Hb1).
    set (e' := Entry (e_ec e + wear torture) (e_pnum e)). cbn [set_mtd wl] in *.
    split; [|split; [|split_and!; try done]].
    + transitivity (set_mtd m1 u); [done|]. etransitivity; [exact K2|]. by split.
    + destruct H2 as [W S E L]. split; [|done|done|].
      * apply (bump_out g out (wl u) e e'); [done|done|cbn; unfold wear in *; destruct torture; lia].
      * intros Hr. destruct (L Hr) as [L1 L2 L3]. by split.
    + right. split_and!; try done. cbn. destruct Ho1, Ho2. lia.
  - injection Hs as <- <- <-. split; [by transitivity (set_mtd m1 u)|]. split_and!; try done. left.
    split; [|done]. destruct C2 as [?|[? _]]; [done|lia].
Qed.

(** Giving up an entry. *)
Lemma dev_drop out loose u e : dev_ok (e :: out) loose u -> (ro u = false -> unmapped u (e_pnum e)) ->
  dev_ok out loose (free_entry e u) /\ keeps u (free_entry e u).
Proof.
  intros H Hu. apply dev_unit with (1 := H); [by apply drop_out, H|].
  intros Hro [L1 L2 L3]. split; [done| |done]. intros v l p Hp. specialize (L2 v l p Hp). cbn [app] in L2.
  rewrite fmap_cons in L2. apply elem_of_cons in L2 as [->|L2]; [|done]. by destruct (Hu Hro v l).
Qed.

Lemma erase_failed_ok out loose u e err :
  dev_ok (e :: out) loose u -> unmapped u (e_pnum e) -> hard err ->
  exists err' u', erase_failed g u e err = Some (err', u') /\ dev_ok out loose u' /\ keeps u u' /\ same_rest (wl u) (wl u').
Proof.
  intros H Hu (_ & _ & Ht). unfold erase_failed.
  destruct (dev_drop out loose u e H ltac:(done)) as [H1 K1]. set (u1 := free_entry e u) in *.
  assert (Hro : forall (err : Z) (u2 : dev), dev_ok out loose u2 -> keeps u1 u2 -> same_rest (wl u) (wl u2) ->
    exists err' u', Some (err, ubi_ro_mode u2) = Some (err', u') /\ dev_ok out loose u' /\ keeps u u' /\ same_rest (wl u) (wl u')).
  { intros err2 u2 H2 K2 R2. destruct (dev_ro _ _ _ H2) as [? K3]. do 2 eexists. split; [done|]. split; [done|]. split; [|done].
    transitivity u1; [done|]. by transitivity u2. }
  unfold transient in Ht. destruct (Z.eqb_spec err (- EINTR)); [tauto|]. destruct (Z.eqb_spec err (- ENOMEM)); [tauto|].
  destruct (Z.eqb_spec err (- EAGAIN)); [tauto|]. destruct (Z.eqb_spec err (- EBUSY)); [tauto|]. cbn [orb].
  destruct (err =? - EIO); [cbn [negb]|by apply Hro]. destruct (bad_allowed g) eqn:Hbad; [cbn [negb]|by apply Hro].
  destruct (dev_pools out loose u1 (reserve_for_bad (pools u1)) H1) as [H2 K2]. set (u2 := set_pools _ u1) in *.
  destruct (beb_rsvd_pebs (pools u2) =? 0); [by apply Hro|].
  destruct (ubi_io_mark_bad g (ro u2) (mtd u2) (e_pnum e)) as [err2 m2] eqn:E2.
  assert (Ho : only g (e_pnum e) (mtd u2) m2).
  { unfold ubi_io_mark_bad in E2. destruct (ro u2); [by injection E2 as <- <-|]. rewrite Hbad in E2. cbn [negb] in E2.
    by apply mtd_markbad_ok in E2; [|by apply (out_range _ _ _ _ H)]. }
  destruct (dev_write out loose u2 m2 e H2 Ho Hu (out_not_free _ _ _ _ H)) as [H3 K3].
  assert (K13 : keeps u1 (set_mtd m2 u2)) by (by transitivity u2).
  destruct (negb (err2 =? 0)); [by apply Hro|].
  destruct (dev_pools out loose _ (one_bad (pools (set_mtd m2 u2))) H3) as [H4 K4].
  do 2 eexists. split; [done|]. split; [exact H4|]. split; [|done]. transitivity u1; [done|]. etransitivity; [exact K13|exact K4].
Qed.

(** ** Moving a block *)

(** The data that was not copied is blank on both sides. *)
Lemma copied_data old blk (ls n ds : nat) :
  (ls + ds <= length old)%nat -> length blk = length old -> blank (drop ls blk) -> (n <= ds)%nat ->
  (forall i, (n <= i < ds)%nat -> nth (ls + i) old 0 = 0xff) ->
  sub (overwrite blk ls (sub old ls n)) ls ds = sub old ls ds.
Proof.
  intros Ho Hl Hb Hn Hff. assert (Hsn : length (sub old ls n) = n) by (apply length_sub; lia).
  unfold sub at 1. unfold overwrite. rewrite drop_app_length' by (rewrite length_take; lia).
  change (sub old ls ds) with (take ds (drop ls old)).
  apply list_eq. intros i. destruct (decide (i < ds)%nat) as [Hi|Hi]; [|rewrite !lookup_take_ge by lia; done].
  rewrite !lookup_take_lt by done. rewrite lookup_drop. destruct (decide (i < n)%nat) as [Hin|Hin].
  - rewrite lookup_app_l by lia. unfold sub. by rewrite lookup_take_lt, lookup_drop by done.
  - rewrite lookup_app_r by lia. rewrite Hsn, lookup_drop. replace (ls + n + (i - n))%nat with (ls + i)%nat by lia.
    destruct (lookup_lt_is_Some_2 old (ls + i) ltac:(lia)) as [x Hx]. rewrite Hx.
    apply (nth_lookup_Some _ _ 0) in Hx. rewrite Hff in Hx by lia. subst x. rewrite <- lookup_drop.
    destruct (lookup_lt_is_Some_2 (drop ls blk) i ltac:(rewrite length_drop; lia)) as [y Hy]. rewrite Hy.
    f_equal. by apply (Forall_lookup_1 _ _ _ _ Hb Hy).
Qed.

(** Data behind the headers leaves them alone. *)
Lemma hdr_overwrite blk k data : (start <= k <= length blk)%nat -> hdr_at g (overwrite blk k data) = hdr_at g blk.
Proof.
  intros Hl. unfold hdr_at. f_equal. apply sub_overwrite_other; [lia|left].
  pose proof (wf_vid g Hg). pose proof (wf_start g Hg). destruct (wf_shift g Hg), (wf_ec g Hg).
  unfold UBI_VID_HDR_SIZE, UBI_EC_HDR_SIZE in *. lia.
Qed.

Lemma has_hdr_overwrite blk k data h : (start <= k <= length blk)%nat -> has_hdr g blk h -> has_hdr g (overwrite blk k data) h.
Proof.
  intros Hl (H1 & H2 & H3). pose proof (hdr_overwrite blk k data Hl) as Hh.
  split; [by rewrite Hh|]. split; [|done]. rewrite sub_overwrite_other; [done|lia|left].
  pose proof (wf_vid g Hg). pose proof (wf_start g Hg). destruct (wf_shift g Hg), (wf_ec g Hg).
  unfold UBI_VID_HDR_SIZE, UBI_EC_HDR_SIZE in *. lia.
Qed.

(** The header of a block that [held] something is read back. *)
Lemma read_hdr_ok u p v l err b m : 0 <= p < peb_count g -> held v l (block u p) ->
  ubi_io_read_vid_hdr g (mtd u) p = (err, b, m) ->
  (forall q, peb m q = block u q) /\ flips m <= flips (mtd u)
  /\ (hard err \/ (err = 0 \/ err = UBI_IO_BITFLIPS /\ flips m < flips (mtd u))
                 /\ b = vid_buf_of g (sub (block u p) aloff (Z.to_nat (vid_hdr_alsize g)))).
Proof.
  intros Hp [Hh _ _] Hr. apply (ubi_io_read_vid_hdr_ok g Hg) in Hr as (Hs & Hf & Hc); [|done]. split_and!; [done|done|].
  destruct Hc as [?|[-> Hc]]; [by left|]. destruct (Hc ltac:(apply Hh)) as [?|[?|[?|[_ ?]]]]; [right; by auto|right; by auto|by left|done].
Qed.

Lemma data_len_bounds v l h : fits v l h -> 0 < data_len h <= leb_size g.
Proof. intros [_ [? _] _]. unfold data_len. lia. Qed.

Lemma min_io_pow : exists k, 0 <= k /\ min_io_size g = 2 ^ k.
Proof. apply (wf_min_io g Hg). Qed.

Lemma align_data v l h x : fits v l h -> 0 <= x <= data_len h -> x <= ALIGN x (min_io_size g) <= data_len h.
Proof.
  intros Hf Hx. destruct min_io_pow as (k & Hk & Hm). destruct (fits_pad _ _ _ Hf) as [_ Hd].
  assert (Hdl : (min_io_size g | data_len h)) by (apply Z.divide_sub_r; [apply (wf_leb_io g Hg)|done]).
  rewrite Hm in *. by apply ALIGN_bounds.
Qed.

Lemma used_len_bounds v l h : fits v l h -> 0 < used_len h <= data_len h.
Proof.
  intros Hf. pose proof (data_len_bounds v l h Hf). unfold used_len. destruct (fits_type _ _ _ Hf) as [->|[-> ?]]; cbn; [lia|].
  pose proof (align_data v l h (vid_data_size h) Hf ltac:(lia)). lia.
Qed.

(** The header of the copy. *)
Definition copy_hdr (h : ubi_vid_hdr) (data_size : Z) (data : list Z) (sq : Z) : ubi_vid_hdr :=
  let h := if 0 <? data_size
           then VidHdr (vid_magic h) (vid_version h) (vid_vol_type h) 1 (vid_compat h) (vid_vol_id h) (vid_lnum h)
                  (vid_leb_ver h) data_size (vid_used_ebs h) (vid_data_pad h) (crc32 UBI_CRC32_INIT data) (vid_padding1 h)
                  (vid_sqnum h) (vid_padding2 h) (vid_hdr_crc h)
           else h in
  VidHdr (vid_magic h) (vid_version h) (vid_vol_type h) (vid_copy_flag h) (vid_compat h) (vid_vol_id h)
    (vid_lnum h) (vid_leb_ver h) (vid_data_size h) (vid_used_ebs h) (vid_data_pad h) (vid_data_crc h)
    (vid_padding1 h) sq (vid_padding2 h) (vid_hdr_crc h).

Lemma copy_hdr_ok h ds data sq : vid_ok h -> 0 <= ds < 2 ^ 31 -> bytes data -> in_word 64 sq -> vid_ok (copy_hdr h ds data sq).
Proof.
  intros [Hb Hw Hs Hp] Hds Hd Hsq. pose proof (crc32_word data Hd) as Hc. unfold copy_hdr.
  assert (H32 : in_word 32 ds) by (unfold in_word; lia). assert (H1 : byte 1) by done.
  destruct (0 <? ds); (split; [cbn; tauto|cbn; tauto|exact Hsq|exact Hp]).
Qed.

Lemma copy_hdr_fits v l h ds data sq :
  fits v l h -> 0 <= ds <= leb_size g -> (vid_vol_type h = UBI_VID_STATIC -> ds = vid_data_size h) ->
  fits v l (seal_vid (copy_hdr h ds data sq)) /\ data_len (seal_vid (copy_hdr h ds data sq)) = data_len h
  /\ used_len (seal_vid (copy_hdr h ds data sq)) = used_len h.
Proof.
  intros [H1 H2 H3] Hds Hst. unfold copy_hdr, data_len, used_len in *. destruct (Z.ltb_spec 0 ds); cbn;
    (split; [split; [done|done|]; unfold data_len in *; cbn; destruct H3 as [?|[E H3]]; [by left|right; split; [done|]; rewrite ?(Hst E) in *; lia]|]);
    (split; [done|]); unfold data_len; cbn; destruct (Z.eqb_spec (vid_vol_type h) UBI_VID_STATIC) as [E|]; [by rewrite Hst|done|done|done].
Qed.

(** How much is read, and how much of it is copied; the rest is blank. *)
Lemma copy_sizes v l old :
  let h := hdr_at g old in
  let ds := if vid_vol_type h =? UBI_VID_STATIC then vid_data_size h else data_len h in
  let buf := sub old start (Z.to_nat (used_len h)) in
  let len := ubi_calc_data_len (min_io_size g) buf ds in
  held v l old -> (start + Z.to_nat (data_len h) <= length old)%nat ->
  exists n d, (if vid_vol_type h =? UBI_VID_DYNAMIC then (len, len) else (used_len h, ds)) = (n, d)
    /\ 0 <= d <= n /\ n <= used_len h /\ (d = 0 -> n = 0) /\ (vid_vol_type h = UBI_VID_STATIC -> d = vid_data_size h)
    /\ forall i, (Z.to_nat n <= i < Z.to_nat (data_len h))%nat -> nth (start + i) old 0 = 0xff.
Proof.
  intros h ds buf len [_ Hf Ht] Hlen. fold h in Hf, Ht. clearbody h. pose proof (data_len_bounds v l h Hf) as Hd.
  pose proof (used_len_bounds v l h Hf) as Hu. unfold used_len in *. subst ds len.
  destruct (fits_type _ _ _ Hf) as [E|[E Hds]]; rewrite E in *; cbn in *.
  - destruct min_io_pow as (k & Hk & Hm). unfold ubi_calc_data_len.
    destruct (data_end_spec buf (Z.to_nat (data_len h))) as [He1 He2]. set (e := data_end buf _) in *. clearbody e.
    pose proof (align_data v l h (Z.of_nat e) Hf ltac:(lia)) as Hb.
    do 2 eexists. split; [done|]. split_and!; try lia; [done|]. intros i Hi. specialize (He2 i ltac:(lia)).
    destruct (lookup_lt_is_Some_2 old (start + i) ltac:(lia)) as [x Hx]. rewrite (nth_lookup_Some _ _ _ _ Hx).
    rewrite <- He2. symmetry. apply nth_lookup_Some. unfold buf, sub, used_len. rewrite ?E. cbn.
    rewrite lookup_take_lt by lia. by rewrite lookup_drop.
  - pose proof (align_data v l h (vid_data_size h) Hf ltac:(lia)).
    do 2 eexists. split; [done|]. split_and!; try lia. intros i Hi. apply Ht. lia.
Qed.

(** Writing the copy to an empty block, and reading it back. *)
Lemma write_copy_ok u p2 v l b d n buf err u' :
  ro u = false -> 0 <= p2 < peb_count g -> empty u p2 -> buf_ok g b -> 0 <= d <= n -> n <= leb_size g ->
  (d = 0 -> n = 0) -> n <= Z.of_nat (length buf) -> bytes (take (Z.to_nat n) buf) ->
  write_copy g u p2 v l b d n buf = (err, u') ->
  exists m, only g p2 (mtd u) m
    /\ ((err < 0 \/ err = 1 /\ flips m < flips (mtd u)) /\ u' = set_mtd m u
        \/ err = 0 /\ u' = eba_set (set_mtd m u) v l p2 /\ has_hdr g (peb m p2) (seal_vid (vb_hdr b))
           /\ exists blk, Z.of_nat (length blk) = peb_size g /\ blank (drop start blk)
                /\ peb m p2 = overwrite blk start (take (Z.to_nat n) buf)).
Proof.
  intros Hro Hp Hb2 Hb Hd Hn Hd0 Hnl Hbuf Hc. unfold write_copy in Hc. rewrite Hro in Hc.
  destruct (wf_leb g Hg) as (Hl1 & Hl2 & Hl3). destruct (wf_ec g Hg) as [He1 He2]. pose proof (wf_start g Hg) as Hst.
  destruct (wf_shift g Hg) as [Hs1 Hs2]. unfold UBI_EC_HDR_SIZE, UBI_VID_HDR_SIZE in *.
  set (data := take (Z.to_nat n) buf) in *. assert (Hdl : length data = Z.to_nat n) by (apply length_take_le; lia).
  destruct (ubi_io_write_vid_hdr g false (mtd u) p2 b) as [[e1 b1] m1] eqn:E1.
  apply (ubi_io_write_vid_hdr_ok g Hg) in E1 as (Ho1 & _ & -> & _ & Hc1); [|done|done].
  destruct Hc1 as [[Hneg Hx]|(-> & _ & Hok)].
  { destruct (Z.eqb_spec e1 0); [lia|]. injection Hc as <- <-. exists m1. split; [done|]. left. by split; [left|]. }
  destruct (Hok Hb2) as [Hh1 Hbl1]. cbn [Z.eqb negb set_mtd mtd] in Hc. cbn [set_hdr vb_hdr] in Hh1.
  pose proof (peb_length m1 p2 Hp) as Hlen1.
  destruct (ubi_io_read_vid_hdr g m1 p2) as [[e2 b2] m2] eqn:E2.
  apply (ubi_io_read_vid_hdr_ok g Hg) in E2 as (Hs2' & Hf2 & Hc2); [|done].
  assert (Ho2 : only g p2 (mtd u) m2) by (destruct Ho1 as [? Ho1]; split; [lia|intros q ? ?; rewrite Hs2'; by apply Ho1]).
  assert (He2' : e2 = 0 \/ e2 = UBI_IO_BITFLIPS /\ flips m2 < flips m1 \/ hard e2).
  { destruct Hc2 as [?|[_ Hc2]]; [by auto|]. destruct Hh1 as (Hat & Hx). rewrite Hat in Hc2.
    destruct (Hc2 ltac:(apply Hx)) as [?|[?|[?|[_ Hn2]]]]; [by auto..|]. destruct Hn2. by split. }
  destruct He2' as [->|[[-> Hfl]|[Hneg Hx]]]; cbn [Z.eqb Pos.eqb negb UBI_IO_BITFLIPS] in Hc.
  2: { injection Hc as <- <-. exists m2. split; [done|]. left. split; [right; split; [done|]|done]. destruct Ho1. lia. }
  2: { destruct (Z.eqb_spec e2 0); [lia|]. destruct (Z.eqb_spec e2 UBI_IO_BITFLIPS) as [->|]; [done|]. injection Hc as <- <-.
    exists m2. split; [done|]. left. by split; [left|]. }
  destruct (Z.ltb_spec 0 d) as [Hd1|Hd1].
  2: { injection Hc as <- <-. exists m2. split; [done|]. right. split; [done|]. split; [done|]. rewrite Hs2'. split; [done|].
    exists (peb m1 p2). split; [done|]. split; [done|]. assert (n = 0) as Hn0 by (apply Hd0; lia).
    assert (data = []) as -> by (apply nil_length_inv; lia). unfold overwrite. cbn. by rewrite Nat.add_0_r, take_drop. }
  cbn [set_mtd mtd ro] in Hc. rewrite Hro in Hc. unfold ubi_io_write_data in Hc. change (0 + leb_start g) with (leb_start g) in Hc.
  destruct (ubi_io_write g false m2 data p2 (leb_start g)) as [e3 m3] eqn:E3.
  apply (ubi_io_write_ok g) in E3 as (Ho3 & _ & _ & Hc3); [|done|lia|by intros ->; cbn in *; lia|lia].
  assert (Ho13 : only g p2 (mtd u) m3) by (by transitivity m2).
  destruct Hc3 as [[Hneg Hx]|(-> & _ & Hok3)].
  { destruct (Z.eqb_spec e3 0); [lia|]. injection Hc as <- <-. exists m3. split; [done|]. left. by split; [left|]. }
  cbn [Z.eqb negb] in Hc. rewrite Hs2' in Hok3.
  specialize (Hok3 Hbuf ltac:(by eapply blank_sub)).
  unfold ubi_io_read_data in Hc. change (0 + leb_start g) with (leb_start g) in Hc.
  destruct (ubi_io_read g m3 p2 (leb_start g) n) as [[e4 buf2] m4] eqn:E4.
  apply (ubi_io_read_ok g) in E4 as (Hs4 & Hf4 & Hc4); [|done|lia..]. rewrite Hok3, <- Hdl, sub_overwrite in Hc4 by lia.
  assert (Ho4 : only g p2 (mtd u) m4) by (destruct Ho13 as [? Ho13]; split; [lia|intros q ? ?; rewrite Hs4; by apply Ho13]).
  destruct Hc4 as [[-> [->|[-> Hfl]]]|[Hneg Hx]]; cbn [Z.eqb Pos.eqb negb UBI_IO_BITFLIPS] in Hc.
  - rewrite (take_ge data) in Hc by lia. rewrite (bool_decide_eq_true_2 _ eq_refl) in Hc. injection Hc as <- <-.
    exists m4. split; [done|]. right. split; [done|]. split; [done|]. rewrite Hs4, Hok3.
    split; [apply has_hdr_overwrite; [lia|done]|]. exists (peb m1 p2). by split.
  - injection Hc as <- <-. exists m4. split; [done|]. left. split; [right; split; [done|]|done]. destruct Ho1, Ho3. lia.
  - destruct (Z.eqb_spec e4 0); [lia|]. destruct (Z.eqb_spec e4 UBI_IO_BITFLIPS) as [->|]; [done|]. injection Hc as <- <-.
    exists m4. split; [done|]. left. by split; [left|].
Qed.

Lemma copy_leb_ok u v l p1 p2 err u' :
  in_word 64 (global_sqnum (eba u)) -> ro u = false -> mapped u v l p1 -> held v l (block u p1) -> v ∈ present (eba u) ->
  0 <= p1 < peb_count g -> 0 <= p2 < peb_count g -> p1 <> p2 -> empty u p2 ->
  ubi_eba_copy_leb g u p1 p2 (vid_buf_of g (sub (block u p1) aloff (Z.to_nat (vid_hdr_alsize g)))) = (err, u') ->
  exists m, only g p2 (mtd u) m
    /\ ((err < 0 \/ err = 1 /\ flips m < flips (mtd u)) /\ (u' = set_mtd m u \/ u' = set_mtd m (next_sqnum u).2)
        \/ err = 0 /\ u' = eba_set (set_mtd m (next_sqnum u).2) v l p2 /\ held v l (peb m p2)
           /\ data_of (peb m p2) = data_of (block u p1)).
Proof.
  intros Hsq Hro Hm Hheld Hv Hp1 Hp2 Hne Hb2 Hc. unfold ubi_eba_copy_leb in Hc. rewrite vid_buf_of_hdr in Hc by done.
  set (blk := block u p1) in *. set (h := hdr_at g blk) in *. set (b := vid_buf_of g _) in *.
  assert (Hbok : buf_ok g b) by (by apply vid_buf_of_ok).
  assert (Hbh : vb_hdr b = h) by (by apply vid_buf_of_hdr).
  pose proof Hheld as [Hhas Hf _]. fold h in Hhas, Hf. pose proof (data_len_bounds v l h Hf) as Hdl.
  pose proof (used_len_bounds v l h Hf) as Hul.
  destruct (wf_leb g Hg) as (Hl1 & Hl2 & Hl3). destruct (wf_ec g Hg) as [He1 He2]. pose proof (wf_start g Hg) as Hst.
  destruct (wf_shift g Hg) as [Hs1 Hs2]. unfold UBI_EC_HDR_SIZE, UBI_VID_HDR_SIZE in *.
  pose proof (peb_length (mtd u) p1 Hp1) as Hlen. fold blk in Hlen.
  destruct (copy_sizes v l blk Hheld) as (n & d & Hnd & Hd & Hnu & Hd0 & Hds & Hff); [fold h; lia|]. fold h in Hnd, Hnu, Hds, Hff.
  set (ds := if vid_vol_type h =? UBI_VID_STATIC then vid_data_size h else data_len h) in *.
  assert (Eds : (if vid_vol_type h =? UBI_VID_STATIC then s32 (vid_data_size h) else s32 (leb_size g - vid_data_pad h)) = ds).
  { unfold ds, data_len in *. destruct (fits_type _ _ _ Hf) as [Ht|[Ht ?]]; rewrite Ht in *; cbn in *; apply s32_small;
      unfold data_len in *; lia. }
  assert (Eu : (if vid_vol_type h =? UBI_VID_STATIC then ALIGN ds (min_io_size g) else ds) = used_len h)
    by (unfold ds, used_len; by destruct (vid_vol_type h =? UBI_VID_STATIC)).
  destruct (fits_id _ _ _ Hf) as (Hid & Hln & Hvr & Hlr).
  rewrite (s32_small (vid_vol_id h)), (s32_small (vid_lnum h)), Hid, Hln, Eds in Hc by lia. cbv zeta in Hc. rewrite Eu in Hc.
  rewrite (bool_decide_eq_true_2 _ Hv), (mapped_lookup _ _ _ _ Hm), Z.eqb_refl in Hc. cbn [negb] in Hc.
  unfold ubi_io_read_data in Hc.
  destruct (ubi_io_read g (mtd u) p1 _ _) as [[e1 buf1] m1] eqn:E1 in Hc.
  apply (ubi_io_read_ok g) in E1; [|done|lia..]. pose proof (read_as_only g _ _ _ _ _ p2 E1) as Ho1.
  destruct E1 as (Hs1' & Hf1 & [[-> Hok]|Hhard]).
  2: { destruct Hhard as (? & Hx). destruct (Z.eqb_spec e1 0); [lia|]. destruct (Z.eqb_spec e1 UBI_IO_BITFLIPS) as [->|]; [done|].
    injection Hc as <- <-. exists m1. split; [done|]. left. split; [by left|by left]. }
  replace (negb (e1 =? 0) && negb (e1 =? UBI_IO_BITFLIPS)) with false in Hc by (by destruct Hok as [->|[-> _]]).
  cbv beta iota in Hc. change (0 + leb_start g) with (leb_start g) in *. fold blk in Hc. rewrite Hnd in Hc. cbv beta iota in Hc.
  set (buf := sub blk start (Z.to_nat (used_len h))) in *. destruct (next_sqnum (set_mtd m1 u)) as [sq u1] eqn:En.
  assert (HA' : length buf = Z.to_nat (used_len h)) by (apply length_sub; lia).
  assert (Hbuf : bytes buf) by (apply bytes_sub, peb_bytes).
  assert (Htk : take (Z.to_nat n) buf = sub blk start (Z.to_nat n)) by (unfold buf, sub; rewrite take_take; f_equal; lia).
  rewrite <- Hid, <- Hln in Hc.
  change (write_copy g u1 p2 (vid_vol_id h) (vid_lnum h) (set_hdr (copy_hdr h d (take (Z.to_nat d) buf) sq) b) d n buf = (err, u')) in Hc.
  rewrite Hid, Hln in Hc.
  unfold next_sqnum in En. apply pair_equal_spec in En as [<- <-].
  destruct (copy_hdr_fits v l h d (take (Z.to_nat d) buf) (global_sqnum (eba u)) Hf ltac:(lia) Hds) as (Hf2 & Hlen2 & Hul2).
  apply write_copy_ok in Hc as (m & Ho & Hc); [|done|done| | |lia|lia|done|lia|by apply Forall_take].
  - exists m. split; [by transitivity m1|]. destruct Hc as [[He ->]|(-> & -> & Hh & blk1 & Hb1 & Hbl1 & Hw)].
    + left. split; [|by right]. destruct He as [?|[? ?]]; [by left|right]. cbn [set_eba set_mtd mtd] in *. lia.
    + right. split; [done|]. split; [done|]. cbn [set_hdr vb_hdr] in Hh.
      assert (Hat : hdr_at g (peb m p2) = seal_vid (copy_hdr h d (take (Z.to_nat d) buf) (global_sqnum (eba u)))) by apply Hh.
      assert (Hdata : data_of (peb m p2) = data_of blk).
      { unfold data_of. rewrite Hat, Hlen2. fold h. rewrite Hw, Htk. apply copied_data; try done; lia. }
      split; [|done]. split; [by rewrite Hat|by rewrite Hat|]. rewrite Hat, Hlen2, Hul2. intros i Hi.
      pose proof (peb_length m p2 Hp2) as Hlen3.
      assert (Hnth : nth (start + i) (peb m p2) 0 = nth (start + i) blk 0).
      { assert (Hsub : forall l0 : list Z, (i < Z.to_nat (data_len h))%nat ->
          nth i (sub l0 start (Z.to_nat (data_len h))) 0 = nth (start + i) l0 0).
        { intros l0 Hil. unfold sub. rewrite !nth_lookup. by rewrite lookup_take_lt, lookup_drop by lia. }
        unfold data_of in Hdata. rewrite Hat, Hlen2 in Hdata. fold h in Hdata.
        rewrite <- (Hsub (peb m p2)), <- (Hsub blk), Hdata by lia. done. }
      rewrite Hnth. apply Hff. lia.
  - cbn [set_eba set_mtd mtd]. by rewrite Hs1'.
  - destruct Hbok as [Hvb Hr]. rewrite Hbh in Hvb. split; [|done]. cbn [set_hdr vb_hdr]. apply copy_hdr_ok; [done|lia|by apply Forall_take|done].
Qed.

(** ** Entries move between the trees *)

Lemma dev_perm out out' loose u : dev_ok out loose u -> out ≡ₚ out' -> dev_ok out' loose u.
Proof.
  intros [H1 H3 H4 H5] Hp. split; [|done|done|].
  - eapply (ok_perm _ _ _ _ _ H1); [apply H1|apply H1|done|by rewrite Hp].
  - intros Hro. destruct (H5 Hro) as [L1 L2 L3]. split; [done| |done]. intros v l p Hm. rewrite <- Hp. by eapply L2.
Qed.

Lemma dev_take_busy out loose u e w :
  dev_ok out loose u -> wl_ok g (e :: out) w -> free w = free (wl u) -> busy (wl u) ≡ₚ e :: busy w ->
  dev_ok (e :: out) loose (set_wl w u) /\ keeps u (set_wl w u).
Proof.
  intros H Hw Hf Hb. eapply dev_unit; [done|done|]. intros _ [L1 L2 L3]. split; cbn [set_wl wl].
  - by rewrite Hf.
  - intros v l p Hm. specialize (L2 v l p Hm). by rewrite Hb, <- Permutation_middle in L2.
  - rewrite Hb in L3. by apply Forall_cons in L3 as [_ L3].
Qed.

Lemma dev_take_free out loose u e w :
  dev_ok out loose u -> wl_ok g (e :: out) w -> elements (free (wl u)) ≡ₚ e :: elements (free w) -> busy w = busy (wl u) ->
  dev_ok (e :: out) loose (set_wl w u) /\ keeps u (set_wl w u)
  /\ (ro u = false -> empty u (e_pnum e) /\ unmapped u (e_pnum e)).
Proof.
  intros H Hw Hf Hb. assert (He : e ∈ elements (free (wl u))) by (rewrite Hf; by left).
  destruct (dev_unit out loose (e :: out) loose u w H Hw) as [H' K'].
  - intros _ [L1 L2 L3]. split; cbn [set_wl wl].
    + rewrite Hf in L1. by apply Forall_cons in L1 as [_ L1].
    + intros v l p Hm. specialize (L2 v l p Hm). rewrite Hb. cbn [app]. rewrite fmap_cons. by right.
    + by rewrite Hb.
  - split_and!; [done|done|]. intros Hro. destruct (dev_live _ _ _ H Hro) as [L1 _ _]. rewrite Forall_forall in L1.
    split; [by apply L1|by eapply free_unmapped].
Qed.

Lemma dev_put_busy out loose u e w :
  dev_ok (e :: out) loose u -> wl_ok g out w -> free w = free (wl u) -> busy w ≡ₚ e :: busy (wl u) ->
  (ro u = false -> e_pnum e ∈ loose \/ exists v l, mapped u v l (e_pnum e)) ->
  dev_ok out loose (set_wl w u) /\ keeps u (set_wl w u).
Proof.
  intros H Hw Hf Hb Hm. eapply dev_unit; [done|done|]. intros Hro [L1 L2 L3]. split; cbn [set_wl wl].
  - by rewrite Hf.
  - intros v l p Hp. specialize (L2 v l p Hp). by rewrite Hb, <- Permutation_middle.
  - rewrite Hb. apply Forall_cons. split; [by apply Hm|done].
Qed.

Lemma dev_put_free out loose u e w :
  dev_ok (e :: out) loose u -> wl_ok g out w -> elements (free w) ≡ₚ e :: elements (free (wl u)) -> busy w = busy (wl u) ->
  (ro u = false -> empty u (e_pnum e) /\ unmapped u (e_pnum e)) ->
  dev_ok out loose (set_wl w u) /\ keeps u (set_wl w u).
Proof.
  intros H Hw Hf Hb Hm. eapply dev_unit; [done|done|]. intros Hro [L1 L2 L3]. destruct (Hm Hro) as [Hm1 Hm2]. split; cbn [set_wl wl].
  - rewrite Hf. by apply Forall_cons.
  - intros v l p Hp. specialize (L2 v l p Hp). rewrite Hb. cbn [app] in L2. rewrite fmap_cons in L2.
    apply elem_of_cons in L2 as [->|L2]; [by destruct (Hm2 v l)|done].
  - by rewrite Hb.
Qed.

(** ** The table changes *)

Lemma mapped_set u v l p v' l' q : 0 <= p -> mapped (eba_set u v l p) v' l' q <->
  (v' = v /\ l' = l /\ q = p) \/ (~ (v' = v /\ l' = l) /\ mapped u v' l' q).
Proof.
  intros Hp. unfold mapped, eba_set. cbn [set_eba eba eba_tbl]. destruct (Z.ltb_spec p 0); [lia|].
  destruct (decide (v' = v /\ l' = l)) as [[-> ->]|Hn].
  - rewrite lookup_insert_eq. split; [intros [= ->]; auto|intros [(_ & _ & ->)|[[] _]]; done].
  - rewrite lookup_insert_ne by (intros [= -> ->]; by apply Hn). split; [by auto|intros [(-> & -> & _)|[_ ?]]; [by destruct Hn|done]].
Qed.

Lemma leb_set u v l p v' l' : 0 <= p ->
  leb (eba_set u v l p) v' l' = if bool_decide (v' = v /\ l' = l) then Some (data_of (block u p)) else leb u v' l'.
Proof.
  intros Hp. unfold leb, eba_set. cbn [set_eba eba eba_tbl mtd]. destruct (Z.ltb_spec p 0); [lia|]. case_bool_decide as Hn.
  - destruct Hn as [-> ->]. by rewrite lookup_insert_eq.
  - by rewrite lookup_insert_ne by (intros [= -> ->]; by apply Hn).
Qed.

(** A logical block moves to [p]; where it was before becomes loose. *)
Lemma dev_map out loose loose' u v l p :
  dev_ok out loose u -> 0 <= p < peb_count g -> held v l (block u p) -> v ∈ present (eba u) ->
  (ro u = false -> p ∈ pnums (out ++ busy (wl u)) /\ (forall q, q ∈ loose -> q <> p -> q ∈ loose')
     /\ (forall q, mapped u v l q -> q ∈ pnums (busy (wl u)) -> q ∈ loose')) ->
  dev_ok out loose' (eba_set u v l p).
Proof.
  intros [H1 H3 H4 H5] Hp Hh Hv Hl. split; [done|done| |].
  - intros v' l' q [(-> & -> & ->)|[_ Hm]]%mapped_set; [done|by apply H4|lia].
  - intros Hro. destruct (H5 Hro) as [L1 L2 L3]. destruct (Hl Hro) as (Hl1 & Hl2 & Hl3). split; [done| |].
    + intros v' l' q [(-> & -> & ->)|[_ Hm]]%mapped_set; [done|by eapply L2|lia].
    + rewrite Forall_forall in *. intros e He. cbn [eba_set set_eba wl] in He.
      destruct (decide (e_pnum e = p)) as [->|Hne]; [right; exists v, l; rewrite mapped_set by lia; auto|].
      destruct (L3 e He) as [Hin|(v' & l' & Hm)]; [left; by apply Hl2|].
      destruct (decide (v' = v /\ l' = l)) as [[-> ->]|Hn].
      * left. apply Hl3; [done|]. by apply list_elem_of_fmap_2.
      * right. exists v', l'. rewrite mapped_set by lia. auto.
Qed.

(** ** The works *)

(** Nothing is under way. *)
Definition idle (w : wl_unit) : Prop :=
  works w = [] /\ move_from w = None /\ move_to w = None /\ move_to_put w = false.

(** It falls with every move. *)
Definition measure (u : dev) : Z :=
  total (elements (free (wl u))) + total (elements (scrub (wl u))) + 2 * Z.of_nat (length (elements (scrub (wl u))))
  + 2 * flips (mtd u).

Lemma measure_nonneg out loose u : dev_ok out loose u -> 0 <= measure u.
Proof.
  intros H. pose proof (total_nonneg g _ _ (elements (free (wl u))) (dev_wl _ _ _ H) ltac:(unfold all, busy; set_solver)).
  pose proof (total_nonneg g _ _ (elements (scrub (wl u))) (dev_wl _ _ _ H) ltac:(unfold all, busy; set_solver)).
  pose proof (flips_nonneg (mtd u)). unfold measure. lia.
Qed.

(** The flags of the unit do not matter. *)
Lemma dev_flags out loose u w :
  dev_ok out loose u -> free w = free (wl u) -> used w = used (wl u) -> scrub w = scrub (wl u) ->
  prot_pnum w = prot_pnum (wl u) -> prot_aec w = prot_aec (wl u) -> lookuptbl w = lookuptbl (wl u) ->
  dev_ok out loose (set_wl w u) /\ keeps u (set_wl w u).
Proof.
  intros H E1 E2 E3 E4 E5 E6. assert (Hb : busy w = busy (wl u)) by (unfold busy, prot_entries; by rewrite E2, E3, E4).
  eapply dev_unit; [done| |].
  - eapply (ok_perm _ _ _ _ _ (dev_wl _ _ _ H)); rewrite ?E1, ?E2, ?E3, ?E4, ?E5; try apply (dev_wl _ _ _ H); [done|].
    unfold all. by rewrite Hb, E1.
  - intros _ [L1 L2 L3]. split; cbn [set_wl wl]; rewrite ?E1, ?Hb; done.
Qed.

Lemma needed_spec e1 e2 : 0 <= e_ec e1 <= UBI_MAX_ERASECOUNTER -> 0 <= e_ec e2 <= UBI_MAX_ERASECOUNTER ->
  wl_needed e1 e2 = true -> e_ec e1 + UBI_WL_THRESHOLD <= e_ec e2.
Proof.
  intros H1 H2 H. unfold wl_needed in H. apply Z.leb_le in H. unfold UBI_MAX_ERASECOUNTER in *. rewrite s32_small in H by lia. lia.
Qed.

(** The entries [e1], [e2] are out; [e1] is mapped, [e2] empty. *)
Lemma pick_move_ok u : dev_ok [] [] u -> ro u = false ->
  pick_move (wl u) = Some None
  \/ exists e1 e2 scr w, pick_move (wl u) = Some (Some (e1, e2, scr, w))
     /\ dev_ok [e2; e1] [] (set_wl w u) /\ keeps u (set_wl w u) /\ same_rest (wl u) w
     /\ (exists v l, mapped u v l (e_pnum e1)) /\ empty u (e_pnum e2) /\ unmapped u (e_pnum e2)
     /\ total (elements (free (wl u))) = e_ec e2 + total (elements (free w))
     /\ (if scr : bool then elements (scrub (wl u)) ≡ₚ e1 :: elements (scrub w)
         else scrub w = scrub (wl u) /\ e_ec e1 + UBI_WL_THRESHOLD <= e_ec e2).
Proof.
  intros H Hro. unfold pick_move. destruct (is_leaf (free (wl u))) eqn:Ef; [by left|]. cbn [orb].
  apply is_leaf_spec in Ef. destruct (find_wl_entry_in _ WL_FREE_MAX_DIFF Ef) as (e2 & He2 & Hin2).
  assert (Hm : forall e, e ∈ busy (wl u) -> exists v l, mapped u v l (e_pnum e)).
  { intros e He. pose proof (live_busy _ _ _ (dev_live _ _ _ H Hro)) as L. rewrite Forall_forall in L.
    destruct (L e He) as [[]%elem_of_nil|?]. done. }
  assert (Hec : forall e, e ∈ elements (free (wl u)) \/ e ∈ busy (wl u) -> 0 <= e_ec e <= UBI_MAX_ERASECOUNTER)
    by (intros e He; eapply (ok_range g); [apply H|]; cbn; unfold all; rewrite elem_of_app; done).
  assert (Htake : forall e1 w1, free w1 = free (wl u) -> busy (wl u) ≡ₚ e1 :: busy w1 -> wl_ok g [e1] w1 ->
    exists t, wl_tree_del e2 (free (wl u)) = Some t /\ dev_ok [e2; e1] [] (set_wl (set_free t w1) u)
      /\ keeps u (set_wl (set_free t w1) u) /\ empty u (e_pnum e2) /\ unmapped u (e_pnum e2)
      /\ total (elements (free (wl u))) = e_ec e2 + total (elements t)).
  { intros e1 w1 Hf Hb Hw. destruct (dev_take_busy [] [] u e1 w1 H Hw Hf Hb) as [H1 K1]. rewrite <- Hf in *.
    destruct (take_free g _ _ e2 Hw Hin2) as (t & Ht & Hp & Hw2). exists t.
    destruct (dev_take_free [e1] [] (set_wl w1 u) e2 (set_free t w1) H1 Hw2 Hp) as (H2 & K2 & Hfr); [done|].
    destruct (Hfr Hro) as [Hfr1 Hfr2]. split; [done|]. split; [exact H2|]. split; [by transitivity (set_wl w1 u)|]. split; [done|]. split; [done|by rewrite Hp]. }
  destruct (is_leaf (scrub (wl u))) eqn:Es.
  - destruct (is_leaf (used (wl u))) eqn:Eu; [by left|]. cbn [andb]. apply is_leaf_spec in Eu.
    destruct (rb_first_in _ Eu) as (e1 & He1 & Hin1). rewrite He1, He2. cbn [mbind option_bind].
    destruct (wl_needed e1 e2) eqn:En; cbn [negb]; [|by left]. right.
    destruct (take_used g _ _ e1 (dev_wl _ _ _ H) Hin1) as (tu & Htu & Hpu & Hwu). rewrite Htu. cbn [mbind option_bind].
    destruct (Htake e1 (set_used tu (wl u)) eq_refl (busy_used _ _ _ Hpu) Hwu) as (t & Ht & H2 & K2 & ? & ? & ?). rewrite Ht.
    do 4 eexists. split; [done|]. split_and!; try done; [by apply Hm, used_busy|].
    apply needed_spec; [apply Hec; right; by apply used_busy|apply Hec; by left|done].
  - rewrite andb_false_r. right. apply is_leaf_spec in Es.
    destruct (rb_first_in _ Es) as (e1 & He1 & Hin1). rewrite He1, He2. cbn [mbind option_bind].
    destruct (take_scrub g _ _ e1 (dev_wl _ _ _ H) Hin1) as (ts & Hts & Hps & Hws). rewrite Hts. cbn [mbind option_bind].
    destruct (Htake e1 (set_scrub ts (wl u)) eq_refl (busy_scrub _ _ _ Hps) Hws) as (t & Ht & H2 & K2 & ? & ? & ?). rewrite Ht.
    do 4 eexists. split; [done|]. split_and!; try done. by apply Hm, scrub_busy.
Qed.

(** A work that ends, with the invariant and the data. *)
Definition ends (r : option (Z * dev)) (u : dev) : Prop :=
  exists err u', r = Some (err, u') /\ dev_ok [] [] u' /\ idle (wl u') /\ keeps u u'.

Lemma ends_from r u u1 : keeps u u1 -> ends r u1 -> ends r u.
Proof. intros K (err & u' & ? & ? & ? & ?). exists err, u'. split_and!; try done. by transitivity u1. Qed.

(** The two kinds of works, with [n] levels left. *)
Definition erases (n : nat) : Prop := forall u e t,
  dev_ok [e] [] u -> idle (wl u) -> unmapped u (e_pnum e) -> (1 <= n)%nat ->
  (ro u = false -> 2 * (measure u + e_ec e + wear t) + 4 <= Z.of_nat n) ->
  ends (do_work g n (set_wl (set_works [EraseWork e t] (wl u)) u)) u.

Definition levels (n : nat) : Prop := forall u,
  dev_ok [] [] u -> idle (wl u) -> ro u = false -> 2 * measure u + 3 <= Z.of_nat n ->
  ends (do_work g n (set_wl (set_works [WearLevelingWork] (set_scheduled true (wl u))) u)) u.

Lemma schedule_erase_ok n u e t :
  erases n -> dev_ok [e] [] u -> idle (wl u) -> unmapped u (e_pnum e) -> (1 <= n)%nat ->
  (ro u = false -> 2 * (measure u + e_ec e + wear t) + 4 <= Z.of_nat n) ->
  exists u', schedule_erase (do_work g n) u e t = Some (0, u') /\ dev_ok [] [] u' /\ idle (wl u') /\ keeps u u'.
Proof.
  intros He H Hi Hu Hn Hb. destruct (He u e t H Hi Hu Hn Hb) as (err & u' & Hw & ? & ? & ?).
  unfold schedule_erase, schedule_ubi_work. destruct Hi as [-> _]. cbn [app]. rewrite Hw. cbn [mbind option_bind]. by exists u'.
Qed.

Lemma ensure_ok n u :
  levels n -> dev_ok [] [] u -> idle (wl u) -> ro u = false -> 2 * measure u + 3 <= Z.of_nat n ->
  ends (ensure_wear_leveling (do_work g n) u) u.
Proof.
  intros Hl H Hi Hro Hn. unfold ensure_wear_leveling.
  assert (Hnone : ends (Some (0, u)) u) by (by exists 0, u).
  assert (Hgo : ends (u ← schedule_ubi_work (do_work g n) (set_wl (set_scheduled true (wl u)) u) WearLevelingWork; Some (0, u)) u).
  { destruct (Hl u H Hi Hro Hn) as (err & u' & Hw & ? & ? & ?). unfold schedule_ubi_work. cbn [set_wl wl set_scheduled works].
    destruct Hi as [Hwk _]. rewrite Hwk. cbn [app].
    change (set_wl (set_works [WearLevelingWork] (set_scheduled true (wl u))) (set_wl (set_scheduled true (wl u)) u))
      with (set_wl (set_works [WearLevelingWork] (set_scheduled true (wl u))) u).
    rewrite Hw. cbn [mbind option_bind]. by exists 0, u'. }
  destruct (wl_scheduled (wl u)); [done|]. destruct (is_leaf (scrub (wl u))); [|done].
  destruct (is_leaf (used (wl u))) eqn:Eu; [done|]. destruct (is_leaf (free (wl u))) eqn:Ef; [done|]. cbn [orb].
  apply is_leaf_spec in Eu, Ef. destruct (rb_first_in _ Eu) as (e1 & -> & _), (find_wl_entry_in _ WL_FREE_MAX_DIFF Ef) as (e2 & -> & _).
  cbn [mbind option_bind]. by destruct (negb (wl_needed e1 e2)).
Qed.

Lemma erase_worker_ok n u e t :
  levels n -> dev_ok [e] [] u -> idle (wl u) -> unmapped u (e_pnum e) ->
  (ro u = false -> 2 * (measure u + e_ec e + wear t) + 3 <= Z.of_nat n) ->
  ends (erase_worker g (do_work g n) u e t) u.
Proof.
  intros Hl H Hi Hu Hn. unfold erase_worker. destruct (sync_erase g u e t) as [[err e'] u1] eqn:E.
  destruct (sync_erase_ok _ _ _ _ _ _ _ _ H Hu E) as (K1 & H1 & Hu1 & Hp & R1 & Hc).
  assert (Hi1 : idle (wl u1)) by (destruct Hi as (? & ? & ? & ?), R1 as (? & ? & ? & ?); split_and!; congruence).
  destruct Hc as [[Hh ->]|(-> & Hro & Hro1 & Hec & Hem & Hfl & Hfr & Hsc)].
  { destruct (Z.eqb_spec err 0) as [->|]; [by destruct Hh|].
    destruct (erase_failed_ok _ _ _ _ err H1 Hu1 Hh) as (err' & u' & Hf & H' & K' & R').
    exists err', u'. split_and!; [done|done| |by transitivity u1].
    destruct Hi1 as (? & ? & ? & ?), R' as (? & ? & ? & ?); split_and!; congruence. }
  cbn [Z.eqb]. destruct (add_free g _ _ e' (dev_wl _ _ _ H1)) as (tf & Htf & Hpf & Hwf). rewrite Htf. cbn [mbind option_bind].
  destruct (dev_put_free _ _ u1 e' _ H1 Hwf Hpf eq_refl (fun _ => conj Hem Hu1)) as [H2 K2].
  set (w2 := set_counters (u64 (abs_ec (wl u1) + 1)) (max_ec (wl u1)) (wl u1)).
  destruct (dev_flags _ _ _ (set_free tf w2) H2) as [H3 K3]; try done.
  unfold check_protection_over. cbn [set_wl wl] in *.
  destruct (protection_over_ok g [] (S (tree_size (prot_aec (set_free tf w2)))) (set_free tf w2) (dev_wl _ _ _ H3) ltac:(lia))
    as (w' & Hw' & Hok' & Hf' & Hs' & Hb' & R').
  rewrite Hw'. cbn [mbind option_bind].
  destruct (dev_unit [] [] [] [] _ w' H3 Hok') as [H4 K4].
  { intros _ [L1 L2 L3]. split; cbn [set_wl wl app] in *; [by rewrite Hf'|intros v l p Hm; rewrite Hb'; by eapply L2|by rewrite Hb']. }
  assert (K : keeps u (set_wl w' u1)).
  { transitivity u1; [done|]. transitivity (set_wl (set_free tf (wl u1)) u1); [done|]. by transitivity (set_wl (set_free tf w2) u1). }
  eapply ends_from; [exact K|]. apply ensure_ok; [done|exact H4| |done|].
  - destruct Hi1 as (? & ? & ? & ?), R' as (? & ? & ? & ?); split_and!; cbn in *; congruence.
  - specialize (Hn Hro). unfold measure in *. cbn [set_wl wl mtd]. rewrite Hf', Hs'.
    change (free (set_free tf w2)) with tf. change (scrub (set_free tf w2)) with (scrub (wl u1)).
    rewrite Hpf, Hsc, Hfr. change (total (e' :: ?l)) with (e_ec e' + total l). lia.
Qed.

(** The ways out of the worker.  The blocks [e1], [e2] are out of the trees. *)
Lemma out_error_ok u e1 e2 err :
  dev_ok [e2; e1] [] u -> works (wl u) = [] -> ends (Some (out_error u e1 e2 err)) u.
Proof.
  intros H Hw. unfold out_error.
  destruct (dev_ro _ _ _ H) as [H1 K1]. destruct (dev_flags _ _ _ (move_done (wl u)) H1) as [H2 K2]; try done.
  destruct (dev_drop [e2] [] _ e1 (dev_perm _ _ _ _ H2 (Permutation_swap _ _ _)) ltac:(done)) as [H3 K3].
  destruct (dev_drop [] [] _ e2 H3 ltac:(done)) as [H4 K4].
  do 2 eexists. split; [done|]. split; [exact H4|]. split; [by split_and!|].
  transitivity (ubi_ro_mode u); [done|]. etransitivity; [exact K2|]. etransitivity; [exact K3|exact K4].
Qed.

Lemma out_not_moved_ok n u e1 e2 (scr : bool) :
  erases n -> dev_ok [e2; e1] [] u -> works (wl u) = [] -> (exists v l, mapped u v l (e_pnum e1)) -> unmapped u (e_pnum e2) ->
  (1 <= n)%nat ->
  (ro u = false -> 2 * (measure u + (if scr then e_ec e1 + 2 else 0) + e_ec e2 + 1) + 4 <= Z.of_nat n) ->
  ends (out_not_moved (do_work g n) u e1 e2 scr) u.
Proof.
  intros He H Hw Hm Hu Hn Hb. unfold out_not_moved.
  assert (Hback : exists w, (if scr then t ← wl_tree_add e1 (scrub (wl u)); Some (set_scrub t (wl u))
                             else t ← wl_tree_add e1 (used (wl u)); Some (set_used t (wl u))) = Some w
    /\ dev_ok [e2] [] (set_wl w u) /\ keeps u (set_wl w u) /\ works w = []
    /\ measure (set_wl w u) = measure u + (if scr then e_ec e1 + 2 else 0)).
  { pose proof (dev_perm _ _ _ _ H (Permutation_swap _ _ _)) as H1. destruct scr.
    - destruct (add_scrub g _ _ e1 (dev_wl _ _ _ H1)) as (t & -> & Hp & Hok). eexists. split; [done|].
      destruct (dev_put_busy _ _ u e1 _ H1 Hok eq_refl) as [H2 K2]; [by apply busy_scrub; rewrite Hp|by right|].
      split_and!; try done. unfold measure. cbn [set_wl wl mtd set_scrub scrub free]. rewrite Hp. cbn [length].
      change (total (e1 :: ?l)) with (e_ec e1 + total l). lia.
    - destruct (add_used g _ _ e1 (dev_wl _ _ _ H1)) as (t & -> & Hp & Hok). eexists. split; [done|].
      destruct (dev_put_busy _ _ u e1 _ H1 Hok eq_refl) as [H2 K2]; [by apply busy_used; rewrite Hp|by right|].
      split_and!; try done. unfold measure. cbn [set_wl wl mtd set_used scrub free]. lia. }
  destruct Hback as (w & -> & H2 & K2 & Hw2 & Hms). cbn [mbind option_bind].
  destruct (dev_flags _ _ _ (move_done w) H2) as [H3 K3]; try done.
  destruct (schedule_erase_ok n (set_wl (move_done w) u) e2 false He H3) as (u' & Hs & H' & Hi' & K'); [by split_and!|done|done| |].
  - intros Hro. specialize (Hb Hro). change (measure (set_wl (move_done w) u)) with (measure (set_wl w u)). unfold wear. lia.
  - rewrite Hs. exists 0, u'. split_and!; try done. transitivity (set_wl w u); [done|]. by transitivity (set_wl (move_done w) u).
Qed.

Lemma moved_ok n u e1 e2 :
  erases n -> dev_ok [e2; e1] [] u -> works (wl u) = [] -> move_to_put (wl u) = false -> unmapped u (e_pnum e1) ->
  (exists v l, mapped u v l (e_pnum e2)) -> (1 <= n)%nat ->
  (ro u = false -> 2 * (measure u + e_ec e1 + 1) + 4 <= Z.of_nat n) ->
  ends (moved (do_work g n) u e1 e2 false) u.
Proof.
  intros He H Hw Hput Hu Hm Hn Hb. unfold moved. cbn [mbind option_bind]. rewrite Hput.
  destruct (add_used g _ _ e2 (dev_wl _ _ _ H)) as (t & Ht & Hp & Hok). rewrite Ht. cbn [mbind option_bind].
  destruct (dev_put_busy _ _ u e2 _ H Hok eq_refl) as [H2 K2]; [by apply busy_used; rewrite Hp|by right|].
  destruct (dev_flags _ _ _ (move_done (set_used t (wl u))) H2) as [H3 K3]; try done.
  destruct (schedule_erase_ok n (set_wl (move_done (set_used t (wl u))) u) e1 false He H3) as (u' & Hs & H' & Hi' & K');
    [by split_and!|done|done|exact Hb|].
  rewrite Hs. exists 0, u'. split_and!; try done. transitivity (set_wl (set_used t (wl u)) u); [done|].
  by transitivity (set_wl (move_done (set_used t (wl u))) u).
Qed.

(** The move itself, with its two blocks out of the trees. *)
Lemma copied_ok u e1 e2 v l err u' :
  dev_ok [e2; e1] [] u -> ro u = false -> mapped u v l (e_pnum e1) -> empty u (e_pnum e2) -> unmapped u (e_pnum e2) ->
  ubi_eba_copy_leb g u (e_pnum e1) (e_pnum e2)
    (vid_buf_of g (sub (block u (e_pnum e1)) aloff (Z.to_nat (vid_hdr_alsize g)))) = (err, u') ->
  dev_ok [e2; e1] [] u' /\ keeps u u' /\ wl u' = wl u /\ flips (mtd u') <= flips (mtd u)
  /\ ((err < 0 \/ err = 1 /\ flips (mtd u') < flips (mtd u)) /\ mapped u' v l (e_pnum e1) /\ unmapped u' (e_pnum e2)
      \/ err = 0 /\ mapped u' v l (e_pnum e2) /\ unmapped u' (e_pnum e1)).
Proof.
  intros H Hro Hm Hem Hu Hc. destruct (dev_eba _ _ _ H _ _ _ Hm) as (Hp1 & Hh1 & Hv).
  destruct (out_range _ _ _ _ H) as [Hp2 _].
  assert (Hne : e_pnum e1 <> e_pnum e2) by (intros Heq; apply (Hu v l); by rewrite <- Heq).
  destruct (copy_leb_ok u v l (e_pnum e1) (e_pnum e2) err u' (dev_sqnum _ _ _ H)) as (m & Ho & Hcase); try done.
  destruct (next_sqnum u) as [sq un] eqn:En. destruct (dev_next _ _ _ _ _ H En) as (Hn & Kn & _ & Em & Ew & Er & Et).
  cbn [snd] in Hcase.
  assert (Hwr : forall u0, dev_ok [e2; e1] [] u0 -> keeps u u0 -> mtd u0 = mtd u -> wl u0 = wl u -> eba_tbl (eba u0) = eba_tbl (eba u) ->
    dev_ok [e2; e1] [] (set_mtd m u0) /\ keeps u (set_mtd m u0)).
  { intros u0 H0 K0 E0 W0 T0. destruct (dev_write _ _ u0 m e2 H0) as [? K1]; [by rewrite E0|by unfold unmapped, mapped; rewrite T0| |].
    - rewrite W0. by eapply out_not_free.
    - split; [done|by transitivity u0]. }
  destruct (Hwr u H ltac:(done) eq_refl eq_refl eq_refl) as [Ha Ka]. destruct (Hwr un Hn Kn Em Ew Et) as [Hb Kb].
  destruct Ho as [Hfl Ho]. assert (Et' : forall v l p, mapped un v l p <-> mapped u v l p) by (unfold mapped; by rewrite Et).
  destruct Hcase as [[Herr [-> | ->]]|(-> & -> & Hheld & Hdata)].
  - split_and!; try done. left. by split_and!.
  - split_and!; try done. left. split; [done|]. split; [by apply Et'|]. intros v' l' Hx. apply (Hu v' l'), Et', Hx.
  - assert (Hun1 : unmapped (eba_set (set_mtd m un) v l (e_pnum e2)) (e_pnum e1)).
    { intros v' l' [(_ & _ & Hx)|[Hx Hy]]%mapped_set; [done| |lia]. apply Hx.
      change (mapped un v' l' (e_pnum e1)) in Hy. apply Et' in Hy. exact (mapped_unique _ _ _ _ _ _ _ _ H Hy Hm). }
    split_and!; try done.
    + apply (dev_map _ [] _ _ _ _ _ Hb Hp2 Hheld); [cbn; destruct Kn as [_ -> _ _ _]; done|]. intros _.
      split; [cbn [app]; rewrite fmap_cons; by left|]. split; [done|]. intros q Hq Hin.
      change (mapped un v l q) in Hq. apply Et' in Hq. unfold mapped in Hq, Hm. rewrite Hm in Hq. injection Hq as <-.
      exfalso. apply (ok_not_in g _ _ _ (dev_wl _ _ _ (dev_perm _ _ _ _ H (Permutation_swap _ _ _)))).
      change (wl (set_mtd m un)) with (wl un) in Hin. rewrite Ew in Hin. unfold all. rewrite !fmap_app, !elem_of_app. auto.
    + split; [|by destruct Kb..]. intros v' l'. rewrite leb_set by lia. case_bool_decide as Hx.
      * destruct Hx as [-> ->]. cbn [set_mtd mtd]. rewrite Hdata. unfold leb, mapped in *. by rewrite Hm.
      * by destruct Kb as [-> _ _ _ _].
    + right. split; [done|]. split; [|done]. apply mapped_set; [lia|by left].
Qed.

Lemma level_worker_ok n u :
  erases n -> dev_ok [] [] u -> idle (wl u) -> ro u = false -> 2 * measure u + 2 <= Z.of_nat n ->
  ends (wear_leveling_worker g (do_work g n) u) u.
Proof.
  intros He H Hi Hro Hn. pose proof (measure_nonneg _ _ _ H) as Hm0. unfold wear_leveling_worker.
  destruct (pick_move_ok u H Hro) as [->|(e1 & e2 & scr & w & -> & H1 & K1 & R1 & (v & l & Hm) & Hem & Hu & Htot & Hscr)];
    cbn [mbind option_bind].
  { destruct (dev_flags _ _ _ (set_scheduled false (wl u)) H) as [H1 K1]; try done. by exists 0, (set_wl (set_scheduled false (wl u)) u). }
  destruct (dev_flags _ _ _ (set_move (Some (e_pnum e1)) (Some (e_pnum e2)) (move_to_put w) w) H1) as [H2 K2]; try done.
  set (u1 := set_wl (set_move (Some (e_pnum e1)) (Some (e_pnum e2)) (move_to_put w) w) u).
  change (dev_ok [e2; e1] [] u1) in H2. change (keeps (set_wl w u) u1) in K2.
  assert (K : keeps u u1) by (by transitivity (set_wl w u)).
  destruct R1 as (Rw & _ & _ & Rp). destruct Hi as (Hiw & _ & _ & Hip).
  assert (Hw1 : works (wl u1) = [] /\ move_to_put (wl u1) = false) by (cbn; by rewrite Rw, Rp).
  destruct (dev_eba _ _ _ H2 v l _ Hm) as (Hp1 & Hh1 & Hv).
  destruct (out_range _ _ _ _ H2) as [Hp2 Hec2]. destruct (out_range _ _ _ _ (dev_perm _ _ _ _ H2 (Permutation_swap _ _ _))) as [_ Hec1].
  assert (Hms : measure u1 + e_ec e2 + (if scr then e_ec e1 + 2 else 0) = measure u).
  { unfold measure. cbn [u1 set_wl set_move wl mtd free scrub]. rewrite Htot. destruct scr; [|destruct Hscr as [-> _]; lia].
    rewrite Hscr. cbn [length]. change (total (e1 :: ?l)) with (e_ec e1 + total l). lia. }
  change (mtd u) with (mtd u1) in *.
  destruct (ubi_io_read_vid_hdr g (mtd u1) (e_pnum e1)) as [[err b] m] eqn:Er.
  destruct (read_hdr_ok u1 _ _ _ _ _ _ Hp1 Hh1 Er) as (Hs & Hfl & Hc). destruct (dev_read _ _ u1 m H2 Hfl Hs) as [H3 K3].
  eapply ends_from; [exact K|]. eapply ends_from; [exact K3|].
  destruct Hc as [[Hneg Hx]|[Hok ->]].
  { destruct (Z.eqb_spec err 0); [lia|]. destruct (Z.eqb_spec err UBI_IO_BITFLIPS) as [->|]; [done|]. cbn [negb andb].
    destruct (Z.eqb_spec err UBI_IO_PEB_FREE) as [->|]; [done|]. apply out_error_ok; [done|apply Hw1]. }
  replace (negb (err =? 0) && negb (err =? UBI_IO_BITFLIPS)) with false by (by destruct Hok as [->|[-> _]]). cbv iota.
  destruct (ubi_eba_copy_leb _ _ _ _ _) as [err2 u2] eqn:Ec.
  assert (Hem3 : empty (set_mtd m u1) (e_pnum e2)) by (cbn [set_mtd mtd]; by rewrite Hs).
  rewrite <- (Hs (e_pnum e1)) in Ec. change (peb m (e_pnum e1)) with (block (set_mtd m u1) (e_pnum e1)) in Ec.
  destruct (copied_ok (set_mtd m u1) e1 e2 v l err2 u2 H3 Hro Hm Hem3 Hu Ec) as (H4 & K4 & Ew & Hfl4 & Hcase).
  eapply ends_from; [exact K4|]. change (wl (set_mtd m u1)) with (wl u1) in Ew.
  assert (Hms2 : measure u2 = measure u1 - 2 * flips (mtd u1) + 2 * flips (mtd u2)) by (unfold measure; rewrite Ew; lia).
  change (mtd (set_mtd m u1)) with m in *. rewrite <- Ew in Hw1. destruct Hw1 as [Hw1 Hput].
  destruct Hcase as [[[Herr|[-> Hfl2]] [Hm2 Hu2]]|(-> & Hm2 & Hu2)].
  - destruct (Z.ltb_spec err2 0); [|lia]. by apply out_error_ok.
  - cbn [Z.ltb Z.compare Z.eqb Pos.eqb]. apply out_not_moved_ok; try done; [by exists v, l|lia|]. intros _. destruct scr; lia.
  - cbn [Z.ltb Z.compare Z.eqb negb]. apply moved_ok; try done; [by exists v, l|lia|]. intros _.
    destruct scr; [lia|]. destruct Hscr as [_ Hth]. unfold UBI_WL_THRESHOLD in Hth. lia.
Qed.

(** With enough levels every work ends. *)
Lemma works_end n : erases n /\ levels n.
Proof.
  induction n as [|n [IHe IHl]].
  { split; [intros u e t H Hi Hu Hn; lia|]. intros u H Hi Hro Hn. pose proof (measure_nonneg _ _ _ H). lia. }
  split.
  - intros u e t H Hi Hu _ Hn. cbn [do_work set_wl wl set_works works].
    destruct (dev_flags _ _ _ (set_works [] (set_works [EraseWork e t] (wl u))) H) as [H0 K0]; try done.
    change (set_wl ?w (set_wl ?w' u)) with (set_wl w u). set (u0 := set_wl _ u) in *. eapply ends_from; [exact K0|]. apply erase_worker_ok; [done|exact H0| |exact Hu|].
    + destruct Hi as (? & ? & ? & ?). by split_and!.
    + intros Hro. specialize (Hn Hro). change (measure u0) with (measure u). lia.
  - intros u H Hi Hro Hn. cbn [do_work set_wl wl set_works works].
    destruct (dev_flags _ _ _ (set_works [] (set_works [WearLevelingWork] (set_scheduled true (wl u)))) H) as [H0 K0]; try done.
    change (set_wl ?w (set_wl ?w' u)) with (set_wl w u). set (u0 := set_wl _ u) in *. eapply ends_from; [exact K0|]. apply level_worker_ok; [done|exact H0| |exact Hro|].
    + destruct Hi as (? & ? & ? & ?). by split_and!.
    + change (measure u0) with (measure u). lia.
Qed.

(** ** The interface of the unit *)

(** Levels that are enough for one block given back. *)
Definition enough (n : nat) (u : dev) : Prop := 2 * (measure u + UBI_MAX_ERASECOUNTER + 4) + 4 <= Z.of_nat n.

(** A bound on the measure that does not change. *)
Lemma measure_bound out loose u : dev_ok out loose u -> 0 <= peb_count g ->
  measure u <= peb_count g * (UBI_MAX_ERASECOUNTER + 2) + 2 * flips (mtd u).
Proof.
  intros H Hc. pose proof (dev_wl _ _ _ H) as Hok. set (fs := elements (free (wl u)) ++ elements (scrub (wl u))).
  assert (Hsub : fs ⊆ out ++ all (wl u)) by (unfold fs, all, busy; intros x; rewrite !elem_of_app; tauto).
  assert (Hlen : Z.of_nat (length fs) <= peb_count g).
  { assert (Hn : NoDup (pnums fs)).
    { pose proof (ok_nodup _ _ _ Hok) as Hn. unfold all, busy in Hn. unfold fs.
      assert (Hp : out ++ elements (free (wl u)) ++ elements (used (wl u)) ++ elements (scrub (wl u)) ++ prot_entries (wl u)
        ≡ₚ fs ++ out ++ elements (used (wl u)) ++ prot_entries (wl u)) by (unfold fs; solve_Permutation).
      rewrite Hp, fmap_app in Hn. by apply NoDup_app in Hn as (? & _ & _). }
    assert (Hs : pnums fs ⊆ seqZ 0 (peb_count g)).
    { intros p (e & -> & He)%list_elem_of_fmap. apply elem_of_seqZ. destruct (ok_range g _ _ e Hok (Hsub e He)). lia. }
    pose proof (submseteq_length _ _ (NoDup_submseteq _ _ Hn Hs)) as Hl. rewrite length_fmap, length_seqZ in Hl. lia. }
  assert (Htot : total fs <= UBI_MAX_ERASECOUNTER * Z.of_nat (length fs)).
  { clear Hlen. induction fs as [|e l IH]; cbn; [lia|]. destruct (ok_range g _ _ e Hok) as [_ ?]; [apply Hsub; by left|].
    specialize (IH ltac:(intros x Hx; apply Hsub; by right)). unfold total in IH. lia. }
  assert (Happ : forall l l', total (l ++ l') = total l + total l') by (intros l l'; unfold total; induction l as [|x l IH]; cbn in *; lia).
  unfold fs in *. rewrite Happ, length_app in *. unfold measure, UBI_MAX_ERASECOUNTER in *. nia.
Qed.

(** Levels that are always enough. *)
Definition plenty (n : nat) (u : dev) : Prop :=
  0 <= peb_count g /\ 2 * (peb_count g * (UBI_MAX_ERASECOUNTER + 2) + 2 * flips (mtd u) + UBI_MAX_ERASECOUNTER + 4) + 4 <= Z.of_nat n.

Lemma plenty_enough n out loose u : dev_ok out loose u -> plenty n u -> enough n u.
Proof. intros H [Hc Hn]. pose proof (measure_bound _ _ _ H Hc). unfold enough. lia. Qed.

Lemma plenty_keeps n u u' : keeps u u' -> plenty n u -> plenty n u'.
Proof. intros [_ _ _ _ Hf] [Hc Hn]. split; lia. Qed.

Section Calls.
Context (fuel : nat).

(** A block that is not mapped (any more) is taken back. *)
Lemma put_peb_ok u p torture :
  dev_ok [] [p] u -> idle (wl u) -> unmapped u p -> p ∈ pnums (busy (wl u)) -> enough fuel u ->
  exists u', ubi_wl_put_peb g fuel u p torture = Some (0, u') /\ dev_ok [] [] u' /\ idle (wl u') /\ keeps u u'.
Proof.
  intros H Hi Hu Hp Hn. apply list_elem_of_fmap in Hp as (e & -> & He).
  destruct (where_busy g _ _ e (dev_wl _ _ _ H) He) as (Hl & Hwhere).
  assert (Hec : 0 <= e_ec e <= UBI_MAX_ERASECOUNTER)
    by (eapply ok_range; [apply H|]; unfold all; rewrite !elem_of_app; auto).
  unfold ubi_wl_put_peb. rewrite Hl. cbn [mbind option_bind]. destruct Hi as (Hw & Hf & Ht & Hpt). rewrite Hf, Ht. cbn [bool_decide].
  assert (Hout : exists w, take_out (wl u) e = Some (0, w) /\ dev_ok [e] [] (set_wl w u) /\ keeps u (set_wl w u) /\ idle w
    /\ measure (set_wl w u) <= measure u).
  { assert (Htake : forall w, wl_ok g [e] w -> free w = free (wl u) -> busy (wl u) ≡ₚ e :: busy w ->
      dev_ok [e] [] (set_wl w u) /\ keeps u (set_wl w u)).
    { intros w Hok Hfr Hb. destruct (dev_take_busy [] [e_pnum e] u e w H Hok Hfr Hb) as [H' K']. split; [|done].
      destruct H' as [A1 A2 A3 A4]. split; [done..|]. intros Hro. destruct (A4 Hro) as [L1 L2 L3]. split; [done|done|].
      rewrite Forall_forall in *. intros x Hx. destruct (L3 x Hx) as [Hxe|?]; [|by right].
      apply list_elem_of_singleton in Hxe. exfalso. apply (ok_not_in g _ _ _ Hok). rewrite <- Hxe. cbn [app].
      unfold all. rewrite fmap_app, elem_of_app. right. by apply list_elem_of_fmap_2. }
    pose proof (dev_wl _ _ _ H) as Hok. unfold take_out.
    destruct Hwhere as [[-> Hin]|[-> [[-> Hin]|[-> Hin]]]].
    - destruct (take_used g _ _ e Hok Hin) as (t & -> & Hpt' & Hok').
      eexists. split; [done|]. destruct (Htake _ Hok' eq_refl (busy_used _ _ _ Hpt')) as [A B].
      split_and!; done.
    - destruct (take_scrub g _ _ e Hok Hin) as (t & -> & Hpt' & Hok').
      eexists. split; [done|]. destruct (Htake _ Hok' eq_refl (busy_scrub _ _ _ Hpt')) as [A B].
      split_and!; try done. unfold measure. cbn [set_wl wl set_scrub free scrub mtd]. rewrite Hpt'. cbn [length].
      change (total (e :: ?l)) with (e_ec e + total l). lia.
    - destruct (prot_tree_del_ok g _ _ e Hok Hin) as (tp & ta & -> & Hpt' & Hok').
      eexists. split; [done|]. destruct (Htake _ Hok' eq_refl (busy_prot _ _ _ _ Hpt')) as [A B].
      split_and!; done. }
  destruct Hout as (w & -> & H1 & K1 & Hi1 & Hms). cbn [mbind option_bind Z.eqb negb].
  destruct (schedule_erase_ok fuel (set_wl w u) e torture (proj1 (works_end fuel)) H1 Hi1 Hu) as (u' & -> & H' & Hi' & K').
  - pose proof (measure_nonneg _ _ _ H). unfold enough, UBI_MAX_ERASECOUNTER in Hn. lia.
  - intros _. unfold enough, wear in *. destruct torture; lia.
  - exists u'. split_and!; try done. by transitivity (set_wl w u).
Qed.

(** A block whose bits flipped is moved. *)
Lemma scrub_peb_ok u p :
  dev_ok [] [] u -> idle (wl u) -> ro u = false -> p ∈ pnums (busy (wl u)) -> enough fuel u ->
  exists err u', ubi_wl_scrub_peb g fuel u p = Some (err, u') /\ dev_ok [] [] u' /\ idle (wl u') /\ keeps u u'.
Proof.
  intros H Hi Hro Hp Hn. apply list_elem_of_fmap in Hp as (e & -> & He).
  destruct (where_busy g _ _ e (dev_wl _ _ _ H) He) as (Hl & Hwhere).
  assert (Hec : 0 <= e_ec e <= UBI_MAX_ERASECOUNTER) by (eapply ok_range; [apply H|]; unfold all; rewrite !elem_of_app; auto).
  assert (Hm : exists v l, mapped u v l (e_pnum e)).
  { pose proof (live_busy _ _ _ (dev_live _ _ _ H Hro)) as L. rewrite Forall_forall in L.
    destruct (L e He) as [[]%elem_of_nil|?]; done. }
  assert (Hgo : forall w, wl_ok g [e] w -> free w = free (wl u) -> scrub w = scrub (wl u) -> busy (wl u) ≡ₚ e :: busy w -> idle w ->
    ends (t ← wl_tree_add e (scrub w); ensure_wear_leveling (do_work g fuel) (set_wl (set_scrub t w) u)) u).
  { intros w Hok Hf Hs Hb Hiw. destruct (dev_take_busy _ _ u e w H Hok Hf Hb) as [H1 K1].
    destruct (add_scrub g _ _ e Hok) as (t & -> & Hpt & Hok'). cbn [mbind option_bind].
    destruct (dev_put_busy _ _ _ e (set_scrub t w) H1 Hok' eq_refl) as [H2 K2]; [by apply busy_scrub; rewrite Hpt|by right|].
    eapply ends_from; [by transitivity (set_wl w u)|]. apply ensure_ok; [apply works_end|exact H2|done|done|].
    unfold measure, enough in *. cbn [set_wl wl set_scrub free scrub mtd]. rewrite Hpt, Hf, Hs. cbn [length].
    change (total (e :: ?l)) with (e_ec e + total l). unfold measure in Hn. lia. }
  unfold ubi_wl_scrub_peb. rewrite Hl. cbn [mbind option_bind]. pose proof Hi as (Hw & Hf & Ht & Hpt). rewrite Hf, Ht.
  change (bool_decide (None = Some (e_pnum e))) with false. cbn [orb].
  assert (Hnone : ends (Some (0, u)) u) by (by exists 0, u).
  assert (Hend : forall r, ends r u ->
    exists err u', r = Some (err, u') /\ dev_ok [] [] u' /\ idle (wl u') /\ keeps u u') by done.
  pose proof (dev_wl _ _ _ H) as Hok. destruct Hwhere as [[Eu Hin]|[Eu [[-> Hin]|[-> Hin]]]]; rewrite ?Eu.
  - destruct (in_wl_tree e (scrub (wl u))); [by apply Hend|].
    destruct (take_used g _ _ e Hok Hin) as (t & -> & Hpt' & Hok'). cbn [mbind option_bind Z.eqb negb].
    apply Hend. apply (Hgo _ Hok'); [done|done|by apply busy_used|done].
  - by apply Hend.
  - destruct (prot_tree_del_ok g _ _ e Hok Hin) as (tp & ta & -> & Hpt' & Hok'). cbn [mbind option_bind Z.eqb negb].
    apply Hend. apply (Hgo _ Hok'); [done|done|by apply busy_prot|done].
Qed.

(** Whether a block is handed out: it is empty then, and under protection. *)
Lemma get_peb_ok u dtype :
  dev_ok [] [] u -> idle (wl u) -> dtype = UBI_LONGTERM \/ dtype = UBI_SHORTTERM \/ dtype = UBI_UNKNOWN ->
  exists p u', ubi_wl_get_peb g fuel u dtype = Some (p, u') /\ keeps u u' /\ idle (wl u') /\ ro u' = ro u /\ mtd u' = mtd u
    /\ eba u' = eba u
    /\ (p = - ENOSPC /\ u' = u
        \/ 0 <= p < peb_count g /\ dev_ok [] [p] u' /\ p ∈ pnums (busy (wl u'))
           /\ measure u' <= measure u
           /\ (ro u = false -> empty u' p /\ unmapped u' p)).
Proof.
  intros H Hi Hdt. unfold ubi_wl_get_peb. destruct Hi as (Hw & Hf & Ht & Hpt). rewrite Hw. cbn [length Nat.eqb].
  destruct (is_leaf (free (wl u))) eqn:El; cbn [mbind option_bind].
  { exists (- ENOSPC), u. cbn. split_and!; try done. by left. }
  cbn [Z.ltb Z.compare]. apply is_leaf_spec in El.
  assert (Hch : exists e n, choose_peb (free (wl u)) dtype = Some (e, n) /\ e ∈ elements (free (wl u))).
  { unfold choose_peb. destruct (find_wl_entry_in _ WL_FREE_MAX_DIFF El) as (e1 & He1 & Hin1).
    destruct (rb_first_in _ El) as (e2 & He2 & Hin2). destruct (rb_last_in _ El) as (e3 & He3 & Hin3).
    destruct Hdt as [-> | [-> | ->]]; cbn; rewrite ?He1, ?He2, ?He3; cbn [mbind option_bind]; [by eauto..|].
    destruct (s32 (e_ec e3 - e_ec e2) <? WL_FREE_MAX_DIFF).
    - destruct (free (wl u)) as [|c l x r]; [done|]. cbn. do 2 eexists. split; [done|]. set_solver.
    - destruct (find_wl_entry_in (free (wl u)) (Z.quot (s32 (e_ec e2 + WL_FREE_MAX_DIFF)) 2) El) as (e4 & -> & ?). cbn. by eauto. }
  destruct Hch as (e & n & -> & Hin). cbn [mbind option_bind].
  destruct (take_free g _ _ e (dev_wl _ _ _ H) Hin) as (t & -> & Hpf & Hok1). cbn [mbind option_bind].
  destruct (dev_take_free _ _ u e _ H Hok1 Hpf eq_refl) as (H1 & K1 & Hfr).
  destruct (add_prot g _ _ e n Hok1) as (tp & ta & -> & Hpp & Hok2). cbn [mbind option_bind].
  destruct (out_range _ _ _ _ H1) as [Hr Hec].
  set (w := set_prot tp ta (set_free t (wl u))) in *.
  assert (Hb : busy w ≡ₚ e :: busy (set_free t (wl u))).
  { unfold busy. unfold prot_entries at 1. cbn [w set_prot set_free used scrub prot_pnum]. rewrite Hpp.
    by rewrite <- !Permutation_middle. }
  assert (H1' : dev_ok [e] [e_pnum e] (set_wl (set_free t (wl u)) u)).
  { destruct H1 as [A1 A2 A3 A4]. split; [done..|]. intros Hro. destruct (A4 Hro) as [L1 L2 L3]. split; [done|done|].
    eapply Forall_impl; [exact L3|]. intros x [[]%elem_of_nil|?]; by right. }
  destruct (dev_put_busy _ _ _ e w H1' Hok2 eq_refl Hb) as [H2 K2]; [intros _; left; by left|].
  exists (e_pnum e), (set_wl w u). split; [done|]. split; [by transitivity (set_wl (set_free t (wl u)) u)|]. split_and!; try done.
  right. split_and!; [lia|lia|exact H2|rewrite Hb; cbn; by left| |exact Hfr].
  unfold measure. cbn [set_wl wl w set_prot set_free free scrub mtd]. rewrite Hpf. change (total (e :: ?l)) with (e_ec e + total l). lia.
Qed.

End Calls.

End Works.

End UbiWorks.
