(* ===== verification/UbiEbaSpec.v ===== *)
(** * Logical erase blocks on the flash

    What reading, writing and un-mapping an erase block does to the contents of
    the volumes, down to the chip: the works of the wear-levelling unit may
    move any block meanwhile.  The calls return, given enough levels for the
    works. *)

From stdpp Require Import gmap.
From S2P Require Import Prelude Crc32 Cstring Vsprintf Rbtree Ubi UbiIo UbiWl UbiWlSpec UbiWorks UbiEba.

Module UbiEbaSpec.
Import Cstring Vsprintf Rbtree Ubi UbiIo UbiWl UbiWlSpec UbiWorks UbiEba.

Section EbaOk.
Context {M : Type} `{!Mtd M} (g : ubi_geometry) `{!MtdOk M g} (Hg : wf_geometry g) (fuel : nat).

#[local] Abbreviation dev := (device M).
#[local] Abbreviation aloff := (Z.to_nat (vid_hdr_aloffset g)).
#[local] Abbreviation start := (Z.to_nat (leb_start g)).
#[local] Abbreviation block u p := (peb (mtd u) p).
#[local] Abbreviation empty u p := (blank (drop aloff (block u p))).

(** A device between two calls. *)
Definition good (u : dev) : Prop := dev_ok g [] [] u /\ idle (wl u) /\ plenty g fuel u.

(** One erase block has new contents, the others what they had. *)
Record updates (v l : Z) (c : option (list Z)) (u u' : dev) : Prop := {
  upd_leb v' l' : leb g u' v' l' = if bool_decide (v' = v /\ l' = l) then c else leb g u v' l';
  upd_present : present (eba u') = present (eba u);
  upd_vtbl : vtbl u' = vtbl u;
  upd_ro : ro u = true -> ro u' = true;
  upd_flips : flips (mtd u') <= flips (mtd u);
}.

Lemma updates_l v l c u u1 u' : keeps g u u1 -> updates v l c u1 u' -> updates v l c u u'.
Proof.
  intros [K1 K2 K3 K4 K5] [U1 U2 U3 U4 U5]. split; [|congruence|congruence|auto|lia].
  intros v' l'. rewrite U1. by case_bool_decide.
Qed.

Lemma updates_r v l c u u1 u' : updates v l c u u1 -> keeps g u1 u' -> updates v l c u u'.
Proof.
  intros [U1 U2 U3 U4 U5] [K1 K2 K3 K4 K5]. split; [|congruence|congruence|auto|lia].
  intros v' l'. by rewrite K1, U1.
Qed.

Lemma good_keeps u u' : keeps g u u' -> dev_ok g [] [] u' -> idle (wl u') -> good u -> good u'.
Proof. intros K H Hi (_ & _ & Hp). split_and!; [done|done|by eapply plenty_keeps]. Qed.

Lemma good_updates v l c u u' : updates v l c u u' -> dev_ok g [] [] u' -> idle (wl u') -> good u -> good u'.
Proof. intros [_ _ _ _ Hf] H Hi (_ & _ & [Hc Hp]). split_and!; [done|done|]. split; [done|lia]. Qed.

(** ** Un-mapping *)

Lemma mapped_delete (u : dev) v l v' l' q :
  mapped (eba_set u v l UBI_LEB_UNMAPPED) v' l' q <-> ~ (v' = v /\ l' = l) /\ mapped u v' l' q.
Proof.
  unfold mapped, eba_set. cbn [set_eba eba eba_tbl]. change (UBI_LEB_UNMAPPED <? 0) with true. cbv iota.
  rewrite lookup_delete_Some. split; (intros [Hn ?]; split; [|done]).
  - intros [-> ->]. by apply Hn.
  - intros [= -> ->]. by apply Hn.
Qed.

(** The block becomes loose. *)
Lemma dev_unmap u v l p :
  dev_ok g [] [] u -> mapped u v l p ->
  dev_ok g [] [p] (eba_set u v l UBI_LEB_UNMAPPED) /\ unmapped (eba_set u v l UBI_LEB_UNMAPPED) p
  /\ updates v l None u (eba_set u v l UBI_LEB_UNMAPPED).
Proof.
  intros H Hm. pose proof H as [H1 H2 H3 H4]. split_and!.
  - split; [done|done|intros v' l' q [_ Hq]%mapped_delete; by apply H3|].
    intros Hro. destruct (H4 Hro) as [L1 L2 L3]. split; [done|intros v' l' q [_ Hq]%mapped_delete; by eapply L2|].
    eapply Forall_impl; [exact L3|]. cbn. intros e [[]%elem_of_nil|(v' & l' & Hq)].
    destruct (decide (v' = v /\ l' = l)) as [[-> ->]|Hn].
    + left. unfold mapped in *. rewrite Hm in Hq. injection Hq as ->. by left.
    + right. exists v', l'. by apply mapped_delete.
  - intros v' l' [Hn Hq]%mapped_delete. apply Hn. by eapply mapped_unique.
  - split; [|done..]. intros v' l'. unfold leb, eba_set. cbn [set_eba eba eba_tbl mtd].
    change (UBI_LEB_UNMAPPED <? 0) with true. cbv iota. case_bool_decide as Hx.
    + destruct Hx as [-> ->]. by rewrite lookup_delete_eq.
    + by rewrite lookup_delete_ne by (intros [= -> ->]; by apply Hx).
Qed.

Lemma mapped_busy u v l p : dev_ok g [] [] u -> ro u = false -> mapped u v l p -> p ∈ pnums (busy (wl u)).
Proof. intros H Hro Hm. apply (live_mapped _ _ _ _ (dev_live _ _ _ _ H Hro) _ _ _ Hm). Qed.

Lemma lookup_cases u v l : dev_ok g [] [] u ->
  (eba_lookup u v l = UBI_LEB_UNMAPPED /\ leb g u v l = None)
  \/ exists p, eba_lookup u v l = p /\ mapped u v l p /\ 0 <= p < peb_count g /\ held g v l (block u p) /\ v ∈ present (eba u).
Proof.
  intros H. unfold eba_lookup, leb. destruct (eba_tbl (eba u) !! (v, l)) as [p|] eqn:E; [right|by left].
  exists p. split; [done|]. split; [exact E|]. by apply (dev_eba _ _ _ _ H v l p E).
Qed.

Lemma unmap_spec u vol l : good u ->
  exists err u', ubi_eba_unmap_leb g fuel u vol l = Some (err, u') /\ good u'
    /\ (ro u = true /\ err = - EROFS /\ u' = u \/ ro u = false /\ err = 0 /\ updates (vol_id vol) l None u u').
Proof.
  intros G. pose proof G as (H & Hi & Hp). unfold ubi_eba_unmap_leb. destruct (ro u) eqn:Hro.
  { do 2 eexists. split; [done|]. split; [done|]. by left. }
  destruct (lookup_cases u (vol_id vol) l H) as [[-> Hl]|(p & -> & Hm & Hr & _)].
  { change (UBI_LEB_UNMAPPED <? 0) with true. do 2 eexists. split; [done|]. split; [done|]. right. split; [done|]. split; [done|].
    split; [|done..]. intros v' l'. case_bool_decide as Hx; [|done]. by destruct Hx as [-> ->]. }
  destruct (Z.ltb_spec p 0); [lia|]. destruct (dev_unmap u _ _ p H Hm) as (H1 & Hu1 & U1).
  destruct (put_peb_ok g Hg fuel _ p false H1) as (u' & -> & H' & Hi' & K'); [done|done|by apply (mapped_busy u _ _ p H Hro Hm)| |].
  { by eapply plenty_enough. }
  pose proof (updates_r _ _ _ _ _ _ U1 K') as U. do 2 eexists. split; [done|]. split; [by eapply good_updates|]. right. by split_and!.
Qed.

(** ** Reading *)

Lemma sub_sub l (o d off len : nat) : (off + len <= d)%nat -> sub (sub l o d) off len = sub l (o + off) len.
Proof. intros H. unfold sub. rewrite skipn_firstn_comm, take_take, drop_drop. f_equal. lia. Qed.

(** The bytes of a mapped block that a read of the volume gives. *)
Definition shows (c : option (list Z)) (off len : Z) (buf : list Z) : Prop :=
  match c with
  | None => buf = replicate (Z.to_nat len) 0xff
  | Some c => off + len <= Z.of_nat (length c) -> buf = sub c (Z.to_nat off) (Z.to_nat len)
  end.

Lemma read_crc_ok u v l p r : good u -> mapped u v l p -> read_crc g u p = r ->
  match r with
  | inl (err, u') => err < 0 /\ good u' /\ keeps g u u' /\ ro u' = ro u
  | inr (_, u') => good u' /\ keeps g u u' /\ eba u' = eba u /\ wl u' = wl u /\ ro u' = ro u
                   /\ forall q, block u' q = block u q
  end.
Proof.
  intros G Hm Hr. pose proof G as (H & Hi & Hp). destruct (dev_eba _ _ _ _ H _ _ _ Hm) as (Hpr & Hh & _). unfold read_crc in Hr.
  destruct (ubi_io_read_vid_hdr g (mtd u) p) as [[err b] m] eqn:E.
  destruct (read_hdr_ok g Hg u _ _ _ _ _ _ Hpr Hh E) as (Hs & Hfl & Hc). destruct (dev_read g _ _ u m H Hfl Hs) as [H' K'].
  assert (G' : good (set_mtd m u)) by (by eapply good_keeps).
  destruct Hc as [[Hneg Hx]|[Hok _]].
  - destruct (Z.eqb_spec err 0); [lia|]. destruct (Z.eqb_spec err UBI_IO_BITFLIPS) as [->|]; [done|]. cbn [negb andb] in Hr.
    destruct (Z.ltb_spec 0 err); [lia|]. by subst r.
  - replace (negb (err =? 0) && negb (err =? UBI_IO_BITFLIPS)) with false in Hr by (by destruct Hok as [->|[-> _]]). subst r.
    by split_and!.
Qed.

Lemma read_done_ok u v l p buf crc scr : good u -> ro u = false -> mapped u v l p ->
  exists err u', read_done g fuel u p buf 0 crc scr = Some (err, buf, u') /\ good u' /\ keeps g u u'.
Proof.
  intros G Hro Hm. pose proof G as (H & Hi & Hp). unfold read_done.
  destruct (match crc with Some c => _ | None => _ end); [by do 2 eexists|]. destruct scr; [|by do 2 eexists].
  destruct (scrub_peb_ok g Hg fuel u p H Hi Hro) as (err & u' & -> & H' & Hi' & K'); [by eapply mapped_busy|by eapply plenty_enough|].
  do 2 eexists. split; [done|]. split; [by eapply good_keeps|done].
Qed.

Lemma read_spec u vol l off len check :
  good u -> ro u = false -> 0 <= off -> 0 <= len -> off + len <= leb_size g ->
  exists err buf u', ubi_eba_read_leb g fuel u vol l off len check = Some (err, buf, u') /\ good u' /\ keeps g u u'
    /\ (err = 0 -> shows (leb g u (vol_id vol) l) off len buf).
Proof.
  intros G Hro Ho Hl Hle. pose proof G as (H & Hi & Hp). unfold ubi_eba_read_leb.
  destruct (lookup_cases u (vol_id vol) l H) as [[-> ->]|(p & -> & Hm & Hr & Hh & _)].
  { change (UBI_LEB_UNMAPPED <? 0) with true. do 3 eexists. by split_and!. }
  destruct (Z.ltb_spec p 0); [lia|]. set (ck := if _ : bool then false else check). clearbody ck. cbn [read_leb_retry].
  assert (Hcrc : exists r, (if ck then read_crc g u p else inr (0, false, u)) = r /\
    match r with
    | inl (err, u') => err < 0 /\ good u' /\ keeps g u u'
    | inr (_, u') => good u' /\ keeps g u u' /\ eba u' = eba u /\ wl u' = wl u /\ ro u' = ro u
                     /\ forall q, block u' q = block u q
    end).
  { eexists. split; [done|]. destruct ck; [|by split_and!]. pose proof (read_crc_ok u _ _ p _ G Hm eq_refl) as Hc.
    destruct (read_crc g u p) as [[err u']|[? u']]; tauto. }
  destruct Hcrc as (r & -> & Hc). destruct r as [[err u']|[[crc fl] u1]].
  { destruct Hc as (? & ? & ?). do 3 eexists. split; [done|]. split_and!; try done. lia. }
  destruct Hc as (G1 & K1 & Ee & Ew & Er & Hb). cbv beta iota. unfold ubi_io_read_data.
  destruct (wf_leb g Hg) as (Hl1 & Hl2 & Hl3). pose proof (wf_start g Hg) as Hst. destruct (wf_ec g Hg) as [Hwe1 Hwe2], (wf_shift g Hg) as [Hws1 Hws2].
  unfold UBI_EC_HDR_SIZE, UBI_VID_HDR_SIZE in *.
  destruct (ubi_io_read g (mtd u1) p (off + leb_start g) len) as [[err buf] m] eqn:E.
  apply (ubi_io_read_ok g) in E as (Hs & Hfl & Hc); [|done|lia..]. destruct G1 as (Hd1 & Hi1 & Hp1).
  destruct (dev_read g _ _ u1 m Hd1 Hfl Hs) as [Hd2 K2].
  assert (G2 : good (set_mtd m u1)) by (by eapply good_keeps; [exact K2|done|done|split_and!]).
  assert (K : keeps g u (set_mtd m u1)) by (by transitivity u1).
  destruct Hc as [[-> Hok]|[Hneg Hx]].
  2: { destruct (Z.eqb_spec err 0); [lia|]. destruct (Z.eqb_spec err UBI_IO_BITFLIPS) as [->|]; [done|].
    destruct (Z.eqb_spec err (- EBADMSG)) as [->|]; [by destruct Hx|]. do 3 eexists. split; [done|]. by split_and!. }
  assert (Hm2 : mapped (set_mtd m u1) (vol_id vol) l p) by (unfold mapped; cbn; by rewrite Ee).
  set (buf := sub _ _ _). assert (Hshow : shows (leb g u (vol_id vol) l) off len buf).
  { unfold leb. unfold mapped in Hm. rewrite Hm. cbn [fmap option_fmap option_map shows]. intros Hlen.
    unfold data_of in *. unfold buf. rewrite Hb. symmetry.
    pose proof (data_len_bounds g _ _ _ (held_fits _ _ _ _ Hh)) as Hd. rewrite length_sub in Hlen by (pose proof (peb_length (mtd u) p Hr); lia).
    rewrite sub_sub by lia. f_equal. lia. }
  assert (Hro2 : ro (set_mtd m u1) = false) by (cbn; congruence).
  destruct Hok as [->|[-> _]]; cbn [Z.eqb Pos.eqb UBI_IO_BITFLIPS];
    destruct (read_done_ok (set_mtd m u1) _ _ p buf (if ck then Some crc else None) (fl || false) G2 Hro2 Hm2) as (e & u' & Hdn & G' & K');
    destruct (read_done_ok (set_mtd m u1) _ _ p buf (if ck then Some crc else None) true G2 Hro2 Hm2) as (e2 & u2 & Hdn2 & G2' & K2').
  - rewrite orb_comm in Hdn. cbn [orb] in Hdn |- *. rewrite Hdn. do 3 eexists. split; [done|]. split_and!; try done. by transitivity (set_mtd m u1).
  - rewrite Hdn2. do 3 eexists. split; [done|]. split_and!; try done. by transitivity (set_mtd m u1).
Qed.

(** ** Writing to a fresh block *)

(** [n] bytes of 0xff but for [buf] at [off]. *)
Definition written (n off : Z) (buf : list Z) : list Z := overwrite (replicate (Z.to_nat n) 0xff) (Z.to_nat off) buf.

Lemma sub_overwrite_in l (s d o : nat) data :
  (o + length data <= d)%nat -> (s + d <= length l)%nat -> sub (overwrite l (s + o) data) s d = overwrite (sub l s d) o data.
Proof.
  intros Ho Hl. unfold overwrite, sub. rewrite drop_app_le by (rewrite length_take; lia).
  rewrite skipn_firstn_comm. replace (s + o - s)%nat with o by lia.
  rewrite take_app_ge by (rewrite length_take, length_drop; lia). rewrite take_app_ge by (rewrite length_take, length_drop; lia).
  rewrite length_take, length_drop, Nat.min_l by lia. f_equal; [rewrite take_take; f_equal; lia|]. f_equal.
  rewrite skipn_firstn_comm, drop_drop. f_equal; [lia|]. f_equal. lia.
Qed.

Lemma blank_replicate l : blank l -> l = replicate (length l) 0xff.
Proof. intros H. apply blank_eq; [done|by apply Forall_replicate|by rewrite length_replicate]. Qed.

(** A header buffer for block [l] of volume [v], with room for [n] bytes of which
    [k] are used. *)
Definition hdr_for (v l n k : Z) (b : vid_buf) : Prop :=
  buf_ok g b /\ fits g v l (vb_hdr b) /\ data_len g (vb_hdr b) = n /\ used_len g (vb_hdr b) = k.

Lemma hdr_for_sealed v l n k b : hdr_for v l n k b -> hdr_for v l n k (set_hdr (seal_vid (vb_hdr b)) b).
Proof.
  intros ((Hv & Hr) & [F1 F2 F3] & Hd). split; [split; [by apply seal_vid_ok|done]|]. split; [by split|done].
Qed.

Lemma hdr_for_sqnum v l n k b sq : hdr_for v l n k b -> in_word 64 sq -> hdr_for v l n k (set_sqnum sq b).
Proof.
  intros ((Hv & Hr) & [F1 F2 F3] & Hd) Hsq. destruct Hv as [V1 V2 V3 V4]. split; [split; [by split|done]|]. split; [by split|done].
Qed.

(** What [write_fresh] comes to: nothing but the works, or the new contents. *)
Definition wrote (v l : Z) (c : list Z) (u u' : dev) (err : Z) : Prop :=
  keeps g u u' /\ err <= 0 /\ (err <> 0 \/ ro u' = true) \/ err = 0 /\ ro u' = false /\ updates v l (Some c) u u'.

Lemma wrote_l v l c u u1 u' err : keeps g u u1 -> wrote v l c u1 u' err -> wrote v l c u u' err.
Proof.
  intros K [(K' & ? & ?)|(? & ? & U)]; [left; split_and!; [by transitivity u1|done|done]|right]. split_and!; try done.
  by eapply updates_l.
Qed.

Lemma wrote_ro v l c u u1 err : err <= 0 -> good u -> keeps g u u1 -> dev_ok g [] [] (ubi_ro_mode u1) -> idle (wl u1) ->
  good (ubi_ro_mode u1) /\ wrote v l c u (ubi_ro_mode u1) err.
Proof.
  intros Hc G K H Hi. assert (K' : keeps g u (ubi_ro_mode u1)).
  { etransitivity; [exact K|]. split; try done. }
  split; [by eapply good_keeps|]. left. split_and!; [done|done|by right].
Qed.

Lemma dev_ro_loose out loose loose' u : dev_ok g out loose u -> dev_ok g out loose' (ubi_ro_mode u).
Proof. intros [H1 H2 H3 _]. by split. Qed.

(** The writes to a block that was handed out. *)
Lemma write_block_ok (u : dev) p v l n k b buf off err b' m :
  0 <= p < peb_count g -> hdr_for v l n k b -> bytes buf -> 0 <= off -> off + Z.of_nat (length buf) <= k ->
  (ro u = false -> empty u p) -> ubi_io_write_vid_hdr g (ro u) (mtd u) p b = (err, b', m) ->
  forall err' m', (if (err =? 0) && negb (bool_decide (buf = [])) then ubi_io_write_data g (ro u) m buf p off else (err, m)) = (err', m') ->
  only g p (mtd u) m' /\ (ro u = true -> m' = mtd u /\ err' = - EROFS) /\ hdr_for v l n k b'
  /\ (hard err' \/ err' = 0 /\ ro u = false /\ held g v l (peb m' p) /\ data_of g (peb m' p) = written n off buf).
Proof.
  intros Hp Hb Hbuf Ho Hn He E err' m' E'.
  destruct (wf_leb g Hg) as (Hl1 & Hl2 & Hl3). pose proof (wf_start g Hg) as Hst. destruct (wf_ec g Hg) as [? ?], (wf_shift g Hg) as [? ?].
  unfold UBI_EC_HDR_SIZE, UBI_VID_HDR_SIZE in *. pose proof Hb as (Hbo & Hf & Hd & Hk).
  pose proof (data_len_bounds g _ _ _ Hf) as Hdl. pose proof (used_len_bounds g Hg _ _ _ Hf) as Hul. rewrite Hd in Hdl, Hul. rewrite Hk in Hul.
  assert (Her : ro u = true -> err = - EROFS).
  { intros Hr. unfold ubi_io_write_vid_hdr, ubi_io_write in E. rewrite Hr in E. by injection E. }
  apply (ubi_io_write_vid_hdr_ok g Hg) in E as (Ho1 & Hr1 & -> & _ & Hc1); [|done|done].
  pose proof (hdr_for_sealed _ _ _ _ _ Hb) as Hb'.
  destruct Hc1 as [[Hneg Hx]|(-> & Hro & Hok)].
  { destruct (Z.eqb_spec err 0); [lia|]. cbn [andb] in E'. injection E' as <- <-. split_and!; try done; [by auto|by left]. }
  destruct (Hok (He Hro)) as [Hh Hbl]. pose proof (peb_length m p Hp) as Hlen.
  assert (Hdata : forall blk, has_hdr g blk (vb_hdr (set_hdr (seal_vid (vb_hdr b)) b)) -> blk = overwrite (peb m p) (start + Z.to_nat off) buf ->
    held g v l blk /\ data_of g blk = written n off buf).
  { intros blk Hhb Eb. destruct Hb' as (_ & Hf' & Hd' & Hk').
    assert (Hat : hdr_at g blk = vb_hdr (set_hdr (seal_vid (vb_hdr b)) b)) by apply Hhb. split.
    - split; [by rewrite Hat|by rewrite Hat|]. rewrite Hat, Hd', Hk'. intros i Hi. rewrite Eb.
      pose proof (drop_overwrite (peb m p) (start + Z.to_nat off) buf (start + i) ltac:(lia) ltac:(lia)) as Hdr.
      rewrite <- (Nat.add_0_r (start + i)), !nth_lookup, <- lookup_drop, Hdr, lookup_drop, Nat.add_0_r.
      destruct (lookup_lt_is_Some_2 (peb m p) (start + i) ltac:(lia)) as [x Hx]. rewrite Hx. cbn.
      eapply (Forall_lookup_1 _ _ i _ Hbl). by rewrite lookup_drop.
    - unfold data_of. rewrite Hat, Hd', Eb. rewrite sub_overwrite_in by lia. unfold written. f_equal.
      rewrite (blank_replicate (sub _ _ _)) by (by eapply blank_sub). by rewrite length_sub by lia. }
  change (0 =? 0) with true in E'. cbn [andb] in E'. case_bool_decide as Hnil; cbn [negb] in E'.
  - injection E' as <- <-. split_and!; try done; [intros Hr; congruence|]. right. split; [done|]. split; [done|]. apply Hdata; [done|]. subst buf.
    unfold overwrite. cbn [length app]. by rewrite Nat.add_0_r, take_drop.
  - unfold ubi_io_write_data in E'. apply (ubi_io_write_ok g) in E' as (Ho2 & Hr2 & _ & Hc2); [|done|lia|done|lia].
    split; [by transitivity m|]. split; [intros Hr; congruence|]. split; [done|].
    destruct Hc2 as [?|(-> & _ & Hok2)]; [by left|right]. split; [done|]. split; [done|].
    assert (E2 : peb m' p = overwrite (peb m p) (start + Z.to_nat off) buf).
    { rewrite Hok2; [f_equal; lia|done|]. eapply blank_sub; [exact Hbl|lia]. }
    rewrite E2. apply Hdata; [|done]. apply has_hdr_overwrite; [done|lia|done].
Qed.

Lemma leb_mapped (u : dev) v l p : leb g u v l = None -> ~ mapped u v l p.
Proof. unfold leb, mapped. intros Hl Hm. by rewrite Hm in Hl. Qed.

Lemma busy_entry u loose p : dev_ok g [] loose u -> p ∈ pnums (busy (wl u)) ->
  exists e, e_pnum e = p /\ e_pnum e ∉ pnums (elements (free (wl u))).
Proof.
  intros H (e & -> & He)%list_elem_of_fmap. exists e. split; [done|]. intros Hf.
  pose proof (ok_nodup _ _ _ (dev_wl _ _ _ _ H)) as Hn. cbn [app] in Hn. unfold all in Hn. rewrite fmap_app in Hn.
  apply NoDup_app in Hn as (_ & Hn & _). apply (Hn _ Hf). by apply list_elem_of_fmap_2.
Qed.

Lemma write_once_ok u v l n k b buf off dtype :
  good u -> hdr_for v l n k b -> bytes buf -> 0 <= off -> off + Z.of_nat (length buf) <= k -> v ∈ present (eba u) ->
  leb g u v l = None -> dtype = UBI_LONGTERM \/ dtype = UBI_SHORTTERM \/ dtype = UBI_UNKNOWN ->
  exists r, write_once g fuel u v l b buf off dtype = Some r
    /\ match r with
       | inl (err, u') => good u' /\ wrote v l (written n off buf) u u' err
       | inr (b', u') => good u' /\ keeps g u u' /\ hdr_for v l n k b'
       end.
Proof.
  intros G Hb Hbuf Ho Hn Hv Hl Hdt. pose proof G as (H & Hi & Hp). unfold write_once.
  destruct (get_peb_ok g Hg fuel u dtype H Hi Hdt) as (p & u1 & -> & K1 & Hi1 & Hro1 & Em & Ee & Hc). cbn [mbind option_bind].
  destruct Hc as [[-> ->]|(Hpr & H1 & Hpb & _ & Hfr)].
  { eexists. split; [done|]. split; [done|]. left. split_and!; [done|done|by left]. }
  destruct (Z.ltb_spec p 0); [lia|]. rewrite <- Hro1 in Hfr.
  assert (Hun : ro u1 = false -> unmapped u1 p) by (intros Hr; exact (proj2 (Hfr Hr))).
  destruct (ubi_io_write_vid_hdr g (ro u1) (mtd u1) p b) as [[e1 b1] m1] eqn:E1.
  destruct (if (e1 =? 0) && negb (bool_decide (buf = [])) then _ else _) as [e2 m2] eqn:E2.
  destruct (write_block_ok u1 p v l n k b buf off e1 b1 m1 Hpr Hb Hbuf Ho Hn (fun Hr => proj1 (Hfr Hr)) E1 e2 m2 E2)
    as (Honly & Hrm & Hb1 & Hc2).
  assert (Hst : dev_ok g [] [p] (set_mtd m2 u1) /\ keeps g u1 (set_mtd m2 u1)).
  { destruct (ro u1) eqn:Hr; [destruct (Hrm eq_refl) as [-> _]; by apply dev_read|].
    destruct (busy_entry u1 _ p H1 Hpb) as (e & <- & Hef). apply (dev_write g _ _ u1 m2 e); try done. by apply Hun. }
  destruct Hst as [H2 K2]. assert (K12 : keeps g u (set_mtd m2 u1)) by (by transitivity u1).
  destruct (Z.eqb_spec e2 0) as [->|Hne2].
  { destruct Hc2 as [[? _]|(_ & Hr & Hh & Hd)]; [lia|]. eexists. split; [done|].
    assert (U : updates v l (Some (written n off buf)) u (eba_set (set_mtd m2 u1) v l p)).
    { eapply updates_l; [exact K12|]. split; [|done..]. intros v' l'. rewrite leb_set by lia. cbn [set_mtd mtd]. by rewrite Hd. }
    split; [eapply good_updates; [exact U| |exact Hi1|done]|right; by split_and!].
    apply (dev_map g _ [p]); [done|done|done|cbn; by rewrite Ee|]. intros _. split; [done|].
    split; [intros q Hq Hqp; by apply list_elem_of_singleton in Hq|].
    intros q Hq. exfalso. unfold mapped in Hq. cbn [set_mtd eba] in Hq. rewrite Ee in Hq. by eapply leb_mapped. }
  destruct (negb (e2 =? - EIO) || negb (bad_allowed g)) eqn:Eg.
  { eexists. split; [done|]. apply wrote_ro; [destruct Hc2 as [[? _]|[? _]]; lia|done|done|by eapply dev_ro_loose|exact Hi1]. }
  assert (Hr : ro u1 = false) by (destruct (ro u1); [|done]; destruct (Hrm eq_refl) as [_ ->]; done).
  destruct (put_peb_ok g Hg fuel (set_mtd m2 u1) p true H2 Hi1) as (u3 & -> & H3 & Hi3 & K3);
    [by apply Hun|exact Hpb|eapply plenty_enough; [exact H2|by eapply plenty_keeps]|].
  assert (K : keeps g u u3) by (by transitivity (set_mtd m2 u1)). cbn [mbind option_bind Z.eqb negb].
  eexists. split; [done|]. cbn. split; [by eapply good_keeps|done].
Qed.

Lemma write_fresh_ok t : forall u v l n k b buf off dtype,
  good u -> hdr_for v l n k b -> bytes buf -> 0 <= off -> off + Z.of_nat (length buf) <= k -> v ∈ present (eba u) ->
  leb g u v l = None -> dtype = UBI_LONGTERM \/ dtype = UBI_SHORTTERM \/ dtype = UBI_UNKNOWN ->
  exists err u', write_fresh g fuel t u v l b buf off dtype = Some (err, u') /\ good u'
    /\ wrote v l (written n off buf) u u' err.
Proof.
  induction t as [|t IH]; intros u v l n k b buf off dtype G Hb Hbuf Ho Hn Hv Hl Hdt; cbn [write_fresh];
    destruct (write_once_ok u v l n k b buf off dtype G Hb Hbuf Ho Hn Hv Hl Hdt) as (r & -> & Hr); cbn [mbind option_bind];
    (destruct r as [[err u']|[b' u']]; [do 2 eexists; split; [done|exact Hr]|]); destruct Hr as (G' & K' & Hb');
    pose proof G' as (H' & Hi' & _).
  - do 2 eexists. split; [done|]. apply wrote_ro; [done|done|done|by eapply dev_ro_loose|done].
  - destruct (next_sqnum u') as [sq u4] eqn:En. destruct (dev_next g _ _ _ _ _ H' En) as (H4 & K4 & Hsq & _ & Ew & _ & _).
    assert (K : keeps g u u4) by (by transitivity u').
    destruct (IH u4 v l n k (set_sqnum sq b') buf off dtype) as (err & u5 & -> & G5 & W); try done.
    + eapply good_keeps; [exact K|done|by rewrite Ew|done].
    + by apply hdr_for_sqnum.
    + by destruct K as [_ -> _ _ _].
    + by destruct K as [-> _ _ _ _].
    + do 2 eexists. split; [done|]. split; [done|]. by eapply wrote_l.
Qed.

(** ** The calls *)

(** A volume the device has, with a sensible layout. *)
Record vol_ok (u : dev) (vol : geometry) : Prop := {
  vol_present : vol_id vol ∈ present (eba u);
  vol_range : 0 <= vol_id vol < 2 ^ 31;
  vol_pad : 0 <= data_pad vol < leb_size g /\ (min_io_size g | data_pad vol);
}.

Lemma vol_ok_keeps u u' vol : keeps g u u' -> vol_ok u vol -> vol_ok u' vol.
Proof. intros [_ K _ _ _] [? ? ?]. split; [by rewrite K|done..]. Qed.

Lemma vol_ok_updates u u' v l c vol : updates v l c u u' -> vol_ok u vol -> vol_ok u' vol.
Proof. intros [_ K _ _ _] [? ? ?]. split; [by rewrite K|done..]. Qed.

Lemma new_hdr u vol l type copy size used crc sq k :
  vol_ok u vol -> 0 <= l < 2 ^ 31 -> in_word 64 sq -> in_word 32 crc -> 0 <= copy <= 1 -> in_word 32 size ->
  type = UBI_VID_DYNAMIC /\ k = leb_size g - data_pad vol
  \/ type = UBI_VID_STATIC /\ k = ALIGN size (min_io_size g) /\ 0 < size <= leb_size g - data_pad vol ->
  hdr_for (vol_id vol) l (leb_size g - data_pad vol) k (vid_in_buf g (new_vid type copy (vol_id vol) l size used (data_pad vol) crc sq)).
Proof.
  intros [_ Hv [Hp Hd]] Hl Hsq Hcrc Hcp Hsz Ht. destruct (wf_leb g Hg) as (Hl1 & Hl2 & Hl3).
  pose proof (wf_start g Hg). destruct (wf_ec g Hg), (wf_shift g Hg). unfold UBI_EC_HDR_SIZE, UBI_VID_HDR_SIZE in *.
  assert (E : u32 (vol_id vol) = vol_id vol /\ u32 l = l /\ u32 size = size /\ u32 (data_pad vol) = data_pad vol).
  { split_and!; apply wrap_small; try done; unfold in_word; lia. }
  destruct E as (E1 & E2 & E3 & E5). pose proof (wrap_in_word 32 used ltac:(lia)) as Hus.
  unfold new_vid. rewrite E1, E2, E3, E5.
  assert (Hw : in_word 32 (vol_id vol) /\ in_word 32 l /\ in_word 32 (data_pad vol)) by (unfold in_word; lia).
  split; [|split; [|split]].
  - apply zalloc_ok; [done|]. split; cbn.
    + split_and!; [done|destruct Ht as [[-> _]|[-> _]]; done|unfold in_word; lia|by unfold ubi_get_compat; destruct (_ =? _)].
    + by destruct Hw as (? & ? & ?).
    + done.
    + split_and!; try done; by repeat (apply Forall_cons; split; [done|]).
  - split; cbn; [split_and!; try done; lia|done|]. destruct Ht as [[-> _]|(-> & _ & ?)]; [by left|by right].
  - done.
  - unfold used_len, data_len. cbn. destruct Ht as [[-> ->]|(-> & -> & _)]; done.
Qed.

Lemma write_leb_spec u vol l buf off dtype :
  good u -> vol_ok u vol -> 0 <= l < 2 ^ 31 -> bytes buf -> 0 <= off ->
  off + Z.of_nat (length buf) <= leb_size g - data_pad vol -> leb g u (vol_id vol) l = None ->
  dtype = UBI_LONGTERM \/ dtype = UBI_SHORTTERM \/ dtype = UBI_UNKNOWN ->
  exists err u', ubi_eba_write_leb g fuel u vol l buf off dtype = Some (err, u') /\ good u'
    /\ wrote (vol_id vol) l (written (leb_size g - data_pad vol) off buf) u u' err.
Proof.
  intros G Hv Hl Hb Ho Hn Hnone Hdt. pose proof G as (H & Hi & Hp). unfold ubi_eba_write_leb. destruct (ro u) eqn:Hro.
  { do 2 eexists. split; [done|]. split; [done|]. left. split_and!; [done|done|by left]. }
  destruct (lookup_cases u (vol_id vol) l H) as [[-> _]|(p & _ & Hm & _)]; [|by destruct (leb_mapped _ _ _ _ Hnone Hm)].
  change (0 <=? UBI_LEB_UNMAPPED) with false. cbv iota. destruct (next_sqnum u) as [sq u1] eqn:En.
  destruct (dev_next g _ _ _ _ _ H En) as (H1 & K1 & Hsq & _ & Ew & _ & _).
  destruct (write_fresh_ok UBI_IO_RETRIES u1 (vol_id vol) l (leb_size g - data_pad vol) (leb_size g - data_pad vol)
    (vid_in_buf g (new_vid UBI_VID_DYNAMIC 0 (vol_id vol) l 0 0 (data_pad vol) 0 sq)) buf off dtype) as (err & u' & -> & G' & W); try done.
  - eapply good_keeps; [exact K1|done|by rewrite Ew|done].
  - by eapply new_hdr; [exact Hv|..]; [..|left].
  - destruct K1 as [_ -> _ _ _]. apply Hv.
  - by destruct K1 as [-> _ _ _ _].
  - do 2 eexists. split; [done|]. split; [done|]. by eapply wrote_l.
Qed.

Lemma write_st_spec u vol l buf len dtype used :
  good u -> vol_ok u vol -> 0 <= l < 2 ^ 31 -> bytes buf -> 0 < len <= leb_size g - data_pad vol ->
  ALIGN len (min_io_size g) <= Z.of_nat (length buf) -> leb g u (vol_id vol) l = None ->
  dtype = UBI_LONGTERM \/ dtype = UBI_SHORTTERM \/ dtype = UBI_UNKNOWN ->
  let n := if l =? used - 1 then ALIGN len (min_io_size g) else len in
  exists err u', ubi_eba_write_leb_st g fuel u vol l buf len dtype used = Some (err, u') /\ good u'
    /\ wrote (vol_id vol) l (written (leb_size g - data_pad vol) 0 (take (Z.to_nat n) buf)) u u' err.
Proof.
  intros G Hv Hl Hb Hlen Hbl Hnone Hdt n. pose proof G as (H & Hi & Hp). unfold ubi_eba_write_leb_st.
  destruct (vol_pad _ _ Hv) as [Hpad Hdiv]. destruct (wf_leb g Hg) as (Hl1 & Hl2 & Hl3).
  pose proof (wf_start g Hg). destruct (wf_ec g Hg) as [He1 He2], (wf_shift g Hg) as [Hs1 Hs2].
  unfold UBI_EC_HDR_SIZE, UBI_VID_HDR_SIZE in *.
  destruct (ro u) eqn:Hro. { do 2 eexists. split; [done|]. split; [done|]. left. split_and!; [done|done|by left]. }
  fold n. destruct (next_sqnum u) as [sq u1] eqn:En.
  destruct (dev_next g _ _ _ _ _ H En) as (Hd1 & K1 & Hsq & _ & Ew & _ & _).
  set (crc := crc32 _ _). assert (Hcrc : in_word 32 crc) by (by apply crc32_word, Forall_take).
  assert (Hh : hdr_for (vol_id vol) l (leb_size g - data_pad vol) (ALIGN len (min_io_size g))
    (vid_in_buf g (new_vid UBI_VID_STATIC 0 (vol_id vol) l len used (data_pad vol) crc sq))).
  { eapply new_hdr; try done; [unfold in_word; lia|by right]. }
  pose proof Hh as (_ & Hf & _). assert (Hn : len <= ALIGN len (min_io_size g) /\ n <= ALIGN len (min_io_size g)).
  { destruct (min_io_pow g Hg) as (k & Hk & Hm). assert (len <= ALIGN len (min_io_size g)); [|unfold n; destruct (_ =? _); lia].
    rewrite Hm in *. eapply (ALIGN_bounds len k (leb_size g - data_pad vol)); [done|lia|].
    apply Z.divide_sub_r; [rewrite <- Hm; apply (wf_leb_io g Hg)|done]. }
  clearbody n.
  destruct (write_fresh_ok UBI_IO_RETRIES u1 (vol_id vol) l _ _ _ (take (Z.to_nat n) buf) 0 dtype
    ltac:(eapply good_keeps; [exact K1|done|by rewrite Ew|done]) Hh) as (err & u' & -> & G' & W); try done.
  - by apply Forall_take.
  - rewrite length_take. lia.
  - destruct K1 as [_ -> _ _ _]. apply Hv.
  - by destruct K1 as [-> _ _ _ _].
  - do 2 eexists. split; [done|]. split; [done|]. by eapply wrote_l.
Qed.

(** ** The volume table *)

#[local] Abbreviation LAYOUT := UBI_LAYOUT_VOLUME_ID.

(** The contents of a copy of table [t]. *)
Definition copy_of (t : list ubi_vtbl_record) : option (list Z) := Some (written (leb_size g) 0 (vtbl_image g t)).

(** What has happened to copy [i]. *)
Record copy_step (i : Z) (u u' : dev) (err : Z) : Prop := {
  cs_good : good u';
  cs_code : err <= 0;
  cs_present : present (eba u') = present (eba u);
  cs_vtbl : vtbl u' = vtbl u;
  cs_others v l : ~ (v = LAYOUT /\ l = i) -> leb g u' v l = leb g u v l;
  cs_done : err = 0 -> ro u' = false -> leb g u' LAYOUT i = copy_of (vtbl u);
  cs_ro : ro u = true -> err <> 0 /\ u' = u;
}.

Lemma write_copies_step n i u :
  good u -> vol_ok u (layout_volume g) -> 0 <= i < 2 ^ 31 -> bytes (vtbl_image g (vtbl u)) ->
  Z.of_nat (length (vtbl_image g (vtbl u))) <= leb_size g ->
  exists err u', copy_step i u u' err
    /\ write_copies g fuel (S n) i u = if err =? 0 then write_copies g fuel n (i + 1) u' else Some (err, u').
Proof.
  intros G Hv Hi Hb Hl. cbn [write_copies].
  destruct (unmap_spec u (layout_volume g) i G) as (e1 & u1 & -> & G1 & [(Hro & -> & ->)|(Hro & -> & U1)]); cbn [mbind option_bind].
  { exists (- EROFS), u. split; [|done]. split; try done. }
  cbn [Z.eqb negb]. pose proof U1 as [L1 P1 V1 R1 F1].
  destruct (write_leb_spec u1 (layout_volume g) i (vtbl_image g (vtbl u1)) 0 UBI_LONGTERM) as (e2 & u2 & -> & G2 & W);
    try done; [by eapply vol_ok_updates|by rewrite V1|rewrite V1; cbn [layout_volume data_pad]; lia|by rewrite L1, bool_decide_true|by left|].
  cbn [mbind option_bind]. exists e2, u2. split; [|by destruct (Z.eqb_spec e2 0) as [->|]].
  change (data_pad (layout_volume g)) with 0 in W. rewrite Z.sub_0_r, V1 in W.
  destruct W as [([L2 P2 V2 R2 F2] & Hc & Hf)|(-> & Hr2 & [L2 P2 V2 R2 F2])]; split; try done; try congruence.
  - intros v l Hx. rewrite L2, L1. by rewrite bool_decide_false.
  - intros -> Hr. destruct Hf; congruence.
  - intros v l Hx. rewrite L2, L1. by rewrite !bool_decide_false.
  - intros _ _. by rewrite L2, bool_decide_true.
Qed.

Lemma change_vtbl_spec u idx rec :
  let t := <[Z.to_nat idx := default empty_vtbl_record rec]> (vtbl u) in
  good u -> vol_ok u (layout_volume g) -> bytes (vtbl_image g t) -> Z.of_nat (length (vtbl_image g t)) <= leb_size g ->
  exists err u', ubi_change_vtbl_record g fuel u idx rec = Some (err, u') /\ good u' /\ vtbl u' = t
    /\ present (eba u') = present (eba u)
    /\ (forall v l, v <> LAYOUT -> leb g u' v l = leb g u v l)
    /\ (err = 0 -> ro u' = false -> leb g u' LAYOUT 0 = copy_of t /\ leb g u' LAYOUT 1 = copy_of t)
    /\ (leb g u' LAYOUT 0 = copy_of t \/ leb g u' LAYOUT 1 = leb g u LAYOUT 1)
    /\ (ro u = true -> err <> 0) /\ err <= 0.
Proof.
  intros t (H & Hi & Hp) Hv Hb Hl. unfold ubi_change_vtbl_record. fold t. set (u0 := set_vtbl t u).
  assert (G0 : good u0).
  { split_and!; [|done|done]. destruct H as [H1 H3 H4 H5]. split; [done..|]. intros Hro. destruct (H5 Hro). by split. }
  assert (Hv0 : vol_ok u0 (layout_volume g)) by (by destruct Hv).
  unfold UBI_LAYOUT_VOLUME_EBS.
  destruct (write_copies_step 1 0 u0 G0 Hv0 ltac:(lia) Hb Hl) as (e1 & u1 & [G1 C1 P1 V1 O1 D1 R1] & ->).
  assert (HO : forall v l, v <> LAYOUT -> leb g u1 v l = leb g u v l) by (intros v l Hx; by rewrite O1 by tauto).
  assert (HO1 : leb g u1 LAYOUT 1 = leb g u LAYOUT 1) by (by rewrite O1 by lia).
  destruct (Z.eqb_spec e1 0) as [->|Hne].
  2: { exists e1, u1. split_and!; try done. by right. }
  assert (Hv1 : vol_ok u1 (layout_volume g)) by (destruct Hv0; split; [by rewrite P1|done..]).
  change (vtbl u0) with t in V1, D1.
  destruct (write_copies_step 0 (0 + 1) u1 G1 Hv1 ltac:(lia)) as (e2 & u2 & [G2 C2 P2 V2 O2 D2 R2] & ->); [by rewrite V1..|].
  change (0 + 1) with 1 in *.
  exists e2, u2. split; [by destruct (Z.eqb_spec e2 0) as [->|]|]. split; [done|]. split; [by rewrite V2, V1|].
  split; [by rewrite P2, P1|]. split; [intros v l Hx; rewrite O2 by tauto; by apply HO|].
  assert (E0 : leb g u2 LAYOUT 0 = leb g u1 LAYOUT 0) by (by rewrite O2 by lia).
  split; [|split; [|split; [|done]]].
  - intros -> Hr. assert (Hr1 : ro u1 = false) by (destruct (ro u1); [by destruct (R2 eq_refl)|done]).
    by rewrite E0, D1, D2, V1 by done.
  - destruct (ro u1) eqn:Hr1; [right; destruct (R2 eq_refl) as [_ ->]; done|left]. by rewrite E0, D1.
  - intros Hr. by destruct (R1 Hr).
Qed.

End EbaOk.

(** ** A new device *)

(** A tree of the unit from a list of entries. *)
Fixpoint wl_tree_of (es : list ubi_wl_entry) : option (tree ubi_wl_entry) :=
  match es with
  | [] => Some Leaf
  | e :: es => t ← wl_tree_of es; wl_tree_add e t
  end.

Lemma wl_tree_of_ok es : NoDup (pnums es) -> exists t, wl_tree_of es = Some t /\ wl_tree t /\ elements t ≡ₚ es.
Proof.
  induction es as [|e es IH]; cbn [wl_tree_of]; intros Hn.
  - exists Leaf. split; [done|]. split; [|done]. split; [by exists O; constructor|constructor].
  - rewrite fmap_cons in Hn. apply NoDup_cons in Hn as [He Hn]. destruct (IH Hn) as (t & -> & Ht & Hp). cbn [mbind option_bind].
    destruct (wl_tree_add_ok e t Ht) as (t' & -> & Ht' & Hp'); [by rewrite Hp|]. exists t'. split_and!; [done|done|by rewrite Hp', Hp].
Qed.

(** All blocks are erased and free, [vols] are the volumes. *)
Definition new_entries (g : ubi_geometry) : list ubi_wl_entry := (fun p => Entry 1 p) <$> seqZ 0 (peb_count g).

Definition new_unit (g : ubi_geometry) : wl_unit :=
  Wl Leaf (default Leaf (wl_tree_of (new_entries g))) Leaf Leaf Leaf
    (list_to_map ((fun e => (e_pnum e, e)) <$> new_entries g)) 0 1 [] false None None false.

Definition new_device {M} (g : ubi_geometry) (m : M) (vols : gset Z) (t : list ubi_vtbl_record) : device M :=
  Device m false (new_unit g) (Pools 0 0 0 0 (peb_count g) 0) (EbaUnit 1 ∅ vols) t.

Lemma new_device_good {M} `{!Mtd M} g `{!MtdOk M g} fuel (m : M) vols t :
  (forall p, 0 <= p < peb_count g -> blank (drop (Z.to_nat (vid_hdr_aloffset g)) (peb m p))) ->
  plenty g fuel (new_device g m vols t) -> good g fuel (new_device g m vols t).
Proof.
  intros Hb Hp.
  assert (Hpn : pnums (new_entries g) = seqZ 0 (peb_count g)).
  { unfold new_entries. rewrite <- list_fmap_compose. apply list_fmap_id. }
  assert (Hn : NoDup (pnums (new_entries g))) by (rewrite Hpn; apply NoDup_seqZ).
  destruct (wl_tree_of_ok _ Hn) as (f & Hf & Hwf & Hperm).
  assert (Hleaf : wl_tree (@Leaf ubi_wl_entry)) by (split; [by exists O; constructor|constructor]).
  assert (Hall : all (new_unit g) = elements f) by (unfold all, new_unit; cbn; rewrite Hf; cbn; by rewrite app_nil_r).
  split_and!; [|done|done]. split; [split|done| |].
  - cbn. rewrite Hf. by split_and!.
  - cbn. split_and!; [by exists O; constructor|constructor|by exists O; constructor|done].
  - cbn [app]. change (wl (new_device g m vols t)) with (new_unit g). by rewrite Hall, Hperm.
  - cbn [app]. change (wl (new_device g m vols t)) with (new_unit g). rewrite Hall, Hperm. apply Forall_forall.
    intros e He. pose proof He as He'. unfold new_entries in He. apply list_elem_of_fmap in He as (p & -> & Hr).
    apply elem_of_seqZ in Hr. split_and!; cbn; try lia; [|unfold UBI_MAX_ERASECOUNTER; lia].
    apply elem_of_list_to_map_1; [|by apply (list_elem_of_fmap_2 (fun e => (e_pnum e, e)) _ (Entry 1 p))].
    rewrite <- list_fmap_compose. apply Hn.
  - intros v l p Hm. by unfold mapped in Hm; cbn in Hm; rewrite lookup_empty in Hm.
  - intros _. split; cbn.
    + rewrite Hf. cbn. rewrite Hperm. apply Forall_forall. intros e He. unfold new_entries in He.
      apply list_elem_of_fmap in He as (p & -> & Hr). apply elem_of_seqZ in Hr. apply Hb. cbn. lia.
    + intros v l p Hm. by unfold mapped in Hm; cbn in Hm; rewrite lookup_empty in Hm.
    + constructor.
Qed.

(** The small flash with two volumes and the layout volume, and levels enough. *)
Definition sample_vtbl : list ubi_vtbl_record :=
  [VtblRec 1 1 0 UBI_VID_STATIC false (bytes_of "retries"); VtblRec 3 1 0 UBI_VID_DYNAMIC false (bytes_of "part")].

Definition sample_device : device chip :=
  new_device small_geometry small_chip {[ 0; 1; UBI_LAYOUT_VOLUME_ID ]} sample_vtbl.

Definition sample_fuel : nat := Z.to_nat 100000000000.

Lemma sample_device_good : good small_geometry sample_fuel sample_device.
Proof.
  apply new_device_good.
  - intros p _. cbn. unfold chip_peb. cbn [cells small_chip]. rewrite lookup_empty. cbn [default map app].
    by apply Forall_drop, Forall_take, Forall_replicate.
  - split; [done|]. unfold sample_fuel. rewrite Z2Nat.id by lia. cbn. unfold UBI_MAX_ERASECOUNTER. lia.
Qed.

(** ** What the layer promises *)

Section Promises.
Context {M : Type} `{!Mtd M} (g : ubi_geometry) `{!MtdOk M g} (fuel : nat).

(** C19: Writing to an erase block of a dynamic volume that is not mapped always
    comes back, with the device in order: either it succeeded, and the block
    holds the data at its offset and 0xff elsewhere while all others keep their
    contents, or it reports an error or has gone read-only, and no erase block
    of any volume has changed, whatever was erased or moved meanwhile. *)
Theorem write_leb_correct (u : device M) vol l buf off dtype :
  wf_geometry g -> good g fuel u -> vol_ok g u vol -> 0 <= l < 2 ^ 31 -> bytes buf -> 0 <= off ->
  off + Z.of_nat (length buf) <= leb_size g - data_pad vol -> leb g u (vol_id vol) l = None ->
  dtype = UBI_LONGTERM \/ dtype = UBI_SHORTTERM \/ dtype = UBI_UNKNOWN ->
  exists err u', ubi_eba_write_leb g fuel u vol l buf off dtype = Some (err, u') /\ good g fuel u'
    /\ (err = 0 /\ ro u' = false
        /\ leb g u' (vol_id vol) l
            = Some (overwrite (replicate (Z.to_nat (leb_size g - data_pad vol)) 0xff) (Z.to_nat off) buf)
        /\ (forall v n, ~ (v = vol_id vol /\ n = l) -> leb g u' v n = leb g u v n)
       \/ (err <> 0 \/ ro u' = true) /\ forall v n, leb g u' v n = leb g u v n).
Proof.
  intros Hg G Hv Hl Hb Ho Hn Hnone Hdt. destruct (vol_pad _ _ _ Hv) as [Hpad _].
  destruct (write_leb_spec g Hg fuel u vol l buf off dtype) as (err & u' & Hw & G' & W); try done.
  exists err, u'. split; [done|]. split; [done|]. destruct W as [(K & _ & Hf)|(-> & Hr & U)].
  - right. split; [done|]. apply K.
  - left. split; [done|]. split; [done|]. split.
    + by rewrite (upd_leb _ _ _ _ _ _ U), bool_decide_true.
    + intros v n Hx. by rewrite (upd_leb _ _ _ _ _ _ U), bool_decide_false.
Qed.

(** C16: What was written to an erase block without an error is read back, at any
    offset and length inside of the block, also when the chip reports corrected
    bits and the block is moved; reading always comes back, and changes no
    contents. *)
Theorem leb_written_read (u u1 : device M) vol l buf off dtype off' len check :
  wf_geometry g -> good g fuel u -> vol_ok g u vol -> 0 <= l < 2 ^ 31 -> bytes buf -> 0 <= off ->
  off + Z.of_nat (length buf) <= leb_size g - data_pad vol -> leb g u (vol_id vol) l = None ->
  dtype = UBI_LONGTERM \/ dtype = UBI_SHORTTERM \/ dtype = UBI_UNKNOWN ->
  ubi_eba_write_leb g fuel u vol l buf off dtype = Some (0, u1) -> ro u1 = false ->
  0 <= off' -> 0 <= len -> off' + len <= leb_size g - data_pad vol ->
  exists err out u2, ubi_eba_read_leb g fuel u1 vol l off' len check = Some (err, out, u2)
    /\ (forall v n, leb g u2 v n = leb g u1 v n)
    /\ (err = 0 -> out = sub (overwrite (replicate (Z.to_nat (leb_size g - data_pad vol)) 0xff) (Z.to_nat off) buf)
                           (Z.to_nat off') (Z.to_nat len)).
Proof.
  intros Hg G Hv Hl Hb Ho Hn Hnone Hdt Hw Hro Ho' Hlen Hle. destruct (vol_pad _ _ _ Hv) as [Hpad _].
  destruct (write_leb_spec g Hg fuel u vol l buf off dtype) as (err & u' & Hw' & G' & W); try done.
  rewrite Hw in Hw'. injection Hw' as <- <-. destruct W as [(_ & _ & [?|?])|(_ & _ & U)]; [done|congruence|].
  destruct (read_spec g Hg fuel u1 vol l off' len check G' Hro) as (err & out & u2 & Hr & _ & K & Hs); [lia..|].
  exists err, out, u2. split; [done|]. split; [apply K|]. intros He. specialize (Hs He).
  rewrite (upd_leb _ _ _ _ _ _ U), bool_decide_true in Hs by done. apply Hs.
  unfold written.
  rewrite length_overwrite; rewrite length_replicate; lia.
Qed.

(** Giving up an erase block always comes back: on a device that is not
    read-only it succeeds, the block of the volume is empty and its flash block
    is queued for, and given to, erasure, and every other erase block keeps its
    contents. *)
Theorem unmap_leb_correct (u : device M) vol l :
  wf_geometry g -> good g fuel u -> ro u = false ->
  exists u', ubi_eba_unmap_leb g fuel u vol l = Some (0, u') /\ good g fuel u'
    /\ forall v n, leb g u' v n = if bool_decide (v = vol_id vol /\ n = l) then None else leb g u v n.
Proof.
  intros Hg G Hro. destruct (unmap_spec g Hg fuel u vol l G) as (err & u' & Hw & G' & [(? & _)|(_ & -> & U)]); [congruence|].
  exists u'. split; [done|]. split; [done|]. apply U.
Qed.


(** C18: Changing the volume table always comes back, changes no volume, and
    never loses both copies of the table: afterwards the first holds the new
    table or the second is as it was; both hold the new one when no error is
    reported and the device has not gone read-only. *)
Theorem change_vtbl_record_correct (u : device M) idx rec :
  let t := <[Z.to_nat idx := default empty_vtbl_record rec]> (vtbl u) in
  wf_geometry g -> good g fuel u -> vol_ok g u (layout_volume g) ->
  bytes (vtbl_image g t) -> Z.of_nat (length (vtbl_image g t)) <= leb_size g ->
  exists err u', ubi_change_vtbl_record g fuel u idx rec = Some (err, u') /\ good g fuel u'
    /\ (forall v l, v <> UBI_LAYOUT_VOLUME_ID -> leb g u' v l = leb g u v l)
    /\ (leb g u' UBI_LAYOUT_VOLUME_ID 0 = copy_of g t
        \/ leb g u' UBI_LAYOUT_VOLUME_ID 1 = leb g u UBI_LAYOUT_VOLUME_ID 1)
    /\ (err = 0 -> ro u' = false ->
        leb g u' UBI_LAYOUT_VOLUME_ID 0 = copy_of g t /\ leb g u' UBI_LAYOUT_VOLUME_ID 1 = copy_of g t).
Proof.
  intros t Hg G Hv Hb Hl. destruct (change_vtbl_spec g Hg fuel u idx rec G Hv Hb Hl) as (err & u' & ? & ? & _ & _ & ? & ? & ? & _).
  exists err, u'. by split_and!.
Qed.

End Promises.

(** *** A device at work *)

Definition sample_volume : geometry := Geometry 1 3 UBI_DYNAMIC_VOLUME 384 1 0 (bytes_of "part").

Lemma sample_vol_ok (u : device chip) : present (eba u) = present (eba sample_device) -> vol_ok small_geometry u sample_volume.
Proof.
  intros E. split; [rewrite E; cbn; set_solver|cbn; lia|]. cbn. split; [lia|]. by exists 0.
Qed.

(** Three bytes are written to the third erase block. *)
Definition sample_written : device chip :=
  match ubi_eba_write_leb small_geometry 0 sample_device sample_volume 2 [1; 2; 3] 0 UBI_UNKNOWN with
  | Some (_, u) => u
  | None => sample_device
  end.

Lemma sample_write fuel :
  ubi_eba_write_leb small_geometry fuel sample_device sample_volume 2 [1; 2; 3] 0 UBI_UNKNOWN = Some (0, sample_written).
Proof. vm_compute. reflexivity. Qed.

(** The conditions of the calls on it. *)
Lemma sample_data_bytes : bytes [1; 2; 3].
Proof. by repeat (apply Forall_cons; split; [done|]). Qed.

Lemma sample_written_good : good small_geometry sample_fuel sample_written.
Proof.
  destruct (write_leb_spec small_geometry small_wf sample_fuel sample_device sample_volume 2 [1; 2; 3] 0 UBI_UNKNOWN
    sample_device_good (sample_vol_ok _ eq_refl) ltac:(lia) sample_data_bytes ltac:(lia) ltac:(cbn; lia) eq_refl ltac:(by right; right))
    as (err & u' & Hw & G & _).
  rewrite sample_write in Hw. by injection Hw as _ <-.
Qed.

Lemma write_leb_correct_witness :
  exists err u', ubi_eba_write_leb small_geometry sample_fuel sample_device sample_volume 2 [1; 2; 3] 0 UBI_UNKNOWN = Some (err, u')
    /\ good small_geometry sample_fuel u'.
Proof.
  destruct (write_leb_correct small_geometry sample_fuel sample_device sample_volume 2 [1; 2; 3] 0 UBI_UNKNOWN
    small_wf sample_device_good (sample_vol_ok _ eq_refl) ltac:(lia) sample_data_bytes ltac:(lia) ltac:(cbn; lia) eq_refl ltac:(by right; right))
    as (err & u' & Hw & G & _).
  exists err, u'. split; [exact Hw|exact G].
Defined.

Lemma leb_written_read_witness :
  exists err out u2, ubi_eba_read_leb small_geometry sample_fuel sample_written sample_volume 2 1 4 false = Some (err, out, u2)
    /\ (err = 0 -> out = [2; 3; 255; 255]).
Proof.
  destruct (leb_written_read small_geometry sample_fuel sample_device sample_written sample_volume 2 [1; 2; 3] 0 UBI_UNKNOWN 1 4 false
    small_wf sample_device_good (sample_vol_ok _ eq_refl) ltac:(lia) sample_data_bytes ltac:(lia) ltac:(cbn; lia) eq_refl ltac:(by right; right)
    (sample_write _) eq_refl ltac:(lia) ltac:(lia) ltac:(cbn; lia)) as (err & out & u2 & Hr & _ & Ho).
  exists err, out, u2. split; [exact Hr|]. intros He. rewrite (Ho He). vm_compute. reflexivity.
Defined.

Lemma unmap_leb_correct_witness :
  exists u', ubi_eba_unmap_leb small_geometry sample_fuel sample_written sample_volume 2 = Some (0, u')
    /\ leb small_geometry u' 1 2 = None.
Proof.
  destruct (unmap_leb_correct small_geometry sample_fuel sample_written sample_volume 2 small_wf sample_written_good eq_refl)
    as (u' & Hu & _ & Hl).
  exists u'. split; [exact Hu|]. rewrite Hl. reflexivity.
Defined.

(** The block that was written, and what moving it does. *)
Definition sample_peb : Z := eba_lookup sample_written 1 2.


(** It is moved to another block, and the old one is erased. *)
Example scrubbed :
  match ubi_wl_scrub_peb small_geometry 10 sample_written sample_peb with
  | Some (err, u) => err = 0 /\ eba_lookup u 1 2 <> sample_peb /\ leb small_geometry u 1 2 = leb small_geometry sample_written 1 2
                     /\ length (elements (free (wl u))) = 7%nat
  | None => False
  end.
Proof. vm_compute. split; [reflexivity|]. split; [discriminate|]. split; reflexivity. Qed.

Lemma bytes_check l : forallb (fun b => (0 <=? b) && (b <? 256)) l = true -> bytes l.
Proof.
  intros H. apply Forall_forall. intros x Hx. apply list_elem_of_In in Hx. apply (proj1 (forallb_forall _ _) H) in Hx.
  unfold in_word. lia.
Qed.

(** The counter's record gets its update marker. *)
Definition sample_mark : option ubi_vtbl_record := mark_record true <$> (sample_vtbl !! 0%nat).

Lemma sample_image :
  let t := <[0%nat := default empty_vtbl_record sample_mark]> sample_vtbl in
  bytes (vtbl_image small_geometry t) /\ Z.of_nat (length (vtbl_image small_geometry t)) <= leb_size small_geometry.
Proof. split; [|vm_compute; discriminate]. apply bytes_check. vm_compute. reflexivity. Qed.

Lemma change_vtbl_record_correct_witness :
  exists err u', ubi_change_vtbl_record small_geometry sample_fuel sample_device 0 sample_mark = Some (err, u')
    /\ good small_geometry sample_fuel u'.
Proof.
  destruct (change_vtbl_record_correct small_geometry sample_fuel sample_device 0 sample_mark small_wf sample_device_good)
    as (err & u' & Hc & G & _).
  - split; [cbn; set_solver|by vm_compute|]. cbn. split; [lia|]. by exists 0.
  - apply sample_image.
  - apply sample_image.
  - exists err, u'. split; [exact Hc|exact G].
Defined.

End UbiEbaSpec.
