(* ===== verification/UbiSpec.v ===== *)
(** * What UBI volumes keep

    [UbiEbaOk] states what the layer below promises; under it a volume that was
    written without an error gives the data back.  Whatever the layer below
    does, an update that failed leaves the volume locked. *)

From stdpp Require Import gmap.
From S2P Require Import Prelude Cstring Vsprintf Ubi.

Module UbiSpec.
Import Cstring Vsprintf Ubi.

(** [len] bytes of an erase block from [off] on; what was not written is 0xff. *)
Definition view (c : option (list Z)) (off len : Z) : list Z :=
  map (fun i => nth (Z.to_nat off + i) (default [] c) 0xff) (seq 0 (Z.to_nat len)).

Definition UBI_LAYOUT_VOLUME_ID : Z := 0x7fffefff.

(** The promises.  [leb] is the contents of an erase block of a volume, [None]
    when it is not mapped; [eba_ok] says that the layer is in order and that a
    volume has its place in it, and no call breaks it.  Errors are negative
    codes.  A write that reports
    success may have failed when the flash is read-only afterwards:
    [ubi_eba_write_leb] returns the code of [ubi_wl_put_peb] when its retries
    are used up. *)
Class UbiEbaOk (F : Type) `{!UbiEba F} := {
  leb : F -> Z -> Z -> option (list Z);
  eba_ok : F -> geometry -> Prop;
  ro_write f g l b o : ro_mode f = true -> ro_mode (ubi_eba_write_leb f g l b o).2 = true;
  ro_write_st f g l b n u : ro_mode f = true -> ro_mode (ubi_eba_write_leb_st f g l b n u).2 = true;
  ro_change f i r f' : ubi_change_vtbl_record f i r = (0, f') -> ro_mode f = false;
  unmap_ok f g l e f' :
    eba_ok f g -> ubi_eba_unmap_leb f g l = (e, f') ->
    eba_ok f' g /\ e <= 0 /\ (forall v n, ~ (v = vol_id g /\ n = l) -> leb f' v n = leb f v n)
    /\ (e = 0 -> leb f' (vol_id g) l = None);
  write_ok f g l b e f' :
    eba_ok f g -> 0 <= l < 2 ^ 31 -> bytes b -> Z.of_nat (length b) <= usable_leb_size g ->
    (ro_mode f = false -> leb f (vol_id g) l = None) -> ubi_eba_write_leb f g l b 0 = (e, f') ->
    eba_ok f' g /\ e <= 0 /\ (forall v n, ~ (v = vol_id g /\ n = l) -> leb f' v n = leb f v n)
    /\ (e = 0 -> ro_mode f' = false -> forall len, 0 <= len <= usable_leb_size g ->
        view (leb f' (vol_id g) l) 0 len = view (Some b) 0 len);
  write_st_ok f g l b len used e f' :
    eba_ok f g -> 0 <= l < 2 ^ 31 -> bytes (take (Z.to_nat (usable_leb_size g)) b) ->
    0 < len <= usable_leb_size g -> usable_leb_size g <= Z.of_nat (length b) ->
    (ro_mode f = false -> leb f (vol_id g) l = None) -> ubi_eba_write_leb_st f g l b len used = (e, f') ->
    eba_ok f' g /\ e <= 0 /\ (forall v n, ~ (v = vol_id g /\ n = l) -> leb f' v n = leb f v n)
    /\ (e = 0 -> ro_mode f' = false -> view (leb f' (vol_id g) l) 0 len = take (Z.to_nat len) b);
  read_ok f g l off len check e out f' :
    eba_ok f g -> 0 <= off -> 0 <= len -> off + len <= usable_leb_size g ->
    ubi_eba_read_leb f g l off len check = (e, out, f') ->
    eba_ok f' g /\ (forall v n, leb f' v n = leb f v n) /\ (e = 0 -> out = view (leb f (vol_id g) l) off len);
  change_ok f g b e f' :
    eba_ok f g -> ubi_change_vtbl_record f (vol_id g) (Some (mark_record b (vtbl f (vol_id g)))) = (e, f') ->
    eba_ok f' g /\ e <= 0 /\ forall v n, v <> UBI_LAYOUT_VOLUME_ID -> leb f' v n = leb f v n;
  flush_ok f g e f' :
    eba_ok f g -> ubi_wl_flush f = (e, f') -> eba_ok f' g /\ e <= 0 /\ forall v n, leb f' v n = leb f v n;
  malloc_ok f g size : eba_ok f g -> eba_ok (malloc f size).2 g /\ forall v n, leb (malloc f size).2 v n = leb f v n;
  malloc_length f size b f' : 0 <= size -> malloc f size = (Some b, f') -> Z.of_nat (length b) = size;
}.

(** ** What is read back *)

Lemma view_prefix c p off n :
  0 <= off -> Z.of_nat (length p) <= n -> view c 0 n = take (Z.to_nat n) p -> forall len,
  0 <= len -> off + len <= Z.of_nat (length p) -> view c off len = take (Z.to_nat len) (drop (Z.to_nat off) p).
Proof.
  intros Hoff Hn Hv len Hl Hle. apply list_eq. intros i. unfold view.
  destruct (decide (i < Z.to_nat len)%nat) as [Hi|Hi].
  - rewrite list_lookup_fmap, lookup_seq_lt by done. cbn [fmap option_fmap option_map].
    rewrite lookup_take_lt, lookup_drop by done.
    assert (E : view c 0 n !! (Z.to_nat off + i)%nat = take (Z.to_nat n) p !! (Z.to_nat off + i)%nat) by by rewrite Hv.
    unfold view in E. rewrite list_lookup_fmap, lookup_seq_lt in E by lia.
    rewrite lookup_take_lt in E by lia. cbn [fmap option_fmap option_map] in E. rewrite <- E. by rewrite Nat.add_0_l.
  - rewrite list_lookup_fmap, lookup_seq_ge by lia. symmetry. cbn. apply lookup_take_ge. lia.
Qed.

(** The bytes of a buffer, when only 0xff is left out behind [m]. *)
Lemma view_trimmed buf (m len : nat) :
  (len <= length buf)%nat -> (forall i, (m <= i < len)%nat -> nth i buf 0 = 0xff) ->
  view (Some (take m buf)) 0 (Z.of_nat len) = take len buf.
Proof.
  intros Hl Hff. apply list_eq. intros i. unfold view. rewrite Nat2Z.id.
  destruct (decide (i < len)%nat) as [Hi|Hi].
  - rewrite list_lookup_fmap, lookup_seq_lt, lookup_take_lt by done. cbn [fmap option_fmap option_map default].
    rewrite Nat.add_0_l. destruct (lookup_lt_is_Some_2 buf i ltac:(lia)) as [x Hx].
    rewrite Hx. f_equal. change (nth i (take m buf) 0xff = x). destruct (decide (i < m)%nat) as [Him|Him].
    + apply nth_lookup_Some. by rewrite lookup_take_lt.
    + rewrite nth_overflow by (rewrite length_take; lia). rewrite <- (Hff i) by lia. by apply nth_lookup_Some.
  - rewrite list_lookup_fmap, lookup_seq_ge by lia. symmetry. cbn. apply lookup_take_ge. lia.
Qed.

Section RoundTrip.
Context {F : Type} `{!UbiEba F} `{!UbiEbaOk F}.

(** A volume with its geometry. *)
Record wf_volume (leb_size min_io : Z) (g : geometry) := {
  wf_io : exists k, 0 <= k /\ min_io = 2 ^ k;
  wf_usable : 0 < usable_leb_size g <= leb_size;
  wf_aligned : (min_io | usable_leb_size g);
  wf_id : 0 <= vol_id g /\ vol_id g <> UBI_LAYOUT_VOLUME_ID;
  wf_reserved : 0 <= reserved_pebs g;
  wf_size : reserved_pebs g * usable_leb_size g < 2 ^ 31;
  wf_type : vol_type g = UBI_DYNAMIC_VOLUME \/ vol_type g = UBI_STATIC_VOLUME;
}.

Definition same_but (f f' : F) (v l : Z) : Prop := forall v' n, ~ (v' = v /\ n = l) -> leb f' v' n = leb f v' n.

(** The other volumes keep their contents, but the one of the volume table. *)
Definition others (v : Z) (f f' : F) : Prop :=
  forall v' n, v' <> v -> v' <> UBI_LAYOUT_VOLUME_ID -> leb f' v' n = leb f v' n.

#[global] Instance others_preorder v : PreOrder (others v).
Proof. split; [by intros f|]. intros f1 f2 f3 H1 H2 v' n Hv Hl. by rewrite H2, H1. Qed.

Lemma others_same v f f' : (forall v' n, leb f' v' n = leb f v' n) -> others v f f'.
Proof. intros H v' n _ _. apply H. Qed.

Lemma others_but v l f f' : same_but f f' v l -> others v f f'.
Proof. intros H v' n Hv _. apply H. tauto. Qed.

Lemma take_memcpy_prefix (buf p : list Z) : (length p <= length buf)%nat -> take (length p) (memcpy buf 0 p) = p.
Proof. intros H. unfold memcpy. rewrite take_0. cbn [app]. by rewrite take_app_length. Qed.

Lemma bytes_take_memcpy buf p k :
  (k <= length buf)%nat -> bytes (take k buf) -> bytes p -> bytes (take (k + length p) (memcpy buf k p)).
Proof.
  intros Hk Hb Hp. unfold memcpy. rewrite app_assoc, take_app_length' by (rewrite length_app, length_take; lia).
  by apply Forall_app.
Qed.

Lemma write_leb_ok leb_size min_io f g l buf len used :
  wf_volume leb_size min_io g -> 0 < len <= usable_leb_size g -> usable_leb_size g <= Z.of_nat (length buf) ->
  eba_ok f g -> 0 <= l < 2 ^ 31 -> bytes (take (Z.to_nat len) buf) -> (ro_mode f = false -> leb f (vol_id g) l = None) ->
  exists e f', write_leb min_io f g l buf len used = Some (e, f') /\ e <= 0
    /\ (ro_mode f = true -> ro_mode f' = true) /\ eba_ok f' g /\ same_but f f' (vol_id g) l
    /\ (e = 0 -> ro_mode f' = false -> view (leb f' (vol_id g) l) 0 len = take (Z.to_nat len) buf).
Proof.
  intros [(k & Hk & ->) Hu Ha _ _ _ Ht] Hlen Hbuf Hok Hl Hby Hnone. unfold write_leb.
  destruct Ht as [Ht|Ht]; rewrite Ht; cbn [Z.eqb Pos.eqb UBI_DYNAMIC_VOLUME UBI_STATIC_VOLUME].
  - pose proof (ALIGN_bounds len k (usable_leb_size g) Hk ltac:(lia) Ha) as Hal. unfold fill at 1.
    destruct (Z.ltb_spec len 0), (Z.ltb_spec (ALIGN len (2 ^ k) - len) 0),
      (Z.ltb_spec (Z.of_nat (length buf)) (len + (ALIGN len (2 ^ k) - len))); try lia. cbn [orb mbind option_bind].
    set (buf' := memcpy buf _ _). set (L := ALIGN len (2 ^ k)) in *.
    assert (Hlb : length buf' = length buf) by (apply length_memcpy; rewrite length_replicate; lia).
    assert (Htk : take (Z.to_nat len) buf' = take (Z.to_nat len) buf).
    { unfold buf', memcpy. rewrite take_app_le, take_take, Nat.min_id; [done|]. rewrite length_take. lia. }
    destruct (data_end_spec buf' (Z.to_nat L)) as [Hd1 Hd2].
    unfold ubi_calc_data_len. set (m := data_end buf' (Z.to_nat L)) in *.
    pose proof (ALIGN_bounds (Z.of_nat m) k L Hk ltac:(lia) (ALIGN_div _ _ Hk)) as Hm.
    assert (Hv : forall M, (m <= M <= Z.to_nat L)%nat -> view (Some (take M buf')) 0 len = take (Z.to_nat len) buf).
    { intros M HM. rewrite <- (Z2Nat.id len) at 1 by lia. rewrite view_trimmed; [done|lia|].
      intros i Hi. apply Hd2. lia. }
    destruct (Z.eqb_spec (ALIGN (Z.of_nat m) (2 ^ k)) 0) as [E|E].
    + exists 0, f. split_and!; try done. intros _ Hr. rewrite (Hnone Hr), <- (Hv 0%nat) by lia. done.
    + destruct (ubi_eba_write_leb _ _ _ _ _) as [e f'] eqn:Hw. exists e, f'.
      pose proof (ro_write f g l (take (Z.to_nat (ALIGN (Z.of_nat m) (2 ^ k))) buf') 0) as Hro.
      rewrite Hw in Hro. set (M := Z.to_nat (ALIGN (Z.of_nat m) (2 ^ k))) in *.
      assert (Hbm : bytes (take M buf')).
      { replace (take M buf') with (take M (take (Z.to_nat L) buf')) by (rewrite take_take; f_equal; lia). apply Forall_take.
        pose proof (bytes_take_memcpy buf (replicate (Z.to_nat (L - len)) 0xff) (Z.to_nat len) ltac:(lia) Hby) as Hx.
        rewrite length_replicate in Hx. replace (Z.to_nat len + Z.to_nat (L - len))%nat with (Z.to_nat L) in Hx by lia.
        apply Hx. by apply Forall_replicate. }
      destruct (write_ok f g l (take M buf') e f' Hok Hl Hbm ltac:(rewrite length_take; lia) Hnone Hw) as (Hok' & Hc & Hoth & Hvw).
      split_and!; try done. intros -> Hr. rewrite Hvw by (done || lia). apply Hv. lia.
  - unfold fill. destruct (Z.ltb_spec len 0), (Z.ltb_spec (usable_leb_size g - len) 0),
      (Z.ltb_spec (Z.of_nat (length buf)) (len + (usable_leb_size g - len))); try lia. cbn [orb mbind option_bind].
    set (buf' := memcpy buf _ _).
    assert (Htk : take (Z.to_nat len) buf' = take (Z.to_nat len) buf).
    { unfold buf', memcpy. rewrite take_app_le, take_take, Nat.min_id; [done|]. rewrite length_take. lia. }
    destruct (ubi_eba_write_leb_st _ _ _ _ _ _) as [e f'] eqn:Hw. exists e, f'.
    pose proof (ro_write_st f g l buf' len used) as Hro.
    rewrite Hw in Hro.
    assert (Hlb : length buf' = length buf) by (apply length_memcpy; rewrite length_replicate; lia).
    assert (Hbm : bytes (take (Z.to_nat (usable_leb_size g)) buf')).
    { pose proof (bytes_take_memcpy buf (replicate (Z.to_nat (usable_leb_size g - len)) 0) (Z.to_nat len) ltac:(lia) Hby) as Hx.
      rewrite length_replicate in Hx.
      replace (Z.to_nat len + Z.to_nat (usable_leb_size g - len))%nat with (Z.to_nat (usable_leb_size g)) in Hx by lia.
      apply Hx. by apply Forall_replicate. }
    destruct (write_st_ok f g l buf' len used e f' Hok Hl Hbm ltac:(lia) ltac:(lia) Hnone Hw) as (Hok' & Hc & Hoth & Hv).
    split_and!; try done. intros He Hr. by rewrite Hv.
Qed.

(** ** The update *)

Section Data.
Context (leb_size min_io : Z) (g : geometry) (data : list Z).
Hypothesis Hwf : wf_volume leb_size min_io g.
Hypothesis Hfits : Z.of_nat (length data) <= reserved_pebs g * usable_leb_size g.
Hypothesis Hbytes : bytes data.

#[local] Abbreviation U := (usable_leb_size g).
#[local] Abbreviation id := (vol_id g).

Definition piece (i : Z) : list Z := take (Z.to_nat U) (drop (Z.to_nat (i * U)) data).

Definition stored (f : F) (k : Z) : Prop :=
  forall i, 0 <= i < k -> i * U < Z.of_nat (length data) ->
  view (leb f id i) 0 (Z.of_nat (length (piece i))) = piece i.

Definition empty_from (f : F) (k : Z) : Prop := forall i, k <= i < reserved_pebs g -> leb f id i = None.

(** What an update does not change of a volume. *)
Definition same_volume (v v' : ubi_volume) : Prop :=
  geo v' = geo v /\ ext v' = ext v /\ updating v' = updating v /\ upd_marker v' = upd_marker v
  /\ upd_bytes (upd v') = upd_bytes (upd v).

Lemma copy_in_ok vol p :
  Z.of_nat (length p) <= Z.of_nat (length (upd_buf (upd vol))) ->
  copy_in vol 0 p = Some (buffer (memcpy (upd_buf (upd vol)) 0 p) vol).
Proof.
  intros H. unfold copy_in. destruct (Z.ltb_spec 0 0), (Z.ltb_spec (Z.of_nat (length (upd_buf (upd vol))))
    (0 + Z.of_nat (length p))); by (try lia).
Qed.

Lemma update_loop_ok fuel : forall f vol k buf,
  geo vol = g -> 0 <= k -> buf = drop (Z.to_nat (k * U)) data -> (length buf < fuel)%nat ->
  Z.of_nat (length (upd_buf (upd vol))) = leb_size ->
  upd_bytes (upd vol) = Z.of_nat (length data) ->
  upd_received (upd vol) = Z.of_nat (length data) - Z.of_nat (length buf) -> eba_ok f g -> empty_from f k ->
  exists e f' vol', update_loop fuel min_io f vol k buf = Some (e, f', vol') /\ e <= 0
    /\ same_volume vol vol' /\ (ro_mode f = true -> ro_mode f' = true) /\ eba_ok f' g /\ others id f f'
    /\ (e <> 0 -> upd_received (upd vol') <> upd_bytes (upd vol'))
    /\ (e = 0 -> upd_received (upd vol') = upd_bytes (upd vol')
         /\ (ro_mode f' = false -> stored f k -> stored f' (reserved_pebs g))).
Proof.
  pose proof (wf_usable _ _ _ Hwf) as HU.
  induction fuel as [|fuel IH]; intros f vol k buf Hg Hk Hb Hf Hub Hub2 Hrec Hok0 Hem; [lia|]. cbn [update_loop].
  assert (Hlb : Z.of_nat (length buf) = Z.max 0 (Z.of_nat (length data) - k * U))
    by (rewrite Hb, length_drop; nia).
  destruct buf as [|x0 buf0] eqn:Ebuf.
  { exists 0, f, vol. split_and!; try done. intros _. split; [cbn [length] in *; lia|].
    intros _ Hs i Hi Hid. cbn [length] in Hlb. apply Hs; [|done]. nia. }
  rewrite <- Ebuf in *. assert (Hpos : 0 < Z.of_nat (length buf)) by (rewrite Ebuf; cbn [length]; lia).
  clear x0 buf0 Ebuf. rewrite Hg. set (len := if U <? _ then U else _).
  assert (Hlen : len = Z.min U (Z.of_nat (length buf))) by (unfold len; destruct (Z.ltb_spec U (Z.of_nat (length buf))); lia).
  clearbody len.
  assert (Hp : take (Z.to_nat len) buf = piece k).
  { unfold piece. rewrite <- Hb, Hlen. destruct (Z.min_spec U (Z.of_nat (length buf))) as [[_ ->]|[? ->]]; [done|].
    by rewrite !take_ge by lia. }
  assert (Hpl : Z.of_nat (length (piece k)) = len) by (rewrite <- Hp, length_take; lia).
  rewrite Hp, copy_in_ok by lia. cbn [mbind option_bind].
  set (vol1 := buffer _ vol).
  assert (Hcond : (len =? U) || (upd_received (upd vol1) + len =? upd_bytes (upd vol1)) = true).
  { rewrite orb_true_iff, !Z.eqb_eq. cbn [vol1 buffer set_upd upd upd_received upd_bytes]. lia. }
  change (geo vol1) with (geo vol). rewrite Hg, Hcond. change (upd_buf (upd vol1)) with (memcpy (upd_buf (upd vol)) 0 (piece k)).
  assert (Hml : length (memcpy (upd_buf (upd vol)) 0 (piece k)) = length (upd_buf (upd vol)))
    by (apply length_memcpy; lia).
  assert (Hk31 : 0 <= k < 2 ^ 31) by (pose proof (wf_size _ _ _ Hwf); nia).
  assert (Htp : take (Z.to_nat len) (memcpy (upd_buf (upd vol)) 0 (piece k)) = piece k)
    by (rewrite <- Hpl, Nat2Z.id; apply take_memcpy_prefix; lia).
  destruct (write_leb_ok leb_size min_io f g k (memcpy (upd_buf (upd vol)) 0 (piece k)) len (upd_ebs (upd vol1)) Hwf
    ltac:(lia) ltac:(lia) Hok0 Hk31 ltac:(rewrite Htp; by apply Forall_take, Forall_drop) ltac:(intros _; apply Hem; nia))
    as (e & f1 & -> & He & Hro1 & Hok1 & Hsm & Hok). cbn [mbind option_bind]. rewrite Htp in Hok.
  destruct (Z.eqb_spec e 0) as [->|Hne]; cbn [negb].
  - destruct (IH f1 (receive len vol1) (k + 1) (drop (Z.to_nat len) buf)) as (e2 & f2 & vol2 & -> & He2 & Hsame & Hro2 & Hok2 & Hoth & Herr & Hres).
    + done.
    + lia.
    + rewrite Hb, drop_drop. destruct (Z.le_gt_cases (k * U + U) (Z.of_nat (length data))).
      * f_equal. nia.
      * rewrite !drop_ge; [done|nia|nia].
    + rewrite length_drop. lia.
    + cbn [vol1 receive buffer set_upd upd upd_buf]. lia.
    + done.
    + cbn [vol1 receive buffer set_upd upd upd_received]. rewrite length_drop. lia.
    + done.
    + intros i Hi. rewrite Hsm by lia. apply Hem. lia.
    + exists e2, f2, vol2. split_and!; try done; [by auto|etransitivity; [by eapply others_but|exact Hoth]|]. intros ->. destruct (Hres eq_refl) as [Hr1 Hr2].
      split; [done|]. intros Hrf Hs. apply Hr2; [done|].
      assert (Hf1 : ro_mode f1 = false) by (destruct (ro_mode f1) eqn:E; [by rewrite Hro2 in Hrf|done]).
      intros i Hi Hid. destruct (decide (i = k)) as [->|Hik].
      * by rewrite Hpl, (Hok eq_refl Hf1).
      * rewrite Hsm by tauto. apply Hs; [lia|done].
  - exists e, f1, vol1. split_and!; try done; [by eapply others_but|]. intros _. cbn [vol1 buffer set_upd upd upd_received upd_bytes]. lia.
Qed.

Lemma unmap_lebs_ok n : forall i f, eba_ok f g -> exists e f', unmap_lebs n i f g = (e, f') /\ e <= 0 /\ eba_ok f' g
  /\ others id f f'
  /\ (e = 0 -> forall j, leb f' id j = if bool_decide (i <= j < i + Z.of_nat n) then None else leb f id j).
Proof.
  induction n as [|n IH]; intros i f Hok; cbn [unmap_lebs].
  - exists 0, f. split_and!; [done..|]. intros _ j. rewrite bool_decide_false by lia. done.
  - destruct (ubi_eba_unmap_leb f g i) as [e f1] eqn:Hu.
    destruct (unmap_ok f g i e f1 Hok Hu) as (Hok1 & Hc & Hb1 & Hu1). pose proof (others_but _ _ _ _ Hb1) as Ho1.
    destruct (Z.eqb_spec e 0) as [->|Hne]; cbn [negb]; [|by exists e, f1].
    destruct (IH (i + 1) f1 Hok1) as (e2 & f2 & -> & He2 & Hok2 & Ho2 & Hl). exists e2, f2. split_and!; [done..|by etransitivity|].
    intros ->. intros j. rewrite Hl by done. destruct (decide (j = i)) as [->|Hj].
    + rewrite (Hu1 eq_refl). rewrite (bool_decide_true (i <= i < _)) by lia. by case_bool_decide.
    + rewrite Hb1 by tauto. destruct (bool_decide_reflect (i + 1 <= j < i + 1 + Z.of_nat n)),
        (bool_decide_reflect (i <= j < i + Z.of_nat (S n))); try done; exfalso; lia.
Qed.

Lemma start_update_ok f vol n :
  geo vol = g -> 0 < n -> eba_ok f g ->
  exists e f' vol', ubi_start_update leb_size f vol n = (e, f', vol') /\ e <= 0 /\ eba_ok f' g /\ others id f f'
    /\ geo vol' = g /\ ext vol' = ext vol /\ updating vol' = true
    /\ (e = 0 -> upd_bytes (upd vol') = n /\ upd_received (upd vol') = 0
          /\ Z.of_nat (length (upd_buf (upd vol'))) = leb_size /\ empty_from f' 0).
Proof.
  intros Hg Hn Hok. unfold ubi_start_update.
  assert (Hm : exists e f1 vol1, set_update_marker f (set_updating true vol) = (e, f1, vol1) /\ e <= 0 /\ eba_ok f1 g
             /\ others id f f1 /\ geo vol1 = g /\ ext vol1 = ext vol /\ updating vol1 = true).
  { unfold set_update_marker. destruct (upd_marker _); [by exists 0, f, (set_updating true vol)|].
    change (geo (set_updating true vol)) with (geo vol). rewrite Hg.
    destruct (ubi_change_vtbl_record _ _ _) as [e f1] eqn:Hch.
    destruct (change_ok f g true e f1 Hok Hch) as (Hok1 & Hc & Hl). eexists e, f1, _. split_and!; try done. intros v' n' _. by apply Hl. }
  destruct Hm as (e & f1 & vol1 & -> & He & Hok1 & Ho1 & Hg1 & Hx1 & Hu1). destruct (Z.eqb_spec e 0) as [->|]; cbn [negb].
  2: { exists e, f1, vol1. split_and!; done. }
  rewrite Hg1. destruct (unmap_lebs_ok (Z.to_nat (reserved_pebs g)) 0 f1 Hok1) as (e2 & f2 & -> & He2 & Hok2 & Ho2 & Hl).
  assert (Ho12 : others id f f2) by (by etransitivity).
  destruct (Z.eqb_spec e2 0) as [->|]; cbn [negb].
  2: { exists e2, f2, vol1. split_and!; done. }
  destruct (Z.eqb_spec n 0); [lia|]. unfold start_buffer. destruct (malloc_ok f2 g leb_size Hok2) as [Hok3 Hml].
  assert (Ho3 : others id f (malloc f2 leb_size).2) by (etransitivity; [exact Ho12|by apply others_same]).
  destruct (malloc f2 leb_size) as [[b|] f3] eqn:Hmal; cbn [snd] in Hok3, Hml, Ho3.
  - eexists 0, f3, _. split; [done|]. split_and!; try done. intros _. cbn [upd set_upd upd_bytes upd_received upd_buf].
    split_and!; [done|done|eapply malloc_length; [|done]; pose proof (wf_usable _ _ _ Hwf); lia|]. intros i Hi. rewrite Hml, Hl by done.
    by rewrite bool_decide_true by lia.
  - exists (- ENOMEM), f3, vol1. split_and!; try done.
Qed.

Definition new_extent (vol : ubi_volume) (n : Z) : extent :=
  if vol_type g =? UBI_STATIC_VOLUME then extent_of n U else ext vol.

Lemma update_finish_ok f vol n :
  geo vol = g -> 0 < n -> upd_received (upd vol) = upd_bytes (upd vol) -> upd_bytes (upd vol) = n -> eba_ok f g ->
  exists e f' vol', update_finish f vol 0 n = (e, f', vol') /\ geo vol' = g /\ eba_ok f' g /\ others id f f'
    /\ ((e < 0 /\ updating vol' = updating vol)
        \/ (e = n /\ updating vol' = false /\ upd_marker vol' = false /\ ext vol' = new_extent vol n
            /\ ro_mode f = false /\ forall i, leb f' id i = leb f id i)).
Proof.
  intros Hg Hn Hr Hb Hok. destruct (wf_id _ _ _ Hwf) as [_ Hid]. unfold update_finish, clear_update_marker.
  rewrite Hr, Z.eqb_refl, Hg, Hb. set (vol1 := if _ =? UBI_STATIC_VOLUME then _ else _).
  assert (Hv1 : geo vol1 = g /\ updating vol1 = updating vol /\ ext vol1 = new_extent vol n)
    by (unfold vol1, new_extent; destruct (_ =? UBI_STATIC_VOLUME); done).
  destruct Hv1 as (Hg1 & Hu1 & He1). clearbody vol1. rewrite Hg1.
  destruct (ubi_change_vtbl_record f id _) as [e f1] eqn:Hch.
  destruct (change_ok f g false e f1 Hok Hch) as (Hok1 & Hc & Hl).
  assert (Ho1 : others id f f1) by (intros v n' _; by apply Hl).
  destruct (Z.eqb_spec e 0) as [->|]; cbn [negb].
  2: { exists e, f1, (set_marker false vol1). split_and!; [done..|]. left. split; [lia|done]. }
  destruct (ubi_wl_flush f1) as [e2 f2] eqn:Hfe. destruct (flush_ok f1 g e2 f2 Hok1 Hfe) as (Hok2 & Hfc & Hfl).
  assert (Ho2 : others id f f2) by (etransitivity; [exact Ho1|by apply others_same]). destruct (Z.eqb_spec e2 0) as [->|].
  - eexists n, f2, _. split; [done|]. split; [done|]. split; [done|]. split; [done|]. right. split_and!; try done; [by eapply ro_change|].
    intros i. by rewrite Hfl, Hl.
  - exists e2, f2, (set_marker false vol1). split_and!; [done..|]. left. split; [lia|done].
Qed.

Lemma more_update_ok f vol :
  geo vol = g -> 0 < Z.of_nat (length data) -> updating vol = true ->
  upd_bytes (upd vol) = Z.of_nat (length data) -> upd_received (upd vol) = 0 ->
  Z.of_nat (length (upd_buf (upd vol))) = leb_size -> empty_from f 0 -> eba_ok f g ->
  exists e f' vol', ubi_more_update_data min_io f vol data = Some (e, f', vol') /\ geo vol' = g /\ eba_ok f' g /\ others id f f'
    /\ ((e < 0 /\ updating vol' = true)
        \/ (e = Z.of_nat (length data) /\ updating vol' = false /\ upd_marker vol' = false
            /\ ext vol' = new_extent vol (Z.of_nat (length data)) /\ stored f' (reserved_pebs g))).
Proof.
  intros Hg Hn Hu Hb Hr Hbuf He Hok0. unfold ubi_more_update_data. pose proof (wf_usable _ _ _ Hwf) as HU.
  destruct (ro_mode f). { eexists _, f, vol. split; [done|]. split; [done|]. split; [done|]. split; [done|]. by left. }
  rewrite Hg, Hr, Hb, Z.add_0_l, Z.ltb_irrefl, Zmod_0_l, Zdiv_0_l. cbn [Z.eqb negb mbind option_bind].
  destruct (update_loop_ok (S (length data)) f vol 0 data) as (e & f1 & vol1 & Hl & Hle & Hs & _ & Hok1 & Ho1 & Herr & Hok);
    [done|done|by rewrite Z.mul_0_l|lia|done|done|lia|done|done|].
  rewrite Z.add_0_r, Hl. cbn [mbind option_bind]. destruct Hs as (Hg1 & He1 & Hu1 & Hm1 & Hb1).
  rewrite Hg in Hg1. rewrite Hb in Hb1. destruct (decide (e = 0)) as [->|Hne].
  - destruct (Hok eq_refl) as [Hrec Hst].
    destruct (update_finish_ok f1 vol1 (Z.of_nat (length data)) Hg1 Hn Hrec Hb1 Hok1) as (e2 & f2 & vol2 & -> & Hg2 & Hok2 & Ho2 & Hcase).
    exists e2, f2, vol2. split; [done|]. split; [done|]. split; [done|]. split; [by etransitivity|].
    destruct Hcase as [[? ?]|(-> & ? & ? & Hext & Hro & Hleb)]; [left; split; congruence|right]. split_and!; try done.
    + rewrite Hext. unfold new_extent. by rewrite He1.
    + intros i Hi Hid. rewrite Hleb. apply Hst; [done| |done|done]. intros j Hj. lia.
  - unfold update_finish. destruct (Z.eqb_spec (upd_received (upd vol1)) (upd_bytes (upd vol1))); [by destruct (Herr Hne)|].
    exists e, f1, vol1. split; [done|]. split; [done|]. split; [done|]. split; [done|]. left. split; [lia|congruence].
Qed.

(** Checking a volume changes nothing. *)
Lemma check_lebs_ok n : forall i f vol, geo vol = g -> 0 <= last_eb_bytes (ext vol) <= U -> eba_ok f g ->
  eba_ok (check_lebs n i f vol).2 g /\ forall v j, leb (check_lebs n i f vol).2 v j = leb f v j.
Proof.
  pose proof (wf_usable _ _ _ Hwf) as HU.
  induction n as [|n IH]; intros i f vol Hg Hx Hok; [done|]. cbn [check_lebs]. rewrite Hg.
  set (size := if _ =? _ then _ else _). assert (Hs : 0 <= size <= U) by (unfold size; destruct (_ =? _); lia).
  destruct (ubi_eba_read_leb f g i 0 size true) as [[e out] f1] eqn:Hr.
  destruct (read_ok f g i 0 size true e out f1 Hok ltac:(lia) ltac:(lia) ltac:(lia) Hr) as (Hok1 & Hl & _).
  destruct (e =? 0); cbn [negb]; [|by split].
  destruct (IH (i + 1) f1 vol Hg Hx Hok1) as [Hok2 Hl2]. split; [done|]. intros v j. by rewrite Hl2, Hl.
Qed.

Lemma check_volume_ok f vol : geo vol = g -> (vol_type g = UBI_STATIC_VOLUME -> 0 <= last_eb_bytes (ext vol) <= U) -> eba_ok f g ->
  eba_ok (ubi_check_volume f vol).2 g /\ forall v j, leb (ubi_check_volume f vol).2 v j = leb f v j.
Proof.
  intros Hg Hx Hok. unfold ubi_check_volume. rewrite Hg. destruct (Z.eqb_spec (vol_type g) UBI_STATIC_VOLUME) as [E|]; [|done].
  cbn [negb]. destruct (malloc_ok f g U Hok) as [Hok1 Hm]. destruct (malloc f _) as [[b|] f1]; cbn [snd] in Hok1, Hm; [|by split].
  destruct (check_lebs_ok (Z.to_nat (used_ebs (ext vol))) 0 f1 vol Hg (Hx E) Hok1) as [Hok2 Hl].
  split; [done|]. intros v j. by rewrite Hl, Hm.
Qed.

Lemma volume_write_ok d name i vol :
  ubi_find_volume d name = Some (Some (i, vol)) -> geo vol = g -> Ubi.leb_size d = leb_size ->
  min_io_size d = min_io -> leb_size - data_pad g = U -> 0 < Z.of_nat (length data) -> eba_ok (flash d) g ->
  exists err d' vol', ubi_volume_write d name data = Some (err, d')
    /\ d' = set_volume i (Some vol') (set_flash (flash d') d) /\ geo vol' = g /\ eba_ok (flash d') g
    /\ others id (flash d) (flash d')
    /\ (err = 0 -> updating vol' = false /\ upd_marker vol' = false
          /\ ext vol' = new_extent vol (Z.of_nat (length data)) /\ stored (flash d') (reserved_pebs g)).
Proof.
  intros Hfind Hg Hls Hio Hpad Hn Hok0. unfold ubi_volume_write. rewrite Hfind. cbn [mbind option_bind].
  rewrite Hg, Hls, Hio, Hpad.
  pose proof (wf_usable _ _ _ Hwf) as HU. pose proof (wf_reserved _ _ _ Hwf) as Hrs. pose proof (wf_size _ _ _ Hwf) as Hsz.
  rewrite u32_small by nia. destruct (Z.ltb_spec (reserved_pebs g * U) (Z.of_nat (length data))); [lia|].
  destruct (start_update_ok (flash d) vol (Z.of_nat (length data)) Hg Hn Hok0) as (e & f1 & vol1 & -> & He & Hok1 & Ho1 & Hg1 & Hx1 & Hu1 & Hok).
  destruct (Z.ltb_spec e 0). { eexists _, _, vol1. split; [done|]. split_and!; [done|done|done|done|lia]. }
  destruct Hok as (Hb1 & Hr1 & Hbuf1 & Hem1); [lia|].
  destruct (more_update_ok f1 vol1 Hg1 Hn Hu1 Hb1 Hr1 Hbuf1 Hem1 Hok1) as (e2 & f2 & vol2 & -> & Hg2 & Hok2 & Ho2 & Hcase).
  assert (Ho12 : others id (flash d) f2) by (by etransitivity).
  cbn [mbind option_bind]. destruct Hcase as [[Hneg _]|(-> & Hu2 & Hm2 & Hx2 & Hs2)].
  { destruct (Z.ltb_spec e2 0); [|lia]. eexists _, _, vol2. split; [done|]. split_and!; [done|done|done|done|lia]. }
  destruct (Z.ltb_spec (Z.of_nat (length data)) 0); [lia|]. destruct (Z.eqb_spec (Z.of_nat (length data)) 0); [lia|].
  assert (Hx : ext vol2 = new_extent vol (Z.of_nat (length data))) by (rewrite Hx2; unfold new_extent; by rewrite Hx1).
  cbn [negb]. destruct (check_volume_ok f2 vol2 Hg2) as [Hok3 Hcl]; [|done|].
  { intros Hst. rewrite Hx. unfold new_extent, extent_of. rewrite Hst. cbn [Z.eqb Pos.eqb UBI_STATIC_VOLUME].
    pose proof (Z.mod_pos_bound (Z.of_nat (length data)) U ltac:(lia)). destruct (_ =? 0); cbn [last_eb_bytes]; lia. }
  assert (Ho3 : others id (flash d) (ubi_check_volume f2 vol2).2) by (etransitivity; [exact Ho12|by apply others_same]).
  destruct (ubi_check_volume f2 vol2) as [e3 f3]. cbn [snd] in Hcl, Hok3, Ho3. destruct (Z.ltb_spec e3 0).
  { eexists _, _, vol2. split; [done|]. split_and!; [done|done|done|done|lia]. }
  eexists 0, _, (set_checked true (if negb (e3 =? 0) then set_corrupted true vol2 else vol2)).
  split; [done|]. split; [|split; [by destruct (e3 =? 0)|split; [done|split; [done|]]]].
  - unfold set_volume, set_flash. cbn. f_equal. by rewrite list_insert_insert_eq.
  - intros _. cbn [flash set_volume set_flash]. split_and!; [by destruct (e3 =? 0)..|].
    intros k Hk Hkd. rewrite Hcl. by apply Hs2.
Qed.

(** ** Reading back *)

Lemma read_piece f k len :
  stored f (reserved_pebs g) -> 0 <= k -> 0 < len <= U -> k * U + len <= Z.of_nat (length data) ->
  view (leb f id k) 0 len = take (Z.to_nat len) (drop (Z.to_nat (k * U)) data).
Proof.
  intros Hs Hk Hlen Hle. pose proof (wf_usable _ _ _ Hwf) as HU.
  assert (Hpl : len <= Z.of_nat (length (piece k))) by (unfold piece; rewrite length_take, length_drop; nia).
  rewrite (view_prefix _ (piece k) 0 (Z.of_nat (length (piece k)))); [|lia|lia| |lia|lia].
  - rewrite drop_0. unfold piece. rewrite take_take. f_equal. lia.
  - rewrite (Hs k); [|nia|nia]. by rewrite Nat2Z.id, take_ge.
Qed.

Lemma read_loop_ok fuel : forall f tbuf_size k size out,
  stored f (reserved_pebs g) -> 0 <= k -> 0 < size -> k * U + size <= Z.of_nat (length data) ->
  tbuf_size = U \/ (size < U /\ size <= tbuf_size) -> (Z.to_nat size < fuel)%nat -> eba_ok f g ->
  exists err out' f', read_loop fuel f g tbuf_size k 0 (if tbuf_size <? size then tbuf_size else size) size out
      = Some (err, out', f')
    /\ (forall v j, leb f' v j = leb f v j) /\ eba_ok f' g
    /\ (err = 0 -> out' = out ++ take (Z.to_nat size) (drop (Z.to_nat (k * U)) data)).
Proof.
  pose proof (wf_usable _ _ _ Hwf) as HU. pose proof (wf_size _ _ _ Hwf) as Hsz.
  induction fuel as [|fuel IH]; intros f tbuf k size out Hs Hk Hsize Hle Ht Hf Hok; [lia|]. cbn [read_loop].
  set (len := if U <=? _ then _ else _).
  assert (Hlen : len = Z.min U size).
  { unfold len. destruct (Z.ltb_spec tbuf size), (Z.leb_spec U (0 + tbuf)), (Z.leb_spec U (0 + size)); lia. }
  clearbody len. rewrite !Z.add_0_l. destruct (ubi_eba_read_leb f g k 0 len false) as [[e bs] f1] eqn:Hr0.
  destruct (read_ok f g k 0 len false e bs f1 Hok ltac:(lia) ltac:(lia) ltac:(lia) Hr0) as (Hok1 & Hl & Hr).
  destruct (Z.eqb_spec e 0) as [->|Hne]; cbn [negb].
  2: { exists (- e), out, f1. split_and!; [done|done|done|lia]. }
  specialize (Hr eq_refl). rewrite read_piece in Hr; [|done|done|lia|lia].
  rewrite (u32_small (size - len)) by nia. destruct (Z.eqb_spec len U) as [E|E]; cbn [fst snd].
  - destruct (Z.eqb_spec (size - len) 0) as [Ez|Ez].
    { exists 0, (out ++ bs), f1. split_and!; [done|done|done|]. intros _. rewrite Hr. do 2 f_equal. lia. }
    rewrite E, Z.sub_diag. assert (Hs1 : stored f1 (reserved_pebs g)) by (intros i Hi Hid; rewrite Hl; by apply Hs).
    destruct (IH f1 tbuf (k + 1) (size - U) (out ++ bs)) as (err & out' & f2 & -> & Hl2 & Hok2 & Hout);
      [done|lia|lia|lia|lia|lia|done|].
    exists err, out', f2. split_and!; [done|intros v j; by rewrite Hl2, Hl|done|]. intros He. rewrite (Hout He), Hr, E.
    rewrite <- app_assoc. f_equal. replace (Z.to_nat size) with (Z.to_nat U + Z.to_nat (size - U))%nat by lia.
    replace (Z.to_nat ((k + 1) * U)) with (Z.to_nat (k * U) + Z.to_nat U)%nat by nia.
    by rewrite <- drop_drop, take_take_drop.
  - destruct (Z.eqb_spec (size - len) 0) as [Ez|Ez]; [|lia].
    exists 0, (out ++ bs), f1. split_and!; [done|done|done|]. intros _. rewrite Hr. do 2 f_equal. lia.
Qed.

Lemma volume_read_ok d name i vol size :
  ubi_find_volume d name = Some (Some (i, vol)) -> geo vol = g -> min_io_size d = min_io ->
  updating vol = false -> upd_marker vol = false -> stored (flash d) (reserved_pebs g) ->
  0 < size <= Z.of_nat (length data) -> size <= used_bytes (ext vol) -> eba_ok (flash d) g ->
  exists err out d', ubi_volume_read d name size = Some (err, out, d')
    /\ d' = set_flash (flash d') d /\ (forall v j, leb (flash d') v j = leb (flash d) v j) /\ eba_ok (flash d') g
    /\ (err = 0 -> out = take (Z.to_nat size) data).
Proof.
  intros Hfind Hg Hio Hu Hm Hs Hsize Hused Hok. unfold ubi_volume_read. rewrite Hfind. cbn [mbind option_bind].
  rewrite Hu, Hm, Hg, Hio. destruct (Z.eqb_spec (used_bytes (ext vol)) 0); [lia|].
  destruct (Z.eqb_spec size 0); [lia|]. destruct (Z.ltb_spec (used_bytes (ext vol)) size); [lia|].
  set (tbuf := if size <? U then _ else _).
  assert (Ht : tbuf = U \/ (size < U /\ size <= tbuf)).
  { unfold tbuf. destruct (Z.ltb_spec size U); [right; split; [done|]|by left].
    destruct (wf_io _ _ _ Hwf) as (k & Hk & ->).
    apply (ALIGN_bounds size k U Hk ltac:(lia) (wf_aligned _ _ _ Hwf)). }
  destruct (malloc_ok (flash d) g tbuf Hok) as [Hok1 Hml]. destruct (malloc (flash d) tbuf) as [[b|] f1]; cbn [snd] in Hok1, Hml.
  - destruct (read_loop_ok (S (Z.to_nat size)) f1 tbuf 0 size []) as (err & out & f2 & -> & Hl & Hok2 & Hout);
      [by intros k Hk Hkd; rewrite Hml; apply Hs|lia|lia|lia|done|lia|done|].
    cbn [mbind option_bind]. eexists err, out, _. split; [done|]. split; [done|].
    split; [intros v j; by cbn; rewrite Hl, Hml|]. split; [done|]. intros He. by rewrite (Hout He), Z.mul_0_l, drop_0.
  - eexists ENOMEM, [], _. split; [done|]. split; [done|]. split; [done|]. split; [done|]. intros [=].
Qed.

End Data.

End RoundTrip.

(** ** Finding a volume that was changed *)

Lemma find_slot_same l1 l2 name :
  Forall2 (fun a b => option_map (fun v => vol_name (geo v)) a = option_map (fun v => vol_name (geo v)) b) l1 l2 ->
  find_slot l1 name = find_slot l2 name.
Proof.
  induction 1 as [|[v1|] [v2|] l1 l2 Hab _ IH]; try done; cbn [find_slot].
  - injection Hab as ->. by rewrite IH.
  - by rewrite IH.
Qed.

Lemma find_volume_set {F} (d : @ubi_device F) name i vol vol' f :
  ubi_find_volume d name = Some (Some (i, vol)) -> geo vol' = geo vol ->
  ubi_find_volume (set_volume i (Some vol') (set_flash f d)) name = Some (Some (i, vol')).
Proof.
  unfold ubi_find_volume. intros (r & Hr & H)%bind_Some Hg. injection H as H.
  apply bind_Some in H as (j & -> & H). apply bind_Some in H as (v & Hv & H). injection H as -> ->.
  destruct (volumes d !! i) as [o|] eqn:Hi; [|done]. cbn in Hv. subst o.
  cbn [set_volume set_flash vtbl_slots volumes].
  rewrite (find_slot_same _ (take (Z.to_nat (vtbl_slots d)) (volumes d))).
  - rewrite Hr. cbn [mbind option_bind]. by rewrite list_lookup_insert_eq by (by eapply lookup_lt_Some).
  - apply Forall2_take. apply Forall2_same_length_lookup. split; [by rewrite length_insert|].
    intros j x y Hx Hy. destruct (decide (j = i)) as [->|Hj].
    + rewrite list_lookup_insert_eq in Hx by (by eapply lookup_lt_Some). rewrite Hi in Hy.
      injection Hx as <-. injection Hy as <-. cbn. by rewrite Hg.
    + rewrite list_lookup_insert_ne in Hx by done. by simplify_eq.
Qed.

(** A volume that was written is read back. *)
Lemma volume_updated {F} `{!UbiEba F} `{!UbiEbaOk F} (d : @ubi_device F) name i vol data :
  ubi_find_volume d name = Some (Some (i, vol)) ->
  wf_volume (leb_size d) (min_io_size d) (geo vol) ->
  leb_size d - data_pad (geo vol) = usable_leb_size (geo vol) ->
  (vol_type (geo vol) = UBI_DYNAMIC_VOLUME ->
   used_bytes (ext vol) = reserved_pebs (geo vol) * usable_leb_size (geo vol)) ->
  0 < Z.of_nat (length data) <= reserved_pebs (geo vol) * usable_leb_size (geo vol) -> bytes data ->
  eba_ok (flash d) (geo vol) ->
  exists err d', ubi_volume_write d name data = Some (err, d') /\ eba_ok (flash d') (geo vol)
    /\ others (vol_id (geo vol)) (flash d) (flash d')
    /\ (err = 0 -> forall size, 0 < size <= Z.of_nat (length data) ->
        exists e out d'', ubi_volume_read d' name size = Some (e, out, d'')
          /\ (forall v n, leb (flash d'') v n = leb (flash d') v n) /\ eba_ok (flash d'') (geo vol)
          /\ (e = 0 -> out = take (Z.to_nat size) data)).
Proof.
  intros Hfind Hwf Hpad Hdyn [Hpos Hfit] Hby Hok0.
  destruct (volume_write_ok _ _ _ data Hwf Hfit Hby d name i vol) as (err & d' & vol1 & Hw & Hd1 & Hg1 & Hok1 & Ho1 & Hok); [done..|].
  exists err, d'. split; [done|]. split; [done|]. split; [done|]. intros -> size Hsize.
  destruct (Hok eq_refl) as (Hu & Hm & Hx & Hs).
  assert (Hf1 : ubi_find_volume d' name = Some (Some (i, vol1))) by (rewrite Hd1; by eapply find_volume_set).
  destruct (volume_read_ok _ _ _ data Hwf Hfit d' name i vol1 size) as (e & out & d2 & Hr & _ & Hl2 & Hok2 & Hout);
    [done|done|by rewrite Hd1|done|done|done|done| |done|by exists e, out, d2].
  rewrite Hx. unfold new_extent, extent_of. destruct (wf_type _ _ _ Hwf) as [Ht|Ht]; rewrite Ht.
  - cbn [Z.eqb Pos.eqb UBI_DYNAMIC_VOLUME UBI_STATIC_VOLUME]. rewrite Hdyn by done. lia.
  - cbn [Z.eqb Pos.eqb UBI_STATIC_VOLUME]. destruct (_ =? 0); cbn [used_bytes]; lia.
Qed.

(** C13: Writing a volume ([ubi write]), static or dynamic, always comes back
    and touches no other volume, also when it fails; and when it reported no
    error, reading any number of the bytes ([ubi read]) comes back, changes
    nothing, and gives the bytes that were written when it meets no error
    either: for data of any size that fits the volume, over all its erase
    blocks. *)
Theorem ubi_write_read {F} `{!UbiEba F} `{!UbiEbaOk F} (d : @ubi_device F) name i vol data :
  ubi_find_volume d name = Some (Some (i, vol)) ->
  wf_volume (leb_size d) (min_io_size d) (geo vol) ->
  leb_size d - data_pad (geo vol) = usable_leb_size (geo vol) ->
  (vol_type (geo vol) = UBI_DYNAMIC_VOLUME ->
   used_bytes (ext vol) = reserved_pebs (geo vol) * usable_leb_size (geo vol)) ->
  0 < Z.of_nat (length data) <= reserved_pebs (geo vol) * usable_leb_size (geo vol) -> bytes data ->
  eba_ok (flash d) (geo vol) ->
  exists err d', ubi_volume_write d name data = Some (err, d')
    /\ (forall v n, v <> vol_id (geo vol) -> v <> UBI_LAYOUT_VOLUME_ID -> leb (flash d') v n = leb (flash d) v n)
    /\ (err = 0 -> forall size, 0 < size <= Z.of_nat (length data) ->
        exists e out d'', ubi_volume_read d' name size = Some (e, out, d'')
          /\ (forall v n, leb (flash d'') v n = leb (flash d') v n)
          /\ (e = 0 -> out = take (Z.to_nat size) data)).
Proof.
  intros Hf Hwf Hpad Hdyn Hfit Hby Hok.
  destruct (volume_updated d name i vol data Hf Hwf Hpad Hdyn Hfit Hby Hok) as (err & d' & Hw & _ & Ho & Hr).
  exists err, d'. split; [done|]. split; [done|]. intros He size Hs.
  destruct (Hr He size Hs) as (e & out & d2 & ? & ? & _ & ?). by exists e, out, d2.
Qed.

(** ** Failed updates *)

Section Failed.
Context {F : Type} `{!UbiEba F}.

Definition keeps (v v' : ubi_volume) : Prop := geo v' = geo v /\ updating v' = updating v.

#[local] Instance keeps_preorder : PreOrder keeps.
Proof. split; [done|]. intros a b c [? ?] [? ?]. split; congruence. Qed.

Lemma set_marker_keeps f vol : keeps vol (set_update_marker f vol).2.
Proof. unfold set_update_marker. destruct (upd_marker vol); [done|]. by destruct (ubi_change_vtbl_record _ _ _). Qed.

Lemma clear_marker_keeps f vol n : keeps vol (clear_update_marker f vol n).2.
Proof.
  unfold clear_update_marker. set (vol1 := if _ =? UBI_STATIC_VOLUME then _ else _).
  destruct (ubi_change_vtbl_record _ _ _). transitivity vol1; [|done].
  unfold vol1. by destruct (_ =? UBI_STATIC_VOLUME).
Qed.

Lemma start_update_busy n f vol bytes :
  bytes <> 0 -> let v := (ubi_start_update n f vol bytes).2 in geo v = geo vol /\ updating v = true.
Proof.
  intros Hb. unfold ubi_start_update. pose proof (set_marker_keeps f (set_updating true vol)) as [Hg Hu].
  destruct (set_update_marker _ _) as [[e f1] v1]. cbn [snd] in *. destruct (e =? 0); [|done]. cbn [negb].
  destruct (unmap_lebs _ _ _ _) as [e2 f2]. destruct (e2 =? 0); [|done]. cbn [negb].
  destruct (Z.eqb_spec bytes 0); [done|]. unfold start_buffer. by destruct (malloc f2 n) as [[b|] f3].
Qed.

Lemma copy_in_keeps vol off p vol' : copy_in vol off p = Some vol' -> keeps vol vol'.
Proof. unfold copy_in. destruct (_ || _); [done|]. by intros [= <-]. Qed.

Lemma update_loop_keeps fuel : forall io f vol k buf e f' vol',
  update_loop fuel io f vol k buf = Some (e, f', vol') -> keeps vol vol'.
Proof.
  induction fuel as [|fuel IH]; intros io f vol k buf e f' vol' H; [done|]. cbn [update_loop] in H.
  destruct buf as [|x buf]; [by injection H as _ _ ->|].
  apply bind_Some in H as (v1 & Hc & H). apply bind_Some in H as ([e1 f1] & _ & H).
  apply copy_in_keeps in Hc. destruct (e1 =? 0); cbn [negb] in H.
  - apply IH in H. transitivity v1; [done|]. etransitivity; [|exact H]. done.
  - by injection H as _ _ <-.
Qed.

Lemma more_update_busy io f vol buf e f' vol' :
  ubi_more_update_data io f vol buf = Some (e, f', vol') ->
  geo vol' = geo vol /\ (e < 0 -> updating vol = true -> updating vol' = true).
Proof.
  unfold ubi_more_update_data. destruct (ro_mode f); [by intros [= <- <- <-]|].
  set (buf' := if _ <? _ then _ else _). intros ([[[e1 f1] v1] rest] & Hm & H)%bind_Some.
  assert (Hk1 : keeps vol v1).
  { destruct (_ mod _ =? 0) in Hm; cbn [negb] in Hm; [by injection Hm as <- <- <- <-|]. unfold update_middle in Hm.
    apply bind_Some in Hm as (v2 & Hc & Hm). apply copy_in_keeps in Hc.
    apply bind_Some in Hm as ([e2 f2] & _ & Hm). by destruct (e2 =? 0); injection Hm as <- <- <- <-. }
  destruct (e1 =? 0); cbn [negb] in H; [|injection H as <- <- <-; destruct Hk1; split; [done|congruence]].
  apply bind_Some in H as ([[e2 f2] v2] & Hl & H). apply update_loop_keeps in Hl.
  assert (Hk2 : keeps vol v2) by (by transitivity v1). injection H as H. unfold update_finish in H.
  destruct (upd_received (upd v2) =? upd_bytes (upd v2)); [|injection H as <- <- <-; destruct Hk2; split; [done|congruence]].
  pose proof (clear_marker_keeps f2 v2 (upd_bytes (upd v2))) as Hk3.
  destruct (clear_update_marker _ _ _) as [[e3 f3] v3]. cbn [snd] in Hk3.
  assert (Hk4 : keeps vol v3) by (by transitivity v2). destruct Hk4 as [Hg Hu].
  destruct (e3 =? 0); cbn [negb] in H; [|injection H as <- <- <-; split; [done|congruence]].
  destruct (ubi_wl_flush f3) as [e4 f4]. destruct (e4 =? 0); injection H as <- <- <-; split; [done|lia|done|congruence].
Qed.

End Failed.


(** ** A flash in memory *)

(** A flash that keeps what it is given, and whose writes fail when it is
    [broken]. *)
Record ram := Ram { blocks : gmap (Z * Z) (list Z); table : gmap Z ubi_vtbl_record; broken : bool }.

Definition EIO : Z := 5.

#[export] Instance ram_eba : UbiEba ram := {|
  ro_mode _ := false;
  vtbl f i := default (VtblRec 0 0 0 0 false []) (table f !! i);
  ubi_change_vtbl_record f i r := (0, Ram (blocks f) (partial_alter (fun _ => r) i (table f)) (broken f));
  ubi_eba_unmap_leb f g l := (0, Ram (delete (vol_id g, l) (blocks f)) (table f) (broken f));
  ubi_eba_read_leb f g l off len _ := (0, view (blocks f !! (vol_id g, l)) off len, f);
  ubi_eba_write_leb f g l b off :=
    if broken f || negb (off =? 0) then (- EIO, f) else (0, Ram (<[(vol_id g, l) := b]> (blocks f)) (table f) false);
  ubi_eba_write_leb_st f g l b len _ :=
    if broken f then (- EIO, f) else (0, Ram (<[(vol_id g, l) := b]> (blocks f)) (table f) false);
  ubi_wl_flush f := (0, f);
  malloc f size := (Some (replicate (Z.to_nat size) 0xa5), f);
|}.

#[export] Instance ram_ok : UbiEbaOk ram.
Proof.
  refine {| leb f v n := blocks f !! (v, n); eba_ok _ _ := True |}; try done; cbn.
  - intros f g l e f' _ [= <- <-]. split; [done|]. split; [done|]. cbn. split; [|by rewrite lookup_delete_eq].
    intros v n H. rewrite lookup_delete_ne; [done|]. intros [=]. by apply H.
  - intros f g l b e f' _ _ _ _ _ Hw. destruct (broken f); injection Hw as <- <-; [done|]. cbn. split; [done|].
    split; [done|]. split; [|by rewrite lookup_insert_eq]. intros v n H. rewrite lookup_insert_ne; [done|]. intros [=]. by apply H.
  - intros f g l b len used e f' _ _ _ Hlen Hb _ Hw. destruct (broken f); injection Hw as <- <-; [done|]. cbn. split; [done|]. split; [done|]. split.
    + intros v n H. rewrite lookup_insert_ne; [done|]. intros [=]. by apply H.
    + intros _ _. rewrite lookup_insert_eq. rewrite <- (take_ge b (length b)) at 1 by done.
      rewrite <- (Z2Nat.id len) at 1 by lia. rewrite view_trimmed; [done|lia|lia].
  - by intros f g l off len check e out f' _ _ _ _ [= <- <- <-].
  - by intros f g b e f' _ [= <- <-].
  - by intros f g e f' _ [= <- <-].
  - intros f size b f' Hs [= <- _]. rewrite length_replicate. lia.
Defined.

(** Two volumes: the counter, static, and a dynamic one of three blocks. *)
Definition retries_geo : geometry := Geometry 0 1 UBI_STATIC_VOLUME 8 1 0 (bytes_of "upgrade_retries").
Definition part_geo : geometry := Geometry 1 3 UBI_DYNAMIC_VOLUME 8 1 0 (bytes_of "part.new").

Definition idle (g : geometry) (e : extent) : ubi_volume := Vol g e (Update 0 0 0 []) false false false false.

Definition sample_device (broken : bool) : ubi_device :=
  Ubi (Ram {[ (0, 0) := [3] ]} ∅ broken) 8 4 2 0 0 0 0 2
    [Some (idle retries_geo (Extent 1 1 1)); Some (idle part_geo (Extent 3 8 24)); None].

Definition part_data : list Z := seqZ 1 20.

Lemma part_bytes : bytes part_data.
Proof. unfold part_data. apply Forall_forall. intros x Hx. apply elem_of_seqZ in Hx. unfold in_word. lia. Qed.

Lemma part_wf : wf_volume 8 4 part_geo.
Proof.
  split; cbn; try lia; [by exists 2|by exists 2|unfold UBI_LAYOUT_VOLUME_ID; lia].
Qed.

Definition part_written : ubi_device :=
  match ubi_volume_write (sample_device false) (cstr (bytes_of "part.new")) part_data with
  | Some (_, d) => d
  | None => sample_device false
  end.

Lemma ubi_write_read_witness :
  exists err out d'', ubi_volume_read part_written (cstr (bytes_of "part.new")) 18 = Some (err, out, d'')
    /\ (err = 0 -> out = take 18 part_data).
Proof.
  destruct (ubi_write_read (sample_device false) (cstr (bytes_of "part.new")) 1 (idle part_geo (Extent 3 8 24)) part_data)
    as (err & d' & Hw & _ & Hr);
    [by vm_compute|apply part_wf|done|done|split; by vm_compute|apply part_bytes|done|].
  assert (H0 : err = 0 /\ d' = part_written).
  { unfold part_written. rewrite Hw. vm_compute in Hw. by injection Hw as <- _. }
  destruct H0 as [-> ->]. destruct (Hr eq_refl 18) as (e & out & d2 & Hr2 & _ & Ho); [split; by vm_compute|].
  exists e, out, d2. split; [exact Hr2|exact Ho].
Defined.

Definition part_failed : Z * ubi_device :=
  default (0, sample_device true) (ubi_volume_write (sample_device true) (cstr (bytes_of "part.new")) part_data).


(** *** Details of the commands *)

Definition w0 : world := World (sample_device false) true (fun _ => 7).
Definition run (w : world) (argv : list string) : option (Z * world) :=
  do_ubi (fun w => (0, w)) (fun w _ => Some (0, w)) w (map (fun a => cstr (bytes_of a)) argv).

(** The counter is read to memory. *)
Example read_counter :
  exists w, run w0 ["ubi"; "read"; "0x100"; "upgrade_retries"; "1"]%string = Some (0, w)
            /\ memory w 0x100 = 3 /\ memory w 0x101 = 7.
Proof. eexists. split; [by vm_compute|]. by vm_compute. Qed.

(** [ubi read] with one argument takes a name that is not there. *)
Example read_without_name : run w0 ["ubi"; "read"; "part.new"]%string = None.
Proof. by vm_compute. Qed.

(** A name of 128 characters does not fit the request it is copied to before
    its length is checked. *)
Example create_overruns : ubi_create_vol (sample_device false) (replicate 128 97) 8 true = None.
Proof. by vm_compute. Qed.

(** A static volume without data is read with success, and nothing is stored. *)
Example empty_volume_read :
  ubi_volume_read
    (set_volume 0 (Some (idle retries_geo (Extent 0 8 0))) (sample_device false)) (cstr (bytes_of "upgrade_retries")) 1
  = Some (0, [], set_volume 0 (Some (idle retries_geo (Extent 0 8 0))) (sample_device false)).
Proof. by vm_compute. Qed.

End UbiSpec.
