(* ===== verification/UbiFlash.v ===== *)
(** * Volumes on the flash

    The two halves of the UBI model put together: the layer that volumes are
    written and read through ([Ubi.UbiEba]) is the one of UbiEba.v on a flash
    chip, and it keeps the promises that the commands rely on
    ([UbiSpec.UbiEbaOk]).  A device that has gone read-only may have given up
    blocks that are mapped: there only reads still do something, and they change
    no contents ([frozen]). *)

From stdpp Require Import gmap.
From S2P Require Import Prelude Crc32 Cstring Vsprintf Rbtree Ubi UbiIo UbiWl UbiWlSpec UbiWorks UbiEba UbiEbaSpec UbiSpec.

Module UbiFlash.
Import Cstring Vsprintf Rbtree Ubi UbiIo UbiWl UbiWlSpec UbiWorks UbiEba UbiEbaSpec.

(** ** Read-only mode *)

Section Frozen.
Context {M : Type} `{!Mtd M} (g : ubi_geometry) `{!MtdOk M g}.

#[local] Abbreviation dev := (device M).

(** What stays of a device in read-only mode. *)
Definition frozen (u u' : dev) : Prop :=
  ro u = true ->
  ro u' = true /\ (forall p, peb (mtd u') p = peb (mtd u) p) /\ eba_tbl (eba u') = eba_tbl (eba u)
  /\ present (eba u') = present (eba u) /\ vtbl u' = vtbl u.

#[global] Instance frozen_preorder : PreOrder frozen.
Proof.
  split; [by intros u Hr|]. intros u1 u2 u3 H1 H2 Hr. destruct (H1 Hr) as (Hr2 & P1 & T1 & V1 & E1).
  destruct (H2 Hr2) as (Hr3 & P2 & T2 & V2 & E2). split; [done|]. split; [intros p; by rewrite P2|]. by rewrite T2, V2, E2.
Qed.

(** A call on a read-only device that freezes it, and a property of its code. *)
Definition freezes {A} (P : A -> Prop) (u : dev) (r : option (A * dev)) : Prop :=
  ro u = true -> forall x u', r = Some (x, u') -> P x /\ frozen u u'.

Abbreviation nonpos := (fun e : Z => e <= 0).
Abbreviation any := (fun _ => True).

Lemma freezes_some {A} (P : A -> Prop) u (x : A) u' : frozen u u' -> P x -> freezes P u (Some (x, u')).
Proof. by intros H Hp _ ? ? [= <- <-]. Qed.

Lemma freezes_any {A} (P : A -> Prop) u (r : option (A * dev)) : freezes P u r -> freezes any u r.
Proof. intros H Hr x u' E. split; [done|]. by eapply H. Qed.

Lemma freezes_step {A} (P : A -> Prop) u u1 (r : option (A * dev)) : frozen u u1 -> freezes P u1 r -> freezes P u r.
Proof.
  intros H Hr Hro x u' E. destruct (H Hro) as (Hro1 & _). destruct (Hr Hro1 _ _ E). split; [done|]. by etransitivity.
Qed.

Lemma freezes_bind {A B} (P : A -> Prop) (Q : B -> Prop) u (r : option (A * dev)) (k : A * dev -> option (B * dev)) :
  freezes P u r -> (forall x u', P x -> freezes Q u' (k (x, u'))) -> freezes Q u (r ≫= k).
Proof.
  intros Hr Hk Hro y u2 ([x u1] & E & E2)%bind_Some. destruct (Hr Hro _ _ E) as [Hp H]. destruct (H Hro) as (Hro1 & _).
  destruct (Hk _ _ Hp Hro1 _ _ E2). split; [done|]. by etransitivity.
Qed.

Lemma freezes_pure {A B} (Q : B -> Prop) u (r : option A) (k : A -> option (B * dev)) :
  (forall x, freezes Q u (k x)) -> freezes Q u (r ≫= k).
Proof. intros Hk Hro y u2 (x & _ & E)%bind_Some. by eapply Hk. Qed.

Lemma frozen_wl u w : frozen u (set_wl w u).
Proof. by intros Hr. Qed.

Lemma frozen_mtd u m : (ro u = true -> forall p, peb m p = peb (mtd u) p) -> frozen u (set_mtd m u).
Proof. intros Hm Hr. split_and!; try done. by apply Hm. Qed.

Lemma frozen_ro u : frozen u (ubi_ro_mode u).
Proof. by intros Hr. Qed.

Lemma frozen_pools u p : frozen u (set_pools p u).
Proof. by intros Hr. Qed.

Lemma frozen_next u : frozen u (next_sqnum u).2.
Proof. by intros Hr. Qed.

(** Nothing is erased. *)
Lemma sync_erase_frozen u e torture : ro u = true -> sync_erase g u e torture = (- EROFS, e, set_mtd (mtd u) u).
Proof. intros Hr. unfold sync_erase, ubi_io_sync_erase. by rewrite Hr. Qed.

Lemma write_copy_frozen u to v l b d n buf : frozen u (write_copy g u to v l b d n buf).2.
Proof. intros Hr. unfold write_copy, ubi_io_write_vid_hdr, ubi_io_write. rewrite Hr. by destruct u. Qed.

Lemma copy_leb_frozen u from to b : frozen u (ubi_eba_copy_leb g u from to b).2.
Proof.
  unfold ubi_eba_copy_leb. destruct (negb (bool_decide _)); [done|]. destruct (negb (_ =? from)); [done|].
  set (n := if vid_vol_type (vb_hdr b) =? UBI_VID_STATIC then ALIGN _ _ else _). unfold ubi_io_read_data.
  pose proof (ubi_io_read_any g (mtd u) from (0 + leb_start g) n) as Hs.
  destruct (ubi_io_read _ _ _ _ _) as [[err buf] m]. cbn [snd] in Hs.
  assert (H : frozen u (set_mtd m u)) by (by apply frozen_mtd). destruct (negb (err =? 0) && _); [done|].
  destruct (if vid_vol_type (vb_hdr b) =? UBI_VID_DYNAMIC then _ else _) as [al ds].
  etransitivity; [exact H|]. pose proof (frozen_next (set_mtd m u)) as Hn. destruct (next_sqnum _) as [sq u1]. cbn [snd] in Hn.
  etransitivity; [exact Hn|]. apply write_copy_frozen.
Qed.

(** *** The works *)

Section Works.
Context (work : dev -> option (Z * dev)).
Hypothesis Hwork : forall u, freezes any u (work u).

Lemma schedule_frozen {A} (P : A -> Prop) u wrk (k : dev -> option (A * dev)) :
  (forall u', freezes P u' (k u')) -> freezes P u (schedule_ubi_work work u wrk ≫= k).
Proof.
  intros Hk Hro x u' (u1 & E & E2)%bind_Some. unfold schedule_ubi_work in E. apply bind_Some in E as ([y u2] & E & [= <-]).
  eapply (freezes_step P); [etransitivity; [apply frozen_wl|by eapply Hwork]|apply Hk|done|exact E2].
Qed.

Lemma schedule_erase_frozen u e torture : freezes nonpos u (schedule_erase work u e torture).
Proof. apply schedule_frozen. intros u'. by apply freezes_some. Qed.

Lemma ensure_frozen u : freezes nonpos u (ensure_wear_leveling work u).
Proof.
  assert (Hgo : freezes nonpos u (u0 ← schedule_ubi_work work (set_wl (set_scheduled true (wl u)) u) WearLevelingWork; Some (0, u0))).
  { eapply freezes_step; [apply frozen_wl|]. apply schedule_frozen. intros u'. by apply freezes_some. }
  unfold ensure_wear_leveling. destruct (wl_scheduled _); [by apply freezes_some|].
  destruct (is_leaf (scrub _)); [|exact Hgo]. destruct (_ || _); [by apply freezes_some|].
  do 2 (apply freezes_pure; intros ?). by destruct (negb _); [apply freezes_some|].
Qed.

Lemma out_not_moved_frozen u e1 e2 scr : freezes nonpos u (out_not_moved work u e1 e2 scr).
Proof.
  unfold out_not_moved. apply freezes_pure. intros w. eapply freezes_step; [apply frozen_wl|]. apply schedule_erase_frozen.
Qed.

Lemma out_error_frozen u e1 e2 err : err <= 0 -> freezes nonpos u (Some (out_error u e1 e2 err)).
Proof. intros He. apply freezes_some; [by intros Hr|done]. Qed.

Lemma moved_frozen u e1 e2 protect : freezes nonpos u (moved work u e1 e2 protect).
Proof.
  unfold moved. do 2 (apply freezes_pure; intros ?). eapply freezes_step; [apply frozen_wl|].
  apply (freezes_bind nonpos).
  - destruct (move_to_put _); [apply schedule_erase_frozen|by apply freezes_some].
  - intros ? u' _. destruct protect; [by apply freezes_some|apply schedule_erase_frozen].
Qed.

Lemma read_vid_hdr_any (m : M) p q : peb (ubi_io_read_vid_hdr g m p).2 q = peb m q.
Proof.
  unfold ubi_io_read_vid_hdr. pose proof (ubi_io_read_any g m p (vid_hdr_aloffset g) (vid_hdr_alsize g) q) as Hs.
  destruct (ubi_io_read _ _ _ _ _) as [[err raw] m']. by destruct (negb (err =? 0) && _ && _).
Qed.

Lemma wear_leveling_frozen u : freezes nonpos u (wear_leveling_worker g work u).
Proof.
  unfold wear_leveling_worker. apply freezes_pure. intros [[[[e1 e2] scr] w]|]; [|by apply freezes_some; [apply frozen_wl|]].
  set (u1 := set_wl _ u). eapply (freezes_step _ _ u1); [apply frozen_wl|].
  pose proof (read_vid_hdr_any (mtd u1) (e_pnum e1)) as Hs. destruct (ubi_io_read_vid_hdr _ _ _) as [[err b] m]. cbn [snd] in Hs.
  eapply (freezes_step _ _ (set_mtd m u1)); [by apply frozen_mtd|].
  destruct (negb (err =? 0) && _).
  - destruct (err =? UBI_IO_PEB_FREE); [apply out_not_moved_frozen|]. apply out_error_frozen. destruct (Z.ltb_spec 0 err); [done|lia].
  - pose proof (copy_leb_frozen (set_mtd m u1) (e_pnum e1) (e_pnum e2) b) as Hc. destruct (ubi_eba_copy_leb _ _ _ _ _) as [err2 u2].
    cbn [snd] in Hc. eapply freezes_step; [exact Hc|].
    destruct (Z.ltb_spec err2 0); [apply out_error_frozen; lia|].
    destruct (err2 =? 1); [apply out_not_moved_frozen|apply moved_frozen].
Qed.

Lemma erase_failed_frozen u e err : err <= 0 -> freezes nonpos u (erase_failed g u e err).
Proof.
  intros He. unfold erase_failed. destruct (_ || _); [done|].
  assert (H1 : frozen u (free_entry e u)) by apply frozen_wl.
  repeat (destruct (negb _); [by apply (freezes_some nonpos u); [etransitivity; [exact H1|apply frozen_ro]|]|]).
  set (u2 := set_pools _ _). assert (H2 : frozen u u2) by (etransitivity; [exact H1|apply frozen_pools]).
  destruct (beb_rsvd_pebs _ =? 0); [by apply (freezes_some nonpos u); [etransitivity; [exact H2|apply frozen_ro]|]|].
  unfold ubi_io_mark_bad. intros Hro. destruct (H2 Hro) as (-> & _). revert Hro. apply (freezes_some nonpos u); [|done].
  etransitivity; [exact H2|]. by destruct u2.
Qed.

Lemma erase_worker_frozen u e torture : freezes nonpos u (erase_worker g work u e torture).
Proof.
  intros Hro. unfold erase_worker. rewrite sync_erase_frozen by done.
  eapply freezes_step; [by apply frozen_mtd| |done]. by apply erase_failed_frozen.
Qed.

End Works.

Lemma do_work_frozen fuel : forall u, freezes nonpos u (do_work g fuel u).
Proof.
  induction fuel as [|fuel IH]; intros u; [done|]. cbn [do_work]. destruct (works (wl u)) as [|wrk rest]; [by apply freezes_some|].
  eapply freezes_step; [apply frozen_wl|].
  destruct wrk; [apply erase_worker_frozen|apply wear_leveling_frozen; intros u'; by eapply freezes_any].
Qed.

Lemma scrub_frozen fuel u p : freezes any u (ubi_wl_scrub_peb g fuel u p).
Proof.
  unfold ubi_wl_scrub_peb. apply freezes_pure. intros e. destruct (_ || _); [by apply freezes_some|].
  case_bool_decide; [done|]. apply freezes_pure. intros [err w].
  destruct (negb (err =? 0)); [by apply freezes_some; [apply frozen_ro|]|].
  apply freezes_pure. intros t. eapply freezes_step; [apply frozen_wl|]. eapply freezes_any, ensure_frozen.
  intros u'. eapply freezes_any, do_work_frozen.
Qed.

Lemma flush_loop_frozen fuel n : forall u, freezes nonpos u (flush_loop g fuel n u).
Proof.
  induction n as [|n IH]; intros u; cbn [flush_loop]; (destruct (_ =? 0)%nat; [by apply freezes_some|]); [done|].
  eapply freezes_bind; [apply do_work_frozen|]. intros err u' He. by destruct (negb (err =? 0)); [apply freezes_some|].
Qed.

Lemma flush_frozen fuel u : freezes nonpos u (ubi_wl_flush g fuel u).
Proof.
  unfold ubi_wl_flush. eapply freezes_bind; [apply flush_loop_frozen|]. intros err u' He.
  destruct (negb (err =? 0)); [by apply freezes_some|apply flush_loop_frozen].
Qed.

(** *** Reading *)

Lemma read_data_frozen u p off len : frozen u (set_mtd (ubi_io_read_data g (mtd u) p off len).2 u).
Proof. apply frozen_mtd. intros _ q. apply ubi_io_read_any. Qed.

Lemma read_crc_frozen u p r : read_crc g u p = r ->
  frozen u (match r with inl (_, u') => u' | inr (_, u') => u' end).
Proof.
  unfold read_crc. pose proof (read_vid_hdr_any (mtd u) p) as Hs. destruct (ubi_io_read_vid_hdr _ _ _) as [[err b] m].
  cbn [snd] in Hs. assert (H : frozen u (set_mtd m u)) by (by apply frozen_mtd).
  destruct (negb (err =? 0) && _); [|by intros <-]. destruct (0 <? err); [|by intros <-]. destruct (err =? UBI_IO_BAD_VID_HDR); by intros <-.
Qed.

Lemma read_done_frozen fuel u p buf err crc scr : freezes any u (read_done g fuel u p buf err crc scr).
Proof.
  unfold read_done. destruct (match crc with Some c => _ | None => _ end); [by apply freezes_some|].
  destruct scr; [|by apply freezes_some]. eapply freezes_bind; [apply scrub_frozen|]. intros e u' _. by apply freezes_some.
Qed.

Lemma read_retry_frozen fuel n : forall u vol p off len check scr, freezes any u (read_leb_retry g fuel n u vol p off len check scr).
Proof.
  induction n as [|n IH]; intros u vol p off len check scr; [done|]. cbn [read_leb_retry].
  set (r := if check then _ else _).
  assert (H : frozen u (match r with inl (_, u') => u' | inr (_, u') => u' end)).
  { unfold r. destruct check; [exact (read_crc_frozen u p _ eq_refl)|done]. }
  clearbody r. destruct r as [[e u']|[[crc fl] u']]; [by apply freezes_some|]. eapply freezes_step; [exact H|].
  pose proof (read_data_frozen u' p off len) as H2. destruct (ubi_io_read_data _ _ _ _ _) as [[e buf] m]. cbn [snd] in H2.
  eapply freezes_step; [exact H2|]. repeat case_match; auto using read_done_frozen, freezes_some.
  all: by apply freezes_some.
Qed.

Lemma read_leb_frozen fuel u vol l off len check : freezes any u (ubi_eba_read_leb g fuel u vol l off len check).
Proof.
  unfold ubi_eba_read_leb. destruct (_ <? 0); [by apply freezes_some|]. apply read_retry_frozen.
Qed.

(** The tables point to blocks that hold what they should. *)
Definition tables (u : dev) : Prop :=
  forall v l p, mapped u v l p -> 0 <= p < peb_count g /\ held g v l (peb (mtd u) p) /\ v ∈ present (eba u).

Lemma frozen_leb u u' v l : frozen u u' -> ro u = true -> leb g u' v l = leb g u v l.
Proof.
  intros H Hr. destruct (H Hr) as (_ & Hp & Ht & _). unfold leb. rewrite Ht. destruct (eba_tbl (eba u) !! (v, l)); [|done].
  cbn. by rewrite Hp.
Qed.

Lemma frozen_tables u u' : frozen u u' -> ro u = true -> tables u -> tables u'.
Proof.
  intros H Hr Ht v l p Hm. destruct (H Hr) as (_ & Hp & He & Hv & _). unfold mapped in Hm. rewrite He in Hm.
  rewrite Hp, Hv. by apply Ht.
Qed.

(** In any state: a read that meets no error gives what is in the block. *)
Lemma read_shows (Hg : wf_geometry g) fuel u vol l off len check buf u' :
  tables u -> 0 <= off -> 0 <= len -> off + len <= leb_size g ->
  ubi_eba_read_leb g fuel u vol l off len check = Some (0, buf, u') -> shows (leb g u (vol_id vol) l) off len buf.
Proof.
  intros Ht Ho Hl Hle. unfold ubi_eba_read_leb, eba_lookup, leb.
  destruct (eba_tbl (eba u) !! (vol_id vol, l)) as [p|] eqn:Em; cbn [default id fmap option_fmap option_map shows].
  2: { change (UBI_LEB_UNMAPPED <? 0) with true. by intros [= <- _]. }
  destruct (Ht _ _ _ Em) as (Hr & Hh & _). destruct (Z.ltb_spec p 0); [lia|]. intros E Hlen.
  set (ck := if _ : bool then false else check) in E. clearbody ck. cbn [read_leb_retry] in E.
  set (r := if ck then _ else _) in E.
  assert (Hc : match r with inl (e, _) => e <> 0 | inr (_, u1) => forall q, peb (mtd u1) q = peb (mtd u) q end).
  { unfold r. destruct ck; [|done]. unfold read_crc. pose proof (read_vid_hdr_any (mtd u) p) as Hs.
    destruct (ubi_io_read_vid_hdr _ _ _) as [[e b] m]. cbn [snd] in Hs. destruct (Z.eqb_spec e 0); cbn [negb andb]; [done|].
    destruct (negb (e =? UBI_IO_BITFLIPS)); [|done]. destruct (0 <? e); [|done]. by destruct (e =? UBI_IO_BAD_VID_HDR). }
  clearbody r. destruct r as [[e ?]|[[crc fl] u1]]; [by injection E as ->|]. unfold ubi_io_read_data in E.
  destruct (wf_leb g Hg) as (Hl1 & Hl2 & Hl3). pose proof (wf_start g Hg). destruct (wf_ec g Hg), (wf_shift g Hg).
  unfold UBI_EC_HDR_SIZE, UBI_VID_HDR_SIZE in *.
  destruct (ubi_io_read g (mtd u1) p (off + leb_start g) len) as [[e b] m] eqn:Er.
  apply (ubi_io_read_ok g) in Er as (_ & _ & Hx); [|done|lia..].
  assert (Hdone : forall e2 u2 crc2 scr buf2 u3, read_done g fuel u2 p b e2 crc2 scr = Some (0, buf2, u3) -> buf2 = b).
  { intros e2 u2 crc2 scr buf2 u3. unfold read_done. destruct (match crc2 with Some c => _ | None => _ end); [done|].
    destruct scr; [|by intros [= _ -> _]]. by intros ([e3 u4] & _ & [= _ -> _])%bind_Some. }
  assert (Hb : buf = b /\ b = sub (peb (mtd u1) p) (Z.to_nat (off + leb_start g)) (Z.to_nat len)).
  { destruct Hx as [[Hb Hx]|[Hneg [Hx _]]].
    - split; [|done]. destruct Hx as [->|[-> _]]; cbn [Z.eqb Pos.eqb UBI_IO_BITFLIPS] in E; by eapply Hdone.
    - destruct (Z.eqb_spec e 0); [lia|]. destruct (Z.eqb_spec e UBI_IO_BITFLIPS) as [->|]; [done|].
      destruct (Z.eqb_spec e (- EBADMSG)); [done|]. by injection E as -> _ _. }
  destruct Hb as [-> ->]. rewrite Hc. unfold data_of in *.
  pose proof (data_len_bounds g _ _ _ (held_fits _ _ _ _ Hh)) as Hd.
  rewrite length_sub in Hlen by (pose proof (peb_length (mtd u) p Hr); lia). symmetry. rewrite sub_sub by lia. f_equal. lia.
Qed.

End Frozen.

(** ** The layer below the volumes *)

(** Memory, handed out in the length that was asked for. *)
Class Heap (H : Type) := {
  heap_alloc : H -> Z -> option (list Z) * H;
  heap_length h size b h' : 0 <= size -> heap_alloc h size = (Some b, h') -> Z.of_nat (length b) = size;
}.

Section Layer.
Context {M H : Type} `{!Mtd M} `{!Heap H} (g : ubi_geometry) (fuel : nat).

#[local] Abbreviation dev := (device M).

(** The code and the state after a call.  Without a result the works have not
    ended, or an entry that was freed would be used: the calls below have one
    but on a read-only device ([call_returns]), where -EIO stands for it. *)
Definition call (f : dev * H) (r : option (Z * dev)) : Z * (dev * H) :=
  match r with Some (err, u) => (err, (u, f.2)) | None => (- EIO, f) end.

(** Data is written with [UBI_UNKNOWN] (upd.c). *)
Definition flash_eba : UbiEba (dev * H) := {|
  Ubi.ro_mode f := ro f.1;
  Ubi.vtbl f i := nth (Z.to_nat i) (vtbl f.1) empty_vtbl_record;
  Ubi.ubi_change_vtbl_record f i r := call f (ubi_change_vtbl_record g fuel f.1 i r);
  Ubi.ubi_eba_unmap_leb f vol l := call f (ubi_eba_unmap_leb g fuel f.1 vol l);
  Ubi.ubi_eba_read_leb f vol l off len check :=
    match ubi_eba_read_leb g fuel f.1 vol l off len check with
    | Some (err, buf, u) => (err, buf, (u, f.2))
    | None => (- EIO, [], f)
    end;
  Ubi.ubi_eba_write_leb f vol l buf off := call f (ubi_eba_write_leb g fuel f.1 vol l buf off UBI_UNKNOWN);
  Ubi.ubi_eba_write_leb_st f vol l buf len used := call f (ubi_eba_write_leb_st g fuel f.1 vol l buf len UBI_UNKNOWN used);
  Ubi.ubi_wl_flush f := call f (ubi_wl_flush g fuel f.1);
  Ubi.malloc f size := let '(b, h) := heap_alloc f.2 size in (b, (f.1, h));
|}.

Context `{!MtdOk M g} (Hg : wf_geometry g).

(** A table whose records have names of bytes, and that fits an erase block. *)
Definition table_ok (t : list ubi_vtbl_record) : Prop :=
  Forall (fun r => bytes (r_name r)) t /\ Z.of_nat (length (vtbl_image g t)) <= leb_size g.

(** The device is in order, as far as it still writes, and has the volume. *)
Record flash_ok (u : dev) (vol : geometry) : Prop := {
  fl_tables : tables g u;
  fl_good : ro u = false -> good g fuel u;
  fl_vol : vol_ok g u vol;
  fl_layout : vol_ok g u (layout_volume g);
  fl_id : vol_id vol <> UBI_LAYOUT_VOLUME_ID;
  fl_usable : usable_leb_size vol = leb_size g - data_pad vol;
  fl_len l c : leb g u (vol_id vol) l = Some c -> Z.of_nat (length c) = usable_leb_size vol;
  fl_table : table_ok (vtbl u);
}.

Lemma good_tables (u : dev) : good g fuel u -> tables g u.
Proof. intros (H1 & _) v l p Hm. by apply (dev_eba _ _ _ _ H1). Qed.

Lemma vol_ok_same (u u' : dev) vol : present (eba u') = present (eba u) -> vol_ok g u vol -> vol_ok g u' vol.
Proof. intros E [? ? ?]. split; [by rewrite E|done..]. Qed.

Lemma flash_good u u' vol :
  flash_ok u vol -> good g fuel u' -> present (eba u') = present (eba u) -> table_ok (vtbl u') ->
  (forall l c, leb g u' (vol_id vol) l = Some c -> Z.of_nat (length c) = usable_leb_size vol) -> flash_ok u' vol.
Proof.
  intros [H1 H2 H3 H4 H5 H6 H7 H8] G Hp Ht Hl. split; try done; [by apply good_tables|by eapply vol_ok_same..].
Qed.

Lemma flash_keeps u u' vol : flash_ok u vol -> good g fuel u' -> keeps g u u' -> flash_ok u' vol.
Proof.
  intros Hok G [K1 K2 K3 K4 K5]. eapply flash_good; [exact Hok|done|done|rewrite K3; apply Hok|].
  intros l c. rewrite K1. by eapply fl_len.
Qed.

Lemma flash_updates u u' vol l c :
  flash_ok u vol -> good g fuel u' -> updates g (vol_id vol) l c u u' ->
  (forall x, c = Some x -> Z.of_nat (length x) = usable_leb_size vol) -> flash_ok u' vol.
Proof.
  intros Hok G [K1 K2 K3 K4 K5] Hc. eapply flash_good; [exact Hok|done|done|rewrite K3; apply Hok|].
  intros l' x. rewrite K1. case_bool_decide; [by apply Hc|by eapply fl_len].
Qed.

Lemma flash_frozen u u' vol : flash_ok u vol -> ro u = true -> frozen g u u' -> flash_ok u' vol.
Proof.
  intros Hok Hr Hf. destruct (Hf Hr) as (Hr' & _ & _ & Hp & Hv). destruct Hok as [H1 H2 H3 H4 H5 H6 H7 H8].
  split; try done; [by eapply frozen_tables|by rewrite Hr'|by eapply vol_ok_same..| |by rewrite Hv].
  intros l c. rewrite (frozen_leb g u u') by done. apply H7.
Qed.

(** *** The promises, call by call *)

Lemma flash_unmap u vol l : flash_ok u vol ->
  exists err u', ubi_eba_unmap_leb g fuel u vol l = Some (err, u') /\ flash_ok u' vol /\ err <= 0
    /\ (forall v n, ~ (v = vol_id vol /\ n = l) -> leb g u' v n = leb g u v n) /\ (err = 0 -> leb g u' (vol_id vol) l = None).
Proof.
  intros Hok. destruct (ro u) eqn:Hr.
  - unfold ubi_eba_unmap_leb. rewrite Hr. by do 2 eexists.
  - destruct (unmap_spec g Hg fuel u vol l (fl_good _ _ Hok Hr)) as (err & u' & -> & G & [(? & _)|(_ & -> & U)]); [congruence|].
    do 2 eexists. split; [done|]. split; [by eapply flash_updates|]. split; [done|]. split.
    + intros v n Hx. by rewrite (upd_leb _ _ _ _ _ _ U), bool_decide_false.
    + intros _. by rewrite (upd_leb _ _ _ _ _ _ U), bool_decide_true.
Qed.

Lemma length_written n off buf : 0 <= off -> 0 <= n -> off + Z.of_nat (length buf) <= n -> Z.of_nat (length (written n off buf)) = n.
Proof. intros. unfold written. rewrite length_overwrite; rewrite length_replicate; lia. Qed.

(** What writing to an erase block that is not mapped comes to. *)
Definition writes (u u' : dev) (vol : geometry) (l : Z) (c : list Z) (err : Z) : Prop :=
  flash_ok u' vol /\ err <= 0 /\ (forall v n, ~ (v = vol_id vol /\ n = l) -> leb g u' v n = leb g u v n)
  /\ (err = 0 -> ro u' = false -> leb g u' (vol_id vol) l = Some c).

Lemma wrote_writes u u' vol l c err :
  flash_ok u vol -> good g fuel u' -> wrote g (vol_id vol) l c u u' err -> Z.of_nat (length c) = usable_leb_size vol ->
  writes u u' vol l c err.
Proof.
  intros Hok G [(K & He & Hf)|(-> & Hr & U)] Hc.
  - split; [by eapply flash_keeps|]. split; [done|]. split; [intros v n _; apply K|]. intros -> Hr. destruct Hf; congruence.
  - split; [eapply flash_updates; [done..|by intros ? [= <-]]|]. split; [done|]. split.
    + intros v n Hx. by rewrite (upd_leb _ _ _ _ _ _ U), bool_decide_false.
    + intros _ _. by rewrite (upd_leb _ _ _ _ _ _ U), bool_decide_true.
Qed.

Lemma flash_write u vol l buf : flash_ok u vol -> 0 <= l < 2 ^ 31 -> bytes buf ->
  Z.of_nat (length buf) <= usable_leb_size vol -> (ro u = false -> leb g u (vol_id vol) l = None) ->
  exists err u', ubi_eba_write_leb g fuel u vol l buf 0 UBI_UNKNOWN = Some (err, u')
    /\ writes u u' vol l (written (usable_leb_size vol) 0 buf) err.
Proof.
  intros Hok Hl Hb Hn Hnone. destruct (ro u) eqn:Hr.
  - unfold ubi_eba_write_leb. rewrite Hr. do 2 eexists. split; [done|]. by split_and!.
  - pose proof (fl_usable _ _ Hok) as Hu.
    destruct (write_leb_spec g Hg fuel u vol l buf 0 UBI_UNKNOWN (fl_good _ _ Hok Hr) (fl_vol _ _ Hok) Hl Hb ltac:(lia) ltac:(lia)
      (Hnone eq_refl) ltac:(by right; right)) as (err & u' & -> & G & W). do 2 eexists. split; [done|].
    rewrite <- Hu in W. eapply wrote_writes; [done..|]. apply length_written; lia.
Qed.

(** The tail of the buffer is not looked at. *)
Lemma write_st_take (u : dev) vol l buf len used n :
  0 <= len -> len <= n -> ALIGN len (min_io_size g) <= n ->
  ubi_eba_write_leb_st g fuel u vol l buf len UBI_UNKNOWN used
  = ubi_eba_write_leb_st g fuel u vol l (take (Z.to_nat n) buf) len UBI_UNKNOWN used.
Proof.
  intros H0 H1 H2. unfold ubi_eba_write_leb_st. set (k := if l =? used - 1 then _ else _).
  assert (Hk : k <= n) by (unfold k; destruct (_ =? _); lia). clearbody k.
  rewrite !take_take, !Nat.min_l by lia. done.
Qed.

Lemma flash_write_st u vol l buf len used : flash_ok u vol -> 0 <= l < 2 ^ 31 ->
  bytes (take (Z.to_nat (usable_leb_size vol)) buf) -> 0 < len <= usable_leb_size vol ->
  usable_leb_size vol <= Z.of_nat (length buf) -> (ro u = false -> leb g u (vol_id vol) l = None) ->
  exists err u' n, ubi_eba_write_leb_st g fuel u vol l buf len UBI_UNKNOWN used = Some (err, u')
    /\ len <= n <= usable_leb_size vol
    /\ writes u u' vol l (written (usable_leb_size vol) 0 (take (Z.to_nat n) buf)) err.
Proof.
  intros Hok Hl Hb Hlen Hn Hnone. pose proof (fl_usable _ _ Hok) as Hu. pose proof (fl_vol _ _ Hok) as Hv.
  destruct (ro u) eqn:Hr.
  { unfold ubi_eba_write_leb_st. rewrite Hr. do 2 eexists. exists len. split; [done|]. split; [lia|]. by split_and!. }
  assert (Ha : len <= ALIGN len (min_io_size g) <= usable_leb_size vol).
  { destruct (min_io_pow g Hg) as (k & Hk & Hm). destruct (vol_pad _ _ _ Hv) as [_ Hd]. rewrite Hm in *.
    apply ALIGN_bounds; [done|lia|]. rewrite Hu. apply Z.divide_sub_r; [rewrite <- Hm; apply (wf_leb_io g Hg)|done]. }
  rewrite (write_st_take u vol l buf len used (usable_leb_size vol)) by lia.
  set (b := take _ buf) in *. assert (Hbl : Z.of_nat (length b) = usable_leb_size vol) by (unfold b; rewrite length_take; lia).
  destruct (write_st_spec g Hg fuel u vol l b len UBI_UNKNOWN used (fl_good _ _ Hok Hr) Hv Hl Hb ltac:(lia) ltac:(lia)
    (Hnone eq_refl) ltac:(by right; right)) as (err & u' & -> & G & W).
  set (n := if l =? used - 1 then _ else _) in W.
  assert (Hnb : len <= n <= usable_leb_size vol) by (unfold n; destruct (_ =? _); lia). clearbody n.
  exists err, u', n. split; [done|]. split; [done|]. rewrite <- Hu in W.
  replace (take (Z.to_nat n) buf) with (take (Z.to_nat n) b) by (unfold b; rewrite take_take; f_equal; lia).
  eapply wrote_writes; [done..|]. apply length_written; [lia..|]. rewrite length_take. lia.
Qed.

(** Reading, in whatever mode. *)
Lemma flash_read u vol l off len check : flash_ok u vol -> 0 <= off -> 0 <= len -> off + len <= usable_leb_size vol ->
  (forall err buf u', ubi_eba_read_leb g fuel u vol l off len check = Some (err, buf, u') ->
     flash_ok u' vol /\ (forall v n, leb g u' v n = leb g u v n) /\ (err = 0 -> shows (leb g u (vol_id vol) l) off len buf))
  /\ (ro u = false -> exists err buf u', ubi_eba_read_leb g fuel u vol l off len check = Some (err, buf, u')).
Proof.
  intros Hok Ho Hlen Hle. pose proof (fl_usable _ _ Hok) as Hu. destruct (vol_pad _ _ _ (fl_vol _ _ Hok)) as [Hpad _].
  destruct (ro u) eqn:Hr; (split; [|]); try done.
  - intros err buf u' E. destruct (read_leb_frozen g fuel u vol l off len check Hr (err, buf) u' E) as [_ Hf].
    split; [by eapply flash_frozen|]. split; [intros v n; by apply frozen_leb|]. intros ->.
    by apply (read_shows g Hg fuel u vol l off len check buf u'); [apply Hok|done|done|lia|].
  - destruct (read_spec g Hg fuel u vol l off len check (fl_good _ _ Hok Hr) Hr) as (err & buf & u' & -> & G & K & Hs); [lia..|].
    intros ? ? ? [= <- <- <-]. split; [by eapply flash_keeps|]. split; [apply K|done].
  - intros _. destruct (read_spec g Hg fuel u vol l off len check (fl_good _ _ Hok Hr) Hr) as (err & buf & u' & -> & _); [lia..|].
    by do 3 eexists.
Qed.

(** *** The volume table *)

Lemma bytes_vtbl_record r : bytes (r_name r) -> bytes (vtbl_record_bytes r).
Proof.
  intros Hn. unfold vtbl_record_bytes. repeat apply Forall_app_2; try apply be_bytes_bytes; try done.
  - repeat (apply Forall_cons; split); [apply wrap_in_word; lia|by destruct (r_upd_marker r)|done].
  - by apply Forall_replicate.
  - by apply Forall_replicate.
Qed.

Lemma bytes_vtbl_image t : Forall (fun r => bytes (r_name r)) t -> bytes (vtbl_image g t).
Proof.
  intros Ht. unfold vtbl_image. apply Forall_app_2; [|by apply Forall_replicate].
  induction Ht as [|r t Hr Ht IH]; [done|]. cbn [map concat]. apply Forall_app_2; [by apply bytes_vtbl_record|done].
Qed.

(** The marker of a record is one byte. *)
Lemma length_mark_record b r : length (vtbl_record_bytes (mark_record b r)) = length (vtbl_record_bytes r).
Proof. unfold vtbl_record_bytes. rewrite !length_app, !length_be_bytes. done. Qed.

Lemma table_mark t i b : table_ok t ->
  table_ok (<[Z.to_nat i := mark_record b (nth (Z.to_nat i) t empty_vtbl_record)]> t).
Proof.
  intros [Hn Hl]. set (j := Z.to_nat i). destruct (decide (j < length t)%nat) as [Hj|Hj].
  2: { by rewrite list_insert_ge by lia. }
  destruct (lookup_lt_is_Some_2 t j Hj) as [r Hr]. rewrite (nth_lookup_Some _ _ _ _ Hr). split.
  - apply Forall_insert; [done|]. by apply (Forall_lookup_1 _ _ _ _ Hn Hr).
  - unfold vtbl_image in *.
    assert (E : length (concat (map vtbl_record_bytes (<[j := mark_record b r]> t))) = length (concat (map vtbl_record_bytes t))).
    { rewrite <- (take_drop_middle t j r Hr) at 2. rewrite (insert_take_drop t j) by done.
      rewrite !map_app, !concat_app, !length_app. cbn [map concat]. by rewrite !length_app, length_mark_record. }
    rewrite length_app, length_replicate in *. by rewrite E.
Qed.

Lemma flash_change u vol b : flash_ok u vol ->
  exists err u', ubi_change_vtbl_record g fuel u (vol_id vol)
      (Some (mark_record b (nth (Z.to_nat (vol_id vol)) (vtbl u) empty_vtbl_record))) = Some (err, u')
    /\ flash_ok u' vol /\ err <= 0 /\ (ro u = true -> err <> 0)
    /\ forall v n, v <> UBI_LAYOUT_VOLUME_ID -> leb g u' v n = leb g u v n.
Proof.
  intros Hok. pose proof (table_mark _ (vol_id vol) b (fl_table _ _ Hok)) as Ht. destruct (ro u) eqn:Hr.
  - unfold ubi_change_vtbl_record. cbn [default]. set (u1 := set_vtbl _ u). cbn [UBI_LAYOUT_VOLUME_EBS write_copies].
    unfold ubi_eba_unmap_leb. change (ro u1) with (ro u). rewrite Hr. cbn [mbind option_bind negb Z.eqb EROFS Z.opp].
    do 2 eexists. split; [done|]. split; [|by split_and!]. destruct Hok as [H1 H2 H3 H4 H5 H6 H7 H8]. split; try done; [|by destruct H3|by destruct H4].
    intros Hx. unfold u1 in Hx. cbn in Hx. congruence.
  - destruct (change_vtbl_spec g Hg fuel u (vol_id vol) (Some (mark_record b (nth (Z.to_nat (vol_id vol)) (vtbl u) empty_vtbl_record)))
      (fl_good _ _ Hok Hr) (fl_layout _ _ Hok)) as (err & u' & -> & G & Hv & Hp & Ho & _ & _ & Hro & He).
    { apply bytes_vtbl_image, Ht. } { apply Ht. }
    do 2 eexists. split; [done|]. split; [|split; [done|]; split; [congruence|done]].
    eapply flash_good; [exact Hok|done|done|by rewrite Hv|].
    intros l c. rewrite Ho by apply Hok. by eapply fl_len.
Qed.

(** Between two calls there are no works on a device that writes. *)
Lemma flash_flush u vol : flash_ok u vol ->
  (forall err u', ubi_wl_flush g fuel u = Some (err, u') ->
     flash_ok u' vol /\ err <= 0 /\ forall v n, leb g u' v n = leb g u v n)
  /\ (ro u = false -> ubi_wl_flush g fuel u = Some (0, u)).
Proof.
  intros Hok. assert (Hw : ro u = false -> ubi_wl_flush g fuel u = Some (0, u)).
  { intros Hr. destruct (fl_good _ _ Hok Hr) as (_ & (Hw & _) & _).
    assert (Hf : flush_loop g fuel (length (works (wl u))) u = Some (0, u)) by (by rewrite Hw; cbn; rewrite Hw).
    unfold ubi_wl_flush. rewrite Hf. exact Hf. }
  split; [|done]. intros err u' E. destruct (ro u) eqn:Hr.
  - destruct (flush_frozen g fuel u Hr err u' E) as [He Hf].
    split; [by eapply flash_frozen|]. split; [done|]. intros v n. by apply frozen_leb.
  - rewrite Hw in E by done. by simplify_eq.
Qed.

(** On a device that writes every call has a result. *)
Lemma call_returns u vol : flash_ok u vol -> ro u = false ->
  is_Some (ubi_wl_flush g fuel u) /\ forall l off len check,
    (is_Some (ubi_eba_unmap_leb g fuel u vol l))
    /\ (0 <= off -> 0 <= len -> off + len <= usable_leb_size vol -> is_Some (ubi_eba_read_leb g fuel u vol l off len check)).
Proof.
  intros Hok Hr. split; [destruct (flash_flush u vol Hok) as [_ ->]; done|]. intros l off len check. split.
  - destruct (flash_unmap u vol l Hok) as (? & ? & -> & _). done.
  - intros Ho Hl Hle. destruct (flash_read u vol l off len check Hok Ho Hl Hle) as [_ Hx].
    destruct (Hx Hr) as (? & ? & ? & ->). done.
Qed.

(** *** What is seen of an erase block *)

Lemma view_none off len : UbiSpec.view None off len = replicate (Z.to_nat len) 0xff.
Proof.
  unfold UbiSpec.view. apply list_eq. intros i. rewrite list_lookup_fmap. destruct (decide (i < Z.to_nat len)%nat).
  - rewrite lookup_seq_lt, lookup_replicate_2 by done. cbn. by destruct (_ + _)%nat.
  - rewrite lookup_seq_ge by lia. symmetry. apply lookup_ge_None_2. rewrite length_replicate. lia.
Qed.

Lemma view_sub c off len : 0 <= off -> 0 <= len -> off + len <= Z.of_nat (length c) ->
  UbiSpec.view (Some c) off len = sub c (Z.to_nat off) (Z.to_nat len).
Proof.
  intros Ho Hl Hle. unfold UbiSpec.view, sub. apply list_eq. intros i. rewrite list_lookup_fmap.
  destruct (decide (i < Z.to_nat len)%nat).
  - rewrite lookup_seq_lt, lookup_take_lt, lookup_drop by done. cbn.
    destruct (lookup_lt_is_Some_2 c (Z.to_nat off + i) ltac:(lia)) as [x Hx]. rewrite Hx. f_equal. by apply nth_lookup_Some.
  - by rewrite lookup_seq_ge, lookup_take_ge by lia.
Qed.

Lemma view_written n buf len : Z.of_nat (length buf) <= n -> 0 <= len <= n ->
  UbiSpec.view (Some (written n 0 buf)) 0 len = UbiSpec.view (Some buf) 0 len.
Proof.
  intros Hb Hl. unfold UbiSpec.view. apply map_ext_in. intros i Hi%in_seq. cbn [default id Z.to_nat]. rewrite !Nat.add_0_l.
  unfold written, overwrite. rewrite take_0, Nat.add_0_l. cbn [app id]. destruct (decide (i < length buf)%nat).
  - rewrite app_nth1 by lia. done.
  - rewrite app_nth2, (nth_overflow buf) by lia.
    rewrite nth_lookup, lookup_drop, lookup_replicate_2 by lia. done.
Qed.

Lemma shows_view u vol l off len buf : flash_ok u vol -> 0 <= off -> 0 <= len -> off + len <= usable_leb_size vol ->
  shows (leb g u (vol_id vol) l) off len buf -> buf = UbiSpec.view (leb g u (vol_id vol) l) off len.
Proof.
  intros Hok Ho Hl Hle. pose proof (fl_len _ _ Hok l) as Hc. destruct (leb g u (vol_id vol) l) as [c|]; cbn [shows].
  - specialize (Hc c eq_refl). intros Hs. rewrite view_sub by lia. apply Hs. lia.
  - by rewrite view_none.
Qed.

(** The layer keeps what the commands rely on. *)
Definition flash_eba_ok : @UbiSpec.UbiEbaOk (dev * H) flash_eba.
Proof.
  unshelve refine (@UbiSpec.Build_UbiEbaOk _ flash_eba (fun f v n => leb g f.1 v n) (fun f vol => flash_ok f.1 vol) _ _ _ _ _ _ _ _ _ _ _);
    cbn [flash_eba Ubi.ro_mode Ubi.vtbl Ubi.ubi_change_vtbl_record Ubi.ubi_eba_unmap_leb Ubi.ubi_eba_read_leb
         Ubi.ubi_eba_write_leb Ubi.ubi_eba_write_leb_st Ubi.ubi_wl_flush Ubi.malloc].
  - intros f vol l b o Hr. unfold ubi_eba_write_leb. by rewrite Hr.
  - intros f vol l b n used Hr. unfold ubi_eba_write_leb_st. by rewrite Hr.
  - intros [u h] i r f' E. cbn [fst] in *. destruct (ro u) eqn:Hr; [|done]. exfalso. revert E.
    unfold ubi_change_vtbl_record. set (u1 := set_vtbl _ u). cbn [UBI_LAYOUT_VOLUME_EBS write_copies].
    unfold ubi_eba_unmap_leb. change (ro u1) with (ro u). rewrite Hr. done.
  - intros [u h] vol l e f' Hok E. cbn [fst] in *. destruct (flash_unmap u vol l Hok) as (err & u' & Hw & H1).
    rewrite Hw in E. by injection E as <- <-.
  - intros [u h] vol l b e f' Hok Hl Hb Hn Hnone E. cbn [fst] in *.
    destruct (flash_write u vol l b Hok Hl Hb Hn Hnone) as (err & u' & Hw & H1 & H2 & H3 & H4). rewrite Hw in E.
    injection E as <- <-. cbn [fst snd call]. split_and!; try done. intros He Hr len Hlen. rewrite H4 by done. by apply view_written.
  - intros [u h] vol l b len used e f' Hok Hl Hb Hlen Hn Hnone E. cbn [fst] in *.
    destruct (flash_write_st u vol l b len used Hok Hl Hb Hlen Hn Hnone) as (err & u' & n & Hw & Hln & H1 & H2 & H3 & H4).
    rewrite Hw in E. injection E as <- <-. cbn [fst snd call]. split_and!; try done. intros He Hr. rewrite H4 by done.
    rewrite view_written by (rewrite ?length_take; lia). rewrite view_sub by (rewrite ?length_take; lia).
    unfold sub. rewrite drop_0, take_take. f_equal. lia.
  - intros [u h] vol l off len check e out f' Hok Ho Hlen Hle E. cbn [fst] in *.
    destruct (flash_read u vol l off len check Hok Ho Hlen Hle) as [Hr _].
    destruct (ubi_eba_read_leb g fuel u vol l off len check) as [[[err buf] u']|]; injection E as <- <- <-; [|done].
    destruct (Hr _ _ _ eq_refl) as (H1 & H2 & H3). split; [done|]. split; [done|]. intros He. eapply shows_view; auto.
  - intros [u h] vol b e f' Hok E. cbn [fst] in *. destruct (flash_change u vol b Hok) as (err & u' & Hw & H1 & H2 & _ & H3).
    rewrite Hw in E. by injection E as <- <-.
  - intros [u h] vol e f' Hok E. cbn [fst] in *. destruct (flash_flush u vol Hok) as [Hr _].
    destruct (ubi_wl_flush g fuel u) as [[err u']|]; injection E as <- <-; [|done]. by apply (Hr err u').
  - intros [u h] vol size Hok. cbn [fst snd]. by destruct (heap_alloc h size) as [b h'].
  - intros [u h] size b f' Hs E. cbn [fst snd] in E. destruct (heap_alloc h size) as [o h'] eqn:Ea. injection E as -> <-.
    by eapply heap_length.
Defined.

End Layer.

(** ** Volumes on a chip *)


(** *** A small chip *)

(** Memory that is never short. *)
#[export, refine] Instance plain_heap : Heap unit := {|
  heap_alloc h size := (Some (replicate (Z.to_nat size) 0xa5), h);
  heap_length := _;
|}.
Proof. intros h size b h' Hs [= <- _]. rewrite length_replicate. lia. Defined.

Definition flash_volume : ubi_volume :=
  Vol sample_volume (Extent 3 384 1152) (Update 0 0 0 []) false false false false.

Definition flash_sample : @Ubi.ubi_device (device chip * unit) :=
  Ubi.Ubi (sample_device, tt) 384 64 2 0 0 0 0 2 [None; Some flash_volume; None].

Definition flash_data : list Z := (fun i => i mod 251) <$> seqZ 7 500.

Lemma flash_data_bytes : bytes flash_data.
Proof. apply bytes_check. vm_compute. reflexivity. Qed.

Lemma flash_sample_ok : flash_ok small_geometry sample_fuel sample_device sample_volume.
Proof.
  split.
  - eapply good_tables, sample_device_good.
  - intros _. apply sample_device_good.
  - by apply sample_vol_ok.
  - split; [cbn; set_solver|by vm_compute|]. cbn. split; [lia|]. by exists 0.
  - done.
  - done.
  - intros l c Hl. done.
  - split; [|vm_compute; discriminate]. repeat (apply Forall_cons; split; [apply bytes_check; reflexivity|]). done.
Qed.


(** The update succeeds on it, over two erase blocks of the volume, with the
    table written twice. *)
Example flash_written n :
  let _ := @flash_eba chip unit _ _ small_geometry (20 + n) in
  match ubi_volume_write flash_sample (cstr (bytes_of "part")) flash_data with
  | Some (err, d) => err = 0 /\ ro (flash d).1 = false
      /\ (match ubi_volume_read d (cstr (bytes_of "part")) 500 with Some (e, out, _) => e = 0 /\ out = flash_data | None => False end)
  | None => False
  end.
Proof. vm_compute. split; [reflexivity|]. split; [reflexivity|]. split; reflexivity. Qed.

End UbiFlash.
