(* ===== verification/Meraki.v ===== *)
(** * The upgrade counter (common/cmd_meraki.c)

    [meraki_check_upgrade] runs the [ubi] command on command lines that it
    prints; the shell that splits them ([run_command]) is a parameter.  The
    counter is one byte on the stack, at [count_addr]. *)

From stdpp Require Import relations.
From S2P Require Import Prelude Cstring Vsprintf Ubi UbiSpec.

Module Meraki.
Import Cstring Vsprintf Ubi UbiSpec.

Definition CMD_RET_SUCCESS : Z := 0.
Definition CMD_RET_FAILURE : Z := 1.

Section Meraki.
Context {F : Type} `{!UbiEba F}.
Context (mtdparts_init : @world F -> Z * @world F) (ubi_part : @world F -> list (list Z) -> option (Z * @world F)).
Context (run_command : @world F -> list Z -> option (Z * @world F)).
Context (count_addr : Z).

(** [sprintf] to [char cmd[128]]. *)
Definition print_cmd (fmt : string) : option (list Z) :=
  cmd ← sprintf (bytes_of fmt) [AInt count_addr];
  if (128 <? length cmd)%nat then None else Some cmd.

Definition set_count (w : @world F) (count : Z) : world := World (dev w) (selected w) (store (memory w) count_addr [count]).

Definition do_meraki_check_upgrade (w : world) : option (Z * world) :=
  '(r, w) ← run_command w (cstr (bytes_of "ubi check upgrade_retries"));
  if negb (r =? CMD_RET_SUCCESS) then Some (CMD_RET_FAILURE, w) else
  cmd ← print_cmd "ubi read 0x%x upgrade_retries 1";
  '(r, w) ← run_command w cmd;
  if negb (r =? CMD_RET_SUCCESS) then Some (CMD_RET_FAILURE, w) else
  let w := if 5 <? memory w count_addr then set_count w 5 else w in
  if memory w count_addr =? 0 then Some (CMD_RET_FAILURE, w) else
  let w := set_count w (u8 (memory w count_addr - 1)) in
  cmd ← print_cmd "ubi write 0x%x upgrade_retries 1";
  '(r, w) ← run_command w cmd;
  if negb (r =? CMD_RET_SUCCESS) then Some (CMD_RET_FAILURE, w) else
  Some (CMD_RET_SUCCESS, w).

(** ** What the command lines do *)

(** A word the shell passes on as it is. *)
Definition plain_char (c : Z) : Prop := 48 <= c <= 57 \/ 65 <= c <= 90 \/ 97 <= c <= 122 \/ c = 95.
Definition plain (s : str) : Prop := s <> [] /\ Forall plain_char s.

#[global] Instance plain_char_dec c : Decision (plain_char c).
Proof. unfold plain_char. apply _. Defined.

(** A command line of plain words with one space between them. *)
Fixpoint join (l : list str) : str :=
  match l with
  | [] => []
  | [s] => s
  | s :: l => s ++ 32 :: join l
  end.

(** What the shell does with such a command line of [ubi]. *)
Definition runs_ubi : Prop :=
  forall w args, Forall plain args ->
  run_command w (cstr (join (bytes_of "ubi" :: args)))
  = do_ubi mtdparts_init ubi_part w (cstr (bytes_of "ubi") :: map cstr args).

Hypothesis Hrun : runs_ubi.
Hypothesis Hmtd : forall w, mtdparts_init w = (0, w).
Hypothesis Haddr : 0 <= count_addr < 2 ^ 32.

Definition name : str := bytes_of "upgrade_retries".
Definition hex : list Z := rev (number_digits count_addr 16 32).

Lemma do_ubi_check w :
  selected w = true ->
  do_ubi mtdparts_init ubi_part w (map cstr [bytes_of "ubi"; bytes_of "check"; name])
  = (r ← ubi_check (dev w) (cstr name); Some (r, w)).
Proof. destruct w as [d sel m]. cbn. intros ->. unfold do_ubi. by rewrite Hmtd. Qed.

Lemma do_ubi_read w a v s :
  selected w = true ->
  do_ubi mtdparts_init ubi_part w [cstr (bytes_of "ubi"); cstr (bytes_of "read"); a; v; s]
  = (size ← hex_arg s; addr ← hex_arg a;
     '(err, out, d) ← ubi_volume_read (dev w) v size;
     Some (err, World d (selected w) (store (memory w) addr out))).
Proof. destruct w as [d sel m]. cbn. intros ->. unfold do_ubi. by rewrite Hmtd. Qed.

Lemma do_ubi_write w a v s :
  selected w = true ->
  do_ubi mtdparts_init ubi_part w [cstr (bytes_of "ubi"); cstr (bytes_of "write"); a; v; s]
  = (addr ← hex_arg a; size ← hex_arg s;
     r ← ubi_volume_write (dev w) v (load (memory w) addr (Z.to_nat size));
     Some (with_dev w r)).
Proof. destruct w as [d sel m]. cbn. intros ->. unfold do_ubi. by rewrite Hmtd. Qed.

Lemma length_pow2_digits fuel : forall num mask shift locase,
  (length (pow2_digits fuel num mask shift locase) <= fuel)%nat.
Proof.
  induction fuel as [|fuel IH]; intros num mask shift locase; [done|]. cbn [pow2_digits length].
  specialize (IH (num .>> shift) mask shift locase). destruct (negb _); cbn [length]; lia.
Qed.

Lemma length_hex : (length hex <= 66)%nat.
Proof.
  unfold hex, number_digits. rewrite length_rev. destruct (count_addr =? 0); [cbn; lia|].
  change (negb (16 =? 10)) with true. apply length_pow2_digits.
Qed.

Lemma hex_chars fuel : forall num, Forall plain_char (pow2_digits fuel num 15 4 32).
Proof.
  assert (H : Forall (fun k => plain_char (nth k digits 0 .| 32)) (seq 0 16)) by (by apply (bool_decide_unpack _)).
  rewrite Forall_forall in H.
  induction fuel as [|fuel IH]; intros num; cbn [pow2_digits]; [constructor|]. constructor.
  - apply (H (Z.to_nat (u8 num .& 15))). apply elem_of_seq. split; [lia|].
    change 15 with (Z.ones 4). rewrite Z.land_ones by lia. pose proof (Z.mod_pos_bound (u8 num) (2 ^ 4)). lia.
  - destruct (negb _); [apply IH|constructor].
Qed.

Lemma hex_plain : plain (48 :: 120 :: hex).
Proof.
  split; [done|]. constructor; [by apply (bool_decide_unpack _)|]. constructor; [by apply (bool_decide_unpack _)|].
  unfold hex, number_digits. apply List.Forall_rev. destruct (count_addr =? 0); [by apply (bool_decide_unpack _)|].
  apply hex_chars.
Qed.

Lemma hex_arg_addr : hex_arg (cstr (48 :: 120 :: hex)) = Some count_addr.
Proof.
  unfold hex_arg, cstr, hex. cbn [app]. destruct (hex_digits_ok count_addr Haddr) as (Hd & Hv & Hne).
  rewrite strtoul_0x by done. cbn [mbind option_bind]. by rewrite Hv, u32_small.
Qed.

(** The command line of [ubi read] or [ubi write]. *)
Lemma print_cmd_ok (op : string) fmt :
  bytes_of fmt = (bytes_of "ubi " ++ bytes_of op ++ bytes_of " 0x") ++ 37 :: 120 :: bytes_of " upgrade_retries 1" ->
  op ∈ ["read"; "write"]%string ->
  print_cmd fmt = Some (cstr (join [bytes_of "ubi"; bytes_of op; 48 :: 120 :: hex; name; bytes_of "1"])).
Proof.
  intros Hfmt Hop. unfold print_cmd. rewrite Hfmt. pose proof length_hex as Hl.
  assert (Hlen : (length (bytes_of op) <= 5)%nat /\ text (bytes_of "ubi " ++ bytes_of op ++ bytes_of " 0x")).
  { rewrite elem_of_cons, list_elem_of_singleton in Hop. destruct Hop as [->| ->]; by apply (bool_decide_unpack _). }
  destruct Hlen as [Hlen Ht]. rewrite sprintf_hex; [|done|by apply (bool_decide_unpack _)|done].
  cbn [mbind option_bind]. fold hex. rewrite !length_app.
  change (length (bytes_of "ubi ")) with 4%nat. change (length (bytes_of " 0x")) with 3%nat.
  change (length (bytes_of " upgrade_retries 1")) with 18%nat. cbn [length].
  destruct (Nat.ltb_spec 128 (4 + (length (bytes_of op) + 3) + (length hex + (18 + 1)))); [lia|].
  f_equal. unfold cstr. cbn [join]. repeat (rewrite <- app_assoc; cbn [app]). done.
Qed.

(** ** The counter *)

Context `{!UbiEbaOk F}.

(** The volume of the counter is there, on a flash layer in order, can be read,
    and holds [c]. *)
Definition holds (w : world) (c : Z) : Prop :=
  selected w = true /\ exists i vol,
    ubi_find_volume (dev w) (cstr name) = Some (Some (i, vol))
    /\ wf_volume (leb_size (dev w)) (min_io_size (dev w)) (geo vol)
    /\ leb_size (dev w) - data_pad (geo vol) = usable_leb_size (geo vol)
    /\ 1 <= reserved_pebs (geo vol)
    /\ (vol_type (geo vol) = UBI_DYNAMIC_VOLUME ->
        used_bytes (ext vol) = reserved_pebs (geo vol) * usable_leb_size (geo vol))
    /\ 1 <= used_bytes (ext vol) /\ updating vol = false /\ upd_marker vol = false
    /\ eba_ok (flash (dev w)) (geo vol)
    /\ stored (geo vol) [c] (flash (dev w)) (reserved_pebs (geo vol)).

Lemma find_checked l1 l2 s i : find_slot l1 s = Some (Some i) -> check_slots (l1 ++ l2) s = Some 0.
Proof.
  revert i. induction l1 as [|[v|] l1 IH]; intros i H; [done| |].
  - cbn [find_slot app check_slots] in *. unfold ubi_check_volumename.
    apply bind_Some in H as (r & -> & H). cbn [mbind option_bind]. destruct (r =? 0); [done|].
    apply bind_Some in H as (o & Ho & H). destruct o as [o|]; [|done]. by eapply IH.
  - cbn [find_slot app check_slots] in *. apply bind_Some in H as (o & Ho & H).
    destruct o as [o|]; [|done]. by eapply IH.
Qed.

Lemma check_found (d : @ubi_device F) s i vol : ubi_find_volume d s = Some (Some (i, vol)) -> ubi_check d s = Some 0.
Proof.
  unfold ubi_find_volume, ubi_check. intros (r & Hr & H)%bind_Some. injection H as H.
  destruct r as [j|]; [|done]. destruct (Z.le_gt_cases 0 (vtbl_slots d)).
  - replace (Z.to_nat (vtbl_slots d + 1)) with (Z.to_nat (vtbl_slots d) + 1)%nat by lia.
    rewrite <- take_take_drop. by eapply find_checked.
  - replace (Z.to_nat (vtbl_slots d)) with 0%nat in Hr by lia. done.
Qed.

(** The words of the command lines. *)
Lemma args_plain (op : string) :
  plain (bytes_of op) -> Forall plain [bytes_of op; 48 :: 120 :: hex; name; bytes_of "1"].
Proof.
  intros Hop. do 2 (constructor; [first [exact Hop|apply hex_plain]|]).
  do 2 (constructor; [by apply (bool_decide_unpack _)|]). constructor.
Qed.

Lemma run_read w c :
  holds w c ->
  exists err w', run_command w (cstr (join [bytes_of "ubi"; bytes_of "read"; 48 :: 120 :: hex; name; bytes_of "1"]))
      = Some (err, w') /\ holds w' c /\ (err = 0 -> memory w' count_addr = c).
Proof.
  intros (Hsel & i & vol & Hf & Hwf & Hpad & Hres & Hdyn & Hused & Hu & Hm & Hok0 & Hst).
  rewrite Hrun by (apply args_plain; by apply (bool_decide_unpack _)). cbn [map].
  rewrite do_ubi_read by done. change (hex_arg (cstr (bytes_of "1"))) with (Some 1). cbn [mbind option_bind].
  rewrite hex_arg_addr. cbn [mbind option_bind]. pose proof (wf_usable _ _ _ Hwf) as HU.
  destruct (volume_read_ok _ _ _ [c] Hwf ltac:(cbn [length]; nia) (dev w) (cstr name) i vol 1)
    as (err & out & d' & -> & Hd' & Hl & Hok' & Hout); [done|done|done|done|done|done|cbn [length]; lia|lia|done|].
  cbn [mbind option_bind]. eexists err, _. split; [done|]. split.
  - split; [done|]. exists i, vol. cbn [dev]. rewrite Hd'. split_and!; try done.
    intros k Hk Hkd. cbn [flash set_flash]. rewrite Hl. by apply Hst.
  - intros He. cbn [memory]. rewrite (Hout He). unfold store. cbn [take Z.to_nat Pos.to_nat Pos.iter_op length].
    change (Z.to_nat 1) with 1%nat. cbn [take length]. destruct (Z.leb_spec count_addr count_addr); [|lia].
    destruct (Z.ltb_spec count_addr (count_addr + Z.of_nat 1)); [|lia]. cbn [andb]. by rewrite Z.sub_diag.
Qed.

Lemma run_write w c :
  holds w c -> in_word 8 (memory w count_addr) ->
  exists err w', run_command w (cstr (join [bytes_of "ubi"; bytes_of "write"; 48 :: 120 :: hex; name; bytes_of "1"]))
      = Some (err, w') /\ (err = 0 -> holds w' (memory w count_addr)).
Proof.
  intros (Hsel & i & vol & Hf & Hwf & Hpad & Hres & Hdyn & Hused & Hu & Hm & Hok0 & Hst) Hbyte.
  rewrite Hrun by (apply args_plain; by apply (bool_decide_unpack _)). cbn [map].
  rewrite do_ubi_write by done. rewrite hex_arg_addr. cbn [mbind option_bind].
  change (hex_arg (cstr (bytes_of "1"))) with (Some 1). cbn [mbind option_bind].
  change (load (memory w) count_addr (Z.to_nat 1)) with [memory w (count_addr + 0)]. rewrite Z.add_0_r.
  pose proof (wf_usable _ _ _ Hwf) as HU.
  destruct (volume_write_ok _ _ _ [memory w count_addr] Hwf ltac:(cbn [length]; nia) ltac:(by constructor)
    (dev w) (cstr name) i vol) as (err & d' & vol' & -> & Hd' & Hg' & Hok' & _ & Hok);
    [done|done|done|done|done|cbn [length]; lia|done|].
  cbn [mbind option_bind]. eexists err, _. split; [done|]. intros He. destruct (Hok He) as (Hu' & Hm' & Hx' & Hs').
  split; [done|]. exists i, vol'. cbn [with_dev dev fst snd].
  assert (Hn : used_bytes (ext vol') = used_bytes (ext vol) /\ vol_type (geo vol) = UBI_DYNAMIC_VOLUME
               \/ used_bytes (ext vol') = 1 /\ vol_type (geo vol) = UBI_STATIC_VOLUME).
  { rewrite Hx'. unfold new_extent, extent_of. destruct (wf_type _ _ _ Hwf) as [Ht|Ht]; rewrite Ht; [by left|right].
    cbn [Z.eqb Pos.eqb UBI_STATIC_VOLUME]. by destruct (_ =? 0). }
  rewrite Hg'. split_and!; try done.
  - rewrite Hd'. by eapply find_volume_set.
  - by rewrite Hd'.
  - by rewrite Hd'.
  - intros Ht. destruct Hn as [[-> _]|[_ Ht']]; [by apply Hdyn|by rewrite Ht in Ht'].
  - lia.
Qed.

Lemma run_check w c :
  holds w c -> run_command w (cstr (bytes_of "ubi check upgrade_retries")) = Some (0, w).
Proof.
  intros (Hsel & i & vol & Hf & _). change (bytes_of "ubi check upgrade_retries")
    with (join [bytes_of "ubi"; bytes_of "check"; name]).
  rewrite Hrun by (do 2 (constructor; [by apply (bool_decide_unpack _)|]); constructor).
  rewrite do_ubi_check by done. by rewrite (check_found _ _ _ _ Hf).
Qed.

Lemma memory_set_count w c : memory (set_count w c) count_addr = c.
Proof.
  cbn [set_count memory]. unfold store. cbn [length]. destruct (Z.leb_spec count_addr count_addr); [|lia].
  destruct (Z.ltb_spec count_addr (count_addr + Z.of_nat 1)); [|lia]. cbn [andb]. by rewrite Z.sub_diag.
Qed.

Lemma holds_set_count w c v : holds w c -> holds (set_count w v) c.
Proof. done. Qed.

(** The command on a counter [c]: how it ends, and the counter then. *)
Lemma check_upgrade_ok w c :
  holds w c -> 0 <= c < 256 ->
  exists r w', do_meraki_check_upgrade w = Some (r, w')
    /\ (r = CMD_RET_FAILURE \/ (r = CMD_RET_SUCCESS /\ 0 < c /\ holds w' (Z.min c 5 - 1)))
    /\ (c = 0 -> r = CMD_RET_FAILURE /\ holds w' 0).
Proof.
  intros Hh Hc. unfold do_meraki_check_upgrade, CMD_RET_SUCCESS, CMD_RET_FAILURE.
  rewrite (run_check _ _ Hh). cbn [mbind option_bind Z.eqb negb].
  rewrite (print_cmd_ok "read" "ubi read 0x%x upgrade_retries 1"); [|done|by apply (bool_decide_unpack _)]. cbn [mbind option_bind].
  destruct (run_read w c Hh) as (err & w1 & -> & Hh1 & Hm1). cbn [mbind option_bind].
  destruct (Z.eqb_spec err 0) as [->|]; cbn [negb].
  2: { eexists _, w1. split; [done|]. split; [by left|]. intros ->. by split. }
  rewrite (Hm1 eq_refl). set (w2 := if 5 <? c then _ else _).
  assert (Hw2 : memory w2 count_addr = Z.min c 5 /\ holds w2 c).
  { unfold w2. destruct (Z.ltb_spec 5 c).
    - rewrite memory_set_count. split; [lia|by apply holds_set_count].
    - rewrite (Hm1 eq_refl). split; [lia|done]. }
  clearbody w2. destruct Hw2 as [Hm2 Hh2]. rewrite Hm2. destruct (Z.eqb_spec (Z.min c 5) 0) as [E|E].
  { eexists _, w2. split; [done|]. split; [by left|]. intros ->. by split. }
  rewrite (print_cmd_ok "write" "ubi write 0x%x upgrade_retries 1"); [|done|by apply (bool_decide_unpack _)]. cbn [mbind option_bind].
  rewrite (wrap_small 8) by (unfold in_word; lia).
  destruct (run_write (set_count w2 (Z.min c 5 - 1)) c (holds_set_count _ _ _ Hh2)
    ltac:(rewrite memory_set_count; unfold in_word; lia)) as (err & w3 & -> & Hok).
  cbn [mbind option_bind]. rewrite memory_set_count in Hok. destruct (Z.eqb_spec err 0) as [->|]; cbn [negb].
  - eexists _, w3. split; [done|]. split; [right|lia]. split_and!; [done|lia|by apply Hok].
  - eexists _, w3. split; [done|]. split; [by left|lia].
Qed.

(** A boot that tries the new image, and the state before the next boot: the
    flash is attached again, with the counter as it was left. *)
Definition attempt (w w2 : world) : Prop :=
  exists w', do_meraki_check_upgrade w = Some (CMD_RET_SUCCESS, w') /\ forall c, holds w' c -> holds w2 c.

Lemma attempts_bound n : forall w w2 c,
  nsteps attempt n w w2 -> holds w c -> 0 <= c < 256 -> Z.of_nat n <= Z.min c 5.
Proof.
  induction n as [|n IH]; intros w w2 c Hn Hh Hc; [lia|].
  inversion Hn as [|? ? w1 ? (w' & Hd & Hnext) Hrest]; subst.
  destruct (check_upgrade_ok w c Hh Hc) as (r & w'' & Hd' & Hcase & _). rewrite Hd in Hd'. injection Hd' as <- <-.
  destruct Hcase as [|(_ & Hpos & Hh')]; [done|].
  specialize (IH w1 w2 (Z.min c 5 - 1) Hrest (Hnext _ Hh') ltac:(lia)). lia.
Qed.

End Meraki.



(** ** A device with a counter *)

(** A shell that splits at spaces. *)
Fixpoint words (cur : str) (s : list Z) : list str :=
  match s with
  | [] => [cur]
  | c :: s => if c =? 32 then cur :: words [] s else words (cur ++ [c]) s
  end.

Definition shell (w : @world ram) (s : list Z) : option (Z * @world ram) :=
  n ← strlen s; do_ubi (fun w => (0, w)) (fun w _ => Some (0, w)) w (map cstr (words [] (take n s))).

Lemma words_app cur s rest : Forall (fun c => c <> 32) s -> words cur (s ++ rest) = words (cur ++ s) rest.
Proof.
  intros Hs. revert cur. induction Hs as [|c s Hc _ IH]; intros cur; [by rewrite app_nil_r|].
  cbn [app words]. destruct (Z.eqb_spec c 32); [done|]. by rewrite IH, <- app_assoc.
Qed.

Lemma plain_chars s : plain s -> Forall (fun c => c <> 32) s /\ is_str s.
Proof. intros [_ H]. split; (eapply Forall_impl; [exact H|]); cbn beta; unfold plain_char; lia. Qed.

Lemma words_join l : Forall plain l -> l <> [] -> words [] (join l) = l.
Proof.
  intros Hl. induction Hl as [|s l Hs Hl IH]; intros Hne; [done|].
  destruct (plain_chars s Hs) as [Hs' _].
  destruct l as [|s2 l].
  - cbn [join]. rewrite <- (app_nil_r s) at 1. by rewrite words_app.
  - cbn [join]. rewrite words_app by done. cbn [app words Z.eqb Pos.eqb]. f_equal. by apply IH.
Qed.

Lemma join_str l : Forall plain l -> is_str (join l).
Proof.
  induction 1 as [|s l Hs Hl IH]; [constructor|]. destruct (plain_chars s Hs) as [_ Hs'].
  destruct l as [|s2 l]; [done|]. cbn [join]. apply Forall_app. split; [done|]. by constructor.
Qed.

Lemma shell_runs_ubi : runs_ubi (fun w => (0, w)) (fun w _ => Some (0, w)) shell.
Proof.
  intros w args Ha. unfold shell.
  assert (Hl : Forall plain (bytes_of "ubi" :: args)) by (constructor; [by apply (bool_decide_unpack _)|done]).
  change (cstr (join (bytes_of "ubi" :: args))) with (join (bytes_of "ubi" :: args) ++ 0 :: []). rewrite strlen_cstr by (by apply join_str). cbn [mbind option_bind].
  by rewrite take_app_length, words_join.
Qed.

Lemma sample_counter : holds w0 3.
Proof.
  split; [done|]. exists 0%nat, (idle retries_geo (Extent 1 1 1)). split_and!; try done.
  - split; cbn; try lia; [by exists 2|by exists 2|unfold UBI_LAYOUT_VOLUME_ID; lia].
  - intros k Hk Hd. assert (k = 0) as -> by (cbn in Hd; lia). by vm_compute.
Qed.


(** The first three attempts of the sample device, and the failure after them. *)
Definition next (w : @world ram) : Z * @world ram := default (-1, w) (do_meraki_check_upgrade shell 0x7ff000 w).

Lemma sample_attempt w : (next w).1 = 0 -> attempt shell 0x7ff000 w (next w).2.
Proof.
  unfold next. intros H. exists (default (-1, w) (do_meraki_check_upgrade shell 0x7ff000 w)).2. split; [|done].
  destruct (do_meraki_check_upgrade _ _ w) as [[r w']|]; [|done]. cbn in H. by subst r.
Qed.

Example three_attempts :
  (next w0).1 = 0 /\ (next (next w0).2).1 = 0 /\ (next (next (next w0).2).2).1 = 0
  /\ (next (next (next (next w0).2).2).2).1 = CMD_RET_FAILURE.
Proof. by vm_compute. Qed.


(** When the volume is there without data, the read reports success and stores
    nothing: the counter is what the stack held (7 here). *)
Example empty_counter_passes :
  option_map fst (do_meraki_check_upgrade shell 0x7ff000
    (World (set_volume 0 (Some (idle retries_geo (Extent 0 8 0))) (sample_device false)) true (fun _ => 7)))
  = Some CMD_RET_SUCCESS.
Proof. by vm_compute. Qed.

End Meraki.
